(* ===== verification/_CoqProject ===== *)
-Q . S2P
Prelude.v
Errors.v
Calculator.v
Wire.v
Raft.v
Election.v
Loops.v
LeaderLoop.v
Aggregator.v
Rounds.v
RoundsLive.v
Nonce.v
Text.v
Signing.v
Collector.v
Float.v
Rounding.v
Reducer.v
FeedData.v
Fetcher.v
Reporter.v
Pipeline.v
ClusterRound.v
Bus.v
App.v
LocalAggregator.v
FetcherApp.v
Runners.v
Hub.v
Signer.v
Util.v
Strings.v
Abi.v
Chain.v
Delegator.v
DalApi.v
DalStats.v
Por.v
Wss.v
Decode.v
WsFetcher.v
GoTime.v
Providers.v
ProvidersA.v
ProvidersB.v
ProvidersC.v
Exchanges.v
Heartbeats.v
ChainReader.v
Uniswap.v
Logs.v
Db.v
RedisStore.v
Checkers.v
Monitors.v
Admin.v
Network.v
Api.v
EthClient.v
Startup.v
Mains.v
Sentinel.v
Scripts.v
Web.v
