(* ===== verification/Prelude.v ===== *)
(** * Verification library of the Orakl node

    The Orakl network publishes price feeds.  A node ([src/node], in Go) runs
    several parts beside each other:

    - fetchers ask exchanges for prices, and websocket clients receive them from
      25 exchanges ([node/pkg/websocketfetcher], [node/pkg/wss]); a local
      aggregator per config turns the latest prices into the node's own price
      and streams it over the message bus ([node/pkg/fetcher],
      [node/pkg/utils/reducer], [node/pkg/bus]);
    - per config, the nodes elect a leader ([node/pkg/raft]), which triggers
      rounds: every node sends its price, the leader fixes the median, every
      node signs the fix, and the signatures are published
      ([node/pkg/aggregator]);
    - the data access layer checks the signatures against the oracles registered
      on the chain, orders them, and serves the result over websockets and HTTP
      ([node/pkg/dal]);
    - the reporter submits data to the chain, at intervals and when a price
      deviates ([node/pkg/reporter]), with keys, nonces and transactions managed
      by [node/pkg/chain]; the delegator ([node/pkg/delegator]) pays the fees of
      the transactions it approves; proof of reserve ([node/pkg/por]) submits
      one value of its own;
    - nodes find each other through the boot node ([node/pkg/libp2p],
      [node/pkg/boot]) and share postgres and redis access ([node/pkg/db]);
    - operators use the admin API of a node ([node/pkg/admin]) and the HTTP API
      ([node/pkg/api]); checkers watch the services and report to Slack
      ([node/pkg/checker], [node/pkg/alert]); the log services collect the logs
      of all of them ([node/pkg/logscribeconsumer], [node/pkg/logscribe]).

    ** Files

    In order of dependency; a file's definitions carry the names of the source
    and its opening comment names the source files.

    - [Prelude]: machine integers as [Z] with explicit wrap-around, tactics, the
      hint database [go], general lemmas on lists and maps.
    - [Errors]: [node/pkg/error]; the type [res] of Go results [(A, error)].
    - [Calculator]: averages and medians of integers.
    - [Wire]: the JSON messages between peers, with fields that are absent, well
      formed or rejected; times and durations.
    - [Raft]: the state and the handlers of one raft node.  [Election]: runs of
      a node under any messages, with the number of times its term has wrapped
      around ([Node]), and of a cluster that delivers its own
      messages ([Cluster]).  [Loops]: the loop that reads the topic and feeds the
      handlers, and the loops of the applications over the message bus.
      [LeaderLoop]: the leader's goroutine, which runs beside the handlers.
    - [Aggregator]: the round tables and handlers of one config.  [Rounds]: runs
      of the critical sections in any interleaving ([Pruning], [Sections],
      [Collected], [Once]).  [RoundsLive]: rounds that complete ([Complete]) or
      are opened again ([Reopen]).
    - [Nonce]: both nonce managers, against one interface [NonceSource].
    - [Text]: what is used of [strconv], [strings], [hex].  [Float]: doubles and
      what is used of [math], [sort] and [strconv.ParseFloat].
    - [Signing]: what is hashed and signed; the classes [Crypto] and
      [CryptoLaws].  [Signer]: the encryptor, key storage and key renewal.
    - [Collector], [Hub]: the data access layer.  [Reporter]: the reporter, with
      the goroutines, the channel and the wait group of a report.
      [Pipeline]: oracles, data access layer and reporter composed.
      [ClusterRound]: a round of the nodes of a config that are up, at least half
      of them, in whatever order each handles the messages, with the timers that
      end the waits for the others ([Strata] for one node, [Cluster] for all), down
      to the reporter.
    - [Reducer], [FeedData], [Fetcher], [LocalAggregator], [FetcherApp]: from an
      exchange's JSON to the node's own price, and the application around it.
    - [Bus], [App]: the message bus and the aggregator application with its bulk
      writer.  [Runners]: the goroutines that handle commands and start and stop
      loops, of this application and of [FetcherApp], interleaved.
    - [Util]: [node/pkg/utils]: retries, waiting, sets, the worker pool, HTTP
      requests.  [Strings]: more of [strings], and the regular expressions of
      method signatures.
    - [Abi], [Chain]: signatures of methods and the cache of ABIs; building,
      signing and submitting transactions, and the chain helper.  [Delegator]:
      its tables ([Db]), the handlers of its REST service ([Admin], [Sign],
      [Routes]) and what it approves ([Approval]).
    - [DalApi]: the HTTP part of the data access layer.  [DalStats]: its
      statistics tables.  [Por]: proof of reserve.
    - [Wss]: the websocket client.  [Decode]: reading of JSON into structs.
      [WsFetcher]: feed maps ([Common]), set-up ([WsApp]) and the jobs that
      store feed data ([Store]).  [GoTime]: parsing of times.  [Providers]: what
      the exchanges share; [ProvidersA], [ProvidersB], [ProvidersC]: one module
      per exchange; [Exchanges]: all of them together; [Heartbeats]: the
      goroutines that run beside a client or its handlers.
    - [Rounding]: correct rounding of floats.  [ChainReader], [EthClient]: the
      subscriptions to contract logs and the JSON-RPC client.  [Uniswap]: the
      decentralised exchange and its [big.Float] arithmetic ([BigFloat]).
    - [Db]: the query builders ([Pgsql]), the retried redis client ([Redis]) and
      the redis subscriber ([Rediscribe]).  [RedisStore]: the commands of the
      redis operations, with the documented effect of each on the keys of a
      server ([ServerLaws]).  [Logs]: the log writer of a service ([Consumer])
      and the job that reports frequent logs ([Processor]).
    - [Checkers]: the monitors that count delays, against one specification
      ([Alarm]).  [Monitors]: the other monitors, alerts and secrets.
    - [Admin]: configs and feeds ([Config]), commands over the bus ([Commands]),
      the other tables ([Rows]).  [Network]: hosts, addresses, the boot node
      ([Boot]) and the nodes that connect through it, their requests and dials
      interleaved ([Mesh]).  [Api]: values
      ([CustomTypes]), key encryption, handlers over the tables ([Handlers]),
      query texts ([Queries]).
    - [Startup]: how a reporter service, a collector and the log service are put
      together.  [Mains]: the commands of [node/cmd] as programs of calls, deferred
      functions, goroutines, a wait group and exits ([Process]), what holds in all
      their interleavings ([Runs]), and each command ([Commands]).  [Sentinel]:
      the sentinel with the start of all its checkers.  [Scripts]: the
      script that collects the URLs of the health checker.  [Web]: what the HTTP
      services repeat around the framework, and the set-up of the delegator.

    ** How code is modelled

    A struct is a record with the source's fields (locks and loggers left out),
    a method a function from the state to the new state, what it sends, and the
    error.  A nil dereference or an index out of range is the result [None] (or
    [Panic]).  What a call gets from outside (clock, random draws, network,
    database, chain, order of map iteration, order of arrival of concurrent
    answers) is an argument, usually a record called an environment, and the
    theorems hold for all its values.

    Handlers that run in goroutines are split at the boundaries of their
    critical sections where the claim depends on it ([Rounds.Sections],
    [Collector.cstep], [LeaderLoop.lstep], [Hub.hstep],
    [WsFetcher.Store.store_step], [Wss.loop_step], [Loops.RaftLoop.step],
    [Mains.Process.run_step], [Runners.exec1], [Network.Mesh.step],
    [Reporter.run_step], [Logs.Processor.issue_step], the log consumer, the chain
    reader and the redis subscriber); elsewhere a handler is one step, as its
    mutex makes it.  [App] and [FetcherApp] have what one command of the bus does,
    and their theorems are about commands one at a time; commands beside each
    other are in [Runners].

    Keccak, secp256k1, scrypt, AES and the quartiles of the statistics package
    are third-party code, as are the packages of the chain library that pack
    arguments and encode and sign transactions (the classes [AbiPackage],
    [TxPackage], [TxLaws]) and the websocket library ([Wss.Library]):
    parameters, with their documented laws as hypotheses where a theorem needs
    them.  Witnesses instantiate them.  The struct types of the exchanges'
    messages are values of [Decode.ty], and [Decode.decode] follows the rules of
    [encoding/json]; the SQL statements of the delegator, the admin API and the
    HTTP API are functions on tables, with the constraints the migrations
    declare.

    ** What the theorems show

    - Election: one vote for a named candidate per term, terms that go back only
      where [Term++] wraps around, and handlers that never panic, on any messages
      ([raft_one_vote_per_term], [raft_run_safe]; a forged term near the end of
      the integers or a candidate without a name breaks the first:
      [votes_again_after_wrap], [votes_again_after_empty_name]);
      leaders of a term that hear each other reduce to one
      ([raft_leaders_converge]); two leaders of one term are possible
      ([raft_two_leaders_one_term]), and a leader's goroutine can miss its
      resignation ([missed_resignation], [orphan_loop_beats_for_ever]).  The loop
      of a node passes every message of the topic on exactly once
      ([raft_loop_conserves]; also [stopped_node_leaks], [commands_overtake]).
    - Rounds: the published price is a median within the range of an honest
      majority ([price_fix_robust]); rounds complete ([round_completes],
      [proofs_complete]); at most one fix and one signature per round while it
      is kept ([one_fix_one_signature], [triggered_rounds_increase],
      [prune_keeps_last_ten]); a stray trigger breaks this
      ([stray_trigger_forgets], [round_signed_twice]).
    - Proofs: signatures recover to their signer and determine what was signed
      ([signature_recovers], [preimage_injective]); the data access layer serves
      exactly one valid signature per oracle, in order, accepts every honest
      proof, and accepts only newer data ([orderProof_sound],
      [honest_proof_accepted], [accepted_times_increase],
      [latest_data_goes_back]); the whole way from oracle to reporter is
      lossless ([oracles_to_reporter]).  Altogether: with at least half of the nodes
      up, after the leader's trigger each of them stores the same median with the
      signatures of all of them, in whatever order each handles the messages, and
      the reporter reads it ([round_to_reporter]).
    - Reporter and chain: batches are exact and complete
      ([report_batches_exact], [report_records_all]); a report returns when at
      most five of its submissions fail, and otherwise never ([report_blocks]);
      nonces
      are successive ([nonce_pool_successive]); a renewed key is one the chain
      accepted, and comes back after a restart ([renewed_key_accepted],
      [renew_persistence]).  A submission uses one nonce and sends at most one
      transaction, whatever the delegator and the chain answer
      ([delegated_submission], [submission_one_nonce]); the cache of ABIs and
      the two ways to build a transaction make no difference
      ([abi_cache_transparent], [direct_delegated_agree]); method signatures are
      read back ([signature_parsed]).
    - Delegator: the check of its first version approves exactly the registered
      calls ([approval_exact], [v1_signs_only_approved]), but its second version
      looks at the payload only ([v2_checks_only_payload]; also [short_input_panics],
      [updated_address_hidden]).
    - Data access layer over HTTP: no data without a key ([data_needs_key]), the
      endpoints serve the latest data of what is asked for and agree with each
      other ([latest_feeds_spec], [transposed_equivalent]; also
      [ws_client_removed_iff]); connections are recorded with their duration
      ([connection_recorded]), but a slow request loses the statistics of all
      ([slow_request_loses_tick]).
    - Exchanges: the client reads only from subscribed connections
      ([run_reads_subscribed]; also [dialing_ignores_cancellation]); the
      providers produce data only for their own feeds ([feed_maps_exact],
      [exchange_data_sound]), the nine that rewrite pairs recognise the symbols
      that their [New] subscribes to ([subscribed_symbol_recognised]), and they panic only in four cases
      ([handler_panics_iff]); storing loses nothing but the database copy of
      some data ([store_conserves]; also [refresh_keeps_old_fetchers]).  Pings
      are safe once a client was connected and end the program before
      ([pings_safe_once_connected], [ping_offline_panics]); the volume cache is
      exclusive where its lock is taken ([bitstamp_cache_exclusive],
      [unlocked_read_fatal]).
    - Utilities and proof of reserve: bounds of retries and ticks ([retry_spec],
      [por_tick_bounded]; also [por_reports_zero]).
    - Fetching: the table of feed data keeps exactly the newest data
      ([latest_is_newest]), a fetch is exact ([fetch_exact],
      [fetcher_job_updates]), the outlier filter is bounded
      ([outlier_filter_bounded]), prices arrive at the aggregator
      ([fx_price_reaches_aggregator], [unusable_price_filtered]), reductions
      panic only on a negative index ([reduce_panics_iff]).
    - Applications: one loop for each aggregator that runs, as long as no two
      commands work on it at the same time ([one_loop_per_aggregator]); two that
      do leave a loop that never stops ([overlapping_starts_leak]), and a fetcher
      restarted while it works keeps its old loop ([restarts_multiply_loops]); the
      same of commands one at a time ([one_loop_serial],
      [fetcher_one_goroutine_each]); the bus is a
      bounded queue ([bus_bounded_fifo]), bulk inserts are complete
      ([bulk_insert_complete]); and where goroutines, locks and start-up go
      wrong ([restarts_lose_local_aggregates], [cleanup_deadlocks],
      [stop_after_failed_start_panics]).
    - Decentralised exchange and chain readers: the price computed from a square
      root price is accurate to a stated relative error, or one of two errors
      ([price_accurate]; also
      [dex_run_total]); the log channel receives exactly the logs of all
      subscriptions, in order ([subscription_passes_logs]); the chain id is
      asked for once ([chain_id_asked_once]).
    - Database and logs: placeholders are numbered in order
      ([placeholders_in_order]), retries are bounded ([retry_bounded]), objects
      are read back ([object_roundtrip], [pushed_objects_popped]) while a
      retried push may repeat its values and a retried pop lose them
      ([push_at_least_once], [pop_at_most_once]), the subscriber's goroutines
      read only from its present client ([subscriber_safe]); logs are sent once
      ([logs_sent_once]) and become one issue each when runs do not overlap and
      no answer of the tracker is lost, else a bounded number
      ([one_issue_per_log], [lost_answer_reported_again],
      [overlapping_runs_report_twice], [top_logs_exact], [title_recognised]), but
      the consumer can block itself
      ([consumer_deadlock]).
    - Monitors: every delay checker raises exactly the alarms of the
      specification over any run ([dal_alarms_exact], [ws_alarms_exact],
      [feed_alarms_exact], [offset_alarms_exact]; also
      [unreachable_dal_silent]); pings, health, peers, balances and signers are
      reported exactly ([ping_stops_exactly], [health_messages_exact],
      [peer_alerts_exact], [balance_accurate], [signer_check_exact]).
    - Administration and network: a synchronisation without error leaves the
      published configs with all their feeds, and other rows only where a failed
      deletion went unnoticed ([sync_exact], [sync_succeeds],
      [lost_deletion_unnoticed]); in the HTTP API observed blocks are the greatest
      ([observed_is_greatest]), stored keys and values are read back
      ([reporter_key_roundtrip], [integers_roundtrip], [datetime_roundtrip]),
      two query texts can be injected into ([oracle_injection],
      [service_injection]); of two nodes that synchronised with the boot node and
      of which one read the peers after the other was inserted, each is connected
      to the other ([all_connected], [session_alone], [refresh_exact]), but two
      that synchronise at the same time can miss each other
      ([overlapping_syncs_miss]); a reporter service has
      exactly the reporters of its configs ([reporters_exact]); health check URLs
      are collected exactly and checked as they are meant ([http_exact],
      [collected_urls_checked]; also [redis_panics_iff]).
    - Commands: the node and the sentinel start their services only after the
      calls whose errors end the start-up, and end with an error when one of them
      fails ([services_supervised]); a
      sentinel goes on for ever or ends with an error ([sentinel_runs_on]); other
      failures end a command as if nothing had been wrong, or not at all
      ([silent_failures], [node_goes_on_without_host],
      [node_ping_panic_ignored], [fetcher_errors_ignored]).

    ** Bounds and fuel

    Loops that do not follow a data structure have fuel with a proof that it is
    enough: the pruning loop runs ten times ([last10_loop], fuel 11), digits of
    a number ([digits_fuel], by the logarithm), big-endian bytes, the chunks of
    a proof (fuel: its length) and the batches of a report (fuel: one more than
    the number of pairs), the chunks of subscriptions (fuel: their number).
    A run of a report takes at most five steps per batch and three more
    ([report_blocks]).  Terms of messages are Go's [int]s; the bound of [outlier_filter_bounded] is checked for up to 4096 feeds, many
    times what a config has.  Floating-point operations are not fused;
    conversions of doubles out of range to integers are those of amd64.

    ** Not modelled

    The scripts under [node/script] that start parts by hand for manual tests, the
    helpers of tests, and everything outside [src/node] (Solidity, TypeScript).
    The rounds of [ClusterRound] are those in which what the nodes that are up send
    arrives before the timer that waits for it fires; the runs of [Rounds] have the
    timers at any time.  Of the modelled parts: routing and the
    parsing of HTTP bodies by the web framework, the drivers of postgres and
    redis, libp2p and the Ethereum libraries are third-party code and
    parameters.  The reporter's model takes the result of a submission, which is
    assumed to return, from its environment; the submission itself is in
    [Chain].  In [Runners] a command is a list of starts and stops, and what it
    reads of maps and the database to find them is left open. *)

From stdpp Require Export base tactics option list list_numbers gmap strings fin_maps sorting.
From Stdlib Require Export ZArith Lia.

#[export] Set Default Goal Selector "!".

Declare Scope go_scope.
Delimit Scope go_scope with go.

(** ** Machine integers

    Go's sized integers are [Z] with the wrap-around written out:
    [wrap w] is the two's complement reading of the low [w] bits. *)
Definition wrap (w x : Z) : Z := (x + 2 ^ (w - 1)) `mod` 2 ^ w - 2 ^ (w - 1).
Definition uwrap (w x : Z) : Z := x `mod` 2 ^ w.

Abbreviation int32 := Z (only parsing).
Abbreviation int64 := Z (only parsing).
Abbreviation uint64 := Z (only parsing).

Abbreviation wrap32 := (wrap 32).
Abbreviation wrap64 := (wrap 64).
Abbreviation wrapu64 := (uwrap 64).

Definition max_int32 : Z := 2 ^ 31 - 1.
Definition min_int32 : Z := - 2 ^ 31.
Definition max_int64 : Z := 2 ^ 63 - 1.
Definition min_int64 : Z := - 2 ^ 63.

Definition in_int32 (x : Z) : Prop := (min_int32 <= x <= max_int32)%Z.
Definition in_int64 (x : Z) : Prop := (min_int64 <= x <= max_int64)%Z.
Definition in_uint64 (x : Z) : Prop := (0 <= x < 2 ^ 64)%Z.

#[export] Instance in_int32_dec x : Decision (in_int32 x).
Proof. unfold in_int32. apply _. Defined.
#[export] Instance in_int64_dec x : Decision (in_int64 x).
Proof. unfold in_int64. apply _. Defined.
#[export] Instance in_uint64_dec x : Decision (in_uint64 x).
Proof. unfold in_uint64. apply _. Defined.

(** Go strings are byte strings ordered byte by byte, as Stdlib's are. *)
Definition str_ltb (a b : string) : bool := String.ltb a b.

(** ** Automation *)
Create HintDb go discriminated.

(** Unfold the integer ranges and call [lia]. *)
Ltac int_lia :=
  unfold in_int32, in_int64, in_uint64, max_int32, min_int32, max_int64,
    min_int64 in *; lia.

(** Split on the booleans, [decide]s and options a handler tests, in the goal
    and in the hypotheses. *)
Ltac go_case :=
  match goal with
  | |- context [if ?b then _ else _] => destruct b eqn:?
  | |- context [match ?o with Some _ => _ | None => _ end] => destruct o eqn:?
  | H : context [if ?b then _ else _] |- _ => destruct b eqn:?
  | H : context [match ?o with Some _ => _ | None => _ end] |- _ => destruct o eqn:?
  end.
Ltac go_cases := repeat (go_case; simplify_eq/=).

(** Turn boolean tests in the context into propositions. *)
Ltac breflect :=
  repeat match goal with
  | H : (_ && _)%bool = true |- _ => apply andb_true_iff in H as [? ?]
  | H : (_ && _)%bool = false |- _ => apply andb_false_iff in H
  | H : (_ || _)%bool = true |- _ => apply orb_true_iff in H
  | H : (_ || _)%bool = false |- _ => apply orb_false_iff in H as [? ?]
  | H : negb _ = true |- _ => apply negb_true_iff in H
  | H : negb _ = false |- _ => apply negb_false_iff in H
  | H : bool_decide _ = true |- _ => apply bool_decide_eq_true_1 in H
  | H : bool_decide _ = false |- _ => apply bool_decide_eq_false_1 in H
  | H : (_ <? _)%Z = true |- _ => apply Z.ltb_lt in H
  | H : (_ <? _)%Z = false |- _ => apply Z.ltb_ge in H
  | H : (_ <=? _)%Z = true |- _ => apply Z.leb_le in H
  | H : (_ <=? _)%Z = false |- _ => apply Z.leb_gt in H
  | H : (_ =? _)%Z = true |- _ => apply Z.eqb_eq in H
  | H : (_ =? _)%Z = false |- _ => apply Z.eqb_neq in H
  end.

(** ** Strings *)
Lemma str_ltb_false a b : str_ltb a b = false <-> String.le b a.
Proof.
  unfold str_ltb, String.le, String.ltb, String.leb. rewrite String.compare_antisym.
  destruct (b ?= a)%string; simpl; naive_solver.
Qed.

(** A nonempty list has an element that is the largest for a total order. *)
Lemma list_max_exists {A} (R : relation A) `{!PreOrder R, !Total R} (l : list A) :
  l <> [] -> exists m, m ∈ l /\ forall x, x ∈ l -> R x m.
Proof.
  induction l as [|a l IH]; [done|]. intros _.
  destruct (decide (l = [])) as [->|Hne].
  { exists a. split; [set_solver|]. intros x ->%list_elem_of_singleton. reflexivity. }
  destruct (IH Hne) as (m & Hm & Hmax). destruct (total R a m).
  - exists m. split; [set_solver|]. intros x [->|?]%elem_of_cons; auto.
  - exists a. split; [set_solver|]. intros x [->|?]%elem_of_cons; [reflexivity|].
    etrans; [by apply Hmax|done].
Qed.

(** ** Wrap-around lemmas *)
Section wrap_lemmas.
Local Open Scope Z_scope.

Lemma wrap_small w x :
  0 < w -> - 2 ^ (w - 1) <= x < 2 ^ (w - 1) -> wrap w x = x.
Proof.
  intros Hw Hx. unfold wrap.
  assert (2 ^ w = 2 * 2 ^ (w - 1)) as Hp.
  { rewrite <- Z.pow_succ_r by lia. f_equal. lia. }
  rewrite Z.mod_small by lia. lia.
Qed.

Lemma wrap_range w x : 0 < w -> - 2 ^ (w - 1) <= wrap w x < 2 ^ (w - 1).
Proof.
  intros Hw. unfold wrap.
  assert (2 ^ w = 2 * 2 ^ (w - 1)) as Hp.
  { rewrite <- Z.pow_succ_r by lia. f_equal. lia. }
  pose proof (Z.pow_pos_nonneg 2 (w - 1) ltac:(lia) ltac:(lia)).
  pose proof (Z.mod_pos_bound (x + 2 ^ (w - 1)) (2 ^ w) ltac:(lia)). lia.
Qed.

Lemma wrap32_id x : in_int32 x -> wrap32 x = x.
Proof. intros. apply wrap_small; [lia|]. change (32 - 1) with 31. int_lia. Qed.
Lemma wrap64_id x : in_int64 x -> wrap64 x = x.
Proof. intros. apply wrap_small; [lia|]. change (64 - 1) with 63. int_lia. Qed.
Lemma wrap32_in x : in_int32 (wrap32 x).
Proof. pose proof (wrap_range 32 x ltac:(lia)). change (32 - 1) with 31 in *. int_lia. Qed.
Lemma wrap64_in x : in_int64 (wrap64 x).
Proof. pose proof (wrap_range 64 x ltac:(lia)). change (64 - 1) with 63 in *. int_lia. Qed.
Lemma wrapu64_id x : in_uint64 x -> wrapu64 x = x.
Proof. intros. unfold uwrap. apply Z.mod_small. int_lia. Qed.
Lemma wrapu64_in x : in_uint64 (wrapu64 x).
Proof. unfold in_uint64, uwrap. apply Z.mod_pos_bound. lia. Qed.
Lemma wrapu64_add_l x y : wrapu64 (wrapu64 x + y) = wrapu64 (x + y).
Proof. unfold uwrap. apply Z.add_mod_idemp_l. lia. Qed.
End wrap_lemmas.
#[export] Hint Resolve wrap32_in wrap64_in wrapu64_in : go.
