(* ===== verification/Errors.v ===== *)
(** * Sentinel errors

    The error values of [node/pkg/error/sentinel.go].  A sentinel is a pointer
    to a [CustomError]; [errors.Is] compares the pointers.  The library compares
    the values, which decides the same thing as long as no two sentinels carry
    the same value: [sentinels_NoDup] below. *)

From S2P Require Import Prelude.

Local Open Scope string_scope.

Inductive Service : Type :=
| Fetcher | Aggregator | Reporter | BootAPI | Admin | Por | Dal | Logscribe
| LogscribeConsumer | Others.

Inductive ErrorCode : Type :=
| NetworkError | DatabaseError | InternalError | InvalidInputError
| UnknownCaseError | InvalidRaftMessageError | InvalidBusMessageError
| MultipleError.

#[export] Instance Service_eq_dec : EqDecision Service.
Proof. solve_decision. Defined.
#[export] Instance ErrorCode_eq_dec : EqDecision ErrorCode.
Proof. solve_decision. Defined.

(** [ServiceNames]: three services have no entry. *)
Definition ServiceNames (s : Service) : option string :=
  match s with
  | Fetcher => Some "Fetcher"
  | Aggregator => Some "Aggregator"
  | Reporter => Some "Reporter"
  | BootAPI => Some "BootAPI"
  | Admin => Some "Admin"
  | Por => Some "POR"
  | Others => Some "Others"
  | Dal | Logscribe | LogscribeConsumer => None
  end.

Definition ErrorCodes (c : ErrorCode) : option string :=
  match c with
  | NetworkError => Some "NetworkError"
  | DatabaseError => Some "DatabaseError"
  | InternalError => Some "InternalError"
  | InvalidInputError => Some "InvalidInputError"
  | UnknownCaseError => Some "UnknownCaseError"
  | InvalidRaftMessageError => Some "InvalidRaftMessageError"
  | InvalidBusMessageError => Some "InvalidBusMessageError"
  | MultipleError => Some "MultipleError"
  end.

Definition Service_String (s : Service) : string :=
  match ServiceNames s with Some name => name | None => "UnknownService" end.

Definition ErrorCode_String (c : ErrorCode) : string :=
  match ErrorCodes c with Some code => code | None => "UnknownErrorCode" end.

Record CustomError : Type := mkCustomError {
  err_Service : Service;
  err_Code : ErrorCode;
  err_Message : string
}.

#[export] Instance CustomError_eq_dec : EqDecision CustomError.
Proof. solve_decision. Defined.

Definition CustomError_Error (e : CustomError) : string :=
  "Service: " +:+ Service_String (err_Service e) +:+ ", Code: " +:+
  ErrorCode_String (err_Code e) +:+ ", Message: " +:+ err_Message e.

Definition ErrAdminDbPoolNotFound : CustomError := mkCustomError Admin InternalError "db pool not found".
Definition ErrAdminRedisConnNotFound : CustomError := mkCustomError Admin InternalError "redisconn not found".
Definition ErrAdminMessageBusNotFound : CustomError := mkCustomError Admin InternalError "messagebus not found".
Definition ErrAggregatorInvalidInitValue : CustomError := mkCustomError Aggregator InvalidInputError "Invalid init value parameters".
Definition ErrAggregatorUnhandledCustomMessage : CustomError := mkCustomError Aggregator UnknownCaseError "Unhandled custom message".
Definition ErrAggregatorInvalidRaftMessage : CustomError := mkCustomError Aggregator InvalidRaftMessageError "Invalid raft message".
Definition ErrAggregatorNonLeaderRaftMessage : CustomError := mkCustomError Aggregator InvalidRaftMessageError "Invalid raft message: message sent from non-leader".
Definition ErrAggregatorGlobalAggregateInsertion : CustomError := mkCustomError Aggregator DatabaseError "Failed to insert global aggregator".
Definition ErrAggregatorNotFound : CustomError := mkCustomError Aggregator InternalError "Aggregator not found".
Definition ErrAggregatorCancelNotFound : CustomError := mkCustomError Aggregator InternalError "Aggregator cancel function not found".
Definition ErrAggregatorEmptyProof : CustomError := mkCustomError Aggregator InternalError "Empty proof".
Definition ErrBootAPIDbPoolNotFound : CustomError := mkCustomError BootAPI InternalError "db pool not found".
Definition ErrBusChannelNotFound : CustomError := mkCustomError Others InternalError "Channel not found".
Definition ErrBusMsgPublishFail : CustomError := mkCustomError Others InternalError "Failed to send message to channel".
Definition ErrBusParamNotFound : CustomError := mkCustomError Others InternalError "Param not found in message".
Definition ErrBusConvertParamFail : CustomError := mkCustomError Others InternalError "Failed to convert message param".
Definition ErrBusParseParamFail : CustomError := mkCustomError Others InternalError "Failed to parse message param".
Definition ErrBusNonAdmin : CustomError := mkCustomError Others InvalidBusMessageError "Non-admin bus message".
Definition ErrBusUnknownCommand : CustomError := mkCustomError Others InvalidBusMessageError "Unknown command".
Definition ErrChainTransactionFail : CustomError := mkCustomError Others InternalError "transaction failed".
Definition ErrChainEmptyNameParam : CustomError := mkCustomError Others InvalidInputError "empty name param".
Definition ErrChainFailedToFindMethodSignatureMatch : CustomError := mkCustomError Others InternalError "failed to find method signature match".
Definition ErrChainInvalidSignatureLength : CustomError := mkCustomError Others InvalidInputError "invalid signature length".
Definition ErrChainProviderUrlNotFound : CustomError := mkCustomError Others InternalError "provider url not found".
Definition ErrChainReporterUnsupportedChain : CustomError := mkCustomError Others InvalidInputError "unsupported chain type".
Definition ErrChainDelegatorUrlNotFound : CustomError := mkCustomError Others InvalidInputError "delegator url not found".
Definition ErrChainEmptySignedRawTx : CustomError := mkCustomError Others InvalidInputError "empty signed raw tx".
Definition ErrChainPubKeyToECDSAFail : CustomError := mkCustomError Others InternalError "failed to convert public key to ECDSA".
Definition ErrChainSignerPKNotFound : CustomError := mkCustomError Others InvalidInputError "signer public key not found".
Definition ErrChainEmptyClientParam : CustomError := mkCustomError Others InvalidInputError "empty client param".
Definition ErrChainEmptyAddressParam : CustomError := mkCustomError Others InvalidInputError "empty address param".
Definition ErrChainEmptyReporterParam : CustomError := mkCustomError Others InvalidInputError "empty reporter param".
Definition ErrChainEmptyFuncStringParam : CustomError := mkCustomError Others InvalidInputError "empty function string param".
Definition ErrChainEmptyEventStringParam : CustomError := mkCustomError Others InvalidInputError "empty event string param".
Definition ErrChainEmptyChainIdParam : CustomError := mkCustomError Others InvalidInputError "empty chain id param".
Definition ErrChainEmptyToAddress : CustomError := mkCustomError Others InvalidInputError "to address is empty".
Definition ErrChainEmptyGasPrice : CustomError := mkCustomError Others InvalidInputError "gas price is empty".
Definition ErrChainWebsocketContractAddressNotfound : CustomError := mkCustomError Others InvalidInputError "websocket contract address not found".
Definition ErrChainWebsocketChannelNotfound : CustomError := mkCustomError Others InvalidInputError "websocket channel not found".
Definition ErrChainEmptyEventNameStringParam : CustomError := mkCustomError Others InvalidInputError "empty event name string param".
Definition ErrChainWebsocketUrlNotProvided : CustomError := mkCustomError Others InvalidInputError "websocket url not provided".
Definition ErrChainSubmissionProxyContractNotFound : CustomError := mkCustomError Others InvalidInputError "submission proxy contract not found".
Definition ErrChainFailedToParseContractResult : CustomError := mkCustomError Others InvalidInputError "failed to parse contract result".
Definition ErrChainCachedAbiNotFound : CustomError := mkCustomError Others InvalidInputError "cached abi not found".
Definition ErrDbDatabaseUrlNotFound : CustomError := mkCustomError Others InternalError "DATABASE_URL not found".
Definition ErrDbEmptyTableNameParam : CustomError := mkCustomError Others InvalidInputError "empty table name".
Definition ErrDbEmptyColumnNamesParam : CustomError := mkCustomError Others InvalidInputError "empty column names".
Definition ErrDbEmptyWhereColumnsParam : CustomError := mkCustomError Others InvalidInputError "empty where columns".
Definition ErrDbWhereColumnValueLengthMismatch : CustomError := mkCustomError Others InvalidInputError "where column and value length mismatch".
Definition ErrRdbHostNotFound : CustomError := mkCustomError Others InternalError "REDIS_HOST not found".
Definition ErrRdbPortNotFound : CustomError := mkCustomError Others InternalError "REDIS_PORT not found".
Definition ErrRediscriberRouterNotFound : CustomError := mkCustomError Others InternalError "Rediscriber router not found".
Definition ErrFetcherNotFound : CustomError := mkCustomError Fetcher InternalError "Fetcher not found".
Definition ErrFetcherCancelNotFound : CustomError := mkCustomError Fetcher InternalError "Fetcher cancel function not found".
Definition ErrFetcherInvalidType : CustomError := mkCustomError Fetcher InvalidInputError "Invalid fetcher type".
Definition ErrFetcherNoDataFetched : CustomError := mkCustomError Fetcher InternalError "No data fetched".
Definition ErrFetcherInvalidDexFetcherDefinition : CustomError := mkCustomError Fetcher InvalidInputError "Invalid dex fetcher definition".
Definition ErrFetcherChainHelperNotFound : CustomError := mkCustomError Fetcher InternalError "Chain helper not found".
Definition ErrFetcherInvalidRawResult : CustomError := mkCustomError Fetcher InternalError "Invalid raw result".
Definition ErrFetcherConvertToBigInt : CustomError := mkCustomError Fetcher InternalError "Failed to convert to big.Int".
Definition ErrFetcherInvalidInput : CustomError := mkCustomError Fetcher InvalidInputError "Invalid input".
Definition ErrFetcherDivisionByZero : CustomError := mkCustomError Fetcher InternalError "Division by zero".
Definition ErrLocalAggregatorCancelNotFound : CustomError := mkCustomError Fetcher InternalError "LocalAggregator cancel function not found".
Definition ErrLocalAggregatorZeroVolume : CustomError := mkCustomError Fetcher InvalidInputError "Zero volume".
Definition ErrFeedDataBulkWriterCancelNotFound : CustomError := mkCustomError Fetcher InternalError "FeedDataBulkWriter cancel function not found".
Definition ErrLocalAggregateBulkWriterCancelNotFound : CustomError := mkCustomError Fetcher InternalError "LocalAggregateBulkWriter cancel function not found".
Definition ErrFetcherNoMatchingChainID : CustomError := mkCustomError Fetcher InvalidInputError "No matching chain ID".
Definition ErrFetcherFailedToGetDexResultSlice : CustomError := mkCustomError Fetcher InternalError "Failed to get dex result slice".
Definition ErrFetcherFailedBigIntConvert : CustomError := mkCustomError Fetcher InternalError "Failed to convert to fetched data to big.Int".
Definition ErrFetcherFeedNotFound : CustomError := mkCustomError Fetcher InvalidInputError "Feed not found".
Definition ErrLibP2pEmptyNonLocalAddress : CustomError := mkCustomError Others InternalError "Host has no non-local addresses".
Definition ErrLibP2pAddressSplitFail : CustomError := mkCustomError Others InternalError "Failed to split address".
Definition ErrLibP2pFailToConnectPeer : CustomError := mkCustomError Others InternalError "Failed to connect to peer".
Definition ErrPorProviderUrlNotFound : CustomError := mkCustomError Por InternalError "POR_PROVIDER_URL not found".
Definition ErrPorReporterPkNotFound : CustomError := mkCustomError Por InvalidInputError "POR_REPORTER_PK not found".
Definition ErrPorRawResultCastFail : CustomError := mkCustomError Por InternalError "Failed to cast raw result to slice".
Definition ErrPorRoundIdCastFail : CustomError := mkCustomError Por InternalError "Failed to cast round id to int32".
Definition ErrPorUpdatedAtCastFail : CustomError := mkCustomError Por InternalError "Failed to cast updated at to big.Int".
Definition ErrPorAnswerCastFail : CustomError := mkCustomError Por InternalError "Failed to cast answer to big.Int".
Definition ErrPorJobFail : CustomError := mkCustomError Por InternalError "job failed".
Definition ErrRaftLeaderIdMismatch : CustomError := mkCustomError Others InternalError "Leader id mismatch".
Definition ErrReporterSubmissionProxyContractNotFound : CustomError := mkCustomError Reporter InternalError "SUBMISSION_PROXY_CONTRACT not found".
Definition ErrReporterNoReportersSet : CustomError := mkCustomError Reporter InternalError "No reporters set".
Definition ErrReporterNotFound : CustomError := mkCustomError Reporter InternalError "Reporter not found".
Definition ErrReporterAlreadyRunning : CustomError := mkCustomError Reporter InternalError "Reporter already running".
Definition ErrReporterCancelNotFound : CustomError := mkCustomError Reporter InternalError "Reporter cancel function not found".
Definition ErrReporterConfigNotFound : CustomError := mkCustomError Reporter InternalError "Reporter config not found".
Definition ErrReporterEmptyConfigs : CustomError := mkCustomError Reporter InternalError "Empty configs".
Definition ErrReporterJobFailed : CustomError := mkCustomError Reporter InternalError "Job failed".
Definition ErrReporterReportFailed : CustomError := mkCustomError Reporter InternalError "Report failed".
Definition ErrReporterProofNotFound : CustomError := mkCustomError Reporter InternalError "Proof not found".
Definition ErrReporterUnknownMessageType : CustomError := mkCustomError Reporter InvalidRaftMessageError "Unknown message type".
Definition ErrReporterKaiaHelperNotFound : CustomError := mkCustomError Reporter InternalError "Kaia helper not found".
Definition ErrReporterDeviationReportFail : CustomError := mkCustomError Reporter InternalError "Deviation report failed".
Definition ErrReporterEmptyValidAggregates : CustomError := mkCustomError Reporter InternalError "Empty valid aggregates".
Definition ErrReporterEmptyAggregatesParam : CustomError := mkCustomError Reporter InvalidInputError "Empty aggregates param".
Definition ErrReporterEmptySubmissionPairsParam : CustomError := mkCustomError Reporter InvalidInputError "Empty submission pairs param".
Definition ErrReporterEmptyProofParam : CustomError := mkCustomError Reporter InvalidInputError "Empty proof param".
Definition ErrReporterInvalidAggregateFound : CustomError := mkCustomError Reporter InternalError "Invalid aggregate found".
Definition ErrReporterMissingProof : CustomError := mkCustomError Reporter InternalError "Missing proof".
Definition ErrReporterResultCastToInterfaceFail : CustomError := mkCustomError Reporter InternalError "Failed to cast result to interface".
Definition ErrReporterResultCastToAddressFail : CustomError := mkCustomError Reporter InternalError "Failed to cast result to address".
Definition ErrReporterSignerNotWhitelisted : CustomError := mkCustomError Reporter InternalError "Signer not whitelisted".
Definition ErrReporterEmptyValidProofs : CustomError := mkCustomError Reporter InternalError "Empty valid proofs".
Definition ErrReporterInvalidProofLength : CustomError := mkCustomError Reporter InvalidInputError "Invalid proof length".
Definition ErrReporterBusMessageByNonAdmin : CustomError := mkCustomError Reporter InvalidBusMessageError "Bus message sent by non-admin".
Definition ErrReporterClear : CustomError := mkCustomError Reporter InternalError "Failed to clear reporters".
Definition ErrReporterStart : CustomError := mkCustomError Reporter InternalError "Failed to start reporters".
Definition ErrReporterStop : CustomError := mkCustomError Reporter InternalError "Failed to stop reporters".
Definition ErrReporterValidateAggregateTimestampValues : CustomError := mkCustomError Reporter InternalError "Failed to validate aggregate timestamp values".
Definition ErrReporterDalApiKeyNotFound : CustomError := mkCustomError Reporter InternalError "DAL API key not found in reporter".
Definition ErrReporterDalWsDataProcessingFailed : CustomError := mkCustomError Reporter InternalError "Failed to process DAL WS data".
Definition ErrDalEmptyProofParam : CustomError := mkCustomError Dal InvalidInputError "Empty proof param".
Definition ErrDalInvalidProofLength : CustomError := mkCustomError Dal InvalidInputError "Invalid proof length".
Definition ErrDalSignerNotWhitelisted : CustomError := mkCustomError Dal InternalError "Signer not whitelisted".
Definition ErrDalEmptyValidProofs : CustomError := mkCustomError Dal InternalError "Empty valid proofs".
Definition ErrDalPortNotFound : CustomError := mkCustomError Dal InternalError "Port not found".
Definition ErrDalCollectorNotFound : CustomError := mkCustomError Dal InternalError "Collector not found".
Definition ErrDalHubNotFound : CustomError := mkCustomError Dal InternalError "Hub not found".
Definition ErrDalKeyCacheNotFound : CustomError := mkCustomError Dal InternalError "Key cache not found".
Definition ErrDalFeedHashNotFound : CustomError := mkCustomError Dal InternalError "Feed hash not found".
Definition ErrDalSymbolsNotFound : CustomError := mkCustomError Dal InternalError "Symbols not found".
Definition ErrDalChainEnvNotFound : CustomError := mkCustomError Dal InternalError "Chain env not found".
Definition ErrReducerCastToFloatFail : CustomError := mkCustomError Others InternalError "Failed to cast to float".
Definition ErrReducerIndexCastToInterfaceFail : CustomError := mkCustomError Others InternalError "Failed to cast to interface from INDEX".
Definition ErrReducerParseCastToInterfaceFail : CustomError := mkCustomError Others InternalError "Failed to cast to interface from PARSE".
Definition ErrReducerParseCastToStringFail : CustomError := mkCustomError Others InternalError "Failed to cast to string from PARSE".
Definition ErrReducerParseCastToMapFail : CustomError := mkCustomError Others InternalError "Failed to cast to map from PARSE".
Definition ErrReducerMulCastToFloatFail : CustomError := mkCustomError Others InternalError "Failed to cast to float from MUL".
Definition ErrReducerDivCastToFloatFail : CustomError := mkCustomError Others InternalError "Failed to cast to float from DIV".
Definition ErrReducerDivDivsionByZero : CustomError := mkCustomError Others InternalError "Division by zero from DIV".
Definition ErrReducerDivFromCastToFloatFail : CustomError := mkCustomError Others InternalError "Failed to cast to float from DIVFROM".
Definition ErrReducerUnknownReducerFunc : CustomError := mkCustomError Others InternalError "Unknown reducer function".
Definition ErrRequestStatusNotOk : CustomError := mkCustomError Others InternalError "Request status not OK".
Definition ErrRequestInvalidMethod : CustomError := mkCustomError Others InvalidInputError "Invalid method".
Definition ErrCalculatorEmptyArr : CustomError := mkCustomError Others InternalError "Empty array".
Definition ErrReducerIndexOutOfBounds : CustomError := mkCustomError Others InvalidInputError "Index out of bounds".
Definition ErrLogTimestampNotExist : CustomError := mkCustomError Others InvalidInputError "Log timestamp not exist".
Definition ErrLogMsgNotExist : CustomError := mkCustomError Others InvalidInputError "Log message not exist".
Definition ErrLogLvlNotExist : CustomError := mkCustomError Others InvalidInputError "Log level not exist".
Definition ErrLogEmptyLogByte : CustomError := mkCustomError Others InvalidInputError "Empty log byte".
Definition ErrLogscribeDbPoolNotFound : CustomError := mkCustomError Logscribe InternalError "db pool not found".
Definition ErrLogscribeInsertFailed : CustomError := mkCustomError Logscribe InternalError "Failed to insert logs to Logscribe".
Definition ErrLogscribeServiceNotExist : CustomError := mkCustomError Logscribe InvalidInputError "Service field not found in log entry".
Definition ErrLogscribeGithubCredentialsNotFound : CustomError := mkCustomError Logscribe InternalError "Github credentials not found".
Definition ErrLogscribeFailedToCreateGithubIssue : CustomError := mkCustomError Logscribe InternalError "Failed to create github issue".
Definition ErrLogscribeConsumerServiceNotProvided : CustomError := mkCustomError LogscribeConsumer InvalidInputError "Service field not provided in logscribeconsumer".
Definition ErrLogscribeConsumerInvalidLevel : CustomError := mkCustomError LogscribeConsumer InvalidInputError "Invalid log level provided to logscribeconsumer".
Definition ErrLogscribeConsumerEndpointUnresponsive : CustomError := mkCustomError LogscribeConsumer NetworkError "Logscribe endpoint unresponsive".
Definition ErrConditionTimedOut : CustomError := mkCustomError Others InternalError "Condition timed out".

Definition sentinels : list CustomError :=
  [ErrAdminDbPoolNotFound; ErrAdminRedisConnNotFound; ErrAdminMessageBusNotFound;
  ErrAggregatorInvalidInitValue; ErrAggregatorUnhandledCustomMessage; ErrAggregatorInvalidRaftMessage;
  ErrAggregatorNonLeaderRaftMessage; ErrAggregatorGlobalAggregateInsertion; ErrAggregatorNotFound;
  ErrAggregatorCancelNotFound; ErrAggregatorEmptyProof; ErrBootAPIDbPoolNotFound;
  ErrBusChannelNotFound; ErrBusMsgPublishFail; ErrBusParamNotFound;
  ErrBusConvertParamFail; ErrBusParseParamFail; ErrBusNonAdmin;
  ErrBusUnknownCommand; ErrChainTransactionFail; ErrChainEmptyNameParam;
  ErrChainFailedToFindMethodSignatureMatch; ErrChainInvalidSignatureLength; ErrChainProviderUrlNotFound;
  ErrChainReporterUnsupportedChain; ErrChainDelegatorUrlNotFound; ErrChainEmptySignedRawTx;
  ErrChainPubKeyToECDSAFail; ErrChainSignerPKNotFound; ErrChainEmptyClientParam;
  ErrChainEmptyAddressParam; ErrChainEmptyReporterParam; ErrChainEmptyFuncStringParam;
  ErrChainEmptyEventStringParam; ErrChainEmptyChainIdParam; ErrChainEmptyToAddress;
  ErrChainEmptyGasPrice; ErrChainWebsocketContractAddressNotfound; ErrChainWebsocketChannelNotfound;
  ErrChainEmptyEventNameStringParam; ErrChainWebsocketUrlNotProvided; ErrChainSubmissionProxyContractNotFound;
  ErrChainFailedToParseContractResult; ErrChainCachedAbiNotFound; ErrDbDatabaseUrlNotFound;
  ErrDbEmptyTableNameParam; ErrDbEmptyColumnNamesParam; ErrDbEmptyWhereColumnsParam;
  ErrDbWhereColumnValueLengthMismatch; ErrRdbHostNotFound; ErrRdbPortNotFound;
  ErrRediscriberRouterNotFound; ErrFetcherNotFound; ErrFetcherCancelNotFound;
  ErrFetcherInvalidType; ErrFetcherNoDataFetched; ErrFetcherInvalidDexFetcherDefinition;
  ErrFetcherChainHelperNotFound; ErrFetcherInvalidRawResult; ErrFetcherConvertToBigInt;
  ErrFetcherInvalidInput; ErrFetcherDivisionByZero; ErrLocalAggregatorCancelNotFound;
  ErrLocalAggregatorZeroVolume; ErrFeedDataBulkWriterCancelNotFound; ErrLocalAggregateBulkWriterCancelNotFound;
  ErrFetcherNoMatchingChainID; ErrFetcherFailedToGetDexResultSlice; ErrFetcherFailedBigIntConvert;
  ErrFetcherFeedNotFound; ErrLibP2pEmptyNonLocalAddress; ErrLibP2pAddressSplitFail;
  ErrLibP2pFailToConnectPeer; ErrPorProviderUrlNotFound; ErrPorReporterPkNotFound;
  ErrPorRawResultCastFail; ErrPorRoundIdCastFail; ErrPorUpdatedAtCastFail;
  ErrPorAnswerCastFail; ErrPorJobFail; ErrRaftLeaderIdMismatch;
  ErrReporterSubmissionProxyContractNotFound; ErrReporterNoReportersSet; ErrReporterNotFound;
  ErrReporterAlreadyRunning; ErrReporterCancelNotFound; ErrReporterConfigNotFound;
  ErrReporterEmptyConfigs; ErrReporterJobFailed; ErrReporterReportFailed;
  ErrReporterProofNotFound; ErrReporterUnknownMessageType; ErrReporterKaiaHelperNotFound;
  ErrReporterDeviationReportFail; ErrReporterEmptyValidAggregates; ErrReporterEmptyAggregatesParam;
  ErrReporterEmptySubmissionPairsParam; ErrReporterEmptyProofParam; ErrReporterInvalidAggregateFound;
  ErrReporterMissingProof; ErrReporterResultCastToInterfaceFail; ErrReporterResultCastToAddressFail;
  ErrReporterSignerNotWhitelisted; ErrReporterEmptyValidProofs; ErrReporterInvalidProofLength;
  ErrReporterBusMessageByNonAdmin; ErrReporterClear; ErrReporterStart;
  ErrReporterStop; ErrReporterValidateAggregateTimestampValues; ErrReporterDalApiKeyNotFound;
  ErrReporterDalWsDataProcessingFailed; ErrDalEmptyProofParam; ErrDalInvalidProofLength;
  ErrDalSignerNotWhitelisted; ErrDalEmptyValidProofs; ErrDalPortNotFound;
  ErrDalCollectorNotFound; ErrDalHubNotFound; ErrDalKeyCacheNotFound;
  ErrDalFeedHashNotFound; ErrDalSymbolsNotFound; ErrDalChainEnvNotFound;
  ErrReducerCastToFloatFail; ErrReducerIndexCastToInterfaceFail; ErrReducerParseCastToInterfaceFail;
  ErrReducerParseCastToStringFail; ErrReducerParseCastToMapFail; ErrReducerMulCastToFloatFail;
  ErrReducerDivCastToFloatFail; ErrReducerDivDivsionByZero; ErrReducerDivFromCastToFloatFail;
  ErrReducerUnknownReducerFunc; ErrRequestStatusNotOk; ErrRequestInvalidMethod;
  ErrCalculatorEmptyArr; ErrReducerIndexOutOfBounds; ErrLogTimestampNotExist;
  ErrLogMsgNotExist; ErrLogLvlNotExist; ErrLogEmptyLogByte;
  ErrLogscribeDbPoolNotFound; ErrLogscribeInsertFailed; ErrLogscribeServiceNotExist;
  ErrLogscribeGithubCredentialsNotFound; ErrLogscribeFailedToCreateGithubIssue; ErrLogscribeConsumerServiceNotProvided;
  ErrLogscribeConsumerInvalidLevel; ErrLogscribeConsumerEndpointUnresponsive; ErrConditionTimedOut].

(** A Go [error]: a sentinel, an error of the [context] package, or an error
    that another package built from a text ([errors.New], [fmt.Errorf], the
    JSON, database and chain clients). *)
Inductive error : Type :=
| Sentinel (e : CustomError)
| DeadlineExceeded
| External (msg : string).

#[export] Instance error_eq_dec : EqDecision error.
Proof. solve_decision. Defined.
Coercion Sentinel : CustomError >-> error.

(** [err.Error()]. *)
Definition Error (e : error) : string :=
  match e with
  | Sentinel c => CustomError_Error c
  | DeadlineExceeded => "context deadline exceeded"
  | External msg => msg
  end.

(** [errors.Is(err, target)] for errors that wrap nothing. *)
Definition errors_Is (err target : error) : bool := bool_decide (err = target).

(** What a function with results [(A, error)] returns. *)
Inductive res (A : Type) : Type :=
| Ok (a : A)
| Err (e : error).
Arguments Ok {A} _.
Arguments Err {A} _.

#[export] Instance res_eq_dec `{EqDecision A} : EqDecision (res A).
Proof. solve_decision. Defined.

Definition res_bind {A B} (m : res A) (f : A -> res B) : res B :=
  match m with Ok a => f a | Err e => Err e end.
Definition res_map {A B} (f : A -> B) (m : res A) : res B :=
  match m with Ok a => Ok (f a) | Err e => Err e end.

Notation "'let?' x ':=' m 'in' k" := (res_bind m (fun x => k))
  (at level 10, x pattern, m at level 100, k at level 200) : go_scope.

Lemma res_bind_Ok {A B} (m : res A) (f : A -> res B) b :
  res_bind m f = Ok b <-> exists a, m = Ok a /\ f a = Ok b.
Proof. destruct m; simpl; naive_solver. Qed.
Lemma res_map_Ok {A B} (f : A -> B) (m : res A) b : res_map f m = Ok b <-> exists a, m = Ok a /\ b = f a.
Proof. destruct m; simpl; naive_solver. Qed.

(** ** Distinctness *)
Lemma sentinels_NoDup : NoDup sentinels.
Proof. apply (bool_decide_eq_true_1 (NoDup sentinels)). vm_compute. reflexivity. Qed.
