(* ===== verification/Calculator.v ===== *)
(** * Calculator

    [node/pkg/utils/calculator/calculator.go]: averages and medians of integer
    slices.  The sorting routines sort their argument in place, so a median
    also returns the slice as the caller sees it afterwards. *)

From S2P Require Import Prelude Errors.

Local Open Scope Z_scope.

Module Calculator.

(** The running [sum += v] of a 64-bit integer. *)
Definition sum64 (nums : list int64) : int64 :=
  foldl (fun sum v => wrap64 (sum + v)) 0 nums.

Definition GetIntAvg (nums : list int64) : res int64 :=
  if bool_decide (nums = []) then Err ErrCalculatorEmptyArr
  else Ok (wrap64 (Z.quot (sum64 nums) (Z.of_nat (length nums)))).

Definition GetInt64Avg (nums : list int64) : res int64 :=
  if bool_decide (nums = []) then Err ErrCalculatorEmptyArr
  else Ok (wrap64 (Z.quot (sum64 nums) (Z.of_nat (length nums)))).

(** [sort.Ints] and [sort.Slice] with [<]: the ascending rearrangement, which
    for integers is unique. *)
Definition sort_ints (nums : list int64) : list int64 := merge_sort Z.le nums.

(** [(a + b) / 2] on 64-bit integers: the sum wraps, the quotient truncates. *)
Definition mid64 (a b : int64) : int64 := wrap64 (Z.quot (wrap64 (a + b)) 2).

Definition GetIntMed (nums : list int64) : res int64 * list int64 :=
  if bool_decide (nums = []) then (Err ErrCalculatorEmptyArr, nums)
  else
    let nums := sort_ints nums in
    let n := length nums in
    if Nat.even n
    then (Ok (mid64 (nums !!! (n / 2 - 1)%nat) (nums !!! (n / 2)%nat)), nums)
    else (Ok (nums !!! (n / 2)%nat), nums).

Definition GetInt64Med (nums : list int64) : res int64 * list int64 :=
  match nums with
  | [] => (Err ErrCalculatorEmptyArr, nums)
  | [a] => (Ok a, nums)
  | [a; b] => (Ok (mid64 a b), nums)
  | _ =>
    let nums := sort_ints nums in
    let n := length nums in
    if Nat.even n
    then (Ok (mid64 (nums !!! (n / 2 - 1)%nat) (nums !!! (n / 2)%nat)), nums)
    else (Ok (nums !!! (n / 2)%nat), nums)
  end.

(** ** Sorting *)
Lemma sort_ints_perm l : sort_ints l ≡ₚ l.
Proof. apply merge_sort_Permutation. Qed.

Lemma sort_ints_sorted l : StronglySorted Z.le (sort_ints l).
Proof. apply StronglySorted_merge_sort; [typeclasses eauto|]. intros ??; lia. Qed.

Lemma sort_ints_length l : length (sort_ints l) = length l.
Proof. by rewrite sort_ints_perm. Qed.

Lemma sort_ints_proper l l' : l ≡ₚ l' -> sort_ints l = sort_ints l'.
Proof.
  intros Hp. apply (StronglySorted_unique Z.le); auto using sort_ints_sorted.
  by rewrite !sort_ints_perm.
Qed.
#[export] Hint Resolve sort_ints_perm sort_ints_sorted : go.

#[export] Instance sort_ints_Proper : Proper ((≡ₚ) ==> (=)) sort_ints.
Proof. intros ???. by apply sort_ints_proper. Qed.

(** Everything before (after) a position of a sorted list is below (above) it. *)
Lemma sorted_take_le (l : list Z) i x :
  StronglySorted Z.le l -> l !! i = Some x -> Forall (fun y => y <= x) (take (S i) l).
Proof.
  intros Hs. revert i. induction Hs as [|y l Hs IH Hall]; intros i Hi; [done|].
  destruct i as [|i]; simpl in *; simplify_eq.
  - rewrite firstn_O. repeat constructor. lia.
  - constructor; [|by apply IH].
    rewrite Forall_forall in Hall. apply Hall. by eapply list_elem_of_lookup_2.
Qed.

Lemma sorted_drop_ge (l : list Z) i x :
  StronglySorted Z.le l -> l !! i = Some x -> Forall (fun y => x <= y) (drop i l).
Proof.
  intros Hs. revert i. induction Hs as [|y l Hs IH Hall]; intros i Hi; [done|].
  destruct i as [|i]; simpl in *; simplify_eq.
  - constructor; [lia|]. done.
  - by apply IH.
Qed.

Definition between (lo hi y : Z) : bool := (lo <=? y) && (y <=? hi).

(** How many elements of [l] satisfy the test [p]. *)
Definition count (p : Z -> bool) (l : list Z) : nat := length (filter (fun x => p x = true) l).

Lemma count_perm p l l' : l ≡ₚ l' -> count p l = count p l'.
Proof. intros Hp. unfold count. by rewrite Hp. Qed.

Lemma count_all p l : Forall (fun x => p x = true) l -> count p l = length l.
Proof. intros H. unfold count. induction H; [done|]. rewrite filter_cons_True by done. simpl. lia. Qed.

Lemma count_app p l1 l2 : count p (l1 ++ l2) = (count p l1 + count p l2)%nat.
Proof. unfold count. by rewrite filter_app, length_app. Qed.

Lemma count_negb p l : (count p l + count (fun x => negb (p x)) l = length l)%nat.
Proof.
  induction l as [|x l IH]; [done|]. unfold count in *. rewrite !filter_cons.
  destruct (p x); repeat case_decide; simpl in *; try congruence; lia.
Qed.

Lemma count_impl (p q : Z -> bool) l :
  (forall x, p x = true -> q x = true) -> (count p l <= count q l)%nat.
Proof.
  intros H. induction l as [|x l IH]; [done|]. unfold count in *. rewrite !filter_cons.
  repeat case_decide; simpl; try lia. exfalso. naive_solver.
Qed.

(** The order-statistics core: at a middle position of a sorted list, a value
    lies between two bounds as soon as a strict majority of the list does. *)
Lemma middle_between (l : list Z) i x lo hi :
  StronglySorted Z.le l -> l !! i = Some x ->
  (length l <= 2 * (i + 1) /\ (2 * i <= length l))%nat ->
  (length l < 2 * count (between lo hi) l)%nat ->
  lo <= x <= hi.
Proof.
  intros Hs Hi [Hlow Hhigh] Hc.
  set (ok := between lo hi) in *.
  pose proof (count_negb ok l) as Hneg.
  pose proof (lookup_lt_Some _ _ _ Hi) as Hlt.
  assert (forall l1 l2, l = l1 ++ l2 ->
    (count (fun y => negb (ok y)) l1 <= count (fun y => negb (ok y)) l)%nat /\
    (count (fun y => negb (ok y)) l2 <= count (fun y => negb (ok y)) l)%nat) as Hpart.
  { intros l1 l2 ->. rewrite count_app. lia. }
  split; apply Z.nlt_ge; intros Hx.
  - destruct (Hpart (take (S i) l) (drop (S i) l)) as [Hle _]; [by rewrite take_drop|].
    rewrite count_all, length_take in Hle; [lia|].
    eapply Forall_impl; [by eapply sorted_take_le|]. intros y Hy. subst ok. unfold between. simpl in *.
    apply negb_true_iff, andb_false_iff. left. lia.
  - destruct (Hpart (take i l) (drop i l)) as [_ Hle]; [by rewrite take_drop|].
    rewrite count_all, length_drop in Hle; [lia|].
    eapply Forall_impl; [by eapply sorted_drop_ge|]. intros y Hy. subst ok. unfold between. simpl in *.
    apply negb_true_iff, andb_false_iff. right. lia.
Qed.

Lemma mid64_between a b lo hi :
  in_int64 (a + b) -> lo <= a <= hi -> lo <= b <= hi -> lo <= mid64 a b <= hi.
Proof.
  intros Hr Ha Hb. unfold mid64. rewrite (wrap64_id (a + b)) by done.
  assert (lo <= Z.quot (a + b) 2 <= hi) as Hq.
  { split.
    - replace lo with (Z.quot (2 * lo) 2) by (rewrite Z.mul_comm; apply Z.quot_mul; lia).
      apply Z.quot_le_mono; lia.
    - replace hi with (Z.quot (2 * hi) 2) by (rewrite Z.mul_comm; apply Z.quot_mul; lia).
      apply Z.quot_le_mono; lia. }
  rewrite wrap64_id; [done|]. 
  pose proof (Z.quot_abs (a + b) 2 ltac:(lia)) as Habs.
  pose proof (Z.quot_le_upper_bound (Z.abs (a + b)) (Z.abs 2) (2 ^ 62) ltac:(lia)) as Hb'.
  int_lia.
Qed.

Lemma mid64_comm a b : mid64 a b = mid64 b a.
Proof. unfold mid64. by rewrite Z.add_comm. Qed.

(** Both branches of the sorted case, as one lookup property. *)
Lemma even_length_half (n : nat) : Nat.even n = true -> (n = 2 * (n / 2))%nat.
Proof. intros [k ->]%Nat.even_spec. rewrite Nat.mul_comm, Nat.div_mul by lia. lia. Qed.

Lemma odd_length_half (n : nat) : Nat.even n = false -> (n = 2 * (n / 2) + 1)%nat.
Proof.
  intros H. rewrite <- Nat.negb_odd in H. apply negb_false_iff, Nat.odd_spec in H as [k ->].
  replace (2 * k + 1)%nat with (1 + k * 2)%nat by lia. rewrite Nat.div_add by lia. simpl. lia.
Qed.

(** The fast paths agree with the sorting path. *)
Lemma GetInt64Med_GetIntMed l : fst (GetInt64Med l) = fst (GetIntMed l).
Proof.
  destruct l as [|a [|b [|c l]]]; [done| | |].
  - done.
  - unfold GetInt64Med, GetIntMed. rewrite bool_decide_false by done.
    assert (sort_ints [a; b] = [a; b] \/ sort_ints [a; b] = [b; a]) as [-> | ->].
    { apply Permutation_length_2_inv. symmetry. apply sort_ints_perm. }
    + done.
    + simpl. f_equal. apply mid64_comm.
  - unfold GetIntMed. rewrite bool_decide_false by done. done.
Qed.

Lemma GetIntMed_perm l l' : l ≡ₚ l' -> fst (GetIntMed l) = fst (GetIntMed l').
Proof.
  intros Hp. unfold GetIntMed. rewrite (sort_ints_proper _ _ Hp).
  destruct (decide (l = [])) as [->|Hn].
  - apply Permutation_nil_l in Hp. by subst l'.
  - assert (l' <> []). { intros ->. by apply Permutation_nil_r in Hp. }
    rewrite !bool_decide_false by done. by case_match.
Qed.

(** What the median promises: given a strict majority of values between [lo]
    and [hi], so is the median, whatever the other values; the sum of two values
    in that range must not overflow. *)
Lemma GetIntMed_majority l lo hi :
  - 2 ^ 62 <= lo -> hi < 2 ^ 62 ->
  (length l < 2 * count (between lo hi) l)%nat ->
  exists m, fst (GetIntMed l) = Ok m /\ lo <= m <= hi.
Proof.
  intros Hlo Hhi Hc.
  assert (l <> []) as Hne by (intros ->; unfold count in Hc; simpl in Hc; lia).
  unfold GetIntMed. rewrite bool_decide_false by done.
  rewrite <- (count_perm _ _ _ (sort_ints_perm l)), <- (sort_ints_length l) in Hc.
  pose proof (sort_ints_sorted l) as Hs.
  assert (sort_ints l <> []) as Hne'.
  { intros E. apply Hne. apply nil_length_inv. by rewrite <- sort_ints_length, E. }
  set (s := sort_ints l) in *. clearbody s. clear l Hne.
  assert (0 < length s)%nat by (destruct s; simpl; [done|lia]).
  assert (forall i, i < length s -> s !! i = Some (s !!! i))%nat as Hget.
  { intros i Hi. by apply list_lookup_lookup_total_lt. }
  destruct (Nat.even (length s)) eqn:He; eexists; (split; [reflexivity|]).
  - apply even_length_half in He.
    assert (s !! (length s / 2 - 1) = Some (s !!! (length s / 2 - 1)))%nat as H1
      by (apply Hget; lia).
    assert (s !! (length s / 2) = Some (s !!! (length s / 2)))%nat as H2 by (apply Hget; lia).
    assert (lo <= s !!! (length s / 2 - 1)%nat <= hi) by (eapply middle_between; [done|exact H1| |exact Hc]; lia).
    assert (lo <= s !!! (length s / 2)%nat <= hi) by (eapply middle_between; [done|exact H2| |exact Hc]; lia).
    apply mid64_between; [int_lia|done|done].
  - apply odd_length_half in He.
    eapply middle_between; [done|apply Hget; lia| |exact Hc]. lia.
Qed.

Lemma GetInt64Med_sum_overflow :
  fst (GetInt64Med [max_int64; max_int64]) = Ok (-1).
Proof. vm_compute. reflexivity. Qed.

End Calculator.
