(* ===== verification/Wire.v ===== *)
(** * Wire format of the peer-to-peer messages

    The structs of [node/pkg/raft/types.go] and [node/pkg/aggregator/types.go]
    that travel over the topic, and what [encoding/json] makes of them.

    A [json.RawMessage] is kept as the fields its object carries.  A field is
    absent (or [null]), carries a value the Go field accepts, or carries
    something it rejects (wrong JSON type, integer out of range, bad base64 or
    time text).  A field name has the same Go type in all messages, so one
    record serves for all of them, also when the type tag and the payload of a
    message do not belong together. *)

From S2P Require Import Prelude Errors.

Local Open Scope Z_scope.

(** Bytes are integers between 0 and 255; times are nanoseconds since the
    Unix epoch, [time_zero] being Go's zero [time.Time]. *)
Abbreviation bytes := (list Z) (only parsing).
Abbreviation Time := Z (only parsing).
Abbreviation Duration := Z (only parsing).

Definition time_zero : Time := -62135596800000000000.
Definition IsZero (t : Time) : bool := t =? time_zero.
Definition millisecond : Duration := 1000000.
Definition second : Duration := 1000000000.

(** [t.Sub(u)] saturates at the bounds of [time.Duration]. *)
Definition time_Sub (t u : Time) : Duration := Z.max min_int64 (Z.min max_int64 (t - u)).

(** [t.UnixMilli()]: floor, as Go computes it from seconds and nanoseconds. *)
Definition UnixMilli (t : Time) : int64 := wrap64 (t / millisecond).

Inductive jfield (A : Type) : Type := JAbsent | JBad | JVal (a : A).
Arguments JAbsent {A}.
Arguments JBad {A}.
Arguments JVal {A} _.

(** Decode one field over the zero value [d]. *)
Definition jget {A} (d : A) (f : jfield A) : option A :=
  match f with JAbsent => Some d | JBad => None | JVal a => Some a end.

Record RawData : Type := mkRawData {
  j_term : jfield Z;
  j_leaderID : jfield string;
  j_voteGranted : jfield bool;
  j_roundID : jfield Z;
  j_priceData : jfield Z;
  j_value : jfield Z;
  j_proof : jfield (list Z);
  j_timestamp : jfield Z
}.

Definition no_fields : RawData :=
  mkRawData JAbsent JAbsent JAbsent JAbsent JAbsent JAbsent JAbsent JAbsent.

(** [None]: no text, or JSON that is not an object ([null] decodes as the
    object without fields). *)
Abbreviation RawMessage := (option RawData) (only parsing).

(** The error of a failed [json.Unmarshal]. *)
Definition ErrJson : error := External "json".

(** A message struct with its marshalling; unmarshalling what was marshalled
    gives the struct back. *)
Class JsonCodec (T : Type) := {
  json_Marshal : T -> RawMessage;
  json_Unmarshal : RawMessage -> option T;
  json_roundtrip : forall x, json_Unmarshal (json_Marshal x) = Some x
}.

Arguments json_Marshal : simpl never.
Arguments json_Unmarshal : simpl never.

(** ** Raft messages *)
Record RequestVoteMessage : Type := mkRequestVote { rv_Term : Z }.

Record HeartbeatMessage : Type := mkHeartbeat { hb_LeaderID : string; hb_Term : Z }.

Record ReplyRequestVoteMessage : Type :=
  mkReplyVote { rp_VoteGranted : bool; rp_LeaderID : string }.

#[export] Program Instance RequestVote_codec : JsonCodec RequestVoteMessage := {|
  json_Marshal m :=
    Some (mkRawData (JVal (rv_Term m)) JAbsent JAbsent JAbsent JAbsent JAbsent JAbsent JAbsent);
  json_Unmarshal raw := d ← raw; t ← jget 0 (j_term d); Some (mkRequestVote t)
|}.
Next Obligation. by intros []. Qed.

#[export] Program Instance Heartbeat_codec : JsonCodec HeartbeatMessage := {|
  json_Marshal m :=
    Some (mkRawData (JVal (hb_Term m)) (JVal (hb_LeaderID m)) JAbsent JAbsent JAbsent JAbsent
      JAbsent JAbsent);
  json_Unmarshal raw :=
    d ← raw; l ← jget "" (j_leaderID d); t ← jget 0 (j_term d); Some (mkHeartbeat l t)
|}.
Next Obligation. by intros []. Qed.

#[export] Program Instance ReplyVote_codec : JsonCodec ReplyRequestVoteMessage := {|
  json_Marshal m :=
    Some (mkRawData JAbsent (JVal (rp_LeaderID m)) (JVal (rp_VoteGranted m)) JAbsent JAbsent
      JAbsent JAbsent JAbsent);
  json_Unmarshal raw :=
    d ← raw; g ← jget false (j_voteGranted d); l ← jget "" (j_leaderID d);
    Some (mkReplyVote g l)
|}.
Next Obligation. by intros []. Qed.

(** ** Aggregator messages *)
Record TriggerMessage : Type :=
  mkTrigger { tr_LeaderID : string; tr_RoundID : int32; tr_Timestamp : Time }.

Record PriceDataMessage : Type :=
  mkPriceData { pd_RoundID : int32; pd_PriceData : int64; pd_Timestamp : Time }.

Record PriceFixMessage : Type :=
  mkPriceFix { pf_RoundID : int32; pf_PriceData : int64; pf_Timestamp : Time }.

(** [Proof == nil] is [None]. *)
Record ProofMessage : Type :=
  mkProofMsg { pm_RoundID : int32; pm_Value : int64; pm_Proof : option bytes; pm_Timestamp : Time }.

#[export] Program Instance Trigger_codec : JsonCodec TriggerMessage := {|
  json_Marshal m :=
    Some (mkRawData JAbsent (JVal (tr_LeaderID m)) JAbsent (JVal (tr_RoundID m)) JAbsent JAbsent
      JAbsent (JVal (tr_Timestamp m)));
  json_Unmarshal raw :=
    d ← raw; l ← jget "" (j_leaderID d); r ← jget 0 (j_roundID d);
    t ← jget time_zero (j_timestamp d); Some (mkTrigger l r t)
|}.
Next Obligation. by intros []. Qed.

#[export] Program Instance PriceData_codec : JsonCodec PriceDataMessage := {|
  json_Marshal m :=
    Some (mkRawData JAbsent JAbsent JAbsent (JVal (pd_RoundID m)) (JVal (pd_PriceData m)) JAbsent
      JAbsent (JVal (pd_Timestamp m)));
  json_Unmarshal raw :=
    d ← raw; r ← jget 0 (j_roundID d); p ← jget 0 (j_priceData d);
    t ← jget time_zero (j_timestamp d); Some (mkPriceData r p t)
|}.
Next Obligation. by intros []. Qed.

#[export] Program Instance PriceFix_codec : JsonCodec PriceFixMessage := {|
  json_Marshal m :=
    Some (mkRawData JAbsent JAbsent JAbsent (JVal (pf_RoundID m)) (JVal (pf_PriceData m)) JAbsent
      JAbsent (JVal (pf_Timestamp m)));
  json_Unmarshal raw :=
    d ← raw; r ← jget 0 (j_roundID d); p ← jget 0 (j_priceData d);
    t ← jget time_zero (j_timestamp d); Some (mkPriceFix r p t)
|}.
Next Obligation. by intros []. Qed.

#[export] Program Instance ProofMsg_codec : JsonCodec ProofMessage := {|
  json_Marshal m :=
    Some (mkRawData JAbsent JAbsent JAbsent (JVal (pm_RoundID m)) JAbsent (JVal (pm_Value m))
      (match pm_Proof m with Some p => JVal p | None => JAbsent end) (JVal (pm_Timestamp m)));
  json_Unmarshal raw :=
    d ← raw; r ← jget 0 (j_roundID d); v ← jget 0 (j_value d);
    p ← match j_proof d with JAbsent => Some None | JBad => None | JVal p => Some (Some p) end;
    t ← jget time_zero (j_timestamp d); Some (mkProofMsg r v p t)
|}.
Next Obligation. by intros [?? [] ?]. Qed.
