(* ===== verification/Raft.v ===== *)
(** * Raft: leader election of one node

    [node/pkg/raft/raft.go], [types.go] and [accessors.go].  The state of a
    [Raft] is a record with the source's fields; a handler is a function from
    the environment of the call (clock, random draw, peers on the topic, result
    of [Topic.Publish]), the state and the message to the new state, the
    effects and the error it returns.  Handlers hold the mutex for their whole
    effect on the state, so a run of a node is a sequence of handler calls.
    The leader goroutine, which does not, is in [LeaderLoop]. *)

From S2P Require Import Prelude Errors Wire.

Local Open Scope Z_scope.

Module Raft.

(** ** Data *)
Abbreviation MessageType := string (only parsing).

Definition Heartbeat : MessageType := "heartbeat".
Definition RequestVote : MessageType := "requestVote".
Definition ReplyVote : MessageType := "replyVote".
Definition AppendEntries : MessageType := "appendEntries".
Definition ReplyAppendEntries : MessageType := "replyAppendEntries".

Inductive RoleType : Type := Leader | Candidate | Follower.

#[export] Instance RoleType_eq_dec : EqDecision RoleType.
Proof. solve_decision. Defined.

Definition MaxMissedHeartbeats : Z := 2.
Definition DefaultCooldownPeriod : Duration := 3 * second.
Definition HEARTBEAT_TIMEOUT : Duration := 100 * millisecond.

Record Message : Type := mkMessage {
  Type_ : MessageType;
  SentFrom : string;
  Data : RawMessage;
  Timestamp : Time
}.

(** A [*time.Timer]: [TimerFired] has a tick waiting in its channel.  The
    module is built with Go 1.22, where [Stop] leaves such a tick there. *)
Inductive timer : Type := TimerNil | TimerActive (d : Duration) | TimerFired | TimerStopped.

(** [t.Stop()]; [None] is the panic on a nil timer. *)
Definition timer_Stop (t : timer) : option timer :=
  match t with
  | TimerNil => None
  | TimerActive _ | TimerStopped => Some TimerStopped
  | TimerFired => Some TimerFired
  end.

(** A [*time.Ticker]. *)
Inductive ticker : Type := TickerNil | TickerOn (period : Duration) | TickerOff.

(** Channels made for [Resign] are numbered; [None] is the nil channel,
    [Closed] the closed ones, [NextChan] the next number [make] uses. *)
#[projections(primitive)]
Record Raft : Type := mkRaft {
  HostID : string;
  Role : RoleType;
  VotedFor : string;
  LeaderID : string;
  VotesReceived : Z;
  Term : Z;
  HeartbeatTicker : ticker;
  ElectionTimer : timer;
  Resign : option nat;
  Closed : list nat;
  NextChan : nat;
  HeartbeatTimeout : Duration;
  LeaderJobTimeout : Duration;
  LeaderJobTicker : ticker;
  MissedHeartbeats : Z;
  CooldownPeriod : Duration;
  LastElectionTime : Time
}.

Definition set_Role (v : RoleType) (r : Raft) : Raft :=
  mkRaft (HostID r) v (VotedFor r) (LeaderID r) (VotesReceived r) (Term r) (HeartbeatTicker r)
    (ElectionTimer r) (Resign r) (Closed r) (NextChan r) (HeartbeatTimeout r) (LeaderJobTimeout
    r) (LeaderJobTicker r) (MissedHeartbeats r) (CooldownPeriod r) (LastElectionTime r).
Definition set_VotedFor (v : string) (r : Raft) : Raft :=
  mkRaft (HostID r) (Role r) v (LeaderID r) (VotesReceived r) (Term r) (HeartbeatTicker r)
    (ElectionTimer r) (Resign r) (Closed r) (NextChan r) (HeartbeatTimeout r) (LeaderJobTimeout
    r) (LeaderJobTicker r) (MissedHeartbeats r) (CooldownPeriod r) (LastElectionTime r).
Definition set_LeaderID (v : string) (r : Raft) : Raft :=
  mkRaft (HostID r) (Role r) (VotedFor r) v (VotesReceived r) (Term r) (HeartbeatTicker r)
    (ElectionTimer r) (Resign r) (Closed r) (NextChan r) (HeartbeatTimeout r) (LeaderJobTimeout
    r) (LeaderJobTicker r) (MissedHeartbeats r) (CooldownPeriod r) (LastElectionTime r).
Definition set_VotesReceived (v : Z) (r : Raft) : Raft :=
  mkRaft (HostID r) (Role r) (VotedFor r) (LeaderID r) v (Term r) (HeartbeatTicker r)
    (ElectionTimer r) (Resign r) (Closed r) (NextChan r) (HeartbeatTimeout r) (LeaderJobTimeout
    r) (LeaderJobTicker r) (MissedHeartbeats r) (CooldownPeriod r) (LastElectionTime r).
Definition set_Term (v : Z) (r : Raft) : Raft :=
  mkRaft (HostID r) (Role r) (VotedFor r) (LeaderID r) (VotesReceived r) v (HeartbeatTicker r)
    (ElectionTimer r) (Resign r) (Closed r) (NextChan r) (HeartbeatTimeout r) (LeaderJobTimeout
    r) (LeaderJobTicker r) (MissedHeartbeats r) (CooldownPeriod r) (LastElectionTime r).
Definition set_HeartbeatTicker (v : ticker) (r : Raft) : Raft :=
  mkRaft (HostID r) (Role r) (VotedFor r) (LeaderID r) (VotesReceived r) (Term r) v
    (ElectionTimer r) (Resign r) (Closed r) (NextChan r) (HeartbeatTimeout r) (LeaderJobTimeout
    r) (LeaderJobTicker r) (MissedHeartbeats r) (CooldownPeriod r) (LastElectionTime r).
Definition set_ElectionTimer (v : timer) (r : Raft) : Raft :=
  mkRaft (HostID r) (Role r) (VotedFor r) (LeaderID r) (VotesReceived r) (Term r)
    (HeartbeatTicker r) v (Resign r) (Closed r) (NextChan r) (HeartbeatTimeout r)
    (LeaderJobTimeout r) (LeaderJobTicker r) (MissedHeartbeats r) (CooldownPeriod r)
    (LastElectionTime r).
Definition set_Resign (v : option nat) (r : Raft) : Raft :=
  mkRaft (HostID r) (Role r) (VotedFor r) (LeaderID r) (VotesReceived r) (Term r)
    (HeartbeatTicker r) (ElectionTimer r) v (Closed r) (NextChan r) (HeartbeatTimeout r)
    (LeaderJobTimeout r) (LeaderJobTicker r) (MissedHeartbeats r) (CooldownPeriod r)
    (LastElectionTime r).
Definition set_Closed (v : list nat) (r : Raft) : Raft :=
  mkRaft (HostID r) (Role r) (VotedFor r) (LeaderID r) (VotesReceived r) (Term r)
    (HeartbeatTicker r) (ElectionTimer r) (Resign r) v (NextChan r) (HeartbeatTimeout r)
    (LeaderJobTimeout r) (LeaderJobTicker r) (MissedHeartbeats r) (CooldownPeriod r)
    (LastElectionTime r).
Definition set_NextChan (v : nat) (r : Raft) : Raft :=
  mkRaft (HostID r) (Role r) (VotedFor r) (LeaderID r) (VotesReceived r) (Term r)
    (HeartbeatTicker r) (ElectionTimer r) (Resign r) (Closed r) v (HeartbeatTimeout r)
    (LeaderJobTimeout r) (LeaderJobTicker r) (MissedHeartbeats r) (CooldownPeriod r)
    (LastElectionTime r).
Definition set_LeaderJobTicker (v : ticker) (r : Raft) : Raft :=
  mkRaft (HostID r) (Role r) (VotedFor r) (LeaderID r) (VotesReceived r) (Term r)
    (HeartbeatTicker r) (ElectionTimer r) (Resign r) (Closed r) (NextChan r) (HeartbeatTimeout
    r) (LeaderJobTimeout r) v (MissedHeartbeats r) (CooldownPeriod r) (LastElectionTime r).
Definition set_MissedHeartbeats (v : Z) (r : Raft) : Raft :=
  mkRaft (HostID r) (Role r) (VotedFor r) (LeaderID r) (VotesReceived r) (Term r)
    (HeartbeatTicker r) (ElectionTimer r) (Resign r) (Closed r) (NextChan r) (HeartbeatTimeout
    r) (LeaderJobTimeout r) (LeaderJobTicker r) v (CooldownPeriod r) (LastElectionTime r).
Definition set_LastElectionTime (v : Time) (r : Raft) : Raft :=
  mkRaft (HostID r) (Role r) (VotedFor r) (LeaderID r) (VotesReceived r) (Term r)
    (HeartbeatTicker r) (ElectionTimer r) (Resign r) (Closed r) (NextChan r) (HeartbeatTimeout
    r) (LeaderJobTimeout r) (LeaderJobTicker r) (MissedHeartbeats r) (CooldownPeriod r) v.
(** The environment of one call: the draw of [rand.Int63n], [time.Now()], the
    peers that subscribe to the topic, and what [Topic.Publish] answers. *)
Record Env : Type := mkEnv {
  e_rand : Z;
  e_now : Time;
  e_peers : nat;
  e_publish : option error
}.

(** What a call does outside the state. *)
Inductive effect : Type :=
| Publish (m : Message)
| SpawnLeaderLoop.

(** [Panic]: a nil pointer was dereferenced. *)
Inductive hres : Type :=
| Panic
| Ret (r : Raft) (out : list effect) (err : option error).

(** ** Operations *)
Definition NewRaftNode (host : string) (leaderJobTimeout : Duration) : Raft :=
  {| HostID := host; Role := Follower; VotedFor := ""; LeaderID := "";
     VotesReceived := 0; Term := 0; HeartbeatTicker := TickerNil;
     ElectionTimer := TimerNil; Resign := Some 0%nat; Closed := []; NextChan := 1;
     HeartbeatTimeout := HEARTBEAT_TIMEOUT; LeaderJobTimeout := leaderJobTimeout;
     LeaderJobTicker := TickerNil; MissedHeartbeats := 0;
     CooldownPeriod := DefaultCooldownPeriod; LastElectionTime := time_zero |}.

Definition GetRole (r : Raft) : RoleType := Role r.
Definition GetCurrentTerm (r : Raft) : Z := Term r.
Definition IncreaseTerm (r : Raft) : Raft := set_Term (wrap64 (Term r + 1)) r.
Definition GetLeader (r : Raft) : string := LeaderID r.
Definition SubscribersCount (E : Env) : Z := Z.of_nat (e_peers E).
Definition GetHostId (r : Raft) : string := HostID r.

(** [rand.Int63n(n)] draws from [0..n-1]: the draw is reduced to that range. *)
Definition getRandomElectionTimeout (E : Env) (r : Raft) : Duration :=
  let baseTimeout := wrap64 (HeartbeatTimeout r * 5) in
  let jitter := e_rand E `mod` wrap64 (HeartbeatTimeout r * 5) in
  wrap64 (baseTimeout + jitter).

(** Stopping a timer that has fired drains its channel before the reset. *)
Definition startElectionTimer (E : Env) (r : Raft) : Raft :=
  match ElectionTimer r with
  | TimerNil => set_ElectionTimer (TimerActive (getRandomElectionTimeout E r)) r
  | TimerActive _ | TimerFired | TimerStopped =>
      set_ElectionTimer (TimerActive (getRandomElectionTimeout E r)) r
  end.

(** [PublishMessage] stamps the message and hands it to the topic. *)
Definition PublishMessage (E : Env) (msg : Message) : list effect * option error :=
  let msg := mkMessage (Type_ msg) (SentFrom msg) (Data msg) (e_now E) in
  match e_publish E with
  | None => ([Publish msg], None)
  | Some err => ([], Some err)
  end.

Definition sendHeartbeat (E : Env) (r : Raft) : list effect * option error :=
  let heartbeatMessage := mkHeartbeat (GetHostId r) (Term r) in
  PublishMessage E
    (mkMessage Heartbeat (GetHostId r) (json_Marshal heartbeatMessage) time_zero).

Definition sendReplyVote (E : Env) (r : Raft) (to : string) (voteGranted : bool)
    : list effect * option error :=
  let replyVoteMessage := mkReplyVote voteGranted to in
  PublishMessage E
    (mkMessage ReplyVote (GetHostId r) (json_Marshal replyVoteMessage) time_zero).

Definition sendRequestVote (E : Env) (r : Raft) : list effect * option error :=
  let requestVoteMessage := mkRequestVote (Term r) in
  PublishMessage E
    (mkMessage RequestVote (GetHostId r) (json_Marshal requestVoteMessage) time_zero).

Definition ResignLeader (E : Env) (r : Raft) : Raft :=
  match Resign r with
  | None => r
  | Some c =>
      let r := set_Closed (c :: Closed r) r in
      let r := set_Resign None r in
      let r := set_Role Follower r in
      let r := set_LeaderID "" r in
      startElectionTimer E r
  end.

(** [None]: [r.ElectionTimer.Stop()] on a nil timer panics. *)
Definition setLeaderState (r : Raft) : option Raft :=
  let r := set_Resign (Some (NextChan r)) r in
  let r := set_NextChan (S (NextChan r)) r in
  match timer_Stop (ElectionTimer r) with
  | None => None
  | Some stopped =>
      let r := set_ElectionTimer stopped r in
      let r := set_Term (wrap64 (Term r + 1)) r in
      let r := set_Role Leader r in
      let r := set_LeaderID (GetHostId r) r in
      let r := set_HeartbeatTicker (TickerOn (HeartbeatTimeout r)) r in
      Some (set_LeaderJobTicker (TickerOn (LeaderJobTimeout r)) r)
  end.

Definition becomeLeader (r : Raft) : hres :=
  match setLeaderState r with
  | None => Panic
  | Some r => Ret r [SpawnLeaderLoop] None
  end.

Definition handleHeartbeat (E : Env) (r : Raft) (msg : Message) : hres :=
  if bool_decide (SentFrom msg = GetHostId r) then Ret r [] None else
  match json_Unmarshal (T := HeartbeatMessage) (Data msg) with
  | None => Ret r [] (Some ErrJson)
  | Some hb =>
      if negb (bool_decide (hb_LeaderID hb = SentFrom msg))
      then Ret r [] (Some (Sentinel ErrRaftLeaderIdMismatch)) else
      let r := set_MissedHeartbeats 0 r in
      let currentRole := Role r in
      let currentTerm := Term r in
      let r := if bool_decide (Role r = Follower) then startElectionTimer E r else r in
      if currentTerm <? hb_Term hb then
        let r := if bool_decide (currentRole = Leader) then ResignLeader E r else r in
        let r := set_Term (hb_Term hb) r in
        let r := set_Role Follower r in
        Ret (set_LeaderID (hb_LeaderID hb) r) [] None
      else if hb_Term hb =? currentTerm then
        if bool_decide (currentRole = Leader) then
          if str_ltb (GetHostId r) (hb_LeaderID hb) then
            let r := ResignLeader E r in
            Ret (set_LeaderID (hb_LeaderID hb) r) [] None
          else Ret r [] None
        else Ret (set_LeaderID (hb_LeaderID hb) r) [] None
      else Ret r [] None
  end.

Definition handleRequestVote (E : Env) (r : Raft) (msg : Message) : hres :=
  if bool_decide (Role r = Leader) then Ret r [] None else
  match json_Unmarshal (T := RequestVoteMessage) (Data msg) with
  | None => Ret r [] (Some ErrJson)
  | Some rv =>
      if rv_Term rv <? Term r then
        let '(out, err) := sendReplyVote E r (SentFrom msg) false in Ret r out err
      else
      let r :=
        if Term r <? rv_Term rv
        then set_VotedFor "" (set_Role Follower (set_Term (rv_Term rv) r)) else r in
      if bool_decide (Role r = Candidate) && (rv_Term rv =? Term r)
         && negb (bool_decide (SentFrom msg = GetHostId r)) then
        let r := set_Role Follower r in
        let '(out, err) := sendReplyVote E r (SentFrom msg) false in Ret r out err
      else if negb (bool_decide (VotedFor r = "")) && negb (bool_decide (VotedFor r = SentFrom msg))
      then
        let '(out, err) := sendReplyVote E r (SentFrom msg) false in Ret r out err
      else
        let r := set_VotedFor (SentFrom msg) r in
        let r := startElectionTimer E r in
        let '(out, err) := sendReplyVote E r (SentFrom msg) true in Ret r out err
  end.

Definition handleReplyVote (E : Env) (r : Raft) (msg : Message) : hres :=
  if negb (bool_decide (Role r = Candidate)) then Ret r [] None else
  match json_Unmarshal (T := ReplyRequestVoteMessage) (Data msg) with
  | None => Ret r [] (Some ErrJson)
  | Some reply =>
      if negb (bool_decide (rp_LeaderID reply = GetHostId r)) then Ret r [] None else
      if rp_VoteGranted reply && bool_decide (rp_LeaderID reply = GetHostId r)
         && bool_decide (Role r = Candidate) then
        let r := set_VotesReceived (wrap64 (VotesReceived r + 1)) r in
        if Z.quot (SubscribersCount E + 1) 2 <=? VotesReceived r
        then becomeLeader r else Ret r [] None
      else Ret r [] None
  end.

Definition startElection (E : Env) (r : Raft) : hres :=
  if MissedHeartbeats r <? MaxMissedHeartbeats then
    let r := set_MissedHeartbeats (wrap64 (MissedHeartbeats r + 1)) r in
    Ret (startElectionTimer E r) [] None
  else if negb (IsZero (LastElectionTime r))
          && (time_Sub (e_now E) (LastElectionTime r) <? CooldownPeriod r) then
    Ret (startElectionTimer E r) [] None
  else
    let r := set_Term (wrap64 (Term r + 1)) r in
    let r := set_VotesReceived 0 r in
    let r := set_Role Candidate r in
    let r := set_VotedFor (GetHostId r) r in
    let r := set_MissedHeartbeats 0 r in
    let r := set_LastElectionTime (e_now E) r in
    let r := startElectionTimer E r in
    let '(out, _) := sendRequestVote E r in
    Ret r out None.

(** [handleMessage] hands the messages it does not know to the callback of the
    application, whose state is [S] and whose effects are [F]. *)
Section dispatch.
Context {S F : Type}
  (HandleCustomMessage : Env -> Raft -> S -> Message -> S * list F * option error).

Definition handleMessage (E : Env) (r : Raft) (s : S) (msg : Message) : hres * S * list F :=
  if bool_decide (Type_ msg = Heartbeat) then (handleHeartbeat E r msg, s, [])
  else if bool_decide (Type_ msg = RequestVote) then (handleRequestVote E r msg, s, [])
  else if bool_decide (Type_ msg = ReplyVote) then (handleReplyVote E r msg, s, [])
  else let '(s, out, err) := HandleCustomMessage E r s msg in (Ret r [] err, s, out).
End dispatch.

(** ** What the helpers leave alone *)
Create Rewrite HintDb raft.
Arguments startElectionTimer : simpl never.

Lemma HostID_startElectionTimer E r : HostID (startElectionTimer E r) = HostID r.
Proof. unfold startElectionTimer. by destruct (ElectionTimer r). Qed.
Lemma Role_startElectionTimer E r : Role (startElectionTimer E r) = Role r.
Proof. unfold startElectionTimer. by destruct (ElectionTimer r). Qed.
Lemma VotedFor_startElectionTimer E r : VotedFor (startElectionTimer E r) = VotedFor r.
Proof. unfold startElectionTimer. by destruct (ElectionTimer r). Qed.
Lemma LeaderID_startElectionTimer E r : LeaderID (startElectionTimer E r) = LeaderID r.
Proof. unfold startElectionTimer. by destruct (ElectionTimer r). Qed.
Lemma VotesReceived_startElectionTimer E r : VotesReceived (startElectionTimer E r) = VotesReceived r.
Proof. unfold startElectionTimer. by destruct (ElectionTimer r). Qed.
Lemma Term_startElectionTimer E r : Term (startElectionTimer E r) = Term r.
Proof. unfold startElectionTimer. by destruct (ElectionTimer r). Qed.
Lemma Resign_startElectionTimer E r : Resign (startElectionTimer E r) = Resign r.
Proof. unfold startElectionTimer. by destruct (ElectionTimer r). Qed.
Lemma Closed_startElectionTimer E r : Closed (startElectionTimer E r) = Closed r.
Proof. unfold startElectionTimer. by destruct (ElectionTimer r). Qed.
Lemma NextChan_startElectionTimer E r : NextChan (startElectionTimer E r) = NextChan r.
Proof. unfold startElectionTimer. by destruct (ElectionTimer r). Qed.
Lemma MissedHeartbeats_startElectionTimer E r : MissedHeartbeats (startElectionTimer E r) = MissedHeartbeats r.
Proof. unfold startElectionTimer. by destruct (ElectionTimer r). Qed.
Lemma LastElectionTime_startElectionTimer E r : LastElectionTime (startElectionTimer E r) = LastElectionTime r.
Proof. unfold startElectionTimer. by destruct (ElectionTimer r). Qed.
Lemma HostID_ResignLeader E r : HostID (ResignLeader E r) = HostID r.
Proof. unfold ResignLeader. destruct (Resign r); [by rewrite HostID_startElectionTimer|done]. Qed.
Lemma VotedFor_ResignLeader E r : VotedFor (ResignLeader E r) = VotedFor r.
Proof. unfold ResignLeader. destruct (Resign r); [by rewrite VotedFor_startElectionTimer|done]. Qed.
Lemma VotesReceived_ResignLeader E r : VotesReceived (ResignLeader E r) = VotesReceived r.
Proof. unfold ResignLeader. destruct (Resign r); [by rewrite VotesReceived_startElectionTimer|done]. Qed.
Lemma Term_ResignLeader E r : Term (ResignLeader E r) = Term r.
Proof. unfold ResignLeader. destruct (Resign r); [by rewrite Term_startElectionTimer|done]. Qed.
Lemma NextChan_ResignLeader E r : NextChan (ResignLeader E r) = NextChan r.
Proof. unfold ResignLeader. destruct (Resign r); [by rewrite NextChan_startElectionTimer|done]. Qed.
Lemma MissedHeartbeats_ResignLeader E r : MissedHeartbeats (ResignLeader E r) = MissedHeartbeats r.
Proof. unfold ResignLeader. destruct (Resign r); [by rewrite MissedHeartbeats_startElectionTimer|done]. Qed.
#[export] Hint Rewrite HostID_startElectionTimer Role_startElectionTimer VotedFor_startElectionTimer LeaderID_startElectionTimer VotesReceived_startElectionTimer Term_startElectionTimer Resign_startElectionTimer Closed_startElectionTimer NextChan_startElectionTimer MissedHeartbeats_startElectionTimer LastElectionTime_startElectionTimer HostID_ResignLeader VotedFor_ResignLeader VotesReceived_ResignLeader Term_ResignLeader NextChan_ResignLeader MissedHeartbeats_ResignLeader : raft.

Lemma ElectionTimer_startElectionTimer E r :
  ElectionTimer (startElectionTimer E r) = TimerActive (getRandomElectionTimeout E r).
Proof. unfold startElectionTimer. by destruct (ElectionTimer r). Qed.
#[export] Hint Rewrite ElectionTimer_startElectionTimer : raft.

(** Evaluate record fields, and nothing else. *)
Ltac raft_cbn_in H :=
  cbn [HostID Role VotedFor LeaderID VotesReceived Term
    HeartbeatTicker ElectionTimer Resign Closed NextChan HeartbeatTimeout
    LeaderJobTimeout LeaderJobTicker MissedHeartbeats CooldownPeriod LastElectionTime set_Role
    set_VotedFor set_LeaderID set_VotesReceived set_Term set_HeartbeatTicker set_ElectionTimer
    set_Resign set_Closed set_NextChan set_LeaderJobTicker set_MissedHeartbeats set_LastElectionTime
    GetHostId] in H.
Ltac raft_simpl :=
  repeat (progress (autorewrite with raft;
    cbn [HostID Role VotedFor LeaderID VotesReceived Term
    HeartbeatTicker ElectionTimer Resign Closed NextChan HeartbeatTimeout
    LeaderJobTimeout LeaderJobTicker MissedHeartbeats CooldownPeriod LastElectionTime set_Role
    set_VotedFor set_LeaderID set_VotesReceived set_Term set_HeartbeatTicker set_ElectionTimer
    set_Resign set_Closed set_NextChan set_LeaderJobTicker set_MissedHeartbeats set_LastElectionTime
    GetHostId])).

(** A test on a known role decides itself. *)
Lemma role_eq (a : RoleType) : bool_decide (a = a) = true.
Proof. by apply bool_decide_true. Qed.
Lemma Leader_Follower : bool_decide (Leader = Follower) = false.
Proof. done. Qed.
Lemma Leader_Candidate : bool_decide (Leader = Candidate) = false.
Proof. done. Qed.
Lemma Candidate_Leader : bool_decide (Candidate = Leader) = false.
Proof. done. Qed.
Lemma Candidate_Follower : bool_decide (Candidate = Follower) = false.
Proof. done. Qed.
Lemma Follower_Leader : bool_decide (Follower = Leader) = false.
Proof. done. Qed.
Lemma Follower_Candidate : bool_decide (Follower = Candidate) = false.
Proof. done. Qed.
#[export] Hint Rewrite role_eq Leader_Follower Leader_Candidate Candidate_Leader
  Candidate_Follower Follower_Leader Follower_Candidate : raft.

End Raft.
