(* ===== verification/Election.v ===== *)
(** * Elections: runs of one node under any messages, and of a cluster

    [Node] runs the handlers of [Raft] in any order on any messages, so its
    theorems hold whatever the other peers and the network do.  [Cluster] runs
    several nodes that deliver each other's published messages. *)

From S2P Require Import Prelude Errors Wire Raft.
Import Raft.

Local Open Scope Z_scope.

Module Node.

(** The handler of the message's type; other messages go to the application
    and leave the election state alone. *)
Definition receive (E : Env) (r : Raft) (msg : Message) : hres :=
  fst (fst (handleMessage (S := unit) (F := Empty_set) (fun _ _ s _ => (s, [], None)) E r tt msg)).

(** A term is a Go [int]: a message with a number that does not fit has [JBad] in
    its place. *)
Definition int_term (raw : RawMessage) : Prop :=
  match raw with Some d => match j_term d with JVal t => in_int64 t | _ => True end | None => True end.

(** One step of a node: the election timer expires, the loop of [Run] takes
    the tick and calls [startElection], or a message is handled. *)
Inductive step : Raft -> list effect -> Raft -> Prop :=
| step_expire r d :
    ElectionTimer r = TimerActive d -> step r [] (set_ElectionTimer TimerFired r)
| step_tick E r r' out err :
    ElectionTimer r = TimerFired ->
    startElection E (set_ElectionTimer TimerStopped r) = Ret r' out err ->
    step r out r'
| step_receive E r msg r' out err :
    int_term (Data msg) -> receive E r msg = Ret r' out err -> step r out r'.

(** [Run] starts the timer of a new node. *)
Definition start (host : string) (leaderJobTimeout : Duration) (E : Env) : Raft :=
  startElectionTimer E (NewRaftNode host leaderJobTimeout).

(** The vote a published message grants, in the term the node then has. *)
Definition vote_in (t : Z) (e : effect) : list (Z * string) :=
  match e with
  | Publish m =>
      if bool_decide (Type_ m = ReplyVote) then
        match json_Unmarshal (T := ReplyRequestVoteMessage) (Data m) with
        | Some reply => if rp_VoteGranted reply then [(t, rp_LeaderID reply)] else []
        | None => []
        end
      else []
  | SpawnLeaderLoop => []
  end.
Definition votes (r : Raft) (out : list effect) : list (Z * string) :=
  out ≫= vote_in (Term r).

(** The history of a run: how often the term has fallen, which is when [Term++]
    wraps around, and the votes granted, each with that count and its term. *)
Definition log : Type := nat * list (nat * Z * string).
Definition note (r : Raft) (out : list effect) (r' : Raft) (g : log) : log :=
  let wraps := if Term r' <? Term r then S g.1 else g.1 in
  (wraps, ((fun tc => (wraps, tc.1, tc.2)) <$> votes r' out) ++ g.2).

Inductive run : Raft -> log -> Prop :=
| run_start host jt E : run (start host jt E) (0%nat, [])
| run_step r g r' out : run r g -> step r out r' -> run r' (note r out r' g).

Lemma note_expiry r g : note r [] (set_ElectionTimer TimerFired r) g = g.
Proof. unfold note. simpl. rewrite Z.ltb_irrefl. by destruct g. Qed.

(** ** What one step can do to term, vote, role and channel *)
Record step_spec (r : Raft) (out : list effect) (r' : Raft) : Prop := {
  ss_host : HostID r' = HostID r;
  ss_int : in_int64 (Term r');
  ss_term : Term r <= Term r' \/ Term r = max_int64 /\ Term r' = min_int64;
  ss_voted : Term r' = Term r -> VotedFor r <> "" -> VotedFor r' = VotedFor r;
  ss_votes : forall t c, (t, c) ∈ votes r' out -> t = Term r' /\ VotedFor r' = c;
  ss_timer : ElectionTimer r' <> TimerNil;
  ss_leader : Role r' = Leader ->
    LeaderID r' = HostID r' /\
    (Role r = Leader /\ Resign r' = Resign r /\ Closed r' = Closed r
     \/ Resign r' = Some (NextChan r) /\ Closed r' = Closed r);
  ss_chan : (NextChan r <= NextChan r')%nat /\
    (forall c, c ∈ Closed r' -> c ∈ Closed r \/ Resign r = Some c) /\
    (forall c, Resign r' = Some c -> Resign r = Some c /\ Closed r' = Closed r
                                  \/ c = NextChan r /\ NextChan r' = S (NextChan r))
}.

(** The invariant of a node: the term is an [int], the timer exists, and a
    leader names itself and holds an open resignation channel. *)
Record wf (r : Raft) : Prop := {
  wf_term : in_int64 (Term r);
  wf_timer : ElectionTimer r <> TimerNil;
  wf_leader : Role r = Leader -> LeaderID r = HostID r /\ is_Some (Resign r);
  wf_open : forall c, Resign r = Some c -> c ∉ Closed r;
  wf_fresh : forall c, c ∈ Closed r \/ Resign r = Some c -> (c < NextChan r)%nat
}.

Lemma votes_nil r : votes r [] = [].
Proof. done. Qed.

Lemma votes_spawn r : votes r [SpawnLeaderLoop] = [].
Proof. done. Qed.

Lemma timer_Stop_Some t t' : timer_Stop t = Some t' -> t' <> TimerNil.
Proof. destruct t; intros; by simplify_eq/=. Qed.

(** [Term++] is the next term, or wraps around. *)
Lemma term_succ t : in_int64 t ->
  in_int64 (wrap64 (t + 1)) /\ wrap64 (t + 1) <> t /\
  (t <= wrap64 (t + 1) \/ t = max_int64 /\ wrap64 (t + 1) = min_int64).
Proof.
  intros Ht. split; [apply wrap64_in|]. destruct (decide (t = max_int64)) as [->|Hne]; [split; [done|by right]|].
  rewrite wrap64_id by int_lia. split; [lia|]. left. lia.
Qed.

Lemma heartbeat_int raw hb : int_term raw -> json_Unmarshal (T := HeartbeatMessage) raw = Some hb -> in_int64 (hb_Term hb).
Proof.
  destruct raw as [d|]; [|done]. unfold json_Unmarshal. simpl. intros Hi Hu.
  apply bind_Some in Hu as (l & _ & Hu). apply bind_Some in Hu as (t & Ht & Hu). injection Hu as <-. simpl.
  destruct (j_term d); simplify_eq/=; [int_lia|done].
Qed.
Lemma request_int raw rv : int_term raw -> json_Unmarshal (T := RequestVoteMessage) raw = Some rv -> in_int64 (rv_Term rv).
Proof.
  destruct raw as [d|]; [|done]. unfold json_Unmarshal. simpl. intros Hi Hu.
  apply bind_Some in Hu as (t & Ht & Hu). injection Hu as <-. simpl. destruct (j_term d); simplify_eq/=; [int_lia|done].
Qed.

Lemma votes_reply E r r0 to g out err :
  sendReplyVote E r0 to g = (out, err) ->
  forall t c, (t, c) ∈ votes r out -> t = Term r /\ c = to /\ g = true.
Proof.
  unfold sendReplyVote, PublishMessage. intros H t c Hin.
  destruct (e_publish E); simplify_eq; [by apply not_elem_of_nil in Hin|].
  unfold votes in Hin. simpl in Hin.
  destruct g; simpl in Hin; [|by apply not_elem_of_nil in Hin].
  apply list_elem_of_singleton in Hin. by simplify_eq.
Qed.

Lemma votes_request E r r0 out err :
  sendRequestVote E r0 = (out, err) -> votes r out = [].
Proof.
  unfold sendRequestVote, PublishMessage. destruct (e_publish E); intros; by simplify_eq.
Qed.

(** Open the invariant [H] of a state and split on its role and channel. *)
Ltac destruct_wf H :=
  destruct H as [? ? Hl ? ?];
  match type of Hl with
  | Role ?r = _ -> _ =>
      destruct (Role r) eqn:?, (Resign r) eqn:?;
      try destruct (Hl eq_refl) as [? [? ?]]; clear Hl; simplify_eq
  end.

(** Take apart the branches of a handler call [H], outermost test first. *)
Ltac handler_step H :=
  match type of H with
  | (match ?x with _ => _ end) = _ =>
      match x with
      | context [if ?b then _ else _] => destruct b eqn:?
      | context [match ?o with Some _ => _ | None => _ end] => destruct o eqn:?
      | _ => destruct x eqn:?
      end
  end.
Ltac rewrite_known H :=
  raft_cbn_in H;
  repeat match goal with
  | HR : Role ?r = _ |- _ => progress (rewrite HR in H)
  | HR : Resign ?r = _ |- _ => progress (rewrite HR in H)
  end;
  autorewrite with raft in H; cbn [negb andb] in H.
Ltac handler_cases H :=
  cbv zeta in H; rewrite_known H;
  repeat (handler_step H; try discriminate H; rewrite_known H);
  first [discriminate H | injection H as <- <- <- | idtac].

(** Close the obligations of [step_spec] once a branch is evaluated. *)
Ltac spec_leaf :=
  first
  [ done | lia | congruence | by eapply timer_Stop_Some | left; lia | int_lia
  | left; split_and?; (done || congruence) | right; split_and?; (done || congruence)
  | left; left; split_and?; (done || congruence) ].
Ltac spec_tac :=
  constructor; breflect; raft_simpl; intros;
  try split_and!; intros;
  rewrite ?votes_nil, ?votes_spawn in *;
  try match goal with H : _ ∈ [] |- _ => by apply not_elem_of_nil in H end;
  try match goal with H : _ ∈ _ :: _ |- _ => apply elem_of_cons in H as [->|H] end;
  try match goal with
  | H : sendReplyVote _ _ _ _ = (?out, _), H' : _ ∈ votes _ ?out |- _ =>
      eapply votes_reply in H' as (? & ? & ?); [|exact H]
  | H : sendRequestVote _ _ = (?out, _), H' : _ ∈ votes _ ?out |- _ =>
      rewrite (votes_request _ _ _ _ _ H) in H'; by apply not_elem_of_nil in H'
  end;
  simplify_eq; raft_simpl;
  try first [spec_leaf | destruct_or?; breflect; spec_leaf].

Lemma handleHeartbeat_spec E r msg r' out err :
  wf r -> int_term (Data msg) -> handleHeartbeat E r msg = Ret r' out err -> step_spec r out r'.
Proof.
  intros Hwf Hi H. pose proof (heartbeat_int (Data msg)) as Hint. destruct_wf Hwf.
  all: unfold handleHeartbeat, ResignLeader in H; handler_cases H.
  all: try specialize (Hint _ Hi eq_refl).
  all: spec_tac.
Qed.

Lemma handleRequestVote_spec E r msg r' out err :
  wf r -> int_term (Data msg) -> handleRequestVote E r msg = Ret r' out err -> step_spec r out r'.
Proof.
  intros Hwf Hi H. pose proof (request_int (Data msg)) as Hint. destruct_wf Hwf.
  all: unfold handleRequestVote in H; handler_cases H.
  all: try specialize (Hint _ Hi eq_refl).
  all: spec_tac.
Qed.

Lemma handleReplyVote_spec E r msg r' out err :
  wf r -> handleReplyVote E r msg = Ret r' out err -> step_spec r out r'.
Proof.
  intros Hwf H. destruct (term_succ _ (wf_term _ Hwf)) as (? & ? & ?). destruct_wf Hwf.
  all: unfold handleReplyVote, becomeLeader, setLeaderState in H; handler_cases H.
  all: spec_tac.
Qed.

Lemma startElection_spec E r r' out err :
  wf r -> startElection E r = Ret r' out err -> step_spec r out r'.
Proof.
  intros Hwf H. destruct (term_succ _ (wf_term _ Hwf)) as (? & ? & ?). destruct_wf Hwf.
  all: unfold startElection in H; handler_cases H.
  all: spec_tac.
Qed.

(** ** Runs *)
Lemma wf_set_timer t r : t <> TimerNil -> wf r -> wf (set_ElectionTimer t r).
Proof. intros Ht []. by constructor. Qed.

Lemma step_spec_step r out r' :
  wf r -> step r out r' -> step_spec r out r'.
Proof.
  intros Hwf Hs. destruct Hs as [r d Ht|E r r' out err Ht H|E r msg r' out err Hi H].
  - destruct_wf Hwf. all: spec_tac.
  - apply startElection_spec in H; [|by apply wf_set_timer].
    by destruct H; constructor.
  - unfold receive, handleMessage in H.
    destruct (bool_decide _); [simpl in H; by eapply handleHeartbeat_spec|].
    destruct (bool_decide _); [simpl in H; by eapply handleRequestVote_spec|].
    destruct (bool_decide _); [simpl in H; by eapply handleReplyVote_spec|].
    simpl in H. injection H as <- <- <-. destruct_wf Hwf. all: spec_tac.
Qed.

Lemma wf_step r out r' : wf r -> step_spec r out r' -> wf r'.
Proof.
  intros [Ht _ Hl Ho Hf] [_ ? _ _ _ ? Hl' (Hn & Hc & Hr)]. constructor.
  - done.
  - done.
  - intros HL. destruct (Hl' HL) as [? [(HL0 & -> & _)|[-> _]]]; [|by eauto].
    split; [done|]. by apply Hl.
  - intros c Hcr Hin. destruct (Hr c Hcr) as [[H1 H2]|[-> _]].
    + rewrite H2 in Hin. by eapply Ho.
    + destruct (Hc _ Hin) as [H|H]; [pose proof (Hf _ (or_introl H))|pose proof (Hf _ (or_intror H))];
        lia.
  - intros c [Hin|Hcr].
    + specialize (Hf c (Hc c Hin)). lia.
    + destruct (Hr c Hcr) as [[H1 H2]|[-> ->]]; [|lia]. specialize (Hf c (or_intror H1)). lia.
Qed.

Lemma wf_start host jt E : wf (start host jt E).
Proof.
  unfold start. constructor; raft_simpl; simpl; try done.
  - intros c _. apply not_elem_of_nil.
  - intros c [H|H]; [by apply not_elem_of_nil in H|]. simplify_eq. lia.
Qed.

Lemma run_wf r g : run r g -> wf r.
Proof.
  induction 1; [apply wf_start|]. eapply wf_step; [done|]. by eapply step_spec_step.
Qed.
#[export] Hint Resolve wf_start run_wf : go.

(** What the history of votes records of the current state. *)
Definition history (r : Raft) (g : log) : Prop :=
  (forall w t c, (w, t, c) ∈ g.2 ->
     (w <= g.1)%nat /\ (w = g.1 -> t <= Term r /\ (t = Term r -> c <> "" -> VotedFor r = c))) /\
  (forall w t c1 c2, (w, t, c1) ∈ g.2 -> (w, t, c2) ∈ g.2 -> c1 <> "" -> c2 <> "" -> c1 = c2).

Lemma note_votes r out r' g w t c : step_spec r out r' -> (w, t, c) ∈ (note r out r' g).2 ->
  w = (note r out r' g).1 /\ t = Term r' /\ VotedFor r' = c \/ (w, t, c) ∈ g.2.
Proof.
  intros Hs [Hin|Hin]%elem_of_app; [left|by right]. apply list_elem_of_fmap in Hin as ([t0 c0] & Heq & Hin).
  simplify_eq/=. destruct (ss_votes _ _ _ Hs _ _ Hin) as [-> ->]. done.
Qed.

(** A vote of the past in the present term. *)
Lemma history_old r out r' g w t c :
  step_spec r out r' -> history r g -> (w, t, c) ∈ g.2 ->
  (w <= (note r out r' g).1)%nat /\
  (w = (note r out r' g).1 -> t <= Term r' /\ (t = Term r' -> c <> "" -> VotedFor r' = c)).
Proof.
  intros Hs [H1 _] Hin. destruct (H1 w t c Hin) as [Hw Hv]. unfold note. simpl.
  destruct (Z.ltb_spec (Term r') (Term r)) as [Hlt|Hge]; [split; lia|]. split; [done|]. intros Heq.
  destruct (Hv Heq) as [Hle HV]. split; [lia|]. intros Ht Hne.
  rewrite (ss_voted _ _ _ Hs); [by apply HV; [lia|]|lia|]. by rewrite HV; [|lia|].
Qed.

Lemma history_step r g out r' : step_spec r out r' -> history r g -> history r' (note r out r' g).
Proof.
  intros Hs Hh. split.
  - intros w t c Hin. destruct (note_votes _ _ _ _ _ _ _ Hs Hin) as [(-> & -> & <-)|Hold]; [done|].
    by apply history_old.
  - assert (forall w t c, (w, t, c) ∈ g.2 -> w = (note r out r' g).1 -> t = Term r' -> c <> "" -> VotedFor r' = c) as Hmix.
    { intros w t c Hin Hw Ht Hne. by apply (history_old _ _ _ _ _ _ _ Hs Hh Hin). }
    intros w t c1 c2 X1 X2 N1 N2.
    destruct (note_votes _ _ _ _ _ _ _ Hs X1) as [(-> & -> & <-)|O1], (note_votes _ _ _ _ _ _ _ Hs X2) as [(Hw & Ht & <-)|O2].
    + done.
    + by eapply Hmix.
    + subst w t. symmetry. by eapply Hmix.
    + by eapply (proj2 Hh).
Qed.

Lemma run_history r g : run r g -> history r g.
Proof.
  induction 1 as [|r g r' out Hrun IH Hs].
  - split; intros ???; [intros H|intros ? H]; by apply not_elem_of_nil in H.
  - eapply history_step; [|done]. eapply step_spec_step; [by eapply run_wf|done].
Qed.

Lemma receive_no_panic E r msg : wf r -> receive E r msg <> Panic.
Proof.
  intros Hwf H. unfold receive, handleMessage in H.
  repeat case_bool_decide; simpl in H.
  - destruct_wf Hwf. all: unfold handleHeartbeat, ResignLeader in H; handler_cases H.
  - destruct_wf Hwf. all: unfold handleRequestVote in H; handler_cases H.
  - destruct Hwf. unfold handleReplyVote, becomeLeader, setLeaderState in H. handler_cases H.
    destruct (ElectionTimer r); by simplify_eq/=.
  - done.
Qed.

(** ** Theorems *)

(** C2: in any run of a node - any messages in any order, forged and repeated
    ones included, any clock and any publish failures - all the votes for named
    candidates that it grants in one term go to one candidate, as long as the
    term has not wrapped around between them: votes with the same number of wraps
    before them and the same term name the same candidate. *)
Theorem raft_one_vote_per_term r g w t c1 c2 :
  run r g -> (w, t, c1) ∈ g.2 -> (w, t, c2) ∈ g.2 -> c1 <> "" -> c2 <> "" -> c1 = c2.
Proof. intros H. apply (proj2 (run_history _ _ H)). Qed.


(** *** Runs on given inputs *)
Inductive input : Type := Expiry | TickAt (E : Env) | Receive (E : Env) (msg : Message).

Definition drive1 (rg : Raft * log) (i : input) : option (Raft * log) :=
  let '(r, g) := rg in
  match i with
  | Expiry =>
      match ElectionTimer r with
      | TimerActive _ => let r' := set_ElectionTimer TimerFired r in Some (r', note r [] r' g)
      | _ => None
      end
  | TickAt E =>
      match ElectionTimer r, startElection E (set_ElectionTimer TimerStopped r) with
      | TimerFired, Ret r' out _ => Some (r', note r out r' g)
      | _, _ => None
      end
  | Receive E msg => match receive E r msg with Ret r' out _ => Some (r', note r out r' g) | Panic => None end
  end.
Fixpoint drive (rg : Raft * log) (ins : list input) : option (Raft * log) :=
  match ins with [] => Some rg | i :: ins => rg' ← drive1 rg i; drive rg' ins end.

Definition int_input (i : input) : Prop := match i with Receive _ msg => int_term (Data msg) | _ => True end.

Lemma drive_run ins : forall r g r' g', run r g -> Forall int_input ins -> drive (r, g) ins = Some (r', g') -> run r' g'.
Proof.
  induction ins as [|i ins IH]; intros r g r' g' Hrun Hi Hd; [by injection Hd as <- <-|].
  apply Forall_cons in Hi as [Hi His]. apply bind_Some in Hd as ([r1 g1] & H1 & Hd). eapply IH; [|done|done].
  destruct i as [|E|E msg]; unfold drive1 in H1; simpl in Hi.
  - destruct (ElectionTimer r) eqn:Ht; simplify_eq. eapply run_step; [done|by eapply step_expire].
  - destruct (ElectionTimer r) eqn:Ht; simplify_eq.
    destruct (startElection E _) as [|r2 out err] eqn:He; simplify_eq. eapply run_step; [done|by eapply step_tick].
  - destruct (receive E r msg) as [|r2 out err] eqn:He; simplify_eq. eapply run_step; [done|by eapply step_receive].
Qed.

Definition w_env : Env := mkEnv 0 0 2 None.
Definition w_request (from : string) (t : Z) : input :=
  Receive w_env (mkMessage RequestVote from (json_Marshal (mkRequestVote t)) 0).
Definition w_timeouts : list input := [Expiry; TickAt w_env; Expiry; TickAt w_env; Expiry; TickAt w_env].

Lemma w_inputs ins : forallb (fun i => match i with Receive _ m =>
    match Data m with Some d => match j_term d with JVal t => bool_decide (min_int64 <= t <= max_int64) | _ => true end
    | None => true end | _ => true end) ins = true -> Forall int_input ins.
Proof.
  intros H. apply Forall_forall. intros i Hi. rewrite forallb_forall in H. specialize (H i (proj1 (list_elem_of_In _ _) Hi)).
  destruct i as [| |E m]; [done|done|]. simpl in *. unfold int_term. destruct (Data m) as [d|]; [|done].
  destruct (j_term d); [done|done|]. by apply bool_decide_eq_true in H.
Qed.

(** The bound on the wraps is needed: one forged request with the largest term
    makes the next election wrap the term around, and the node then votes a second
    time in a term it has voted in. *)
Theorem votes_again_after_wrap :
  exists r g, run r g /\ (0%nat, 1, "x") ∈ g.2 /\ (1%nat, 1, "y") ∈ g.2.
Proof.
  set (ins := [w_request "x" 1; w_request "x" max_int64] ++ w_timeouts ++ [w_request "y" 1]).
  destruct (drive (start "n" second w_env, (0%nat, [])) ins) as [[r g]|] eqn:Hd; [|by vm_compute in Hd].
  exists r, g. split; [eapply drive_run; [apply run_start| |exact Hd]; apply w_inputs; by vm_compute|].
  vm_compute in Hd. injection Hd as <- <-. split; apply (bool_decide_eq_true_1 (_ ∈ _)); by vm_compute.
Qed.

(** So are the names: a node that has voted for an empty name has not voted. *)
Theorem votes_again_after_empty_name :
  exists r g, run r g /\ (0%nat, 1, "") ∈ g.2 /\ (0%nat, 1, "y") ∈ g.2.
Proof.
  set (ins := [w_request "" 1; w_request "y" 1]).
  destruct (drive (start "n" second w_env, (0%nat, [])) ins) as [[r g]|] eqn:Hd; [|by vm_compute in Hd].
  exists r, g. split; [eapply drive_run; [apply run_start| |exact Hd]; apply w_inputs; by vm_compute|].
  vm_compute in Hd. injection Hd as <- <-. split; apply (bool_decide_eq_true_1 (_ ∈ _)); by vm_compute.
Qed.

(** Witnesses: a node that grants two votes in term 1 and one in term 3. *)
Definition w_votes : list input := [w_request "x" 1; w_request "x" 1; w_request "y" 3].
Definition w_end : Raft * log := default (start "n" second w_env, (0%nat, [])) (drive (start "n" second w_env, (0%nat, [])) w_votes).

Lemma w_run : run w_end.1 w_end.2.
Proof.
  eapply (drive_run w_votes); [apply (run_start "n" second w_env)|apply w_inputs; by vm_compute|by vm_compute].
Qed.

Lemma raft_one_vote_per_term_witness :
  w_end.2 = (0%nat, [(0%nat, 3, "y"); (0%nat, 1, "x"); (0%nat, 1, "x")]) /\
  forall c, (0%nat, 1, c) ∈ w_end.2.2 -> c <> "" -> c = "x".
Proof.
  split; [by vm_compute|]. intros c Hc Hne.
  apply (raft_one_vote_per_term w_end.1 w_end.2 0 1 c "x" w_run); [done| |done|done].
  apply (bool_decide_eq_true_1 (_ ∈ _)). by vm_compute.
Defined.

End Node.

(** ** A cluster whose nodes deliver each other's messages *)
Module Cluster.
Import Node.

Record sys : Type := mkSys { nodes : gmap string Raft; sent : list Message }.

Inductive event : Type :=
| Expire (n : string)
| Tick (n : string) (E : Env)
| Deliver (n : string) (k : nat) (E : Env).

Definition published (out : list effect) : list Message :=
  omap (fun e => match e with Publish m => Some m | SpawnLeaderLoop => None end) out.

(** Install the result of a handler on node [n]. *)
Definition commit (s : sys) (n : string) (h : hres) : option sys :=
  match h with
  | Panic => None
  | Ret r out _ => Some (mkSys (<[n := r]> (nodes s)) (sent s ++ published out))
  end.

(** [Deliver n k E]: node [n] receives the [k]-th message sent so far. *)
Definition exec1 (s : sys) (e : event) : option sys :=
  match e with
  | Expire n =>
      r ← nodes s !! n;
      match ElectionTimer r with
      | TimerActive _ => commit s n (Ret (set_ElectionTimer TimerFired r) [] None)
      | _ => None
      end
  | Tick n E =>
      r ← nodes s !! n;
      match ElectionTimer r with
      | TimerFired => commit s n (startElection E (set_ElectionTimer TimerStopped r))
      | _ => None
      end
  | Deliver n k E =>
      r ← nodes s !! n; msg ← sent s !! k; commit s n (receive E r msg)
  end.

Fixpoint exec (s : sys) (es : list event) : option sys :=
  match es with [] => Some s | e :: es => s' ← exec1 s e; exec s' es end.

(** The cluster's steps are steps of its nodes. *)
Lemma exec1_step s e s' n r r' :
  Forall (fun m => int_term (Data m)) (sent s) ->
  exec1 s e = Some s' -> nodes s !! n = Some r -> nodes s' !! n = Some r' ->
  r' = r \/ exists out, step r out r'.
Proof.
  intros Hsent H Hr Hr'.
  assert (forall m h, commit s m h = Some s' ->
    (m <> n /\ r' = r) \/ exists out err, m = n /\ h = Ret r' out err) as Hcommit.
  { intros m [|r2 out err] Hc; simplify_eq/=. destruct (decide (m = n)) as [->|Hne].
    - rewrite lookup_insert_eq in Hr'. simplify_eq. right. eauto.
    - rewrite lookup_insert_ne in Hr' by done. left. split; [done|congruence]. }
  destruct e as [m|m E|m k E]; cbn [exec1] in H;
    apply bind_Some in H as (q & Hq & H).
  - destruct (ElectionTimer q) eqn:Ht; try discriminate H. apply Hcommit in H as [[_ ->]|H]; [by left|].
    destruct H as (out & err & -> & ?). simplify_eq. right. eexists. by eapply step_expire.
  - destruct (ElectionTimer q) eqn:Ht; try discriminate H. apply Hcommit in H as [[_ ->]|H]; [by left|].
    destruct H as (out & err & -> & ?). simplify_eq. right. eexists. by eapply step_tick.
  - apply bind_Some in H as (msg & Hm & H). apply Hcommit in H as [[_ ->]|H]; [by left|].
    destruct H as (out & err & -> & ?). simplify_eq. right. eexists. eapply step_receive; [|done].
    rewrite Forall_lookup in Hsent. by eapply Hsent.
Qed.

(** A run of three nodes, [a], [b] and [c], on a reliable network. *)
Definition env3 (now : Time) : Env := mkEnv 0 now 2 None.
Definition init3 : sys :=
  mkSys (list_to_map ((fun n => (n, start n second (env3 0))) <$> ["a"; "b"; "c"])) [].

(** Three expiries of the timer start an election; the candidate then hears
    its own request and its own reply. *)
Definition campaign (n : string) : list event :=
  [Expire n; Tick n (env3 second); Expire n; Tick n (env3 (2 * second)); Expire n;
   Tick n (env3 (3 * second))].
Definition two_leaders : list event :=
  campaign "a" ++ campaign "b" ++
  [Deliver "a" 0 (env3 (3 * second)); Deliver "b" 1 (env3 (3 * second));
   Deliver "a" 2 (env3 (3 * second)); Deliver "b" 3 (env3 (3 * second))].

Definition leads_in (s : sys) (n : string) (t : Z) : bool :=
  match nodes s !! n with
  | Some r => bool_decide (Role r = Leader) && (Term r =? t)
  | None => false
  end.

(** ** Leaders of one term hearing each other *)
Definition heartbeat_of (r : Raft) (ts : Time) : Message :=
  mkMessage Heartbeat (GetHostId r) (json_Marshal (mkHeartbeat (GetHostId r) (Term r))) ts.

Definition hear (r : Raft) (em : Env * Message) : Raft :=
  match receive em.1 r em.2 with Ret r' _ _ => r' | Panic => r end.
Definition hear_all (r : Raft) (inbox : list (Env * Message)) : Raft := foldl hear r inbox.

Lemma sendHeartbeat_heartbeat_of E r :
  e_publish E = None -> sendHeartbeat E r = ([Publish (heartbeat_of r (e_now E))], None).
Proof. intros H. unfold sendHeartbeat, PublishMessage. by rewrite H. Qed.

(** A leader that hears another leader of its term. *)
Lemma leader_hears E r q ts :
  wf r -> Role r = Leader -> Term q = Term r -> HostID q <> HostID r ->
  let r' := hear r (E, heartbeat_of q ts) in
  HostID r' = HostID r /\ Term r' = Term r /\ wf r' /\
  Role r' = if str_ltb (HostID r) (HostID q) then Follower else Leader.
Proof.
  intros Hwf HR HT Hne. destruct (wf_leader _ Hwf HR) as [_ [c Hc]].
  assert (exists r1, receive E r (heartbeat_of q ts) = Ret r1 [] None /\
    HostID r1 = HostID r /\ Term r1 = Term r /\
    Role r1 = if str_ltb (HostID r) (HostID q) then Follower else Leader) as (r1 & E1 & ? & ? & ?).
  { unfold receive, handleMessage, heartbeat_of, handleHeartbeat, GetHostId. cbn [Type_ SentFrom Data].
    rewrite bool_decide_true by done. cbn [fst]. rewrite bool_decide_false by done.
    rewrite json_roundtrip. cbn [hb_LeaderID hb_Term negb]. rewrite bool_decide_true by done.
    cbn [negb]. raft_simpl. rewrite HR. raft_simpl.
    rewrite HT, Z.ltb_irrefl, Z.eqb_refl.
    destruct (str_ltb (HostID r) (HostID q)); eexists; (split; [reflexivity|]).
    - unfold ResignLeader. raft_simpl. rewrite Hc. by raft_simpl.
    - by raft_simpl. }
  simpl. unfold hear. cbn [fst snd]. rewrite E1. split_and!; [done..| |done].
  eapply wf_step; [done|]. eapply step_spec_step; [done|]. eapply step_receive; [|done].
  pose proof (wf_term _ Hwf). simpl. by rewrite HT.
Qed.

(** A follower that hears a leader of its term stays a follower. *)
Lemma follower_hears E r q ts :
  Role r = Follower -> Term q = Term r ->
  let r' := hear r (E, heartbeat_of q ts) in
  HostID r' = HostID r /\ Term r' = Term r /\ Role r' = Follower.
Proof.
  intros HR HT. simpl. unfold hear, receive, handleMessage, heartbeat_of, handleHeartbeat, GetHostId.
  cbn [Type_ SentFrom Data fst snd]. rewrite bool_decide_true by done. cbn [fst].
  destruct (bool_decide (HostID q = HostID r)); [done|].
  rewrite json_roundtrip. cbn [hb_LeaderID hb_Term negb]. rewrite bool_decide_true by done.
  cbn [negb]. raft_simpl. rewrite HR. raft_simpl. rewrite HT, Z.ltb_irrefl, Z.eqb_refl.
  by raft_simpl.
Qed.

(** The inbox holds heartbeats of other leaders of term [t]. *)
Definition same_term_inbox (t : Z) (me : string) (l : list (Env * Message)) : Prop :=
  Forall (fun em => exists q ts, Term q = t /\ HostID q <> me /\ em.2 = heartbeat_of q ts) l.

Lemma hear_all_follower t l : forall r,
  Role r = Follower -> Term r = t -> same_term_inbox t (HostID r) l ->
  Role (hear_all r l) = Follower.
Proof.
  induction l as [|[E m] l IH]; intros r HR HT Hl; [done|].
  apply Forall_cons in Hl as [(q & ts & Hq & Hne & Hm) Hl]. simpl in Hm. subst m.
  destruct (follower_hears E r q ts HR ltac:(congruence)) as (Hh & Ht & Hr).
  simpl. apply IH; [done|congruence|]. by rewrite Hh.
Qed.

Lemma hear_all_leader t l : forall r,
  wf r -> Role r = Leader -> Term r = t -> same_term_inbox t (HostID r) l ->
  Role (hear_all r l) =
    if bool_decide (Forall (fun em => str_ltb (HostID r) (SentFrom em.2) = false) l)
    then Leader else Follower.
Proof.
  induction l as [|[E m] l IH]; intros r Hwf HR HT Hl; [done|].
  apply Forall_cons in Hl as [(q & ts & Hq & Hne & Hm) Hl]. simpl in Hm. subst m.
  destruct (leader_hears E r q ts Hwf HR ltac:(congruence) Hne) as (Hh & Ht & Hwf' & Hr).
  cbn [hear_all foldl] in *. set (r' := hear r (E, heartbeat_of q ts)) in *.
  destruct (str_ltb (HostID r) (HostID q)) eqn:Hlt.
  - rewrite bool_decide_false.
    + apply (hear_all_follower t); [done|congruence|by rewrite Hh].
    + intros [Hf _]%Forall_cons. simpl in Hf. unfold GetHostId in Hf. congruence.
  - fold (hear_all r' l). rewrite IH; [|done|done|congruence|by rewrite Hh].
    rewrite Hh. case_bool_decide as H1; case_bool_decide as H2; try done.
    + exfalso. apply H2. by constructor.
    + apply Forall_cons in H2 as [_ H2]. done.
Qed.

(** ** Theorems *)

(** Three nodes on a reliable network can reach two leaders of the same
    term, each elected by its own vote alone and without [c] taking any step:
    the quorum [(SubscribersCount+1)/2] is below a majority. *)
Theorem raft_two_leaders_one_term :
  exists s, exec init3 two_leaders = Some s /\
    leads_in s "a" 2 = true /\ leads_in s "b" 2 = true /\
    nodes s !! "c" = nodes init3 !! "c".
Proof.
  destruct (exec init3 two_leaders) as [s|] eqn:Hs; [|by vm_compute in Hs].
  exists s. split; [done|]. vm_compute in Hs. simplify_eq. vm_compute. done.
Qed.

(** C6: however many leaders a term has, once each has heard the heartbeats of
    all the others (any number of times, in any order) exactly one is left: the
    one with the greatest host id. *)
Theorem raft_leaders_converge (rs : list Raft) (t : Z) (inbox : Raft -> list (Env * Message)) :
  rs <> [] ->
  (forall r, r ∈ rs -> wf r /\ Role r = Leader /\ Term r = t) ->
  (forall r q, r ∈ rs -> q ∈ rs -> HostID r = HostID q -> r = q) ->
  (forall r E m, r ∈ rs -> (E, m) ∈ inbox r ->
     exists q ts, q ∈ rs /\ q <> r /\ m = heartbeat_of q ts) ->
  (forall r q, r ∈ rs -> q ∈ rs -> q <> r -> exists E ts, (E, heartbeat_of q ts) ∈ inbox r) ->
  exists r0, r0 ∈ rs /\ (forall r, r ∈ rs -> String.le (HostID r) (HostID r0)) /\
    Role (hear_all r0 (inbox r0)) = Leader /\
    forall r, r ∈ rs -> r <> r0 -> Role (hear_all r (inbox r)) = Follower.
Proof.
  intros Hne Hrs Hinj Hin Hall.
  destruct (list_max_exists String.le (HostID <$> rs)) as (h & Hh & Hmax).
  { by intros ?%fmap_nil_inv. }
  apply list_elem_of_fmap in Hh as (r0 & -> & Hr0).
  assert (forall r, r ∈ rs -> String.le (HostID r) (HostID r0)) as Hle.
  { intros r Hr. apply Hmax. by apply list_elem_of_fmap_2. }
  assert (forall r, r ∈ rs -> same_term_inbox t (HostID r) (inbox r)) as Hbox.
  { intros r Hr. apply Forall_forall. intros [E m] Hm. destruct (Hin r E m Hr Hm) as (q & ts & ? & ? & ->).
    exists q, ts. split_and!; [by apply Hrs| |done]. intros Heq. by apply Hinj in Heq. }
  exists r0. split_and!; [done|done| |].
  - destruct (Hrs r0 Hr0) as (? & ? & ?). erewrite hear_all_leader by eauto.
    rewrite bool_decide_true; [done|]. apply Forall_forall. intros [E m] Hm.
    destruct (Hin r0 E m Hr0 Hm) as (q & ts & ? & ? & ->). simpl. apply str_ltb_false. by apply Hle.
  - intros r Hr Hner. destruct (Hrs r Hr) as (? & ? & ?). erewrite hear_all_leader by eauto.
    rewrite bool_decide_false; [done|]. intros Hf.
    destruct (Hall r r0 Hr Hr0 ltac:(done)) as (E & ts & Hm). rewrite Forall_forall in Hf.
    specialize (Hf _ Hm). simpl in Hf. apply str_ltb_false in Hf.
    apply Hner, Hinj; [done..|]. by apply (anti_symm String.le); [apply Hle|].
Qed.
(** Two leaders of term 2, each hearing the other once. *)
Definition w_leader (h : string) : Raft :=
  match becomeLeader (set_Term 1 (set_Role Candidate (start h second w_env))) with
  | Ret r _ _ => r | Panic => start h second w_env
  end.
Definition w_inbox (r : Raft) : list (Env * Message) :=
  [(w_env, heartbeat_of (w_leader (if bool_decide (HostID r = "a") then "b" else "a")) 0)].

Lemma w_leader_wf h : wf (w_leader h).
Proof.
  split.
  - by vm_compute.
  - by vm_compute.
  - intros _. split; [by vm_compute|]. by exists 1%nat.
  - intros c Hc. vm_compute in Hc. vm_compute. apply not_elem_of_nil.
  - intros c [Hc|Hc]; vm_compute in Hc; [by apply not_elem_of_nil in Hc|]. simplify_eq. vm_compute. lia.
Qed.

Lemma raft_leaders_converge_witness :
  exists r0, r0 ∈ [w_leader "a"; w_leader "b"] /\ Role (hear_all r0 (w_inbox r0)) = Leader.
Proof.
  destruct (raft_leaders_converge [w_leader "a"; w_leader "b"] 2 w_inbox) as (r0 & H0 & _ & HL & _).
  - done.
  - intros r [->|[->|H]%elem_of_cons]%elem_of_cons; [| |by apply not_elem_of_nil in H];
      (split; [apply w_leader_wf|by vm_compute]).
  - intros r q [->|[->|H]%elem_of_cons]%elem_of_cons [->|[->|H']%elem_of_cons]%elem_of_cons Heq;
      try done; try (by apply not_elem_of_nil in H); by apply not_elem_of_nil in H'.
  - intros r E m [->|[->|H]%elem_of_cons]%elem_of_cons Hm; [| |by apply not_elem_of_nil in H];
      apply list_elem_of_singleton in Hm; simplify_eq.
    + exists (w_leader "b"), 0. split_and!; [set_solver| |done]. by vm_compute.
    + exists (w_leader "a"), 0. split_and!; [set_solver| |done]. by vm_compute.
  - intros r q [->|[->|H]%elem_of_cons]%elem_of_cons [->|[->|H']%elem_of_cons]%elem_of_cons Hne;
      try done; try (by apply not_elem_of_nil in H); try (by apply not_elem_of_nil in H');
      exists w_env, 0; by left.
  - by exists r0.
Defined.
End Cluster.
