(* ===== verification/Loops.v ===== *)
(** * The loops that feed the handlers

    [Raft.Run] and [Raft.subscribe] of [node/pkg/raft/raft.go]: the goroutine that
    reads the topic, the bounded buffer, and the loop that starts a goroutine per
    message ([RaftLoop]).  The loops of the applications over the message bus, of
    [fetcher/app.go], [aggregator/app.go] and [libp2p/helper/app.go] ([BusLoop]).
    [Election.v] runs the handlers in any order on any messages; here is which
    messages they get. *)

From S2P Require Import Prelude Errors Wire Raft Election.
Import Raft.

Local Open Scope Z_scope.

Module RaftLoop.

(** What the topic delivers: a message, or text that is not one. *)
Definition Raw : Type := option Message.
Definition unmarshalMessage (data : Raw) : res Message :=
  match data with Some m => Ok m | None => Err (External "json") end.

(** The goroutine of [subscribe]: at its [select], in [sub.Next], or sending to
    the buffer; [Closed]: it has returned. *)
Inductive Reader : Type := AtSelect | InNext | Sending (raw : Raw) | ReaderClosed.

Record Loop : Type := mkLoop {
  raft : Raft;                     (** the state the handlers share *)
  granted : Node.log;              (** the votes granted so far *)
  reader : Reader;
  buffer : list Raw;
  looping : bool;                  (** [Run] has not returned *)
  goroutines : list Raw;           (** started, not finished *)
  cancelled : bool;
  received : list Raw;             (** history: what [sub.Next] returned *)
  started : list Raw;              (** history: what goroutines were started for *)
  finished : list Raw              (** history: which of them finished, in that order *)
}.

Section loop.
(** [messageBuffer] of [NewRaftNode]. *)
Context (capacity : nat).

(** [subscribed]: whether [Topic.Subscribe] succeeded. *)
Definition start (subscribed : bool) (host : string) (jt : Duration) (E : Env) : Loop :=
  mkLoop (Node.start host jt E) (0%nat, []) (if subscribed then AtSelect else ReaderClosed) [] true [] false [] [] [].

Definition set_reader (s : Loop) (rd : Reader) : Loop :=
  mkLoop (raft s) (granted s) rd (buffer s) (looping s) (goroutines s) (cancelled s) (received s) (started s) (finished s).

Inductive step : Loop -> Loop -> Prop :=
| reader_select s :                                 (* default: *)
    reader s = AtSelect -> cancelled s = false -> step s (set_reader s InNext)
| reader_done s :                                   (* <-ctx.Done() *)
    reader s = AtSelect -> cancelled s = true -> step s (set_reader s ReaderClosed)
| reader_error s :                                  (* sub.Next fails: continue *)
    reader s = InNext -> step s (set_reader s AtSelect)
| reader_next s raw :
    reader s = InNext ->
    step s (mkLoop (raft s) (granted s) (Sending raw) (buffer s) (looping s) (goroutines s) (cancelled s)
              (received s ++ [raw]) (started s) (finished s))
| reader_sends s raw :                              (* r.MessageBuffer <- rawMsg *)
    reader s = Sending raw -> (length (buffer s) < capacity)%nat ->
    step s (mkLoop (raft s) (granted s) AtSelect (buffer s ++ [raw]) (looping s) (goroutines s) (cancelled s)
              (received s) (started s) (finished s))
| loop_takes s raw b :                              (* rawMsg := <-r.MessageBuffer: go func *)
    looping s = true -> buffer s = raw :: b ->
    step s (mkLoop (raft s) (granted s) (reader s) b true (goroutines s ++ [raw]) (cancelled s)
              (received s) (started s ++ [raw]) (finished s))
| loop_expires s d :
    ElectionTimer (raft s) = TimerActive d ->
    step s (mkLoop (set_ElectionTimer TimerFired (raft s)) (granted s) (reader s) (buffer s) (looping s)
              (goroutines s) (cancelled s) (received s) (started s) (finished s))
| loop_ticks s E r' out err :                       (* <-r.ElectionTimer.C *)
    looping s = true -> ElectionTimer (raft s) = TimerFired ->
    startElection E (set_ElectionTimer TimerStopped (raft s)) = Ret r' out err ->
    step s (mkLoop r' (Node.note (raft s) out r' (granted s)) (reader s) (buffer s) true (goroutines s) (cancelled s)
              (received s) (started s) (finished s))
| loop_returns s :
    looping s = true -> cancelled s = true ->
    step s (mkLoop (raft s) (granted s) (reader s) (buffer s) false (goroutines s) true (received s) (started s) (finished s))
| goroutine_handles s g1 raw g2 msg E r' out err :
    goroutines s = g1 ++ raw :: g2 -> unmarshalMessage raw = Ok msg -> Node.int_term (Data msg) ->
    Node.receive E (raft s) msg = Ret r' out err ->
    step s (mkLoop r' (Node.note (raft s) out r' (granted s)) (reader s) (buffer s) (looping s) (g1 ++ g2) (cancelled s)
              (received s) (started s) (finished s ++ [raw]))
| goroutine_fails s g1 raw g2 e :
    goroutines s = g1 ++ raw :: g2 -> unmarshalMessage raw = Err e ->
    step s (mkLoop (raft s) (granted s) (reader s) (buffer s) (looping s) (g1 ++ g2) (cancelled s)
              (received s) (started s) (finished s ++ [raw]))
| cancel s :
    step s (mkLoop (raft s) (granted s) (reader s) (buffer s) (looping s) (goroutines s) true
              (received s) (started s) (finished s)).

Definition reach (subscribed : bool) (s : Loop) : Prop :=
  exists host jt E, rtc step (start subscribed host jt E) s.

(** What the reader holds. *)
Definition held (rd : Reader) : list Raw := match rd with Sending raw => [raw] | _ => [] end.

Record inv (s : Loop) : Prop := {
  i_run : Node.run (raft s) (granted s);
  i_order : received s = started s ++ buffer s ++ held (reader s);
  i_started : started s ≡ₚ goroutines s ++ finished s;
  i_buffer : (length (buffer s) <= capacity)%nat
}.

Lemma raft_inv_step s s' : inv s -> step s s' -> inv s'.
Proof.
  intros [Hr Ho Hs Hb] Hst. destruct Hst; split; simpl in *; try done.
  all: try match goal with H : reader _ = _ |- _ => rewrite H in Ho; simpl in Ho end.
  all: rewrite ?app_nil_r in *; try done.
  - by rewrite Ho, <- app_assoc.
  - rewrite length_app. simpl. lia.
  - rewrite Ho. match goal with H : buffer s = _ |- _ => rewrite H end. by rewrite <- app_assoc.
  - rewrite Hs. solve_Permutation.
  - match goal with H : buffer s = _ |- _ => rewrite H in Hb end. simpl in Hb. lia.
  - rewrite <- (Node.note_expiry (raft s)). eapply Node.run_step; [done|by eapply Node.step_expire].
  - eapply Node.run_step; [done|by eapply Node.step_tick].
  - eapply Node.run_step; [done|by eapply Node.step_receive].
  - match goal with H : goroutines s = _ |- _ => rewrite H in Hs end. rewrite Hs. solve_Permutation.
  - match goal with H : goroutines s = _ |- _ => rewrite H in Hs end. rewrite Hs. solve_Permutation.
Qed.

Lemma raft_reach_inv sub s : reach sub s -> inv s.
Proof.
  intros (host & jt & E & H). revert s H. refine (rtc_ind_r _ _ _ _).
  - split; simpl; [constructor|by destruct sub|done|lia].
  - intros y z _ Hyz Hy. by eapply raft_inv_step.
Qed.

(** C8: the loop of a node neither loses, repeats nor makes up messages, and
    never holds more than its buffer: what the topic delivered is, in order, what
    goroutines were started for, then the buffer, then at most one message that
    waits for room; the goroutines finish in any order.  The handlers' states are
    those of a run of the election, so that what holds of all runs holds here. *)
Theorem raft_loop_conserves sub s :
  reach sub s ->
  received s = started s ++ buffer s ++ held (reader s) /\ started s ≡ₚ goroutines s ++ finished s /\
  (length (buffer s) <= capacity)%nat /\ Node.run (raft s) (granted s).
Proof. intros [H1 H2 H3 H4]%raft_reach_inv. done. Qed.

(** While the node is not stopped, a reader that waits for room can go on: the
    loop takes a message and the reader sends. *)
Theorem reader_goes_on s raw :
  inv s -> (0 < capacity)%nat -> looping s = true -> reader s = Sending raw -> exists s', rtc step s s' /\ reader s' = AtSelect.
Proof.
  intros Hi Hc Hl Hr. destruct (decide (length (buffer s) < capacity)%nat) as [Hlt|Hge].
  { eexists. split; [apply rtc_once; by eapply reader_sends|done]. }
  destruct (buffer s) as [|x b] eqn:Hb; [simpl in Hge; lia|].
  set (s1 := mkLoop (raft s) (granted s) (reader s) b true (goroutines s ++ [x]) (cancelled s) (received s) (started s ++ [x]) (finished s)).
  assert (step s s1) as H1 by by eapply loop_takes.
  pose proof (i_buffer _ Hi) as Hle. rewrite Hb in Hle. simpl in Hle.
  eexists. split; [eapply rtc_l; [exact H1|apply rtc_once; eapply reader_sends; [done|simpl; lia]]|done].
Qed.

(** A node that cannot subscribe never hears anything. *)
Theorem unsubscribed_hears_nothing s : reach false s -> received s = [] /\ finished s = [].
Proof.
  intros H. enough (reader s = ReaderClosed /\ received s = []) as [H1 H2].
  { split; [done|]. destruct (raft_reach_inv _ _ H) as [_ Ho Hs _]. rewrite H2 in Ho. symmetry in Ho.
    apply app_eq_nil in Ho as [Ho _]. rewrite Ho in Hs. apply Permutation_nil_l in Hs.
    symmetry in Hs. by apply app_eq_nil in Hs as [_ ?]. }
  destruct H as (host & jt & E & H). revert s H. refine (rtc_ind_r _ _ _ _); [done|].
  intros y z _ Hyz [Hr Hn]. destruct Hyz; simpl; try done; congruence.
Qed.

(** A node that is stopped while its buffer is full leaves the goroutine that
    reads the topic behind: it waits for ever and never leaves the topic. *)
Definition stuck (s : Loop) : Prop :=
  looping s = false /\ (exists raw, reader s = Sending raw) /\ length (buffer s) = capacity.

Theorem stuck_for_ever s s' : stuck s -> rtc step s s' -> stuck s'.
Proof.
  intros Hs H. revert s' H. refine (rtc_ind_r _ _ _ _); [done|]. intros y z _ Hyz (Hl & [raw Hr] & Hb).
  unfold stuck. destruct Hyz; simpl in *; try congruence; eauto; lia.
Qed.

Lemma fill n s : reader s = AtSelect -> cancelled s = false -> (length (buffer s) + n <= capacity)%nat ->
  exists s', rtc step s s' /\ reader s' = AtSelect /\ cancelled s' = false /\ looping s' = looping s /\
    length (buffer s') = (length (buffer s) + n)%nat.
Proof.
  revert s. induction n as [|n IH]; intros s Hr Hc Hn.
  { exists s. rewrite Nat.add_0_r. by split_and!. }
  set (s1 := mkLoop (raft s) (granted s) AtSelect (buffer s ++ [None]) (looping s) (goroutines s) (cancelled s)
    (received s ++ [None]) (started s) (finished s)).
  assert (rtc step s s1) as H1.
  { set (s0 := set_reader s InNext).
    set (s2 := mkLoop (raft s0) (granted s0) (Sending None) (buffer s0) (looping s0) (goroutines s0) (cancelled s0)
      (received s0 ++ [None]) (started s0) (finished s0)).
    eapply rtc_l; [by apply reader_select|]. eapply rtc_l; [exact (reader_next s0 None eq_refl)|].
    apply rtc_once. refine (reader_sends s2 None eq_refl _). simpl. lia. }
  destruct (IH s1) as (s' & H2 & H3 & H4 & H5 & H6); [done|done|simpl; rewrite length_app; simpl; lia|].
  exists s'. split_and!; [by etrans|done|done|done|]. rewrite H6. simpl. rewrite length_app. simpl. lia.
Qed.

Theorem stopped_node_leaks : exists s, reach true s /\ stuck s.
Proof.
  set (E := mkEnv 0 0 0 None). destruct (fill capacity (start true "n" 0 E)) as (s & H1 & H2 & H3 & H4 & H5); [done|done|simpl; lia|].
  simpl in H4, H5.
  set (s1 := set_reader s InNext).
  set (s2 := mkLoop (raft s1) (granted s1) (Sending None) (buffer s1) (looping s1) (goroutines s1) (cancelled s1)
    (received s1 ++ [None]) (started s1) (finished s1)).
  set (s3 := mkLoop (raft s2) (granted s2) (reader s2) (buffer s2) (looping s2) (goroutines s2) true (received s2) (started s2) (finished s2)).
  set (s4 := mkLoop (raft s3) (granted s3) (reader s3) (buffer s3) false (goroutines s3) true (received s3) (started s3) (finished s3)).
  exists s4. split; [|split_and!; [done|by exists None|done]]. exists "n", 0, E. etrans; [exact H1|].
  eapply rtc_l; [by apply reader_select|]. eapply rtc_l; [by apply (reader_next s1 None)|].
  eapply rtc_l; [apply (cancel s2)|]. apply rtc_once. by apply (loop_returns s3).
Qed.
End loop.

Lemma raft_loop_conserves_witness : exists s, received s = [None; None] /\
  received s = started s ++ buffer s ++ held (reader s) /\ started s ≡ₚ goroutines s ++ finished s.
Proof.
  set (E := mkEnv 0 0 0 None).
  set (s := mkLoop (Node.start "n" 0 E) (0%nat, []) AtSelect [None] true [None] false [None; None] [None] []).
  assert (reach 2 true s) as Hs.
  { exists "n", 0, E.
    set (st := fun rd b g rc sd => mkLoop (Node.start "n" 0 E) (0%nat, []) rd b true g false rc sd []).
    eapply rtc_l; [exact (reader_select 2 (st AtSelect [] [] [] []) eq_refl eq_refl)|].
    eapply rtc_l; [exact (reader_next 2 (st InNext [] [] [] []) None eq_refl)|].
    eapply rtc_l; [refine (reader_sends 2 (st (Sending None) [] [] [None] []) None eq_refl _); simpl; lia|].
    eapply rtc_l; [exact (loop_takes 2 (st AtSelect [None] [] [None] []) None [] eq_refl eq_refl)|].
    eapply rtc_l; [exact (reader_select 2 (st AtSelect [] [None] [None] [None]) eq_refl eq_refl)|].
    eapply rtc_l; [exact (reader_next 2 (st InNext [] [None] [None] [None]) None eq_refl)|].
    apply rtc_once. refine (reader_sends 2 (st (Sending None) [] [None] [None; None] [None]) None eq_refl _). simpl. lia. }
  destruct (raft_loop_conserves 2 true s Hs) as (H1 & H2 & _). exists s. split; [done|]. split; [exact H1|exact H2].
Defined.
End RaftLoop.

(** ** The loops over the message bus *)
Module BusLoop.
Section loop.
Context {M : Type}.
(** The size of the channel that [Bus.Subscribe] makes; whether the handler runs
    in a goroutine of its own. *)
Context (capacity : nat) (concurrent : bool).

Record Loop : Type := mkLoop {
  channel : list M; running : list M; looping : bool; cancelled : bool;
  published : list M; taken : list M; handled : list M
}.
Definition start : Loop := mkLoop [] [] true false [] [] [].

Inductive step : Loop -> Loop -> Prop :=
| publishes s m : (length (channel s) < capacity)%nat ->
    step s (mkLoop (channel s ++ [m]) (running s) (looping s) (cancelled s) (published s ++ [m]) (taken s) (handled s))
| takes s m ms : looping s = true -> channel s = m :: ms -> (concurrent = false -> running s = []) ->
    step s (mkLoop ms (running s ++ [m]) true (cancelled s) (published s) (taken s ++ [m]) (handled s))
| handles s r1 m r2 : running s = r1 ++ m :: r2 ->
    step s (mkLoop (channel s) (r1 ++ r2) (looping s) (cancelled s) (published s) (taken s) (handled s ++ [m]))
| cancels s : step s (mkLoop (channel s) (running s) (looping s) true (published s) (taken s) (handled s))
| returns s : looping s = true -> cancelled s = true -> (concurrent = false -> running s = []) ->
    step s (mkLoop (channel s) (running s) false true (published s) (taken s) (handled s)).

Record inv (s : Loop) : Prop := {
  i_order : published s = taken s ++ channel s;
  i_taken : taken s ≡ₚ handled s ++ running s;
  i_channel : (length (channel s) <= capacity)%nat;
  i_sequential : concurrent = false -> taken s = handled s ++ running s /\ (length (running s) <= 1)%nat
}.

Lemma bus_inv_step s s' : inv s -> step s s' -> inv s'.
Proof.
  intros [Ho Ht Hc Hq] Hst. destruct Hst as [s m Hl|s m ms Hl Hch Hr|s r1 m r2 Hr|s|s Hl Hca Hr]; split; simpl; try done.
  - by rewrite Ho, app_assoc.
  - rewrite length_app. simpl. lia.
  - by rewrite Ho, Hch, <- app_assoc.
  - rewrite Ht. solve_Permutation.
  - rewrite Hch in Hc. simpl in Hc. lia.
  - intros Hf. destruct (Hq Hf) as [H1 _]. rewrite (Hr Hf) in *. simpl. rewrite app_nil_r in H1. by rewrite H1.
  - rewrite Ht, Hr. solve_Permutation.
  - intros Hf. destruct (Hq Hf) as [H1 H2]. rewrite Hr, length_app in H2. simpl in H2.
    destruct r1; [|simpl in H2; lia]. destruct r2; [|simpl in H2; lia]. rewrite H1, Hr. simpl. split; [by rewrite app_nil_r|lia].
Qed.

(** Every message that is published is handled at most once, nothing else is,
    and a loop that handles them itself keeps their order. *)
Theorem bus_loop_conserves s : rtc step start s ->
  published s = taken s ++ channel s /\ taken s ≡ₚ handled s ++ running s /\
  (concurrent = false -> exists rest, published s = handled s ++ rest).
Proof.
  intros H. assert (inv s) as [Ho Ht Hc Hq].
  { revert s H. refine (rtc_ind_r _ _ _ _); [split; simpl; [done|done|lia|intros; split; [done|lia]]|]. intros y z _ Hyz Hy. by eapply bus_inv_step. }
  split_and!; [done|done|]. intros Hf. exists (running s ++ channel s). destruct (Hq Hf) as [Hq' _]. by rewrite Ho, Hq', <- app_assoc.
Qed.
End loop.

(** The commands of an application are handled in goroutines of their own, the
    events of the host in the loop itself. *)
Definition fetcher_subscribe {M} (capacity : nat) := @step M capacity true.
Definition aggregator_subscribe {M} (capacity : nat) := @step M capacity true.
Definition helper_subscribe {M} (capacity : nat) := @step M capacity true.
Definition subscribeLibp2pEvent {M} (capacity : nat) := @step M capacity false.

(** [App.Run] of the helper: the loop over the commands is started by a deferred
    call, also when the events cannot be subscribed to. *)
Inductive Started : Type := CommandLoop | EventLoop.
Definition helper_Run (subscribe : option error) : list Started * option error :=
  match subscribe with
  | Some e => ([CommandLoop], Some (External ("event subscription failed: " +:+ Error e)))
  | None => ([EventLoop; CommandLoop], None)
  end.
Lemma helper_serves_commands e : CommandLoop ∈ fst (helper_Run e).
Proof. destruct e; simpl; [by left|right; by left]. Qed.

(** Commands can be handled in another order than they were sent in. *)
Lemma commands_overtake {M} (m1 m2 : M) : exists s,
  rtc (aggregator_subscribe 10) start s /\ published s = [m1; m2] /\ handled s = [m2; m1].
Proof.
  eexists. split; [|split].
  - eapply rtc_l; [apply (publishes _ _ _ m1); simpl; lia|]. eapply rtc_l; [apply (publishes _ _ _ m2); simpl; lia|].
    eapply rtc_l; [by eapply takes|]. eapply rtc_l; [by eapply takes|].
    eapply rtc_l; [by apply (handles _ _ _ [m1] m2 [])|]. apply rtc_once. by apply (handles _ _ _ [] m1 []).
  - done.
  - done.
Qed.
End BusLoop.
