(* ===== verification/LeaderLoop.v ===== *)
(** * LeaderLoop: the goroutine of a leader

    The goroutine that [becomeLeader] starts ([node/pkg/raft/raft.go]) beats and
    runs the leader job until the node resigns.  It runs beside the handlers:
    its [select] evaluates the field [r.Resign] once per turn, and a handler may
    close that channel and set the field to nil between two turns.  Ticks are
    taken from the node's current tickers: a goroutine that still waits on a
    ticker a later election has replaced is not modelled. *)

From S2P Require Import Prelude Errors Wire Raft Election.
Import Raft Node.

Local Open Scope Z_scope.

Module LeaderLoop.

(** Where the goroutine is: at the top of the loop, waiting in [select] on the
    channel it read from [r.Resign] ([None]: nil, which is never ready), sending
    a heartbeat, stopping the tickers, or returned. *)
Inductive pc : Type :=
| Top
| Select (resign : option nat)
| Beating
| Stopping
| Returned.

Record lsys : Type := mkLsys { node : Raft; at_ : pc; cancelled : bool }.

(** A ticker that was never stopped delivers ticks. *)
Definition ticks (t : ticker) : bool := match t with TickerOn _ => true | _ => false end.

Inductive lstep : lsys -> list effect -> lsys -> Prop :=
| l_select r k : lstep (mkLsys r Top k) [] (mkLsys r (Select (Resign r)) k)
| l_resign r c k : c ∈ Closed r -> lstep (mkLsys r (Select (Some c)) k) [] (mkLsys r Stopping k)
| l_beat r q k : ticks (HeartbeatTicker r) = true -> lstep (mkLsys r (Select q) k) [] (mkLsys r Beating k)
| l_sent E r out err k : sendHeartbeat E r = (out, err) -> lstep (mkLsys r Beating k) out (mkLsys r Top k)
| l_job r q k : ticks (LeaderJobTicker r) = true -> lstep (mkLsys r (Select q) k) [] (mkLsys r Top k)
| l_done r q : lstep (mkLsys r (Select q) true) [] (mkLsys r Stopping true)
| l_stop r k :
    lstep (mkLsys r Stopping k) [] (mkLsys (set_LeaderJobTicker TickerOff (set_HeartbeatTicker TickerOff r)) Returned k)
| l_node r out r' p k : step r out r' -> lstep (mkLsys r p k) out (mkLsys r' p k)
| l_cancel r p k : lstep (mkLsys r p k) [] (mkLsys r p true).

(** Runs, with what they publish. *)
Inductive lruns : lsys -> list effect -> lsys -> Prop :=
| lr_nil s : lruns s [] s
| lr_step s out s1 out' s2 : lstep s out s1 -> lruns s1 out' s2 -> lruns s (out ++ out') s2.

Lemma lruns_app s1 o1 s2 o2 s3 : lruns s1 o1 s2 -> lruns s2 o2 s3 -> lruns s1 (o1 ++ o2) s3.
Proof.
  induction 1 as [|s out s' out' s'' Hs _ IH]; [done|]. intros H3. rewrite <- app_assoc.
  econstructor; [done|by apply IH].
Qed.

(** The resignation channel appears only when the node becomes the leader, and
    the tickers are stopped by the goroutine alone. *)
Lemma step_Resign r out r' :
  step r out r' -> Resign r = None ->
  (Resign r' = None \/ Role r' = Leader) /\
  (ticks (HeartbeatTicker r) = true -> ticks (HeartbeatTicker r') = true).
Proof.
  intros Hs Hn. destruct Hs as [r d Ht|E r r' out err Ht H|E r msg r' out err Hi H].
  - by raft_simpl; auto.
  - unfold startElection in H. handler_cases H.
    all: unfold startElectionTimer; repeat case_match; raft_simpl; auto.
  - unfold receive, handleMessage in H.
    destruct (bool_decide _); [|destruct (bool_decide _); [|destruct (bool_decide _)]]; cbn [fst] in H.
    + unfold handleHeartbeat, ResignLeader in H. handler_cases H.
      all: unfold startElectionTimer; repeat case_match; raft_simpl; auto.
    + unfold handleRequestVote in H. handler_cases H.
      all: unfold startElectionTimer; repeat case_match; raft_simpl; auto.
    + unfold handleReplyVote, becomeLeader, setLeaderState in H. handler_cases H.
      all: raft_simpl; auto.
    + handler_cases H. auto.
Qed.

(** A loop that missed the resignation: the field is nil, and the goroutine is
    not waiting on the channel that was closed. *)
Definition orphan (s : lsys) : Prop :=
  Resign (node s) = None /\ (at_ s = Top \/ at_ s = Select None \/ at_ s = Beating) /\
  ticks (HeartbeatTicker (node s)) = true /\ cancelled s = false.

(** Steps during which the node is not cancelled and does not lead again. *)
Definition quiet (s : lsys) : Prop := Role (node s) <> Leader /\ cancelled s = false.

Inductive quiet_runs : lsys -> lsys -> Prop :=
| qr_nil s : quiet_runs s s
| qr_step s out s1 s2 : lstep s out s1 -> quiet s1 -> quiet_runs s1 s2 -> quiet_runs s s2.

Lemma orphan_step s out s' : orphan s -> lstep s out s' -> quiet s' -> orphan s'.
Proof.
  intros (Hr & Hp & Ht & Hc) Hs [Hl Hk].
  destruct Hs as [r k|r c k Hin|r q k Hb|E r o err k Hsend|r q k Hj|r q|r k|r o r' p k Hstep|r p k];
    unfold orphan in *; simpl in *.
  - rewrite Hr. auto.
  - naive_solver.
  - auto.
  - auto.
  - auto.
  - done.
  - naive_solver.
  - destruct (step_Resign _ _ _ Hstep Hr) as [[Hn|Hn] Ht']; [auto|done].
  - done.
Qed.

(** C33: a leader goroutine that is sending a heartbeat while a handler
    resigns never learns of it: as long as the node's context lives and the node
    is not elected again, it neither stops nor returns, and it can always go on
    to publish one more heartbeat that names this node, a follower, as the
    leader of the node's current term. *)
Theorem orphan_loop_beats_for_ever s s' E :
  orphan s -> quiet_runs s s' -> e_publish E = None ->
  at_ s' <> Stopping /\ at_ s' <> Returned /\
  exists out s'', lruns s' out s'' /\
    Publish (mkMessage Heartbeat (HostID (node s'))
      (json_Marshal (mkHeartbeat (HostID (node s')) (Term (node s')))) (e_now E)) ∈ out.
Proof.
  intros Ho Hq HE. assert (orphan s') as Ho'.
  { induction Hq as [|s out s1 s2 Hs Hqu _ IH]; [done|]. apply IH. by eapply orphan_step. }
  clear Ho Hq. destruct s' as [r p k], Ho' as (Hr & Hp & Ht & Hc). simpl in *. subst k.
  assert (forall q, exists s'', lruns (mkLsys r (Select q) false) ([] ++ [Publish (mkMessage Heartbeat (HostID r)
      (json_Marshal (mkHeartbeat (HostID r) (Term r))) (e_now E))] ++ []) s'') as Hsel.
  { intros q. eexists. econstructor; [by apply l_beat|].
    econstructor; [|apply lr_nil]. eapply (l_sent E). unfold sendHeartbeat, PublishMessage. by rewrite HE. }
  split_and!; [naive_solver..|].
  destruct Hp as [->|[->| ->]].
  - destruct (Hsel (Resign r)) as [s'' H]. eexists _, s''. split; [econstructor; [apply l_select|exact H]|].
    simpl. by left.
  - destruct (Hsel None) as [s'' H]. eexists _, s''. split; [exact H|]. simpl. by left.
  - eexists _, (mkLsys r Top false). split.
    + econstructor; [|apply lr_nil]. eapply (l_sent E). unfold sendHeartbeat, PublishMessage. by rewrite HE.
    + simpl. by left.
Qed.

(** A leader of term 2 that hears a heartbeat of term 5. *)
Definition w_leading : Raft :=
  match becomeLeader (set_Term 1 (set_Role Candidate (start "n" second w_env))) with
  | Ret r _ _ => r | Panic => NewRaftNode "n" second end.
Definition w_hb : Message := mkMessage Heartbeat "z" (json_Marshal (mkHeartbeat "z" 5)) 0.
Definition w_resigned : Raft :=
  match receive w_env w_leading w_hb with Ret r _ _ => r | Panic => w_leading end.

Lemma w_resigned_step : step w_leading [] w_resigned.
Proof. apply (step_receive w_env _ w_hb _ _ None); [by vm_compute|reflexivity]. Qed.

Lemma w_orphan : orphan (mkLsys w_resigned Beating false).
Proof. vm_compute. auto. Qed.

(** The missed resignation is reachable from a leader whose goroutine has
    just been started, with no failure of any kind; had the goroutine been
    waiting in [select] it would have returned. *)
Theorem missed_resignation :
  (exists out, lruns (mkLsys w_leading Top false) out (mkLsys w_resigned Beating false) /\
     Role w_resigned = Follower /\ LeaderID w_resigned = "z" /\ orphan (mkLsys w_resigned Beating false)) /\
  (exists out r, lruns (mkLsys w_leading (Select (Resign w_leading)) false) out (mkLsys r Returned false) /\
     Role r = Follower).
Proof.
  split.
  - eexists. split; [|split; [by vm_compute|split; [by vm_compute|apply w_orphan]]].
    econstructor; [apply l_select|]. econstructor; [by apply l_beat|].
    econstructor; [apply l_node, w_resigned_step|apply lr_nil].
  - eexists _, _. split.
    + econstructor; [apply l_node, w_resigned_step|].
      econstructor; [apply l_resign; vm_compute; by left|].
      econstructor; [apply l_stop|apply lr_nil].
    + by vm_compute.
Qed.

Lemma orphan_loop_beats_for_ever_witness : exists out s'',
  lruns (mkLsys w_resigned Beating false) out s'' /\ out <> [].
Proof.
  destruct (orphan_loop_beats_for_ever (mkLsys w_resigned Beating false) (mkLsys w_resigned Beating false) w_env
    w_orphan (qr_nil _) eq_refl) as (_ & _ & out & s'' & H & Hin).
  exists out, s''. split; [done|]. intros ->. by apply not_elem_of_nil in Hin.
Defined.

End LeaderLoop.
