(* ===== verification/Aggregator.v ===== *)
(** * Aggregator: the rounds of one config

    [node/pkg/aggregator/aggregator.go], [types.go] and [utils.go].  A round
    goes from the leader's trigger to the prices of all peers, the leader's
    price fix (the median) and the proofs of all peers.

    The four round tables have a mutex each.  A handler is written once, as the
    code has it; the critical sections it is made of are definitions of their
    own, because the handlers of different messages run in different goroutines
    and only the sections are atomic. *)

From S2P Require Import Prelude Errors Calculator Wire Raft.
Import Raft Calculator.

Local Open Scope Z_scope.

Module Aggregator.

(** ** Data *)
Definition Trigger : string := "trigger".
Definition PriceData : string := "priceData".
Definition PriceFix : string := "priceFix".
Definition ProofMsg : string := "proof".

Record LocalAggregate : Type := mkLocalAggregate {
  la_ConfigID : int32; la_Value : int64; la_Timestamp : Time
}.
Record GlobalAggregate : Type := mkGlobalAggregate {
  ga_ConfigID : int32; ga_Value : int64; ga_Round : int32; ga_Timestamp : Time
}.
Record Proof_ : Type := mkProof { p_ConfigID : int32; p_Round : int32; p_Proof : bytes }.
Record SubmissionData : Type := mkSubmissionData {
  sd_Symbol : string; sd_GlobalAggregate : GlobalAggregate; sd_Proof : Proof_
}.
Record Config : Type := mkConfig {
  c_ID : int32; c_Name : string; c_AggregateInterval : int32
}.

#[export] Instance LocalAggregate_eq_dec : EqDecision LocalAggregate.
Proof. solve_decision. Defined.
#[export] Instance GlobalAggregate_eq_dec : EqDecision GlobalAggregate.
Proof. solve_decision. Defined.
#[export] Instance Proof_eq_dec : EqDecision Proof_.
Proof. solve_decision. Defined.
#[export] Instance SubmissionData_eq_dec : EqDecision SubmissionData.
Proof. solve_decision. Defined.
#[export] Instance Config_eq_dec : EqDecision Config.
Proof. solve_decision. Defined.

(** [RoundPrices] and [RoundProofs] have the same shape over the type of what
    they collect. *)
Record RoundData (A : Type) : Type := mkRoundData {
  senders : gmap Z (list string);
  items : gmap Z (list A);
  locked : gmap Z bool
}.
Arguments mkRoundData {A} _ _ _.
Arguments senders {A} _.
Arguments items {A} _.
Arguments locked {A} _.

Abbreviation RoundPrices := (RoundData Z) (only parsing).
Abbreviation RoundProofs := (RoundData (list Z)) (only parsing).
Abbreviation RoundTriggers := (gmap Z bool) (only parsing).
Abbreviation RoundPriceFixes := (gmap Z bool) (only parsing).

(** Reading a Go map gives the zero value for an absent key. *)
Definition is_locked (m : gmap Z bool) (k : int32) : bool := default false (m !! k).
Definition slice {A} (m : gmap Z (list A)) (k : int32) : list A := default [] (m !! k).

Definition LatestLocalAggregates : Type := gmap Z LocalAggregate.
Definition NewLatestLocalAggregates : LatestLocalAggregates := ∅.
Definition Load (a : LatestLocalAggregates) (id : int32) : option LocalAggregate := a !! id.
Definition Store (a : LatestLocalAggregates) (id : int32) (v : LocalAggregate)
    : LatestLocalAggregates := <[id := v]> a.

#[projections(primitive)]
Record Aggregator : Type := mkAggregator {
  config : Config;
  roundTriggers : RoundTriggers;
  roundPrices : RoundPrices;
  roundPriceFixes : RoundPriceFixes;
  roundProofs : RoundProofs;
  RoundID : int32
}.
Definition set_roundTriggers (v : RoundTriggers) (n : Aggregator) : Aggregator :=
  mkAggregator (config n) v (roundPrices n) (roundPriceFixes n) (roundProofs n) (RoundID n).
Definition set_roundPrices (v : RoundPrices) (n : Aggregator) : Aggregator :=
  mkAggregator (config n) (roundTriggers n) v (roundPriceFixes n) (roundProofs n) (RoundID n).
Definition set_roundPriceFixes (v : RoundPriceFixes) (n : Aggregator) : Aggregator :=
  mkAggregator (config n) (roundTriggers n) (roundPrices n) v (roundProofs n) (RoundID n).
Definition set_roundProofs (v : RoundProofs) (n : Aggregator) : Aggregator :=
  mkAggregator (config n) (roundTriggers n) (roundPrices n) (roundPriceFixes n) v (RoundID n).
Definition set_RoundID (v : int32) (n : Aggregator) : Aggregator :=
  mkAggregator (config n) (roundTriggers n) (roundPrices n) (roundPriceFixes n) (roundProofs n) v.

(** What a handler does outside the state: messages to the topic, submissions
    to the Redis stream, and the two timeout goroutines. *)
Inductive aeffect : Type :=
| Net (m : Message)
| DbPublish (key : string) (d : SubmissionData)
| SpawnPriceTimeout (round : int32) (ts : Time)
| SpawnProofTimeout (m : ProofMessage).

(** The environment of one call: that of the Raft node, the local aggregates
    that the application shares, [Signer.MakeGlobalAggregateProof] (code of the
    signing package, given by its answers here) and what [db.Publish]
    answers. *)
Record AEnv : Type := mkAEnv {
  a_raft : Env;
  a_latest : LatestLocalAggregates;
  a_sign : int64 -> Time -> string -> res (list Z);
  a_db : option error
}.

Abbreviation hout := (Aggregator * list aeffect * option error)%type.

(** ** Pruning: [leaveOnlyLast10Entries] *)

(** [for i := roundID; i > roundID-10; i--] copying the entries it meets.  The
    loop runs at most ten times: see [last10_loop_filter]. *)
Fixpoint last10_loop {A} (fuel : nat) (i stop : int32) (old new : gmap Z A) : gmap Z A :=
  match fuel with
  | O => new
  | S fuel =>
      if stop <? i then
        let new := match old !! i with Some val => <[i := val]> new | None => new end in
        last10_loop fuel (wrap32 (i - 1)) stop old new
      else new
  end.
Definition last10 {A} (roundID : int32) (m : gmap Z A) : gmap Z A :=
  last10_loop 11 roundID (wrap32 (roundID - 10)) m ∅.

Definition RoundTriggers_leaveOnlyLast10Entries (roundID : int32) (r : RoundTriggers)
    : RoundTriggers := last10 roundID r.
Definition RoundPriceFixes_leaveOnlyLast10Entries (roundID : int32) (r : RoundPriceFixes)
    : RoundPriceFixes := last10 roundID r.
Definition RoundPrices_leaveOnlyLast10Entries (roundID : int32) (r : RoundPrices) : RoundPrices :=
  let newLocked := last10 roundID (locked r) in
  let newPrices := last10 roundID (items r) in
  let newSenders := last10 roundID (senders r) in
  mkRoundData newSenders newPrices newLocked.
Definition RoundProofs_leaveOnlyLast10Entries (roundID : int32) (r : RoundProofs) : RoundProofs :=
  let newLocked := last10 roundID (locked r) in
  let newProofs := last10 roundID (items r) in
  let newSenders := last10 roundID (senders r) in
  mkRoundData newSenders newProofs newLocked.

Definition leaveOnlyLast10Entries (roundID : int32) (n : Aggregator) : Aggregator :=
  let n := set_roundTriggers (RoundTriggers_leaveOnlyLast10Entries roundID (roundTriggers n)) n in
  let n := set_roundPrices (RoundPrices_leaveOnlyLast10Entries roundID (roundPrices n)) n in
  let n := set_roundPriceFixes (RoundPriceFixes_leaveOnlyLast10Entries roundID (roundPriceFixes n)) n in
  set_roundProofs (RoundProofs_leaveOnlyLast10Entries roundID (roundProofs n)) n.

(** ** Collecting *)
Definition isReplay {A} (r : RoundData A) (roundID : int32) (sender : string) : bool :=
  bool_decide (sender ∈ slice (senders r) roundID).

(** [storeRoundPriceData] and [storeRoundProofData]. *)
Definition store {A} (r : RoundData A) (roundID : int32) (x : A) (sender : string) : RoundData A :=
  match items r !! roundID with
  | Some xs =>
      mkRoundData (<[roundID := slice (senders r) roundID ++ [sender]]> (senders r))
        (<[roundID := xs ++ [x]]> (items r)) (locked r)
  | None =>
      mkRoundData (<[roundID := [sender]]> (senders r)) (<[roundID := [x]]> (items r)) (locked r)
  end.
Definition storeRoundPriceData (n : Aggregator) (roundID : int32) (priceData : int64)
    (sender : string) : Aggregator :=
  set_roundPrices (store (roundPrices n) roundID priceData sender) n.
Definition storeRoundProofData (n : Aggregator) (roundID : int32) (proofData : bytes)
    (sender : string) : Aggregator :=
  set_roundProofs (store (roundProofs n) roundID proofData sender) n.

Definition lock {A} (r : RoundData A) (roundID : int32) : RoundData A :=
  mkRoundData (senders r) (items r) (<[roundID := true]> (locked r)).

(** ** Messages *)
Definition publish (E : AEnv) (msg : Message) : list aeffect * option error :=
  let '(out, err) := PublishMessage (a_raft E) msg in
  (omap (fun e => match e with Publish m => Some (Net m) | SpawnLeaderLoop => None end) out, err).

Definition PublishTriggerMessage (E : AEnv) (r : Raft) (roundId : int32) (timestamp : Time) :=
  publish E (mkMessage Trigger (GetHostId r)
    (json_Marshal (mkTrigger (GetHostId r) roundId timestamp)) time_zero).
Definition PublishPriceDataMessage (E : AEnv) (r : Raft) (roundId : int32) (value : int64)
    (timestamp : Time) :=
  publish E (mkMessage PriceData (GetHostId r)
    (json_Marshal (mkPriceData roundId value timestamp)) time_zero).
Definition PublishPriceFixMessage (E : AEnv) (r : Raft) (roundId : int32) (value : int64)
    (timestamp : Time) :=
  publish E (mkMessage PriceFix (GetHostId r)
    (json_Marshal (mkPriceFix roundId value timestamp)) time_zero).
Definition PublishProofMessage (E : AEnv) (r : Raft) (roundId : int32) (value : int64)
    (proof : bytes) (timestamp : Time) :=
  publish E (mkMessage ProofMsg (GetHostId r)
    (json_Marshal (mkProofMsg roundId value (Some proof) timestamp)) time_zero).

Definition FilterNegative (values : list Z) : list Z := filter (fun value => 0 <= value) values.

Definition SubmissionDataStreamKey (name : string) : string := "submissionDataStream:" +:+ name.

Definition PublishGlobalAggregateAndProof (E : AEnv) (name : string) (g : GlobalAggregate)
    (proof : Proof_) : list aeffect * option error :=
  if (ga_Value g =? 0) || IsZero (ga_Timestamp g) then ([], None)
  else match a_db E with
       | None => ([DbPublish (SubmissionDataStreamKey name) (mkSubmissionData name g proof)], None)
       | Some err => ([], Some err)
       end.

(** ** Rounds *)
Definition NewAggregator (topicString : string) (config : Config) : res Aggregator :=
  if bool_decide (topicString = "") then Err ErrAggregatorInvalidInitValue
  else Ok (mkAggregator config ∅ (mkRoundData ∅ ∅ ∅) ∅ (mkRoundData ∅ ∅ ∅) 1).

(** The part of [Run] before the Raft node runs; the argument is what the
    query of [getLatestRoundId] answers. *)
Definition getLatestRoundId (row : res GlobalAggregate) : res int32 :=
  match row with Ok g => Ok (ga_Round g) | Err e => Err e end.
Definition Run (row : res GlobalAggregate) (n : Aggregator) : Aggregator :=
  match getLatestRoundId row with
  | Err _ => n
  | Ok latestRoundId => if 0 <? latestRoundId then set_RoundID (wrap32 (latestRoundId + 1)) n else n
  end.

Definition LeaderJob (E : AEnv) (r : Raft) (n : Aggregator) : hout :=
  let n := set_RoundID (wrap32 (RoundID n + 1)) n in
  let '(out, err) := PublishTriggerMessage E r (RoundID n) (e_now (a_raft E)) in
  (n, out, err).

(** *** Trigger *)
Definition trigger_round (r : Raft) (msg : Message) (m : TriggerMessage) (n : Aggregator)
    : Aggregator :=
  if negb (bool_decide (SentFrom msg = GetHostId r))
  then set_RoundID (Z.max (tr_RoundID m) (RoundID n)) n else n.

Definition trigger_locked (E : AEnv) (r : Raft) (m : TriggerMessage) (n : Aggregator) : hout :=
  if is_locked (roundTriggers n) (tr_RoundID m) then (n, [], None) else
  let n := set_roundTriggers (<[tr_RoundID m := true]> (roundTriggers n)) n in
  let value := match Load (a_latest E) (c_ID (config n)) with
               | None => -1
               | Some localAggregate => la_Value localAggregate
               end in
  let '(out, err) := PublishPriceDataMessage E r (tr_RoundID m) value (tr_Timestamp m) in
  (n, out, err).

Definition HandleTriggerMessage (E : AEnv) (r : Raft) (n : Aggregator) (msg : Message) : hout :=
  match json_Unmarshal (T := TriggerMessage) (Data msg) with
  | None => (n, [], Some ErrJson)
  | Some m =>
      let '(n, out, err) :=
        if tr_RoundID m =? 0 then (n, [], Some (Sentinel ErrAggregatorInvalidRaftMessage))
        else if negb (bool_decide (SentFrom msg = GetLeader r))
        then (n, [], Some (Sentinel ErrAggregatorNonLeaderRaftMessage))
        else trigger_locked E r m (trigger_round r msg m n) in
      (* the deferred call *)
      (leaveOnlyLast10Entries (tr_RoundID m) n, out, err)
  end.

(** *** Prices *)
Definition processCollectedPrices (E : AEnv) (r : Raft) (n : Aggregator) (roundID : int32)
    (timestamp : Time) : hout :=
  let n := set_roundPrices (lock (roundPrices n) roundID) n in
  if negb (bool_decide (GetRole r = Leader)) then (n, [], None) else
  let prices := slice (items (roundPrices n)) roundID in
  let filteredCollectedPrices := FilterNegative prices in
  if bool_decide (filteredCollectedPrices = []) then (n, [], None) else
  match fst (GetInt64Med filteredCollectedPrices) with
  | Err err => (n, [], Some err)
  | Ok median =>
      let '(out, err) := PublishPriceFixMessage E r roundID median timestamp in (n, out, err)
  end.

Definition HandlePriceDataMessage (E : AEnv) (r : Raft) (n : Aggregator) (msg : Message) : hout :=
  match json_Unmarshal (T := PriceDataMessage) (Data msg) with
  | None => (n, [], Some ErrJson)
  | Some m =>
      if pd_RoundID m =? 0 then (n, [], Some (Sentinel ErrAggregatorInvalidRaftMessage)) else
      if is_locked (locked (roundPrices n)) (pd_RoundID m) then (n, [], None) else
      if isReplay (roundPrices n) (pd_RoundID m) (SentFrom msg) then (n, [], None) else
      let n := storeRoundPriceData n (pd_RoundID m) (pd_PriceData m) (SentFrom msg) in
      let collected := Z.of_nat (length (slice (items (roundPrices n)) (pd_RoundID m))) in
      if collected =? SubscribersCount (a_raft E) + 1
      then processCollectedPrices E r n (pd_RoundID m) (pd_Timestamp m)
      else if collected =? 1 then (n, [SpawnPriceTimeout (pd_RoundID m) (pd_Timestamp m)], None)
      else (n, [], None)
  end.

(** The goroutine [startPriceCollectionTimeout], when its timer fires. *)
Definition startPriceCollectionTimeout (E : AEnv) (r : Raft) (n : Aggregator) (roundID : int32)
    (timestamp : Time) : hout :=
  if negb (is_locked (locked (roundPrices n)) roundID)
     && (Z.quot (SubscribersCount (a_raft E) + 1) 2
           <=? Z.of_nat (length (slice (items (roundPrices n)) roundID)))
  then let '(n, out, _) := processCollectedPrices E r n roundID timestamp in (n, out, None)
  else (n, [], None).

(** *** Price fix *)
Definition HandlePriceFixMessage (E : AEnv) (r : Raft) (n : Aggregator) (msg : Message) : hout :=
  match json_Unmarshal (T := PriceFixMessage) (Data msg) with
  | None => (n, [], Some ErrJson)
  | Some m =>
      if negb (bool_decide (SentFrom msg = GetLeader r))
      then (n, [], Some (Sentinel ErrAggregatorNonLeaderRaftMessage)) else
      if is_locked (roundPriceFixes n) (pf_RoundID m) then (n, [], None) else
      let n := set_roundPriceFixes (<[pf_RoundID m := true]> (roundPriceFixes n)) n in
      match a_sign E (pf_PriceData m) (pf_Timestamp m) (c_Name (config n)) with
      | Err err => (n, [], Some err)
      | Ok proof =>
          let '(out, err) :=
            PublishProofMessage E r (pf_RoundID m) (pf_PriceData m) proof (pf_Timestamp m) in
          (n, out, err)
      end
  end.

(** *** Proofs *)
Definition processCollectedProofs (E : AEnv) (n : Aggregator) (m : ProofMessage) : hout :=
  let n := set_roundProofs (lock (roundProofs n) (pm_RoundID m)) n in
  let globalAggregate :=
    mkGlobalAggregate (c_ID (config n)) (pm_Value m) (pm_RoundID m) (pm_Timestamp m) in
  let concatProof := concat (slice (items (roundProofs n)) (pm_RoundID m)) in
  let proof := mkProof (c_ID (config n)) (pm_RoundID m) concatProof in
  let '(out, err) := PublishGlobalAggregateAndProof E (c_Name (config n)) globalAggregate proof in
  (n, out, err).

Definition HandleProofMessage (E : AEnv) (n : Aggregator) (msg : Message) : hout :=
  match json_Unmarshal (T := ProofMessage) (Data msg) with
  | None => (n, [], Some ErrJson)
  | Some m =>
      if pm_RoundID m =? 0 then (n, [], Some (Sentinel ErrAggregatorInvalidRaftMessage)) else
      match pm_Proof m with
      | None => (n, [], Some (Sentinel ErrAggregatorEmptyProof))
      | Some proof =>
          if is_locked (locked (roundProofs n)) (pm_RoundID m) then (n, [], None) else
          if isReplay (roundProofs n) (pm_RoundID m) (SentFrom msg) then (n, [], None) else
          let n := storeRoundProofData n (pm_RoundID m) proof (SentFrom msg) in
          let collected := Z.of_nat (length (slice (items (roundProofs n)) (pm_RoundID m))) in
          if collected =? SubscribersCount (a_raft E) + 1 then processCollectedProofs E n m
          else if collected =? 1 then (n, [SpawnProofTimeout m], None)
          else (n, [], None)
      end
  end.

Definition startProofCollectionTimeout (E : AEnv) (n : Aggregator) (m : ProofMessage) : hout :=
  if negb (is_locked (locked (roundProofs n)) (pm_RoundID m))
     && (Z.quot (SubscribersCount (a_raft E) + 1) 2
           <=? Z.of_nat (length (slice (items (roundProofs n)) (pm_RoundID m))))
  then let '(n, out, _) := processCollectedProofs E n m in (n, out, None)
  else (n, [], None).

Definition HandleCustomMessage (E : AEnv) (r : Raft) (n : Aggregator) (message : Message) : hout :=
  if bool_decide (Type_ message = Trigger) then HandleTriggerMessage E r n message
  else if bool_decide (Type_ message = PriceData) then HandlePriceDataMessage E r n message
  else if bool_decide (Type_ message = PriceFix) then HandlePriceFixMessage E r n message
  else if bool_decide (Type_ message = ProofMsg) then HandleProofMessage E n message
  else (n, [], Some (Sentinel ErrAggregatorUnhandledCustomMessage)).

End Aggregator.
