(* ===== verification/Rounds.v ===== *)
(** * Rounds: what the aggregator guarantees over runs

    Runs are sequences of the critical sections of [Aggregator], in any order
    and on any messages, so the theorems hold for every interleaving of the
    handler goroutines and whatever the peers send. *)

From S2P Require Import Prelude Errors Calculator Wire Raft Aggregator.
Import Raft Calculator Aggregator.

Local Open Scope Z_scope.

(** ** Pruning *)
Module Pruning.

(** The rounds that pruning at [q] keeps.  Below [min_int32 + 10] the bound of
    the loop wraps to a large number and nothing is kept. *)
Definition keeps (q k : Z) : bool :=
  (min_int32 + 10 <=? q) && (q - 10 <? k) && (k <=? q).

Lemma last10_loop_lookup {A} (old : gmap Z A) stop k : forall fuel i new,
  in_int32 i -> min_int32 <= stop -> i - stop < Z.of_nat fuel ->
  last10_loop fuel i stop old new !! k =
    if (stop <? k) && (k <=? i)
    then match old !! k with Some v => Some v | None => new !! k end else new !! k.
Proof.
  induction fuel as [|fuel IH]; intros i new Hi Hs Hf; simpl.
  - replace ((stop <? k) && (k <=? i)) with false; [done|].
    symmetry. apply andb_false_iff. rewrite Z.ltb_ge, Z.leb_gt. lia.
  - destruct (stop <? i) eqn:Hlt; breflect.
    + rewrite wrap32_id by int_lia. rewrite IH by int_lia.
      destruct (decide (k = i)) as [->|Hne].
      * replace ((stop <? i) && (i <=? i)) with true
          by (symmetry; apply andb_true_iff; lia).
        replace ((stop <? i) && (i <=? i - 1)) with false
          by (symmetry; apply andb_false_iff; right; lia).
        destruct (old !! i) eqn:Ho; [by rewrite lookup_insert_eq|done].
      * replace (k <=? i - 1) with (k <=? i)
          by (apply eq_true_iff_eq; rewrite !Z.leb_le; lia).
        destruct (old !! i); [|done]. by rewrite lookup_insert_ne.
    + replace ((stop <? k) && (k <=? i)) with false; [done|].
      symmetry. apply andb_false_iff. rewrite Z.ltb_ge, Z.leb_gt. lia.
Qed.

Lemma last10_lookup {A} q (m : gmap Z A) k :
  in_int32 q -> last10 q m !! k = if keeps q k then m !! k else None.
Proof.
  intros Hq. unfold last10, keeps. destruct (min_int32 + 10 <=? q) eqn:Hb; breflect.
  - rewrite wrap32_id by int_lia. rewrite last10_loop_lookup by int_lia.
    rewrite lookup_empty. simpl. by destruct (_ && _), (m !! k).
  - unfold wrap, last10_loop. replace ((q - 10 + 2 ^ (32 - 1)) `mod` 2 ^ 32 - 2 ^ (32 - 1))
      with (q - 10 + 2 ^ 32).
    2:{ replace (q - 10 + 2 ^ (32 - 1)) with ((q - 10 + 2 ^ (32 - 1) + 2 ^ 32) + (-1) * 2 ^ 32) by lia.
        rewrite Z.mod_add by lia. rewrite Z.mod_small; [|int_lia]. lia. }
    replace (q - 10 + 2 ^ 32 <? q) with false by (symmetry; apply Z.ltb_ge; lia).
    by rewrite lookup_empty.
Qed.

Lemma last10_slice {A} q (m : gmap Z (list A)) k :
  in_int32 q -> slice (last10 q m) k = if keeps q k then slice m k else [].
Proof. intros. unfold slice. rewrite last10_lookup by done. by destruct (keeps q k). Qed.

Lemma last10_is_locked q (m : gmap Z bool) k :
  in_int32 q -> is_locked (last10 q m) k = keeps q k && is_locked m k.
Proof. intros. unfold is_locked. rewrite last10_lookup by done. by destruct (keeps q k). Qed.

Lemma last10_size {A} q (m : gmap Z A) : in_int32 q -> (size (last10 q m) <= 10)%nat.
Proof.
  intros Hq. rewrite <- size_dom.
  transitivity (size (list_to_set (seqZ (q - 9) 10) : gset Z)).
  - apply subseteq_size. intros k [v Hk]%elem_of_dom. rewrite last10_lookup in Hk by done.
    unfold keeps in Hk. destruct (_ && _) eqn:Hb; [|done]. breflect.
    apply elem_of_list_to_set, elem_of_seqZ. lia.
  - rewrite size_list_to_set by apply NoDup_seqZ. rewrite length_seqZ. lia.
Qed.

(** Pruning at round [q] keeps exactly the entries of the ten rounds up to
    [q], unchanged, in all four tables, and touches nothing else; a round id
    within ten of the smallest [int32] empties the tables. *)
Theorem prune_keeps_last_ten q n :
  in_int32 q ->
  let n' := leaveOnlyLast10Entries q n in
  (forall k, roundTriggers n' !! k = if keeps q k then roundTriggers n !! k else None) /\
  (forall k, roundPriceFixes n' !! k = if keeps q k then roundPriceFixes n !! k else None) /\
  (forall k, items (roundPrices n') !! k = if keeps q k then items (roundPrices n) !! k else None) /\
  (forall k, senders (roundPrices n') !! k = if keeps q k then senders (roundPrices n) !! k else None) /\
  (forall k, locked (roundPrices n') !! k = if keeps q k then locked (roundPrices n) !! k else None) /\
  (forall k, items (roundProofs n') !! k = if keeps q k then items (roundProofs n) !! k else None) /\
  (forall k, senders (roundProofs n') !! k = if keeps q k then senders (roundProofs n) !! k else None) /\
  (forall k, locked (roundProofs n') !! k = if keeps q k then locked (roundProofs n) !! k else None) /\
  (size (items (roundPrices n')) <= 10)%nat /\ (size (items (roundProofs n')) <= 10)%nat /\
  RoundID n' = RoundID n /\ config n' = config n.
Proof.
  intros Hq. simpl. split_and!; try (intros k; by apply last10_lookup); try done; by apply last10_size.
Qed.

Lemma prune_keeps_last_ten_witness : (min_int32 <= 100 <= max_int32) /\
  items (roundPrices (leaveOnlyLast10Entries 100
    (mkAggregator (mkConfig 1 "x" 1) ∅ (mkRoundData ∅ {[91 := [1]; 90 := [2]]} ∅) ∅ (mkRoundData ∅ ∅ ∅) 1)))
  !! 91 = Some [1].
Proof.
  split; [int_lia|].
  destruct (prune_keeps_last_ten 100
    (mkAggregator (mkConfig 1 "x" 1) ∅ (mkRoundData ∅ {[91 := [1]; 90 := [2]]} ∅) ∅ (mkRoundData ∅ ∅ ∅) 1)
    ltac:(int_lia)) as (_ & _ & H & _). rewrite H. reflexivity.
Defined.
End Pruning.

(** ** Runs of critical sections *)
Module Sections.
Import Pruning.

Inductive action : Type :=
| LeaderTick (E : AEnv) (r : Raft)
| RoundUpdate (r : Raft) (msg : Message) (m : TriggerMessage)
| TriggerSection (E : AEnv) (r : Raft) (m : TriggerMessage)
| PruneTriggers (q : int32)
| PrunePrices (q : int32)
| PruneFixes (q : int32)
| PruneProofs (q : int32)
| PriceSection (E : AEnv) (r : Raft) (msg : Message)
| PriceTimeout (E : AEnv) (r : Raft) (k : int32) (ts : Time)
| FixSection (E : AEnv) (r : Raft) (msg : Message)
| ProofSection (E : AEnv) (msg : Message)
| ProofTimeout (E : AEnv) (m : ProofMessage).

Definition act (a : action) (n : Aggregator) : Aggregator * list aeffect :=
  match a with
  | LeaderTick E r => fst (LeaderJob E r n)
  | RoundUpdate r msg m => (trigger_round r msg m n, [])
  | TriggerSection E r m => fst (trigger_locked E r m n)
  | PruneTriggers q =>
      (set_roundTriggers (RoundTriggers_leaveOnlyLast10Entries q (roundTriggers n)) n, [])
  | PrunePrices q => (set_roundPrices (RoundPrices_leaveOnlyLast10Entries q (roundPrices n)) n, [])
  | PruneFixes q =>
      (set_roundPriceFixes (RoundPriceFixes_leaveOnlyLast10Entries q (roundPriceFixes n)) n, [])
  | PruneProofs q => (set_roundProofs (RoundProofs_leaveOnlyLast10Entries q (roundProofs n)) n, [])
  | PriceSection E r msg => fst (HandlePriceDataMessage E r n msg)
  | PriceTimeout E r k ts => fst (startPriceCollectionTimeout E r n k ts)
  | FixSection E r msg => fst (HandlePriceFixMessage E r n msg)
  | ProofSection E msg => fst (HandleProofMessage E n msg)
  | ProofTimeout E m => fst (startProofCollectionTimeout E n m)
  end.

(** Round ids are decoded into [int32] fields. *)
Definition action_ok (a : action) : Prop :=
  match a with
  | PruneTriggers q | PrunePrices q | PruneFixes q | PruneProofs q => in_int32 q
  | RoundUpdate _ _ m => in_int32 (tr_RoundID m)
  | _ => True
  end.

Fixpoint acts (l : list action) (n : Aggregator) : Aggregator * list aeffect :=
  match l with
  | [] => (n, [])
  | a :: l =>
      let '(n, out) := act a n in
      let '(n, out') := acts l n in (n, out ++ out')
  end.

Lemma acts_app l1 l2 n :
  acts (l1 ++ l2) n =
    let '(n, out) := acts l1 n in let '(n, out') := acts l2 n in (n, out ++ out').
Proof.
  revert n. induction l1 as [|a l1 IH]; intros n; simpl.
  - by destruct (acts l2 n).
  - destruct (act a n) as [n1 o1]. rewrite IH. destruct (acts l1 n1) as [n2 o2].
    destruct (acts l2 n2) as [n3 o3]. by rewrite app_assoc.
Qed.

Lemma acts_snoc l a n :
  acts (l ++ [a]) n =
    let '(n, out) := acts l n in let '(n, out') := act a n in (n, out ++ out').
Proof.
  rewrite acts_app. destruct (acts l n) as [n1 o1]. simpl. destruct (act a n1) as [n2 o2].
  by rewrite app_nil_r.
Qed.

(** The sections a message takes the node through. *)
Definition sections (E : AEnv) (r : Raft) (msg : Message) : list action :=
  if bool_decide (Type_ msg = Trigger) then
    match json_Unmarshal (T := TriggerMessage) (Data msg) with
    | None => []
    | Some m =>
        (if (tr_RoundID m =? 0) || negb (bool_decide (SentFrom msg = GetLeader r)) then []
         else [RoundUpdate r msg m; TriggerSection E r m])
        ++ [PruneTriggers (tr_RoundID m); PrunePrices (tr_RoundID m);
            PruneFixes (tr_RoundID m); PruneProofs (tr_RoundID m)]
    end
  else if bool_decide (Type_ msg = PriceData) then [PriceSection E r msg]
  else if bool_decide (Type_ msg = PriceFix) then [FixSection E r msg]
  else if bool_decide (Type_ msg = ProofMsg) then [ProofSection E msg]
  else [].

(** A whole handler is the run of its sections without interruption. *)
Lemma HandleCustomMessage_sections E r n msg :
  fst (HandleCustomMessage E r n msg) = acts (sections E r msg) n.
Proof.
  assert (forall h : hout, fst h = let '(n', out) := fst h in (n', out ++ [])) as Hone.
  { intros [[n' out] err]. simpl. by rewrite app_nil_r. }
  unfold HandleCustomMessage, sections.
  destruct (bool_decide (Type_ msg = Trigger)).
  { unfold HandleTriggerMessage. destruct (json_Unmarshal _) as [m|]; [|done].
    destruct (tr_RoundID m =? 0); [done|]. destruct (bool_decide _); [|done]. simpl.
    destruct (trigger_locked _ _ _ _) as [[n1 o1] e1]. simpl. by rewrite app_nil_r. }
  repeat (destruct (bool_decide _); [apply Hone|]). done.
Qed.

(** ** What the effects say *)

(** The price fixes a node publishes, as round and value. *)
Definition fix_of (e : aeffect) : option (Z * Z) :=
  match e with
  | Net m =>
      if bool_decide (Type_ m = PriceFix) then
        pf ← json_Unmarshal (T := PriceFixMessage) (Data m); Some (pf_RoundID pf, pf_PriceData pf)
      else None
  | _ => None
  end.
Definition fixes (out : list aeffect) : list (Z * Z) := omap fix_of out.

(** The values a node signs and publishes with its proof. *)
Definition signed_of (e : aeffect) : option (Z * Z) :=
  match e with
  | Net m =>
      if bool_decide (Type_ m = ProofMsg) then
        pm ← json_Unmarshal (T := ProofMessage) (Data m); Some (pm_RoundID pm, pm_Value pm)
      else None
  | _ => None
  end.
Definition signed (out : list aeffect) : list (Z * Z) := omap signed_of out.

(** The rounds a node triggers. *)
Definition trigger_of (e : aeffect) : option Z :=
  match e with
  | Net m =>
      if bool_decide (Type_ m = Trigger) then
        tr ← json_Unmarshal (T := TriggerMessage) (Data m); Some (tr_RoundID tr)
      else None
  | _ => None
  end.
Definition triggers (out : list aeffect) : list Z := omap trigger_of out.

(** The submissions a node stores. *)
Definition submission_of (e : aeffect) : option SubmissionData :=
  match e with DbPublish _ d => Some d | _ => None end.
Definition submissions (out : list aeffect) : list SubmissionData := omap submission_of out.

(** The prices delivered to a node for round [k], with their senders. *)
Definition price_of (k : Z) (a : action) : option (string * Z) :=
  match a with
  | PriceSection _ _ msg =>
      m ← json_Unmarshal (T := PriceDataMessage) (Data msg);
      if pd_RoundID m =? k then Some (SentFrom msg, pd_PriceData m) else None
  | _ => None
  end.
Definition delivered_prices (k : Z) (l : list action) : list (string * Z) := omap (price_of k) l.

Lemma fixes_app o1 o2 : fixes (o1 ++ o2) = fixes o1 ++ fixes o2.
Proof. apply omap_app. Qed.
Lemma signed_app o1 o2 : signed (o1 ++ o2) = signed o1 ++ signed o2.
Proof. apply omap_app. Qed.
Lemma triggers_app o1 o2 : triggers (o1 ++ o2) = triggers o1 ++ triggers o2.
Proof. apply omap_app. Qed.
Lemma delivered_prices_app k l1 l2 :
  delivered_prices k (l1 ++ l2) = delivered_prices k l1 ++ delivered_prices k l2.
Proof. apply omap_app. Qed.

(** Publishing gives the message, stamped, or nothing. *)
Lemma publish_cases E msg out err :
  publish E msg = (out, err) ->
  out = [] /\ is_Some err \/
  out = [Net (mkMessage (Type_ msg) (SentFrom msg) (Data msg) (e_now (a_raft E)))] /\ err = None.
Proof.
  unfold publish, PublishMessage. destruct (e_publish (a_raft E)); intros; simplify_eq/=; naive_solver.
Qed.

Lemma fixes_PriceFix E r k v ts out err :
  PublishPriceFixMessage E r k v ts = (out, err) -> fixes out = [] \/ fixes out = [(k, v)].
Proof.
  intros [[-> _]|[-> _]]%publish_cases; [by left|by right].
Qed.
Lemma signed_Proof E r k v p ts out err :
  PublishProofMessage E r k v p ts = (out, err) -> signed out = [] \/ signed out = [(k, v)].
Proof.
  intros [[-> _]|[-> _]]%publish_cases; [by left|by right].
Qed.
Lemma triggers_Trigger E r k ts out err :
  PublishTriggerMessage E r k ts = (out, err) -> triggers out = [] \/ triggers out = [k].
Proof.
  intros [[-> _]|[-> _]]%publish_cases; [by left|by right].
Qed.

End Sections.

(** ** Collected data: distinct senders, each with what it sent *)
Module Collected.
Import Pruning Sections.

(** The contributions collected for round [k]. *)
Definition contributions {A} (rd : RoundData A) (k : Z) : list (string * A) :=
  zip (slice (senders rd) k) (slice (items rd) k).

(** Prices or proofs stay aligned with their senders, which are distinct, and
    each contribution is one that was delivered. *)
Record rd_ok {A} (delivered : Z -> list (string * A)) (rd : RoundData A) : Prop := {
  rd_len k : length (slice (senders rd) k) = length (slice (items rd) k);
  rd_nodup k : NoDup (slice (senders rd) k);
  rd_from k c : c ∈ contributions rd k -> c ∈ delivered k
}.

Lemma slice_insert_eq {A} (m : gmap Z (list A)) k v : slice (<[k := v]> m) k = v.
Proof. unfold slice. by rewrite lookup_insert_eq. Qed.
Lemma slice_insert_ne {A} (m : gmap Z (list A)) k k' v :
  k <> k' -> slice (<[k := v]> m) k' = slice m k'.
Proof. intros. unfold slice. by rewrite lookup_insert_ne. Qed.

Section rd.
Context {A : Type}.
Implicit Types (rd : RoundData A) (d : Z -> list (string * A)).

Lemma rd_ok_empty d : rd_ok d (mkRoundData ∅ ∅ ∅).
Proof.
  constructor; intros k; unfold contributions, slice; simpl; rewrite !lookup_empty; simpl.
  - done.
  - constructor.
  - intros c H. by apply not_elem_of_nil in H.
Qed.

Lemma rd_ok_mono d d' rd : (forall k, d k ⊆ d' k) -> rd_ok d rd -> rd_ok d' rd.
Proof. intros Hd [H1 H2 H3]. constructor; [done|done|]. intros k c Hc. by apply Hd, H3. Qed.

Lemma rd_ok_lock d rd k : rd_ok d rd -> rd_ok d (lock rd k).
Proof. intros []. by constructor. Qed.

Lemma rd_ok_prune d rd q :
  in_int32 q -> rd_ok d rd ->
  rd_ok d (mkRoundData (last10 q (senders rd)) (last10 q (items rd)) (last10 q (locked rd))).
Proof.
  intros Hq [H1 H2 H3]. constructor; intros k; unfold contributions; simpl;
    rewrite ?last10_slice by done; destruct (keeps q k); auto; try constructor.
  intros c Hc. by apply not_elem_of_nil in Hc.
Qed.

(** In a well-formed table, storing appends to round [k] and to no other. *)
Lemma store_slices d rd k x s :
  rd_ok d rd ->
  (forall j, slice (senders (store rd k x s)) j =
     if bool_decide (j = k) then slice (senders rd) k ++ [s] else slice (senders rd) j) /\
  (forall j, slice (items (store rd k x s)) j =
     if bool_decide (j = k) then slice (items rd) k ++ [x] else slice (items rd) j) /\
  locked (store rd k x s) = locked rd.
Proof.
  intros Hok. pose proof (rd_len _ _ Hok k) as Hlen. unfold store.
  destruct (items rd !! k) as [xs|] eqn:Hk; simpl; split_and!; try done; intros j;
    case_bool_decide as Hj; subst;
    rewrite ?slice_insert_eq; rewrite ?slice_insert_ne by done; try done.
  - unfold slice. by rewrite Hk.
  - unfold slice in Hlen at 2. rewrite Hk in Hlen. simpl in Hlen.
    apply nil_length_inv in Hlen. by rewrite Hlen.
  - unfold slice. by rewrite Hk.
Qed.

Lemma rd_ok_store d rd k x s :
  rd_ok d rd -> s ∉ slice (senders rd) k -> (s, x) ∈ d k -> rd_ok d (store rd k x s).
Proof.
  intros Hok Hs Hd. destruct (store_slices d rd k x s Hok) as (Hsnd & Hitm & _).
  destruct Hok as [H1 H2 H3]. constructor; intros j; unfold contributions; rewrite ?Hsnd, ?Hitm;
    case_bool_decide as Hj; subst; auto.
  - rewrite !length_app. simpl. by rewrite H1.
  - apply NoDup_app. split_and!; [done| |apply NoDup_singleton]. intros y Hy ->%list_elem_of_singleton. done.
  - intros c. rewrite zip_with_app by done. intros [Hc|Hc]%elem_of_app; [by apply H3|].
    simpl in Hc. apply list_elem_of_singleton in Hc. by subst.
Qed.

Lemma is_locked_lock rd k j :
  is_locked (locked (lock rd k)) j = bool_decide (j = k) || is_locked (locked rd) j.
Proof.
  unfold is_locked, lock. simpl. case_bool_decide; subst.
  - by rewrite lookup_insert_eq.
  - by rewrite lookup_insert_ne.
Qed.
End rd.

(** ** The price table, one section at a time *)
Definition leads (a : action) : Prop :=
  match a with PriceSection _ r _ | PriceTimeout _ r _ _ => GetRole r = Leader | _ => False end.
Definition peers (a : action) : Z :=
  match a with
  | PriceSection E _ _ | PriceTimeout E _ _ _ => SubscribersCount (a_raft E) | _ => 0
  end.

(** What closing round [k] publishes: the median of the prices that are not
    negative, by a leader that holds at least half of the prices. *)
Definition closes (a : action) (rd : RoundPrices) (k : Z) (fx : list (Z * Z)) : Prop :=
  fx = [] \/ exists v, fx = [(k, v)] /\ leads a /\
    Z.quot (peers a + 1) 2 <= Z.of_nat (length (slice (items rd) k)) /\
    fst (GetIntMed (FilterNegative (slice (items rd) k))) = Ok v.

Inductive pstep (a : action) (rd : RoundPrices) : RoundPrices -> list (Z * Z) -> Prop :=
| ps_same : pstep a rd rd []
| ps_prune q : a = PrunePrices q -> pstep a rd (RoundPrices_leaveOnlyLast10Entries q rd) []
| ps_store k s p :
    price_of k a = Some (s, p) -> is_locked (locked rd) k = false ->
    s ∉ slice (senders rd) k -> pstep a rd (store rd k p s) []
| ps_full k s p fx :
    price_of k a = Some (s, p) -> is_locked (locked rd) k = false ->
    s ∉ slice (senders rd) k -> closes a (store rd k p s) k fx ->
    pstep a rd (lock (store rd k p s) k) fx
| ps_timeout k fx :
    is_locked (locked rd) k = false -> closes a rd k fx -> pstep a rd (lock rd k) fx.

Lemma processCollectedPrices_closes E r n k ts n' out err a :
  processCollectedPrices E r n k ts = (n', out, err) ->
  (GetRole r = Leader -> leads a) ->
  Z.quot (peers a + 1) 2 <= Z.of_nat (length (slice (items (roundPrices n)) k)) ->
  n' = set_roundPrices (lock (roundPrices n) k) n /\ closes a (roundPrices n) k (fixes out).
Proof.
  unfold processCollectedPrices. intros H Hl Hq.
  case_bool_decide as Hr; simplify_eq/=; [|by split; [|left]].
  case_bool_decide; [simplify_eq/=; by split; [|left]|].
  rewrite GetInt64Med_GetIntMed in H. destruct (fst (GetIntMed _)) as [v|] eqn:Hm;
    [|simplify_eq/=; by split; [|left]].
  destruct (PublishPriceFixMessage _ _ _ _ _) as [o e] eqn:Hp. simplify_eq/=. split; [done|].
  apply fixes_PriceFix in Hp as [->| ->]; [by left|right]. exists v. by split_and!; [|apply Hl| |].
Qed.

Lemma fixes_publish E m out err :
  publish E m = (out, err) -> Type_ m <> PriceFix -> fixes out = [].
Proof.
  intros [[-> _]|[-> _]]%publish_cases Hne; [done|]. unfold fixes, fix_of. simpl.
  by rewrite bool_decide_false.
Qed.

Lemma fixes_proofs E n m n' out err :
  processCollectedProofs E n m = (n', out, err) ->
  fixes out = [] /\ signed out = [] /\ roundPrices n' = roundPrices n
  /\ roundPriceFixes n' = roundPriceFixes n.
Proof.
  unfold processCollectedProofs, PublishGlobalAggregateAndProof. intros H.
  destruct (_ || _), (a_db E); by simplify_eq/=.
Qed.

Lemma quot_le_self x : 0 <= x -> Z.quot x 2 <= x.
Proof. intros. apply Z.quot_le_upper_bound; lia. Qed.

(** Split a handler's equation [H] on everything it tests. *)
Ltac agg_cases H :=
  repeat (match type of H with
    | (processCollectedProofs ?E ?n ?m).1 = _ =>
        destruct (processCollectedProofs E n m) as [[? ?] ?] eqn:?
    | (processCollectedPrices ?E ?r ?n ?k ?t).1 = _ =>
        destruct (processCollectedPrices E r n k t) as [[? ?] ?] eqn:?
    | context [match ?x with _ => _ end] => destruct x eqn:?
    end; simplify_eq/=); simplify_eq/=.

Definition writes_prices (a : action) : bool :=
  match a with PriceSection _ _ _ | PriceTimeout _ _ _ _ | PrunePrices _ => true | _ => false end.

Lemma act_not_prices a n n' out :
  writes_prices a = false -> act a n = (n', out) ->
  roundPrices n' = roundPrices n /\ fixes out = [].
Proof.
  destruct a as [E r|r msg m|E r m|q|q|q|q|E r msg|E r k ts|E r msg|E msg|E m]; try done;
    intros _ H; cbn [act] in H;
    unfold LeaderJob, trigger_round, trigger_locked, HandlePriceFixMessage, HandleProofMessage,
      startProofCollectionTimeout, PublishTriggerMessage, PublishPriceDataMessage,
      PublishProofMessage in H; agg_cases H;
    try match goal with
    | Hp : publish _ _ = _ |- _ => apply fixes_publish in Hp; [|done]
    | Hp : processCollectedProofs _ _ _ = _ |- _ => apply fixes_proofs in Hp as (? & _ & ? & _)
    end; simpl in *; split; congruence.
Qed.

Lemma act_pstep a n n' out :
  act a n = (n', out) -> pstep a (roundPrices n) (roundPrices n') (fixes out).
Proof.
  intros H. destruct (writes_prices a) eqn:Hw.
  2:{ destruct (act_not_prices _ _ _ _ Hw H) as [-> ->]. constructor. }
  destruct a as [| | | |q| | |E r msg|E r k ts| | |]; try done; cbn [act] in H; clear Hw.
  - simplify_eq/=. by apply ps_prune.
  - unfold HandlePriceDataMessage in H.
    destruct (json_Unmarshal _) as [m|] eqn:Hm; [|simplify_eq/=; constructor].
    destruct (pd_RoundID m =? 0); [simplify_eq/=; constructor|].
    destruct (is_locked _ _) eqn:Hlk; [simplify_eq/=; constructor|].
    destruct (isReplay _ _ _) eqn:Hrep; [simplify_eq/=; constructor|]. unfold isReplay in Hrep. breflect.
    assert (price_of (pd_RoundID m) (PriceSection E r msg) = Some (SentFrom msg, pd_PriceData m)) as Hpr.
    { simpl. rewrite Hm. simpl. by rewrite Z.eqb_refl. }
    destruct (_ =? SubscribersCount _ + 1) eqn:Hfull; breflect.
    + destruct (processCollectedPrices _ _ _ _ _) as [[n1 o1] e1] eqn:Hp. simplify_eq/=.
      eapply (processCollectedPrices_closes _ _ _ _ _ _ _ _ (PriceSection E r msg)) in Hp as [-> Hc].
      * simpl in *. by eapply ps_full.
      * done.
      * simpl. etrans; [|apply Z.eq_le_incl; symmetry; exact Hfull].
        apply quot_le_self. unfold SubscribersCount. lia.
    + destruct (_ =? 1); simplify_eq/=; by eapply ps_store.
  - unfold startPriceCollectionTimeout in H. destruct (_ && _) eqn:Hb; breflect;
      [|simplify_eq/=; constructor].
    destruct (processCollectedPrices _ _ _ _ _) as [[n1 o1] e1] eqn:Hp. simplify_eq/=.
    eapply (processCollectedPrices_closes _ _ _ _ _ _ _ _ (PriceTimeout E r k ts)) in Hp as [-> Hc];
      [|done|done]. by apply ps_timeout.
Qed.

(** The table stays well formed whatever is delivered. *)
Lemma pstep_ok a d rd rd' fx :
  pstep a rd rd' fx -> action_ok a -> rd_ok d rd ->
  (forall k c, price_of k a = Some c -> c ∈ d k) -> rd_ok d rd'.
Proof.
  intros Hp Ha Hok Hd. destruct Hp as [|q ->|k s p Hk _ Hs|k s p fx Hk _ Hs _|k fx _ _]; [done|..].
  - by apply rd_ok_prune.
  - apply rd_ok_store; auto.
  - apply rd_ok_lock, rd_ok_store; auto.
  - by apply rd_ok_lock.
Qed.

Lemma acts_rd_ok l : forall n n' out,
  Forall action_ok l -> roundPrices n = mkRoundData ∅ ∅ ∅ -> acts l n = (n', out) ->
  rd_ok (fun k => delivered_prices k l) (roundPrices n').
Proof.
  induction l as [|a l IH] using rev_ind; intros n n' out Hall Hn H.
  - simplify_eq/=. rewrite Hn. apply rd_ok_empty.
  - apply Forall_app in Hall as [Hall Ha]. rewrite acts_snoc in H.
    destruct (acts l n) as [n1 o1] eqn:H1. destruct (act a n1) as [n2 o2] eqn:H2. simplify_eq.
    apply act_pstep in H2. eapply pstep_ok; [exact H2|exact (Forall_inv Ha)|..].
    + eapply rd_ok_mono; [|by eapply IH]. intros k c. rewrite delivered_prices_app. set_solver.
    + intros k c Hc. rewrite delivered_prices_app. unfold delivered_prices at 2. simpl. rewrite Hc. set_solver.
Qed.

(** What a published fix is made of. *)
Lemma pstep_fix a d rd rd' k v fx :
  pstep a rd rd' fx -> (k, v) ∈ fx -> action_ok a -> rd_ok d rd ->
  (forall k c, price_of k a = Some c -> c ∈ d k) ->
  exists c : list (string * Z),
    NoDup c.*1 /\ c ⊆ d k /\ leads a /\
    Z.quot (peers a + 1) 2 <= Z.of_nat (length c) /\
    fst (GetIntMed (FilterNegative c.*2)) = Ok v.
Proof.
  intros Hp Hin Ha Hok Hd.
  assert (exists rd1, rd_ok d rd1 /\ closes a rd1 k fx) as (rd1 & [Hl Hn Hf] & Hc).
  { destruct Hp as [| |?|j s p fx Hk _ Hs Hc|j fx _ Hc]; try (by apply not_elem_of_nil in Hin).
    - assert (k = j) as ->.
      { destruct Hc as [->|(w & -> & _)]; [by apply not_elem_of_nil in Hin|].
        apply list_elem_of_singleton in Hin. by simplify_eq. }
      exists (store rd j p s). split; [apply rd_ok_store; auto|done].
    - assert (k = j) as ->.
      { destruct Hc as [->|(w & -> & _)]; [by apply not_elem_of_nil in Hin|].
        apply list_elem_of_singleton in Hin. by simplify_eq. }
      eauto. }
  destruct Hc as [->|(w & -> & Hlead & Hq & Hm)]; [by apply not_elem_of_nil in Hin|].
  apply list_elem_of_singleton in Hin. simplify_eq. exists (contributions rd1 k).
  pose proof (Hl k). unfold contributions in *.
  rewrite fst_zip, snd_zip, length_zip_with by lia. split_and!; auto.
  - intros c Hc. by apply Hf.
  - by rewrite H, Nat.min_id.
Qed.

(** ** The median of collected prices and the honest majority *)
Lemma count_honest (c : list (string * Z)) (honest : string -> bool) lo hi :
  0 <= lo -> (forall s p, (s, p) ∈ c -> honest s = true -> lo <= p <= hi) ->
  (length (filter (fun s => honest s = true) c.*1)
     <= count (between lo hi) (FilterNegative c.*2))%nat.
Proof.
  intros Hlo. induction c as [|[s p] c IH]; intros Hin; [done|].
  assert (length (filter (fun s => honest s = true) c.*1)
     <= count (between lo hi) (FilterNegative c.*2))%nat as Hc.
  { apply IH. intros s' p' H'. apply Hin. by right. }
  unfold FilterNegative, count in *. rewrite !fmap_cons, !filter_cons. cbn [fst snd].
  destruct (decide (honest s = true)) as [Hs|Hs].
  - assert (lo <= p <= hi) by (apply (Hin s); [by left|done]).
    rewrite decide_True by lia. rewrite filter_cons.
    rewrite decide_True by (unfold between; rewrite !(proj2 (Z.leb_le _ _)) by lia; done).
    cbn [length]. lia.
  - case_decide; [|done]. rewrite filter_cons. case_decide; cbn [length]; lia.
Qed.

Lemma median_honest (c : list (string * Z)) honest lo hi v :
  fst (GetIntMed (FilterNegative c.*2)) = Ok v -> 0 <= lo ->
  (forall s p, (s, p) ∈ c -> honest s = true -> lo <= p <= hi) ->
  hi < 2 ^ 62 ->
  (length c < 2 * length (filter (fun s => honest s = true) c.*1))%nat -> lo <= v <= hi.
Proof.
  intros Hv Hlo Hin Hhi Hmaj. pose proof (count_honest c honest lo hi Hlo Hin) as Hc.
  destruct (GetIntMed_majority (FilterNegative c.*2) lo hi) as (m & Hm & Hr).
  - lia.
  - done.
  - assert (length (FilterNegative c.*2) <= length c)%nat; [|lia].
    unfold FilterNegative. rewrite <- (length_fmap snd c). apply length_filter.
  - congruence.
Qed.

(** C3: in any run of a new aggregator, a price fix is published only by a
    leader, holds at least half of the peers' prices, one from each sender and
    each one delivered for that round, and is the median of the ones that are
    not negative.  So if most of those senders are honest and sent prices
    between [lo] and [hi], with [0 <= lo] and [hi < 2 ^ 62], the fix is between
    them, whatever the others sent. *)
Theorem price_fix_robust topic cfg n0 l n1 out a n2 out2 k v :
  NewAggregator topic cfg = Ok n0 -> Forall action_ok (l ++ [a]) ->
  acts l n0 = (n1, out) -> act a n1 = (n2, out2) -> (k, v) ∈ fixes out2 ->
  exists c : list (string * Z),
    NoDup c.*1 /\ c ⊆ delivered_prices k (l ++ [a]) /\ leads a /\
    Z.quot (peers a + 1) 2 <= Z.of_nat (length c) /\
    fst (GetIntMed (FilterNegative c.*2)) = Ok v /\
    forall honest lo hi, 0 <= lo -> hi < 2 ^ 62 ->
      (forall s p, (s, p) ∈ delivered_prices k (l ++ [a]) -> honest s = true -> lo <= p <= hi) ->
      (length c < 2 * length (filter (fun s => honest s = true) c.*1))%nat -> lo <= v <= hi.
Proof.
  intros Hn0 Hall H1 H2 Hin. apply Forall_app in Hall as [Hl Ha].
  assert (roundPrices n0 = mkRoundData ∅ ∅ ∅) as Hempty.
  { unfold NewAggregator in Hn0. by case_bool_decide; simplify_eq. }
  destruct (pstep_fix a (fun k => delivered_prices k (l ++ [a])) _ _ k v _ (act_pstep _ _ _ _ H2) Hin)
    as (c & Hnd & Hsub & Hlead & Hq & Hm).
  - exact (Forall_inv Ha).
  - eapply rd_ok_mono; [|exact (acts_rd_ok l n0 n1 out Hl Hempty H1)]. intros j x. rewrite delivered_prices_app. set_solver.
  - intros j x Hx. rewrite delivered_prices_app. unfold delivered_prices at 2. simpl. rewrite Hx. set_solver.
  - exists c. split_and!; [done..|]. intros honest lo hi Hlo Hhi Hh Hmaj.
    eapply median_honest; [done|done| |done|done]. intros s p Hsp. apply Hh. by apply Hsub.
Qed.

(** Three prices reach a leader that has two peers. *)
Definition w_env : AEnv := mkAEnv (mkEnv 0 0 2 None) ∅ (fun v _ _ => Ok [v]) None.
Definition w_raft : Raft := set_Role Leader (NewRaftNode "L" second).
Definition w_node : Aggregator :=
  mkAggregator (mkConfig 1 "BTC-USDT" 400) ∅ (mkRoundData ∅ ∅ ∅) ∅ (mkRoundData ∅ ∅ ∅) 1.
Definition w_price (s : string) (p : Z) : action :=
  PriceSection w_env w_raft (mkMessage PriceData s (json_Marshal (mkPriceData 5 p 7)) 7).
Definition w_run : list action := [w_price "a" 100; w_price "b" 110].

Lemma price_fix_robust_witness :
  exists c : list (string * Z), c ⊆ delivered_prices 5 (w_run ++ [w_price "x" 9999]) /\
    fst (GetIntMed (FilterNegative c.*2)) = Ok 110 /\
    ((length c < 2 * length (filter (fun s => bool_decide (s <> "x") = true) c.*1))%nat -> 100 <= 110 <= 110).
Proof.
  destruct (price_fix_robust "t" (mkConfig 1 "BTC-USDT" 400) w_node w_run (fst (acts w_run w_node))
    (snd (acts w_run w_node)) (w_price "x" 9999)
    (fst (act (w_price "x" 9999) (fst (acts w_run w_node))))
    (snd (act (w_price "x" 9999) (fst (acts w_run w_node)))) 5 110)
    as (c & Hnd & Hsub & _ & _ & Hm & Hr).
  - reflexivity.
  - repeat constructor.
  - apply surjective_pairing.
  - apply surjective_pairing.
  - apply (bool_decide_eq_true_1 (_ ∈ _)). vm_compute. reflexivity.
  - exists c. split; [done|]. split; [done|]. apply (Hr (fun s => bool_decide (s <> "x"))); [lia|lia|].
    intros s p Hin Hs. vm_compute in Hin. repeat (apply elem_of_cons in Hin as [Hin|Hin]; [simplify_eq|]); try lia; try done.
    by apply not_elem_of_nil in Hin.
Defined.

End Collected.

(** ** One fix and one signature per round *)
Module Once.
Import Pruning Sections Collected.

Definition of_round (k : Z) (l : list (Z * Z)) : list (Z * Z) := filter (fun kv => kv.1 = k) l.

Lemma of_round_app k l1 l2 : of_round k (l1 ++ l2) = of_round k l1 ++ of_round k l2.
Proof. apply filter_app. Qed.

(** The section does not prune round [k] away. *)
Definition retains (k : Z) (a : action) : Prop :=
  match a with
  | PrunePrices q | PruneFixes q => in_int32 q /\ keeps q k = true
  | PruneTriggers q | PruneProofs q => in_int32 q
  | _ => True
  end.

(** [done_] holds in the state for round [k] only once, and nothing of the
    round is emitted after that. *)
Definition emits_once (k : Z) (done_ : Aggregator -> bool) (emitted : list aeffect -> list (Z * Z))
    : Prop :=
  forall a n n' out, retains k a -> act a n = (n', out) ->
    (done_ n = true -> done_ n' = true /\ of_round k (emitted out) = []) /\
    (of_round k (emitted out) = [] \/
     done_ n' = true /\ (length (of_round k (emitted out)) <= 1)%nat).

Lemma emits_once_acts k done_ emitted :
  emits_once k done_ emitted -> (forall o1 o2, emitted (o1 ++ o2) = emitted o1 ++ emitted o2) ->
  emitted [] = [] ->
  forall l n n' out, Forall (retains k) l -> acts l n = (n', out) ->
    (done_ n = true -> of_round k (emitted out) = []) /\
    (length (of_round k (emitted out)) <= 1)%nat.
Proof.
  intros Hstep Happ Hnil l. induction l as [|a l IH]; intros n n' out Hall H.
  - simplify_eq/=. rewrite Hnil. by split; [|simpl; lia].
  - apply Forall_cons in Hall as [Ha Hall]. simpl in H.
    destruct (act a n) as [n1 o1] eqn:H1. destruct (acts l n1) as [n2 o2] eqn:H2. simplify_eq.
    destruct (Hstep a n n1 o1 Ha H1) as [Hd He]. destruct (IH n1 n' o2 Hall H2) as [Hd' Hc'].
    rewrite Happ, of_round_app. split.
    + intros Hn. destruct (Hd Hn) as [Hn1 ->]. by rewrite Hd'.
    + destruct He as [->|[Hn1 Hc]]; [done|]. rewrite Hd' by done. rewrite app_nil_r. lia.
Qed.

Lemma of_round_single k j v :
  (of_round k [(j, v)] = [] \/ j = k) /\ (length (of_round k [(j, v)]) <= 1)%nat.
Proof.
  unfold of_round. rewrite filter_cons. case_decide; simpl; (split; [|lia]); [by right|by left].
Qed.

Lemma closes_of_round a rd j fx k :
  closes a rd j fx -> (of_round k fx = [] \/ j = k) /\ (length (of_round k fx) <= 1)%nat.
Proof.
  intros [->|(v & -> & _)]; [split; [by left|simpl; lia]|]. apply of_round_single.
Qed.

Lemma store_locked rd k (p : Z) s : locked (store rd k p s) = locked rd.
Proof. unfold store. by destruct (items rd !! k). Qed.

Lemma fixes_once k :
  emits_once k (fun n => is_locked (locked (roundPrices n)) k) fixes.
Proof.
  intros a n n' out Hr H. apply act_pstep in H.
  destruct H as [|q ->|j s p Hj Hlk Hs|j s p fx Hj Hlk Hs Hc|j fx Hlk Hc].
  - split; [done|by left].
  - destruct Hr as [Hq Hk]. split; [|by left]. simpl. rewrite last10_is_locked by done. by rewrite Hk.
  - split; [|by left]. by rewrite store_locked.
  - rewrite is_locked_lock, store_locked. destruct (closes_of_round _ _ _ _ k Hc) as [[He| ->] ?].
    + rewrite He. split; [|by left]. intros ->. by rewrite orb_true_r.
    + rewrite Hlk, bool_decide_true by done. split; [done|by right].
  - rewrite is_locked_lock. destruct (closes_of_round _ _ _ _ k Hc) as [[He| ->] ?].
    + rewrite He. split; [|by left]. intros ->. by rewrite orb_true_r.
    + rewrite Hlk, bool_decide_true by done. split; [done|by right].
Qed.

Lemma signed_publish E m out err :
  publish E m = (out, err) -> Type_ m <> ProofMsg -> signed out = [].
Proof.
  intros [[-> _]|[-> _]]%publish_cases Hne; [done|]. unfold signed, signed_of. simpl.
  by rewrite bool_decide_false.
Qed.

Lemma signed_prices E r n k ts n' out err :
  processCollectedPrices E r n k ts = (n', out, err) ->
  signed out = [] /\ roundPriceFixes n' = roundPriceFixes n.
Proof.
  unfold processCollectedPrices, PublishPriceFixMessage. intros H. agg_cases H; try done.
  match goal with Hp : publish _ _ = _ |- _ => apply signed_publish in Hp; [|done] end. done.
Qed.

(** Only the price-fix section signs, and only it and its pruning write the
    table of price fixes. *)
Lemma act_not_fix a n n' out :
  (match a with FixSection _ _ _ | PruneFixes _ => false | _ => true end) = true ->
  act a n = (n', out) -> roundPriceFixes n' = roundPriceFixes n /\ signed out = [].
Proof.
  destruct a as [E r|r msg m|E r m|q|q|q|q|E r msg|E r k ts|E r msg|E msg|E m]; try done;
    intros _ H; cbn [act] in H;
    unfold LeaderJob, trigger_round, trigger_locked, HandlePriceDataMessage, HandleProofMessage,
      startProofCollectionTimeout, startPriceCollectionTimeout,
      PublishTriggerMessage, PublishPriceDataMessage in H; agg_cases H;
    try match goal with
    | Hp : publish _ _ = _ |- _ => apply signed_publish in Hp; [|done]
    | Hp : processCollectedProofs _ _ _ = _ |- _ => apply fixes_proofs in Hp as (_ & ? & _ & ?)
    | Hp : processCollectedPrices _ _ _ _ _ = _ |- _ => apply signed_prices in Hp as (? & ?)
    end; simpl in *; split; congruence.
Qed.

Lemma signed_once k : emits_once k (fun n => is_locked (roundPriceFixes n) k) signed.
Proof.
  intros a n n' out Hr H.
  destruct (match a with FixSection _ _ _ | PruneFixes _ => false | _ => true end) eqn:Ha.
  { destruct (act_not_fix _ _ _ _ Ha H) as [-> ->]. split; [done|by left]. }
  destruct a as [| | | | |q| | | |E r msg| |]; try done; cbn [act] in H.
  { destruct Hr as [Hq Hk]. simplify_eq/=. split; [|by left].
    unfold RoundPriceFixes_leaveOnlyLast10Entries. rewrite last10_is_locked by done. by rewrite Hk. }
  unfold HandlePriceFixMessage in H.
  destruct (json_Unmarshal _) as [m|]; [|simplify_eq/=; split; [done|by left]].
  destruct (negb _); [simplify_eq/=; split; [done|by left]|].
  destruct (is_locked _ (pf_RoundID m)) eqn:Hlk; [simplify_eq/=; split; [done|by left]|].
  assert (forall j, is_locked (<[pf_RoundID m := true]> (roundPriceFixes n)) j
    = bool_decide (j = pf_RoundID m) || is_locked (roundPriceFixes n) j) as Hins.
  { intros j. unfold is_locked. case_bool_decide; subst; [by rewrite lookup_insert_eq|].
    by rewrite lookup_insert_ne. }
  assert (forall o, signed o = [] \/ (exists v, signed o = [(pf_RoundID m, v)]) ->
    (is_locked (roundPriceFixes n) k = true ->
     is_locked (<[pf_RoundID m := true]> (roundPriceFixes n)) k = true /\ of_round k (signed o) = []) /\
    (of_round k (signed o) = [] \/ is_locked (<[pf_RoundID m := true]> (roundPriceFixes n)) k = true
       /\ (length (of_round k (signed o)) <= 1)%nat)) as Hfin.
  { intros o Ho. rewrite Hins.
    assert ((of_round k (signed o) = [] \/ pf_RoundID m = k) /\ (length (of_round k (signed o)) <= 1)%nat)
      as [[He|<-] Hc].
    { destruct Ho as [->|[v ->]]; [split; [by left|simpl; lia]|apply of_round_single]. }
    - rewrite He. split; [|by left]. intros ->. by rewrite orb_true_r.
    - rewrite Hlk, bool_decide_true by done. split; [done|by right]. }
  destruct (a_sign _ _ _ _); [|simplify_eq/=; apply (Hfin []); by left].
  destruct (PublishProofMessage _ _ _ _ _ _) as [o e] eqn:Hp. simplify_eq/=. apply Hfin.
  apply signed_Proof in Hp as [->| ->]; eauto.
Qed.

(** C5: as long as round [k] is not pruned, a node publishes at most one price
    fix for it and signs at most one value for it, from any state, in any
    interleaving and whatever the peers send. *)
Theorem one_fix_one_signature k l n n' out :
  Forall (retains k) l -> acts l n = (n', out) ->
  (length (of_round k (fixes out)) <= 1)%nat /\ (length (of_round k (signed out)) <= 1)%nat.
Proof.
  intros Hall H. split.
  - eapply emits_once_acts; [apply fixes_once|apply fixes_app|done..].
  - eapply emits_once_acts; [apply signed_once|apply signed_app|done..].
Qed.


(** ** Round ids *)

(** Every state of the run is below the largest [int32]. *)
Fixpoint below_max (l : list action) (n : Aggregator) : Prop :=
  RoundID n < max_int32 /\
  match l with [] => True | a :: l => below_max l (fst (act a n)) end.

Lemma triggers_publish E m out err :
  publish E m = (out, err) -> Type_ m <> Trigger -> triggers out = [].
Proof.
  intros [[-> _]|[-> _]]%publish_cases Hne; [done|]. unfold triggers, trigger_of. simpl.
  by rewrite bool_decide_false.
Qed.

Lemma triggers_prices E r n k ts n' out err :
  processCollectedPrices E r n k ts = (n', out, err) -> triggers out = [] /\ RoundID n' = RoundID n.
Proof.
  unfold processCollectedPrices, PublishPriceFixMessage. intros H. agg_cases H; try done.
  match goal with Hp : publish _ _ = _ |- _ => apply triggers_publish in Hp; [|done] end. done.
Qed.

Lemma triggers_proofs E n m n' out err :
  processCollectedProofs E n m = (n', out, err) -> triggers out = [] /\ RoundID n' = RoundID n.
Proof.
  unfold processCollectedProofs, PublishGlobalAggregateAndProof. intros H.
  destruct (_ || _), (a_db E); by simplify_eq/=.
Qed.

Lemma act_round a n n' out :
  act a n = (n', out) -> 0 <= RoundID n < max_int32 ->
  RoundID n <= RoundID n' /\ triggers out = [] \/
  RoundID n' = RoundID n + 1 /\ triggers out = [RoundID n'].
Proof.
  intros H Hr.
  destruct a as [E r|r msg m|E r m|q|q|q|q|E r msg|E r k ts|E r msg|E msg|E m]; cbn [act] in H.
  { unfold LeaderJob in H. destruct (PublishTriggerMessage _ _ _ _) as [o e] eqn:Hp. simplify_eq/=.
    rewrite wrap32_id by int_lia. rewrite wrap32_id in Hp by int_lia.
    apply triggers_Trigger in Hp as [->| ->]; [left|right]; split; lia || done. }
  all: left; unfold trigger_round, trigger_locked, HandlePriceDataMessage, HandleProofMessage,
      HandlePriceFixMessage, startProofCollectionTimeout, startPriceCollectionTimeout,
      PublishProofMessage, PublishPriceDataMessage in H; agg_cases H;
    try match goal with
    | Hp : publish _ _ = _ |- _ => apply triggers_publish in Hp; [|done]
    | Hp : processCollectedProofs _ _ _ = _ |- _ => apply triggers_proofs in Hp as (? & ?)
    | Hp : processCollectedPrices _ _ _ _ _ = _ |- _ => apply triggers_prices in Hp as (? & ?)
    end; simpl in *; split; congruence || lia.
Qed.

(** While the round id is below the largest [int32], the rounds a node
    triggers strictly increase over its whole run, whichever peers lead in
    between, and stay within the round ids it passed. *)
Theorem triggered_rounds_increase l : forall n n' out,
  0 <= RoundID n -> below_max l n -> acts l n = (n', out) ->
  StronglySorted Z.lt (triggers out) /\
  Forall (fun k => RoundID n < k <= RoundID n') (triggers out) /\ RoundID n <= RoundID n'.
Proof.
  induction l as [|a l IH]; intros n n' out H0 Hb H.
  - simplify_eq/=. split_and!; [constructor..|lia].
  - simpl in H, Hb. destruct Hb as [Hmax Hb].
    destruct (act a n) as [n1 o1] eqn:H1. destruct (acts l n1) as [n2 o2] eqn:H2. simplify_eq.
    destruct (act_round _ _ _ _ H1 ltac:(lia)) as [[Hle Ht]|[Hr Ht]];
      destruct (IH n1 n' o2 ltac:(lia) Hb H2) as (Hs & Hf & Hle'); rewrite triggers_app, Ht; simpl.
    + split_and!; [done| |lia]. eapply Forall_impl; [done|]. simpl. lia.
    + split_and!; [| |lia].
      * constructor; [done|]. eapply Forall_impl; [done|]. simpl. lia.
      * constructor; [lia|]. eapply Forall_impl; [done|]. simpl. lia.
Qed.

Lemma one_fix_one_signature_witness :
  Forall (retains 5) w_run /\ (length (of_round 5 (fixes (snd (acts w_run w_node)))) <= 1)%nat.
Proof.
  assert (Forall (retains 5) w_run) as H by (repeat constructor). split; [done|].
  apply (one_fix_one_signature 5 w_run w_node (fst (acts w_run w_node)) (snd (acts w_run w_node)));
    [done|apply surjective_pairing].
Defined.

Definition w_ticks : list action := [LeaderTick w_env w_raft; LeaderTick w_env w_raft].

Lemma triggered_rounds_increase_witness : StronglySorted Z.lt (triggers (snd (acts w_ticks w_node))).
Proof.
  apply (triggered_rounds_increase w_ticks w_node (fst (acts w_ticks w_node)) (snd (acts w_ticks w_node))).
  - by vm_compute.
  - repeat split; by vm_compute.
  - apply surjective_pairing.
Defined.

End Once.
