(* ===== verification/RoundsLive.v ===== *)
(** * RoundsLive: rounds that complete, and rounds that are opened again

    [Complete]: once every peer's message is handled, a round publishes its
    price fix and its proof.  [Reopen]: what the unconditional pruning in
    [HandleTriggerMessage] and the unchecked value of a proof message allow. *)

From S2P Require Import Prelude Errors Calculator Wire Raft Aggregator Rounds.
Import Raft Calculator Aggregator Pruning Sections Collected.

Local Open Scope Z_scope.

Module Complete.

(** Messages handled one after the other. *)
Fixpoint handle_all (E : AEnv) (r : Raft) (n : Aggregator) (msgs : list Message)
    : Aggregator * list aeffect :=
  match msgs with
  | [] => (n, [])
  | m :: msgs =>
      let '(n, out, _) := HandleCustomMessage E r n m in
      let '(n, out') := handle_all E r n msgs in (n, out ++ out')
  end.

Definition price_msg (k : int32) (ts : Time) (sp : string * Z) : Message :=
  mkMessage PriceData sp.1 (json_Marshal (mkPriceData k sp.2 ts)) ts.
Definition proof_msg (k : int32) (ts : Time) (svp : string * (Z * list Z)) : Message :=
  mkMessage ProofMsg svp.1 (json_Marshal (mkProofMsg k svp.2.1 (Some svp.2.2) ts)) ts.

Lemma handle_all_snoc E r n l m :
  handle_all E r n (l ++ [m]) =
    let '(n, out) := handle_all E r n l in
    let '(n, out', _) := HandleCustomMessage E r n m in (n, out ++ out').
Proof.
  revert n. induction l as [|a l IH]; intros n; simpl.
  - destruct (HandleCustomMessage E r n m) as [[n1 o1] e1]. by rewrite app_nil_r.
  - destruct (HandleCustomMessage E r n a) as [[n1 o1] e1]. rewrite IH.
    destruct (handle_all E r n1 l) as [n2 o2]. destruct (HandleCustomMessage E r n2 m) as [[n3 o3] e3].
    by rewrite app_assoc.
Qed.

Lemma handle_all_fmap_snoc {A} E r n (f : A -> Message) l x :
  handle_all E r n (f <$> l ++ [x]) =
    let '(n, out) := handle_all E r n (f <$> l) in
    let '(n, out', _) := HandleCustomMessage E r n (f x) in (n, out ++ out').
Proof. rewrite fmap_app. apply handle_all_snoc. Qed.

(** Nothing is known yet of round [k]. *)
Definition fresh {A} (rd : RoundData A) (k : Z) : Prop :=
  items rd !! k = None /\ senders rd !! k = None /\ is_locked (locked rd) k = false.

(** Round [k] holds exactly the contributions [c] and is open. *)
Definition holds {A} (rd : RoundData A) (k : Z) (c : list (string * A)) : Prop :=
  slice (senders rd) k = c.*1 /\ slice (items rd) k = c.*2 /\ is_locked (locked rd) k = false /\
  (items rd !! k = None -> c = []).

Lemma fresh_holds {A} (rd : RoundData A) k : fresh rd k -> holds rd k [].
Proof. intros (Hi & Hs & Hl). unfold holds, slice. by rewrite Hi, Hs. Qed.

Lemma holds_store {A} (rd : RoundData A) k c s (x : A) :
  holds rd k c -> holds (store rd k x s) k (c ++ [(s, x)]).
Proof.
  intros (Hs & Hi & Hl & He). unfold holds, store. rewrite !fmap_app. unfold slice in Hi.
  destruct (items rd !! k) as [xs|] eqn:Hk; simpl in *.
  - rewrite !slice_insert_eq, Hs, Hi. split_and!; try done. by rewrite lookup_insert_eq.
  - rewrite !slice_insert_eq, (He eq_refl). split_and!; try done. by rewrite lookup_insert_eq.
Qed.

Lemma isReplay_holds {A} (rd : RoundData A) k c s :
  holds rd k c -> s ∉ c.*1 -> isReplay rd k s = false.
Proof. intros (Hs & _) Hn. unfold isReplay. rewrite Hs. by apply bool_decide_false. Qed.

Section prices.
Context (E : AEnv) (r : Raft) (k : int32) (ts : Time).
Hypothesis Hk : k <> 0.
Abbreviation N := (e_peers (a_raft E)).

(** The handler stores a price of an open round; the rest depends on how many
    it then has. *)
Lemma price_store n c s p :
  holds (roundPrices n) k c -> s ∉ c.*1 ->
  let n1 := storeRoundPriceData n k p s in
  holds (roundPrices n1) k (c ++ [(s, p)]) /\
  HandleCustomMessage E r n (price_msg k ts (s, p)) =
    (if (length c =? N)%nat then processCollectedPrices E r n1 k ts
     else if (length c =? 0)%nat then (n1, [SpawnPriceTimeout k ts], None)
     else (n1, [], None)).
Proof.
  intros Hh Hs. pose proof (holds_store _ _ _ s p Hh) as Hh'. simpl. split; [done|].
  unfold HandleCustomMessage, HandlePriceDataMessage, price_msg. cbn [Type_ Data SentFrom fst snd].
  rewrite bool_decide_false, bool_decide_true by done. rewrite json_roundtrip. cbn [pd_RoundID pd_PriceData pd_Timestamp].
  rewrite (proj2 (Z.eqb_neq k 0)) by done. pose proof Hh as (H1 & H2 & H3 & H4). rewrite H3.
  erewrite isReplay_holds by done.
  unfold storeRoundPriceData. destruct Hh' as (G1 & G2 & G3). simpl. rewrite G2.
  rewrite length_fmap, length_app. simpl. unfold SubscribersCount.
  replace (Z.of_nat (length c + 1) =? Z.of_nat N + 1) with (length c =? N)%nat
    by (apply eq_true_iff_eq; rewrite Nat.eqb_eq, Z.eqb_eq; lia).
  replace (Z.of_nat (length c + 1) =? 1) with (length c =? 0)%nat
    by (apply eq_true_iff_eq; rewrite Nat.eqb_eq, Z.eqb_eq; lia).
  done.
Qed.

(** One more price for an open round that does not have them all. *)
Lemma price_one n c s p :
  holds (roundPrices n) k c -> s ∉ c.*1 -> (length c < N)%nat ->
  exists n' out, HandleCustomMessage E r n (price_msg k ts (s, p)) = (n', out, None) /\
    holds (roundPrices n') k (c ++ [(s, p)]) /\ fixes out = [].
Proof.
  intros Hh Hs Hlen. destruct (price_store n c s p Hh Hs) as [Hh' ->].
  rewrite (proj2 (Nat.eqb_neq _ _)) by lia. destruct (length c =? 0)%nat; by eexists _, _.
Qed.

Lemma prices_prefix c : forall n,
  fresh (roundPrices n) k -> NoDup c.*1 -> (length c <= N)%nat ->
  exists n' out, handle_all E r n (price_msg k ts <$> c) = (n', out) /\
    holds (roundPrices n') k c /\ fixes out = [].
Proof.
  induction c as [|[s p] c IH] using rev_ind; intros n Hf Hnd Hlen.
  - eexists _, _. split; [reflexivity|]. split; [by apply fresh_holds|done].
  - rewrite fmap_app in Hnd. apply NoDup_app in Hnd as (Hnd & Hs & _). rewrite length_app in Hlen.
    simpl in Hlen. destruct (IH n Hf Hnd ltac:(lia)) as (n1 & o1 & H1 & Hh1 & Ho1).
    destruct (price_one n1 c s p Hh1) as (n2 & o2 & H2 & Hh2 & Ho2).
    + intros Hin. apply (Hs s Hin). by left.
    + lia.
    + exists n2, (o1 ++ o2). rewrite handle_all_fmap_snoc, H1, H2.
      split_and!; [done|done|]. by rewrite fixes_app, Ho1, Ho2.
Qed.

(** With a median, the leader publishes the fix and locks the round. *)
Lemma process_prices n c v :
  GetRole r = Leader -> e_publish (a_raft E) = None -> holds (roundPrices n) k c ->
  fst (GetIntMed (FilterNegative c.*2)) = Ok v ->
  exists n', processCollectedPrices E r n k ts =
    (n', [Net (mkMessage PriceFix (GetHostId r) (json_Marshal (mkPriceFix k v ts)) (e_now (a_raft E)))], None) /\
    is_locked (locked (roundPrices n')) k = true.
Proof.
  intros HL HP (_ & Hi & _) Hv. unfold processCollectedPrices. simpl. rewrite Hi, bool_decide_true by done. simpl.
  rewrite bool_decide_false by (intros Hnil; by rewrite Hnil in Hv).
  rewrite GetInt64Med_GetIntMed, Hv. unfold PublishPriceFixMessage, publish, PublishMessage.
  rewrite HP. eexists. split; [reflexivity|]. simpl. unfold is_locked. by rewrite lookup_insert_eq.
Qed.

(** The last price closes the round. *)
Lemma price_last n c s p v :
  GetRole r = Leader -> e_publish (a_raft E) = None ->
  holds (roundPrices n) k c -> s ∉ c.*1 -> length c = N ->
  fst (GetIntMed (FilterNegative (c ++ [(s, p)]).*2)) = Ok v ->
  exists n' out, HandleCustomMessage E r n (price_msg k ts (s, p)) = (n', out, None) /\
    is_locked (locked (roundPrices n')) k = true /\ fixes out = [(k, v)].
Proof.
  intros HL HP Hh Hs Hlen Hv. destruct (price_store n c s p Hh Hs) as [Hh' ->].
  rewrite (proj2 (Nat.eqb_eq _ _)) by done.
  destruct (process_prices _ _ _ HL HP Hh' Hv) as (n' & -> & Hl). by eexists _, _.
Qed.
End prices.

Lemma GetIntMed_Ok l : l <> [] -> exists v, fst (GetIntMed l) = Ok v.
Proof. intros. unfold GetIntMed. rewrite bool_decide_false by done. case_match; eauto. Qed.

(** C4: when the prices of all peers reach the leader, in any order, it
    publishes exactly one price fix for the round, locks the round, and the
    value is the median of the prices that are not negative, the same for every
    order of arrival. *)
Theorem round_completes E r n k ts (c : list (string * Z)) :
  GetRole r = Leader -> e_publish (a_raft E) = None -> k <> 0 -> fresh (roundPrices n) k ->
  NoDup c.*1 -> length c = S (e_peers (a_raft E)) -> FilterNegative c.*2 <> [] ->
  exists v, fst (GetIntMed (FilterNegative c.*2)) = Ok v /\
    forall c', c' ≡ₚ c ->
    exists n' out, handle_all E r n (price_msg k ts <$> c') = (n', out) /\
      is_locked (locked (roundPrices n')) k = true /\ fixes out = [(k, v)].
Proof.
  intros HL HP Hk Hf Hnd Hlen Hne. destruct (GetIntMed_Ok _ Hne) as [v Hv].
  exists v. split; [done|]. intros c' Hp.
  assert (fst (GetIntMed (FilterNegative c'.*2)) = Ok v) as Hv'.
  { rewrite <- Hv. apply GetIntMed_perm. unfold FilterNegative. by rewrite Hp. }
  assert (NoDup c'.*1) as Hnd' by by rewrite Hp.
  assert (length c' = S (e_peers (a_raft E))) as Hlen' by by rewrite Hp.
  clear Hp Hv Hnd Hlen Hne. destruct c' as [|[s p] c' _] using rev_ind; [done|].
  rewrite length_app in Hlen'. simpl in Hlen'. pose proof Hnd' as Hnd. rewrite fmap_app in Hnd.
  apply NoDup_app in Hnd as (Hnd & Hs & _).
  destruct (prices_prefix E r k ts Hk c' n Hf Hnd ltac:(lia)) as (n1 & o1 & H1 & Hh1 & Ho1).
  destruct (price_last E r k ts Hk n1 c' s p v HL HP Hh1) as (n2 & o2 & H2 & Hl2 & Ho2).
  - intros Hin. apply (Hs s Hin). by left.
  - lia.
  - done.
  - exists n2, (o1 ++ o2). rewrite handle_all_fmap_snoc, H1, H2.
    split_and!; [done|done|]. by rewrite fixes_app, Ho1, Ho2.
Qed.

(** *** Proofs *)
Section proofs.
Context (E : AEnv) (r : Raft) (k : int32) (ts : Time).
Hypothesis Hk : k <> 0.
Abbreviation N := (e_peers (a_raft E)).
Definition sent_proofs (c : list (string * (Z * list Z))) : list (string * list Z) :=
  (fun svp => (svp.1, svp.2.2)) <$> c.

Lemma sent_proofs_fst c : (sent_proofs c).*1 = c.*1.
Proof. unfold sent_proofs. rewrite <- list_fmap_compose. by apply list_fmap_ext. Qed.

(** The handler stores a proof of an open round; the rest depends on how many
    it then has. *)
Lemma proof_store n c s v p :
  holds (roundProofs n) k (sent_proofs c) -> s ∉ c.*1 ->
  let n1 := storeRoundProofData n k p s in
  holds (roundProofs n1) k (sent_proofs (c ++ [(s, (v, p))])) /\
  HandleCustomMessage E r n (proof_msg k ts (s, (v, p))) =
    (if (length c =? N)%nat then processCollectedProofs E n1 (mkProofMsg k v (Some p) ts)
     else if (length c =? 0)%nat then (n1, [SpawnProofTimeout (mkProofMsg k v (Some p) ts)], None)
     else (n1, [], None)).
Proof.
  intros Hh Hs. pose proof (holds_store _ _ _ s p Hh) as Hh'. simpl. split.
  { unfold sent_proofs in *. by rewrite fmap_app. }
  unfold HandleCustomMessage, HandleProofMessage, proof_msg. cbn [Type_ Data SentFrom fst snd].
  rewrite !bool_decide_false by done. rewrite bool_decide_true by done.
  rewrite json_roundtrip. cbn [pm_RoundID pm_Proof].
  rewrite (proj2 (Z.eqb_neq k 0)) by done. pose proof Hh as (H1 & H2 & H3 & H4). rewrite H3.
  erewrite isReplay_holds by (done || by rewrite sent_proofs_fst).
  unfold storeRoundProofData. destruct Hh' as (G1 & G2 & G3). simpl. rewrite G2.
  rewrite length_fmap, length_app. unfold sent_proofs. rewrite length_fmap. simpl.
  unfold SubscribersCount.
  replace (Z.of_nat (length c + 1) =? Z.of_nat N + 1) with (length c =? N)%nat
    by (apply eq_true_iff_eq; rewrite Nat.eqb_eq, Z.eqb_eq; lia).
  replace (Z.of_nat (length c + 1) =? 1) with (length c =? 0)%nat
    by (apply eq_true_iff_eq; rewrite Nat.eqb_eq, Z.eqb_eq; lia).
  done.
Qed.

Lemma proofs_prefix c : forall n,
  fresh (roundProofs n) k -> NoDup c.*1 -> (length c <= N)%nat ->
  exists n' out, handle_all E r n (proof_msg k ts <$> c) = (n', out) /\
    holds (roundProofs n') k (sent_proofs c) /\ submissions out = [] /\ config n' = config n.
Proof.
  induction c as [|[s [v p]] c IH] using rev_ind; intros n Hf Hnd Hlen.
  - eexists _, _. split; [reflexivity|]. split_and!; [by apply fresh_holds|done|done].
  - rewrite fmap_app in Hnd. apply NoDup_app in Hnd as (Hnd & Hs & _). rewrite length_app in Hlen.
    simpl in Hlen. destruct (IH n Hf Hnd ltac:(lia)) as (n1 & o1 & H1 & Hh1 & Ho1 & Hc1).
    destruct (proof_store n1 c s v p Hh1) as [Hh2 H2]; [intros Hin; apply (Hs s Hin); by left|].
    rewrite (proj2 (Nat.eqb_neq (length c) N)) in H2 by lia.
    rewrite handle_all_fmap_snoc, H1, H2.
    destruct (length c =? 0)%nat; eexists _, _; (split; [reflexivity|]);
      unfold submissions in *; rewrite omap_app, Ho1; done.
Qed.
End proofs.

(** When the proofs of all peers reach a node, it stores exactly one
    submission: the proofs concatenated in the order they came, under the round
    and timestamp of the messages, with the value of the message that came
    last. *)
Theorem proofs_complete E r n k ts c s v p :
  a_db E = None -> k <> 0 -> v <> 0 -> ts <> time_zero -> fresh (roundProofs n) k ->
  NoDup (c ++ [(s, (v, p))]).*1 -> length c = e_peers (a_raft E) ->
  exists n' out, handle_all E r n (proof_msg k ts <$> c ++ [(s, (v, p))]) = (n', out) /\
    is_locked (locked (roundProofs n')) k = true /\
    submissions out =
      [mkSubmissionData (c_Name (config n)) (mkGlobalAggregate (c_ID (config n)) v k ts)
         (mkProof (c_ID (config n)) k (concat ((sent_proofs c).*2 ++ [p])))].
Proof.
  intros Hdb Hk Hv Hts Hf Hnd Hlen. rewrite fmap_app in Hnd. apply NoDup_app in Hnd as (Hnd & Hs & _).
  destruct (proofs_prefix E r k ts Hk c n Hf Hnd ltac:(lia)) as (n1 & o1 & H1 & Hh1 & Ho1 & Hc1).
  destruct (proof_store E r k ts Hk n1 c s v p Hh1) as [(G1 & G2 & _) H2];
    [intros Hin; apply (Hs s Hin); by left|].
  rewrite (proj2 (Nat.eqb_eq _ _)) in H2 by lia.
  rewrite handle_all_fmap_snoc, H1, H2. unfold processCollectedProofs, PublishGlobalAggregateAndProof.
  cbn [pm_Value pm_RoundID pm_Timestamp ga_Value ga_Timestamp].
  unfold IsZero. rewrite (proj2 (Z.eqb_neq v 0)), (proj2 (Z.eqb_neq ts time_zero)) by done.
  cbn [orb]. rewrite Hdb. eexists _, _. split; [reflexivity|]. split.
  - simpl. unfold is_locked. by rewrite lookup_insert_eq.
  - unfold submissions in *. rewrite omap_app, Ho1. simpl in *. rewrite Hc1, G2.
    unfold sent_proofs. rewrite !fmap_app. done.
Qed.

(** Witnesses: two peers and this node. *)
Definition w_prices : list (string * Z) := [("a", 100); ("b", 110); ("x", -1)].

Lemma round_completes_witness :
  exists v, fst (GetIntMed (FilterNegative w_prices.*2)) = Ok v.
Proof.
  destruct (round_completes w_env w_raft w_node 5 7 w_prices) as (v & Hv & _);
    [done|done|done|done| |done|done|by exists v].
  apply (bool_decide_eq_true_1 (NoDup w_prices.*1)). vm_compute. reflexivity.
Defined.

Lemma proofs_complete_witness : exists n' out,
  handle_all w_env w_raft w_node
    (proof_msg 5 7 <$> [("a", (100, [1])); ("b", (100, [2]))] ++ [("x", (100, [3]))]) = (n', out).
Proof.
  destruct (proofs_complete w_env w_raft w_node 5 7 [("a", (100, [1])); ("b", (100, [2]))] "x" 100 [3])
    as (n' & out & H & _); [done|done|done|done|done| |done|by exists n', out].
  apply (bool_decide_eq_true_1 (NoDup _)). vm_compute. reflexivity.
Defined.

End Complete.

(** ** Rounds that are opened again *)
Module Reopen.
Import Complete.

(** A trigger message from a peer that is not the leader is answered with
    an error, yet its deferred pruning has already forgotten every round
    outside the ten before the round id it carries: locks, replay protection,
    prices and proofs. *)
Theorem stray_trigger_forgets E r n msg m k :
  Type_ msg = Trigger -> json_Unmarshal (Data msg) = Some m -> in_int32 (tr_RoundID m) ->
  SentFrom msg <> GetLeader r -> keeps (tr_RoundID m) k = false ->
  exists n' err, HandleCustomMessage E r n msg = (n', [], Some err) /\
    is_locked (roundTriggers n') k = false /\ is_locked (roundPriceFixes n') k = false /\
    fresh (roundPrices n') k /\ fresh (roundProofs n') k.
Proof.
  intros Ht Hm Hr Hs Hk.
  assert (exists err, HandleCustomMessage E r n msg = (leaveOnlyLast10Entries (tr_RoundID m) n, [], Some err))
    as [err H].
  { unfold HandleCustomMessage, HandleTriggerMessage. rewrite bool_decide_true, Hm by done.
    destruct (tr_RoundID m =? 0); [by eexists|]. rewrite bool_decide_false by done. by eexists. }
  exists (leaveOnlyLast10Entries (tr_RoundID m) n), err. split; [done|].
  unfold fresh. simpl. rewrite !last10_is_locked, !last10_lookup by done. by rewrite Hk.
Qed.

(** A follower of leader [L] in a cluster of three; peer [X] is not the leader. *)
Definition re_env : AEnv := mkAEnv (mkEnv 0 0 2 None) ∅ (fun v _ _ => Ok [v]) None.
Definition re_raft : Raft := set_LeaderID "L" (NewRaftNode "F" second).
Definition re_node : Aggregator :=
  mkAggregator (mkConfig 1 "BTC-USDT" 400) ∅ (mkRoundData ∅ ∅ ∅) ∅ (mkRoundData ∅ ∅ ∅) 1.
Definition fix_msg (from : string) (k v : Z) : Message :=
  mkMessage PriceFix from (json_Marshal (mkPriceFix k v 7)) 7.
Definition trigger_msg (from : string) (k : Z) : Message :=
  mkMessage Trigger from (json_Marshal (mkTrigger from k 7)) 7.

(** So one stray trigger makes a follower sign a second, different value
    for a round it has already signed; without it the second is refused. *)
Theorem round_signed_twice :
  signed (snd (handle_all re_env re_raft re_node
    [fix_msg "L" 5 100; trigger_msg "X" 90; fix_msg "L" 5 900])) = [(5, 100); (5, 900)] /\
  signed (snd (handle_all re_env re_raft re_node
    [fix_msg "L" 5 100; fix_msg "L" 5 900])) = [(5, 100)].
Proof. split; vm_compute; reflexivity. Qed.

Lemma stray_trigger_forgets_witness : exists n' err,
  HandleCustomMessage re_env re_raft re_node (trigger_msg "X" 90) = (n', [], Some err).
Proof.
  destruct (stray_trigger_forgets re_env re_raft re_node (trigger_msg "X" 90) (mkTrigger "X" 90 7) 5)
    as (n' & err & H & _); [done|done|by vm_compute|done|done|by exists n', err].
Defined.

End Reopen.
