(* ===== verification/Nonce.v ===== *)
(** * Nonce managers

    [node/pkg/chain/noncemanagerv2] hands out nonces from a buffered channel
    that it refills before it runs dry; [node/pkg/chain/noncemanager] keeps the
    next nonce of each address in a map.  Both promise the same thing: after a
    reset to the chain's nonce, successive calls return successive nonces.
    [NonceSource] states the promise; both managers are instances of it. *)

From S2P Require Import Prelude Errors.

Local Open Scope Z_scope.

Module Nonce.

(** ** The promise

    [next s] is the nonce the next call returns, when the source has one. *)
Class NonceSource (S : Type) := {
  ns_get : S -> option (uint64 * S);
  ns_reset : uint64 -> S -> option S;
  ns_ok : S -> Prop;
  ns_next : S -> uint64;
  ns_get_spec s : ns_ok s ->
    exists s', ns_get s = Some (ns_next s, s') /\ ns_ok s' /\ ns_next s' = wrapu64 (ns_next s + 1);
  ns_reset_spec c s : ns_ok s -> in_uint64 c ->
    exists s', ns_reset c s = Some s' /\ ns_ok s' /\ ns_next s' = c
}.

(** The answers of [k] successive calls; [None] when one blocks or fails. *)
Fixpoint gets {S} `{NonceSource S} (k : nat) (s : S) : option (list uint64 * S) :=
  match k with
  | O => Some ([], s)
  | Datatypes.S k =>
      '(x, s) ← ns_get s; '(xs, s) ← gets k s; Some (x :: xs, s)
  end.

(** [k] successive nonces from [c]. *)
Definition nonces (c : uint64) (k : nat) : list uint64 :=
  (fun i => wrapu64 (c + Z.of_nat i)) <$> seq 0 k.

Lemma nonces_S c k : in_uint64 c -> nonces c (S k) = c :: nonces (wrapu64 (c + 1)) k.
Proof.
  intros Hc. unfold nonces. cbn [seq]. rewrite fmap_cons, <- (fmap_S_seq 0 k), <- list_fmap_compose.
  f_equal.
  - rewrite Z.add_0_r. by apply wrapu64_id.
  - apply list_fmap_ext. intros i x _. simpl. rewrite wrapu64_add_l. f_equal. lia.
Qed.

Lemma length_nonces c k : length (nonces c k) = k.
Proof. unfold nonces. by rewrite length_fmap, length_seq. Qed.

Lemma nonces_NoDup c k : Z.of_nat k <= 2 ^ 64 -> NoDup (nonces c k).
Proof.
  intros Hk. unfold nonces. apply NoDup_fmap_2_strong; [|apply NoDup_seq].
  intros i j Hi%elem_of_seq Hj%elem_of_seq Heq. unfold uwrap in Heq.
  assert ((c + Z.of_nat i - (c + Z.of_nat j)) `mod` 2 ^ 64 = 0) as Hz.
  { rewrite Zminus_mod, Heq, Z.sub_diag. apply Z.mod_0_l. lia. }
  apply Z.mod_divide in Hz as [q Hq]; [|lia]. nia.
Qed.

Section client.
Context {S : Type} `{NonceSource S}.

Lemma gets_spec k : forall s,
  ns_ok s -> in_uint64 (ns_next s) ->
  exists s', gets k s = Some (nonces (ns_next s) k, s') /\ ns_ok s'.
Proof.
  induction k as [|k IH]; intros s Hok Hin; [by eexists|].
  destruct (ns_get_spec s Hok) as (s1 & Hg & Hok1 & Hn1).
  destruct (IH s1 Hok1) as (s2 & Hg2 & Hok2).
  { rewrite Hn1. apply wrapu64_in. }
  exists s2. split; [|done]. cbn [gets]. rewrite Hg. simpl. rewrite Hg2. simpl.
  by rewrite nonces_S, Hn1.
Qed.
End client.

(** ** noncemanagerv2 *)
Module V2.

Definition poolSize : nat := 100.
Definition minimumNoncePoolSize : nat := 10.

(** [noncePool] is a channel of capacity [poolSize], oldest nonce first.
    [None] as a result is a call that blocks for ever. *)
Record NonceManagerV2 : Type := mkManager { noncePool : list uint64; wallet : string }.

(** [ch <- x] on a channel of capacity [cap], and [<-ch]. *)
Definition chan_send {A} (cap : nat) (ch : list A) (x : A) : option (list A) :=
  if (length ch <? cap)%nat then Some (ch ++ [x]) else None.
Definition chan_recv {A} (ch : list A) : option (A * list A) :=
  match ch with [] => None | x :: ch => Some (x, ch) end.

(** [for i := 0; i < poolSize; i++ { pool <- nonce + i }], with [k]
    iterations left. *)
Fixpoint send_nonces (k : nat) (i : Z) (nonce : uint64) (pool : list uint64) : option (list uint64) :=
  match k with
  | O => Some pool
  | Datatypes.S k =>
      pool ← chan_send poolSize pool (wrapu64 (nonce + i));
      send_nonces k (i + 1) nonce pool
  end.

(** [nonce] is what [utils.GetNonceFromPk] answers. *)
Definition New (nonce : res uint64) (wallet : string) : option (res NonceManagerV2) :=
  if bool_decide (wallet = "") then Some (Err (External "empty wallet")) else
  match nonce with
  | Err e => Some (Err e)
  | Ok currentNonce =>
      pool ← send_nonces poolSize 0 currentNonce [];
      Some (Ok (mkManager pool wallet))
  end.

Definition fillPool (m : NonceManagerV2) : option NonceManagerV2 :=
  '(nonce, _) ← chan_recv (noncePool m);
  pool ← send_nonces poolSize 0 nonce [];
  Some (mkManager pool (wallet m)).

Definition flushPool (m : NonceManagerV2) : NonceManagerV2 :=
  mkManager (drop (length (noncePool m)) (noncePool m)) (wallet m).

Definition GetNonce (m : NonceManagerV2) : option (uint64 * NonceManagerV2) :=
  m ← (if (length (noncePool m) <? minimumNoncePoolSize)%nat then fillPool m else Some m);
  '(nonce, pool) ← chan_recv (noncePool m);
  Some (nonce, mkManager pool (wallet m)).

Definition Reset (nonce : res uint64) (m : NonceManagerV2) : option (res NonceManagerV2) :=
  match nonce with
  | Err e => Some (Err e)
  | Ok currentNonce =>
      let m := flushPool m in
      pool ← send_nonces poolSize 0 currentNonce (noncePool m);
      Some (Ok (mkManager pool (wallet m)))
  end.

(** The pool holds between nine and [poolSize] successive nonces. *)
Definition ok (m : NonceManagerV2) : Prop :=
  exists c k, noncePool m = nonces c k /\ in_uint64 c /\ (9 <= k <= poolSize)%nat.
Definition next (m : NonceManagerV2) : uint64 := default 0 (head (noncePool m)).

Lemma send_nonces_spec k : forall i nonce pool,
  (length pool + k <= poolSize)%nat ->
  send_nonces k i nonce pool =
    Some (pool ++ ((fun j => wrapu64 (nonce + (i + Z.of_nat j))) <$> seq 0 k)).
Proof.
  induction k as [|k IH]; intros i nonce pool Hk; cbn [send_nonces].
  - simpl. by rewrite app_nil_r.
  - unfold chan_send. rewrite (proj2 (Nat.ltb_lt _ _)) by lia. simpl.
    rewrite IH by (rewrite length_app; simpl; lia). f_equal. rewrite <- app_assoc. f_equal. simpl.
    f_equal; [f_equal; lia|]. rewrite <- (fmap_S_seq 0 k), <- list_fmap_compose.
    apply list_fmap_ext. intros j x _. simpl. f_equal. lia.
Qed.

Lemma send_all nonce : send_nonces poolSize 0 nonce [] = Some (nonces nonce poolSize).
Proof. by rewrite send_nonces_spec. Qed.

Lemma GetNonce_spec m : ok m ->
  exists m', GetNonce m = Some (next m, m') /\ ok m' /\ next m' = wrapu64 (next m + 1).
Proof.
  intros (c & k & Hp & Hc & Hk). unfold next. rewrite Hp.
  destruct k as [|k]; [lia|]. rewrite nonces_S by done. cbn [head].
  assert (forall j, (9 <= j <= 99)%nat -> exists m',
    ('(nonce, pool) ← chan_recv (nonces c (S j)); Some (nonce, mkManager pool (wallet m)))
      = Some (c, m') /\ ok m' /\ default 0 (head (noncePool m')) = wrapu64 (c + 1)) as Hrecv.
  { intros j Hj. rewrite nonces_S by done. eexists. split; [reflexivity|]. split.
    - exists (wrapu64 (c + 1)), j. split_and!; [done|apply wrapu64_in|lia|unfold poolSize; lia].
    - cbn [noncePool]. destruct j; [lia|]. by rewrite nonces_S by apply wrapu64_in. }
  unfold GetNonce. rewrite Hp, length_nonces.
  destruct (S k <? minimumNoncePoolSize)%nat eqn:Hmin.
  - unfold fillPool. rewrite Hp, nonces_S by done.
    cbn [chan_recv mbind option_bind]. rewrite send_all. cbn [mbind option_bind noncePool wallet].
    apply (Hrecv 99%nat). lia.
  - cbn [mbind option_bind]. rewrite Hp. apply Hrecv. apply Nat.ltb_ge in Hmin.
    unfold minimumNoncePoolSize, poolSize in *. lia.
Qed.

Lemma Reset_spec c m : in_uint64 c ->
  exists m', Reset (Ok c) m = Some (Ok m') /\ ok m' /\ next m' = c.
Proof.
  intros Hc. unfold Reset, flushPool. cbn [noncePool]. rewrite drop_all, send_all. simpl.
  eexists. split; [reflexivity|]. split.
  - exists c, poolSize. split_and!; [done|done|unfold poolSize; lia..].
  - unfold next. cbn [noncePool]. unfold poolSize. by rewrite nonces_S.
Qed.

Definition reset_to (c : uint64) (m : NonceManagerV2) : option NonceManagerV2 :=
  match Reset (Ok c) m with Some (Ok m') => Some m' | _ => None end.

#[export] Program Instance V2_source : NonceSource NonceManagerV2 := {|
  ns_get := GetNonce; ns_reset := reset_to; ns_ok := ok; ns_next := next
|}.
Next Obligation. intros m Hm. by apply GetNonce_spec. Qed.
Next Obligation.
  intros c m _ Hc. unfold reset_to. destruct (Reset_spec c m Hc) as (m' & -> & ?). by exists m'.
Qed.

End V2.

(** ** noncemanager *)
Module V1.

Record NonceManager : Type := mkNonceManager { nonces_ : gmap string uint64 }.

Definition Get : NonceManager := mkNonceManager ∅.

Definition ResetNonce (nonce : res uint64) (address : string) (m : NonceManager)
    : res NonceManager :=
  match nonce with
  | Err e => Err e
  | Ok nonce => Ok (mkNonceManager (<[address := nonce]> (nonces_ m)))
  end.
Definition SetNonce (address : string) (nonce : uint64) (m : NonceManager) : NonceManager :=
  mkNonceManager (<[address := nonce]> (nonces_ m)).
Definition GetAndIncrementNonce (address : string) (m : NonceManager) : res uint64 * NonceManager :=
  match nonces_ m !! address with
  | None => (Err (External "nonce not found"), m)
  | Some nonce => (Ok nonce, mkNonceManager (<[address := wrapu64 (nonce + 1)]> (nonces_ m)))
  end.
Definition NonceManager_GetNonce (address : string) (m : NonceManager) : res uint64 :=
  match nonces_ m !! address with
  | None => Err (External "nonce not found")
  | Some result => Ok result
  end.

(** The manager seen from one address. *)
Record at_address (address : string) : Type := mkAt { manager : NonceManager }.
Arguments mkAt {address} _.
Arguments manager {address} _.

Definition get_at {address} (s : at_address address) : option (uint64 * at_address address) :=
  match GetAndIncrementNonce address (manager s) with
  | (Ok x, m) => Some (x, mkAt m)
  | (Err _, _) => None
  end.
Definition reset_at {address} (c : uint64) (s : at_address address) : option (at_address address) :=
  match ResetNonce (Ok c) address (manager s) with
  | Ok m => Some (mkAt m)
  | Err _ => None
  end.

#[export] Program Instance V1_source address : NonceSource (at_address address) := {|
  ns_get := get_at;
  ns_reset := reset_at;
  ns_ok s := is_Some (nonces_ (manager s) !! address);
  ns_next s := default 0 (nonces_ (manager s) !! address)
|}.
Next Obligation.
  intros address [m] [x Hx]. simpl in *. unfold get_at, GetAndIncrementNonce. simpl. rewrite Hx. simpl.
  eexists. split; [reflexivity|]. simpl. rewrite lookup_insert_eq. simpl. eauto.
Qed.
Next Obligation.
  intros address c [m] _ Hc. eexists. split; [reflexivity|]. simpl. rewrite lookup_insert_eq. eauto.
Qed.

(** An address never sees the nonces of another. *)
Lemma GetAndIncrementNonce_other a b m :
  a <> b -> NonceManager_GetNonce b (snd (GetAndIncrementNonce a m)) = NonceManager_GetNonce b m.
Proof.
  intros Hne. unfold GetAndIncrementNonce, NonceManager_GetNonce. destruct (nonces_ m !! a); [|done]. simpl.
  by rewrite lookup_insert_ne.
Qed.

End V1.

#[export] Existing Instance V2.V2_source.
#[export] Existing Instance V1.V1_source.

(** ** Theorems *)

(** C14: after a reset to the chain's nonce, any number of calls to
    [GetNonce] return successive nonces, refills included, none of them blocks
    and none repeats. *)
Theorem nonce_pool_successive m c k :
  in_uint64 c -> Z.of_nat k <= 2 ^ 64 ->
  exists m' m'', V2.Reset (Ok c) m = Some (Ok m') /\
    gets (S := V2.NonceManagerV2) k m' = Some (nonces c k, m'') /\ V2.ok m'' /\ NoDup (nonces c k).
Proof.
  intros Hc Hk. destruct (V2.Reset_spec c m Hc) as (m' & HR & Hok & Hn). exists m'.
  destruct (gets_spec (S := V2.NonceManagerV2) k m') as (m'' & Hg & Hok'').
  { done. }
  { simpl. by rewrite Hn. }
  exists m''. simpl in *. rewrite Hn in Hg. split_and!; [done..|]. by apply nonces_NoDup.
Qed.

Lemma nonce_pool_successive_witness : exists m' m'',
  V2.Reset (Ok 41) (V2.mkManager [1; 2] "w") = Some (Ok m') /\
  gets (S := V2.NonceManagerV2) 250 m' = Some (nonces 41 250, m'').
Proof.
  destruct (nonce_pool_successive (V2.mkManager [1; 2] "w") 41 250) as (m' & m'' & H1 & H2 & _);
    [by vm_compute|by vm_compute|by exists m', m''].
Defined.

(** From one chain nonce the pooled manager and the per-address manager
    hand out the same nonces. *)
Theorem nonce_managers_agree m2 (m1 : V1.NonceManager) address c k :
  in_uint64 c -> exists m2' m1',
    V2.Reset (Ok c) m2 = Some (Ok m2') /\ V1.ResetNonce (Ok c) address m1 = Ok m1' /\
    exists l s2 s1, gets (S := V2.NonceManagerV2) k m2' = Some (l, s2) /\
      gets (S := V1.at_address address) k (V1.mkAt m1') = Some (l, s1).
Proof.
  intros Hc. destruct (V2.Reset_spec c m2 Hc) as (m2' & HR & Hok & Hn). exists m2'.
  eexists. split; [done|]. split; [reflexivity|].
  destruct (gets_spec (S := V2.NonceManagerV2) k m2') as (s2 & Hg & _).
  { done. }
  { simpl. by rewrite Hn. }
  set (m1' := V1.mkAt (address := address) (V1.mkNonceManager (<[address := c]> (V1.nonces_ m1)))).
  assert (V1.nonces_ (V1.manager m1') !! address = Some c) as Hl
    by (simpl; by rewrite lookup_insert_eq).
  destruct (gets_spec (S := V1.at_address address) k m1') as (s1 & Hg1 & _).
  { exists c. exact Hl. }
  { change (in_uint64 (default 0 (V1.nonces_ (V1.manager m1') !! address))). by rewrite Hl. }
  simpl in *. rewrite Hn in Hg. rewrite lookup_insert_eq in Hg1. simpl in Hg1. eauto.
Qed.

Lemma nonce_managers_agree_witness : exists m2',
  V2.Reset (Ok 7) (V2.mkManager [] "w") = Some (Ok m2').
Proof.
  destruct (nonce_managers_agree (V2.mkManager [] "w") V1.Get "w" 7 12) as (m2' & _ & H & _);
    [by vm_compute|by exists m2'].
Defined.

End Nonce.
