(* ===== verification/Text.v ===== *)
(** * Text: what the code uses of Go's [strconv], [strings], [hex] and [fmt]

    Strings are byte strings.  Numbers are written and read in bases 10 and
    16; [ParseInt] keeps the range check of [strconv.ParseInt]. *)

From S2P Require Import Prelude Errors.
From Stdlib Require Import Ascii.

Local Open Scope Z_scope.

Module Text.

(** ** Strings *)
Definition chars (s : string) : list ascii := String.list_ascii_of_string s.
Definition text (l : list ascii) : string := String.string_of_list_ascii l.

Lemma text_chars s : text (chars s) = s.
Proof. apply String.string_of_list_ascii_of_string. Qed.
Lemma chars_text l : chars (text l) = l.
Proof. apply String.list_ascii_of_string_of_list_ascii. Qed.

Definition HasPrefix (s prefix : string) : bool := String.prefix prefix s.
Definition TrimPrefix (s prefix : string) : string :=
  if HasPrefix s prefix
  then text (drop (length (chars prefix)) (chars s)) else s.

Lemma chars_app a b : chars (a +:+ b) = chars a ++ chars b.
Proof. induction a as [|c a IH]; [done|]. unfold chars in *. simpl. by f_equal. Qed.

Lemma HasPrefix_app p s : HasPrefix (p +:+ s) p = true.
Proof. unfold HasPrefix. induction p as [|c p IH]; simpl; [by destruct s|].
  by destruct (ascii_dec c c). Qed.

Lemma TrimPrefix_app p s : TrimPrefix (p +:+ s) p = s.
Proof.
  unfold TrimPrefix. rewrite HasPrefix_app, chars_app, drop_app_length. apply text_chars.
Qed.

(** [strings.ToLower] on ASCII text (the code lowers hexadecimal addresses). *)
Definition lower (c : ascii) : ascii :=
  let n := N_of_ascii c in
  if ((65 <=? n) && (n <=? 90))%N then ascii_of_N (n + 32) else c.
Definition ToLower (s : string) : string := text (lower <$> chars s).

(** [strings.Join]. *)
Fixpoint Join (sep : string) (l : list string) : string :=
  match l with
  | [] => ""
  | [s] => s
  | s :: l => s +:+ sep +:+ Join sep l
  end.

(** ** Digits *)
Definition digit_char (d : Z) : ascii :=
  ascii_of_N (Z.to_N (if d <? 10 then 48 + d else 87 + d)).
Definition char_digit (c : ascii) : option Z :=
  let n := Z.of_N (N_of_ascii c) in
  if (48 <=? n) && (n <=? 57) then Some (n - 48)
  else if (97 <=? n) && (n <=? 122) then Some (n - 87)
  else if (65 <=? n) && (n <=? 90) then Some (n - 55)
  else None.

Lemma char_digit_char d : 0 <= d < 16 -> char_digit (digit_char d) = Some d.
Proof.
  intros Hd.
  assert (d ∈ seqZ 0 16) as Hin by (apply elem_of_seqZ; lia).
  clear Hd. revert d Hin. apply Forall_forall.
  apply (bool_decide_eq_true_1 (Forall (fun d => char_digit (digit_char d) = Some d) (seqZ 0 16))).
  vm_compute. reflexivity.
Qed.

(** The digits of [n] in base [b], most significant first, before [acc]; none
    for zero.  A number of [k] bits has at most [k] digits. *)
Fixpoint digits_loop (fuel : nat) (b n : Z) (acc : list ascii) : list ascii :=
  match fuel with
  | O => acc
  | S fuel => if n =? 0 then acc else digits_loop fuel b (n / b) (digit_char (n `mod` b) :: acc)
  end.
Definition digits_fuel (n : Z) : nat := S (Z.to_nat (Z.log2 n)).
Definition digits (b n : Z) : list ascii :=
  if n =? 0 then ["0"%char] else digits_loop (digits_fuel n) b n [].

(** [big.Int.Text(b)] and [strconv.FormatInt(n, b)]. *)
Definition Format (b n : Z) : string :=
  if n <? 0 then "-" +:+ text (digits b (- n)) else text (digits b n).
Definition Itoa (n : Z) : string := Format 10 n.

(** The value of digits, [None] for none or a character that is not one. *)
Fixpoint value_loop (b acc : Z) (l : list ascii) : option Z :=
  match l with
  | [] => Some acc
  | c :: l =>
      d ← char_digit c;
      if d <? b then value_loop b (acc * b + d) l else None
  end.
Definition value (b : Z) (l : list ascii) : option Z :=
  match l with [] => None | _ => value_loop b 0 l end.

(** [strconv.ParseInt(s, 10, bits)]; [None] is a syntax or range error. *)
Definition ParseInt (bits : Z) (s : string) : option Z :=
  let '(neg, rest) := match chars s with
                      | "+"%char :: l => (false, l)
                      | "-"%char :: l => (true, l)
                      | l => (false, l)
                      end in
  un ← value 10 rest;
  let cutoff := 2 ^ (bits - 1) in
  if negb neg && (cutoff <=? un) then None
  else if neg && (cutoff <? un) then None
  else Some (if neg then - un else un).

(** ** Reading back what was written *)
Lemma value_loop_app b l1 : forall acc l2,
  value_loop b acc (l1 ++ l2) = (x ← value_loop b acc l1; value_loop b x l2).
Proof.
  induction l1 as [|c l1 IH]; intros acc l2; [done|]. simpl.
  destruct (char_digit c) as [d|]; [|done]. simpl. destruct (d <? b); [apply IH|done].
Qed.

Lemma digits_loop_value b fuel : 2 <= b <= 16 -> forall n acc,
  0 <= n < b ^ Z.of_nat fuel ->
  exists l, digits_loop fuel b n acc = l ++ acc /\ value_loop b 0 l = Some n /\ (n <> 0 -> l <> []).
Proof.
  intros Hb. induction fuel as [|fuel IH]; intros n acc Hn.
  - exists []. simpl in *. assert (n = 0) as -> by lia. done.
  - cbn [digits_loop]. destruct (n =? 0) eqn:H0; breflect.
    + subst n. by exists [].
    + rewrite Nat2Z.inj_succ, Z.pow_succ_r in Hn by lia.
      destruct (IH (n / b) (digit_char (n `mod` b) :: acc)) as (l & Hl & Hv & _).
      { split; [apply Z.div_pos; lia|]. apply Z.div_lt_upper_bound; lia. }
      pose proof (Z.mod_pos_bound n b ltac:(lia)).
      exists (l ++ [digit_char (n `mod` b)]). split_and!.
      * rewrite Hl. by rewrite <- app_assoc.
      * rewrite value_loop_app, Hv. simpl. rewrite char_digit_char by lia. simpl.
        rewrite (proj2 (Z.ltb_lt _ _)) by lia. f_equal. rewrite (Z.div_mod n b) at 3 by lia. lia.
      * intros _ Hnil. by apply app_eq_nil in Hnil as [_ ?].
Qed.

Lemma digits_fuel_enough b n : 2 <= b -> 0 < n -> n < b ^ Z.of_nat (digits_fuel n).
Proof.
  intros Hb Hn. unfold digits_fuel. pose proof (Z.log2_nonneg n).
  rewrite Nat2Z.inj_succ, Z2Nat.id by done.
  apply Z.lt_le_trans with (2 ^ Z.succ (Z.log2 n)); [by apply Z.log2_spec|].
  apply Z.pow_le_mono_l. lia.
Qed.

Lemma value_digits b n : 2 <= b <= 16 -> 0 <= n -> value b (digits b n) = Some n.
Proof.
  intros Hb Hn. unfold digits. destruct (n =? 0) eqn:H0; breflect.
  - subst n. change (value b ["0"%char]) with (if 0 <? b then Some (0 * b + 0) else None).
    by rewrite (proj2 (Z.ltb_lt 0 b)) by lia.
  - destruct (digits_loop_value b (digits_fuel n) Hb n []) as (l & -> & Hv & Hne).
    { split; [done|]. apply digits_fuel_enough; lia. }
    rewrite app_nil_r. unfold value. destruct l; [by destruct Hne|done].
Qed.

(** Digits are no signs. *)
Lemma digits_head b n c l :
  2 <= b <= 16 -> 0 <= n -> digits b n = c :: l -> c <> "+"%char /\ c <> "-"%char.
Proof.
  intros Hb Hn Hd. pose proof (value_digits b n Hb Hn) as Hv. rewrite Hd in Hv. simpl in Hv.
  destruct (char_digit c) eqn:Hc; [|done]. split; intros ->; by vm_compute in Hc.
Qed.

Lemma digits_cons b n : 2 <= b <= 16 -> 0 <= n -> exists c l, digits b n = c :: l.
Proof.
  intros Hb Hn. pose proof (value_digits b n Hb Hn) as Hv. destruct (digits b n); [done|eauto].
Qed.

(** Reading back a written number: itself, or an error when out of range. *)
Lemma ParseInt_Itoa bits n :
  ParseInt bits (Itoa n) =
    if (- 2 ^ (bits - 1) <=? n) && (n <? 2 ^ (bits - 1)) then Some n else None.
Proof.
  pose proof (Z.pow_nonneg 2 (bits - 1) ltac:(lia)) as Hpow.
  unfold ParseInt, Itoa, Format. destruct (n <? 0) eqn:Hneg; breflect.
  - rewrite chars_app, chars_text. simpl. rewrite value_digits by lia. simpl.
    rewrite (proj2 (Z.ltb_lt n (2 ^ (bits - 1)))) by lia. rewrite andb_true_r.
    replace (2 ^ (bits - 1) <? - n) with (negb (- 2 ^ (bits - 1) <=? n))
      by (apply eq_true_iff_eq; rewrite negb_true_iff, Z.leb_gt, Z.ltb_lt; lia).
    destruct (_ <=? n); simpl; [f_equal; lia|done].
  - rewrite chars_text. destruct (digits_cons 10 n) as (c & l & Hd); [lia..|].
    destruct (digits_head 10 n c l) as [Hp Hm]; [lia..|done|].
    assert (match digits 10 n with
            | "+"%char :: l => (false, l) | "-"%char :: l => (true, l) | l => (false, l)
            end = (false, digits 10 n)) as ->.
    { rewrite Hd. destruct c as [[] [] [] [] [] [] [] []]; done. }
    rewrite value_digits by lia. simpl. rewrite (proj2 (Z.leb_le (- 2 ^ (bits - 1)) n)) by lia. simpl.
    replace (2 ^ (bits - 1) <=? n) with (negb (n <? 2 ^ (bits - 1)))
      by (apply eq_true_iff_eq; rewrite negb_true_iff, Z.leb_le, Z.ltb_ge; lia).
    by destruct (n <? 2 ^ (bits - 1)).
Qed.

Lemma ParseInt_Itoa_lemma bits n :
  1 <= bits -> - 2 ^ (bits - 1) <= n < 2 ^ (bits - 1) -> ParseInt bits (Itoa n) = Some n.
Proof.
  intros _ Hn. rewrite ParseInt_Itoa. rewrite (proj2 (Z.leb_le _ _)), (proj2 (Z.ltb_lt _ _)) by lia. done.
Qed.

(** A number out of range is refused, not truncated. *)
Lemma ParseInt_range bits s n :
  1 <= bits -> ParseInt bits s = Some n -> - 2 ^ (bits - 1) <= n < 2 ^ (bits - 1).
Proof.
  intros Hbits. pose proof (Z.pow_pos_nonneg 2 (bits - 1) ltac:(lia) ltac:(lia)) as Hpow.
  unfold ParseInt.
  destruct (match chars s with
            | "+"%char :: l => (false, l) | "-"%char :: l => (true, l) | l => (false, l)
            end) as [neg rest]. intros H. apply bind_Some in H as (un & Hv & H).
  assert (forall l acc x, 0 <= acc -> value_loop 10 acc l = Some x -> 0 <= x) as Hpos.
  { induction l as [|c l IH]; intros acc x Hacc Hx; simplify_eq/=; [done|].
    apply bind_Some in Hx as (d & Hd & Hx). destruct (d <? 10); [|done]. eapply IH; [|done].
    unfold char_digit in Hd. go_cases; breflect; lia. }
  assert (0 <= un) by (destruct rest; [done|]; by eapply Hpos in Hv).
  destruct neg; simpl in H; go_cases; breflect; lia.
Qed.

(** ** Hexadecimal bytes: [hex.EncodeToString] *)
Definition hex_byte (b : Z) : list ascii := [digit_char (b / 16); digit_char (b `mod` 16)].
Definition EncodeToString (bs : list Z) : string := text (bs ≫= hex_byte).

(** [hex.DecodeString]; [None] for a bad digit or an odd length. *)
Definition hex_digit (c : ascii) : option Z :=
  d ← char_digit c; if d <? 16 then Some d else None.
Fixpoint decode_hex (l : list ascii) : option (list Z) :=
  match l with
  | [] => Some []
  | [_] => None
  | a :: b :: l => x ← hex_digit a; y ← hex_digit b; bs ← decode_hex l; Some (x * 16 + y :: bs)
  end.
Definition DecodeString (s : string) : option (list Z) := decode_hex (chars s).

Lemma hex_digit_char d : 0 <= d < 16 -> hex_digit (digit_char d) = Some d.
Proof.
  intros. unfold hex_digit. rewrite char_digit_char by done. simpl.
  by rewrite (proj2 (Z.ltb_lt _ _)) by lia.
Qed.

Lemma DecodeString_EncodeToString bs :
  Forall (fun b => 0 <= b < 256) bs -> DecodeString (EncodeToString bs) = Some bs.
Proof.
  intros H. unfold DecodeString, EncodeToString. rewrite chars_text.
  induction H as [|b bs Hb _ IH]; [done|]. rewrite bind_cons. unfold hex_byte at 1.
  cbn [app decode_hex].
  rewrite (hex_digit_char (b / 16)) by (split; [apply Z.div_pos|apply Z.div_lt_upper_bound]; lia).
  rewrite (hex_digit_char (b `mod` 16)) by (apply Z.mod_pos_bound; lia).
  rewrite IH. simpl. do 2 f_equal. rewrite (Z.div_mod b 16) at 3 by lia. lia.
Qed.

End Text.
