(* ===== verification/Signing.v ===== *)
(** * Signing: what is hashed and signed, and who signed it

    [MakeValueSignature], [Value2HashForSign], [RecoverSigner] and the key
    helpers of [node/pkg/chain/utils/utils.go], and
    [Signer.MakeGlobalAggregateProof] of [node/pkg/chain/helper/signer.go].
    Keccak and secp256k1 are third-party code: the class [Crypto] lists the
    functions, [CryptoLaws] what the code relies on. *)

From S2P Require Import Prelude Errors Wire Text.
Import Text.

Local Open Scope Z_scope.

(** ** The crypto package *)
Class Crypto := {
  PrivateKey : Type;
  PublicKey : Type;
  Public : PrivateKey -> PublicKey;
  PubkeyToAddress : PublicKey -> Z;
  Keccak256 : list Z -> list Z;
  crypto_Sign : list Z -> PrivateKey -> res (list Z);
  SigToPub : list Z -> list Z -> res PublicKey;
  HexToECDSA : string -> res PrivateKey
}.

(** Documented behaviour: a hash has 32 bytes; a signature is 64 bytes and a
    recovery id of 0 or 1, and recovers the signer's public key. *)
Class CryptoLaws (C : Crypto) : Prop := {
  keccak_length b : length (Keccak256 b) = 32%nat;
  sign_recovers h pk sig :
    crypto_Sign h pk = Ok sig ->
    exists rs v, sig = rs ++ [v] /\ length rs = 64%nat /\ (v = 0 \/ v = 1) /\
      SigToPub h sig = Ok (Public pk)
}.

(** A 20-byte address, as a number. *)
Abbreviation Address := Z (only parsing).

Module Signing.
Section signing.
Context `{Crypto}.

(** ** Operations *)

(** [big.Int.Bytes()]: the absolute value, big-endian, without leading zeros. *)
Fixpoint be_bytes_loop (fuel : nat) (n : Z) (acc : list Z) : list Z :=
  match fuel with
  | O => acc
  | S fuel => if n =? 0 then acc else be_bytes_loop fuel (n / 256) (n `mod` 256 :: acc)
  end.
Definition big_Bytes (z : Z) : list Z := be_bytes_loop (S (Z.to_nat (Z.log2 (Z.abs z)))) (Z.abs z) [].

(** [copy(buf[32-len(b):], b)] into a fresh buffer of 32 bytes. *)
Definition pad32 (b : list Z) : list Z := replicate (32 - length b) 0 ++ b.

Definition preimage (value timestamp : int64) (name : list Z) : list Z :=
  pad32 (big_Bytes value) ++ pad32 (big_Bytes timestamp) ++ Keccak256 name.

(** [[]byte(name)]. *)
Definition string_bytes (s : string) : list Z := (fun c => Z.of_N (Ascii.N_of_ascii c)) <$> chars s.

Definition Value2HashForSign (value timestamp : int64) (name : string) : list Z :=
  let valueBuf := pad32 (big_Bytes value) in
  let timestampBuf := pad32 (big_Bytes timestamp) in
  let feedHash := Keccak256 (string_bytes name) in
  Keccak256 (concat [valueBuf; timestampBuf; feedHash]).

(** [None]: [signature[64]] out of range panics. *)
Definition MakeValueSignature (value timestamp : int64) (name : string) (pk : PrivateKey)
    : option (res (list Z)) :=
  let hash := Value2HashForSign value timestamp name in
  match crypto_Sign hash pk with
  | Err err => Some (Err err)
  | Ok signature =>
      v ← signature !! 64%nat;
      Some (Ok (if v <? 27 then <[64%nat := (v + 27) `mod` 256]> signature else signature))
  end.

Definition RecoverSigner (hash signature : list Z) : res Address :=
  match signature !! 64%nat with
  | Some v =>
      if (length signature =? 65)%nat then
        let signatureCopy :=
          if (v =? 27) || (v =? 28) then <[64%nat := (v - 27) `mod` 256]> signature else signature in
        match SigToPub hash signatureCopy with
        | Err err => Err err
        | Ok pubKey => Ok (PubkeyToAddress pubKey)
        end
      else Err ErrChainInvalidSignatureLength
  | None => Err ErrChainInvalidSignatureLength
  end.

Definition StringToPk (pk : string) : res PrivateKey := HexToECDSA (TrimPrefix pk "0x").

(** The address's text is not needed by the callers modelled here: the result
    is the address that the hexadecimal text denotes. *)
Definition StringPkToAddress (pk : string) : res Address :=
  match StringToPk pk with
  | Err err => Err err
  | Ok privateKey => Ok (PubkeyToAddress (Public privateKey))
  end.

(** A key that does not parse yields nonce 0 and no error. *)
Definition GetNonceFromPk (pkString : string) (PendingNonceAt : Address -> res uint64)
    : res uint64 :=
  match HexToECDSA pkString with
  | Err _ => Ok 0
  | Ok privateKey => PendingNonceAt (PubkeyToAddress (Public privateKey))
  end.

Definition MakeGlobalAggregateProof (pk : PrivateKey) (val : int64) (timestamp : Time)
    (name : string) : option (res (list Z)) :=
  MakeValueSignature val (UnixMilli timestamp) name pk.

(** ** The encoding is injective *)

(** The number big-endian bytes denote. *)
Definition be_value (l : list Z) : Z := foldl (fun acc b => acc * 256 + b) 0 l.

Lemma be_value_app l1 l2 :
  be_value (l1 ++ l2) = be_value l1 * 256 ^ Z.of_nat (length l2) + be_value l2.
Proof.
  unfold be_value. rewrite foldl_app. generalize (foldl (fun acc b => acc * 256 + b) 0 l1).
  assert (forall l a, foldl (fun acc b => acc * 256 + b) a l
    = a * 256 ^ Z.of_nat (length l) + foldl (fun acc b => acc * 256 + b) 0 l) as Hgen.
  { induction l as [|b l IH]; intros a; [simpl; lia|]. cbn [foldl length].
    rewrite IH, (IH (0 * 256 + b)), Nat2Z.inj_succ, Z.pow_succ_r by lia. lia. }
  intros z. apply Hgen.
Qed.

Lemma be_value_zeros k l : be_value (replicate k 0 ++ l) = be_value l.
Proof. induction k as [|k IH]; [done|]. exact IH. Qed.

Lemma be_bytes_loop_value fuel : forall n acc,
  0 <= n < 256 ^ Z.of_nat fuel ->
  exists l, be_bytes_loop fuel n acc = l ++ acc /\ be_value l = n.
Proof.
  induction fuel as [|fuel IH]; intros n acc Hn.
  - exists []. simpl in Hn. assert (n = 0) as -> by lia. done.
  - cbn [be_bytes_loop]. destruct (n =? 0) eqn:H0; breflect; [subst n; by exists []|].
    rewrite Nat2Z.inj_succ, Z.pow_succ_r in Hn by lia.
    destruct (IH (n / 256) (n `mod` 256 :: acc)) as (l & Hl & Hv).
    { split; [apply Z.div_pos; lia|]. apply Z.div_lt_upper_bound; lia. }
    exists (l ++ [n `mod` 256]). split; [rewrite Hl; by rewrite <- app_assoc|].
    rewrite be_value_app, Hv. pose proof (Z.div_mod n 256 ltac:(lia)). unfold be_value. simpl. lia.
Qed.

Lemma be_bytes_loop_length fuel : forall k n acc,
  0 <= n < 256 ^ Z.of_nat k -> (length (be_bytes_loop fuel n acc) <= k + length acc)%nat.
Proof.
  induction fuel as [|fuel IH]; intros k n acc Hn; cbn [be_bytes_loop]; [lia|].
  destruct (n =? 0) eqn:H0; breflect; [lia|].
  destruct k as [|k]; [simpl in Hn; lia|]. rewrite Nat2Z.inj_succ, Z.pow_succ_r in Hn by lia.
  etrans; [apply (IH k)|simpl; lia].
  split; [apply Z.div_pos; lia|]. apply Z.div_lt_upper_bound; lia.
Qed.

Lemma big_Bytes_value z : be_value (big_Bytes z) = Z.abs z.
Proof.
  unfold big_Bytes. pose proof (Z.log2_nonneg (Z.abs z)).
  destruct (be_bytes_loop_value (S (Z.to_nat (Z.log2 (Z.abs z)))) (Z.abs z) [])
    as (l & -> & Hv); [|by rewrite app_nil_r].
  split; [lia|]. rewrite Nat2Z.inj_succ, Z2Nat.id by done.
  destruct (decide (Z.abs z = 0)) as [->|Hz]; [done|].
  apply Z.lt_le_trans with (2 ^ Z.succ (Z.log2 (Z.abs z))); [apply Z.log2_spec; lia|].
  apply Z.pow_le_mono_l. lia.
Qed.

(** A 64-bit number has at most eight bytes, so the buffer is never too short. *)
Lemma big_Bytes_length z : in_int64 z -> (length (big_Bytes z) <= 8)%nat.
Proof.
  intros Hz. unfold big_Bytes. etrans; [apply (be_bytes_loop_length _ 8)|simpl; lia].
  change (256 ^ Z.of_nat 8) with (2 ^ 64). int_lia.
Qed.

Lemma pad32_length z : in_int64 z -> length (pad32 (big_Bytes z)) = 32%nat.
Proof.
  intros Hz. unfold pad32. rewrite length_app, length_replicate.
  pose proof (big_Bytes_length z Hz). lia.
Qed.

Lemma pad32_value z : be_value (pad32 (big_Bytes z)) = Z.abs z.
Proof. unfold pad32. rewrite be_value_zeros. apply big_Bytes_value. Qed.

Lemma big_Bytes_opp z : big_Bytes (- z) = big_Bytes z.
Proof. unfold big_Bytes. by rewrite Z.abs_opp. Qed.

Lemma preimage_hash v ts name :
  Value2HashForSign v ts name = Keccak256 (preimage v ts (string_bytes name)).
Proof. unfold Value2HashForSign, preimage. simpl. by rewrite app_nil_r. Qed.

(** ** Theorems *)
Context {Claws : CryptoLaws _}.

Lemma MakeValueSignature_Ok v ts name pk sig0 :
  crypto_Sign (Value2HashForSign v ts name) pk = Ok sig0 ->
  exists sig, MakeValueSignature v ts name pk = Some (Ok sig) /\ length sig = 65%nat /\
    RecoverSigner (Value2HashForSign v ts name) sig = Ok (PubkeyToAddress (Public pk)).
Proof.
  intros Hs. unfold MakeValueSignature. rewrite Hs.
  destruct (sign_recovers _ _ _ Hs) as (rs & b & -> & Hlen & Hb & Hrec).
  assert (forall x, (rs ++ [x]) !! 64%nat = Some x) as Hget.
  { intros x. rewrite lookup_app_r by lia. by rewrite Hlen. }
  assert (forall x y, <[64%nat := y]> (rs ++ [x]) = rs ++ [y]) as Hput.
  { intros x y. rewrite insert_app_r_alt by lia. by rewrite Hlen. }
  rewrite Hget. cbn [mbind option_bind]. rewrite (proj2 (Z.ltb_lt b 27)) by lia. rewrite Hput.
  eexists. split; [reflexivity|]. rewrite length_app, Hlen. split; [done|].
  unfold RecoverSigner. rewrite Hget, length_app, Hlen. cbn [length Nat.add Nat.eqb].
  rewrite Hput.
  assert (((b + 27) `mod` 256 =? 27) || ((b + 27) `mod` 256 =? 28) = true) as ->
    by (destruct Hb as [-> | ->]; reflexivity).
  assert (((b + 27) `mod` 256 - 27) `mod` 256 = b) as -> by (destruct Hb as [-> | ->]; reflexivity).
  by rewrite Hrec.
Qed.

Lemma MakeValueSignature_recover v ts name pk sig :
  MakeValueSignature v ts name pk = Some (Ok sig) ->
  length sig = 65%nat /\
  RecoverSigner (Value2HashForSign v ts name) sig = Ok (PubkeyToAddress (Public pk)).
Proof.
  intros Hm. destruct (crypto_Sign (Value2HashForSign v ts name) pk) as [sig0|err] eqn:Hs.
  - destruct (MakeValueSignature_Ok _ _ _ _ _ Hs) as (sig' & Hm' & ? & ?). by simplify_eq.
  - unfold MakeValueSignature in Hm. by rewrite Hs in Hm.
Qed.

(** A signature that [MakeValueSignature] makes is recovered, by
    [RecoverSigner] over the hash of the same value, timestamp and name, to the
    address of the key that signed, and it has the 65 bytes the chunks of a
    proof are cut into; signing never panics. *)
Theorem signature_recovers v ts name pk :
  (exists sig, MakeValueSignature v ts name pk = Some (Ok sig) /\ length sig = 65%nat /\
     RecoverSigner (Value2HashForSign v ts name) sig = Ok (PubkeyToAddress (Public pk))) \/
  (exists err, MakeValueSignature v ts name pk = Some (Err err)).
Proof.
  destruct (crypto_Sign (Value2HashForSign v ts name) pk) as [sig0|err] eqn:Hs.
  - left. by eapply MakeValueSignature_Ok.
  - right. exists err. unfold MakeValueSignature. by rewrite Hs.
Qed.

(** The bytes that are hashed determine the feed's hash, and value and
    timestamp up to their sign: two submissions with different non-negative
    values or times, or different feeds, never share them. *)
Theorem preimage_injective v ts name v' ts' name' :
  in_int64 v -> in_int64 ts -> in_int64 v' -> in_int64 ts' ->
  preimage v ts name = preimage v' ts' name' ->
  Z.abs v = Z.abs v' /\ Z.abs ts = Z.abs ts' /\ Keccak256 name = Keccak256 name'.
Proof.
  unfold preimage. intros Hv Ht Hv' Ht' Heq.
  apply app_inj_1 in Heq as [H1 Heq]; [|by rewrite !pad32_length].
  apply app_inj_1 in Heq as [H2 H3]; [|by rewrite !pad32_length].
  apply (f_equal be_value) in H1, H2. rewrite !pad32_value in H1, H2. done.
Qed.

(** The sign of a value is not hashed: a signature for a price is also
    one for its negative. *)
Theorem sign_of_value_lost v ts name :
  Value2HashForSign (- v) ts name = Value2HashForSign v ts name.
Proof. unfold Value2HashForSign. by rewrite big_Bytes_opp. Qed.

End signing.

(** A toy scheme that satisfies the laws. *)
Definition toy_crypto : Crypto := {|
  PrivateKey := Z; PublicKey := Z; Public pk := pk; PubkeyToAddress p := p;
  Keccak256 b := take 32 (b ++ replicate 32 0);
  crypto_Sign h pk := Ok (replicate 64 pk ++ [0]);
  SigToPub h sig := match sig with pk :: _ => Ok pk | [] => Err ErrChainInvalidSignatureLength end;
  HexToECDSA s := Ok (Z.of_nat (String.length s))
|}.

Lemma toy_laws : CryptoLaws toy_crypto.
Proof.
  constructor.
  - intros b. change (length (take 32 (b ++ replicate 32 0)) = 32%nat). rewrite length_take, length_app, length_replicate. lia.
  - intros h pk sig Hs. simpl in *. simplify_eq. exists (replicate 64 pk), 0. auto.
Qed.

Lemma signature_recovers_witness : exists r,
  @RecoverSigner toy_crypto (@Value2HashForSign toy_crypto 5 6 "BTC-USDT") (replicate 64 9 ++ [27]) = Ok r.
Proof.
  destruct (@signature_recovers toy_crypto toy_laws 5 6 "BTC-USDT" 9) as [(sig & Hm & _ & H)|[e He]].
  - exists 9. assert (sig = replicate 64 9 ++ [27]) as -> by (vm_compute in Hm; by simplify_eq). exact H.
  - exfalso. vm_compute in He. done.
Defined.

Lemma preimage_injective_witness : Z.abs 5 = Z.abs (-5).
Proof.
  apply (@preimage_injective toy_crypto 5 6 [1] (-5) 6 [1]); [by vm_compute..|].
  reflexivity.
Defined.
End Signing.
