(* ===== verification/Collector.v ===== *)
(** * Collector: the data the DAL serves

    [node/pkg/dal/collector/collector.go] and [utils.go].  A submission of an
    aggregator is checked against the whitelist of oracles, its proof is put in
    the order of the whitelist, and the result is published and remembered as
    the latest of its symbol.

    A Go map is iterated in an unspecified order: [map_order] stands for the
    order of one iteration, any permutation of the entries. *)

From S2P Require Import Prelude Errors Wire Text Signing Aggregator.
Import Text Signing Aggregator.

Local Open Scope Z_scope.

Module Collector.
Section collector.
Context `{Crypto}.

(** ** Proofs *)

(** [for i := 0; i < len(proof); i += 65]. *)
Fixpoint chunk_loop (fuel : nat) (proof : list Z) : list (list Z) :=
  match fuel with
  | O => []
  | S fuel =>
      match proof with [] => [] | _ => take 65 proof :: chunk_loop fuel (drop 65 proof) end
  end.
Definition splitProofToChunk (proof : list Z) : res (list (list Z)) :=
  if (length proof =? 0)%nat then Err ErrDalEmptyProofParam
  else if negb (length proof `mod` 65 =? 0)%nat then Err ErrDalInvalidProofLength
  else Ok (chunk_loop (length proof) proof).

Section order.
Context (map_order : list (list Z) -> list (list Z)).

Definition getUniqueProofChunks (proof : list Z) : res (list (list Z)) :=
  match splitProofToChunk proof with
  | Err err => Err err
  | Ok proofs => Ok (map_order (remove_dups proofs))
  end.

Fixpoint getSignerListFromProofs (hash : list Z) (proofChunks : list (list Z))
    : res (list Address) :=
  match proofChunks with
  | [] => Ok []
  | p :: ps =>
      match RecoverSigner hash p with
      | Err err => Err err
      | Ok signer =>
          match getSignerListFromProofs hash ps with
          | Err err => Err err
          | Ok signers => Ok (signer :: signers)
          end
      end
  end.

Definition isWhitelisted (signer : Address) (whitelist : list Address) : bool :=
  bool_decide (signer ∈ whitelist).

Definition checkForNonWhitelistedSigners (signers whitelist : list Address) : option error :=
  if forallb (fun signer => isWhitelisted signer whitelist) signers then None
  else Some (Sentinel ErrDalSignerNotWhitelisted).

(** Later chunks replace earlier ones of the same signer. *)
Definition getSignerMap (signers : list Address) (proofChunks : list (list Z))
    : gmap Address (list Z) :=
  foldl (fun m sp => <[sp.1 := sp.2]> m) ∅ (zip signers proofChunks).

Definition validateProof (signerMap : gmap Address (list Z)) (whitelist : list Address)
    : res (list Z) :=
  let tmpProofs := omap (fun signer => signerMap !! signer) whitelist in
  if (length tmpProofs =? 0)%nat then Err ErrDalEmptyValidProofs else Ok (concat tmpProofs).

Definition orderProof (proof : list Z) (value : int64) (timestamp : Time) (symbol : string)
    (cachedWhitelist : list Address) : res (list Z) :=
  match getUniqueProofChunks proof with
  | Err err => Err err
  | Ok proofChunks =>
      let hash := Value2HashForSign value (UnixMilli timestamp) symbol in
      match getSignerListFromProofs hash proofChunks with
      | Err err => Err err
      | Ok signers =>
          match checkForNonWhitelistedSigners signers cachedWhitelist with
          | Some err => Err err
          | None => validateProof (getSignerMap signers proofChunks) cachedWhitelist
          end
      end
  end.
End order.

(** ** Lemmas on chunks *)
Lemma chunk_loop_concat l : forall fuel,
  Forall (fun c => length c = 65%nat) l -> (length l <= fuel)%nat -> chunk_loop fuel (concat l) = l.
Proof.
  induction l as [|c l IH]; intros fuel Hl Hf; [by destruct fuel|].
  apply Forall_cons in Hl as [Hc Hl]. simpl in Hf. destruct fuel as [|fuel]; [lia|].
  cbn [concat chunk_loop]. rewrite take_app_length', drop_app_length' by done.
  rewrite IH by (done || lia). destruct c; [done|done].
Qed.

Lemma length_concat_65 (l : list (list Z)) :
  Forall (fun c => length c = 65%nat) l -> length (concat l) = (65 * length l)%nat.
Proof. induction 1 as [|c l Hc _ IH]; [done|]. simpl. rewrite length_app, Hc, IH. lia. Qed.

Lemma splitProofToChunk_concat l :
  l <> [] -> Forall (fun c => length c = 65%nat) l -> splitProofToChunk (concat l) = Ok l.
Proof.
  intros Hne Hl. unfold splitProofToChunk. rewrite length_concat_65 by done.
  destruct l as [|c l]; [done|].
  rewrite (proj2 (Nat.eqb_neq _ _)) by (simpl; lia).
  rewrite Nat.mul_comm, Nat.Div0.mod_mul. cbn [negb Nat.eqb].
  by rewrite chunk_loop_concat by (done || lia).
Qed.

Lemma chunk_loop_spec fuel : forall proof,
  (length proof <= fuel)%nat -> (length proof `mod` 65 = 0)%nat ->
  concat (chunk_loop fuel proof) = proof /\ Forall (fun c => length c = 65%nat) (chunk_loop fuel proof).
Proof.
  induction fuel as [|fuel IH]; intros proof Hf Hm.
  - destruct proof; [by split|simpl in Hf; lia].
  - cbn [chunk_loop]. destruct (decide (proof = [])) as [->|Hne]; [by split|].
    assert (65 <= length proof)%nat as H65.
    { destruct (decide (length proof < 65)%nat) as [Hlt|]; [|lia].
      rewrite Nat.mod_small in Hm by done. by apply nil_length_inv in Hm. }
    destruct (IH (drop 65 proof)) as [Hc Hall].
    { rewrite length_drop. lia. }
    { rewrite length_drop. replace (length proof) with (length proof - 65 + 1 * 65)%nat in Hm by lia.
      by rewrite Nat.Div0.mod_add in Hm. }
    destruct proof as [|b proof]; [done|]. cbn [concat]. rewrite Hc, take_drop. split; [done|].
    constructor; [|done]. rewrite length_take. lia.
Qed.

Lemma splitProofToChunk_Ok proof l :
  splitProofToChunk proof = Ok l -> concat l = proof /\ Forall (fun c => length c = 65%nat) l.
Proof.
  unfold splitProofToChunk. intros Hs. go_cases; breflect.
  apply chunk_loop_spec; [lia|by apply Nat.eqb_eq].
Qed.

(** ** Lemmas on signers *)
Lemma getSignerList_Forall2 hash ps : forall signers,
  getSignerListFromProofs hash ps = Ok signers <->
  Forall2 (fun p s => RecoverSigner hash p = Ok s) ps signers.
Proof.
  induction ps as [|p ps IH]; intros signers; simpl.
  - split; [intros; by simplify_eq|]. by inversion 1.
  - split.
    + intros Hs. destruct (RecoverSigner hash p) eqn:Hr; [|done].
      destruct (getSignerListFromProofs hash ps) eqn:Hps; [|done]. simplify_eq.
      constructor; [done|]. by apply IH.
    + inversion 1 as [|? s ? ss Hr Hps]; subst. rewrite Hr. apply IH in Hps. by rewrite Hps.
Qed.

Lemma checkForNonWhitelistedSigners_None signers whitelist :
  checkForNonWhitelistedSigners signers whitelist = None <-> Forall (fun s => s ∈ whitelist) signers.
Proof.
  unfold checkForNonWhitelistedSigners. split.
  - destruct (forallb _ _) eqn:Hb; [|done]. intros _. apply Forall_forall. intros s Hs.
    rewrite forallb_forall in Hb. specialize (Hb s ltac:(by apply list_elem_of_In)).
    unfold isWhitelisted in Hb. by breflect.
  - intros Hall. replace (forallb _ _) with true; [done|]. symmetry. apply forallb_forall.
    intros s Hs. unfold isWhitelisted. apply bool_decide_true. rewrite Forall_forall in Hall.
    apply Hall. by apply list_elem_of_In.
Qed.

(** Every entry of the map is a pair of the zipped lists. *)
Lemma getSignerMap_elem signers ps s p :
  getSignerMap signers ps !! s = Some p -> (s, p) ∈ zip signers ps.
Proof.
  unfold getSignerMap. generalize (zip signers ps). intros l. revert s p.
  induction l as [|[s' p'] l IH] using rev_ind; intros s p Hm;
    [simpl in Hm; by rewrite lookup_empty in Hm|].
  rewrite foldl_app in Hm. simpl in Hm. apply elem_of_app.
  destruct (decide (s' = s)) as [->|Hne].
  - rewrite lookup_insert_eq in Hm. simplify_eq. right. by left.
  - rewrite lookup_insert_ne in Hm by done. left. by apply IH.
Qed.

(** With distinct signers, the map holds exactly the pairs. *)
Lemma getSignerMap_NoDup signers ps :
  NoDup signers -> length signers = length ps ->
  forall s p, getSignerMap signers ps !! s = Some p <-> (s, p) ∈ zip signers ps.
Proof.
  intros Hnd Hlen s p. split; [apply getSignerMap_elem|].
  rewrite <- (fst_zip signers ps) in Hnd by lia. unfold getSignerMap. revert Hnd.
  generalize (zip signers ps). intros l. clear Hlen. revert s p.
  induction l as [|[s' p'] l IH] using rev_ind; intros s p Hnd Hin; [by apply not_elem_of_nil in Hin|].
  rewrite foldl_app. simpl. rewrite fmap_app in Hnd. apply NoDup_app in Hnd as (Hnd & Hdis & _).
  apply elem_of_app in Hin as [Hin|Hin].
  - rewrite lookup_insert_ne; [by apply IH|]. intros ->. apply (Hdis s); [|by left].
    by apply (list_elem_of_fmap_2 fst) in Hin.
  - apply list_elem_of_singleton in Hin. simplify_eq. by rewrite lookup_insert_eq.
Qed.

(** Zipping chunks with the signers they recover to. *)
Lemma Forall2_zip_recover hash ps signers s p :
  Forall2 (fun p s => RecoverSigner hash p = Ok s) ps signers ->
  (s, p) ∈ zip signers ps <-> p ∈ ps /\ RecoverSigner hash p = Ok s.
Proof.
  induction 1 as [|p' s' ps signers Hr _ IH]; [set_solver|]. simpl.
  rewrite !elem_of_cons, IH. split.
  - intros [?|[? ?]]; simplify_eq; auto.
  - intros [[->|?] ?]; [left; congruence|by right].
Qed.

Lemma Forall2_recover_NoDup hash ps signers :
  Forall2 (fun p s => RecoverSigner hash p = Ok s) ps signers ->
  NoDup ps -> (forall p q, p ∈ ps -> q ∈ ps -> RecoverSigner hash p = RecoverSigner hash q -> p = q) ->
  NoDup signers.
Proof.
  induction 1 as [|p s ps signers Hr Hall IH]; intros Hnd Hinj; constructor.
  - intros Hin. apply NoDup_cons in Hnd as [Hp _].
    apply list_elem_of_lookup in Hin as [i Hi].
    destruct (Forall2_lookup_r _ _ _ _ _ Hall Hi) as (q & Hq & Hrq).
    apply Hp. rewrite (Hinj p q); [by eapply list_elem_of_lookup_2|by left| |congruence].
    right. by eapply list_elem_of_lookup_2.
  - apply NoDup_cons in Hnd as [_ Hnd]. apply IH; [done|]. intros q q' Hq Hq'. apply Hinj; by right.
Qed.

Lemma omap_concat_pairs (m : gmap Z (list Z)) wl :
  omap (fun s => m !! s) wl = (omap (fun s => p ← m !! s; Some (s, p)) wl).*2.
Proof. induction wl as [|s wl IH]; [done|]. simpl. destruct (m !! s); simpl; [by f_equal|done]. Qed.

Lemma omap_pairs_sublist (m : gmap Z (list Z)) wl :
  (omap (fun s => p ← m !! s; Some (s, p)) wl).*1 `sublist_of` wl.
Proof.
  induction wl as [|s wl IH]; [done|]. simpl. destruct (m !! s); simpl.
  - by apply sublist_skip.
  - by apply sublist_cons.
Qed.

(** ** Theorems on proofs *)
Section ordered.
Context (map_order : list (list Z) -> list (list Z)).
Hypothesis map_order_perm : forall l, map_order l ≡ₚ l.

Lemma getUniqueProofChunks_Ok proof ps :
  getUniqueProofChunks map_order proof = Ok ps ->
  NoDup ps /\ exists l, concat l = proof /\ Forall (fun c => length c = 65%nat) l /\ forall c, c ∈ ps <-> c ∈ l.
Proof.
  unfold getUniqueProofChunks. destruct (splitProofToChunk proof) as [l|] eqn:Hs; [|done].
  intros. simplify_eq. apply splitProofToChunk_Ok in Hs as [Hc H65]. split.
  - rewrite map_order_perm. apply NoDup_remove_dups.
  - exists l. split_and!; [done|done|]. intros c. rewrite map_order_perm. apply elem_of_remove_dups.
Qed.

Lemma orderProof_inv proof v ts symbol wl out :
  orderProof map_order proof v ts symbol wl = Ok out ->
  let hash := Value2HashForSign v (UnixMilli ts) symbol in
  exists l chunks, concat chunks = proof /\ Forall (fun c => length c = 65%nat) chunks /\
    out = concat l.*2 /\ l.*1 `sublist_of` wl /\ l <> [] /\
    (forall s p, (s, p) ∈ l -> p ∈ chunks /\ RecoverSigner hash p = Ok s) /\
    (forall p, p ∈ chunks -> exists s, s ∈ wl /\ RecoverSigner hash p = Ok s).
Proof.
  unfold orderProof. intros Ho. simpl. set (hash := Value2HashForSign v (UnixMilli ts) symbol) in *.
  destruct (getUniqueProofChunks map_order proof) as [ps|] eqn:Hu; [|done].
  destruct (getSignerListFromProofs hash ps) as [signers|] eqn:Hs; [|done].
  destruct (checkForNonWhitelistedSigners signers wl) eqn:Hw; [done|].
  apply getUniqueProofChunks_Ok in Hu as (Hnd & chunks & Hc & H65 & Hin).
  apply getSignerList_Forall2 in Hs. apply checkForNonWhitelistedSigners_None in Hw.
  unfold validateProof in Ho. rewrite omap_concat_pairs in Ho.
  set (l := omap (fun s => p ← getSignerMap signers ps !! s; Some (s, p)) wl) in *.
  rewrite length_fmap in Ho. destruct (length l =? 0)%nat eqn:Hl; [done|]. simplify_eq.
  exists l, chunks. split_and!; [done|done|done|apply omap_pairs_sublist| | |].
  - intros ->. done.
  - intros s p Hsp. apply list_elem_of_omap in Hsp as (s' & _ & Hm).
    destruct (getSignerMap signers ps !! s') eqn:Hg; simplify_eq/=.
    apply getSignerMap_elem in Hg. apply (Forall2_zip_recover hash) in Hg as [? ?]; [|done].
    split; [by apply Hin|done].
  - intros p Hp%Hin. apply list_elem_of_lookup in Hp as [i Hi].
    destruct (Forall2_lookup_l _ _ _ _ _ Hs Hi) as (s & Hsi & Hr).
    exists s. split; [|done]. rewrite Forall_forall in Hw. apply Hw. by eapply list_elem_of_lookup_2.
Qed.

(** C9: a proof that the DAL serves is the concatenation, in the order of the
    whitelist, of 65-byte chunks of the submitted proof, one per oracle, each a
    signature by that oracle of exactly this value, time and symbol; and a
    submission with a chunk of anyone else is refused as a whole. *)
Theorem orderProof_sound proof v ts symbol wl out :
  orderProof map_order proof v ts symbol wl = Ok out ->
  let hash := Value2HashForSign v (UnixMilli ts) symbol in
  exists l chunks, concat chunks = proof /\ Forall (fun c => length c = 65%nat) chunks /\
    out = concat l.*2 /\ l.*1 `sublist_of` wl /\ l <> [] /\
    (forall s p, (s, p) ∈ l -> p ∈ chunks /\ RecoverSigner hash p = Ok s) /\
    (forall p, p ∈ chunks -> exists s, s ∈ wl /\ RecoverSigner hash p = Ok s).
Proof. apply orderProof_inv. Qed.
End ordered.

(** *** Honest oracles *)
Section honest.
Context {Claws : CryptoLaws _} (v : int64) (ts : Time) (symbol : string).
Abbreviation hash := (Value2HashForSign v (UnixMilli ts) symbol).

(** [sigs] are the signatures of this submission by the keys [ks]. *)
Definition signed_by (ks : list PrivateKey) (sigs : list (list Z)) : Prop :=
  Forall2 (fun pk sig => MakeValueSignature v (UnixMilli ts) symbol pk = Some (Ok sig)) ks sigs.
Definition addresses (ks : list PrivateKey) : list Address := (fun pk => PubkeyToAddress (Public pk)) <$> ks.

Lemma signed_by_recover ks sigs :
  signed_by ks sigs -> Forall2 (fun p s => RecoverSigner hash p = Ok s) sigs (addresses ks).
Proof.
  unfold signed_by, addresses. induction 1 as [|pk sig ks sigs Hm _ IH]; [done|]. simpl. constructor; [|done].
  by apply MakeValueSignature_recover in Hm as [_ ?].
Qed.

Lemma signed_by_length ks sigs : signed_by ks sigs -> Forall (fun c => length c = 65%nat) sigs.
Proof.
  unfold signed_by. induction 1 as [|pk sig ks sigs Hm _ IH]; constructor; [|done].
  by apply MakeValueSignature_recover in Hm as [? _].
Qed.

Lemma signers_inj ps signers :
  Forall2 (fun p s => RecoverSigner hash p = Ok s) ps signers -> NoDup signers ->
  NoDup ps /\ forall p q, p ∈ ps -> q ∈ ps -> RecoverSigner hash p = RecoverSigner hash q -> p = q.
Proof.
  induction 1 as [|p s ps signers Hr Hall IH]; intros Hnd.
  { split; [constructor|]. intros p q Hp. by apply not_elem_of_nil in Hp. }
  apply NoDup_cons in Hnd as [Hs Hnd]. destruct (IH Hnd) as [Hps Hinj].
  assert (forall q, q ∈ ps -> RecoverSigner hash q <> Ok s) as Hno.
  { intros q Hq Heq. apply list_elem_of_lookup in Hq as [i Hi].
    destruct (Forall2_lookup_l _ _ _ _ _ Hall Hi) as (s' & Hs' & Hr'). apply Hs.
    simplify_eq. rewrite Heq in Hr'. simplify_eq. by eapply list_elem_of_lookup_2. }
  split.
  - constructor; [|done]. intros Hp. by apply (Hno p).
  - intros a b [->|Ha]%elem_of_cons [->|Hb]%elem_of_cons Hab; [done| | |by apply Hinj].
    + exfalso. apply (Hno b Hb). congruence.
    + exfalso. apply (Hno a Ha). congruence.
Qed.

(** The chunks the DAL looks at, whatever the map order, with their signers. *)
Lemma chunks_of_perm map_order ks sigs sigs' :
  (forall l, map_order l ≡ₚ l) -> signed_by ks sigs -> NoDup (addresses ks) -> sigs' ≡ₚ sigs ->
  exists signers, getSignerListFromProofs hash (map_order (remove_dups sigs')) = Ok signers /\
    signers ≡ₚ addresses ks /\
    getSignerMap signers (map_order (remove_dups sigs')) = list_to_map (zip (addresses ks) sigs).
Proof.
  intros Hord Hsig Hnd Hp. pose proof (signed_by_recover _ _ Hsig) as Hrec.
  destruct (signers_inj _ _ Hrec Hnd) as [Hnds Hinj].
  set (ps := map_order (remove_dups sigs')).
  assert (ps ≡ₚ sigs) as Hps.
  { unfold ps. rewrite Hord. apply NoDup_Permutation; [apply NoDup_remove_dups|done|].
    intros c. by rewrite elem_of_remove_dups, Hp. }
  assert (exists signers, Forall2 (fun p s => RecoverSigner hash p = Ok s) ps signers) as [signers Hs].
  { clear Hinj Hnds. assert (Forall (fun p => exists s, RecoverSigner hash p = Ok s) ps) as Hall.
    { rewrite Hps. apply Forall_forall. intros p Hin. apply list_elem_of_lookup in Hin as [i Hi].
      destruct (Forall2_lookup_l _ _ _ _ _ Hrec Hi) as (s & _ & ?). eauto. }
    clear Hps. induction Hall as [|p l [s Hps] _ [ss IH]]; [by exists []|]. exists (s :: ss). by constructor. }
  assert (NoDup signers) as Hnd'.
  { eapply Forall2_recover_NoDup; [done|by rewrite Hps|]. intros p q Hp1 Hq1. rewrite Hps in Hp1, Hq1. by apply Hinj. }
  exists signers. split_and!.
  - by apply getSignerList_Forall2.
  - apply NoDup_Permutation; [done|done|]. intros s. split; intros Hin.
    + apply list_elem_of_lookup in Hin as [i Hi]. destruct (Forall2_lookup_r _ _ _ _ _ Hs Hi) as (p & Hpi & Hr).
      assert (p ∈ sigs) as Hin by (rewrite <- Hps; by eapply list_elem_of_lookup_2).
      apply list_elem_of_lookup in Hin as [j Hj]. destruct (Forall2_lookup_l _ _ _ _ _ Hrec Hj) as (s' & Hs' & Hr').
      rewrite Hr in Hr'. simplify_eq. by eapply list_elem_of_lookup_2.
    + apply list_elem_of_lookup in Hin as [i Hi]. destruct (Forall2_lookup_r _ _ _ _ _ Hrec Hi) as (p & Hpi & Hr).
      assert (p ∈ ps) as Hin by (rewrite Hps; by eapply list_elem_of_lookup_2).
      apply list_elem_of_lookup in Hin as [j Hj]. destruct (Forall2_lookup_l _ _ _ _ _ Hs Hj) as (s' & Hs' & Hr').
      rewrite Hr in Hr'. simplify_eq. by eapply list_elem_of_lookup_2.
  - apply map_eq. intros s. apply option_eq. intros p.
    rewrite getSignerMap_NoDup; [|done|symmetry; by eapply Forall2_length].
    rewrite (Forall2_zip_recover hash) by done. rewrite Hps.
    rewrite <- (Forall2_zip_recover hash sigs (addresses ks)) by done.
    apply elem_of_list_to_map. rewrite fst_zip; [done|].
    rewrite <- (Forall2_length _ _ _ Hrec). lia.
Qed.

Lemma orderProof_honest map_order ks sigs sigs' wl :
  (forall l, map_order l ≡ₚ l) -> ks <> [] -> signed_by ks sigs -> NoDup (addresses ks) ->
  Forall (fun a => a ∈ wl) (addresses ks) -> sigs' ≡ₚ sigs ->
  orderProof map_order (concat sigs') v ts symbol wl =
    Ok (concat (omap (fun a => (list_to_map (zip (addresses ks) sigs) : gmap Z (list Z)) !! a) wl)).
Proof.
  intros Hord Hne Hsig Hnd Hwl Hp.
  destruct (chunks_of_perm map_order ks sigs sigs' Hord Hsig Hnd Hp) as (signers & Hs & Hperm & Hm).
  assert (sigs <> []) as Hne'.
  { intros ->. apply Forall2_nil_inv_r in Hsig. done. }
  assert (sigs' <> []) as Hne2 by (intros ->; by apply Permutation_nil_l in Hp).
  unfold orderProof, getUniqueProofChunks. rewrite splitProofToChunk_concat; [|done|].
  2:{ rewrite Hp. by eapply signed_by_length. }
  rewrite Hs. rewrite (proj2 (checkForNonWhitelistedSigners_None signers wl)) by by rewrite Hperm.
  rewrite Hm. unfold validateProof.
  destruct ks as [|k ks]; [done|]. destruct sigs as [|sig sigs]; [done|].
  destruct (length _ =? 0)%nat eqn:Hlen; [|done]. exfalso. apply Nat.eqb_eq, nil_length_inv in Hlen.
  assert (sig ∈ omap (fun a => (list_to_map (zip (addresses (k :: ks)) (sig :: sigs)) : gmap Z (list Z)) !! a) wl)
    as Hin; [|rewrite Hlen in Hin; by apply not_elem_of_nil in Hin].
  apply list_elem_of_omap. exists (PubkeyToAddress (Public k)). split.
  - by apply Forall_cons in Hwl as [? _].
  - simpl. by rewrite lookup_insert_eq.
Qed.

(** When oracles of the whitelist sign the same value, time and symbol,
    and their signatures are joined in any order, the DAL accepts the proof and
    serves the signatures in the order of the whitelist, whatever order the
    maps iterate in. *)
Theorem honest_proof_accepted map_order ks sigs sigs' wl :
  (forall l, map_order l ≡ₚ l) -> ks <> [] -> signed_by ks sigs -> NoDup (addresses ks) ->
  Forall (fun a => a ∈ wl) (addresses ks) -> sigs' ≡ₚ sigs ->
  orderProof map_order (concat sigs') v ts symbol wl =
    Ok (concat (omap (fun a => (list_to_map (zip (addresses ks) sigs) : gmap Z (list Z)) !! a) wl)).
Proof. apply orderProof_honest. Qed.

End honest.

(** ** The collector's state *)
Record OutgoingSubmissionData : Type := mkOutgoing {
  o_Symbol : string; o_Value : string; o_AggregateTime : string;
  o_Proof : string; o_FeedHash : string; o_Decimals : string
}.

Definition DefaultDecimals : string := "8".
Definition StreamBuffer : nat := 1000.

#[projections(primitive)]
Record Collector : Type := mkCollector {
  OutgoingStream : gmap string (list OutgoingSubmissionData);
  FeedHashes : gmap string (list Z);
  LatestTimestamps : gmap string Time;
  LatestData : gmap string OutgoingSubmissionData;
  CachedWhitelist : list Address;
  IsRunning : bool;
  CancelFunc : bool
}.
Definition set_OutgoingStream v (c : Collector) : Collector :=
  mkCollector v (FeedHashes c) (LatestTimestamps c) (LatestData c) (CachedWhitelist c) (IsRunning c) (CancelFunc c).
Definition set_LatestTimestamps v (c : Collector) : Collector :=
  mkCollector (OutgoingStream c) (FeedHashes c) v (LatestData c) (CachedWhitelist c) (IsRunning c) (CancelFunc c).
Definition set_LatestData v (c : Collector) : Collector :=
  mkCollector (OutgoingStream c) (FeedHashes c) (LatestTimestamps c) v (CachedWhitelist c) (IsRunning c) (CancelFunc c).
Definition set_CachedWhitelist v (c : Collector) : Collector :=
  mkCollector (OutgoingStream c) (FeedHashes c) (LatestTimestamps c) (LatestData c) v (IsRunning c) (CancelFunc c).
Definition set_running (r k : bool) (c : Collector) : Collector :=
  mkCollector (OutgoingStream c) (FeedHashes c) (LatestTimestamps c) (LatestData c) (CachedWhitelist c) r k.

(** The part of [NewCollector] after the configuration has been read; [oracles]
    is what [getAllOracles] answers. *)
Definition NewCollector (oracles : res (list Address)) (symbols : list string) : res Collector :=
  match oracles with
  | Err err => Err err
  | Ok initialWhitelist =>
      Ok (mkCollector (list_to_map ((fun s => (s, [])) <$> symbols))
            (list_to_map ((fun s => (s, Keccak256 (string_bytes s))) <$> symbols))
            ∅ ∅ initialWhitelist false false)
  end.

Definition Start (c : Collector) : Collector :=
  if IsRunning c then c else set_running true true c.
Definition Stop (c : Collector) : Collector :=
  if CancelFunc c then set_running false (CancelFunc c) c else c.

Definition GetLatestData (symbol : string) (c : Collector) : res OutgoingSubmissionData :=
  match LatestData c !! symbol with
  | None => Err (External "symbol not found")
  | Some result => Ok result
  end.

(** In the order of one map iteration. *)
Definition GetAllLatestData (order : list OutgoingSubmissionData -> list OutgoingSubmissionData)
    (c : Collector) : list OutgoingSubmissionData :=
  order ((map_to_list (LatestData c)).*2).

Definition compareAndSwapLatestTimestamp (data : SubmissionData) (c : Collector) : bool * Collector :=
  let ts := ga_Timestamp (sd_GlobalAggregate data) in
  match LatestTimestamps c !! sd_Symbol data with
  | Some old =>
      if old <? ts then (true, set_LatestTimestamps (<[sd_Symbol data := ts]> (LatestTimestamps c)) c)
      else (false, c)
  | None => (true, set_LatestTimestamps (<[sd_Symbol data := ts]> (LatestTimestamps c)) c)
  end.

Definition formatBytesToHex (bytes : list Z) : string := "0x" +:+ EncodeToString bytes.

(** The second result: whether the refresh of the whitelist is started. *)
Definition IncomingDataToOutgoingData map_order (c : Collector) (data : SubmissionData)
    : res OutgoingSubmissionData * bool :=
  let whitelist := CachedWhitelist c in
  match FeedHashes c !! sd_Symbol data with
  | None => (Err ErrDalFeedHashNotFound, false)
  | Some feedHashBytes =>
      let g := sd_GlobalAggregate data in
      match orderProof map_order (p_Proof (sd_Proof data)) (ga_Value g) (ga_Timestamp g)
              (sd_Symbol data) whitelist with
      | Err err => (Err err, errors_Is err ErrDalSignerNotWhitelisted)
      | Ok orderedProof =>
          (Ok (mkOutgoing (sd_Symbol data) (Format 10 (ga_Value g))
                 (Format 10 (UnixMilli (ga_Timestamp g))) (formatBytesToHex orderedProof)
                 (formatBytesToHex feedHashBytes) DefaultDecimals), false)
      end
  end.

(** The refresh goroutine keeps the old list on an error; the handler of the
    [OracleAdded] event does not. *)
Definition refreshWhitelist (oracles : res (list Address)) (c : Collector) : Collector :=
  match oracles with Err _ => c | Ok newList => set_CachedWhitelist newList c end.
Definition oracleAddedEvent (oracles : res (list Address)) (c : Collector) : Collector :=
  let newList := match oracles with Err _ => [] | Ok newList => newList end in
  set_CachedWhitelist newList c.

(** ** [processIncomingData], one atomic part at a time *)
Inductive thread : Type :=
| Received (data : SubmissionData)
| Accepted (data : SubmissionData)
| Sending (result : OutgoingSubmissionData)
| Storing (result : OutgoingSubmissionData)
| Finished.

(** [None]: the thread is finished or blocked on a full stream.  The boolean
    says that a refresh of the whitelist is started. *)
Definition processIncomingData map_order (t : thread) (c : Collector)
    : option (thread * Collector * bool) :=
  match t with
  | Received data =>
      let '(valid, c) := compareAndSwapLatestTimestamp data c in
      Some (if valid then Accepted data else Finished, c, false)
  | Accepted data =>
      match IncomingDataToOutgoingData map_order c data with
      | (Err _, refresh) => Some (Finished, c, refresh)
      | (Ok result, refresh) => Some (Sending result, c, refresh)
      end
  | Sending result =>
      ch ← OutgoingStream c !! o_Symbol result;
      if (length ch <? StreamBuffer)%nat
      then Some (Storing result, set_OutgoingStream (<[o_Symbol result := ch ++ [result]]> (OutgoingStream c)) c, false)
      else None
  | Storing result =>
      Some (Finished, set_LatestData (<[o_Symbol result := result]> (LatestData c)) c, false)
  | Finished => None
  end.

(** A system of the collector, its goroutines, and the log of the data it
    accepted (symbol and time, latest first). *)
Record csys : Type := mkCsys {
  c_state : Collector; c_threads : list thread; c_log : list (string * Time)
}.

Definition accepted_by (t t' : thread) : list (string * Time) :=
  match t, t' with
  | Received d, Accepted _ => [(sd_Symbol d, ga_Timestamp (sd_GlobalAggregate d))]
  | _, _ => []
  end.

Inductive cstep map_order : csys -> csys -> Prop :=
| cs_receive c ts log data : cstep map_order (mkCsys c ts log) (mkCsys c (ts ++ [Received data]) log)
| cs_run i c ts log t t' c' refresh :
    ts !! i = Some t -> processIncomingData map_order t c = Some (t', c', refresh) ->
    cstep map_order (mkCsys c ts log) (mkCsys c' (<[i := t']> ts) (accepted_by t t' ++ log))
| cs_refresh c ts log oracles :
    cstep map_order (mkCsys c ts log) (mkCsys (refreshWhitelist oracles c) ts log)
| cs_event c ts log oracles :
    cstep map_order (mkCsys c ts log) (mkCsys (oracleAddedEvent oracles c) ts log).

(** The accepted times of a symbol decrease down the log, and the newest is
    the one remembered. *)
Definition times (symbol : string) (log : list (string * Time)) : list Time :=
  (filter (fun st => st.1 = symbol) log).*2.
Definition log_ok (s : csys) : Prop :=
  forall symbol, StronglySorted Z.gt (times symbol (c_log s)) /\
    head (times symbol (c_log s)) = LatestTimestamps (c_state s) !! symbol.

Lemma times_cons symbol s t log :
  times symbol ((s, t) :: log) = (if bool_decide (s = symbol) then [t] else []) ++ times symbol log.
Proof. unfold times. rewrite filter_cons. case_decide; case_bool_decide; simplify_eq/=; done. Qed.

Lemma log_ok_cas s data valid c' :
  log_ok s -> compareAndSwapLatestTimestamp data (c_state s) = (valid, c') -> forall ts,
  log_ok (mkCsys c' ts ((if valid then [(sd_Symbol data, ga_Timestamp (sd_GlobalAggregate data))] else [])
                         ++ c_log s)).
Proof.
  intros Hok Hcas ts symbol. simpl. unfold compareAndSwapLatestTimestamp in Hcas.
  set (t := ga_Timestamp (sd_GlobalAggregate data)) in *.
  destruct (Hok symbol) as [Hs Hh]. destruct valid.
  2:{ assert (c' = c_state s) as -> by (go_cases; done). done. }
  assert (c' = set_LatestTimestamps (<[sd_Symbol data := t]> (LatestTimestamps (c_state s))) (c_state s)
    /\ (forall old, LatestTimestamps (c_state s) !! sd_Symbol data = Some old -> old < t)) as [-> Hold].
  { go_cases; breflect; (split; [done|]); intros old Ho; by simplify_eq. }
  change (([(sd_Symbol data, t)] ++ c_log s)) with ((sd_Symbol data, t) :: c_log s).
  rewrite times_cons. simpl. case_bool_decide as Hsym; simpl.
  - subst symbol. rewrite lookup_insert_eq. split; [|done]. constructor; [done|].
    destruct (times (sd_Symbol data) (c_log s)) as [|old l]; [constructor|].
    simpl in Hh. specialize (Hold old (eq_sym Hh)). apply StronglySorted_inv in Hs as [_ Hall].
    constructor; [lia|]. eapply Forall_impl; [done|]. simpl. lia.
  - rewrite lookup_insert_ne by done. done.
Qed.

Lemma log_ok_step map_order s s' : cstep map_order s s' -> log_ok s -> log_ok s'.
Proof.
  intros [c ts log data|i c ts log t t' c' refresh Hi Hp|c ts log oracles|c ts log oracles] Hok; try done.
  - destruct t as [data|data|result|result|]; simpl in Hp.
    + destruct (compareAndSwapLatestTimestamp data c) as [valid c1] eqn:Hcas. simplify_eq.
      pose proof (log_ok_cas (mkCsys c ts log) data valid c' Hok Hcas (<[i := if valid then Accepted data else Finished]> ts)).
      by destruct valid.
    + destruct (IncomingDataToOutgoingData map_order c data) as [[result|err] rf]; by simplify_eq.
    + apply bind_Some in Hp as (ch & _ & Hp). destruct (length ch <? StreamBuffer)%nat; by simplify_eq.
    + by simplify_eq.
    + done.
  - by destruct oracles.
Qed.

(** C19: however the goroutines that process submissions interleave, the
    submissions accepted for a symbol have strictly increasing timestamps, and
    the newest one is the one remembered. *)
Theorem accepted_times_increase map_order c0 s :
  LatestTimestamps c0 = ∅ -> rtc (cstep map_order) (mkCsys c0 [] []) s ->
  forall symbol, StronglySorted Z.gt (times symbol (c_log s)) /\
    head (times symbol (c_log s)) = LatestTimestamps (c_state s) !! symbol.
Proof.
  intros H0 Hrtc. assert (log_ok (mkCsys c0 [] [])) as Hok.
  { intros symbol. simpl. rewrite H0, lookup_empty. by split; [constructor|]. }
  revert Hok. generalize (mkCsys c0 [] []), Hrtc. clear Hrtc H0.
  intros s0 Hrtc. induction Hrtc as [|s0 s1 s2 H01 _ IH]; [done|].
  intros Hok. apply IH. by eapply log_ok_step.
Qed.

End collector.

(** *** Witnesses *)
Definition w_sig (pk : Z) : list Z := replicate 64 pk ++ [27].

Lemma orderProof_sound_witness : exists l chunks,
  concat chunks = w_sig 4 ++ w_sig 9 /\ concat l.*2 = w_sig 9 ++ w_sig 4 /\
  l.*1 `sublist_of` [9; 4].
Proof.
  destruct (@orderProof_sound toy_crypto id (fun l => reflexivity l) (w_sig 4 ++ w_sig 9) 5 0 "X" [9; 4]
    (w_sig 9 ++ w_sig 4)) as (l & chunks & H1 & _ & H2 & H3 & _).
  - vm_compute. reflexivity.
  - exists l, chunks. by rewrite <- H2.
Defined.

Lemma honest_proof_accepted_witness :
  @orderProof toy_crypto id (concat [w_sig 4; w_sig 9]) 5 0 "X" [9; 7; 4] = Ok (w_sig 9 ++ w_sig 4).
Proof.
  rewrite (@honest_proof_accepted toy_crypto toy_laws 5 0 "X" id [9; 4] [w_sig 9; w_sig 4]
    [w_sig 4; w_sig 9] [9; 7; 4]).
  - vm_compute. reflexivity.
  - done.
  - done.
  - unfold signed_by. repeat constructor.
  - apply (bool_decide_eq_true_1 (NoDup _)). vm_compute. reflexivity.
  - apply (bool_decide_eq_true_1 (Forall (fun a : Z => a ∈ [9; 7; 4]) [9; 4])). vm_compute. reflexivity.
  - apply perm_swap.
Defined.

Lemma accepted_times_increase_witness :
  head (times "BTC-USDT" []) = LatestTimestamps (mkCollector ∅ ∅ ∅ ∅ [] false false) !! "BTC-USDT".
Proof.
  apply (@accepted_times_increase toy_crypto id (mkCollector ∅ ∅ ∅ ∅ [] false false)
    (mkCsys (mkCollector ∅ ∅ ∅ ∅ [] false false) [Received (mkSubmissionData "X" (mkGlobalAggregate 1 1 1 1) (mkProof 1 1 []))] [])).
  - reflexivity.
  - eapply rtc_l; [apply cs_receive|apply rtc_refl].
Defined.

(** *** A race: the latest data goes back *)
Definition race_data (t : Time) (v : Z) : SubmissionData :=
  mkSubmissionData "BTC-USDT" (mkGlobalAggregate 1 v 1 t) (mkProof 1 1 (replicate 64 9 ++ [27])).
Definition race_collector : Collector :=
  match @NewCollector toy_crypto (Ok [9]) ["BTC-USDT"] with Ok c => c | Err _ => mkCollector ∅ ∅ ∅ ∅ [] false false end.

(** Run the threads in the given order. *)
Fixpoint schedule (turns : list nat) (c : Collector) (ts : list thread) : option (Collector * list thread) :=
  match turns with
  | [] => Some (c, ts)
  | i :: turns =>
      t ← ts !! i;
      '(t', c, _) ← @processIncomingData toy_crypto id t c;
      schedule turns c (<[i := t']> ts)
  end.

(** Two submissions of one symbol, both accepted in order, can be stored
    in the other order: the DAL then serves the older value as the latest. *)
Theorem latest_data_goes_back :
  exists c, schedule [0; 1; 0; 1; 0; 1; 1; 0]%nat race_collector
      [Received (race_data (1 * second) 100); Received (race_data (2 * second) 200)]
      = Some (c, [Finished; Finished]) /\
    LatestTimestamps c !! "BTC-USDT" = Some (2 * second) /\
    (o_Value <$> LatestData c !! "BTC-USDT") = Some "100".
Proof.
  destruct (schedule [0; 1; 0; 1; 0; 1; 1; 0]%nat race_collector
    [Received (race_data (1 * second) 100); Received (race_data (2 * second) 200)]) as [[c ts]|] eqn:Hs;
    [|by vm_compute in Hs].
  exists c. vm_compute in Hs. simplify_eq. split; [done|]. split; vm_compute; reflexivity.
Qed.

End Collector.
