(* ===== verification/Float.v ===== *)
(** * Float: Go's [float64]

    IEEE 754 double precision, by the specification of floats in the Standard
    Library (53 bits of precision, round to nearest, ties to even).  Operations
    are not fused, as compiled for amd64.  Also what the node uses of [math],
    [strconv] and [sort] on floats, and the float half of
    [node/pkg/utils/calculator/calculator.go]. *)

From S2P Require Import Prelude Errors Text.
From Stdlib Require Import Ascii Floats.SpecFloat.
Import Text.

Local Open Scope Z_scope.

Module Float.

Abbreviation float64 := spec_float (only parsing).
#[export] Instance float_eq_dec : EqDecision spec_float.
Proof. solve_decision. Defined.

Definition prec : Z := 53.
Definition emax : Z := 1024.

(** [float64(x)] of an integer. *)
Definition of_int (x : Z) : float64 := binary_normalize prec emax x 0 false.

Definition fadd : float64 -> float64 -> float64 := SFadd prec emax.
Definition fsub : float64 -> float64 -> float64 := SFsub prec emax.
Definition fmul : float64 -> float64 -> float64 := SFmul prec emax.
Definition fdiv : float64 -> float64 -> float64 := SFdiv prec emax.
Definition fltb : float64 -> float64 -> bool := SFltb.
Definition fleb : float64 -> float64 -> bool := SFleb.
Definition feqb : float64 -> float64 -> bool := SFeqb.
Definition fabs : float64 -> float64 := SFabs.
Definition fzero : float64 := S754_zero false.
Definition isNaN (x : float64) : bool := match x with S754_nan => true | _ => false end.

(** The constant [n/d]: both are exact, so the quotient is the nearest
    double, as the compiler rounds constants. *)
Definition const (n d : Z) : float64 := fdiv (of_int n) (of_int d).

(** The double nearest to the quotient of two integers of any size. *)
Definition of_ratio (s : bool) (n d : Z) : float64 :=
  match n with
  | Zpos _ => let '(m, e, l) := SFdiv_core_binary prec emax n 0 d 0 in binary_round_aux prec emax s m e l
  | _ => S754_zero s
  end.

(** [int64(x)], and [int(x)]: towards zero; out of range, the conversion
    instruction of amd64 gives the least integer. *)
Definition to_int64 (x : float64) : int64 :=
  match x with
  | S754_zero _ => 0
  | S754_finite s m e =>
      let v := cond_Zopp s (Z.shiftl (Zpos m) e) in
      if decide (in_int64 v) then v else min_int64
  | _ => min_int64
  end.

(** [math.Round]: half away from zero. *)
Definition Round (x : float64) : float64 :=
  match x with
  | S754_finite s m e =>
      if 0 <=? e then x else
      match Z.shiftr (Zpos m + 2 ^ (- e - 1)) (- e) with
      | Zpos r => binary_round prec emax s r 0
      | _ => S754_zero s
      end
  | _ => x
  end.

(** [math.Pow10]: a product or quotient of two entries of its tables, which
    hold the doubles nearest to powers of ten. *)
Definition pow10tab (n : Z) : float64 := of_ratio false (10 ^ n) 1.
Definition Pow10 (n : int64) : float64 :=
  if (0 <=? n) && (n <=? 308) then fmul (pow10tab (32 * (n / 32))) (pow10tab (n `mod` 32))
  else if (-323 <=? n) && (n <=? 0)
  then fdiv (of_ratio false 1 (10 ^ (32 * ((- n) / 32)))) (pow10tab ((- n) `mod` 32))
  else if 0 <? n then S754_infinity false else fzero.

(** ** [strconv.ParseFloat(s, 64)] *)

(** Digits up to the first other character: their value, their number and the
    rest. *)
Fixpoint span_digits (b acc : Z) (k : nat) (l : list ascii) : Z * nat * list ascii :=
  match l with
  | [] => (acc, k, [])
  | c :: l' =>
      match hex_digit c with
      | Some d => if d <? b then span_digits b (acc * b + d) (S k) l' else (acc, k, l)
      | None => (acc, k, l)
      end
  end.

Definition read_sign (l : list ascii) : bool * list ascii :=
  match l with
  | "-"%char :: l => (true, l)
  | "+"%char :: l => (false, l)
  | _ => (false, l)
  end.

(** The exponent after its letter, to the end of the text. *)
Definition read_exponent (l : list ascii) : option Z :=
  let '(s, l) := read_sign l in
  match span_digits 10 0 0 l with
  | (e, S _, []) => Some (cond_Zopp s e)
  | _ => None
  end.

(** Mantissa digits with at most one point: the value of all digits and how
    many of them are after the point. *)
Definition read_mantissa (b : Z) (l : list ascii) : option (Z * nat * list ascii) :=
  let '(v, k, l) := span_digits b 0 0 l in
  match l with
  | "."%char :: l =>
      let '(v, f, l) := span_digits b v 0 l in
      if (k + f =? 0)%nat then None else Some (v, f, l)
  | _ => if (k =? 0)%nat then None else Some (v, 0%nat, l)
  end.

(** A value out of range is an error. *)
Definition in_range (x : float64) : option float64 :=
  match x with S754_infinity _ => None | _ => Some x end.

(** [v * b ^ e], correctly rounded. *)
Definition scale (s : bool) (v b e : Z) : float64 :=
  if 0 <=? e then of_ratio s (v * b ^ e) 1 else of_ratio s v (b ^ (- e)).

(** Underscores may stand between digits, and after a base prefix, which counts
    as a digit: [prev] says that the last character was one. *)
Definition is_digit (b : Z) (c : ascii) : bool :=
  match hex_digit c with Some d => d <? b | None => false end.
Fixpoint drop_underscores (b : Z) (prev : bool) (l : list ascii) : option (list ascii) :=
  match l with
  | [] => Some []
  | "_"%char :: l' =>
      match l' with
      | c :: _ => if prev && is_digit b c then drop_underscores b false l' else None
      | [] => None
      end
  | c :: l' => cons c <$> drop_underscores b (is_digit b c) l'
  end.

Definition ParseFloat (text_ : string) : option float64 :=
  let '(s, l) := read_sign (chars text_) in
  let low := text (lower <$> l) in
  if bool_decide (low = "nan") && bool_decide (l = chars text_) then Some S754_nan
  else if bool_decide (low ∈ ["inf"; "infinity"]) then Some (S754_infinity s)
  else match l with
  | "0"%char :: ("x"%char | "X"%char) :: l =>
      l ← drop_underscores 16 true l;
      '(v, f, l) ← read_mantissa 16 l;
      match l with
      | ("p"%char | "P"%char) :: l => e ← read_exponent l; in_range (scale s v 2 (e - 4 * Z.of_nat f))
      | _ => None
      end
  | _ =>
      l ← drop_underscores 10 false l;
      '(v, f, l) ← read_mantissa 10 l;
      match l with
      | [] => in_range (scale s v 10 (- Z.of_nat f))
      | ("e"%char | "E"%char) :: l => e ← read_exponent l; in_range (scale s v 10 (e - Z.of_nat f))
      | _ => None
      end
  end.

(** ** Sorting and averages *)

(** [sort.Float64s]: NaN first.  Values that are neither before nor after each
    other are the two zeros, or NaN. *)
Definition float_less (x y : float64) : bool := fltb x y || (isNaN x && negb (isNaN y)).
Definition float_le (x y : float64) : Prop := float_less y x = false.
#[export] Instance float_le_dec : RelDecision float_le.
Proof. intros x y. unfold float_le. apply _. Defined.
Definition Float64s (l : list float64) : list float64 := merge_sort float_le l.

Definition GetFloatAvg (data : list float64) : res float64 :=
  if bool_decide (length data = 0%nat) then Err ErrCalculatorEmptyArr
  else Ok (fdiv (foldl fadd fzero data) (of_int (Z.of_nat (length data)))).

Definition GetFloatMed (data : list float64) : res float64 :=
  if bool_decide (length data = 0%nat) then Err ErrCalculatorEmptyArr else
  let data := Float64s data in
  let n := length data in
  Ok match data !! (n / 2)%nat with
     | None => fzero
     | Some b =>
         if Nat.even n
         then fdiv (fadd (default fzero (data !! (n / 2 - 1)%nat)) b) (of_int 2)
         else b
     end.

Lemma Float64s_perm l : Float64s l ≡ₚ l.
Proof. apply merge_sort_Permutation. Qed.

(** The index the median reads is in range, and for an odd number of values
    the median is one of them. *)
Lemma GetFloatMed_odd data :
  Nat.even (length data) = false -> exists m, GetFloatMed data = Ok m /\ m ∈ data.
Proof.
  intros Ho. unfold GetFloatMed. case_bool_decide as H0; [by rewrite H0 in Ho|].
  assert (length (Float64s data) = length data) as Hlen by (by rewrite Float64s_perm).
  assert (length (Float64s data) / 2 < length (Float64s data))%nat as Hlt by (apply Nat.div_lt; lia).
  apply lookup_lt_is_Some in Hlt as [m Hm]. rewrite Hm, Hlen, Ho. exists m. split; [done|].
  rewrite <- Float64s_perm. by eapply list_elem_of_lookup_2.
Qed.

Lemma GetFloatMed_Ok data : data <> [] -> exists m, GetFloatMed data = Ok m.
Proof.
  intros Hne. unfold GetFloatMed. rewrite bool_decide_eq_false_2; [by eexists|]. by destruct data.
Qed.

(** Samples of the text reader and of [math]. *)
Example ParseFloat_samples :
  ParseFloat "1234.5" = Some (const 2469 2) /\ ParseFloat "-1e3" = Some (of_int (-1000)) /\
  ParseFloat ".5" = Some (const 1 2) /\ ParseFloat "0x1p-1" = Some (const 1 2) /\
  ParseFloat "0x_10p0" = Some (of_int 16) /\ ParseFloat "1_0" = Some (of_int 10) /\ ParseFloat "1__0" = None /\ ParseFloat "1e400" = None /\
  ParseFloat "NaN" = Some S754_nan /\ ParseFloat "-Inf" = Some (S754_infinity true) /\
  ParseFloat "" = None /\ ParseFloat "." = None /\ ParseFloat "1.2.3" = None.
Proof. vm_compute. auto 20. Qed.

Example math_samples :
  Round (const 5 2) = of_int 3 /\ Round (const (-5) 2) = of_int (-3) /\ Round (const 2 5) = fzero /\
  Pow10 8 = of_int 100000000 /\ Pow10 (-1) = const 1 10 /\ Pow10 309 = S754_infinity false /\
  to_int64 (const (-7) 2) = -3 /\ to_int64 S754_nan = min_int64 /\
  fmul (of_int 3) (const 1 10) <> const 3 10.
Proof. vm_compute. repeat split; discriminate. Qed.

End Float.
