(* ===== verification/Rounding.v ===== *)
(** * Correct rounding

    The specification of floats in the Standard Library rounds by shifting a
    mantissa with two extra bits.  Here: a rounded result is within half a unit
    in the last place of the exact one, at any precision, in the range of normal
    numbers; and [math.Round] is within one half.  Used by the pricing of the
    decentralised exchange and by other arithmetic on floats. *)

From S2P Require Import Prelude Errors Text Float.
From Stdlib Require Import QArith Qpower Lqa Floats.SpecFloat.
Import Float.

Local Open Scope Q_scope.

Module Rounding.

Definition pow2 (e : Z) : Q := (2#1) ^ e.
#[global] Arguments pow2 : simpl never.
#[local] Arguments inject_Z : simpl never.

Lemma pow2_plus a b : pow2 (a + b) == pow2 a * pow2 b.
Proof. unfold pow2. apply Qpower_plus. by intros H. Qed.
Lemma pow2_pos e : 0 < pow2 e.
Proof. apply Qpower_0_lt. done. Qed.
Lemma pow2_Z k : (0 <= k)%Z -> pow2 k == inject_Z (2 ^ k).
Proof. intros Hk. unfold pow2. by rewrite Zpower_Qpower. Qed.
Lemma pow2_cancel e : pow2 (- e) * pow2 e == 1.
Proof. rewrite <-pow2_plus. by replace (- e + e)%Z with 0%Z by lia. Qed.

Lemma pow2_le a b : (a <= b)%Z -> pow2 a <= pow2 b.
Proof.
  intros H. replace b with ((b - a) + a)%Z by lia. rewrite pow2_plus, (pow2_Z (b - a)) by lia.
  assert (H1 : (1 <= 2 ^ (b - a))%Z) by (assert (0 < 2 ^ (b - a))%Z by (apply Z.pow_pos_nonneg; lia); lia).
  rewrite Zle_Qle in H1. change (inject_Z 1) with 1 in H1. pose proof (pow2_pos a). nra.
Qed.
Lemma pow2_lt_inv a b : pow2 a < pow2 b -> (a < b)%Z.
Proof. intros H. destruct (Z.lt_ge_cases a b) as [|Hge]; [done|]. pose proof (pow2_le b a Hge). lra. Qed.

(** The value of a number; of an infinity or a NaN, zero. *)
Definition value (x : spec_float) : Q :=
  match x with
  | S754_finite s m e => (if s then -1 else 1) * inject_Z (Zpos m) * pow2 e
  | _ => 0
  end.

Lemma value_finite m e : value (S754_finite false m e) == inject_Z (Zpos m) * pow2 e.
Proof. simpl. ring. Qed.

(** [x] is within the relative error [eps] of [y]. *)
Definition approx (eps x y : Q) : Prop := y * (1 - eps) <= x /\ x <= y * (1 + eps).

(** ** The extra bits *)

Definition in_rec (x : Q) (r : shr_record) : Prop :=
  let m := inject_Z (shr_m r) in
  match shr_r r, shr_s r with
  | false, false => x == m
  | false, true => m < x /\ x < m + (1#2)
  | true, false => x == m + (1#2)
  | true, true => m + (1#2) < x /\ x < m + 1
  end.

Lemma inject_double p : inject_Z (Zpos (xO p)) == 2 * inject_Z (Zpos p).
Proof. rewrite (Pos2Z.inj_xO p), inject_Z_mult. reflexivity. Qed.
Lemma inject_double1 p : inject_Z (Zpos (xI p)) == 2 * inject_Z (Zpos p) + 1.
Proof. rewrite (Pos2Z.inj_xI p), inject_Z_plus, inject_Z_mult. reflexivity. Qed.

Lemma shr_1_rec x r : (0 <= shr_m r)%Z -> in_rec x r ->
  (0 <= shr_m (shr_1 r))%Z /\ in_rec (x * (1#2)) (shr_1 r).
Proof.
  destruct r as [[|[p|p|]|p] [] []]; simpl; intros Hm; try lia; unfold in_rec; simpl;
    rewrite ?inject_double, ?inject_double1; change (inject_Z 0) with 0; change (inject_Z 1) with 1;
    intros Hx; (split; [lia|]); lra.
Qed.

Lemma in_rec_eq x y r : x == y -> in_rec x r -> in_rec y r.
Proof. destruct r as [m [] []]; unfold in_rec; simpl; intros; lra. Qed.

Lemma shr_iter_rec p : forall x r, (0 <= shr_m r)%Z -> in_rec x r ->
  (0 <= shr_m (iter_pos shr_1 p r))%Z /\ in_rec (x * pow2 (- Zpos p)) (iter_pos shr_1 p r).
Proof.
  induction p as [p IH|p IH|]; intros x r Hm Hx; simpl.
  - destruct (shr_1_rec x r Hm Hx) as [Hm1 Hx1].
    destruct (IH _ _ Hm1 Hx1) as [Hm2 Hx2]. destruct (IH _ _ Hm2 Hx2) as [Hm3 Hx3].
    split; [done|]. eapply in_rec_eq; [|exact Hx3].
    replace (- Zpos p~1)%Z with (- (1) + (- Zpos p + - Zpos p))%Z by lia.
    rewrite !pow2_plus. change (pow2 (- (1))) with (1#2). ring.
  - destruct (IH _ _ Hm Hx) as [Hm2 Hx2]. destruct (IH _ _ Hm2 Hx2) as [Hm3 Hx3].
    split; [done|]. eapply in_rec_eq; [|exact Hx3].
    replace (- Zpos p~0)%Z with (- Zpos p + - Zpos p)%Z by lia. rewrite !pow2_plus. ring.
  - apply (shr_1_rec x r Hm Hx).
Qed.

Lemma shr_rec x r e n : (0 <= shr_m r)%Z -> in_rec x r ->
  (0 <= shr_m (shr r e n).1)%Z /\ (shr r e n).2 = (e + Z.max n 0)%Z /\
  in_rec (x * pow2 (- Z.max n 0)) (shr r e n).1.
Proof.
  intros Hm Hx. destruct n as [|p|p]; simpl.
  - split_and!; [done|lia|]. eapply in_rec_eq; [|exact Hx]. change (pow2 (- Z.max 0 0)) with 1. ring.
  - destruct (shr_iter_rec p x r Hm Hx). done.
  - split_and!; [done|lia|]. eapply in_rec_eq; [|exact Hx]. change (pow2 (- Z.max (Z.neg p) 0)) with 1. ring.
Qed.

Lemma in_rec_floor x r : in_rec x r -> inject_Z (shr_m r) <= x /\ x < inject_Z (shr_m r) + 1.
Proof. destruct r as [m [] []]; unfold in_rec; simpl; intros; lra. Qed.

Lemma digits_log2 p : Zdigits2 (Zpos p) = (Z.log2 (Zpos p) + 1)%Z.
Proof.
  change (Zdigits2 (Zpos p)) with (Zpos (digits2_pos p)).
  induction p as [p IH|p IH|]; cbn [digits2_pos]; [| |done].
  - rewrite Pos2Z.inj_succ, IH, (Pos2Z.inj_xI p), Z.log2_succ_double by lia. lia.
  - rewrite Pos2Z.inj_succ, IH, (Pos2Z.inj_xO p), Z.log2_double by lia. lia.
Qed.
Lemma digits_bounds m : (0 < m)%Z -> (2 ^ (Zdigits2 m - 1) <= m < 2 ^ Zdigits2 m)%Z /\ (0 < Zdigits2 m)%Z.
Proof.
  intros Hm. destruct m as [|p|p]; try lia. rewrite digits_log2.
  pose proof (Z.log2_spec (Zpos p) Hm) as Hl. pose proof (Z.log2_nonneg (Zpos p)).
  replace (Z.log2 (Zpos p) + 1 - 1)%Z with (Z.log2 (Zpos p)) by lia. split; lia.
Qed.
Lemma digits_unique m k : (0 < k)%Z -> (2 ^ (k - 1) <= m < 2 ^ k)%Z -> Zdigits2 m = k.
Proof.
  intros Hk Hm. assert (0 < m)%Z by (assert (0 < 2 ^ (k - 1))%Z by (apply Z.pow_pos_nonneg; lia); lia).
  destruct m as [|p|p]; try lia. rewrite digits_log2.
  rewrite (Z.log2_unique (Zpos p) (k - 1)); [lia|lia|]. replace (Z.succ (k - 1)) with k by lia. done.
Qed.

(** A number of [d] bits, shifted to [p] bits: the integer part has [p]. *)
Lemma scaled_bounds d p x m :
  (0 < p <= d)%Z -> pow2 (d - 1) <= x -> x < pow2 d ->
  inject_Z m <= x * pow2 (- (d - p)) -> x * pow2 (- (d - p)) < inject_Z m + 1 ->
  (2 ^ (p - 1) <= m < 2 ^ p)%Z.
Proof.
  intros Hp Hx1 Hx2 Hm1 Hm2. pose proof (pow2_pos (- (d - p))) as Hk.
  assert (H1 : pow2 (p - 1) <= x * pow2 (- (d - p))).
  { replace (p - 1)%Z with ((d - 1) + - (d - p))%Z by lia. rewrite pow2_plus. nra. }
  assert (H2 : x * pow2 (- (d - p)) < pow2 p).
  { replace p with (d + - (d - p))%Z at 2 by lia. rewrite pow2_plus. nra. }
  rewrite (pow2_Z (p - 1)) in H1 by lia. rewrite (pow2_Z p) in H2 by lia. split.
  - apply Z.lt_succ_r. rewrite Zlt_Qlt. unfold Z.succ. rewrite inject_Z_plus. change (inject_Z 1) with 1. lra.
  - rewrite Zlt_Qlt. lra.
Qed.

(** ** Rounding to nearest *)

Lemma round_even_near x r : in_rec x r ->
  let R := round_nearest_even (shr_m r) (loc_of_shr_record r) in
  x - (1#2) <= inject_Z R /\ inject_Z R <= x + (1#2) /\ (shr_m r <= R <= shr_m r + 1)%Z.
Proof.
  destruct r as [m [] []]; unfold in_rec; simpl; intros Hx; [| | |].
  2: destruct (Z.even m).
  all: rewrite ?inject_Z_plus; change (inject_Z 1) with 1; repeat split; try lia; lra.
Qed.

(** Where a remainder puts the exact quotient. *)
Lemma new_location_rec d q r : (0 <= r < Zpos d)%Z ->
  in_rec (inject_Z (q * Zpos d + r) / inject_Z (Zpos d)) (shr_record_of_loc q (new_location (Zpos d) r)).
Proof.
  intros Hr. assert (Hd : 0 < inject_Z (Zpos d)) by done.
  assert (Heq : inject_Z (q * Zpos d + r) / inject_Z (Zpos d) == inject_Z q + inject_Z r / inject_Z (Zpos d)).
  { rewrite inject_Z_plus, inject_Z_mult. field. lra. }
  eapply in_rec_eq; [symmetry; exact Heq|]. clear Heq. set (t := inject_Z r / inject_Z (Zpos d)).
  assert (Ht : inject_Z r == t * inject_Z (Zpos d)) by (unfold t; field; lra).
  assert (Hcmp : forall z, (2 * r ?= Zpos d)%Z = z ->
            match z with Lt => t < 1#2 | Eq => t == 1#2 | Gt => (1#2) < t end).
  { intros z <-. destruct (Z.compare_spec (2 * r) (Zpos d)) as [H|H|H].
    - assert (Hq : inject_Z (2 * r) == inject_Z (Zpos d)) by (by rewrite H).
      rewrite inject_Z_mult in Hq. change (inject_Z 2) with 2 in Hq.
      destruct (Qmult_integral (t - (1#2)) (inject_Z (Zpos d))); lra.
    - rewrite Zlt_Qlt, inject_Z_mult in H. change (inject_Z 2) with 2 in H.
      apply (Qmult_lt_r _ _ (inject_Z (Zpos d)) Hd). lra.
    - rewrite Zlt_Qlt, inject_Z_mult in H. change (inject_Z 2) with 2 in H.
      apply (Qmult_lt_r _ _ (inject_Z (Zpos d)) Hd). lra. }
  assert (Ht0 : 0 <= t /\ t < 1).
  { destruct Hr as [Hr1 Hr2]. rewrite Zle_Qle in Hr1. rewrite Zlt_Qlt in Hr2. change (inject_Z 0) with 0 in Hr1.
    split; [apply (Qmult_le_r _ _ (inject_Z (Zpos d)) Hd)|apply (Qmult_lt_r _ _ (inject_Z (Zpos d)) Hd)]; lra. }
  assert (Hz : r = 0%Z \/ 0 < t).
  { destruct (decide (r = 0)%Z); [by left|right]. assert (H0 : (0 < r)%Z) by lia. rewrite Zlt_Qlt in H0.
    change (inject_Z 0) with 0 in H0. apply (Qmult_lt_r _ _ (inject_Z (Zpos d)) Hd). lra. }
  unfold new_location, new_location_even, new_location_odd.
  destruct (Z.eqb_spec r 0) as [->|Hr0].
  { assert (t == 0) by (change (inject_Z 0) with 0 in Ht; destruct (Qmult_integral t (inject_Z (Zpos d))); lra).
    destruct (Z.even _); unfold in_rec; simpl; lra. }
  destruct Hz as [|Hz]; [done|].
  destruct (Z.even (Zpos d)) eqn:Hev; rewrite (proj2 (Z.eqb_neq r 0) Hr0).
  - destruct (2 * r ?= Zpos d)%Z eqn:E; specialize (Hcmp _ eq_refl); unfold in_rec; simpl in *; lra.
  - assert (Hne : (2 * r <> Zpos d)%Z) by (intros H; rewrite <-H, Z.even_even in Hev; done).
    destruct (Z.compare_spec (2 * r + 1) (Zpos d)) as [H|H|H].
    + specialize (Hcmp Lt ltac:(apply Z.compare_lt_iff; lia)). unfold in_rec; simpl in *; lra.
    + specialize (Hcmp Lt ltac:(apply Z.compare_lt_iff; lia)). unfold in_rec; simpl in *; lra.
    + specialize (Hcmp Gt ltac:(apply Z.compare_gt_iff; lia)). unfold in_rec; simpl in *; lra.
Qed.

Section round.
Variables prec emax : Z.
Hypothesis Hprec : (1 < prec)%Z.

(** The first shift leaves [prec] bits, or nothing to round. *)
Lemma shr_fexp_first m e l x :
  (0 < m)%Z -> in_rec x (shr_record_of_loc m l) -> (l <> loc_Exact -> prec <= Zdigits2 m)%Z ->
  (emin prec emax <= Zdigits2 m + e - prec)%Z ->
  let k := Z.max (Zdigits2 m - prec) 0 in
  let r := (shr_fexp prec emax m e l).1 in
  (shr_fexp prec emax m e l).2 = (e + k)%Z /\ in_rec (x * pow2 (- k)) r /\
  ((l = loc_Exact /\ k = 0%Z /\ r = Build_shr_record m false false /\ (Zdigits2 m < prec)%Z) \/
   (2 ^ (prec - 1) <= shr_m r < 2 ^ prec)%Z).
Proof.
  intros Hm Hx Hl Hmin k r. unfold shr_fexp in *.
  set (n := (fexp prec emax (Zdigits2 m + e) - e)%Z) in *.
  assert (Hn : Z.max n 0 = k) by (unfold n, k, fexp; lia).
  assert (Hm0 : (0 <= shr_m (shr_record_of_loc m l))%Z) by (destruct l as [|[]]; simpl; lia).
  destruct (shr_rec x _ e n Hm0 Hx) as (Hp & He & Hr). rewrite Hn in He, Hr. fold r in Hr, Hp.
  split; [done|]. split; [done|].
  destruct (decide (Zdigits2 m < prec)%Z) as [Hd|Hd].
  { left. destruct l as [|]; [|specialize (Hl ltac:(done)); lia].
    split_and!; [done|unfold k; lia| |done].
    unfold r. destruct n as [|q|q]; [done| |done]. exfalso. unfold k in Hn. lia. }
  right. destruct (digits_bounds m Hm) as [[Hb1 Hb2] Hb3].
  destruct (in_rec_floor _ _ Hr) as [Hf1 Hf2].
  assert (Hxm : inject_Z m <= x /\ x < inject_Z m + 1).
  { pose proof (in_rec_floor _ _ Hx) as Hf. by destruct l as [|[]]; simpl in Hf. }
  apply (scaled_bounds (Zdigits2 m) prec x); try lia; try done.
  - rewrite pow2_Z by lia. rewrite Zle_Qle in Hb1. lra.
  - rewrite pow2_Z by lia. assert (Hb : (m + 1 <= 2 ^ Zdigits2 m)%Z) by lia.
    rewrite Zle_Qle in Hb. rewrite inject_Z_plus in Hb. change (inject_Z 1) with 1 in Hb. lra.
  - replace (Zdigits2 m - prec)%Z with k by (unfold k; lia). done.
  - replace (Zdigits2 m - prec)%Z with k by (unfold k; lia). done.
Qed.

(** The second shift undoes a carry: the value stays. *)
Lemma shr_fexp_second R e :
  (0 < R <= 2 ^ prec)%Z -> (emin prec emax <= e)%Z ->
  let r := shr_fexp prec emax R e loc_Exact in
  (0 < shr_m r.1 < 2 ^ prec)%Z /\ (e <= r.2 <= e + 1)%Z /\ (R < 2 ^ prec -> r.2 = e)%Z /\
  inject_Z (shr_m r.1) * pow2 r.2 == inject_Z R * pow2 e.
Proof.
  intros [HR1 HR2] He. unfold shr_fexp. simpl shr_record_of_loc.
  destruct (decide (R = 2 ^ prec)%Z) as [HR|HR].
  - replace (Zdigits2 R) with (prec + 1)%Z.
    2: { symmetry. apply digits_unique; [lia|]. replace (prec + 1 - 1)%Z with prec by lia.
         rewrite Z.pow_add_r by lia. lia. }
    replace (fexp prec emax (prec + 1 + e) - e)%Z with 1%Z by (unfold fexp; lia).
    assert (HR' : R = (2 * 2 ^ (prec - 1))%Z).
    { rewrite HR. replace prec with (1 + (prec - 1))%Z at 1 by lia. rewrite Z.pow_add_r by lia. lia. }
    assert (Hp : (0 < 2 ^ (prec - 1))%Z) by (apply Z.pow_pos_nonneg; lia).
    destruct (2 ^ (prec - 1))%Z as [|q|q] eqn:Hq; try lia. rewrite HR'. simpl.
    split_and!; try lia. rewrite pow2_plus. change (pow2 1) with 2. rewrite inject_Z_mult. change (inject_Z 2) with 2. change (1 * q)%positive with q. ring.
  - assert (Hd : (Zdigits2 R <= prec)%Z).
    { destruct (digits_bounds R HR1) as [[Hb _] _].
      destruct (decide (Zdigits2 R <= prec)%Z); [done|exfalso].
      assert (2 ^ prec <= 2 ^ (Zdigits2 R - 1))%Z by (apply Z.pow_le_mono_r; lia). lia. }
    assert (Hn : (fexp prec emax (Zdigits2 R + e) - e <= 0)%Z) by (unfold fexp; lia).
    destruct (fexp prec emax (Zdigits2 R + e) - e)%Z as [|q|q]; try lia; simpl; split_and!; try lia; reflexivity.
Qed.

(** A rounded number is within half a unit in the last place. *)
Lemma binary_round_aux_near s m e l x :
  (0 < m)%Z -> in_rec x (shr_record_of_loc m l) -> (l <> loc_Exact -> prec <= Zdigits2 m)%Z ->
  (emin prec emax <= Zdigits2 m + e - prec)%Z -> (e + Z.max (Zdigits2 m) prec < emax)%Z ->
  exists m' e', binary_round_aux prec emax s m e l = S754_finite s m' e' /\
    approx (pow2 (- prec)) (inject_Z (Zpos m') * pow2 e') (x * pow2 e) /\
    (l = loc_Exact -> (Zdigits2 m <= prec)%Z -> inject_Z (Zpos m') * pow2 e' == inject_Z m * pow2 e) /\
    (Zpos m' < 2 ^ prec /\ e <= e' <= e + Z.max (Zdigits2 m - prec) 0 + 1)%Z.
Proof.
  intros Hm Hx Hl Hmin Hmax. unfold binary_round_aux.
  destruct (shr_fexp_first m e l x Hm Hx Hl Hmin) as (He & Hr & Hcase).
  destruct (shr_fexp prec emax m e l) as [r e1] eqn:H1. simpl in *.
  set (k := Z.max (Zdigits2 m - prec) 0) in *. set (R := round_nearest_even _ _).
  destruct (round_even_near _ _ Hr) as (Hn1 & Hn2 & Hn3). fold R in Hn1, Hn2, Hn3.
  assert (HR : (0 < R <= 2 ^ prec)%Z /\ (2 ^ (prec - 1) <= shr_m r \/ R = m /\ (R < 2 ^ prec))%Z /\
               ((2 ^ (prec - 1) <= shr_m r)%Z \/ inject_Z R == x * pow2 (- k))).
  { assert (0 < 2 ^ (prec - 1))%Z by (apply Z.pow_pos_nonneg; lia).
    destruct Hcase as [(-> & Hk & -> & Hd)|Hb]; [|lia]. simpl in *.
    destruct (digits_bounds m Hm) as [[_ Hm2] _].
    assert (2 ^ Zdigits2 m <= 2 ^ prec)%Z by (apply Z.pow_le_mono_r; lia).
    split_and!; try lia. right. rewrite Hk. change (pow2 (- 0)) with 1. unfold in_rec in Hx. simpl in Hx. change R with m. lra. }
  destruct HR as (HR & Hcarry & Hfar).
  destruct (shr_fexp_second R e1) as (Hs1 & Hs2 & Hs3 & Hs4); [done|lia|].
  destruct (shr_fexp prec emax R e1 loc_Exact) as [r2 e2]. simpl in *.
  destruct (shr_m r2) as [|m'|m'] eqn:Hr2; try lia.
  assert (He2 : (e2 <=? emax - prec)%Z = true) by (apply Z.leb_le; lia).
  rewrite He2. exists m', e2. split; [done|]. split_and!; [..|lia|lia|lia].
  - assert (HX : x * pow2 e == (x * pow2 (- k)) * pow2 e1).
    { rewrite He, pow2_plus. pose proof (pow2_cancel k) as Hc.
      transitivity (x * pow2 e * (pow2 (- k) * pow2 k)); [rewrite Hc; ring|ring]. }
    unfold approx. rewrite Hs4, HX. pose proof (pow2_pos e1) as Hpe. pose proof (pow2_pos (- prec)) as Hpp.
    set (X := x * pow2 (- k)) in *.
    assert (Hhalf : X * (1 - pow2 (- prec)) <= inject_Z R /\ inject_Z R <= X * (1 + pow2 (- prec))).
    { pose proof (in_rec_floor _ _ Hr) as [Hf _]. destruct Hfar as [Hb|HeqR].
      - rewrite Zle_Qle in Hb. rewrite <-pow2_Z in Hb by lia.
        assert (Hu : pow2 (prec - 1) * pow2 (- prec) == 1#2).
        { rewrite <-pow2_plus. by replace (prec - 1 + - prec)%Z with (-1)%Z by lia. }
        assert ((1#2) <= X * pow2 (- prec)) by nra. lra.
      - assert (0 < inject_Z R) by (destruct HR as [HR _]; rewrite Zlt_Qlt in HR; exact HR). nra. }
    nra.
  - intros -> Hd. rewrite Hs4, He. assert (Hk : k = 0%Z) by (unfold k; lia). rewrite Hk in *.
    unfold in_rec in Hx. simpl in Hx. change (pow2 (- 0)) with 1 in *.
    assert (HRm : R = m).
    { assert (H2 : inject_Z R < inject_Z (m + 1)) by (rewrite inject_Z_plus; change (inject_Z 1) with 1; lra).
      assert (H3 : inject_Z m < inject_Z (R + 1)) by (rewrite inject_Z_plus; change (inject_Z 1) with 1; lra).
      rewrite <-Zlt_Qlt in H2, H3. lia. }
    rewrite HRm, Z.add_0_r. reflexivity.
Qed.

(** ** Operations on positive numbers *)

(** A positive number with a mantissa of at most [B] bits and an exponent of at
    most [B]. *)
Definition fin (B : Z) (x : spec_float) : Prop := exists m e,
  x = S754_finite false m e /\ (Zpos m < 2 ^ B /\ - B <= e <= B)%Z.

Lemma fin_pos B x : fin B x -> 0 < value x.
Proof.
  intros (m & e & -> & _). simpl. pose proof (pow2_pos e). assert (0 < inject_Z (Zpos m)) by done. nra.
Qed.

Lemma digits_le m B : (0 < m < 2 ^ B)%Z -> (0 < Zdigits2 m <= B)%Z.
Proof.
  intros Hm. destruct (digits_bounds m) as [[Hb _] Hd]; [lia|].
  destruct (decide (Zdigits2 m <= B)%Z) as [|Hn]; [lia|exfalso].
  assert (2 ^ B <= 2 ^ (Zdigits2 m - 1))%Z by (apply Z.pow_le_mono_r; lia). lia.
Qed.

Lemma pow_le_mono B B' m : (m < 2 ^ B)%Z -> (B <= B')%Z -> (m < 2 ^ B')%Z.
Proof. intros Hm HB. assert (2 ^ B <= 2 ^ B')%Z by (apply Z.pow_le_mono_r; lia). lia. Qed.

Lemma SFmul_near B1 B2 x y :
  fin B1 x -> fin B2 y -> (4 * (B1 + B2) + 2 * prec + 3 < emax)%Z ->
  fin (4 * (B1 + B2) + 2 * prec) (SFmul prec emax x y) /\
  approx (pow2 (- prec)) (value (SFmul prec emax x y)) (value x * value y).
Proof.
  intros (m1 & e1 & -> & Hm1 & He1) (m2 & e2 & -> & Hm2 & He2) HB. simpl SFmul.
  assert (Hb : (Zpos (m1 * m2) < 2 ^ (B1 + B2))%Z).
  { rewrite Pos2Z.inj_mul, Z.pow_add_r by (destruct (decide (0 <= B1)%Z), (decide (0 <= B2)%Z); try lia;
      rewrite Z.pow_neg_r in Hm1 by lia; lia). nia. }
  pose proof (digits_le _ _ (conj (Pos2Z.is_pos (m1 * m2)) Hb)) as Hd.
  destruct (binary_round_aux_near false (Zpos (m1 * m2)) (e1 + e2) loc_Exact (inject_Z (Zpos (m1 * m2))))
    as (m' & e' & -> & Ha & _ & Hm' & He'); [lia|done|done|unfold emin; lia|lia|].
  split.
  - exists m', e'. split; [done|]. split; [|lia]. eapply pow_le_mono; [exact Hm'|lia].
  - simpl. unfold approx in *. rewrite pow2_plus in Ha.
    rewrite Pos2Z.inj_mul, inject_Z_mult in Ha. lra.
Qed.

Lemma SFdiv_near B1 B2 x y :
  fin B1 x -> fin B2 y -> (4 * (B1 + B2) + 2 * prec + 3 < emax)%Z ->
  fin (4 * (B1 + B2) + 2 * prec) (SFdiv prec emax x y) /\
  approx (pow2 (- prec)) (value (SFdiv prec emax x y)) (value x / value y).
Proof.
  intros (m1 & e1 & -> & Hm1 & He1) (m2 & e2 & -> & Hm2 & He2) HB. simpl SFdiv. unfold SFdiv_core_binary.
  pose proof (digits_le _ _ (conj (Pos2Z.is_pos m1) Hm1)) as Hd1.
  pose proof (digits_le _ _ (conj (Pos2Z.is_pos m2) Hm2)) as Hd2.
  destruct (digits_bounds (Zpos m1) ltac:(done)) as [[Hl1 Hu1] _].
  destruct (digits_bounds (Zpos m2) ltac:(done)) as [[Hl2 Hu2] _].
  set (d1 := Zdigits2 (Zpos m1)) in *. set (d2 := Zdigits2 (Zpos m2)) in *.
  set (e := Z.min (fexp prec emax (d1 + e1 - (d2 + e2))) (e1 - e2)).
  assert (He : e = Z.min (d1 + e1 - (d2 + e2) - prec) (e1 - e2)) by (unfold e, fexp, emin; lia).
  clearbody e. set (s := (e1 - e2 - e)%Z). assert (Hs : (0 <= s)%Z) by (unfold s; lia).
  assert (Hm' : match s with Zpos _ => Z.shiftl (Zpos m1) s | Z0 => Zpos m1 | Zneg _ => 0%Z end = (Zpos m1 * 2 ^ s)%Z).
  { destruct s as [|q|q]; [lia| |lia]. rewrite Z.shiftl_mul_pow2 by lia. done. }
  rewrite Hm'. clear Hm'. set (M := (Zpos m1 * 2 ^ s)%Z).
  pose proof (Z_div_mod M (Zpos m2) ltac:(lia)) as Hdm.
  destruct (Z.div_eucl M (Zpos m2)) as [q r]. destruct Hdm as [HM Hr].
  assert (Hp2 : (0 < 2 ^ s)%Z) by (apply Z.pow_pos_nonneg; lia).
  assert (HMq : M = (q * Zpos m2 + r)%Z) by lia.
  assert (Hq1 : (2 ^ (prec - 1) <= q)%Z).
  { assert (H1 : (2 ^ (prec - 1) * 2 ^ d2 <= M)%Z).
    { rewrite <-Z.pow_add_r by lia. transitivity (2 ^ (d1 - 1 + s))%Z; [apply Z.pow_le_mono_r; unfold s; lia|].
      rewrite Z.pow_add_r by lia. unfold M. nia. }
    assert (0 < 2 ^ (prec - 1))%Z by (apply Z.pow_pos_nonneg; lia). nia. }
  assert (Hq2 : (q < 2 ^ (B1 + s))%Z).
  { assert (HMb : (M < 2 ^ (B1 + s))%Z) by (rewrite Z.pow_add_r by lia; unfold M; nia). nia. }
  assert (Hq0 : (0 < q)%Z) by (assert (0 < 2 ^ (prec - 1))%Z by (apply Z.pow_pos_nonneg; lia); lia).
  pose proof (digits_le q (B1 + s) (conj Hq0 Hq2)) as Hdq.
  assert (Hdq' : (prec <= Zdigits2 q)%Z).
  { destruct (digits_bounds q Hq0) as [[_ Hb] _]. apply Z.le_ngt. intros Hlt.
    assert (2 ^ Zdigits2 q <= 2 ^ (prec - 1))%Z by (apply Z.pow_le_mono_r; lia). lia. }
  destruct (binary_round_aux_near false q e (new_location (Zpos m2) r) (inject_Z M / inject_Z (Zpos m2)))
    as (m' & e' & -> & Ha & _ & Hm' & He');
    [done|rewrite HMq; by apply new_location_rec|done|unfold emin; lia|unfold s in *; lia|].
  split.
  - exists m', e'. split; [done|]. split; [|unfold s in *; lia]. eapply pow_le_mono; [exact Hm'|lia].
  - assert (Hv : inject_Z M / inject_Z (Zpos m2) * pow2 e ==
        value (S754_finite false m1 e1) / value (S754_finite false m2 e2)).
    { simpl. unfold M. rewrite inject_Z_mult, <-pow2_Z by done.
      replace (pow2 e1) with (pow2 (s + e + e2)) by (f_equal; unfold s; lia). rewrite !pow2_plus.
      pose proof (pow2_pos e2). assert (0 < inject_Z (Zpos m2)) by done. field. lra. }
    unfold approx in *. rewrite Hv in Ha. rewrite value_finite. exact Ha.
Qed.

Lemma iter_xO m d : Zpos (Pos.iter xO m d) = (Zpos m * 2 ^ Zpos d)%Z.
Proof.
  induction d as [|d IH] using Pos.peano_ind.
  - change (Zpos (Pos.iter xO m 1)) with (2 * Zpos m)%Z. change (2 ^ 1)%Z with 2%Z. ring.
  - rewrite Pos.iter_succ, Pos2Z.inj_xO, IH, Pos2Z.inj_succ, Z.pow_succ_r by lia. ring.
Qed.

(** What rounding [m * 2 ^ e] gives. *)
Definition rounded (s : bool) (m : positive) (e : Z) (x : spec_float) : Prop := exists m' e',
  x = S754_finite s m' e' /\
  approx (pow2 (- prec)) (inject_Z (Zpos m') * pow2 e') (inject_Z (Zpos m) * pow2 e) /\
  ((Zdigits2 (Zpos m) <= prec)%Z -> inject_Z (Zpos m') * pow2 e' == inject_Z (Zpos m) * pow2 e) /\
  (Zpos m' < 2 ^ prec /\ Z.min e (Zdigits2 (Zpos m) + e - prec) <= e' <= Zdigits2 (Zpos m) + e - prec + 1)%Z.

Lemma binary_round_near s m e :
  (emin prec emax <= Zdigits2 (Zpos m) + e - prec)%Z -> (Zdigits2 (Zpos m) + e < emax)%Z ->
  rounded s m e (binary_round prec emax s m e).
Proof.
  intros Hmin Hmax. unfold binary_round. change (Zpos (digits2_pos m)) with (Zdigits2 (Zpos m)).
  assert (Hf : fexp prec emax (Zdigits2 (Zpos m) + e) = (Zdigits2 (Zpos m) + e - prec)%Z) by (unfold fexp; lia).
  rewrite Hf. unfold shl_align. destruct (digits_bounds (Zpos m) ltac:(done)) as [Hb Hd0].
  assert (Hno : (prec <= Zdigits2 (Zpos m))%Z -> rounded s m e (binary_round_aux prec emax s (Zpos m) e loc_Exact)).
  { intros Hge.
    destruct (binary_round_aux_near s (Zpos m) e loc_Exact (inject_Z (Zpos m))) as (m' & e' & H1 & H2 & H3 & H4 & H5);
      [lia|done|done|lia|lia|].
    exists m', e'. split_and!; [done|apply H2..|intros Hd; by apply H3|lia|lia|lia]. }
  destruct (Zdigits2 (Zpos m) + e - prec - e)%Z as [|d|d] eqn:Hd; [apply Hno; lia|apply Hno; lia|]. clear Hno.
  set (n := Pos.iter xO m d). assert (Hn : Zpos n = (Zpos m * 2 ^ Zpos d)%Z) by apply iter_xO.
  assert (Hdn : Zdigits2 (Zpos n) = prec).
  { apply digits_unique; [lia|]. rewrite Hn. replace prec with (Zdigits2 (Zpos m) + Zpos d)%Z by lia.
    replace (Zdigits2 (Zpos m) + Zpos d - 1)%Z with (Zdigits2 (Zpos m) - 1 + Zpos d)%Z by lia.
    rewrite !Z.pow_add_r by lia. assert (0 < 2 ^ Zpos d)%Z by (apply Z.pow_pos_nonneg; lia). nia. }
  destruct (binary_round_aux_near s (Zpos n) (Zdigits2 (Zpos m) + e - prec) loc_Exact (inject_Z (Zpos n)))
    as (m' & e' & H1 & H2 & H3 & H4 & H5); [lia|done|done|lia|lia|].
  assert (Hv : inject_Z (Zpos n) * pow2 (Zdigits2 (Zpos m) + e - prec) == inject_Z (Zpos m) * pow2 e).
  { rewrite Hn, inject_Z_mult, <-pow2_Z by lia. replace (pow2 e) with (pow2 (Zpos d + (Zdigits2 (Zpos m) + e - prec)))
      by (f_equal; lia). rewrite pow2_plus. ring. }
  exists m', e'. split; [done|]. unfold approx in *. rewrite Hv in H2, H3. split_and!; [apply H2..|intros _; apply H3; [done|lia]|lia|lia|lia].
Qed.
End round.

(** ** [float64] *)

(** Not an infinity, and not NaN. *)
Definition finite (x : spec_float) : bool := match x with S754_infinity _ | S754_nan => false | _ => true end.

(** [math.Round] is within one half. *)
Lemma Round_near m e :
  (Zpos m < 2 ^ 53)%Z -> (e <= 900)%Z -> finite (Round (S754_finite false m e)) = true /\
  value (S754_finite false m e) - (1#2) <= value (Round (S754_finite false m e)) /\
  value (Round (S754_finite false m e)) <= value (S754_finite false m e) + (1#2).
Proof.
  intros Hm He. unfold Round. destruct (Z.leb_spec 0 e) as [Hp|Hn].
  { split; [done|lra]. }
  set (r := Z.shiftr (Zpos m + 2 ^ (- e - 1)) (- e)).
  assert (Hr : r = ((Zpos m + 2 ^ (- e - 1)) / 2 ^ (- e))%Z) by (apply Z.shiftr_div_pow2; lia).
  assert (Hpow : (2 ^ (- e) = 2 * 2 ^ (- e - 1))%Z).
  { replace (- e)%Z with (1 + (- e - 1))%Z at 1 by lia. rewrite Z.pow_add_r by lia. lia. }
  assert (Hk : (0 < 2 ^ (- e - 1))%Z) by (apply Z.pow_pos_nonneg; lia).
  pose proof (Z.div_mod (Zpos m + 2 ^ (- e - 1)) (2 ^ (- e)) ltac:(lia)) as Hdm.
  pose proof (Z.mod_pos_bound (Zpos m + 2 ^ (- e - 1)) (2 ^ (- e)) ltac:(lia)) as Hmod.
  rewrite <-Hr in Hdm. set (t := ((Zpos m + 2 ^ (- e - 1)) mod 2 ^ (- e))%Z) in *.
  assert (Hlo : (r * 2 ^ (- e) - 2 ^ (- e - 1) <= Zpos m)%Z) by lia.
  assert (Hhi : (Zpos m <= r * 2 ^ (- e) + 2 ^ (- e - 1))%Z) by lia.
  assert (Hv : value (S754_finite false m e) - (1#2) <= inject_Z r /\
               inject_Z r <= value (S754_finite false m e) + (1#2)).
  { rewrite value_finite. rewrite Zle_Qle in Hlo, Hhi.
    unfold Z.sub in Hlo at 1. rewrite inject_Z_plus, inject_Z_opp, inject_Z_mult in Hlo.
    rewrite inject_Z_plus, inject_Z_mult in Hhi. rewrite Hpow, inject_Z_mult in Hlo, Hhi.
    change (inject_Z 2) with 2 in Hlo, Hhi. rewrite <-(pow2_Z (- e - 1)) in Hlo, Hhi by lia.
    pose proof (pow2_pos e) as Hpe.
    assert (Hc : pow2 (- e - 1) * pow2 e == 1#2).
    { rewrite <-pow2_plus. by replace (- e - 1 + e)%Z with (-1)%Z by lia. }
    set (P := pow2 (- e - 1)) in *. set (E := pow2 e) in *. set (M := inject_Z (Zpos m)) in *.
    set (R := inject_Z r) in *. clearbody P E M R. clear - Hlo Hhi Hpe Hc.
    assert (H1 : (R * (2 * P) + - P) * E <= M * E) by (apply Qmult_le_compat_r; lra).
    assert (H2 : M * E <= (R * (2 * P) + P) * E) by (apply Qmult_le_compat_r; lra).
    assert (H3 : (R * (2 * P) + - P) * E == R * 2 * (P * E) - P * E) by ring.
    assert (H4 : (R * (2 * P) + P) * E == R * 2 * (P * E) + P * E) by ring.
    rewrite H3, Hc in H1. rewrite H4, Hc in H2. lra. }
  assert (Hr0 : (0 <= r)%Z) by nia.
  destruct r as [|p|p] eqn:Hrp; [split; [done|exact Hv]| |lia].
  assert (Hd : (Zpos p < 2 ^ 53)%Z) by nia.
  pose proof (digits_le _ _ (conj (Pos2Z.is_pos p) Hd)) as Hdp.
  destruct (binary_round_near prec emax ltac:(done) false p 0) as (m' & e' & -> & _ & Hex & _);
    [unfold emin, prec, emax; lia|unfold emax; lia|]. split; [done|].
  rewrite (value_finite m' e'), Hex by (unfold prec; lia). change (pow2 0) with 1. rewrite Qmult_1_r. exact Hv.
Qed.

(** Rounding a positive number to a [float64]. *)
Lemma to_float64_near m e :
  pow2 (- 700) <= inject_Z (Zpos m) * pow2 e -> inject_Z (Zpos m) * pow2 e <= pow2 700 ->
  exists m' e', binary_round prec emax false m e = S754_finite false m' e' /\
    approx (pow2 (- 53)) (value (S754_finite false m' e')) (inject_Z (Zpos m) * pow2 e) /\
    (Zpos m' < 2 ^ 53 /\ e' <= 900)%Z.
Proof.
  intros Hlo Hhi. destruct (digits_bounds (Zpos m) ltac:(done)) as [[Hb1 Hb2] Hd].
  set (d := Zdigits2 (Zpos m)) in *. pose proof (pow2_pos e) as He.
  rewrite Zle_Qle in Hb1. rewrite Zlt_Qlt in Hb2. rewrite <-pow2_Z in Hb1, Hb2 by lia.
  assert (H1 : (-700 < d + e)%Z).
  { apply pow2_lt_inv. rewrite pow2_plus. change (pow2 (- 700)) with (pow2 (-700)) in Hlo.
    assert (inject_Z (Zpos m) * pow2 e < pow2 d * pow2 e) by (apply Qmult_lt_r; done). lra. }
  assert (H2 : (d - 1 + e < 701)%Z).
  { apply pow2_lt_inv. rewrite pow2_plus.
    assert (pow2 (d - 1) * pow2 e <= inject_Z (Zpos m) * pow2 e) by (apply Qmult_le_r; done).
    assert (pow2 700 < pow2 701) by (by vm_compute). lra. }
  destruct (binary_round_near prec emax ltac:(done) false m e) as (m' & e' & -> & Ha & _ & Hm & He');
    fold d; [unfold emin, prec, emax; lia|unfold emax; lia|].
  exists m', e'. split; [done|]. split; [|unfold prec, d in *; lia].
  unfold approx in *. rewrite value_finite. exact Ha.
Qed.

(** ** Relative errors *)

Lemma approx_le a b x y : 0 <= y -> a <= b -> approx a x y -> approx b x y.
Proof. unfold approx. intros. nra. Qed.
Lemma approx_trans a b x y z : 0 <= z -> 0 <= a -> 0 <= b <= 1 -> a <= 1 ->
  approx b x y -> approx a y z -> approx (a + 2 * b) x z.
Proof. unfold approx. intros. split; nra. Qed.
Lemma approx_mul a b x1 x2 y1 y2 : 0 <= y1 -> 0 <= y2 -> 0 <= a <= 1 -> 0 <= b <= 1 ->
  approx a x1 y1 -> approx b x2 y2 -> approx (a + 2 * b) (x1 * x2) (y1 * y2).
Proof.
  unfold approx. intros Hy1 Hy2 Ha Hb [H1 H2] [H3 H4].
  assert (0 <= y1 * (1 - a)) by nra. assert (0 <= y2 * (1 - b)) by nra. assert (0 <= y1 * y2) by nra. split.
  - assert ((y1 * (1 - a)) * (y2 * (1 - b)) <= x1 * x2) by nra. nra.
  - assert (x1 * x2 <= (y1 * (1 + a)) * (y2 * (1 + b))) by nra. nra.
Qed.
Lemma approx_inv b x y : 0 < y -> 0 <= b -> 2 * b <= 1 -> approx b x y -> approx (2 * b) (/ x) (/ y).
Proof.
  unfold approx. intros Hy Hb Hb' [H1 H2]. assert (Hx : 0 < x) by nra.
  assert (Hxi : 0 < / x) by (by apply Qinv_lt_0_compat). assert (Hyi : 0 < / y) by (by apply Qinv_lt_0_compat).
  assert (Hxx : x * / x == 1) by (field; lra). assert (Hyy : y * / y == 1) by (field; lra).
  set (u := / x) in *. set (v := / y) in *. clearbody u v. split.
  - apply (Qmult_le_r _ _ (x * y)); [nra|].
    assert (E1 : v * (1 - 2 * b) * (x * y) == x * (1 - 2 * b) * (y * v)) by ring.
    assert (E2 : u * (x * y) == y * (x * u)) by ring. rewrite E1, E2, Hxx, Hyy. nra.
  - apply (Qmult_le_r _ _ (x * y)); [nra|].
    assert (E1 : v * (1 + 2 * b) * (x * y) == x * (1 + 2 * b) * (y * v)) by ring.
    assert (E2 : u * (x * y) == y * (x * u)) by ring. rewrite E1, E2, Hxx, Hyy. nra.
Qed.
End Rounding.
