(* ===== verification/Reducer.v ===== *)
(** * Reducer: from the JSON of an exchange to a price

    [node/pkg/utils/reducer/reducer.go].  A value is what [encoding/json] makes
    of a document in an [interface{}]; the keys of an object are distinct. *)

From S2P Require Import Prelude Errors Text Float.
From Stdlib Require Import Ascii Floats.SpecFloat.
Import Text Float.

Local Open Scope Z_scope.

Module Reducer.

Inductive json : Type :=
| JNull
| JBool (b : bool)
| JNum (f : float64)
| JStr (s : string)
| JArr (l : list json)
| JObj (m : list (string * json)).

Record Reducer : Type := mkReducer { Function_ : string; Args : json }.

(** [m[key]]: nil when the key is absent. *)
Fixpoint obj_get (m : list (string * json)) (key : string) : json :=
  match m with
  | [] => JNull
  | (k, v) :: m => if bool_decide (k = key) then v else obj_get m key
  end.

(** [strings.ReplaceAll(s, ",", "")]. *)
Definition drop_commas (s : string) : string := text (filter (fun c => c <> ","%char) (chars s)).

Definition tryParseFloat (raw : json) : res float64 :=
  match raw with
  | JNum f => Ok f
  | JStr s =>
      match ParseFloat (drop_commas s) with
      | Some f => Ok f
      | None => Err ErrReducerCastToFloatFail
      end
  | _ => Err ErrReducerCastToFloatFail
  end.

(** The arguments of [PARSE], all strings. *)
Fixpoint arg_strings (args : list json) : res (list string) :=
  match args with
  | [] => Ok []
  | JStr s :: args => res_map (cons s) (arg_strings args)
  | _ :: _ => Err ErrReducerParseCastToStringFail
  end.

Fixpoint parse_path (path : list string) (raw : json) : res json :=
  match path with
  | [] => Ok raw
  | arg :: path =>
      match raw with
      | JObj m => parse_path path (obj_get m arg)
      | _ => Err ErrReducerParseCastToMapFail
      end
  end.

(** [None]: a negative index, which panics. *)
Definition index_of (l : list json) (index : float64) : option (res json) :=
  if Z.of_nat (length l) <=? to_int64 index then Some (Err ErrReducerIndexOutOfBounds)
  else if to_int64 index <? 0 then None
  else Ok <$> l !! Z.to_nat (to_int64 index).

Definition reduce (raw : json) (r : Reducer) : option (res json) :=
  let f := Function_ r in
  if bool_decide (f = "INDEX") then
    match raw with
    | JArr castedRaw =>
        match tryParseFloat (Args r) with
        | Err err => Some (Err err)
        | Ok index => index_of castedRaw index
        end
    | _ => Some (Err ErrReducerIndexCastToInterfaceFail)
    end
  else if bool_decide (f = "PARSE") then
    match Args r with
    | JArr args => Some (res_bind (arg_strings args) (fun argStrs => parse_path argStrs raw))
    | _ => Some (Err ErrReducerParseCastToInterfaceFail)
    end
  else if bool_decide (f = "MUL") then
    Some (res_bind (tryParseFloat raw) (fun castedRaw =>
      match Args r with
      | JNum arg => Ok (JNum (fmul castedRaw arg))
      | _ => Err ErrReducerMulCastToFloatFail
      end))
  else if bool_decide (f = "POW10") then
    Some (res_bind (tryParseFloat raw) (fun castedRaw =>
      res_map (fun arg => JNum (fmul (Pow10 (to_int64 arg)) castedRaw)) (tryParseFloat (Args r))))
  else if bool_decide (f = "ROUND") then
    Some (res_map (fun castedRaw => JNum (Round castedRaw)) (tryParseFloat raw))
  else if bool_decide (f = "DIV") then
    Some (res_bind (tryParseFloat raw) (fun castedRaw =>
      match Args r with
      | JNum arg =>
          if feqb arg fzero then Err ErrReducerDivDivsionByZero else Ok (JNum (fdiv castedRaw arg))
      | _ => Err ErrReducerDivCastToFloatFail
      end))
  else if bool_decide (f = "DIVFROM") then
    Some (res_bind (tryParseFloat raw) (fun castedRaw =>
      match Args r with
      | JNum arg => Ok (JNum (fdiv arg castedRaw))
      | _ => Err ErrReducerDivFromCastToFloatFail
      end))
  else Some (Err ErrReducerUnknownReducerFunc).

(** The loop of [Reduce]. *)
Fixpoint reduce_loop (raw : json) (reducers : list Reducer) : option (res json) :=
  match reducers with
  | [] => Some (Ok raw)
  | r :: reducers =>
      match reduce raw r with
      | Some (Ok raw) => reduce_loop raw reducers
      | out => out
      end
  end.

Definition Reduce (raw : json) (reducers : list Reducer) : option (res float64) :=
  match reduce_loop raw reducers with
  | None => None
  | Some (Err err) => Some (Err err)
  | Some (Ok (JNum result)) => Some (Ok result)
  | Some (Ok _) => Some (Err ErrReducerCastToFloatFail)
  end.

(** ** When a reduction panics *)
Lemma index_of_None l index : index_of l index = None <-> to_int64 index < 0.
Proof.
  unfold index_of. destruct (Z.leb_spec (Z.of_nat (length l)) (to_int64 index)) as [Hle|Hlt].
  { split; [done|lia]. }
  destruct (Z.ltb_spec (to_int64 index) 0); [done|].
  destruct (lookup_lt_is_Some_2 l (Z.to_nat (to_int64 index)) ltac:(lia)) as [x ->]. simpl.
  split; [done|lia].
Qed.

Lemma reduce_None raw r :
  reduce raw r = None <->
  Function_ r = "INDEX" /\ exists l index, raw = JArr l /\ tryParseFloat (Args r) = Ok index /\ to_int64 index < 0.
Proof.
  unfold reduce. case_bool_decide as HI.
  - split.
    + destruct raw; try done. destruct (tryParseFloat (Args r)) as [index|] eqn:Hp; [|done].
      intros Hn%index_of_None. eauto 10.
    + intros (_ & l & index & -> & -> & Hn). by apply index_of_None.
  - split; [|naive_solver]. repeat case_bool_decide; try done. by destruct (Args r).
Qed.

Lemma reduce_loop_app rs1 : forall raw rs2,
  reduce_loop raw (rs1 ++ rs2) =
    match reduce_loop raw rs1 with Some (Ok raw) => reduce_loop raw rs2 | out => out end.
Proof.
  induction rs1 as [|r rs1 IH]; intros raw rs2; [done|]. simpl.
  destruct (reduce raw r) as [[raw'|]|]; [apply IH|done..].
Qed.

(** Reducing a document crashes the node exactly when a negative index is
    applied to an array; every other document and definition gives a price or an
    error. *)
Theorem reduce_panics_iff raw rs :
  Reduce raw rs = None <->
  exists rs1 r rs2 l index,
    rs = rs1 ++ r :: rs2 /\ reduce_loop raw rs1 = Some (Ok (JArr l)) /\
    Function_ r = "INDEX" /\ tryParseFloat (Args r) = Ok index /\ to_int64 index < 0.
Proof.
  assert (Reduce raw rs = None <-> reduce_loop raw rs = None) as ->.
  { unfold Reduce. by destruct (reduce_loop raw rs) as [[[]|]|]. }
  split.
  - revert raw. induction rs as [|r rs IH]; intros raw; [done|]. simpl.
    destruct (reduce raw r) as [[raw'|]|] eqn:Hr; [|done|].
    + intros (rs1 & r' & rs2 & l & index & -> & Hl & Hrest)%IH.
      exists (r :: rs1), r', rs2, l, index. split; [done|]. simpl. by rewrite Hr.
    + intros _. apply reduce_None in Hr as (HI & l & index & -> & Hp & Hn).
      exists [], r, rs, l, index. done.
  - intros (rs1 & r & rs2 & l & index & -> & Hl & HI & Hp & Hn).
    rewrite reduce_loop_app, Hl. simpl.
    assert (reduce (JArr l) r = None) as -> by (apply reduce_None; eauto 10). done.
Qed.

(** The division that [DIV] guards, [DIVFROM] does not: a price of zero gives
    an infinite one. *)
Lemma divfrom_zero :
  Reduce (JNum fzero) [mkReducer "DIVFROM" (JNum (of_int 1))] = Some (Ok (S754_infinity false)) /\
  Reduce (JNum (of_int 1)) [mkReducer "DIV" (JNum fzero)] = Some (Err ErrReducerDivDivsionByZero).
Proof. split; vm_compute; reflexivity. Qed.

(** A text may also be no number at all. *)
Lemma nan_price : Reduce (JStr "NaN") [mkReducer "ROUND" JNull] = Some (Ok S754_nan).
Proof. vm_compute. reflexivity. Qed.

(** A ticker as exchanges serve it: [{"result":[{"last":"1,234.5"}]}]. *)
Example reduce_ticker :
  Reduce (JObj [("result", JArr [JObj [("last", JStr "1,234.5")]])])
    [mkReducer "PARSE" (JArr [JStr "result"]); mkReducer "INDEX" (JNum (of_int 0));
     mkReducer "PARSE" (JArr [JStr "last"]); mkReducer "POW10" (JNum (of_int 8)); mkReducer "ROUND" JNull]
  = Some (Ok (of_int 123450000000)).
Proof. vm_compute. reflexivity. Qed.

End Reducer.
