(* ===== verification/FeedData.v ===== *)
(** * FeedData: the latest data of every feed

    [LatestFeedDataMap] of [node/pkg/common/types/types.go], the table that the
    fetchers and the websocket providers write and the local aggregators read.
    Its mutex makes each call one step.  Feed data is never changed after it is
    made, so the pointers of the table are values here. *)

From S2P Require Import Prelude Errors Wire Float.
Import Float.

Local Open Scope Z_scope.

Module FeedData.

Record FeedData : Type := mkFeedData {
  FeedID : int32; Value : float64; Volume : float64; Timestamp : option Time
}.

Abbreviation LatestFeedDataMap := (gmap Z FeedData).

Definition GetLatestFeedData (m : LatestFeedDataMap) (feedIds : list int32) : list FeedData :=
  omap (fun feedId => m !! feedId) feedIds.

(** One element of the loop, [None] for a nil pointer; the result is [None]
    where a timestamp that has to be compared is nil. *)
Definition set_one (m : LatestFeedDataMap) (data : option FeedData) : option LatestFeedDataMap :=
  match data with
  | None => Some m
  | Some data =>
      match m !! FeedID data with
      | Some prev =>
          prevTime ← Timestamp prev;
          time ← Timestamp data;
          Some (if time <? prevTime then m else <[FeedID data := data]> m)
      | None => Some (<[FeedID data := data]> m)
      end
  end.

Fixpoint SetLatestFeedData (feedData : list (option FeedData)) (m : LatestFeedDataMap)
    : option LatestFeedDataMap :=
  match feedData with
  | [] => Some m
  | data :: feedData => m ← set_one m data; SetLatestFeedData feedData m
  end.

(** Calls one after the other. *)
Fixpoint set_all (batches : list (list (option FeedData))) (m : LatestFeedDataMap)
    : option LatestFeedDataMap :=
  match batches with
  | [] => Some m
  | b :: batches => m ← SetLatestFeedData b m; set_all batches m
  end.

(** ** The newest data *)

(** The newest data of a feed among those written, the last written on a tie. *)
Definition newest (id : Z) (l : list FeedData) (d : FeedData) : Prop :=
  exists l1 l2 t, l = l1 ++ d :: l2 /\ FeedID d = id /\ Timestamp d = Some t /\
    (forall d' t', d' ∈ l1 -> FeedID d' = id -> Timestamp d' = Some t' -> t' <= t) /\
    (forall d' t', d' ∈ l2 -> FeedID d' = id -> Timestamp d' = Some t' -> t' < t).

Definition timed (d : FeedData) : Prop := is_Some (Timestamp d).

(** The table holds exactly the newest data of every feed in [l]. *)
Definition holds (m : LatestFeedDataMap) (l : list FeedData) : Prop :=
  Forall timed l /\
  (forall id d, m !! id = Some d -> newest id l d) /\
  (forall d, d ∈ l -> is_Some (m !! FeedID d)).

Lemma newest_app id l d d' :
  newest id l d ->
  (forall t t', Timestamp d = Some t -> FeedID d' = id -> Timestamp d' = Some t' -> t' < t) -> newest id (l ++ [d']) d.
Proof.
  intros (l1 & l2 & t & -> & Hid & Ht & H1 & H2) Hd'. exists l1, (l2 ++ [d']), t.
  split_and!; [by rewrite <- app_assoc|done|done|done|].
  intros x t' Hx Hi Hxt. apply elem_of_app in Hx as [Hx| ->%list_elem_of_singleton]; eauto.
Qed.

Lemma set_one_holds m l d :
  holds m l -> timed d -> exists m', set_one m (Some d) = Some m' /\ holds m' (l ++ [d]).
Proof.
  intros (Htimed & Hnew & Hall) [t Ht]. unfold set_one.
  assert (Forall timed (l ++ [d])) as Htimed' 
    by (apply Forall_app; split; [done|]; apply Forall_singleton; by exists t).
  destruct (m !! FeedID d) as [prev|] eqn:Hprev.
  - pose proof (Hnew _ _ Hprev) as Hn. destruct Hn as (l1 & l2 & pt & Hl & Hid & Hpt & H1 & H2).
    rewrite Hpt, Ht. simpl. eexists. split; [done|]. destruct (Z.ltb_spec t pt) as [Hlt|Hge].
    + split_and!; [done| |].
      * intros id x Hx. apply newest_app; [by apply Hnew|]. intros tx td Htx Hi Htd. simplify_eq. lia.
      * intros x [Hx| ->%list_elem_of_singleton]%elem_of_app; [by apply Hall|]. by eexists.
    + split_and!; [done| |].
      * intros id x [[<- <-]|[Hne Hx]]%lookup_insert_Some.
        -- exists l, [], t. split_and!; [done..| |].
           ++ intros x t' Hx Hi Hxt. subst l. apply elem_of_app in Hx as [Hx|[->|Hx]%elem_of_cons].
              ** specialize (H1 _ _ Hx Hi Hxt). lia.
              ** simplify_eq. lia.
              ** specialize (H2 _ _ Hx Hi Hxt). lia.
           ++ by intros ?? ?%not_elem_of_nil.
        -- apply newest_app; [by apply Hnew|]. done.
      * intros x Hx. apply lookup_insert_is_Some'.
        apply elem_of_app in Hx as [Hx| ->%list_elem_of_singleton]; [right; by apply Hall|by left].
  - eexists. split; [done|]. split_and!; [done| |].
    + intros id x [[<- <-]|[Hne Hx]]%lookup_insert_Some.
      * exists l, [], t. split_and!; [done..| |by intros ?? ?%not_elem_of_nil].
        intros x t' Hx Hi _. destruct (Hall _ Hx) as [y Hy]. rewrite Hi, Hprev in Hy. done.
      * apply newest_app; [by apply Hnew|]. done.
    + intros x Hx. apply lookup_insert_is_Some'.
      apply elem_of_app in Hx as [Hx| ->%list_elem_of_singleton]; [right; by apply Hall|by left].
Qed.

Lemma SetLatestFeedData_holds b : forall m l,
  holds m l -> Forall timed (omap id b) ->
  exists m', SetLatestFeedData b m = Some m' /\ holds m' (l ++ omap id b).
Proof.
  induction b as [|[d|] b IH]; intros m l Hm Ht.
  - exists m. simpl. by rewrite app_nil_r.
  - simpl in Ht. apply Forall_cons in Ht as [Hd Ht].
    destruct (set_one_holds m l d Hm Hd) as (m1 & Hone & Hm1).
    destruct (IH m1 (l ++ [d]) Hm1 Ht) as (m2 & Hset & Hm2).
    exists m2. cbn [SetLatestFeedData]. rewrite Hone. simpl. split; [done|]. by rewrite <- app_assoc in Hm2.
  - simpl. by apply IH.
Qed.

Lemma set_all_holds batches : forall m l,
  holds m l -> Forall timed (omap id (concat batches)) ->
  exists m', set_all batches m = Some m' /\ holds m' (l ++ omap id (concat batches)).
Proof.
  induction batches as [|b bs IH]; intros m l Hm Ht.
  - exists m. simpl. by rewrite app_nil_r.
  - simpl in *. rewrite omap_app in *. apply Forall_app in Ht as [Hb Ht].
    destruct (SetLatestFeedData_holds b m l Hm Hb) as (m1 & Hset & Hm1).
    destruct (IH m1 _ Hm1 Ht) as (m2 & Hsets & Hm2). exists m2. rewrite Hset. simpl.
    split; [done|]. by rewrite app_assoc.
Qed.

Lemma holds_empty : holds ∅ [].
Proof. split_and!; [done| |]; [intros ??; by rewrite lookup_empty|by intros ? ?%not_elem_of_nil]. Qed.

Lemma newest_unique id l d d' : newest id l d -> newest id l d' -> d = d'.
Proof.
  intros (l1 & l2 & t & -> & Hid & Ht & H1 & H2) (k1 & k2 & t' & Heq & Hid' & Ht' & H1' & H2').
  assert (forall a b : list FeedData, forall c c' : FeedData, forall x y u v : list FeedData,
    x ++ c :: y = u ++ c' :: v -> c = c' \/ (c' ∈ y /\ c ∈ u) \/ (c ∈ v /\ c' ∈ x)) as Hpos.
  { intros _ _ c c' x y u v [(k & -> & Hk)|(k & -> & Hk)]%app_eq_inv; destruct k as [|z k]; simplify_eq/=; set_solver. }
  destruct (Hpos [] [] _ _ _ _ _ _ Heq) as [->|[[Ha Hb]|[Ha Hb]]]; [done| |].
  - specialize (H2 _ _ Ha Hid' Ht'). specialize (H1' _ _ Hb Hid Ht). lia.
  - specialize (H2' _ _ Ha Hid Ht). specialize (H1 _ _ Hb Hid' Ht'). lia.
Qed.

(** C20: however the batches of the fetchers and providers follow each other,
    writing timed data never panics, and a local aggregator then reads, in the
    order of its feeds, exactly the newest data of each feed that has any. *)
Theorem latest_is_newest batches ids :
  Forall timed (omap id (concat batches)) ->
  exists m, set_all batches ∅ = Some m /\
    (forall d, d ∈ GetLatestFeedData m ids <-> FeedID d ∈ ids /\ newest (FeedID d) (omap id (concat batches)) d) /\
    FeedID <$> GetLatestFeedData m ids = filter (fun i => i ∈ FeedID <$> omap id (concat batches)) ids.
Proof.
  intros Ht. destruct (set_all_holds batches ∅ [] holds_empty Ht) as (m & Hm & _ & Hnew & Hall).
  exists m. split; [done|]. simpl in *. set (l := omap id (concat batches)) in *.
  assert (forall i d, m !! i = Some d -> FeedID d = i /\ d ∈ l) as Hin.
  { intros i d (l1 & l2 & t & -> & Hid & _)%Hnew. split; [done|set_solver]. }
  split.
  - intros d. unfold GetLatestFeedData. rewrite list_elem_of_omap. split.
    + intros (i & Hi & Hd). destruct (Hin _ _ Hd) as [<- _]. split; [done|by apply Hnew].
    + intros [Hi Hn]. exists (FeedID d). split; [done|].
      assert (d ∈ l) as Hd by (destruct Hn as (l1 & l2 & t & -> & _); set_solver).
      destruct (Hall _ Hd) as [d' Hd']. rewrite Hd'. f_equal. by eapply newest_unique, Hn; apply Hnew.
  - unfold GetLatestFeedData. induction ids as [|i ids IH]; [done|]. rewrite filter_cons. simpl.
    destruct (m !! i) as [d|] eqn:Hd.
    + destruct (Hin _ _ Hd) as [Hid Hdl]. rewrite decide_True; [simpl; rewrite Hid; f_equal; exact IH|].
      apply list_elem_of_fmap. eauto.
    + rewrite decide_False; [done|]. intros (d & -> & Hdl)%list_elem_of_fmap.
      destruct (Hall _ Hdl) as [? ?]. congruence.
Qed.

(** Two feeds, the first written three times, the newest data in the middle. *)
Definition w_feed (id v t : Z) : option FeedData := Some (mkFeedData id (of_int v) fzero (Some t)).
Lemma latest_is_newest_witness : exists m,
  set_all [[w_feed 1 10 5]; [w_feed 1 11 9; w_feed 2 20 1]; [w_feed 1 12 7]] ∅ = Some m /\
  FeedID <$> GetLatestFeedData m [3; 2; 1] = [2; 1].
Proof.
  destruct (latest_is_newest [[w_feed 1 10 5]; [w_feed 1 11 9; w_feed 2 20 1]; [w_feed 1 12 7]] [3; 2; 1])
    as (m & Hm & _ & Hids); [|by exists m].
  repeat (constructor; [by eexists|]). constructor.
Defined.

End FeedData.
