(* ===== verification/Fetcher.v ===== *)
(** * Fetcher: prices over HTTP

    [node/pkg/fetcher/fetcher.go], [feeddatabulkwriter.go] and the fetching
    functions of [utils.go].  A job asks every feed of a config concurrently,
    reduces the answers to prices, writes them into the table of latest data and
    queues them for the database. *)

From S2P Require Import Prelude Errors Wire Text Float Reducer FeedData.
Import Text Float Reducer FeedData.

Local Open Scope Z_scope.

Module Fetcher.

Record Proxy : Type := mkProxy {
  Protocol : string; Host : string; Port : Z; p_Location : option string
}.
Definition GetProxyUrl (proxy : Proxy) : string :=
  Protocol proxy +:+ "://" +:+ Host proxy +:+ ":" +:+ Itoa (Port proxy).

(** The fields that [fetch] uses. *)
Record Definition_ : Type := mkDefinition {
  Url : option string; Headers : gmap string string; Reducers : list Reducer;
  d_Location : option string; Type_ : option string
}.

(** [f_Definition]: what [json.Unmarshal] makes of the raw definition; [None]
    for a JSON null, which leaves a nil pointer. *)
Record Feed : Type := mkFeed {
  f_ID : int32; f_Name : string; f_Definition : res (option Definition_); f_ConfigID : int32
}.

Definition DefaultFeedDataDumpChannelSize : nat := 20000.

(** The answers of one job: the HTTP client, the random choice of a proxy, the
    clock when a feed answers, and the order in which the goroutines deliver. *)
Record FetchEnv : Type := mkFetchEnv {
  Request : string -> gmap string string -> option string -> res json;
  Intn : nat -> nat;
  now : Feed -> Time;
  arrival : list Feed -> list Feed
}.

Section fetcher.
Context (E : FetchEnv).

Definition filterProxyByLocation (proxies : list Proxy) (location : string) : list Proxy :=
  filter (fun proxy => p_Location proxy = Some location) proxies.

(** [None]: the URL is nil and its dereference panics. *)
Definition requestWithoutProxy (definition : Definition_) : option (res json) :=
  url ← Url definition; Some (Request E url (Headers definition) None).
Definition requestWithProxy (definition : Definition_) (proxyUrl : string) : option (res json) :=
  url ← Url definition; Some (Request E url (Headers definition) (Some proxyUrl)).

Definition requestFeed (definition : Definition_) (proxies : list Proxy) : option (res json) :=
  let filteredProxy :=
    match d_Location definition with
    | Some location => if bool_decide (location <> "") then filterProxyByLocation proxies location else proxies
    | None => proxies
    end in
  match filteredProxy with
  | [] => requestWithoutProxy definition
  | _ :: _ =>
      proxy ← filteredProxy !! Intn E (length filteredProxy);
      requestWithProxy definition (GetProxyUrl proxy)
  end.

Definition cex (definition : Definition_) (proxies : list Proxy) : option (res float64) :=
  raw ← requestFeed definition proxies;
  match raw with
  | Err err => Some (Err err)
  | Ok rawResult => Reduce rawResult (Reducers definition)
  end.

(** The goroutine of one feed: what it sends on one of the two channels. *)
Definition fetch_feed (proxies : list Proxy) (feed : Feed) : option (res FeedData) :=
  match f_Definition feed with
  | Err err => Some (Err err)
  | Ok None => None
  | Ok (Some definition) =>
      match Type_ definition with
      | None =>
          value ← cex definition proxies;
          Some (res_map (fun resultValue => mkFeedData (f_ID feed) resultValue fzero (Some (now E feed))) value)
      | Some _ => Some (Err ErrFetcherInvalidType)
      end
  end.

(** The loop that receives one result per feed. *)
Fixpoint gather (outs : list (res FeedData)) : list FeedData * list error :=
  match outs with
  | [] => ([], [])
  | Ok result :: outs => let '(data, errList) := gather outs in (result :: data, errList)
  | Err err :: outs => let '(data, errList) := gather outs in (data, err :: errList)
  end.

(** [None]: some goroutine panics, which ends the process. *)
Definition fetch (proxies : list Proxy) (feeds : list Feed) : option (res (list FeedData)) :=
  outs ← mapM (fetch_feed proxies) (arrival E feeds);
  let '(data, errList) := gather outs in
  if (length data <? 1)%nat then Some (Err ErrFetcherNoDataFetched) else Some (Ok data).

(** A job returns, waits for room in the dump channel, or panics. *)
Inductive job : Type :=
| Returned (m : LatestFeedDataMap) (ch : list FeedData) (err : option error)
| Waiting (m : LatestFeedDataMap) (ch : list FeedData)
| Panics.

Definition fetcherJob (proxies : list Proxy) (feeds : list Feed) (m : LatestFeedDataMap)
    (ch : list FeedData) : job :=
  match fetch proxies feeds with
  | None => Panics
  | Some fetched =>
      let '(result, err) := match fetched with Ok r => (r, None) | Err e => ([], Some e) end in
      match err with
      | Some err =>
          if errors_Is err ErrFetcherNoDataFetched
          then Returned m ch (Some (Sentinel ErrFetcherNoDataFetched))
          else Returned m ch (Some err)
      | None =>
          if (length result =? 0)%nat then Returned m ch (Some (Sentinel ErrFetcherNoDataFetched)) else
          match SetLatestFeedData (Some <$> result) m with
          | None => Panics
          | Some m =>
              let room := (DefaultFeedDataDumpChannelSize - length ch)%nat in
              if (length result <=? room)%nat then Returned m (ch ++ result) None
              else Waiting m (ch ++ take room result)
          end
      end
  end.

(** [FetchSingle], used by the admin API. *)
Definition FetchSingle (definition : Definition_) : option (res float64) :=
  url ← Url definition;
  match Request E url (Headers definition) None with
  | Err err => Some (Err err)
  | Ok rawResult => Reduce rawResult (Reducers definition)
  end.

(** ** Theorems *)

(** The data of the feeds that answered. *)
Definition answered (proxies : list Proxy) (feeds : list Feed) : list FeedData :=
  omap (fun feed => match fetch_feed proxies feed with Some (Ok d) => Some d | _ => None end) feeds.

Lemma gather_data proxies feeds outs :
  mapM (fetch_feed proxies) feeds = Some outs -> fst (gather outs) = answered proxies feeds.
Proof.
  revert outs. induction feeds as [|feed feeds IH]; intros outs H; simpl in H; [by inversion H|].
  destruct (fetch_feed proxies feed) as [out|] eqn:Hf; [|done]. simpl in H.
  destruct (mapM (fetch_feed proxies) feeds) as [outs'|]; [|done]. injection H as <-.
  specialize (IH outs' eq_refl).
  assert (answered proxies (feed :: feeds) =
    match out with Ok d => d :: answered proxies feeds | Err _ => answered proxies feeds end) as ->.
  { unfold answered. simpl. rewrite Hf. by destruct out. }
  rewrite <- IH. by destruct out; simpl; destruct (gather outs').
Qed.

Lemma answered_perm proxies feeds feeds' : feeds ≡ₚ feeds' -> answered proxies feeds ≡ₚ answered proxies feeds'.
Proof. intros Hp. unfold answered. by rewrite Hp. Qed.

(** Why a goroutine panics. *)
Lemma fetch_feed_None proxies feed :
  (forall n, (0 < n)%nat -> (Intn E n < n)%nat) ->
  fetch_feed proxies feed = None <->
  f_Definition feed = Ok None \/
  exists d, f_Definition feed = Ok (Some d) /\ Type_ d = None /\
    (Url d = None \/ exists raw, requestFeed d proxies = Some (Ok raw) /\ Reduce raw (Reducers d) = None).
Proof.
  intros Hrand. unfold fetch_feed. destruct (f_Definition feed) as [[d|]|err]; [|naive_solver..].
  destruct (Type_ d) eqn:Ht; [naive_solver|].
  assert (requestFeed d proxies = None <-> Url d = None) as Hreq.
  { unfold requestFeed, requestWithoutProxy, requestWithProxy.
    set (fp := match d_Location d with Some _ => _ | None => _ end).
    destruct fp as [|p ps] eqn:Hfp; [by destruct (Url d)|].
    destruct (lookup_lt_is_Some_2 (p :: ps) (Intn E (length (p :: ps)))) as [q ->]; [apply Hrand; simpl; lia|].
    simpl. by destruct (Url d). }
  unfold cex. destruct (requestFeed d proxies) as [[raw|err]|] eqn:Hr; simpl.
  - destruct (Reduce raw (Reducers d)) eqn:Hred; simpl; naive_solver.
  - naive_solver.
  - naive_solver.
Qed.

(** C26: whatever order the answers arrive in, a fetch returns exactly the data
    of the feeds that answered, and an error exactly when none did; it ends the
    process exactly when the goroutine of some feed panics. *)
Theorem fetch_exact proxies feeds :
  arrival E feeds ≡ₚ feeds ->
  (fetch proxies feeds = None <-> Exists (fun feed => fetch_feed proxies feed = None) feeds) /\
  (forall data, fetch proxies feeds = Some (Ok data) -> data ≡ₚ answered proxies feeds /\ data <> []) /\
  (forall err, fetch proxies feeds = Some (Err err) ->
     err = Sentinel ErrFetcherNoDataFetched /\ answered proxies feeds = []).
Proof.
  intros Hp. pose proof (answered_perm proxies _ _ Hp) as Ha. unfold fetch.
  destruct (mapM (fetch_feed proxies) (arrival E feeds)) as [outs|] eqn:Hm; simpl.
  - pose proof (gather_data _ _ _ Hm) as Hg. destruct (gather outs) as [data errs]. simpl in Hg. subst data.
    assert (Forall (is_Some ∘ fetch_feed proxies) (arrival E feeds)) as Hall by (apply mapM_is_Some_1; by eexists).
    assert (~ Exists (fun feed => fetch_feed proxies feed = None) feeds) as Hno.
    { rewrite <- Hp. intros Hex. rewrite Exists_exists in Hex. destruct Hex as (f & Hin & Hn).
      rewrite Forall_forall in Hall. destruct (Hall _ Hin). congruence. }
    destruct (length (answered proxies (arrival E feeds)) <? 1)%nat eqn:Hl; split_and!; try done.
    + intros err ?. simplify_eq. split; [done|]. apply Nat.ltb_lt in Hl.
      destruct (answered proxies (arrival E feeds)) eqn:Hx; [|simpl in Hl; lia].
      by apply Permutation_nil_l in Ha.
    + intros data ?. simplify_eq. split; [done|]. intros Hx. rewrite Hx in Hl. done.
  - split_and!; try done. split; [|done]. intros _. rewrite <- Hp. apply Exists_exists.
    apply mapM_None_1 in Hm. by apply Exists_exists.
Qed.

(** After a job that fetched data and found room in the dump channel, the
    table again holds exactly the newest data of everything written, the job's
    data included, and the same data is queued for the database. *)
Theorem fetcher_job_updates proxies feeds m l ch data :
  holds m l -> fetch proxies feeds = Some (Ok data) ->
  (length ch + length data <= DefaultFeedDataDumpChannelSize)%nat ->
  exists m', fetcherJob proxies feeds m ch = Returned m' (ch ++ data) None /\ holds m' (l ++ data).
Proof.
  intros Hm Hf Hroom. unfold fetcherJob. rewrite Hf. simpl.
  assert (Forall timed data /\ data <> []) as [Ht Hne].
  { unfold fetch in Hf. destruct (mapM _ _) as [outs|] eqn:Hmap; [|done]. simpl in Hf.
    apply gather_data in Hmap. destruct (gather outs) as [d errs]. simpl in *. subst d.
    destruct (length _ <? 1)%nat eqn:Hl; [done|]. simplify_eq. split.
    - apply Forall_forall. intros d (feed & _ & Hd)%list_elem_of_omap. unfold fetch_feed in Hd.
      destruct (f_Definition feed) as [[def|]|]; [|done..]. destruct (Type_ def); [done|].
      destruct (cex def proxies) as [[v|]|]; simpl in Hd; simplify_eq. by eexists.
    - intros Hx. by rewrite Hx in Hl. }
  rewrite (proj2 (Nat.eqb_neq _ _)) by (by destruct data).
  destruct (SetLatestFeedData_holds (Some <$> data) m l Hm) as (m' & Hs & Hh).
  { clear Hne Hf Hroom. induction Ht; simpl; by constructor. }
  rewrite Hs. exists m'. rewrite (proj2 (Nat.leb_le _ _)) by lia. split; [done|].
  replace (omap id (Some <$> data)) with data in Hh; [done|]. clear.
  induction data as [|d data IH]; [done|]. cbn [fmap list_fmap omap list_omap id]. by rewrite <- IH.
Qed.
End fetcher.

(** ** The bulk writer of feed data *)

(** The rows of [copyFeedData], in the order of its columns. *)
Definition copyFeedData (feedData : list FeedData) : list (Z * float64 * option Time * float64) :=
  (fun data => (FeedID data, Value data, Timestamp data, Volume data)) <$> feedData.

(** One tick: [pick_done] says that the first [select] takes a cancelled
    context.  The rows handed to the database and what is left in the channel. *)
Definition Job (pick_done : bool) (ch : list FeedData) : list (Z * float64 * option Time * float64) * list FeedData :=
  if pick_done then ([], ch) else (copyFeedData ch, []).

(** Witnesses: two feeds, of which the second has no answer. *)
Definition w_def (url : string) : Definition_ := mkDefinition (Some url) ∅ [mkReducer "ROUND" JNull] None None.
Definition w_feeds : list Feed :=
  [mkFeed 1 "a" (Ok (Some (w_def "http://a"))) 9; mkFeed 2 "b" (Ok (Some (w_def "http://b"))) 9].
Definition w_fetch : FetchEnv :=
  mkFetchEnv (fun url _ _ => if bool_decide (url = "http://a") then Ok (JStr "41.6") else Err DeadlineExceeded)
    (fun _ => 0%nat) (fun _ => 77) (fun l => reverse l).

Lemma fetch_exact_witness :
  fetch w_fetch [] w_feeds = Some (Ok [mkFeedData 1 (of_int 42) fzero (Some 77)]) /\
  [mkFeedData 1 (of_int 42) fzero (Some 77)] ≡ₚ answered w_fetch [] w_feeds.
Proof.
  assert (fetch w_fetch [] w_feeds = Some (Ok [mkFeedData 1 (of_int 42) fzero (Some 77)])) as Hf
    by (vm_compute; reflexivity).
  split; [done|]. destruct (fetch_exact w_fetch [] w_feeds) as (_ & H & _); [apply reverse_Permutation|].
  by apply H.
Defined.

Lemma fetcher_job_updates_witness : exists m',
  fetcherJob w_fetch [] w_feeds ∅ [] = Returned m' [mkFeedData 1 (of_int 42) fzero (Some 77)] None /\
  holds m' [mkFeedData 1 (of_int 42) fzero (Some 77)].
Proof.
  apply (fetcher_job_updates w_fetch [] w_feeds ∅ [] []).
  - apply holds_empty.
  - vm_compute. reflexivity.
  - apply Nat.leb_le. vm_compute. reflexivity.
Defined.
End Fetcher.
