(* ===== verification/Reporter.v ===== *)
(** * Reporter: submitting feeds to the chain

    [node/pkg/reporter]: what is submitted and in which batches
    ([reporter.go]), how data of the DAL is read ([utils.go]), and how configs
    are grouped ([app.go]). *)

From S2P Require Import Prelude Errors Wire Text Float Signing Aggregator Collector.
Import Text Float.

Local Open Scope Z_scope.

Module Reporter.

(** ** Data *)
Definition MAX_REPORT_BATCH_SIZE : nat := 50.
Definition DEVIATION_INTERVAL : Z := 2000.
Definition DECIMALS : Z := 8.
Definition DEVIATION_ABSOLUTE_THRESHOLD : float64 := const 1 10.
Definition MAX_DEVIATION_THRESHOLD : float64 := const 1 100.
Definition MIN_DEVIATION_THRESHOLD : float64 := const 5 100.
Definition MIN_INTERVAL : Z := 15.
Definition MAX_INTERVAL : Z := 3600.
Definition ErrorsChanSize : nat := 5.

Record Config : Type := mkRConfig { rc_Name : string; rc_SubmitInterval : option Z }.

Inductive JobType : Type := ReportJob | DeviationJob.

Record RawSubmissionData : Type := mkRaw {
  raw_Symbol : string; raw_Value : string; raw_AggregateTime : string;
  raw_Proof : string; raw_FeedHash : string
}.
Record SubmissionData : Type := mkSubmission {
  s_Symbol : string; s_Value : int64; s_AggregateTime : int64;
  s_Proof : list Z; s_FeedHash : list Z
}.

(** The maps [LatestDataMap] and [LatestSubmittedDataMap] are shared by all
    reporters.  The key of the first is the raw [symbol] of a message, absent
    when the message has none. *)
#[projections(primitive)]
Record Reporter : Type := mkReporter {
  Pairs : list string;
  SubmissionInterval : Duration;
  deviationThreshold : float64;
  Job : JobType;
  LatestDataMap : gmap (option string) SubmissionData;
  LatestSubmittedDataMap : gmap string int64
}.
Definition set_LatestSubmittedDataMap v (r : Reporter) : Reporter :=
  mkReporter (Pairs r) (SubmissionInterval r) (deviationThreshold r) (Job r) (LatestDataMap r) v.
Definition set_LatestDataMap v (r : Reporter) : Reporter :=
  mkReporter (Pairs r) (SubmissionInterval r) (deviationThreshold r) (Job r) v (LatestSubmittedDataMap r).

(** ** Deviation *)

(** [d.Seconds()]. *)
Definition Seconds (d : Duration) : float64 :=
  fadd (of_int (Z.quot d second)) (fdiv (of_int (Z.rem d second)) (of_int 1000000000)).

Definition GetDeviationThreshold (submissionInterval : Duration) : float64 :=
  if submissionInterval <=? 15 * second then MIN_DEVIATION_THRESHOLD
  else if 60 * second <=? submissionInterval then MAX_DEVIATION_THRESHOLD
  else
    let submissionIntervalSec := Seconds submissionInterval in
    fsub MIN_DEVIATION_THRESHOLD
      (fmul (fdiv (fsub submissionIntervalSec (of_int MIN_INTERVAL)) (of_int (MAX_INTERVAL - MIN_INTERVAL)))
            (const 4 100)).

Definition ShouldReportDeviation (oldValue newValue : int64) (threshold : float64) : bool :=
  let denominator := of_int 100000000 in
  let oldValueInFLoat := fdiv (of_int oldValue) denominator in
  let newValueInFLoat := fdiv (of_int newValue) denominator in
  if negb (oldValue =? 0) && negb (newValue =? 0) then
    let deviationRange := fmul oldValueInFLoat threshold in
    let minimum := fsub oldValueInFLoat deviationRange in
    let maximum := fadd oldValueInFLoat deviationRange in
    fltb newValueInFLoat minimum || fltb maximum newValueInFLoat
  else if (oldValue =? 0) && negb (newValue =? 0) then
    fltb DEVIATION_ABSOLUTE_THRESHOLD newValueInFLoat
  else false.

Definition GetLatestData (latestDataMap : gmap (option string) SubmissionData) (name : string)
    : option SubmissionData := latestDataMap !! Some name.

Definition GetDeviatingAggregates (latestSubmittedData : gmap string int64)
    (latestData : gmap (option string) SubmissionData) (threshold : float64)
    : gmap string SubmissionData :=
  map_imap (fun pair oldValue =>
    newValue ← GetLatestData latestData pair;
    if ShouldReportDeviation oldValue (s_Value newValue) threshold then Some newValue else None)
    latestSubmittedData.

(** ** Reading the DAL's data *)
Section raw.
(** [klaytncommon.Hex2Bytes], third-party code. *)
Context (Hex2Bytes : string -> list Z).

(** [copy] into a fresh [[32]byte]. *)
Definition to32 (b : list Z) : list Z := take 32 (b ++ replicate 32 0).

Definition RawSubmissionData2SubmissionData (raw : RawSubmissionData) : res SubmissionData :=
  if bool_decide (raw_FeedHash raw = "") || bool_decide (raw_Proof raw = "")
     || bool_decide (raw_Value raw = "") || bool_decide (raw_AggregateTime raw = "")
  then Err ErrReporterDalWsDataProcessingFailed else
  let feedHashBytes := Hex2Bytes (TrimPrefix (raw_FeedHash raw) "0x") in
  let feedHash := to32 feedHashBytes in
  let proof := Hex2Bytes (TrimPrefix (raw_Proof raw) "0x") in
  match ParseInt 64 (raw_Value raw) with
  | None => Err ErrReporterDalWsDataProcessingFailed
  | Some value =>
      match ParseInt 64 (raw_AggregateTime raw) with
      | None => Err ErrReporterDalWsDataProcessingFailed
      | Some timestampValue =>
          Ok (mkSubmission (raw_Symbol raw) value timestampValue proof feedHash)
      end
  end.

(** A message of the DAL's websocket: an object with these fields. *)
Record DalMessage : Type := mkDalMessage {
  d_symbol : jfield string; d_value : jfield string; d_aggregateTime : jfield string;
  d_proof : jfield string; d_feedHash : jfield string
}.

Definition ProcessDalWsRawData (data : DalMessage) : res SubmissionData :=
  match (s ← jget "" (d_symbol data); v ← jget "" (d_value data);
         t ← jget "" (d_aggregateTime data); p ← jget "" (d_proof data);
         h ← jget "" (d_feedHash data); Some (mkRaw s v t p h)) with
  | None => Err ErrReporterDalWsDataProcessingFailed
  | Some raw => RawSubmissionData2SubmissionData raw
  end.

Definition HandleWsMessage (data : DalMessage) (r : Reporter) : Reporter * option error :=
  match ProcessDalWsRawData data with
  | Err err => (r, Some err)
  | Ok submissionData =>
      let key := match d_symbol data with JVal s => Some s | _ => None end in
      (set_LatestDataMap (<[key := submissionData]> (LatestDataMap r)) r, None)
  end.

(** The loop of [GetLatestDataRest] over the response. *)
Fixpoint rest_loop (resp : list RawSubmissionData) (result : gmap string SubmissionData)
    : res (gmap string SubmissionData) :=
  match resp with
  | [] => Ok result
  | entry :: resp =>
      match RawSubmissionData2SubmissionData entry with
      | Err err => Err err
      | Ok submissionData => rest_loop resp (<[raw_Symbol entry := submissionData]> result)
      end
  end.
Definition GetLatestDataRest (resp : res (list RawSubmissionData)) : res (gmap string SubmissionData) :=
  match resp with Err err => Err err | Ok resp => rest_loop resp ∅ end.
End raw.

(** ** Reporting *)

(** One call of [SubmitDelegatedFallbackDirect]: the four arrays of a batch. *)
Record Batch : Type := mkBatch {
  b_feedHashes : list (list Z); b_values : list Z; b_timestamps : list Z; b_proofs : list (list Z)
}.

(** [for start := 0; start < dataLen; start += MAX_REPORT_BATCH_SIZE]. *)
Fixpoint batch_loop (fuel start : nat) (all : Batch) : list Batch :=
  match fuel with
  | O => []
  | S fuel =>
      let dataLen := length (b_feedHashes all) in
      if (start <? dataLen)%nat then
        let end_ := Nat.min (start + MAX_REPORT_BATCH_SIZE) dataLen in
        let cut {A} (l : list A) := take (end_ - start) (drop start l) in
        mkBatch (cut (b_feedHashes all)) (cut (b_values all)) (cut (b_timestamps all)) (cut (b_proofs all))
          :: batch_loop fuel (start + MAX_REPORT_BATCH_SIZE) all
      else []
  end.

(** The arrays, in the order of one iteration over the map of pairs. *)
Definition arrays (pairs : list (string * SubmissionData)) : Batch :=
  mkBatch ((fun p => s_FeedHash p.2) <$> pairs) ((fun p => s_Value p.2) <$> pairs)
    ((fun p => s_AggregateTime p.2) <$> pairs) ((fun p => s_Proof p.2) <$> pairs).
Definition batches (pairs : list (string * SubmissionData)) : list Batch :=
  batch_loop (S (length pairs)) 0 (arrays pairs).

Definition IsNonceError (err : error) : bool :=
  bool_decide (Error err = "nonce too low")
  || bool_decide (Error err = "there is another tx which has the same nonce in the tx pool").

Definition mergeErrors (errs : list error) : option error :=
  match errs with
  | [] => None
  | [err] => Some err
  | _ => Some (External (foldl (fun errMsg err => errMsg +:+ Error err +:+ "; ") "" errs))
  end.

(** The environment of a report: what the submission of each batch answers, in
    which order the goroutines run (0 is the caller, [S i] the goroutine of the
    batch [i]), and what [FlushNoncePool] answers. *)
Record REnv : Type := mkREnv {
  submit : nat -> Batch -> option error;
  schedule : list nat;
  flush : option error
}.

(** The goroutine of a batch: it submits, sends an error to [errorsChan], and ends
    with the deferred [wg.Done()]. *)
Inductive Phase : Type := Submitting | Sending (err : error) | Finishing | Ended.
Record Routine : Type := mkRoutine { batch : Batch; phase : Phase }.
(** The caller: it starts the goroutines, waits for them, closes the channel and
    reads what is left in it. *)
Inductive Main : Type :=
| Starting (rest : list Batch)
| Waiting
| Ranging (tmp : list error)
| Ranged (tmp : list error).
Record Run : Type := mkRun { main : Main; routines : list Routine; wg : nat; errorsChan : list error }.

Definition start_run (pairs : list (string * SubmissionData)) : Run := mkRun (Starting (batches pairs)) [] 0 [].

(** One step of a goroutine; [None]: it is blocked, or has ended. *)
Definition main_step (s : Run) : option Run :=
  match main s with
  | Starting (b :: rest) => Some (mkRun (Starting rest) (routines s ++ [mkRoutine b Submitting]) (S (wg s)) (errorsChan s))
  | Starting [] => Some (mkRun Waiting (routines s) (wg s) (errorsChan s))
  | Waiting => if (wg s =? 0)%nat then Some (mkRun (Ranging []) (routines s) (wg s) (errorsChan s)) else None
  | Ranging tmp =>
      match errorsChan s with
      | err :: l => Some (mkRun (Ranging (tmp ++ [err])) (routines s) (wg s) l)
      | [] => Some (mkRun (Ranged tmp) (routines s) (wg s) [])
      end
  | Ranged _ => None
  end.
Definition routine_step (E : REnv) (i : nat) (s : Run) : option Run :=
  w ← routines s !! i;
  let goto p := <[i := mkRoutine (batch w) p]> (routines s) in
  match phase w with
  | Submitting =>
      let p := match submit E i (batch w) with Some err => Sending err | None => Finishing end in
      Some (mkRun (main s) (goto p) (wg s) (errorsChan s))
  | Sending err =>
      if (length (errorsChan s) <? ErrorsChanSize)%nat
      then Some (mkRun (main s) (goto Finishing) (wg s) (errorsChan s ++ [err])) else None
  | Finishing => Some (mkRun (main s) (goto Ended) (wg s - 1) (errorsChan s))
  | Ended => None
  end.
Definition run_step (E : REnv) (who : nat) (s : Run) : option Run :=
  match who with O => main_step s | S i => routine_step E i s end.
Definition steps (E : REnv) (s s' : Run) : Prop := exists who, run_step E who s = Some s'.
(** A goroutine that is blocked is not run. *)
Definition run_schedule (E : REnv) (sched : list nat) (s : Run) : Run :=
  foldl (fun s who => default s (run_step E who s)) s sched.

(** What follows the loop over the channel. *)
Definition conclude (E : REnv) (pairs : list (string * SubmissionData)) (r : Reporter) (tmp : list error)
    : Reporter * option error :=
  let shouldRefreshNonce := existsb (fun err => IsNonceError err || errors_Is err DeadlineExceeded) tmp in
  let r := set_LatestSubmittedDataMap
    (foldl (fun m p => <[p.1 := s_Value p.2]> m) (LatestSubmittedDataMap r) pairs) r in
  if shouldRefreshNonce then (r, flush E)
  else if (0 <? length tmp)%nat then (r, mergeErrors tmp)
  else (r, None).

(** [None]: the caller has not returned when the schedule ends. *)
Definition report (E : REnv) (pairs : list (string * SubmissionData)) (r : Reporter)
    : option (Reporter * option error) :=
  match main (run_schedule E (schedule E) (start_run pairs)) with
  | Ranged tmp => Some (conclude E pairs r tmp)
  | _ => None
  end.

(** [order] is the order of one iteration over the map. *)
Definition deviationJob (E : REnv) (order : gmap string SubmissionData -> list (string * SubmissionData))
    (r : Reporter) : option (Reporter * option error) :=
  let deviatingAggregates :=
    GetDeviatingAggregates (LatestSubmittedDataMap r) (LatestDataMap r) (deviationThreshold r) in
  if (size deviatingAggregates =? 0)%nat then Some (r, None)
  else report E (order deviatingAggregates) r.

Definition regularReporterJob Hex2Bytes (E : REnv)
    (order : gmap string SubmissionData -> list (string * SubmissionData))
    (resp : res (list RawSubmissionData)) (r : Reporter) : option (Reporter * option error) :=
  match GetLatestDataRest Hex2Bytes resp with
  | Err err => Some (r, Some err)
  | Ok pairsMap => report E (order pairsMap) r
  end.

(** ** Configs *)
Definition NewReporter (configs : list Config) (interval : Z) (job : JobType)
    (latestData : gmap (option string) SubmissionData) (latestSubmitted : gmap string int64)
    : res Reporter :=
  if (length configs =? 0)%nat then Err ErrReporterEmptyConfigs else
  let groupInterval := wrap64 (interval * millisecond) in
  Ok (mkReporter (rc_Name <$> configs) groupInterval (GetDeviationThreshold groupInterval) job
        latestData latestSubmitted).

Definition interval_of (sa : Config) : Z :=
  match rc_SubmitInterval sa with
  | Some i => if 0 <? i then i else 5000
  | None => 5000
  end.
Definition groupConfigsBySubmitIntervals (reporterConfigs : list Config) : gmap Z (list Config) :=
  foldl (fun grouped sa =>
    let interval := interval_of sa in
    <[interval := default [] (grouped !! interval) ++ [sa]]> grouped) ∅ reporterConfigs.

(** ** Batches *)

(** Reference: a list cut into pieces of the batch size. *)
Fixpoint pieces {A} (fuel : nat) (l : list A) : list (list A) :=
  match fuel with
  | O => []
  | S fuel =>
      match l with
      | [] => []
      | _ => take MAX_REPORT_BATCH_SIZE l :: pieces fuel (drop MAX_REPORT_BATCH_SIZE l)
      end
  end.

Lemma pieces_spec {A} fuel : forall l : list A,
  (length l <= fuel)%nat ->
  concat (pieces fuel l) = l /\
  Forall (fun p => (1 <= length p <= MAX_REPORT_BATCH_SIZE)%nat) (pieces fuel l) /\
  (length l <= MAX_REPORT_BATCH_SIZE * length (pieces fuel l) < length l + MAX_REPORT_BATCH_SIZE)%nat.
Proof.
  unfold MAX_REPORT_BATCH_SIZE. induction fuel as [|fuel IH]; intros l Hl.
  - destruct l; [|simpl in Hl; lia]. split_and!; [done|constructor|simpl; lia..].
  - destruct (decide (l = [])) as [->|Hne]; [simpl; split_and!; [done|constructor|lia..]|].
    assert (pieces (S fuel) l = take 50 l :: pieces fuel (drop 50 l)) as -> by by destruct l.
    assert (1 <= length l)%nat by (destruct l; simpl; [done|lia]).
    destruct (IH (drop 50 l)) as (Hc & Hall & Hn); [rewrite length_drop; lia|].
    cbn [concat length]. rewrite Hc, take_drop. rewrite length_drop in Hn. split_and!; [done| |lia|].
    + constructor; [rewrite length_take; lia|done].
    + destruct (decide (length l <= 50)%nat) as [Hle|]; [|lia].
      assert (drop 50 l = []) as -> by (by apply drop_ge). destruct fuel; simpl; lia.
Qed.

Lemma arrays_cut pairs a b :
  mkBatch (take b (drop a (b_feedHashes (arrays pairs)))) (take b (drop a (b_values (arrays pairs))))
    (take b (drop a (b_timestamps (arrays pairs)))) (take b (drop a (b_proofs (arrays pairs))))
  = arrays (take b (drop a pairs)).
Proof. unfold arrays. simpl. by rewrite <- !fmap_drop, <- !fmap_take. Qed.

Lemma batch_loop_pieces fuel : forall start pairs,
  batch_loop fuel start (arrays pairs) = arrays <$> pieces fuel (drop start pairs).
Proof.
  induction fuel as [|fuel IH]; intros start pairs; [done|]. cbn [batch_loop].
  rewrite arrays_cut, IH.
  assert (length (b_feedHashes (arrays pairs)) = length pairs) as -> by (simpl; by rewrite length_fmap).
  destruct (start <? length pairs)%nat eqn:Hlt.
  - apply Nat.ltb_lt in Hlt.
    assert (pieces (S fuel) (drop start pairs) = take 50 (drop start pairs) :: pieces fuel (drop 50 (drop start pairs))) as ->.
    { destruct (drop start pairs) eqn:Hd; [|done]. apply (f_equal length) in Hd.
      rewrite length_drop in Hd. simpl in Hd. lia. }
    rewrite fmap_cons, drop_drop. unfold MAX_REPORT_BATCH_SIZE. f_equal. f_equal.
    destruct (decide (start + 50 <= length pairs)%nat).
    + rewrite Nat.min_l by lia. f_equal. lia.
    + rewrite Nat.min_r by lia. rewrite !take_ge; [done|rewrite length_drop; lia..].
  - apply Nat.ltb_ge in Hlt. by rewrite drop_ge by lia.
Qed.

Lemma batches_pieces pairs : batches pairs = arrays <$> pieces (S (length pairs)) pairs.
Proof. unfold batches. by rewrite batch_loop_pieces, drop_0. Qed.


Lemma length_batches pairs :
  (length pairs <= MAX_REPORT_BATCH_SIZE * length (batches pairs) < length pairs + MAX_REPORT_BATCH_SIZE)%nat.
Proof. rewrite batches_pieces, length_fmap. apply pieces_spec. lia. Qed.

(** *** The goroutines of a report *)
(** The errors of batches, the first of which has index [i]. *)
Fixpoint failures (E : REnv) (i : nat) (l : list Batch) : list error :=
  match l with [] => [] | b :: l => option_list (submit E i b) ++ failures E (S i) l end.
(** The errors that goroutines have sent. *)
Fixpoint sent (E : REnv) (i : nat) (l : list Routine) : list error :=
  match l with
  | [] => []
  | w :: l => match phase w with Finishing | Ended => option_list (submit E i (batch w)) | _ => [] end ++ sent E (S i) l
  end.
Definition ended (w : Routine) : bool := match phase w with Ended => true | _ => false end.
Definition active (l : list Routine) : nat := length (filter (fun w => ended w = false) l).

Definition rest (m : Main) : list Batch := match m with Starting l => l | _ => [] end.
Definition read (m : Main) : list error := match m with Ranging tmp | Ranged tmp => tmp | _ => [] end.
Definition waited (m : Main) : bool := match m with Ranging _ | Ranged _ => true | _ => false end.

Lemma sent_app E i l1 l2 : sent E i (l1 ++ l2) = sent E i l1 ++ sent E (i + length l1) l2.
Proof.
  revert i. induction l1 as [|w l1 IH]; intros i; simpl; [by rewrite Nat.add_0_r|]. rewrite IH, app_assoc. do 2 f_equal. lia.
Qed.
Lemma failures_app E i l1 l2 : failures E i (l1 ++ l2) = failures E i l1 ++ failures E (i + length l1) l2.
Proof.
  revert i. induction l1 as [|w l1 IH]; intros i; simpl; [by rewrite Nat.add_0_r|]. rewrite IH, app_assoc. do 2 f_equal. lia.
Qed.
Lemma sent_le E i l : (length (sent E i l) <= length (failures E i (batch <$> l)))%nat.
Proof.
  revert i. induction l as [|w l IH]; intros i; [done|]. rewrite fmap_cons. cbn [sent failures]. rewrite !length_app. specialize (IH (S i)).
  destruct (phase w); simpl; lia.
Qed.
Lemma sent_all E i l : active l = 0%nat -> sent E i l = failures E i (batch <$> l).
Proof.
  revert i. induction l as [|w l IH]; intros i Ha; [done|]. rewrite fmap_cons. cbn [sent failures]. unfold active in *. rewrite filter_cons in Ha.
  case_decide as Hw; [done|]. unfold ended in Hw. destruct (phase w); try done. by rewrite IH.
Qed.
Lemma active_app l1 l2 : active (l1 ++ l2) = (active l1 + active l2)%nat.
Proof. unfold active. by rewrite filter_app, length_app. Qed.
Lemma active_cons w l : active (w :: l) = ((if ended w then 0 else 1) + active l)%nat.
Proof. unfold active. rewrite filter_cons. case_decide as Hw; destruct (ended w); try done; by destruct Hw. Qed.
Lemma active_pos l : active l <> 0%nat -> exists i w, l !! i = Some w /\ ended w = false.
Proof.
  intros Ha. destruct (filter (fun w => ended w = false) l) as [|w l'] eqn:Hf; [by unfold active in Ha; rewrite Hf in Ha|].
  assert (w ∈ filter (fun w => ended w = false) l) as [Hw Hin]%list_elem_of_filter by (rewrite Hf; by left).
  apply list_elem_of_lookup in Hin as [i Hi]. by exists i, w.
Qed.

(** A state in the middle of a list of goroutines. *)
Lemma routine_split (l : list Routine) i w p : l !! i = Some w ->
  exists l1 l2, l = l1 ++ w :: l2 /\ <[i := mkRoutine (batch w) p]> l = l1 ++ mkRoutine (batch w) p :: l2 /\ length l1 = i.
Proof.
  intros Hi. apply list_elem_of_split_length in Hi as (l1 & l2 & -> & ->). exists l1, l2. split_and!; [done| |done].
  by rewrite insert_app_r_alt, Nat.sub_diag by lia.
Qed.

Record run_inv (E : REnv) (all : list Batch) (s : Run) : Prop := mkRunInv {
  ri_all : (batch <$> routines s) ++ rest (main s) = all;
  ri_sending : forall i w err, routines s !! i = Some w -> phase w = Sending err -> submit E i (batch w) = Some err;
  ri_wg : wg s = active (routines s);
  ri_sent : read (main s) ++ errorsChan s ≡ₚ sent E 0 (routines s);
  ri_cap : (length (read (main s) ++ errorsChan s) <= ErrorsChanSize)%nat;
  ri_waited : waited (main s) = true -> wg s = 0%nat;
  ri_ranged : forall tmp, main s = Ranged tmp -> errorsChan s = [] }.

Lemma run_inv_start E pairs : run_inv E (batches pairs) (start_run pairs).
Proof. split; simpl; try done. unfold ErrorsChanSize. lia. Qed.

Lemma run_inv_main E all s s' : run_inv E all s -> main_step s = Some s' -> run_inv E all s'.
Proof.
  intros [Ha Hsg Hw Hs Hc Hz Hr]. unfold main_step. destruct (main s) as [[|b l]| |tmp|tmp] eqn:Hm; simpl in *.
  - intros [= <-]. by split.
  - intros [= <-]. split; simpl; try done.
    + rewrite fmap_app, <- app_assoc. exact Ha.
    + intros i w err. rewrite lookup_snoc_Some. intros [[_ Hi]|[_ <-]]; [by eapply Hsg|done].
    + rewrite Hw, active_app, active_cons. simpl. unfold active. simpl. lia.
    + rewrite sent_app. simpl. by rewrite app_nil_r.
  - destruct (Nat.eqb_spec (wg s) 0); [|done]. intros [= <-]. by split.
  - destruct (errorsChan s) as [|err l] eqn:Hch; intros [= <-]; split; simpl; try done; by rewrite <- app_assoc.
  - done.
Qed.

(** The goroutine [i] goes from [w] to the phase [p], and sends [out]. *)
Lemma run_inv_goto E all s i w p (out : list error) (d : nat) :
  run_inv E all s -> routines s !! i = Some w -> phase w <> Ended ->
  (forall err, p = Sending err -> submit E i (batch w) = Some err) ->
  (match p with Finishing | Ended => option_list (submit E i (batch w)) | _ => [] end =
   match phase w with Finishing | Ended => option_list (submit E i (batch w)) | _ => [] end ++ out) ->
  (length (errorsChan s ++ out) <= ErrorsChanSize)%nat ->
  d = (if ended (mkRoutine (batch w) p) then 1 else 0)%nat ->
  run_inv E all (mkRun (main s) (<[i := mkRoutine (batch w) p]> (routines s)) (wg s - d) (errorsChan s ++ out)).
Proof.
  intros [Ha Hsg Hw Hs Hc Hz Hr] Hi Hne Hp Hout Hlen ->.
  destruct (routine_split _ _ _ p Hi) as (l1 & l2 & Hl & Hl' & Hli).
  assert (ended w = false) as He by (unfold ended; by destruct (phase w)).
  assert (wg s <> 0%nat) as Hpos by (rewrite Hw, Hl, active_app, active_cons, He; lia).
  assert (waited (main s) = false) as Hnw by (destruct (waited (main s)); [by destruct (Hpos (Hz eq_refl))|done]).
  assert (read (main s) = []) as Hrd by (by destruct (main s)). rewrite Hrd in Hs, Hc. simpl in Hs, Hc.
  split; simpl; rewrite ?Hrd, ?Hnw; simpl; try done.
  - rewrite Hl', fmap_app. rewrite Hl, fmap_app in Ha. exact Ha.
  - intros j w' err Hj Hph. destruct (decide (i = j)) as [<-|Hij].
    + rewrite list_lookup_insert_eq in Hj by (by eapply lookup_lt_Some). injection Hj as <-. by apply Hp.
    + rewrite list_lookup_insert_ne in Hj by done. by eapply Hsg.
  - rewrite Hl', Hw, Hl, !active_app, !active_cons, He. destruct p; simpl; lia.
  - rewrite Hl', sent_app, Hs, Hl, sent_app. simpl. rewrite Hli, Hout, <- !app_assoc. do 2 f_equiv. apply Permutation_app_comm.
  - intros tmp Hm. by rewrite Hm in Hnw.
Qed.

Lemma run_inv_step E all s s' : run_inv E all s -> steps E s s' -> run_inv E all s'.
Proof.
  intros Hinv [[|i] Hst]; [by eapply run_inv_main|]. simpl in Hst. unfold routine_step in Hst.
  destruct (routines s !! i) as [w|] eqn:Hi; [|done]. cbn [mbind option_bind] in Hst. pose proof (ri_cap _ _ _ Hinv) as Hc.
  rewrite length_app in Hc.
  destruct (phase w) as [|err| |] eqn:Hph; [| | |done].
  - injection Hst as <-.
    pose proof (run_inv_goto E all s i w (match submit E i (batch w) with Some err => Sending err | None => Finishing end) [] 0 Hinv Hi) as H.
    rewrite !app_nil_r, Nat.sub_0_r in H. apply H.
    + by rewrite Hph.
    + by destruct (submit E i (batch w)); intros err [= ->].
    + rewrite Hph. by destruct (submit E i (batch w)).
    + lia.
    + by destruct (submit E i (batch w)).
  - destruct (Nat.ltb_spec (length (errorsChan s)) ErrorsChanSize) as [Hlt|]; [|done]. injection Hst as <-.
    pose proof (run_inv_goto E all s i w Finishing [err] 0 Hinv Hi) as H. rewrite Nat.sub_0_r in H. apply H; try (by rewrite Hph); try done.
    + rewrite Hph, (ri_sending _ _ _ Hinv i w err Hi Hph). done.
    + rewrite length_app. simpl. lia.
  - injection Hst as <-.
    pose proof (run_inv_goto E all s i w Ended [] 1 Hinv Hi) as H. rewrite !app_nil_r in H. apply H; [by rewrite Hph|done|by rewrite Hph|lia|done].
Qed.
Lemma run_inv_reach E pairs s : rtc (steps E) (start_run pairs) s -> run_inv E (batches pairs) s.
Proof.
  intros H. assert (run_inv E (batches pairs) (start_run pairs)) as H0 by apply run_inv_start. revert H0.
  induction H as [|s0 s1 s2 Hst _ IH]; [done|]. intros H0. by apply IH, (run_inv_step E _ s0).
Qed.

(** What the caller has read when it is done. *)
Lemma ranged_failures E all s tmp : run_inv E all s -> main s = Ranged tmp ->
  tmp ≡ₚ failures E 0 all /\ (length (failures E 0 all) <= ErrorsChanSize)%nat.
Proof.
  intros [Ha Hsg Hw Hs Hc Hz Hr] Hm. rewrite Hm in *. rewrite (Hr tmp eq_refl) in *. simpl in *. rewrite ?app_nil_r in *.
  assert (active (routines s) = 0%nat) as H0 by (rewrite <- Hw; by apply Hz).
  rewrite (sent_all E 0 _ H0), Ha in Hs. split; [done|]. by rewrite <- Hs.
Qed.

(** Who can run: somebody, until the caller is done, or waits while a goroutine is
    blocked on a full channel. *)
Lemma run_or_stuck E all s : run_inv E all s ->
  (exists s', steps E s s') \/ (exists tmp, main s = Ranged tmp) \/
  (main s = Waiting /\ length (errorsChan s) = ErrorsChanSize /\ exists i w err, routines s !! i = Some w /\ phase w = Sending err).
Proof.
  intros [Ha Hsg Hw Hs Hc Hz Hr].
  assert (forall s', run_step E 0 s = Some s' -> exists s', steps E s s') as H0 by (intros s' H; by exists s', 0%nat).
  unfold run_step, main_step in H0. destruct (main s) as [[|b l]| |tmp|tmp] eqn:Hm.
  1,2: left; by eapply H0.
  - destruct (Nat.eqb_spec (wg s) 0) as [Hz0|Hz0]; [left; by eapply H0|].
    rewrite Hw in Hz0. apply active_pos in Hz0 as (i & w & Hi & He).
    assert (forall s', routine_step E i s = Some s' -> exists s', steps E s s') as H1 by (intros s' H; by exists s', (S i)).
    unfold routine_step in H1. rewrite Hi in H1. cbn [mbind option_bind] in H1. unfold ended in He.
    destruct (phase w) as [|err| |] eqn:Hph; try done; try (left; by eapply H1).
    destruct (Nat.ltb_spec (length (errorsChan s)) ErrorsChanSize); [left; by eapply H1|]. right. right.
    simpl in Hc. split_and!; [done|lia|by exists i, w, err].
  - left. destruct (errorsChan s); by eapply H0.
  - right. left. by eexists.
Qed.

(** With room for all errors nobody is blocked. *)
Lemma run_progress E all s : run_inv E all s -> (length (failures E 0 all) <= ErrorsChanSize)%nat ->
  (exists s', steps E s s') \/ exists tmp, main s = Ranged tmp.
Proof.
  intros Hinv Hn. destruct (run_or_stuck E all s Hinv) as [?|[?|(Hm & Hfull & i & w & err & Hi & Hph)]]; [by left|by right|exfalso].
  destruct Hinv as [Ha Hsg Hw Hs Hc Hz Hr]. rewrite Hm in *. simpl in Hs, Ha. rewrite app_nil_r in Ha.
  rewrite (Permutation_length Hs) in Hfull. destruct (routine_split _ _ _ Ended Hi) as (l1 & l2 & Hl & _ & Hli).
  rewrite <- Ha, Hl, fmap_app, failures_app, length_fmap, Hli in Hn. rewrite Hl, sent_app, Hli in Hfull.
  rewrite fmap_cons in Hn. cbn [failures sent Nat.add] in *. rewrite Hph in Hfull. rewrite (Hsg i w err Hi Hph), !length_app in Hn.
  rewrite length_app in Hfull. simpl in *. pose proof (sent_le E 0 l1). pose proof (sent_le E (S i) l2). simpl in *. lia.
Qed.

(** Runs are finite. *)
Definition phase_weight (w : Routine) : nat := match phase w with Submitting => 4 | Sending _ => 3 | Finishing => 1 | Ended => 0 end.
Definition weight (s : Run) : nat :=
  match main s with Starting l => 5 * length l + 3 | Waiting => 2 | Ranging _ => 1 | Ranged _ => 0 end
  + sum_list_with phase_weight (routines s) + length (errorsChan s).

Lemma weight_step E s s' : steps E s s' -> (weight s' < weight s)%nat.
Proof.
  intros [[|i] Hst]; simpl in Hst; unfold weight.
  - unfold main_step in Hst. destruct (main s) as [[|b l]| |tmp|tmp]; repeat case_match; simplify_eq/=;
      rewrite ?sum_list_with_app; simpl; lia.
  - unfold routine_step in Hst. destruct (routines s !! i) as [w|] eqn:Hi; [|done]. cbn [mbind option_bind] in Hst.
    assert (forall p, (sum_list_with phase_weight (<[i := mkRoutine (batch w) p]> (routines s)) + phase_weight w =
      sum_list_with phase_weight (routines s) + phase_weight (mkRoutine (batch w) p))%nat) as Hsum.
    { intros p. destruct (routine_split _ _ _ p Hi) as (l1 & l2 & Hl & Hl' & _). rewrite Hl', Hl, !sum_list_with_app. simpl. lia. }
    unfold phase_weight in Hsum at 2 4. destruct (phase w); simplify_eq/=; repeat case_match; simplify_eq/=.
    all: match goal with |- context [mkRoutine _ ?p] => specialize (Hsum p) end; simpl in *; rewrite ?length_app; simpl; lia.
Qed.
Lemma weight_nsteps E k s s' : nsteps (steps E) k s s' -> (k + weight s' <= weight s)%nat.
Proof. induction 1 as [|k s0 s1 s2 Hst _ IH]; [lia|]. apply weight_step in Hst. lia. Qed.

Lemma run_schedule_reach E sched s : rtc (steps E) s (run_schedule E sched s).
Proof.
  revert s. induction sched as [|who sched IH]; intros s; [apply rtc_refl|]. simpl.
  destruct (run_step E who s) as [s'|] eqn:Hst; simpl; [|apply IH]. eapply rtc_l; [by exists who|apply IH].
Qed.
Lemma run_schedule_app E l1 l2 s : run_schedule E (l1 ++ l2) s = run_schedule E l2 (run_schedule E l1 s).
Proof. apply foldl_app. Qed.
Lemma run_finishes E all s : run_inv E all s -> (length (failures E 0 all) <= ErrorsChanSize)%nat ->
  exists sched tmp, main (run_schedule E sched s) = Ranged tmp.
Proof.
  intros Hinv Hn. remember (weight s) as k eqn:Hk. revert s Hinv Hk. induction k as [k IH] using lt_wf_ind. intros s Hinv ->.
  destruct (run_progress E all s Hinv Hn) as [(s' & who & Hst)|[tmp Hm]]; [|by exists [], tmp].
  destruct (IH (weight s')) with (s := s') as (sched & tmp & Hm); [apply (weight_step E); by exists who| |done|].
  { eapply run_inv_step; [exact Hinv|by exists who]. }
  exists (who :: sched), tmp. simpl. by rewrite Hst.
Qed.

Lemma failures_le E i l : (length (failures E i l) <= length l)%nat.
Proof. revert i. induction l as [|b l IH]; intros i; simpl; [done|]. rewrite length_app. specialize (IH (S i)). destruct (submit E i b); simpl; lia. Qed.
Lemma failures_eq E i l : (forall i b, is_Some (submit E i b)) -> length (failures E i l) = length l.
Proof. intros H. revert i. induction l as [|b l IH]; intros i; simpl; [done|]. rewrite length_app, IH. by destruct (H i b) as [e ->]. Qed.

(** C32: The goroutines of a report.  Each of them submits a batch, sends an error to
    a channel of five places and is then waited for; the channel is read only
    after that.  Provided that the submissions return, every run comes to an end;
    when at most five of them fail, which is so for at most 250 pairs, it ends
    with the report returning, having read exactly these errors, however the
    goroutines are scheduled; when more fail, as all of them may for more than
    250 pairs, the report never returns: every run ends with the caller in
    [wg.Wait] and a goroutine blocked on the full channel. *)
Theorem report_blocks E pairs r :
  let n := length (failures E 0 (batches pairs)) in
  let on sched := mkREnv (submit E) sched (flush E) in
  (forall k s, nsteps (steps E) k (start_run pairs) s -> (k <= 5 * length (batches pairs) + 3)%nat) /\
  ((n <= ErrorsChanSize)%nat ->
     (forall s, rtc (steps E) (start_run pairs) s ->
        (exists s', steps E s s') \/ exists tmp, main s = Ranged tmp /\ tmp ≡ₚ failures E 0 (batches pairs)) /\
     forall sched, exists more, is_Some (report (on (sched ++ more)) pairs r)) /\
  ((ErrorsChanSize < n)%nat ->
     (forall s, rtc (steps E) (start_run pairs) s ->
        (exists s', steps E s s') \/
        main s = Waiting /\ length (errorsChan s) = ErrorsChanSize /\ exists i w err, routines s !! i = Some w /\ phase w = Sending err) /\
     forall sched, report (on sched) pairs r = None) /\
  ((length pairs <= 250)%nat -> (n <= ErrorsChanSize)%nat) /\
  ((250 < length pairs)%nat -> (forall i b, is_Some (submit E i b)) -> (ErrorsChanSize < n)%nat).
Proof.
  intros n on. pose proof (length_batches pairs) as Hb. unfold MAX_REPORT_BATCH_SIZE in Hb. split_and!.
  - intros k s Hk%weight_nsteps. unfold weight in Hk at 2. simpl in Hk. lia.
  - intros Hn. split.
    + intros s Hs%run_inv_reach. destruct (run_progress E _ s Hs Hn) as [?|[tmp Hm]]; [by left|right]. exists tmp. split; [done|].
      by apply (ranged_failures E _ s).
    + intros sched. pose proof (run_inv_reach E pairs _ (run_schedule_reach E sched _)) as Hinv.
      destruct (run_finishes E _ _ Hinv Hn) as (more & tmp & Hm). exists more. unfold report. cbn [schedule on].
      rewrite run_schedule_app. change (run_schedule (on (sched ++ more))) with (run_schedule E). rewrite Hm. by eexists.
  - intros Hn. assert (forall s tmp, rtc (steps E) (start_run pairs) s -> main s <> Ranged tmp) as Hno.
    { intros s tmp Hs%run_inv_reach Hm. destruct (ranged_failures E _ s tmp Hs Hm) as [_ ?]. lia. }
    split.
    + intros s Hs. destruct (run_or_stuck E _ s (run_inv_reach E pairs s Hs)) as [?|[[tmp Hm]|?]]; [by left| |by right].
      by destruct (Hno s tmp).
    + intros sched. unfold report. change (run_schedule (on sched)) with (run_schedule E).
      pose proof (Hno (run_schedule E (schedule (on sched)) (start_run pairs))) as Hx.
      destruct (main _) as [| | |tmp]; [done..|]. by destruct (Hx tmp (run_schedule_reach E _ _)).
  - intros Hp. pose proof (failures_le E 0 (batches pairs)). unfold n, ErrorsChanSize. lia.
  - intros Hp Hall. unfold n, ErrorsChanSize. rewrite failures_eq by done. lia.
Qed.

(** ** Submitted values *)
Lemma foldl_insert_lookup (pairs : list (string * SubmissionData)) : forall (m : gmap string Z) p d,
  NoDup pairs.*1 -> (p, d) ∈ pairs ->
  foldl (fun m p => <[p.1 := s_Value p.2]> m) m pairs !! p = Some (s_Value d).
Proof.
  induction pairs as [|[p' d'] pairs IH] using rev_ind; intros m p d Hnd Hin; [by apply not_elem_of_nil in Hin|].
  rewrite foldl_app. simpl. rewrite fmap_app in Hnd. apply NoDup_app in Hnd as (Hnd & Hdis & _).
  apply elem_of_app in Hin as [Hin|Hin].
  - rewrite lookup_insert_ne; [by apply IH|]. intros ->. apply (Hdis p); [|by left].
    by apply (list_elem_of_fmap_2 fst) in Hin.
  - apply list_elem_of_singleton in Hin. simplify_eq. by rewrite lookup_insert_eq.
Qed.

(** A report that returns has recorded every pair's value as submitted,
    also when its submission failed. *)
Theorem report_records_all E pairs r r' err :
  report E pairs r = Some (r', err) -> NoDup pairs.*1 ->
  (forall p d, (p, d) ∈ pairs -> LatestSubmittedDataMap r' !! p = Some (s_Value d)) /\
  LatestDataMap r' = LatestDataMap r.
Proof.
  unfold report. intros H Hnd. destruct (main _); [done..|]. injection H as H. unfold conclude in H.
  assert (r' = set_LatestSubmittedDataMap
    (foldl (fun m p => <[p.1 := s_Value p.2]> m) (LatestSubmittedDataMap r) pairs) r) as ->.
  { destruct (existsb _ _); [by simplify_eq|]. destruct (0 <? _)%nat; by simplify_eq. }
  split; [|done]. intros p d Hin. simpl. by apply foldl_insert_lookup.
Qed.

Definition w_sub (v : Z) : SubmissionData := mkSubmission "BTC-USDT" v 1 [1] (replicate 32 0).
Definition w_env (answer : option error) : REnv :=
  mkREnv (fun _ _ => answer) (replicate 7 0%nat ++ (seq 1 6 ≫= replicate 3) ++ replicate 9 0%nat) None.
Definition w_reporter : Reporter :=
  mkReporter ["BTC-USDT"] (2 * second) MIN_DEVIATION_THRESHOLD DeviationJob
    {[Some "BTC-USDT" := w_sub 110000000000]} {["BTC-USDT" := 100000000000]}.

(** So a price that moved by ten percent and whose submission failed is
    not submitted again by the next deviation job: it submits nothing. *)
Theorem failed_deviation_not_retried :
  exists r', deviationJob (w_env (Some (External "tx failed"))) map_to_list w_reporter
      = Some (r', Some (External "tx failed")) /\
    GetDeviatingAggregates (LatestSubmittedDataMap r') (LatestDataMap r') (deviationThreshold r') = ∅.
Proof.
  destruct (deviationJob (w_env (Some (External "tx failed"))) map_to_list w_reporter) as [[r' e]|] eqn:Hd;
    [|by vm_compute in Hd].
  exists r'. vm_compute in Hd. simplify_eq. split; [done|]. vm_compute. reflexivity.
Qed.

Lemma report_blocks_witness :
  (forall sched, report (mkREnv (fun _ _ => Some DeadlineExceeded) sched None) (replicate 251 ("p", w_sub 1)) w_reporter = None) /\
  (forall sched, exists more, is_Some (report (mkREnv (fun _ _ => Some DeadlineExceeded) (sched ++ more) None) (replicate 250 ("p", w_sub 1)) w_reporter)).
Proof.
  destruct (report_blocks (w_env (Some DeadlineExceeded)) (replicate 251 ("p", w_sub 1)) w_reporter) as (_ & _ & Hb & _ & Hn).
  destruct (report_blocks (w_env (Some DeadlineExceeded)) (replicate 250 ("p", w_sub 1)) w_reporter) as (_ & Hr & _ & Hm & _).
  split.
  - apply Hb. apply Hn; [rewrite length_replicate; lia|by eexists].
  - apply Hr. apply Hm. rewrite length_replicate. lia.
Defined.

Lemma report_records_all_witness :
  exists r', report (w_env (Some DeadlineExceeded)) [("BTC-USDT", w_sub 7)] w_reporter = Some (r', None) /\
    LatestSubmittedDataMap r' !! "BTC-USDT" = Some 7.
Proof.
  destruct (report (w_env (Some DeadlineExceeded)) [("BTC-USDT", w_sub 7)] w_reporter) as [[r' e]|] eqn:Hr; [|by vm_compute in Hr].
  assert (e = None) as -> by (pose proof (f_equal (fmap snd) Hr) as He; vm_compute in He; by injection He as <-).
  exists r'. split; [reflexivity|].
  apply (report_records_all (w_env (Some DeadlineExceeded)) [("BTC-USDT", w_sub 7)] w_reporter r' None Hr)
    with (d := w_sub 7); [apply NoDup_singleton|by left].
Defined.

(** The deviating pairs are exactly the submitted ones that have newer
    data for which [ShouldReportDeviation] holds. *)
Theorem deviating_exact submitted latest threshold pair d :
  GetDeviatingAggregates submitted latest threshold !! pair = Some d <->
  exists old, submitted !! pair = Some old /\ latest !! Some pair = Some d /\
    ShouldReportDeviation old (s_Value d) threshold = true.
Proof.
  unfold GetDeviatingAggregates, GetLatestData. rewrite map_lookup_imap.
  destruct (submitted !! pair) as [old|]; simpl; [|by split; [|intros (? & ? & _)]].
  destruct (latest !! Some pair) as [d'|]; simpl; [|by split; [|intros (? & _ & ? & _)]].
  split.
  - intros Hif. exists old. destruct (ShouldReportDeviation _ _ _) eqn:Hs; by simplify_eq.
  - intros (old' & Ho & Hd & Hs). simplify_eq. by rewrite Hs.
Qed.

(** At a negative value the bounds of the deviation test are swapped: a
    feed whose value did not change at all is reported as deviating, at every
    threshold [GetDeviationThreshold] gives for whole seconds up to a minute. *)
Theorem negative_value_always_deviates :
  Forall (fun s => ShouldReportDeviation (-100000000) (-100000000) (GetDeviationThreshold (s * second)) = true
                /\ ShouldReportDeviation 100000000 100000000 (GetDeviationThreshold (s * second)) = false)
    (seqZ 1 60).
Proof.
  assert (forallb (fun s =>
      ShouldReportDeviation (-100000000) (-100000000) (GetDeviationThreshold (s * second)) &&
      negb (ShouldReportDeviation 100000000 100000000 (GetDeviationThreshold (s * second))))
    (seqZ 1 60) = true) as Hb by (vm_compute; reflexivity).
  apply Forall_forall. intros s Hs. rewrite forallb_forall in Hb.
  specialize (Hb s ltac:(by apply list_elem_of_In)). by breflect.
Qed.

(** Grouping loses no config and invents none: the group of an interval
    is the configs with that interval, in order, and every interval is
    positive. *)
Theorem groups_partition configs :
  (forall i, default [] (groupConfigsBySubmitIntervals configs !! i)
     = filter (fun sa => interval_of sa = i) configs) /\
  (forall i g, groupConfigsBySubmitIntervals configs !! i = Some g -> 0 < i /\ g <> []).
Proof.
  unfold groupConfigsBySubmitIntervals. induction configs as [|sa configs [IH1 IH2]] using rev_ind.
  - split; [intros i; simpl; by rewrite lookup_empty|]. intros i g Hg. simpl in Hg. by rewrite lookup_empty in Hg.
  - rewrite foldl_app. simpl. split; intros i.
    + rewrite filter_app, <- IH1, filter_cons. case_decide as Hi.
      * rewrite Hi, lookup_insert_eq. simpl. done.
      * rewrite lookup_insert_ne by done. by rewrite filter_nil, app_nil_r.
    + intros g. destruct (decide (interval_of sa = i)) as [<-|Hne].
      * rewrite lookup_insert_eq. intros. simplify_eq. split; [|by destruct (default _ _)].
        unfold interval_of. go_cases; breflect; lia.
      * rewrite lookup_insert_ne by done. apply IH2.
Qed.

End Reporter.
