(* ===== verification/Pipeline.v ===== *)
(** * Pipeline: from the oracles' signatures to the reporter's data

    The components composed: oracles sign a value, an aggregator joins their
    signatures, the DAL checks and orders them and publishes a message, and the
    reporter reads it.  Nothing is lost or changed on the way. *)

From S2P Require Import Prelude Errors Wire Text Signing Aggregator Collector Reporter.
Import Text Signing Aggregator Collector.

Local Open Scope Z_scope.

Module Pipeline.
Section pipeline.
Context `{Crypto} (Hex2Bytes : string -> list Z).

Abbreviation is_byte := (fun b : Z => 0 <= b < 256).

(** [klaytncommon.Hex2Bytes] decodes what [hex] encodes. *)
Hypothesis Hex2Bytes_encode : forall bs, Forall is_byte bs -> Hex2Bytes (EncodeToString bs) = bs.

(** The message the DAL sends for a piece of data; both sides use the same
    JSON names. *)
Definition dal_message (o : OutgoingSubmissionData) : Reporter.DalMessage :=
  Reporter.mkDalMessage (JVal (o_Symbol o)) (JVal (o_Value o)) (JVal (o_AggregateTime o))
    (JVal (o_Proof o)) (JVal (o_FeedHash o)).

Lemma Format_nonempty n : Format 10 n <> "".
Proof.
  unfold Format. destruct (n <? 0); [done|].
  intros Hnil. destruct (decide (0 <= n)) as [Hn|Hn].
  - destruct (digits_cons 10 n) as (c & l & Hd); [lia..|]. rewrite Hd in Hnil. done.
  - unfold digits in Hnil. destruct (n =? 0); [done|]. simpl in Hnil.
    destruct (n =? 0) eqn:H0; breflect; [lia|].
    assert (forall f m acc, acc <> [] -> digits_loop f 10 m acc <> []) as Hne.
    { induction f as [|f IH]; intros m acc Hacc; [done|]. simpl. destruct (m =? 0); [done|]. by apply IH. }
    apply (f_equal chars) in Hnil. rewrite chars_text in Hnil. by eapply Hne in Hnil.
Qed.

Lemma to32_id b : length b = 32%nat -> Reporter.to32 b = b.
Proof. intros Hb. unfold Reporter.to32. rewrite take_app_le by lia. apply take_ge. lia. Qed.

(** What the reporter makes of a message that carries these bytes. *)
Lemma ProcessDalWsRawData_message o v t proof fh :
  o_Value o = Format 10 v -> o_AggregateTime o = Format 10 t ->
  o_Proof o = formatBytesToHex proof -> o_FeedHash o = formatBytesToHex fh ->
  in_int64 v -> in_int64 t -> Forall is_byte proof -> Forall is_byte fh ->
  Reporter.ProcessDalWsRawData Hex2Bytes (dal_message o) =
    Ok (Reporter.mkSubmission (o_Symbol o) v t proof (Reporter.to32 fh)).
Proof.
  intros Hv Ht Hp Hf Hv64 Ht64 Hpb Hfb.
  unfold Reporter.ProcessDalWsRawData, dal_message, Reporter.RawSubmissionData2SubmissionData. simpl.
  rewrite Hv, Ht, Hp, Hf. unfold formatBytesToHex.
  rewrite !(bool_decide_false (Format 10 _ = "")) by apply Format_nonempty. simpl.
  rewrite !TrimPrefix_app, !Hex2Bytes_encode by done.
  rewrite !ParseInt_Itoa_lemma by (lia || (change (64 - 1) with 63; int_lia)). done.
Qed.

Lemma Forall_concat_iff {A} (P : A -> Prop) (l : list (list A)) :
  Forall P (concat l) <-> Forall (Forall P) l.
Proof. induction l as [|x l IH]; simpl; [done|]. by rewrite Forall_app, Forall_cons, IH. Qed.

Lemma UnixMilli_in t : in_int64 (UnixMilli t).
Proof. apply wrap64_in. Qed.

(** Whatever the DAL serves, the reporter reads back exactly: the value,
    the time in milliseconds, the ordered proof and the feed hash. *)
Theorem dal_to_reporter map_order c data out rf fh (r : Reporter.Reporter) :
  (forall l, map_order l ≡ₚ l) ->
  IncomingDataToOutgoingData map_order c data = (Ok out, rf) ->
  FeedHashes c !! sd_Symbol data = Some fh -> length fh = 32%nat -> Forall is_byte fh ->
  in_int64 (ga_Value (sd_GlobalAggregate data)) -> Forall is_byte (p_Proof (sd_Proof data)) ->
  exists proof, orderProof map_order (p_Proof (sd_Proof data)) (ga_Value (sd_GlobalAggregate data))
      (ga_Timestamp (sd_GlobalAggregate data)) (sd_Symbol data) (CachedWhitelist c) = Ok proof /\
    exists r', Reporter.HandleWsMessage Hex2Bytes (dal_message out) r = (r', None) /\
      Reporter.GetLatestData (Reporter.LatestDataMap r') (sd_Symbol data) =
        Some (Reporter.mkSubmission (sd_Symbol data) (ga_Value (sd_GlobalAggregate data))
          (UnixMilli (ga_Timestamp (sd_GlobalAggregate data))) proof fh).
Proof.
  intros Hord Hin Hfh Hlen Hfhb Hv Hpb. unfold IncomingDataToOutgoingData in Hin. rewrite Hfh in Hin.
  destruct (orderProof map_order _ _ _ _ _) as [proof|] eqn:Ho; [|done]. exists proof. split; [done|].
  simplify_eq. destruct (orderProof_inv map_order Hord _ _ _ _ _ _ Ho)
    as (l & chunks & Hc & _ & -> & _ & _ & Hl & _).
  assert (Forall is_byte (concat l.*2)) as Hproof.
  { apply Forall_concat_iff, Forall_forall. intros p Hp. apply list_elem_of_fmap in Hp as ([s p'] & -> & Hsp).
    destruct (Hl _ _ Hsp) as [Hch _]. rewrite <- Hc in Hpb. rewrite Forall_concat_iff, Forall_forall in Hpb.
    by apply Hpb. }
  unfold Reporter.HandleWsMessage.
  erewrite ProcessDalWsRawData_message; [|done..|apply UnixMilli_in|done|done].
  eexists. split; [reflexivity|]. unfold Reporter.GetLatestData. simpl. rewrite lookup_insert_eq.
  by rewrite to32_id.
Qed.

(** End to end: when oracles of the whitelist sign a value, and their
    signatures are joined in any order into a submission, the DAL accepts it
    and the reporter ends up with exactly that value, its time, and the
    signatures in the order of the whitelist. *)
Theorem oracles_to_reporter {Claws : CryptoLaws _} map_order c v ts symbol id k ks sigs sigs' fh
    (r : Reporter.Reporter) :
  (forall l, map_order l ≡ₚ l) -> ks <> [] -> signed_by v ts symbol ks sigs ->
  NoDup (addresses ks) -> Forall (fun a => a ∈ CachedWhitelist c) (addresses ks) -> sigs' ≡ₚ sigs ->
  FeedHashes c !! symbol = Some fh -> length fh = 32%nat -> Forall is_byte fh ->
  in_int64 v -> Forall (Forall is_byte) sigs ->
  exists out r',
    IncomingDataToOutgoingData map_order c
      (mkSubmissionData symbol (mkGlobalAggregate id v k ts) (mkProof id k (concat sigs'))) = (Ok out, false) /\
    Reporter.HandleWsMessage Hex2Bytes (dal_message out) r = (r', None) /\
    Reporter.GetLatestData (Reporter.LatestDataMap r') symbol =
      Some (Reporter.mkSubmission symbol v (UnixMilli ts)
        (concat (omap (fun a => (list_to_map (zip (addresses ks) sigs) : gmap Z (list Z)) !! a)
                   (CachedWhitelist c))) fh).
Proof.
  intros Hord Hne Hsig Hnd Hwl Hp Hfh Hlen Hfhb Hv Hb.
  pose proof (orderProof_honest v ts symbol map_order ks sigs sigs' _ Hord Hne Hsig Hnd Hwl Hp) as Ho.
  unfold IncomingDataToOutgoingData. cbn [sd_Symbol sd_GlobalAggregate sd_Proof p_Proof ga_Value ga_Timestamp].
  rewrite Hfh, Ho. set (proof := concat (omap _ _)).
  assert (Forall is_byte proof) as Hproof.
  { apply Forall_concat_iff, Forall_forall. intros p Hin. apply list_elem_of_omap in Hin as (a & _ & Ha).
    apply elem_of_list_to_map_2, elem_of_zip_r in Ha. rewrite Forall_forall in Hb. by apply Hb. }
  exists (mkOutgoing symbol (Format 10 v) (Format 10 (UnixMilli ts)) (formatBytesToHex proof)
    (formatBytesToHex fh) DefaultDecimals). unfold Reporter.HandleWsMessage.
  erewrite ProcessDalWsRawData_message; [|reflexivity..|done|apply UnixMilli_in|done|done].
  eexists. split; [reflexivity|]. split; [reflexivity|]. unfold Reporter.GetLatestData. simpl.
  rewrite lookup_insert_eq. by rewrite to32_id.
Qed.
End pipeline.

(** ** Witnesses: the toy scheme of [Signing] and [hex.DecodeString] *)
Definition w_hex (s : string) : list Z := default [] (DecodeString s).
Lemma w_hex_encode bs : Forall (fun b : Z => 0 <= b < 256) bs -> w_hex (EncodeToString bs) = bs.
Proof. intros. unfold w_hex. by rewrite DecodeString_EncodeToString. Qed.

Definition w_fh : list Z := replicate 32 7.
Definition w_collector : Collector :=
  mkCollector {["X" := []]} {["X" := w_fh]} ∅ ∅ [9; 4] true true.
Definition w_reporter : Reporter.Reporter := Reporter.w_reporter.

Lemma w_bytes (n : nat) (b : Z) : 0 <= b < 256 -> Forall (fun b : Z => 0 <= b < 256) (replicate n b).
Proof. intros. by apply Forall_replicate. Qed.

Lemma w_sig_bytes (b : Z) : 0 <= b < 256 -> Forall (fun b : Z => 0 <= b < 256) (w_sig b).
Proof. intros. apply Forall_app. split; [by apply w_bytes|]. repeat constructor; lia. Qed.

Lemma dal_to_reporter_witness : exists r',
  Reporter.GetLatestData (Reporter.LatestDataMap r') "X" =
    Some (Reporter.mkSubmission "X" 5 3 (w_sig 9 ++ w_sig 4) w_fh).
Proof.
  set (data := mkSubmissionData "X" (mkGlobalAggregate 1 5 2 (3 * millisecond)) (mkProof 1 2 (w_sig 4 ++ w_sig 9))).
  destruct (@IncomingDataToOutgoingData toy_crypto id w_collector data) as [[out|e] rf] eqn:Hin;
    [|exfalso; by vm_compute in Hin].
  destruct (@dal_to_reporter toy_crypto w_hex w_hex_encode id w_collector data out rf w_fh w_reporter)
    as (proof & Hp & r' & _ & Hr); [done|done|done|done|apply w_bytes; lia|by vm_compute| |].
  - apply Forall_app. split; apply w_sig_bytes; lia.
  - exists r'. vm_compute in Hp. simplify_eq. exact Hr.
Defined.

Lemma oracles_to_reporter_witness : exists r',
  Reporter.GetLatestData (Reporter.LatestDataMap r') "X" =
    Some (Reporter.mkSubmission "X" 5 3 (w_sig 9 ++ w_sig 4) w_fh).
Proof.
  destruct (@oracles_to_reporter toy_crypto w_hex w_hex_encode toy_laws id w_collector 5 (3 * millisecond) "X"
    1 2 [9; 4] [w_sig 9; w_sig 4] [w_sig 4; w_sig 9] w_fh w_reporter) as (out & r' & _ & _ & Hr).
  - done.
  - done.
  - unfold signed_by. repeat constructor.
  - apply (bool_decide_eq_true_1 (NoDup _)). vm_compute. reflexivity.
  - apply (bool_decide_eq_true_1 (Forall (fun a : Z => a ∈ [9; 4]) [9; 4])). vm_compute. reflexivity.
  - apply perm_swap.
  - done.
  - done.
  - apply w_bytes. lia.
  - by vm_compute.
  - repeat (apply Forall_cons; split; [apply w_sig_bytes; lia|]). apply Forall_nil_2.
  - exists r'. exact Hr.
Defined.

End Pipeline.
