(* ===== verification/ClusterRound.v ===== *)
(** * A round of the whole network

    The nodes of a config that are up, composed: the leader's trigger, the prices,
    the price fix, the proofs and the submission, each message handled by every
    node in an order of its own, then the data access layer and the reporter.  Where
    nodes are missing the timers of the round take the place of their messages.

    The four message types use four tables of a node, so that what a node makes
    of the messages and timers of one type does not depend on how they interleave
    with the others.  Module [Strata] shows this for one node and any list of
    messages and timers, one type after the other; module [Cluster] puts the nodes
    together. *)

From S2P Require Import Prelude Errors Calculator Wire Raft Aggregator Rounds RoundsLive Text Signing Collector Reporter Pipeline.
Import Raft Calculator Aggregator Pruning Sections Complete.

Local Open Scope Z_scope.

Module Strata.

(** What a node sends to the topic. *)
Definition net_of (e : aeffect) : option Message := match e with Net m => Some m | _ => None end.
Definition nets (out : list aeffect) : list Message := omap net_of out.
Definition of_type (T : string) (l : list Message) : list Message := filter (fun m => Type_ m = T) l.

(** A message without the time it was sent. *)
Definition content (m : Message) : string * string * RawMessage := (Type_ m, SentFrom m, Data m).

Lemma nets_app o1 o2 : nets (o1 ++ o2) = nets o1 ++ nets o2.
Proof. apply omap_app. Qed.
Lemma submissions_app o1 o2 : submissions (o1 ++ o2) = submissions o1 ++ submissions o2.
Proof. apply omap_app. Qed.
Lemma of_type_app T l1 l2 : of_type T (l1 ++ l2) = of_type T l1 ++ of_type T l2.
Proof. apply filter_app. Qed.
Lemma of_type_cons_eq T m l : Type_ m = T -> of_type T (m :: l) = m :: of_type T l.
Proof. intros. by apply filter_cons_True. Qed.
Lemma of_type_cons_ne T m l : Type_ m <> T -> of_type T (m :: l) = of_type T l.
Proof. intros. by apply filter_cons_False. Qed.

(** ** What a message leaves alone *)

(** The part of a table that belongs to round [k]. *)
Definition at_round {A} (rd : RoundData A) (k : Z) : option (list A) * option (list string) * bool :=
  (items rd !! k, senders rd !! k, is_locked (locked rd) k).

Lemma holds_at {A} (rd rd' : RoundData A) k c : at_round rd' k = at_round rd k -> holds rd k c -> holds rd' k c.
Proof. unfold at_round, holds, slice. intros [= Hi Hs Hl]. by rewrite Hi, Hs, Hl. Qed.

Lemma keeps_self k : min_int32 + 10 <= k -> keeps k k = true.
Proof. intros. unfold keeps. rewrite !andb_true_iff. breflect. int_lia. Qed.

Definition late_round (k : int32) : Prop := in_int32 k /\ min_int32 + 10 <= k.

Lemma last10_at {A} (rd : RoundData A) k : late_round k ->
  at_round (mkRoundData (last10 k (senders rd)) (last10 k (items rd)) (last10 k (locked rd))) k = at_round rd k.
Proof.
  intros [Hk Hm]. unfold at_round. simpl. rewrite !last10_lookup, last10_is_locked, keeps_self by done. done.
Qed.

(** A trigger, if it is one, is for round [k]. *)
Definition triggers_only (k : int32) (m : Message) : Prop :=
  Type_ m = Trigger -> exists t, json_Unmarshal (T := TriggerMessage) (Data m) = Some t /\ tr_RoundID t = k.

(** What type of message a message of type [T] makes a node send. *)
Definition answer_type (T : string) : option string :=
  if bool_decide (T = Trigger) then Some PriceData
  else if bool_decide (T = PriceData) then Some PriceFix
  else if bool_decide (T = PriceFix) then Some ProofMsg
  else None.

Lemma publish_nets E msg out err : publish E msg = (out, err) ->
  Forall (fun m => Type_ m = Type_ msg) (nets out) /\ submissions out = [].
Proof. intros [[-> _]|[-> _]]%publish_cases; split; repeat constructor. Qed.

Ltac published :=
  match goal with
  | H : publish _ _ = (_, _) |- _ => destruct (publish_nets _ _ _ _ H)
  end.

(** What handling something of type [T] leaves alone, and what it sends. *)
Record framed (k : int32) (T : string) (n n' : Aggregator) (out : list aeffect) : Prop := {
  fr_config : config n' = config n;
  fr_triggers : T <> Trigger -> is_locked (roundTriggers n') k = is_locked (roundTriggers n) k;
  fr_prices : T <> PriceData -> at_round (roundPrices n') k = at_round (roundPrices n) k;
  fr_fixes : T <> PriceFix -> is_locked (roundPriceFixes n') k = is_locked (roundPriceFixes n) k;
  fr_proofs : T <> ProofMsg -> at_round (roundProofs n') k = at_round (roundProofs n) k;
  fr_nets : Forall (fun m' => Some (Type_ m') = answer_type T) (nets out);
  fr_submissions : T <> ProofMsg -> submissions out = []
}.

Lemma framed_same k T n : framed k T n n [].
Proof. split; try done. Qed.

Lemma answers_of T T' l :
  answer_type T = Some T' -> Forall (fun m' => Type_ m' = T') l -> Forall (fun m' => Some (Type_ m') = answer_type T) l.
Proof. intros Ha Hl. eapply Forall_impl; [exact Hl|]. simpl. by intros x ->. Qed.

Lemma trigger_framed E r n m k : late_round k -> Type_ m = Trigger -> triggers_only k m ->
  let '(n', out, _) := HandleTriggerMessage E r n m in framed k Trigger n n' out.
Proof.
  intros Hk Ht Ho. destruct (Ho Ht) as (t & Hu & Hr). unfold HandleTriggerMessage. rewrite Hu, Hr.
  assert (Hprune : forall n1 out, config n1 = config n -> roundPrices n1 = roundPrices n ->
    roundPriceFixes n1 = roundPriceFixes n -> roundProofs n1 = roundProofs n ->
    Forall (fun m' => Type_ m' = PriceData) (nets out) -> submissions out = [] ->
    framed k Trigger n (leaveOnlyLast10Entries k n1) out).
  { intros n1 out Hc Hp Hf Hpr Hn Hs. split; simpl; try done.
    - intros _. unfold RoundPrices_leaveOnlyLast10Entries. by rewrite last10_at, Hp.
    - intros _. unfold RoundPriceFixes_leaveOnlyLast10Entries. destruct Hk.
      rewrite last10_is_locked, keeps_self, Hf by done. done.
    - intros _. unfold RoundProofs_leaveOnlyLast10Entries. by rewrite last10_at, Hpr.
    - by eapply answers_of. }
  destruct (k =? 0); [by apply Hprune|]. destruct (negb _); [by apply Hprune|].
  unfold trigger_locked, trigger_round.
  set (n1 := if negb _ then set_RoundID _ n else n).
  assert (config n1 = config n /\ roundPrices n1 = roundPrices n /\ roundPriceFixes n1 = roundPriceFixes n /\
    roundProofs n1 = roundProofs n) as (H1 & H2 & H3 & H4) by (unfold n1; by destruct (negb _)).
  destruct (is_locked (roundTriggers n1) _); [by apply Hprune|].
  destruct (PublishPriceDataMessage _ _ _ _ _) as [out err] eqn:Hp.
  unfold PublishPriceDataMessage in Hp. published. by apply Hprune.
Qed.

Lemma prices_frame k n rp out : Forall (fun m' => Type_ m' = PriceFix) (nets out) -> submissions out = [] ->
  framed k PriceData n (set_roundPrices rp n) out.
Proof. intros Hn Hs. split; try done. by eapply answers_of. Qed.

Lemma process_prices_framed E r n rp k k' ts :
  let '(n', out, _) := processCollectedPrices E r (set_roundPrices rp n) k' ts in framed k PriceData n n' out.
Proof.
  unfold processCollectedPrices. simpl. destruct (negb _); [by apply (prices_frame k n)|].
  destruct (bool_decide _); [by apply (prices_frame k n)|]. destruct (fst (GetInt64Med _)); [|by apply (prices_frame k n)].
  destruct (PublishPriceFixMessage _ _ _ _ _) as [out err] eqn:Hp.
  unfold PublishPriceFixMessage in Hp. published. by apply (prices_frame k n).
Qed.

Lemma price_framed E r n m k :
  let '(n', out, _) := HandlePriceDataMessage E r n m in framed k PriceData n n' out.
Proof.
  unfold HandlePriceDataMessage. destruct (json_Unmarshal (Data m)) as [d|]; [|apply framed_same].
  destruct (_ =? 0); [apply framed_same|]. destruct (is_locked _ _); [apply framed_same|].
  destruct (isReplay _ _ _); [apply framed_same|]. cbv zeta.
  destruct (_ =? SubscribersCount _ + 1); [apply process_prices_framed|destruct (_ =? 1); by apply (prices_frame k n)].
Qed.

Lemma set_roundPrices_same n : set_roundPrices (roundPrices n) n = n.
Proof. by destruct n. Qed.
Lemma set_roundProofs_same n : set_roundProofs (roundProofs n) n = n.
Proof. by destruct n. Qed.

Lemma price_timer_framed E r n k k' ts :
  let '(n', out, _) := startPriceCollectionTimeout E r n k' ts in framed k PriceData n n' out.
Proof.
  unfold startPriceCollectionTimeout. destruct (_ && _); [|apply framed_same].
  pose proof (process_prices_framed E r n (roundPrices n) k k' ts) as Hf. rewrite set_roundPrices_same in Hf.
  by destruct (processCollectedPrices E r n k' ts) as [[n' out] e].
Qed.

Lemma fix_framed E r n m k :
  let '(n', out, _) := HandlePriceFixMessage E r n m in framed k PriceFix n n' out.
Proof.
  unfold HandlePriceFixMessage. destruct (json_Unmarshal (Data m)) as [d|]; [|apply framed_same].
  destruct (negb _); [apply framed_same|]. destruct (is_locked _ _); [apply framed_same|]. cbv zeta.
  assert (Hf : forall rp out, Forall (fun m' => Type_ m' = ProofMsg) (nets out) -> submissions out = [] ->
    framed k PriceFix n (set_roundPriceFixes rp n) out) by (intros rp out Hn Hs; split; try done; by eapply answers_of).
  destruct (a_sign _ _ _ _); [|by apply Hf]. destruct (PublishProofMessage _ _ _ _ _ _) as [out err] eqn:Hp.
  unfold PublishProofMessage in Hp. published. by apply Hf.
Qed.

Lemma proofs_frame k n rp out : nets out = [] -> framed k ProofMsg n (set_roundProofs rp n) out.
Proof. intros Hn. split; try done. rewrite Hn. constructor. Qed.

Lemma process_proofs_framed E n rp k m :
  let '(n', out, _) := processCollectedProofs E (set_roundProofs rp n) m in framed k ProofMsg n n' out.
Proof.
  unfold processCollectedProofs, PublishGlobalAggregateAndProof. destruct (_ || _); [by apply (proofs_frame k n)|].
  destruct (a_db E); by apply (proofs_frame k n).
Qed.

Lemma proof_framed E n m k :
  let '(n', out, _) := HandleProofMessage E n m in framed k ProofMsg n n' out.
Proof.
  unfold HandleProofMessage. destruct (json_Unmarshal (Data m)) as [d|]; [|apply framed_same].
  destruct (_ =? 0); [apply framed_same|]. destruct (pm_Proof d); [|apply framed_same].
  destruct (is_locked _ _); [apply framed_same|]. destruct (isReplay _ _ _); [apply framed_same|]. cbv zeta.
  destruct (_ =? SubscribersCount _ + 1); [apply process_proofs_framed|destruct (_ =? 1); by apply (proofs_frame k n)].
Qed.

Lemma proof_timer_framed E n k m :
  let '(n', out, _) := startProofCollectionTimeout E n m in framed k ProofMsg n n' out.
Proof.
  unfold startProofCollectionTimeout. destruct (_ && _); [|apply framed_same].
  pose proof (process_proofs_framed E n (roundProofs n) k m) as Hf. rewrite set_roundProofs_same in Hf.
  by destruct (processCollectedProofs E n m) as [[n' out] e].
Qed.

(** A message changes round [k] only in the table of its own type. *)
Lemma handle_framed E r n m n' out err k :
  late_round k -> triggers_only k m -> HandleCustomMessage E r n m = (n', out, err) -> framed k (Type_ m) n n' out.
Proof.
  intros Hk Ho. unfold HandleCustomMessage.
  case_bool_decide as Ht; [intros Hh; pose proof (trigger_framed E r n m k Hk Ht Ho) as Hf; by rewrite Hh, <- Ht in Hf|].
  case_bool_decide as Hp; [intros Hh; pose proof (price_framed E r n m k) as Hf; by rewrite Hh, <- Hp in Hf|].
  case_bool_decide as Hx; [intros Hh; pose proof (fix_framed E r n m k) as Hf; by rewrite Hh, <- Hx in Hf|].
  case_bool_decide as Hr; [intros Hh; pose proof (proof_framed E n m k) as Hf; by rewrite Hh, <- Hr in Hf|].
  intros [= <- <- _]. apply framed_same.
Qed.

Lemma cons_eq {A} (a b : A) l l' : a :: l = b :: l' -> a = b /\ l = l'.
Proof. by intros [= -> ->]. Qed.
Lemma handle_content E r n m m' :
  content m = content m' -> HandleCustomMessage E r n m = HandleCustomMessage E r n m'.
Proof.
  unfold content. intros [= Ht Hs Hd]. unfold HandleCustomMessage, HandleTriggerMessage, HandlePriceDataMessage,
    HandlePriceFixMessage, HandleProofMessage, trigger_round. by rewrite Ht, Hs, Hd.
Qed.

(** ** Messages and timers *)

(** What a node handles: a message, or the end of the wait for prices or proofs
    that a message started. *)
Inductive item : Type :=
| Recv (m : Message)
| FirePrices (roundID : int32) (timestamp : Time)
| FireProofs (m : ProofMessage).
Definition item_type (it : item) : string :=
  match it with Recv m => Type_ m | FirePrices _ _ => PriceData | FireProofs _ => ProofMsg end.
Definition of_item (T : string) (l : list item) : list item := filter (fun it => item_type it = T) l.
Definition recv (it : item) : option Message := match it with Recv m => Some m | _ => None end.
Definition recvs (l : list item) : list Message := omap recv l.

Definition handle_item (E : AEnv) (r : Raft) (n : Aggregator) (it : item) : Aggregator * list aeffect :=
  match it with
  | Recv m => fst (HandleCustomMessage E r n m)
  | FirePrices k ts => fst (startPriceCollectionTimeout E r n k ts)
  | FireProofs m => fst (startProofCollectionTimeout E n m)
  end.
Fixpoint handle_items (E : AEnv) (r : Raft) (n : Aggregator) (l : list item) : Aggregator * list aeffect :=
  match l with
  | [] => (n, [])
  | it :: l => let '(n, out) := handle_item E r n it in let '(n, out') := handle_items E r n l in (n, out ++ out')
  end.

Definition triggers_only_item (k : int32) (it : item) : Prop := match it with Recv m => triggers_only k m | _ => True end.

Lemma item_framed E r n it n' out k :
  late_round k -> triggers_only_item k it -> handle_item E r n it = (n', out) -> framed k (item_type it) n n' out.
Proof.
  intros Hk Ho. destruct it as [m|k' ts|m]; simpl.
  - destruct (HandleCustomMessage E r n m) as [[n1 o1] e1] eqn:Hh. intros [= <- <-]. by eapply handle_framed.
  - pose proof (price_timer_framed E r n k k' ts) as Hf. destruct (startPriceCollectionTimeout E r n k' ts) as [[n1 o1] e1].
    by intros [= <- <-].
  - pose proof (proof_timer_framed E n k m) as Hf. destruct (startProofCollectionTimeout E n m) as [[n1 o1] e1].
    by intros [= <- <-].
Qed.

Lemma of_item_cons_eq T it l : item_type it = T -> of_item T (it :: l) = it :: of_item T l.
Proof. intros. by apply filter_cons_True. Qed.
Lemma of_item_cons_ne T it l : item_type it <> T -> of_item T (it :: l) = of_item T l.
Proof. intros. by apply filter_cons_False. Qed.

(** Of the types without timers there are only messages. *)
Lemma of_item_recv T l : T <> PriceData -> T <> ProofMsg -> of_item T l = Recv <$> of_type T (recvs l).
Proof.
  intros H1 H2. induction l as [|[m|k ts|m] l IH]; [done|..].
  - destruct (decide (Type_ m = T)) as [Ht|Ht]; simpl.
    + by rewrite of_item_cons_eq, of_type_cons_eq, IH.
    + by rewrite of_item_cons_ne, of_type_cons_ne, IH.
  - by rewrite of_item_cons_ne.
  - by rewrite of_item_cons_ne.
Qed.
Lemma recvs_of_item T l : recvs (of_item T l) = of_type T (recvs l).
Proof.
  induction l as [|it l IH]; [done|]. destruct (decide (item_type it = T)) as [Ht|Ht].
  - rewrite of_item_cons_eq by done. destruct it as [m|k ts|m]; simpl; [|done..]. by rewrite of_type_cons_eq, IH.
  - rewrite of_item_cons_ne by done. destruct it as [m|k ts|m]; simpl; [|done..]. by rewrite of_type_cons_ne, IH.
Qed.

Lemma triggers_cons k it l : Forall (triggers_only k) (recvs (it :: l)) ->
  triggers_only_item k it /\ Forall (triggers_only k) (recvs l).
Proof. destruct it as [m| |]; simpl; [|done..]. intros Hl. by apply Forall_cons in Hl. Qed.

(** The timers of a list of items, and those that handling items starts. *)
Definition timers (l : list item) : list item := filter (fun it => recv it = None) l.
Definition started_of (e : aeffect) : option item :=
  match e with
  | SpawnPriceTimeout k ts => Some (FirePrices k ts)
  | SpawnProofTimeout m => Some (FireProofs m)
  | _ => None
  end.
Definition started (out : list aeffect) : list item := omap started_of out.
Lemma started_app o1 o2 : started (o1 ++ o2) = started o1 ++ started o2.
Proof. apply omap_app. Qed.

(** The message [m] is one that starts [it]. *)
Definition starts (m : Message) (it : item) : Prop :=
  match it with
  | Recv _ => False
  | FirePrices k ts => Type_ m = PriceData /\
      exists d, json_Unmarshal (T := PriceDataMessage) (Data m) = Some d /\ k = pd_RoundID d /\ ts = pd_Timestamp d
  | FireProofs d => Type_ m = ProofMsg /\ json_Unmarshal (T := ProofMessage) (Data m) = Some d
  end.

Lemma publish_starts E msg out err : publish E msg = (out, err) -> started out = [].
Proof. intros [[-> _]|[-> _]]%publish_cases; done. Qed.
Lemma process_prices_starts E r n k ts : started (fst (processCollectedPrices E r n k ts)).2 = [].
Proof.
  unfold processCollectedPrices. destruct (negb _); [done|]. destruct (bool_decide _); [done|].
  destruct (fst (GetInt64Med _)); [|done]. destruct (PublishPriceFixMessage _ _ _ _ _) as [out err] eqn:Hp.
  by apply publish_starts in Hp.
Qed.
Lemma process_proofs_starts E n m : started (fst (processCollectedProofs E n m)).2 = [].
Proof.
  unfold processCollectedProofs, PublishGlobalAggregateAndProof. destruct (_ || _); [done|]. by destruct (a_db E).
Qed.

Ltac none_started := by intros ?%not_elem_of_nil.

Lemma item_starts E r n it0 it : it ∈ started (handle_item E r n it0).2 -> exists m, it0 = Recv m /\ starts m it.
Proof.
  assert (Hnone : forall out, started out = [] -> ~ it ∈ started out) by (intros out ->; apply not_elem_of_nil).
  destruct it0 as [m|k ts|pm]; simpl.
  2:{ unfold startPriceCollectionTimeout. destruct (_ && _); [|none_started].
      pose proof (process_prices_starts E r n k ts) as Hs. destruct (processCollectedPrices E r n k ts) as [[? ?] ?].
      by intros ?%Hnone. }
  2:{ unfold startProofCollectionTimeout. destruct (_ && _); [|none_started].
      pose proof (process_proofs_starts E n pm) as Hs. destruct (processCollectedProofs E n pm) as [[? ?] ?].
      by intros ?%Hnone. }
  intros Hin. exists m. split; [done|]. revert Hin. unfold HandleCustomMessage. case_bool_decide as Ht.
  { unfold HandleTriggerMessage. destruct (json_Unmarshal _) as [t|]; [|none_started].
    destruct (_ =? 0); [none_started|]. destruct (negb _); [none_started|].
    unfold trigger_locked. destruct (is_locked _ _); [none_started|].
    destruct (PublishPriceDataMessage _ _ _ _ _) as [out err] eqn:Hp. apply publish_starts in Hp. by intros ?%Hnone. }
  case_bool_decide as Hp.
  { unfold HandlePriceDataMessage. destruct (json_Unmarshal _) as [d|] eqn:Hd; [|none_started].
    destruct (_ =? 0); [none_started|]. destruct (is_locked _ _); [none_started|].
    destruct (isReplay _ _ _); [none_started|]. cbv zeta.
    destruct (_ =? SubscribersCount _ + 1); [by intros ?%Hnone; [|apply process_prices_starts]|].
    destruct (_ =? 1); [|none_started]. intros ->%list_elem_of_singleton. by split; [|exists d]. }
  case_bool_decide as Hx.
  { unfold HandlePriceFixMessage. destruct (json_Unmarshal _) as [d|]; [|none_started].
    destruct (negb _); [none_started|]. destruct (is_locked _ _); [none_started|]. cbv zeta.
    destruct (a_sign _ _ _ _); [|none_started]. destruct (PublishProofMessage _ _ _ _ _ _) as [out err] eqn:Hq.
    apply publish_starts in Hq. by intros ?%Hnone. }
  case_bool_decide as Hr; [|none_started].
  unfold HandleProofMessage. destruct (json_Unmarshal _) as [d|] eqn:Hd; [|none_started].
  destruct (_ =? 0); [none_started|]. destruct (pm_Proof d) eqn:Hpm; [|none_started].
  destruct (is_locked _ _); [none_started|]. destruct (isReplay _ _ _); [none_started|]. cbv zeta.
  destruct (_ =? SubscribersCount _ + 1); [by intros ?%Hnone; [|apply process_proofs_starts]|].
  destruct (_ =? 1); [|none_started]. by intros ->%list_elem_of_singleton.
Qed.

(** Every timer was started by a message the node handled. *)
Lemma started_by E r l n it : it ∈ started (handle_items E r n l).2 -> exists m, m ∈ recvs l /\ starts m it.
Proof.
  revert n. induction l as [|it0 l IH]; intros n; simpl; [by intros ?%not_elem_of_nil|].
  pose proof (item_starts E r n it0 it) as H0. destruct (handle_item E r n it0) as [n1 o1]. specialize (IH n1).
  destruct (handle_items E r n1 l) as [n2 o2]. simpl in *. rewrite started_app. intros [Hin|Hin]%elem_of_app.
  - destruct (H0 Hin) as (m & -> & Hm). exists m. split; [by left|done].
  - destruct (IH Hin) as (m & Hm & Hs). exists m. split; [|done]. destruct it0; [by right|done..].
Qed.

Lemma recvs_app l1 l2 : recvs (l1 ++ l2) = recvs l1 ++ recvs l2.
Proof. apply omap_app. Qed.
Lemma recvs_Recv ms : recvs (Recv <$> ms) = ms.
Proof. induction ms as [|m ms IH]; [done|]. exact (f_equal (cons m) IH). Qed.
Lemma recvs_timers l : recvs (timers l) = [].
Proof.
  induction l as [|it l IH]; [done|]. unfold timers. destruct it; [rewrite filter_cons_False by done|rewrite filter_cons_True by done..];
    exact IH.
Qed.
Lemma recvs_split T l ms tm : of_item T l = (Recv <$> ms) ++ tm -> recvs tm = [] -> of_type T (recvs l) = ms.
Proof. intros Hl Htm. by rewrite <- recvs_of_item, Hl, recvs_app, recvs_Recv, Htm, app_nil_r. Qed.

(** When each timer that is started fires, once, the timers of a type are those
    that were started. *)
Lemma timers_of T l ms tm out :
  of_item T l = (Recv <$> ms) ++ tm -> recvs tm = [] -> timers l ≡ₚ started out ->
  forall it, it ∈ tm <-> it ∈ started out /\ item_type it = T.
Proof.
  intros Hl Htm Hst it.
  assert (Hrecv : it ∈ tm -> recv it = None).
  { intros Hin. destruct (recv it) as [m|] eqn:Hr; [|done]. exfalso. apply (not_elem_of_nil m). rewrite <- Htm.
    apply list_elem_of_omap. by exists it. }
  rewrite <- Hst. unfold timers. rewrite list_elem_of_filter. split.
  - intros Hin. assert (it ∈ of_item T l) as Hof by (rewrite Hl; apply elem_of_app; by right).
    apply list_elem_of_filter in Hof as [HT Hof]. auto.
  - intros [[Hr Hin] HT]. assert (it ∈ of_item T l) as Hof by by apply list_elem_of_filter.
    rewrite Hl in Hof. apply elem_of_app in Hof as [Hof|Hof]; [|done].
    apply list_elem_of_fmap in Hof as (m & -> & _). done.
Qed.

(** ** One type after the other *)
Section strata.
Context (E : AEnv) (r : Raft) (k : int32).
Hypothesis Hk : late_round k.
Hypothesis Hk0 : k <> 0.

Section stratum.
(** Items of type [T] with what a node puts out for them: [Inv its xs n] says
    that in state [n], with the items [its] to come, [xs] is to come out. *)
Context {X : Type} (T : string) (o : list aeffect -> list X) (Inv : list item -> list X -> Aggregator -> Prop).
Hypothesis o_nil : o [] = [].
Hypothesis o_app : forall o1 o2, o (o1 ++ o2) = o o1 ++ o o2.
Hypothesis Inv_done : forall xs n, Inv [] xs n -> xs = [].
Hypothesis Inv_own : forall it its xs n n' out, item_type it = T -> Inv (it :: its) xs n ->
  handle_item E r n it = (n', out) -> exists xs', xs = o out ++ xs' /\ Inv its xs' n'.
Hypothesis Inv_other : forall T' its xs n n' out, T' <> T -> framed k T' n n' out -> Inv its xs n ->
  Inv its xs n' /\ o out = [].

(** However the items of type [T] are mixed with others. *)
Lemma stratum l : forall n xs, Forall (triggers_only k) (recvs l) -> Inv (of_item T l) xs n ->
  o (handle_items E r n l).2 = xs.
Proof.
  induction l as [|it l IH]; intros n xs Hl Hi; simpl; [by rewrite o_nil, (Inv_done _ _ Hi)|].
  destruct (triggers_cons _ _ _ Hl) as [Hm Hl']. destruct (handle_item E r n it) as [n1 o1] eqn:Hh.
  assert (Hnext : exists xs', xs = o o1 ++ xs' /\ Inv (of_item T l) xs' n1).
  { destruct (decide (item_type it = T)) as [Ht|Ht].
    - rewrite of_item_cons_eq in Hi by done. by eapply Inv_own.
    - rewrite of_item_cons_ne in Hi by done. exists xs.
      destruct (Inv_other _ _ _ _ _ _ Ht (item_framed _ _ _ _ _ _ _ Hk Hm Hh) Hi) as [Hi' ->]. done. }
  destruct Hnext as (xs' & -> & Hi'). specialize (IH n1 xs' Hl' Hi').
  destruct (handle_items E r n1 l) as [n2 o2]. simpl in *. by rewrite o_app, IH.
Qed.
End stratum.

Lemma answer_type_inj T T0 T' : answer_type T = Some T' -> answer_type T0 = Some T' -> T0 = T.
Proof. unfold answer_type. repeat case_bool_decide; intros; simplify_eq; try done; by subst. Qed.
Lemma other_answers_none T T' T0 n n' out :
  answer_type T = Some T' -> T0 <> T -> framed k T0 n n' out -> content <$> of_type T' (nets out) = [].
Proof.
  intros Ha Hne Hf. pose proof (fr_nets _ _ _ _ _ Hf) as Hn. induction Hn as [|x l Hx _ IH]; [done|].
  rewrite of_type_cons_ne; [done|]. intros Ht. apply Hne. eapply answer_type_inj; [done|]. by rewrite <- Hx, Ht.
Qed.

Lemma sends_app T o1 o2 :
  content <$> of_type T (nets (o1 ++ o2)) = (content <$> of_type T (nets o1)) ++ (content <$> of_type T (nets o2)).
Proof. by rewrite nets_app, of_type_app, fmap_app. Qed.
Lemma sends_one T m : Type_ m = T -> content <$> of_type T (nets [Net m]) = [content m].
Proof. intros. unfold nets. simpl. by rewrite of_type_cons_eq. Qed.

(** *** Contents of the messages of a round *)
Context (L : string) (ts : Time).
Definition trigger_content : string * string * RawMessage := (Trigger, L, json_Marshal (mkTrigger L k ts)).
Definition price_content (sp : string * Z) : string * string * RawMessage :=
  (PriceData, sp.1, json_Marshal (mkPriceData k sp.2 ts)).
Definition fix_content (v : int64) : string * string * RawMessage := (PriceFix, L, json_Marshal (mkPriceFix k v ts)).
Definition proof_content (v : int64) (sp : string * list Z) : string * string * RawMessage :=
  (ProofMsg, sp.1, json_Marshal (mkProofMsg k v (Some sp.2) ts)).

(** The price of the node's own, [-1] when it has none. *)
Definition own_price (cfg : Config) : Z :=
  match Load (a_latest E) (c_ID cfg) with None => -1 | Some a => la_Value a end.

Lemma triggers_only_all l :
  content <$> of_type Trigger l = [trigger_content] -> Forall (triggers_only k) l.
Proof.
  intros Hl. apply Forall_forall. intros m Hm Ht.
  assert (content m ∈ content <$> of_type Trigger l) as Hin.
  { apply list_elem_of_fmap_2, list_elem_of_filter. done. }
  rewrite Hl in Hin. apply list_elem_of_singleton in Hin. unfold content, trigger_content in Hin.
  injection Hin as _ _ Hd. exists (mkTrigger L k ts). by rewrite Hd, json_roundtrip.
Qed.

(** A trigger makes a node send its price, once. *)
Lemma price_sent l n :
  e_publish (a_raft E) = None -> GetLeader r = L -> content <$> of_type Trigger (recvs l) = [trigger_content] ->
  is_locked (roundTriggers n) k = false ->
  content <$> of_type PriceData (nets (handle_items E r n l).2) = [price_content (GetHostId r, own_price (config n))].
Proof.
  intros Hpub HL Hl Hfree.
  apply (stratum Trigger (fun out => content <$> of_type PriceData (nets out))
    (fun its xs n' => config n' = config n /\
      ((recvs its = [] /\ xs = []) \/
       (content <$> recvs its = [trigger_content] /\ is_locked (roundTriggers n') k = false /\
        xs = [price_content (GetHostId r, own_price (config n))])))).
  - done.
  - apply sends_app.
  - intros xs n' [_ [[_ ->]|[? _]]]; done.
  - intros [m|? ?|?] its xs n1 n' out Ht [Hc Hi] Hh; [|done..]. destruct Hi as [[? _]|(Hm & Hn & ->)]; [done|].
    simpl in Hm, Hh. apply cons_eq in Hm as [Hm Hms]. apply fmap_nil_inv in Hms.
    rewrite (handle_content _ _ _ _ (mkMessage Trigger L (json_Marshal (mkTrigger L k ts)) 0)) in Hh by (by rewrite Hm).
    unfold HandleCustomMessage, HandleTriggerMessage in Hh. cbn [Type_ Data SentFrom] in Hh.
    rewrite bool_decide_true, json_roundtrip in Hh by done. cbn [tr_RoundID tr_Timestamp] in Hh.
    rewrite (proj2 (Z.eqb_neq k 0)) in Hh by done. rewrite (bool_decide_true (L = GetLeader r)) in Hh by done.
    cbn [negb] in Hh. unfold trigger_locked, trigger_round in Hh. cbn [tr_RoundID SentFrom tr_Timestamp] in Hh.
    set (n2 := if negb _ then set_RoundID _ n1 else n1) in Hh.
    assert (roundTriggers n2 = roundTriggers n1 /\ config n2 = config n1) as [H1 H2] by (unfold n2; by destruct (negb _)).
    rewrite H1, Hn in Hh. cbn [config set_roundTriggers] in Hh. rewrite H2, Hc in Hh.
    unfold PublishPriceDataMessage, publish, PublishMessage in Hh. rewrite Hpub in Hh.
    injection Hh as <- <-. exists []. split; [|split; [simpl; congruence|by left]].
    rewrite app_nil_r. symmetry.
    exact (sends_one PriceData (mkMessage PriceData (GetHostId r) (json_Marshal (mkPriceData k _ ts)) _) eq_refl).
  - intros T' its xs n1 n' out Ht Hf [Hc Hi]. split; [|by eapply (other_answers_none Trigger)].
    split; [by rewrite (fr_config _ _ _ _ _ Hf)|]. destruct Hi as [?|(H1 & H2 & H3)]; [by left|right].
    by rewrite (fr_triggers _ _ _ _ _ Hf).
  - by apply triggers_only_all.
  - split; [done|]. right. by rewrite recvs_of_item.
Qed.

(** *** Collecting *)
Definition N : nat := S (e_peers (a_raft E)).
Definition quorum {A} (c : list A) : Prop := Z.quot (SubscribersCount (a_raft E) + 1) 2 <= Z.of_nat (length c).

(** Prices and proofs are collected in the same way: one per sender, until all
    have come or a timer ends the wait with at least half of them. *)
Section collect.
Context {A X : Type} (T : string) (o : list aeffect -> list X) (table : Aggregator -> RoundData A).
Context (mk : string * A -> string * string * RawMessage) (timer : item -> Prop) (result : list (string * A) -> list X).
Context (cfg : Config).
Hypothesis o_nil : o [] = [].
Hypothesis o_app : forall o1 o2, o (o1 ++ o2) = o o1 ++ o o2.
Hypothesis table_other : forall T' n n' out, T' <> T -> framed k T' n n' out ->
  at_round (table n') k = at_round (table n) k /\ o out = [].

(** The round is closed, with the result of the contributions [c]. *)
Definition closed (c : list (string * A)) (n' : Aggregator) (out : list aeffect) : Prop :=
  config n' = cfg /\ is_locked (locked (table n')) k = true /\ o out = result c.

Hypothesis collect_one : forall n c s x m n' out, config n = cfg -> holds (table n) k c -> s ∉ c.*1 ->
  content m = mk (s, x) -> handle_item E r n (Recv m) = (n', out) ->
  if (length c =? e_peers (a_raft E))%nat then closed (c ++ [(s, x)]) n' out
  else config n' = cfg /\ holds (table n') k (c ++ [(s, x)]) /\ o out = [].
Hypothesis collect_timer : forall n c it n' out, timer it -> config n = cfg -> holds (table n) k c -> quorum c ->
  handle_item E r n it = (n', out) -> closed c n' out.
Hypothesis collect_late : forall n it, timer it -> is_locked (locked (table n)) k = true -> handle_item E r n it = (n, []).

(** What is to come of the contributions [c]. *)
Definition to_come (c : list (string * A)) (its : list item) (xs : list X) (n : Aggregator) : Prop :=
  config n = cfg /\
  ((exists c1 c2 ms tm, c = c1 ++ c2 /\ its = (Recv <$> ms) ++ tm /\ content <$> ms = mk <$> c2 /\ Forall timer tm /\
      holds (table n) k c1 /\ (c2 = [] -> (length c < N)%nat) /\ ((length c < N)%nat -> tm <> []) /\ xs = result c) \/
   (Forall timer its /\ is_locked (locked (table n)) k = true /\ xs = [])).

Lemma to_come_own c it its xs n n' out :
  NoDup c.*1 -> (length c <= N)%nat -> quorum c -> to_come c (it :: its) xs n -> handle_item E r n it = (n', out) ->
  exists xs', xs = o out ++ xs' /\ to_come c its xs' n'.
Proof.
  intros Hnd Hlen Hq [Hc [(c1 & c2 & ms & tm & -> & Hits & Hms & Htm & Hh & Hlast & Hmiss & ->)|(Hits & Hl & ->)]] Hr.
  2:{ apply Forall_cons in Hits as [Hit Hits]. rewrite collect_late in Hr by done. injection Hr as <- <-.
      exists []. rewrite o_nil. split; [done|]. split; [done|]. by right. }
  destruct c2 as [|[s x] c2].
  - apply fmap_nil_inv in Hms as ->. simpl in Hits. subst tm. rewrite app_nil_r in *.
    apply Forall_cons in Htm as [Hit Htm]. destruct (collect_timer _ _ _ _ _ Hit Hc Hh Hq Hr) as (Hc' & Hl & ->).
    exists []. rewrite app_nil_r. split; [done|]. split; [done|]. by right.
  - destruct ms as [|m ms]; [done|]. rewrite !fmap_cons in Hms. apply cons_eq in Hms as [Hm Hms]. simpl in Hits. apply cons_eq in Hits as [-> ->].
    assert (Hs : s ∉ c1.*1).
    { rewrite fmap_app in Hnd. apply NoDup_app in Hnd as (_ & Hd & _). intros Hin. apply (Hd s Hin). by left. }
    pose proof (collect_one n c1 s x m n' out Hc Hh Hs Hm Hr) as Hone. rewrite length_app in Hlen. simpl in Hlen. unfold N in *.
    destruct (Nat.eqb_spec (length c1) (e_peers (a_raft E))) as [Heq|Hne].
    + destruct c2; [|simpl in Hlen; lia]. destruct Hone as (Hc' & Hl & ->). apply fmap_nil_inv in Hms as ->.
      exists []. rewrite app_nil_r. split; [done|]. split; [done|]. by right.
    + destruct Hone as (Hc' & Hh' & ->). eexists. split; [reflexivity|]. split; [done|]. left.
      exists (c1 ++ [(s, x)]), c2, ms, tm. rewrite <- app_assoc. split_and!; try done.
      all: try by destruct Hh' as (? & ? & ? & ?).
      intros ->. rewrite length_app. simpl in *. unfold N. lia.
Qed.

Lemma collected l n c ms tm :
  Forall (triggers_only k) (recvs l) -> config n = cfg -> fresh (table n) k ->
  of_item T l = (Recv <$> ms) ++ tm -> content <$> ms = mk <$> c -> Forall timer tm ->
  NoDup c.*1 -> c <> [] -> (length c <= N)%nat -> quorum c -> ((length c < N)%nat -> tm <> []) ->
  o (handle_items E r n l).2 = result c.
Proof.
  intros Htr Hcfg Hfr Hl Hms Htm Hnd Hne Hlen Hq Hmiss. apply (stratum T o (to_come c)); try done.
  - intros xs n' [_ [(c1 & c2 & ms' & tm' & -> & Hits & Hms' & _ & _ & Hlast & Hmiss' & _)|(_ & _ & ->)]]; [|done].
    symmetry in Hits. apply app_nil in Hits as [Hm ->]. apply fmap_nil_inv in Hm as ->.
    symmetry in Hms'. apply fmap_nil_inv in Hms' as ->. by destruct (Hmiss' (Hlast eq_refl)).
  - intros it its xs n1 n' out _. by apply to_come_own.
  - intros T' its xs n1 n' out HT Hf [Hc Hi]. destruct (table_other _ _ _ _ HT Hf) as [Hat Ho]. split; [|done].
    split; [by rewrite (fr_config _ _ _ _ _ Hf)|].
    destruct Hi as [(c1 & c2 & ms' & tm' & H1 & H2 & H3 & H4 & H5 & H6 & H7 & H8)|(H1 & H2 & H3)]; [left|right].
    + exists c1, c2, ms', tm'. pose proof (holds_at _ _ _ _ Hat H5) as (? & ? & ? & ?). by split_and!.
    + split; [done|]. split; [|done]. unfold at_round in Hat. injection Hat as _ _ Hlk. by rewrite Hlk.
  - split; [done|]. left. exists [], c, ms, tm. pose proof (fresh_holds _ _ Hfr) as (? & ? & ? & ?). by split_and!.
Qed.
End collect.

(** *** Prices *)
Definition price_timer (it : item) : Prop := it = FirePrices k ts.
(** The fix of the prices [c]: the leader's alone, and only if there is a median. *)
Definition fix_of (c : list (string * Z)) : list (string * string * RawMessage) :=
  if bool_decide (GetRole r = Leader)
  then match fst (GetIntMed (FilterNegative c.*2)) with Ok v => [fix_content v] | Err _ => [] end else [].

Lemma process_prices_closed n c n' out err :
  e_publish (a_raft E) = None -> GetHostId r = L \/ GetRole r <> Leader -> holds (roundPrices n) k c ->
  processCollectedPrices E r n k ts = (n', out, err) ->
  closed (fun out => content <$> of_type PriceFix (nets out)) roundPrices fix_of (config n) c n' out.
Proof.
  intros Hpub HL Hh. unfold closed, fix_of, processCollectedPrices. destruct Hh as (_ & Hi & _). simpl. rewrite Hi.
  assert (Hlk : is_locked (<[k:=true]> (locked (roundPrices n))) k = true) by (unfold is_locked; by rewrite lookup_insert_eq).
  case_bool_decide as Hrole; simpl; [|by intros [= <- <- _]]. rewrite GetInt64Med_GetIntMed.
  case_bool_decide as Hnil; [rewrite Hnil; by intros [= <- <- _]|].
  destruct (GetIntMed_Ok _ Hnil) as [v ->]. unfold PublishPriceFixMessage, publish, PublishMessage. rewrite Hpub.
  intros [= <- <- _]. split; [done|]. split; [done|]. rewrite sends_one by done. unfold content, fix_content. simpl.
  by destruct HL as [->|?].
Qed.

Lemma timeout_prices n c it : price_timer it -> holds (roundPrices n) k c -> quorum c ->
  handle_item E r n it = fst (processCollectedPrices E r n k ts).
Proof.
  intros -> (_ & Hi & Hlk & _) Hq. simpl. unfold startPriceCollectionTimeout.
  rewrite Hlk, Hi, length_fmap, (proj2 (Z.leb_le _ _)) by done. by destruct (processCollectedPrices E r n k ts) as [[? ?] ?].
Qed.
Lemma timeout_prices_late n it : price_timer it -> is_locked (locked (roundPrices n)) k = true -> handle_item E r n it = (n, []).
Proof. intros -> Hlk. simpl. unfold startPriceCollectionTimeout. by rewrite Hlk. Qed.

(** The prices of at least half of the nodes, in any order, make the leader send
    one fix, and a follower none. *)
Lemma fix_sent l n (c : list (string * Z)) ms tm :
  e_publish (a_raft E) = None -> GetHostId r = L \/ GetRole r <> Leader ->
  Forall (triggers_only k) (recvs l) -> fresh (roundPrices n) k ->
  of_item PriceData l = (Recv <$> ms) ++ tm -> content <$> ms = price_content <$> c -> Forall price_timer tm ->
  NoDup c.*1 -> c <> [] -> (length c <= N)%nat -> quorum c -> ((length c < N)%nat -> tm <> []) ->
  content <$> of_type PriceFix (nets (handle_items E r n l).2) = fix_of c.
Proof.
  intros Hpub HL Htr Hfr Hl Hms Htm Hnd Hne Hlen Hq Hmiss.
  apply (collected PriceData (fun out => content <$> of_type PriceFix (nets out)) roundPrices price_content price_timer
    fix_of (config n)) with (ms := ms) (tm := tm); try done.
  - apply sends_app.
  - intros T' n1 n' out HT Hf. split; [by apply (fr_prices _ _ _ _ _ Hf)|by eapply (other_answers_none PriceData)].
  - intros n1 c1 s x m n' out Hc Hh Hs Hm Hr. simpl in Hr.
    rewrite (handle_content _ _ _ _ (price_msg k ts (s, x))) in Hr by (by rewrite Hm).
    destruct (price_store E r k ts Hk0 n1 c1 s x Hh Hs) as [Hh' He]. rewrite He in Hr.
    destruct (length c1 =? _)%nat.
    + destruct (processCollectedPrices _ _ _ _ _) as [[n2 o2] e2] eqn:Hp. injection Hr as <- <-. rewrite <- Hc.
      by eapply (process_prices_closed (storeRoundPriceData n1 k x s)).
    + destruct (length c1 =? 0)%nat; injection Hr as <- <-; by split_and!; destruct Hh' as (? & ? & ? & ?).
  - intros n1 c1 it n' out Hit Hc Hh Hq1 Hr. rewrite (timeout_prices _ _ _ Hit Hh Hq1) in Hr.
    destruct (processCollectedPrices _ _ _ _ _) as [[n2 o2] e2] eqn:Hp. injection Hr as <- <-. rewrite <- Hc.
    by eapply process_prices_closed.
  - intros n1 it. by apply timeout_prices_late.
Qed.

(** A fix makes a node sign it and send the proof, once. *)
Lemma proof_sent l n v sig :
  e_publish (a_raft E) = None -> GetLeader r = L -> Forall (triggers_only k) (recvs l) ->
  content <$> of_type PriceFix (recvs l) = [fix_content v] -> is_locked (roundPriceFixes n) k = false ->
  a_sign E v ts (c_Name (config n)) = Ok sig ->
  content <$> of_type ProofMsg (nets (handle_items E r n l).2) = [proof_content v (GetHostId r, sig)].
Proof.
  intros Hpub HL Htr Hl Hfree Hsig.
  apply (stratum PriceFix (fun out => content <$> of_type ProofMsg (nets out))
    (fun its xs n' => config n' = config n /\
      ((recvs its = [] /\ xs = []) \/
       (content <$> recvs its = [fix_content v] /\ is_locked (roundPriceFixes n') k = false /\
        xs = [proof_content v (GetHostId r, sig)])))).
  - done.
  - apply sends_app.
  - intros xs n' [_ [[_ ->]|[? _]]]; done.
  - intros [m|? ?|?] its xs n1 n' out Ht [Hc Hi] Hh; [|done..]. destruct Hi as [[? _]|(Hm & Hn & ->)]; [done|].
    simpl in Hm, Hh. apply cons_eq in Hm as [Hm Hms]. apply fmap_nil_inv in Hms.
    rewrite (handle_content _ _ _ _ (mkMessage PriceFix L (json_Marshal (mkPriceFix k v ts)) 0)) in Hh by (by rewrite Hm).
    unfold HandleCustomMessage, HandlePriceFixMessage in Hh. cbn [Type_ Data SentFrom] in Hh.
    rewrite !bool_decide_false in Hh by done. rewrite bool_decide_true, json_roundtrip in Hh by done.
    cbn [pf_RoundID pf_PriceData pf_Timestamp] in Hh. rewrite (bool_decide_true (L = GetLeader r)) in Hh by done.
    cbn [negb] in Hh. rewrite Hn in Hh. cbn [config set_roundPriceFixes] in Hh. rewrite Hc, Hsig in Hh.
    unfold PublishProofMessage, publish, PublishMessage in Hh. rewrite Hpub in Hh.
    injection Hh as <- <-. exists []. split; [|split; [done|by left]].
    rewrite app_nil_r. symmetry.
    exact (sends_one ProofMsg (mkMessage ProofMsg (GetHostId r) (json_Marshal (mkProofMsg k v (Some sig) ts)) _) eq_refl).
  - intros T' its xs n1 n' out Ht Hf [Hc Hi]. split; [|by eapply (other_answers_none PriceFix)].
    split; [by rewrite (fr_config _ _ _ _ _ Hf)|]. destruct Hi as [?|(H1 & H2 & H3)]; [by left|right].
    by rewrite (fr_fixes _ _ _ _ _ Hf).
  - done.
  - split; [done|]. right. by rewrite recvs_of_item.
Qed.

(** The submission of a round. *)
Definition submission (cfg : Config) (v : int64) (d : list (string * list Z)) : SubmissionData :=
  mkSubmissionData (c_Name cfg) (mkGlobalAggregate (c_ID cfg) v k ts) (mkProof (c_ID cfg) k (concat d.*2)).

(** *** Proofs *)
(** A timer that a proof of value [v] started. *)
Definition proof_timer (v : int64) (it : item) : Prop := exists p, it = FireProofs (mkProofMsg k v p ts).

Lemma process_proofs_closed cfg n v d p n' out err :
  a_db E = None -> v <> 0 -> ts <> time_zero -> config n = cfg -> holds (roundProofs n) k d ->
  processCollectedProofs E n (mkProofMsg k v p ts) = (n', out, err) ->
  closed submissions roundProofs (fun d => [submission cfg v d]) cfg d n' out.
Proof.
  intros Hdb Hv Hts Hc (_ & Hi & _). unfold processCollectedProofs, PublishGlobalAggregateAndProof.
  cbn [pm_Value pm_RoundID pm_Timestamp ga_Value ga_Timestamp]. unfold IsZero.
  rewrite (proj2 (Z.eqb_neq v 0)), (proj2 (Z.eqb_neq ts time_zero)) by done. cbn [orb]. rewrite Hdb. intros [= <- <- _].
  split; [done|]. split; [simpl; unfold is_locked; by rewrite lookup_insert_eq|].
  unfold submission, submissions. simpl. by rewrite Hi, Hc.
Qed.

Lemma timeout_proofs n d v p : holds (roundProofs n) k d -> quorum d ->
  handle_item E r n (FireProofs (mkProofMsg k v p ts)) = fst (processCollectedProofs E n (mkProofMsg k v p ts)).
Proof.
  intros (_ & Hi & Hlk & _) Hq. simpl. unfold startProofCollectionTimeout. cbn [pm_RoundID].
  rewrite Hlk, Hi, length_fmap, (proj2 (Z.leb_le _ _)) by done. by destruct (processCollectedProofs E n _) as [[? ?] ?].
Qed.
Lemma timeout_proofs_late n v it :
  proof_timer v it -> is_locked (locked (roundProofs n)) k = true -> handle_item E r n it = (n, []).
Proof. intros [p ->] Hlk. simpl. unfold startProofCollectionTimeout. cbn [pm_RoundID]. by rewrite Hlk. Qed.

(** A proof of value [v] for an open round. *)
Lemma proof_store_one n d s v p : holds (roundProofs n) k d -> s ∉ d.*1 ->
  let n1 := storeRoundProofData n k p s in
  holds (roundProofs n1) k (d ++ [(s, p)]) /\
  HandleCustomMessage E r n (proof_msg k ts (s, (v, p))) =
    (if (length d =? e_peers (a_raft E))%nat then processCollectedProofs E n1 (mkProofMsg k v (Some p) ts)
     else if (length d =? 0)%nat then (n1, [SpawnProofTimeout (mkProofMsg k v (Some p) ts)], None)
     else (n1, [], None)).
Proof.
  set (with_value := fun sp : string * list Z => (sp.1, (v, sp.2))).
  assert (Hsent : forall d0, sent_proofs (with_value <$> d0) = d0).
  { intros d0. unfold sent_proofs. rewrite <- list_fmap_compose. rewrite <- (list_fmap_id d0) at 2.
    apply list_fmap_ext. by intros _ [] _. }
  intros Hh Hs. rewrite <- (Hsent d) in Hh, Hs. rewrite sent_proofs_fst in Hs.
  destruct (proof_store E r k ts Hk0 n (with_value <$> d) s v p Hh Hs) as [Hh' He]. rewrite length_fmap in He.
  split; [|exact He]. change [(s, (v, p))] with (with_value <$> [(s, p)]) in Hh'. by rewrite <- fmap_app, Hsent in Hh'.
Qed.

(** The proofs of at least half of the nodes, in any order, make a node store one
    submission. *)
Lemma submission_stored l n v (d : list (string * list Z)) ms tm :
  a_db E = None -> v <> 0 -> ts <> time_zero -> Forall (triggers_only k) (recvs l) -> fresh (roundProofs n) k ->
  of_item ProofMsg l = (Recv <$> ms) ++ tm -> content <$> ms = proof_content v <$> d -> Forall (proof_timer v) tm ->
  NoDup d.*1 -> d <> [] -> (length d <= N)%nat -> quorum d -> ((length d < N)%nat -> tm <> []) ->
  submissions (handle_items E r n l).2 = [submission (config n) v d].
Proof.
  intros Hdb Hv Hts Htr Hfr Hl Hms Htm Hnd Hne Hlen Hq Hmiss.
  apply (collected ProofMsg submissions roundProofs (proof_content v) (proof_timer v)
    (fun d => [submission (config n) v d]) (config n)) with (ms := ms) (tm := tm); try done.
  - apply submissions_app.
  - intros T' n1 n' out HT Hf. split; [by apply (fr_proofs _ _ _ _ _ Hf)|by apply (fr_submissions _ _ _ _ _ Hf)].
  - intros n1 d1 s x m n' out Hc Hh Hs Hm Hr. simpl in Hr.
    rewrite (handle_content _ _ _ _ (proof_msg k ts (s, (v, x)))) in Hr by (by rewrite Hm).
    destruct (proof_store_one n1 d1 s v x Hh Hs) as [Hh' He]. rewrite He in Hr. destruct (length d1 =? _)%nat.
    + destruct (processCollectedProofs _ _ _) as [[n2 o2] e2] eqn:Hp. injection Hr as <- <-.
      by eapply (process_proofs_closed _ (storeRoundProofData n1 k x s)).
    + destruct (length d1 =? 0)%nat; injection Hr as <- <-; by split_and!; destruct Hh' as (? & ? & ? & ?).
  - intros n1 d1 it n' out [p ->] Hc Hh Hq1 Hr. rewrite (timeout_proofs _ _ _ _ Hh Hq1) in Hr.
    destruct (processCollectedProofs _ _ _) as [[n2 o2] e2] eqn:Hp. injection Hr as <- <-.
    by eapply process_proofs_closed.
  - intros n1 it. by apply timeout_proofs_late.
Qed.
(** *** Timers *)
Lemma fresh_at {A} (rd rd' : RoundData A) : at_round rd' k = at_round rd k -> fresh rd k -> fresh rd' k.
Proof. unfold at_round, fresh. intros [= Hi Hs Hl]. by rewrite Hi, Hs, Hl. Qed.

(** The first message of its type starts a timer of that type. *)
Lemma first_starts (T : string) (P : Aggregator -> Prop) m :
  (forall T' n n' out, T' <> T -> framed k T' n n' out -> P n -> P n') ->
  (forall n n' out, P n -> handle_item E r n (Recv m) = (n', out) -> exists it, it ∈ started out /\ item_type it = T) ->
  forall l n rest, Forall (triggers_only k) (recvs l) -> of_item T l = Recv m :: rest -> P n ->
  exists it, it ∈ started (handle_items E r n l).2 /\ item_type it = T.
Proof.
  intros Hother Hown. induction l as [|it0 l IH]; intros n rest Htr Hl HP; [done|]. simpl.
  destruct (triggers_cons _ _ _ Htr) as [Hm Htr']. destruct (handle_item E r n it0) as [n1 o1] eqn:Hh.
  destruct (decide (item_type it0 = T)) as [Ht|Ht].
  - rewrite of_item_cons_eq in Hl by done. apply cons_eq in Hl as [-> _].
    destruct (Hown _ _ _ HP Hh) as (it & Hit & HT). exists it. destruct (handle_items E r n1 l).
    split; [|done]. simpl. rewrite started_app. apply elem_of_app. by left.
  - rewrite of_item_cons_ne in Hl by done.
    destruct (IH n1 rest Htr' Hl) as (it & Hit & HT); [by eapply Hother; [|eapply item_framed|]|].
    exists it. destruct (handle_items E r n1 l). split; [|done]. simpl in *. rewrite started_app. apply elem_of_app. by right.
Qed.

(** The prices have started the timer of the round. *)
Lemma price_timers l n (c : list (string * Z)) ms tm :
  Forall (triggers_only k) (recvs l) -> fresh (roundPrices n) k -> timers l ≡ₚ started (handle_items E r n l).2 ->
  of_item PriceData l = (Recv <$> ms) ++ tm -> recvs tm = [] -> content <$> ms = price_content <$> c -> c <> [] ->
  Forall price_timer tm /\ ((length c < N)%nat -> tm <> []).
Proof.
  intros Htr Hfr Hst Hl Htm Hms Hne. pose proof (timers_of _ _ _ _ _ Hl Htm Hst) as Hiff. split.
  - apply Forall_forall. intros it [Hin Ht]%Hiff. destruct (started_by _ _ _ _ _ Hin) as (m & Hm & Hsm).
    destruct it as [|k' ts'|]; [done| |done]. destruct Hsm as (HT & d & Hd & -> & ->).
    assert (content m ∈ price_content <$> c) as Hc.
    { rewrite <- Hms. apply list_elem_of_fmap_2. rewrite <- (recvs_split _ _ _ _ Hl Htm). by apply list_elem_of_filter. }
    apply list_elem_of_fmap in Hc as ([s' x] & Hc & _). unfold content, price_content in Hc. injection Hc as _ _ Hc.
    rewrite Hc, json_roundtrip in Hd. by injection Hd as <-.
  - intros Hlen ->. destruct c as [|[s x] c]; [done|]. destruct ms as [|m ms]; [done|].
    rewrite !fmap_cons in Hms. apply cons_eq in Hms as [Hm _].
    destruct (first_starts PriceData (fun n => fresh (roundPrices n) k) m) with (l := l) (n := n) (rest := (Recv <$> ms) ++ [])
      as (it & Hit & HT); try done.
    + intros T' n1 n2 out HT Hf. apply fresh_at. by apply (fr_prices _ _ _ _ _ Hf).
    + intros n1 n2 out Hf Hr. simpl in Hr. rewrite (handle_content _ _ _ _ (price_msg k ts (s, x))) in Hr by (by rewrite Hm).
      destruct (price_store E r k ts Hk0 n1 [] s x (fresh_holds _ _ Hf)) as [_ He]; [by apply not_elem_of_nil|].
      rewrite He in Hr. unfold N in Hlen. simpl in Hlen.
      rewrite (proj2 (Nat.eqb_neq _ _)) in Hr by (simpl; lia). injection Hr as _ <-. exists (FirePrices k ts). split; [by left|done].
    + by apply (not_elem_of_nil it), Hiff.
Qed.

(** The proofs have started the timer of the round. *)
Lemma proof_timers l n v (d : list (string * list Z)) ms tm :
  Forall (triggers_only k) (recvs l) -> fresh (roundProofs n) k -> timers l ≡ₚ started (handle_items E r n l).2 ->
  of_item ProofMsg l = (Recv <$> ms) ++ tm -> recvs tm = [] -> content <$> ms = proof_content v <$> d -> d <> [] ->
  Forall (proof_timer v) tm /\ ((length d < N)%nat -> tm <> []).
Proof.
  intros Htr Hfr Hst Hl Htm Hms Hne. pose proof (timers_of _ _ _ _ _ Hl Htm Hst) as Hiff. split.
  - apply Forall_forall. intros it [Hin Ht]%Hiff. destruct (started_by _ _ _ _ _ Hin) as (m & Hm & Hsm).
    destruct it as [| |pm]; [done|done|]. destruct Hsm as (HT & Hd).
    assert (content m ∈ proof_content v <$> d) as Hc.
    { rewrite <- Hms. apply list_elem_of_fmap_2. rewrite <- (recvs_split _ _ _ _ Hl Htm). by apply list_elem_of_filter. }
    apply list_elem_of_fmap in Hc as ([s' x] & Hc & _). unfold content, proof_content in Hc. injection Hc as _ _ Hc.
    rewrite Hc, json_roundtrip in Hd. injection Hd as <-. by eexists.
  - intros Hlen ->. destruct d as [|[s x] d]; [done|]. destruct ms as [|m ms]; [done|].
    rewrite !fmap_cons in Hms. apply cons_eq in Hms as [Hm _].
    destruct (first_starts ProofMsg (fun n => fresh (roundProofs n) k) m) with (l := l) (n := n) (rest := (Recv <$> ms) ++ [])
      as (it & Hit & HT); try done.
    + intros T' n1 n2 out HT Hf. apply fresh_at. by apply (fr_proofs _ _ _ _ _ Hf).
    + intros n1 n2 out Hf Hr. simpl in Hr. rewrite (handle_content _ _ _ _ (proof_msg k ts (s, (v, x)))) in Hr by (by rewrite Hm).
      destruct (proof_store_one n1 [] s v x (fresh_holds _ _ Hf)) as [_ He]; [by apply not_elem_of_nil|].
      rewrite He in Hr. unfold N in Hlen. simpl in Hlen.
      rewrite (proj2 (Nat.eqb_neq _ _)) in Hr by (simpl; lia). injection Hr as _ <-. eexists. split; [by left|done].
    + by apply (not_elem_of_nil it), Hiff.
Qed.
End strata.
End Strata.

(** ** The nodes together *)
Module Cluster.
Import Strata.
Section network.
Context `{HC : Crypto} {Claws : CryptoLaws HC}.

(** A node of the config: what it runs in, its raft state, its aggregator, its
    signing key, and the messages and timers in the order it handles them. *)
Record Peer : Type := mkPeer {
  p_env : AEnv; p_raft : Raft; p_node : Aggregator; p_key : PrivateKey; p_inbox : list item
}.

Definition p_out (p : Peer) : list aeffect := (handle_items (p_env p) (p_raft p) (p_node p) (p_inbox p)).2.
Definition p_sends (p : Peer) : list Message := nets (p_out p).
Definition p_stores (p : Peer) : list SubmissionData := submissions (p_out p).
Definition p_host (p : Peer) : string := GetHostId (p_raft p).
Definition p_price (p : Peer) : Z := own_price (p_env p) (config (p_node p)).

(** The timers of type [T] fire after the messages of that type have come. *)
Definition in_time (T : string) (l : list item) : Prop :=
  of_item T l = (Recv <$> recvs (of_item T l)) ++ timers (of_item T l).

(** The topic delivers to a node what was published, the node's own messages
    too, in some order; each timer the node starts fires, once. *)
Record delivered (trigger : Message) (ps : list Peer) (p : Peer) : Prop := {
  dl_messages : recvs (p_inbox p) ≡ₚ trigger :: (ps ≫= p_sends);
  dl_timers : timers (p_inbox p) ≡ₚ started (p_out p);
  dl_prices : in_time PriceData (p_inbox p);
  dl_proofs : in_time ProofMsg (p_inbox p)
}.

(** A node that has nothing of round [k] yet, follows leader [L], and can reach
    the topic, the database and its signing key. *)
Record ready (cfg : Config) (L : string) (k : int32) (ts : Time) (peers : nat) (p : Peer) : Prop := {
  rd_config : config (p_node p) = cfg;
  rd_leader : GetLeader (p_raft p) = L;
  rd_role : GetRole (p_raft p) = Leader <-> p_host p = L;
  rd_publish : e_publish (a_raft (p_env p)) = None;
  rd_db : a_db (p_env p) = None;
  rd_peers : e_peers (a_raft (p_env p)) = peers;
  rd_triggers : is_locked (roundTriggers (p_node p)) k = false;
  rd_prices : fresh (roundPrices (p_node p)) k;
  rd_fixes : is_locked (roundPriceFixes (p_node p)) k = false;
  rd_proofs : fresh (roundProofs (p_node p)) k;
  rd_price : in_int64 (p_price p);
  rd_signs : forall v, exists sig, a_sign (p_env p) v ts (c_Name cfg) = Ok sig /\
    Signing.MakeGlobalAggregateProof (p_key p) v ts (c_Name cfg) = Some (Ok sig) /\ Forall (fun b => 0 <= b < 256) sig
}.

(** *** What is published, by type *)
Lemma trigger_nets E r n m : Type_ m = Trigger ->
  Forall (fun m' => Type_ m' <> Trigger) (nets (HandleTriggerMessage E r n m).1.2).
Proof.
  intros Ht. unfold HandleTriggerMessage. destruct (json_Unmarshal _) as [t|]; [|constructor].
  destruct (_ =? 0); [constructor|]. destruct (negb _); [constructor|]. unfold trigger_locked.
  destruct (is_locked _ _); [constructor|]. destruct (PublishPriceDataMessage _ _ _ _ _) as [out err] eqn:Hp.
  unfold PublishPriceDataMessage in Hp. published. simpl. eapply Forall_impl; [done|]. by intros x ->.
Qed.

Lemma answers_no_trigger T l :
  Forall (fun m' => Some (Type_ m') = answer_type T) l -> Forall (fun m' => Type_ m' <> Trigger) l.
Proof.
  intros Hl. eapply Forall_impl; [exact Hl|]. simpl. intros x Hx Ht. rewrite Ht in Hx. unfold answer_type in Hx.
  repeat case_bool_decide; done.
Qed.

(** Only the leader's job sends a trigger. *)
Lemma handle_no_trigger E r n m :
  Forall (fun m' => Type_ m' <> Trigger) (nets (HandleCustomMessage E r n m).1.2).
Proof.
  unfold HandleCustomMessage. case_bool_decide; [by apply trigger_nets|].
  case_bool_decide as Hp. { pose proof (price_framed E r n m 0) as Hf.
    destruct (HandlePriceDataMessage E r n m) as [[n' out] e]. by eapply answers_no_trigger, fr_nets. }
  case_bool_decide as Hx. { pose proof (fix_framed E r n m 0) as Hf.
    destruct (HandlePriceFixMessage E r n m) as [[n' out] e]. by eapply answers_no_trigger, fr_nets. }
  case_bool_decide as Hr; [|constructor]. pose proof (proof_framed E n m 0) as Hf.
  destruct (HandleProofMessage E n m) as [[n' out] e]. by eapply answers_no_trigger, fr_nets.
Qed.

Lemma item_no_trigger E r n it : Forall (fun m' => Type_ m' <> Trigger) (nets (handle_item E r n it).2).
Proof.
  destruct it as [m|k ts|m]; simpl; [apply handle_no_trigger|..].
  - pose proof (price_timer_framed E r n 0 k ts) as Hf.
    destruct (startPriceCollectionTimeout E r n k ts) as [[n' out] e]. by eapply answers_no_trigger, fr_nets.
  - pose proof (proof_timer_framed E n 0 m) as Hf.
    destruct (startProofCollectionTimeout E n m) as [[n' out] e]. by eapply answers_no_trigger, fr_nets.
Qed.

Lemma items_no_trigger E r l : forall n, of_type Trigger (nets (handle_items E r n l).2) = [].
Proof.
  induction l as [|it l IH]; intros n; [done|]. simpl. pose proof (item_no_trigger E r n it) as Hm.
  destruct (handle_item E r n it) as [n1 o1]. specialize (IH n1).
  destruct (handle_items E r n1 l) as [n2 o2]. simpl in *. rewrite nets_app, of_type_app, IH, app_nil_r.
  induction Hm as [|x xs Hx _ IHx]; [done|]. by rewrite of_type_cons_ne.
Qed.

Lemma sends_bind T (ps : list Peer) :
  content <$> of_type T (ps ≫= p_sends) = ps ≫= fun p => content <$> of_type T (p_sends p).
Proof. induction ps as [|p ps IH]; [done|]. rewrite !bind_cons, of_type_app, fmap_app, IH. done. Qed.

Lemma bind_single {A B} (f : A -> list B) (g : A -> B) (l : list A) :
  (forall x, x ∈ l -> f x = [g x]) -> l ≫= f = g <$> l.
Proof.
  induction l as [|x l IH]; intros Hf; [done|]. rewrite bind_cons, fmap_cons, Hf, IH; [done| |by left].
  intros y Hy. apply Hf. by right.
Qed.
Lemma bind_none {A B} (f : A -> list B) (l : list A) : (forall x, x ∈ l -> f x = []) -> l ≫= f = [].
Proof. induction l as [|x l IH]; intros Hf; [done|]. rewrite bind_cons, Hf by (by left). apply IH. intros. apply Hf. by right. Qed.

#[local] Instance of_type_proper T : Proper ((≡ₚ) ==> (≡ₚ)) (of_type T).
Proof. intros l l' Hl. unfold of_type. by rewrite Hl. Qed.

Lemma fmap_perm_inv {A B} (f : A -> B) (l : list B) (c : list A) :
  l ≡ₚ f <$> c -> exists c', c' ≡ₚ c /\ l = f <$> c'.
Proof. intros Hp. symmetry in Hp. destruct (Permutation_map_inv f c (symmetry Hp)) as (c' & -> & Hc). by exists c'. Qed.

Lemma median_in64 l v : Forall in_int64 l -> fst (GetIntMed l) = Ok v -> in_int64 v.
Proof.
  intros Hl. unfold GetIntMed. destruct (bool_decide _); [done|]. rewrite <- (sort_ints_perm l) in Hl.
  generalize dependent (sort_ints l). intros s Hs. cbv zeta. generalize (length s / 2)%nat. intros i.
  destruct (Nat.even (length s)); cbn [fst]; intros Hv; injection Hv as <-; [unfold mid64; apply wrap64_in|].
  rewrite list_lookup_total_alt. destruct (s !! i) as [x|] eqn:Hx; [|by vm_compute].
  rewrite Forall_lookup in Hs. by eapply Hs.
Qed.
(** *** The round *)
Section round.
Context (cfg : Config) (L : string) (k : int32) (ts : Time) (peers : nat) (ps : list Peer) (trigger : Message).
Hypothesis Hk : late_round k.
Hypothesis Hk0 : k <> 0.
Hypothesis Hready : Forall (ready cfg L k ts peers) ps.
Hypothesis Hmax : (length ps <= S peers)%nat.
Hypothesis Hhalf : Z.quot (Z.of_nat peers + 1) 2 <= Z.of_nat (length ps).
Hypothesis Hhosts : NoDup (p_host <$> ps).
Hypothesis HL : L ∈ p_host <$> ps.
Hypothesis Htrigger : content trigger = trigger_content k L ts.
Hypothesis Hcast : Forall (delivered trigger ps) ps.

Lemma ready_of p : p ∈ ps -> ready cfg L k ts peers p.
Proof. rewrite Forall_forall in Hready. apply Hready. Qed.
Lemma delivered_of p : p ∈ ps -> delivered trigger ps p.
Proof. rewrite Forall_forall in Hcast. apply Hcast. Qed.
Lemma peers_quorum {A} (f : Peer -> A) p (c : list A) : p ∈ ps -> c ≡ₚ f <$> ps ->
  c <> [] /\ (length c <= N (p_env p))%nat /\ quorum (p_env p) c.
Proof.
  intros Hp Hc. pose proof (rd_peers _ _ _ _ _ _ (ready_of p Hp)) as Hpeers.
  assert (length c = length ps) as Hlen by (rewrite Hc; apply length_fmap).
  unfold quorum, N, SubscribersCount. rewrite Hpeers, Hlen. split; [|done].
  intros ->. by destruct ps; [apply not_elem_of_nil in Hp|].
Qed.

Lemma inbox_trigger p : p ∈ ps -> content <$> of_type Trigger (recvs (p_inbox p)) = [trigger_content k L ts].
Proof.
  intros Hp. apply Permutation_singleton_r.
  rewrite (dl_messages _ _ _ (delivered_of p Hp)), of_type_cons_eq, fmap_cons, sends_bind, Htrigger.
  - rewrite bind_none; [done|]. intros q _. unfold p_sends, p_out. by rewrite items_no_trigger.
  - change (fst (fst (content trigger)) = Trigger). by rewrite Htrigger.
Qed.

Lemma inbox_triggers_only p : p ∈ ps -> Forall (triggers_only k) (recvs (p_inbox p)).
Proof. intros Hp. eapply triggers_only_all. by apply inbox_trigger. Qed.

Lemma inbox_other T p : T <> Trigger -> p ∈ ps ->
  content <$> of_type T (recvs (p_inbox p)) ≡ₚ ps ≫= fun q => content <$> of_type T (p_sends q).
Proof.
  intros HT Hp. rewrite (dl_messages _ _ _ (delivered_of p Hp)), of_type_cons_ne, sends_bind; [done|].
  intros Ht. apply HT. rewrite <- Ht. change (fst (fst (content trigger)) = Trigger). by rewrite Htrigger.
Qed.

(** If every node [q] sends [f (g q)] alone of type [T], every node receives
    them all, in some order. *)
Lemma inbox_all {A} T (f : A -> string * string * RawMessage) (g : Peer -> A) p : T <> Trigger -> p ∈ ps ->
  (forall q, q ∈ ps -> content <$> of_type T (p_sends q) = [f (g q)]) ->
  exists c, c ≡ₚ g <$> ps /\ content <$> of_type T (recvs (p_inbox p)) = f <$> c.
Proof.
  intros HT Hp Hall. apply fmap_perm_inv. rewrite (inbox_other T p HT Hp). rewrite <- list_fmap_compose.
  by rewrite (bind_single _ (f ∘ g) ps Hall).
Qed.

Lemma inbox_prices p : p ∈ ps ->
  exists c, c ≡ₚ (fun q => (p_host q, p_price q)) <$> ps /\
    content <$> of_type PriceData (recvs (p_inbox p)) = price_content k ts <$> c.
Proof.
  intros Hp. apply inbox_all; [done|done|]. intros q Hq. destruct (ready_of q Hq).
  by eapply price_sent; [| | | |apply inbox_trigger|].
Qed.

Context (v : int64).
Hypothesis Hv : fst (GetIntMed (FilterNegative (p_price <$> ps))) = Ok v.

Lemma fmap_fst_snd {A B C} (f : A -> B) (g : A -> C) (l : list A) :
  ((fun x => (f x, g x)) <$> l).*1 = f <$> l /\ ((fun x => (f x, g x)) <$> l).*2 = g <$> l.
Proof. by rewrite <- !list_fmap_compose. Qed.

Lemma leader_fix p : p ∈ ps ->
  content <$> of_type PriceFix (p_sends p) = if bool_decide (p_host p = L) then [fix_content k L ts v] else [].
Proof.
  intros Hp. destruct (inbox_prices p Hp) as (c & Hc & Hin). pose proof (ready_of p Hp) as Hr. destruct Hr.
  pose proof (delivered_of p Hp) as Hd. destruct Hd. destruct (fmap_fst_snd p_host p_price ps) as [H1 H2].
  destruct (peers_quorum _ p c Hp Hc) as (Hne & Hlen & Hq).
  assert (fix_of (p_raft p) k L ts c = if bool_decide (p_host p = L) then [fix_content k L ts v] else []) as <-.
  { unfold fix_of. rewrite <- (bool_decide_ext (GetRole (p_raft p) = Leader) (p_host p = L)) by done.
    replace (fst (GetIntMed (FilterNegative c.*2))) with (@Ok int64 v); [done|]. rewrite <- Hv. apply GetIntMed_perm.
    unfold FilterNegative. by rewrite Hc, H2. }
  rewrite <- recvs_of_item in Hin.
  destruct (price_timers (p_env p) (p_raft p) k Hk Hk0 ts (p_inbox p) (p_node p) c _ _ (inbox_triggers_only p Hp) rd_prices0
    dl_timers0 dl_prices0 (recvs_timers _) Hin Hne) as [Htm Hmiss].
  eapply fix_sent; try done.
  - destruct (decide (GetRole (p_raft p) = Leader)) as [Hl|Hl]; [left; by apply rd_role0|by right].
  - by apply inbox_triggers_only.
  - by rewrite Hc, H1.
Qed.

Lemma bind_one (x : string * string * RawMessage) (l : list Peer) : NoDup (p_host <$> l) -> L ∈ p_host <$> l ->
  (l ≫= fun q => if bool_decide (p_host q = L) then [x] else []) = [x].
Proof.
  induction l as [|q l IH]; intros Hnd Hin; [by apply not_elem_of_nil in Hin|]. rewrite fmap_cons in Hnd, Hin.
  apply NoDup_cons in Hnd as [Hq Hnd]. rewrite bind_cons. case_bool_decide as Heq.
  - rewrite bind_none; [done|]. intros y Hy. rewrite bool_decide_false; [done|]. intros Hy'. apply Hq.
    rewrite Heq, <- Hy'. by apply list_elem_of_fmap_2.
  - apply elem_of_cons in Hin as [?|?]; [congruence|]. by apply IH.
Qed.

Lemma bind_ext_in {A B} (f g : A -> list B) (l : list A) : (forall x, x ∈ l -> f x = g x) -> l ≫= f = l ≫= g.
Proof.
  induction l as [|x l IH]; intros Hf; [done|]. rewrite !bind_cons, Hf, IH; [done| |by left].
  intros y Hy. apply Hf. by right.
Qed.

Lemma inbox_fix p : p ∈ ps -> content <$> of_type PriceFix (recvs (p_inbox p)) = [fix_content k L ts v].
Proof.
  intros Hp. apply Permutation_singleton_r. rewrite (inbox_other PriceFix p) by done.
  by rewrite (bind_ext_in _ _ ps leader_fix), bind_one.
Qed.

(** The signature of node [p]. *)
Definition p_sig (p : Peer) : list Z := match a_sign (p_env p) v ts (c_Name cfg) with Ok sig => sig | Err _ => [] end.

Lemma p_sig_signs p : p ∈ ps -> a_sign (p_env p) v ts (c_Name cfg) = Ok (p_sig p) /\
  Signing.MakeGlobalAggregateProof (p_key p) v ts (c_Name cfg) = Some (Ok (p_sig p)) /\ Forall (fun b => 0 <= b < 256) (p_sig p).
Proof. intros Hp. destruct (rd_signs _ _ _ _ _ _ (ready_of p Hp) v) as (sig & H1 & H2 & H3). unfold p_sig. by rewrite H1. Qed.

Lemma inbox_proofs p : p ∈ ps ->
  exists d, d ≡ₚ (fun q => (p_host q, p_sig q)) <$> ps /\
    content <$> of_type ProofMsg (recvs (p_inbox p)) = proof_content k ts v <$> d.
Proof.
  intros Hp. apply inbox_all; [done|done|]. intros q Hq. destruct (ready_of q Hq).
  eapply proof_sent; try done; [by apply inbox_triggers_only|by apply inbox_fix|].
  rewrite rd_config0. by apply p_sig_signs.
Qed.

(** Every node stores one submission, with the signatures of all nodes that are up. *)
Lemma round_stored p : v <> 0 -> ts <> time_zero -> p ∈ ps ->
  exists d, d ≡ₚ (fun q => (p_host q, p_sig q)) <$> ps /\ p_stores p = [submission k ts cfg v d].
Proof.
  intros Hv0 Hts Hp. destruct (inbox_proofs p Hp) as (d & Hd & Hin). exists d. split; [done|].
  destruct (fmap_fst_snd p_host p_sig ps) as [H1 _]. pose proof (ready_of p Hp) as Hr. destruct Hr.
  pose proof (delivered_of p Hp) as Hdl. destruct Hdl. destruct (peers_quorum _ p d Hp Hd) as (Hne & Hlen & Hq).
  rewrite <- recvs_of_item in Hin.
  destruct (proof_timers (p_env p) (p_raft p) k Hk Hk0 ts (p_inbox p) (p_node p) v d _ _ (inbox_triggers_only p Hp) rd_proofs0
    dl_timers0 dl_proofs0 (recvs_timers _) Hin Hne) as [Htm Hmiss].
  rewrite <- rd_config0. eapply submission_stored; try done.
  - by apply inbox_triggers_only.
  - by rewrite Hd, H1.
Qed.

Lemma round_signed : Collector.signed_by v ts (c_Name cfg) (p_key <$> ps) (p_sig <$> ps).
Proof.
  unfold Collector.signed_by. apply Forall2_fmap, Forall_Forall2_diag, Forall_forall. intros p Hp.
  by apply (p_sig_signs p Hp).
Qed.

Lemma round_value_in64 : in_int64 v.
Proof.
  eapply median_in64; [|exact Hv]. unfold FilterNegative. apply Forall_forall. intros x Hx.
  apply list_elem_of_filter in Hx as [_ Hx]. apply list_elem_of_fmap in Hx as (p & -> & Hp).
  by apply (rd_price _ _ _ _ _ _ (ready_of p Hp)).
Qed.
End round.

(** What the leader's job publishes. *)
Lemma LeaderJob_trigger E r n n' m :
  LeaderJob E r n = (n', [Net m], None) ->
  content m = trigger_content (RoundID n') (GetHostId r) (e_now (a_raft E)).
Proof.
  unfold LeaderJob, PublishTriggerMessage, publish, PublishMessage. destruct (e_publish _); [done|].
  intros Hj. by injection Hj as <- <-.
Qed.

(** C1: a round of the whole network, of which at least half of the nodes are
    up: the leader's job publishes a trigger, every node that is up receives
    everything that is published, in an order of its own, each timer that a node
    starts fires after the messages it waits for, and at least one node has a
    price. Then there is one value, the median of the prices that are not
    negative, and, unless it is zero, every node that is up stores exactly one
    submission, which the DAL accepts and from which the reporter reads that value,
    the time of the trigger and the signatures of the nodes that are up in the
    order of the whitelist. *)
Theorem round_to_reporter Hex2Bytes map_order c cfg n0 lead trigger peers ps fh (rp : Reporter.Reporter) :
  (forall bs, Forall (fun b => 0 <= b < 256) bs -> Hex2Bytes (Text.EncodeToString bs) = bs) ->
  (forall l, map_order l ≡ₚ l) ->
  let k := RoundID (p_node lead) in
  let ts := e_now (a_raft (p_env lead)) in
  LeaderJob (p_env lead) (p_raft lead) n0 = (p_node lead, [Net trigger], None) -> k <> 0 -> late_round k ->
  ts <> time_zero -> lead ∈ ps -> NoDup (p_host <$> ps) ->
  Forall (ready cfg (p_host lead) k ts peers) ps -> Forall (delivered trigger ps) ps ->
  (length ps <= S peers)%nat -> Z.quot (Z.of_nat peers + 1) 2 <= Z.of_nat (length ps) ->
  NoDup (Collector.addresses (p_key <$> ps)) ->
  Forall (fun a => a ∈ Collector.CachedWhitelist c) (Collector.addresses (p_key <$> ps)) ->
  Collector.FeedHashes c !! c_Name cfg = Some fh -> length fh = 32%nat -> Forall (fun b => 0 <= b < 256) fh ->
  FilterNegative (p_price <$> ps) <> [] ->
  exists v, fst (GetIntMed (FilterNegative (p_price <$> ps))) = Ok v /\
    (v <> 0 -> forall p, p ∈ ps -> exists data out rp',
      p_stores p = [data] /\
      Collector.IncomingDataToOutgoingData map_order c data = (Ok out, false) /\
      Reporter.HandleWsMessage Hex2Bytes (Pipeline.dal_message out) rp = (rp', None) /\
      Reporter.GetLatestData (Reporter.LatestDataMap rp') (c_Name cfg) =
        Some (Reporter.mkSubmission (c_Name cfg) v (UnixMilli ts)
          (concat (omap (fun a => (list_to_map (zip (Collector.addresses (p_key <$> ps)) (p_sig cfg ts v <$> ps))
                                     : gmap Z (list Z)) !! a) (Collector.CachedWhitelist c))) fh)).
Proof.
  intros Hhex Hord k ts Hjob Hk0 Hk Hts Hlead Hhosts Hready Hcast Hmax Hhalf Hnd Hwl Hfh Hlen Hfhb Hne.
  destruct (GetIntMed_Ok _ Hne) as [v Hv]. exists v. split; [done|]. intros Hv0 p Hp.
  apply LeaderJob_trigger in Hjob. fold k ts in Hjob.
  assert (HL : p_host lead ∈ p_host <$> ps) by by apply list_elem_of_fmap_2.
  destruct (round_stored cfg _ k ts peers ps trigger Hk Hk0 Hready Hmax Hhalf Hhosts HL Hjob Hcast v Hv p Hv0 Hts Hp) as (d & Hd & Hst).
  assert (d.*2 ≡ₚ p_sig cfg ts v <$> ps) as Hsigs by (rewrite Hd; by rewrite <- list_fmap_compose).
  destruct (Pipeline.oracles_to_reporter Hex2Bytes Hhex map_order c v ts (c_Name cfg) (c_ID cfg) k (p_key <$> ps)
    (p_sig cfg ts v <$> ps) d.*2 fh rp) as (out & rp' & H1 & H2 & H3); try done.
  - intros Hnil. apply fmap_nil_inv in Hnil. rewrite Hnil in Hp. by apply not_elem_of_nil in Hp.
  - by eapply round_signed.
  - by eapply round_value_in64.
  - apply Forall_forall. intros sig Hin. apply list_elem_of_fmap in Hin as (q & -> & Hq).
    by apply (p_sig_signs cfg _ k ts peers ps Hready v q Hq).
  - by exists (submission k ts cfg v d), out, rp'.
Qed.
End network.
(** ** Witness: a leader and a follower of three nodes *)
#[local] Instance jfield_eq_dec {A} `{EqDecision A} : EqDecision (jfield A).
Proof. solve_decision. Defined.
#[local] Instance RawData_eq_dec : EqDecision RawData.
Proof. solve_decision. Defined.
#[local] Instance Message_eq_dec : EqDecision Message.
Proof. solve_decision. Defined.
#[local] Instance ProofMessage_eq_dec : EqDecision ProofMessage.
Proof. solve_decision. Defined.
#[local] Instance item_eq_dec : EqDecision item.
Proof. solve_decision. Defined.

Definition w_ts : Time := 3 * millisecond.
Definition w_cfg : Config := mkConfig 1 "X" 400.
Definition w_env (pk price : Z) : AEnv :=
  mkAEnv (mkEnv 0 w_ts 2 None) {[1 := mkLocalAggregate 1 price w_ts]} (fun _ _ _ => Ok (Collector.w_sig pk)) None.
Definition w_raft (host : string) (role : RoleType) : Raft := set_LeaderID "L" (set_Role role (NewRaftNode host second)).
Definition w_before : Aggregator := mkAggregator w_cfg ∅ (mkRoundData ∅ ∅ ∅) ∅ (mkRoundData ∅ ∅ ∅) 1.
Definition w_leader_node : Aggregator := set_RoundID 2 w_before.
Definition w_msg {T} `{JsonCodec T} (type from : string) (x : T) : Message := mkMessage type from (json_Marshal x) w_ts.

Definition w_trigger : Message := w_msg Trigger "L" (mkTrigger "L" 2 w_ts).
Definition w_price (s : string) (p : Z) : Message := w_msg PriceData s (mkPriceData 2 p w_ts).
Definition w_fix : Message := w_msg PriceFix "L" (mkPriceFix 2 5 w_ts).
Definition w_proof_of (pk : Z) : ProofMessage := mkProofMsg 2 5 (Some (Collector.w_sig pk)) w_ts.
Definition w_proof (s : string) (pk : Z) : Message := w_msg ProofMsg s (w_proof_of pk).

(** The third node is down, so that the timers end the waits for prices and
    proofs.  The follower handles the messages in another order than the leader:
    the fix before the prices, its own proof first. *)
Definition w_leader : @Peer Signing.toy_crypto :=
  @mkPeer Signing.toy_crypto (w_env 9 4) (w_raft "L" Leader) w_leader_node 9
    [Recv w_trigger; Recv (w_price "L" 4); Recv (w_price "F" 6); FirePrices 2 w_ts; Recv w_fix;
     Recv (w_proof "L" 9); Recv (w_proof "F" 4); FireProofs (w_proof_of 9)].
Definition w_follower : @Peer Signing.toy_crypto :=
  @mkPeer Signing.toy_crypto (w_env 4 6) (w_raft "F" Follower) w_before 4
    [Recv w_trigger; Recv w_fix; Recv (w_price "F" 6); Recv (w_proof "F" 4); Recv (w_price "L" 4);
     Recv (w_proof "L" 9); FireProofs (w_proof_of 4); FirePrices 2 w_ts].
Definition w_peers : list (@Peer Signing.toy_crypto) := [w_leader; w_follower].

Lemma w_ready p : p ∈ w_peers -> ready w_cfg "L" 2 w_ts 2 p.
Proof.
  assert (Hs : forall pk v, 0 <= pk < 256 -> exists sig, Ok (Collector.w_sig pk) = Ok sig /\
    @Signing.MakeGlobalAggregateProof Signing.toy_crypto pk v w_ts "X" = Some (Ok sig) /\ Forall (fun b : Z => 0 <= b < 256) sig).
  { intros pk v Hpk. exists (Collector.w_sig pk). split; [done|]. split; [reflexivity|by apply Pipeline.w_sig_bytes]. }
  intros [->|[->|Hp%not_elem_of_nil]%elem_of_cons]%elem_of_cons; [| |done].
  - split; try done; try (by vm_compute). intros v. apply (Hs 9). lia.
  - split; try done; try (by vm_compute). intros v. apply (Hs 4). lia.
Qed.

Lemma w_delivered p : p ∈ w_peers -> delivered w_trigger w_peers p.
Proof.
  intros [->|[->|Hp%not_elem_of_nil]%elem_of_cons]%elem_of_cons; [| |done].
  all: split; unfold in_time; apply (bool_decide_eq_true_1 _); by vm_compute.
Qed.

Lemma round_to_reporter_witness : exists data rp',
  @p_stores Signing.toy_crypto w_follower = [data] /\
  Reporter.GetLatestData (Reporter.LatestDataMap rp') "X" =
    Some (Reporter.mkSubmission "X" 5 3 (Collector.w_sig 9 ++ Collector.w_sig 4) Pipeline.w_fh).
Proof.
  destruct (@round_to_reporter Signing.toy_crypto Signing.toy_laws Pipeline.w_hex id Pipeline.w_collector w_cfg w_before
    w_leader w_trigger 2 w_peers Pipeline.w_fh Pipeline.w_reporter) as (v & Hv & Hall).
  - apply Pipeline.w_hex_encode.
  - done.
  - by vm_compute.
  - done.
  - by vm_compute.
  - done.
  - by left.
  - apply (bool_decide_eq_true_1 (NoDup _)). by vm_compute.
  - apply Forall_forall. apply w_ready.
  - apply Forall_forall. apply w_delivered.
  - by apply Nat.leb_le.
  - done.
  - apply (bool_decide_eq_true_1 (NoDup (A := Z) _)). by vm_compute.
  - apply (bool_decide_eq_true_1 (Forall (fun a : Z => a ∈ [9; 4]) [9; 4])). by vm_compute.
  - done.
  - done.
  - apply Pipeline.w_bytes. lia.
  - by vm_compute.
  - vm_compute in Hv. injection Hv as <-. destruct (Hall ltac:(done) w_follower) as (data & out & rp' & H1 & _ & _ & H2).
    + right. by left.
    + exists data, rp'. split; [exact H1|exact H2].
Defined.
End Cluster.
