(* ===== verification/Bus.v ===== *)
(** * Bus: messages between the parts of a node

    [node/pkg/bus]: one buffered channel per subscriber, publishing that never
    blocks, and the parsing of message parameters. *)

From S2P Require Import Prelude Errors Text Aggregator.
Import Text.

Local Open Scope Z_scope.

Module Bus.

Definition ADMIN : string := "admin".
Definition FETCHER : string := "fetcher".
Definition AGGREGATOR : string := "aggregator".
Definition REPORTER : string := "reporter".
Definition LIBP2P : string := "libp2p".
Definition START_AGGREGATOR_APP : string := "start_aggregator_app".
Definition STOP_AGGREGATOR_APP : string := "stop_aggregator_app".
Definition REFRESH_AGGREGATOR_APP : string := "refresh_aggregator_app".
Definition ACTIVATE_AGGREGATOR : string := "activate_aggregator".
Definition DEACTIVATE_AGGREGATOR : string := "deactivate_aggregator".
Definition RENEW_SIGNER : string := "renew_signer".
Definition START_FETCHER_APP : string := "start_fetcher_app".
Definition STOP_FETCHER_APP : string := "stop_fetcher_app".
Definition REFRESH_FETCHER_APP : string := "refresh_fetcher_app".
Definition STREAM_LOCAL_AGGREGATE : string := "local_aggregate".

(** An argument of type [any]: a string, a local aggregate, or something
    else. *)
Inductive any : Type :=
| AnyString (s : string)
| AnyLocalAggregate (a : Aggregator.LocalAggregate)
| AnyOther.

Record MessageContent : Type := mkContent { Command : string; Args : gmap string any }.

(** [Response] names the channel on which the sender waits. *)
Record Message : Type := mkMessage {
  From : string; To : string; Content : MessageContent; Response : nat
}.
Record MessageResponse : Type := mkResponse { Success : bool; r_error : option string }.

Record MessageBus : Type := mkBus { channels : gmap string (list Message); msgBuffer : nat }.

Definition New (bufferSize : nat) : MessageBus := mkBus ∅ bufferSize.

(** A second subscription replaces the channel of the first. *)
Definition Subscribe (id : string) (mb : MessageBus) : MessageBus :=
  mkBus (<[id := []]> (channels mb)) (msgBuffer mb).

Definition Publish (msg : Message) (mb : MessageBus) : MessageBus * option error :=
  match channels mb !! To msg with
  | None => (mb, Some (Sentinel ErrBusChannelNotFound))
  | Some ch =>
      if (length ch <? msgBuffer mb)%nat
      then (mkBus (<[To msg := ch ++ [msg]]> (channels mb)) (msgBuffer mb), None)
      else (mb, Some (Sentinel ErrBusMsgPublishFail))
  end.

(** The subscriber takes the next message; [None] while there is none. *)
Definition receive (id : string) (mb : MessageBus) : option (Message * MessageBus) :=
  ch ← channels mb !! id;
  match ch with
  | [] => None
  | msg :: ch => Some (msg, mkBus (<[id := ch]> (channels mb)) (msgBuffer mb))
  end.

Definition parse_param (bits : Z) (msg : Message) (param : string) : res Z :=
  match Args (Content msg) !! param with
  | None => Err ErrBusParamNotFound
  | Some (AnyString idPayload) =>
      match ParseInt bits idPayload with
      | None => Err ErrBusParseParamFail
      | Some id => Ok id
      end
  | Some _ => Err ErrBusConvertParamFail
  end.
Definition ParseInt64MsgParam (msg : Message) (param : string) : res int64 :=
  parse_param 64 msg param.
Definition ParseInt32MsgParam (msg : Message) (param : string) : res int32 :=
  match parse_param 32 msg param with Err err => Err err | Ok id => Ok (wrap32 id) end.
Definition ParseStringMsgParam (msg : Message) (param : string) : res string :=
  match Args (Content msg) !! param with
  | None => Err ErrBusParamNotFound
  | Some (AnyString payload) => Ok payload
  | Some _ => Err ErrBusConvertParamFail
  end.

(** What is sent on the message's response channel. *)
Definition HandleMessageError (err : error) (msg : Message) : list (nat * MessageResponse) :=
  [(Response msg, mkResponse false (Some (Error err)))].

(** ** Theorems *)
Fixpoint publish_all (msgs : list Message) (mb : MessageBus) : MessageBus * list (option error) :=
  match msgs with
  | [] => (mb, [])
  | m :: msgs =>
      let '(mb, e) := Publish m mb in
      let '(mb, es) := publish_all msgs mb in (mb, e :: es)
  end.

Lemma publish_all_spec id msgs : forall mb ch,
  channels mb !! id = Some ch -> (length ch <= msgBuffer mb)%nat -> Forall (fun m => To m = id) msgs ->
  let room := (msgBuffer mb - length ch)%nat in
  publish_all msgs mb =
    (mkBus (<[id := ch ++ take room msgs]> (channels mb)) (msgBuffer mb),
     replicate (Nat.min room (length msgs)) None ++
     replicate (length msgs - room) (Some (Sentinel ErrBusMsgPublishFail))).
Proof.
  induction msgs as [|m msgs IH]; intros mb ch Hch Hlen Hto; simpl.
  - rewrite take_nil, app_nil_r, insert_id by done. rewrite Nat.min_0_r. by destruct mb.
  - apply Forall_cons in Hto as [Hm Hto]. unfold Publish. rewrite Hm, Hch.
    destruct (length ch <? msgBuffer mb)%nat eqn:Hroom.
    + apply Nat.ltb_lt in Hroom.
      assert (exists room, msgBuffer mb - length ch = S room)%nat as [room Hr]
        by (exists (msgBuffer mb - length ch - 1)%nat; lia).
      rewrite (IH _ (ch ++ [m])); simpl; [|by rewrite lookup_insert_eq|rewrite length_app; simpl; lia|done].
      rewrite length_app. simpl. replace (msgBuffer mb - (length ch + 1))%nat with room by lia.
      rewrite Hr. simpl. by rewrite insert_insert_eq, <- app_assoc.
    + apply Nat.ltb_ge in Hroom. rewrite (IH mb ch) by done.
      replace (msgBuffer mb - length ch)%nat with 0%nat by lia. simpl. by rewrite Nat.sub_0_r.
Qed.

(** Publishing never blocks: of the messages sent to a fresh subscriber
    that does not read, as many as the buffer holds are delivered, in order,
    every later one fails with an error, and no other subscriber is touched. *)
Theorem bus_bounded_fifo mb id msgs :
  Forall (fun m => To m = id) msgs ->
  exists mb', publish_all msgs (Subscribe id mb) =
      (mb', replicate (Nat.min (msgBuffer mb) (length msgs)) None ++
            replicate (length msgs - msgBuffer mb) (Some (Sentinel ErrBusMsgPublishFail))) /\
    channels mb' !! id = Some (take (msgBuffer mb) msgs) /\
    forall id', id' <> id -> channels mb' !! id' = channels mb !! id'.
Proof.
  intros Hto. rewrite (publish_all_spec id msgs _ []); [|simpl; by rewrite lookup_insert_eq|simpl; lia|done].
  simpl. rewrite Nat.sub_0_r. eexists. split; [reflexivity|]. simpl. split; [by rewrite lookup_insert_eq|].
  intros id' Hne. by rewrite !lookup_insert_ne by done.
Qed.

Lemma bus_bounded_fifo_witness : exists mb',
  fst (publish_all [mkMessage "a" "b" (mkContent "x" ∅) 0; mkMessage "a" "b" (mkContent "y" ∅) 0]
    (Subscribe "b" (New 1))) = mb'.
Proof.
  destruct (bus_bounded_fifo (New 1) "b"
    [mkMessage "a" "b" (mkContent "x" ∅) 0; mkMessage "a" "b" (mkContent "y" ∅) 0]) as (mb' & H & _);
    [by repeat constructor|]. exists mb'. by rewrite H.
Defined.

Lemma ParseInt32MsgParam_Itoa msg n :
  in_int32 n -> Args (Content msg) !! "id" = Some (AnyString (Itoa n)) ->
  ParseInt32MsgParam msg "id" = Ok n.
Proof.
  intros Hn Ha. unfold ParseInt32MsgParam, parse_param. rewrite Ha.
  rewrite ParseInt_Itoa_lemma by (lia || (change (32 - 1) with 31; int_lia)). by rewrite wrap32_id.
Qed.

(** An id written in decimal is read back as itself, and a text that
    denotes a number outside [int32] is an error: ids are never truncated. *)
Theorem bus_id_roundtrip msg n :
  Args (Content msg) !! "id" = Some (AnyString (Itoa n)) ->
  ParseInt32MsgParam msg "id" = if bool_decide (in_int32 n) then Ok n else Err ErrBusParseParamFail.
Proof.
  intros Ha. case_bool_decide as Hn; [by apply ParseInt32MsgParam_Itoa|].
  unfold ParseInt32MsgParam, parse_param. rewrite Ha, ParseInt_Itoa. change (32 - 1) with 31.
  destruct ((- 2 ^ 31 <=? n) && (n <? 2 ^ 31)) eqn:Hb; [|done]. breflect. exfalso. apply Hn. int_lia.
Qed.

Lemma bus_id_roundtrip_witness :
  ParseInt32MsgParam (mkMessage "a" "b" (mkContent "x" {["id" := AnyString (Itoa 2147483648)]}) 0) "id"
    = Err ErrBusParseParamFail.
Proof. rewrite (bus_id_roundtrip _ 2147483648); [reflexivity|reflexivity]. Defined.

End Bus.
