(* ===== verification/App.v ===== *)
(** * App: the aggregators of a node and their bulk writer

    [node/pkg/aggregator/app.go] and [globalaggregatebulkwriter.go].  Contexts
    are numbered; cancelling one ends the loops that run on it.  [handleMessage] is
    what one message of the bus does when no other is handled meanwhile; the code
    starts a goroutine for each and takes no lock, and [Runners] has these
    interleaved. *)

From S2P Require Import Prelude Errors Text Aggregator Bus.
Import Text Aggregator Bus.

Local Open Scope Z_scope.

(** ** The bulk writer *)
Module BulkWriter.

Definition DefaultPgsqlBulkInsertInterval : Z := 1000000000.
Definition DefaultBufferSize : nat := 2000.

Record GlobalAggregateBulkWriterConfig : Type := mkWriterConfig {
  wc_Interval : Z; wc_BufferSize : nat; wc_ConfigNames : list string
}.
Inductive GlobalAggregateBulkWriterOption : Type :=
| WithPgsqlBulkInsertInterval (interval : Z)
| WithBufferSize (size : nat)
| WithConfigNames (configNames : list string).
Definition apply_option (c : GlobalAggregateBulkWriterConfig) (o : GlobalAggregateBulkWriterOption)
    : GlobalAggregateBulkWriterConfig :=
  match o with
  | WithPgsqlBulkInsertInterval i => mkWriterConfig i (wc_BufferSize c) (wc_ConfigNames c)
  | WithBufferSize s => mkWriterConfig (wc_Interval c) s (wc_ConfigNames c)
  | WithConfigNames n => mkWriterConfig (wc_Interval c) (wc_BufferSize c) n
  end.

(** [w_running]: [ctx] is set, and with it the receiver of each name and the
    insert job run. *)
Record GlobalAggregateBulkWriter : Type := mkWriter {
  ReceiveChannels : list string;
  Buffer : list SubmissionData;
  BufferSize : nat;
  PgsqlBulkInsertInterval : Z;
  w_running : bool
}.

Definition NewGlobalAggregateBulkWriter (opts : list GlobalAggregateBulkWriterOption)
    : GlobalAggregateBulkWriter :=
  let config := foldl apply_option (mkWriterConfig DefaultPgsqlBulkInsertInterval DefaultBufferSize []) opts in
  mkWriter (remove_dups (wc_ConfigNames config)) [] (wc_BufferSize config) (wc_Interval config) false.

Definition set_running (b : bool) (s : GlobalAggregateBulkWriter) : GlobalAggregateBulkWriter :=
  mkWriter (ReceiveChannels s) (Buffer s) (BufferSize s) (PgsqlBulkInsertInterval s) b.
Definition set_Buffer (l : list SubmissionData) (s : GlobalAggregateBulkWriter) : GlobalAggregateBulkWriter :=
  mkWriter (ReceiveChannels s) l (BufferSize s) (PgsqlBulkInsertInterval s) (w_running s).

Definition Start (s : GlobalAggregateBulkWriter) : GlobalAggregateBulkWriter :=
  if w_running s then s else set_running true s.
Definition Stop (s : GlobalAggregateBulkWriter) : GlobalAggregateBulkWriter :=
  if negb (w_running s) then s else set_running false s.

(** One submission that [receiveEach] hands on; [None] while the buffer is
    full. *)
Definition receiveEach (data : SubmissionData) (s : GlobalAggregateBulkWriter)
    : option GlobalAggregateBulkWriter :=
  if (length (Buffer s) <? BufferSize s)%nat then Some (set_Buffer (Buffer s ++ [data]) s) else None.

(** Rows of [storeProofs] and [storeGlobalAggregates], in the column order of
    the inserts. *)
Definition storeProofs (proofs : list Proof_) : list (Z * Z * list Z) :=
  (fun p => (p_ConfigID p, p_Round p, p_Proof p)) <$> proofs.
Definition storeGlobalAggregates (gs : list GlobalAggregate) : list (Z * Z * Z * Z) :=
  (fun g => (ga_Value g, ga_Timestamp g, ga_Round g, ga_ConfigID g)) <$> gs.

(** The inner loop: take what is buffered until there is nothing left. *)
Fixpoint drain (buffer : list SubmissionData) (proofBatch : list Proof_)
    (globalAggregateBatch : list GlobalAggregate) : list Proof_ * list GlobalAggregate :=
  match buffer with
  | [] => (proofBatch, globalAggregateBatch)
  | d :: buffer =>
      drain buffer (proofBatch ++ [sd_Proof d]) (globalAggregateBatch ++ [sd_GlobalAggregate d])
  end.

(** [pick_done]: the context is done and the select takes that case. *)
Definition bulkInsert (pick_done : bool) (s : GlobalAggregateBulkWriter)
    : GlobalAggregateBulkWriter * list (Z * Z * list Z) * list (Z * Z * Z * Z) :=
  if pick_done then (s, [], []) else
  match Buffer s with
  | [] => (s, [], [])
  | d :: buffer =>
      let '(proofBatch, globalAggregateBatch) := drain buffer [sd_Proof d] [sd_GlobalAggregate d] in
      (set_Buffer [] s, storeProofs proofBatch, storeGlobalAggregates globalAggregateBatch)
  end.

Lemma drain_spec buffer : forall ps gs,
  drain buffer ps gs = (ps ++ (sd_Proof <$> buffer), gs ++ (sd_GlobalAggregate <$> buffer)).
Proof.
  induction buffer as [|d buffer IH]; intros ps gs; simpl; [by rewrite !app_nil_r|].
  rewrite IH. by rewrite <- !app_assoc.
Qed.

(** Submissions received one after the other. *)
Fixpoint receive_all (l : list SubmissionData) (s : GlobalAggregateBulkWriter)
    : option GlobalAggregateBulkWriter :=
  match l with [] => Some s | d :: l => s ← receiveEach d s; receive_all l s end.

Lemma receive_all_Buffer l : forall s s',
  receive_all l s = Some s' -> Buffer s' = Buffer s ++ l.
Proof.
  induction l as [|d l IH]; intros s s' Hr; simplify_eq/=; [by rewrite app_nil_r|].
  apply bind_Some in Hr as (s1 & H1 & Hr). unfold receiveEach in H1.
  destruct (_ <? _)%nat; simplify_eq. apply IH in Hr. rewrite Hr. simpl. by rewrite <- app_assoc.
Qed.

(** What the writer receives between two inserts is written by the next
    one, every submission once, its proof and its aggregate in the same row
    order, and the buffer is empty afterwards. *)
Theorem bulk_insert_complete l s s' :
  Buffer s = [] -> receive_all l s = Some s' ->
  exists s'', bulkInsert false s' =
    (s'', storeProofs (sd_Proof <$> l), storeGlobalAggregates (sd_GlobalAggregate <$> l)) /\ Buffer s'' = [].
Proof.
  intros Hs Hr. apply receive_all_Buffer in Hr. rewrite Hs in Hr. simpl in Hr.
  unfold bulkInsert. rewrite Hr. destruct l as [|d l]; [by exists s'|].
  rewrite drain_spec. by eexists.
Qed.

Definition w_data (v : Z) : SubmissionData :=
  mkSubmissionData "X" (mkGlobalAggregate 1 v 2 3) (mkProof 1 2 [v]).
Lemma bulk_insert_complete_witness : exists s'' rows grows,
  bulkInsert false (set_Buffer [w_data 5; w_data 6] (NewGlobalAggregateBulkWriter [])) = (s'', rows, grows).
Proof.
  destruct (bulk_insert_complete [w_data 5; w_data 6] (NewGlobalAggregateBulkWriter [])
    (set_Buffer [w_data 5; w_data 6] (NewGlobalAggregateBulkWriter []))) as (s'' & H & _);
    [reflexivity|reflexivity|]. by eexists _, _, _.
Defined.
End BulkWriter.

(** ** The application *)
Module App.
Import BulkWriter.

(** The fields of an aggregator that [App] manages. *)
Record Node : Type := mkNode {
  n_agg : Aggregator; isRunning : bool; nodeCtx : option nat
}.

#[projections(primitive)]
Record App : Type := mkApp {
  Aggregators : gmap Z Node;
  Writer : option GlobalAggregateBulkWriter;
  Latest : LatestLocalAggregates;
  NextCtx : nat;
  Cancelled : list nat;
  Loops : list (Z * nat)
}.
Definition set_Aggregators v (a : App) : App :=
  mkApp v (Writer a) (Latest a) (NextCtx a) (Cancelled a) (Loops a).
Definition set_Writer v (a : App) : App :=
  mkApp (Aggregators a) v (Latest a) (NextCtx a) (Cancelled a) (Loops a).
Definition set_Latest v (a : App) : App :=
  mkApp (Aggregators a) (Writer a) v (NextCtx a) (Cancelled a) (Loops a).

(** What the database, the signer and pubsub answer. *)
Record AppEnv : Type := mkAppEnv {
  getConfigs : res (list Config);
  newSigner : option error;
  join : string -> option error;
  renewSigner : option error
}.

Definition New : App := mkApp ∅ None NewLatestLocalAggregates 0 [] [].

Definition setGlobalAggregateBulkWriter (configs : list Config) (a : App) : App :=
  let a := match Writer a with Some w => set_Writer (Some (Stop w)) a | None => a end in
  let configNames := c_Name <$> configs in
  set_Writer (Some (NewGlobalAggregateBulkWriter [WithConfigNames configNames])) a.

(** [None]: the writer is nil and the call panics. *)
Definition startGlobalAggregateBulkWriter (a : App) : option App :=
  w ← Writer a; Some (set_Writer (Some (Start w)) a).
Definition stopGlobalAggregateBulkWriter (a : App) : option App :=
  w ← Writer a; Some (set_Writer (Some (Stop w)) a).

(** [go aggregator.Run(nodeCtx)] adds a loop on the new context. *)
Definition startAggregator (id : Z) (n : Node) (a : App) : App :=
  if isRunning n then a else
  mkApp (<[id := mkNode (n_agg n) true (Some (NextCtx a))]> (Aggregators a)) (Writer a) (Latest a)
    (S (NextCtx a)) (Cancelled a) ((id, NextCtx a) :: Loops a).
Definition startAggregatorById (id : Z) (a : App) : res App :=
  match Aggregators a !! id with
  | None => Err ErrAggregatorNotFound
  | Some n => Ok (startAggregator id n a)
  end.

(** [<-aggregator.nodeCtx.Done()] returns at once: the context has just been
    cancelled. *)
Definition stopAggregator (id : Z) (n : Node) (a : App) : res App :=
  if negb (isRunning n) then Ok a else
  match nodeCtx n with
  | None => Err ErrAggregatorCancelNotFound
  | Some c =>
      Ok (mkApp (<[id := mkNode (n_agg n) false (Some c)]> (Aggregators a)) (Writer a) (Latest a)
            (NextCtx a) (c :: Cancelled a) (Loops a))
  end.
Definition stopAggregatorById (id : Z) (a : App) : res App :=
  match Aggregators a !! id with
  | None => Err ErrAggregatorNotFound
  | Some n => stopAggregator id n a
  end.

(** Loops over the map, entry by entry. *)
Definition ids (a : App) : list Z := (map_to_list (Aggregators a)).*1.
Fixpoint start_loop (l : list Z) (a : App) : App :=
  match l with
  | [] => a
  | id :: l =>
      let a := match Aggregators a !! id with Some n => startAggregator id n a | None => a end in
      start_loop l a
  end.
Definition startAllAggregators (a : App) : App := start_loop (ids a) a.
(** On an error the loop ends: what was stopped before stays stopped. *)
Fixpoint stop_loop (l : list Z) (a : App) : App * option error :=
  match l with
  | [] => (a, None)
  | id :: l =>
      match Aggregators a !! id with
      | None => stop_loop l a
      | Some n =>
          match stopAggregator id n a with
          | Err err => (a, Some err)
          | Ok a => stop_loop l a
          end
      end
  end.
Definition stopAllAggregators (a : App) : App * option error := stop_loop (ids a) a.

Definition clearAggregators (a : App) : App * option error :=
  match stop_loop (ids a) a with
  | (a, Some err) => (a, Some err)
  | (a, None) => (set_Aggregators ∅ a, None)
  end.

Definition topicString (config : Config) : string :=
  c_Name config +:+ "-global-aggregator-topic-" +:+ Itoa (c_AggregateInterval config).

Fixpoint init_loop (E : AppEnv) (configs : list Config) (a : App) : App * option error :=
  match configs with
  | [] => (a, None)
  | config :: configs =>
      match Aggregators a !! c_ID config with
      | Some _ => init_loop E configs a
      | None =>
          match NewAggregator (topicString config) config, join E (topicString config) with
          | Err err, _ => (a, Some err)
          | Ok _, Some err => (a, Some err)
          | Ok tmpNode, None =>
              init_loop E configs
                (set_Aggregators (<[c_ID config := mkNode tmpNode false None]> (Aggregators a)) a)
          end
      end
  end.
Definition initializeLoadedAggregators (E : AppEnv) (loadedConfigs : list Config) (a : App)
    : App * option error :=
  match newSigner E with
  | Some err => (a, Some err)
  | None => init_loop E loadedConfigs a
  end.

Definition setAggregators (E : AppEnv) (configs : list Config) (a : App) : App * option error :=
  match clearAggregators a with
  | (a, Some err) => (a, Some err)
  | (a, None) => initializeLoadedAggregators E configs a
  end.

(** The subscription to the bus comes first and is not part of the state. *)
Definition Run (E : AppEnv) (a : App) : option (App * option error) :=
  match getConfigs E with
  | Err err => Some (a, Some err)
  | Ok configs =>
      let a := setGlobalAggregateBulkWriter configs a in
      a ← startGlobalAggregateBulkWriter a;
      match setAggregators E configs a with
      | (a, Some err) => Some (a, Some err)
      | (a, None) => Some (startAllAggregators a, None)
      end
  end.

Abbreviation replies := (list (nat * MessageResponse)).
Definition ok (msg : Message) : replies := [(Response msg, mkResponse true None)].

(** The cases [REFRESH_AGGREGATOR_APP] and [STOP_AGGREGATOR_APP] of the
    handler; [None]: it panics. *)
Definition refreshApp (E : AppEnv) (msg : Message) (a : App) : option (App * replies) :=
  a ← stopGlobalAggregateBulkWriter a;
  match stopAllAggregators a with
  | (a, Some err) => Some (a, HandleMessageError err msg)
  | (a, None) =>
      match getConfigs E with
      | Err err => Some (a, HandleMessageError err msg)
      | Ok configs =>
          let a := setGlobalAggregateBulkWriter configs a in
          match setAggregators E configs a with
          | (a, Some err) => Some (a, HandleMessageError err msg)
          | (a, None) =>
              let a := startAllAggregators a in
              a ← startGlobalAggregateBulkWriter a;
              Some (a, ok msg)
          end
      end
  end.
Definition stopApp (msg : Message) (a : App) : option (App * replies) :=
  a ← stopGlobalAggregateBulkWriter a;
  match stopAllAggregators a with
  | (a, Some err) => Some (a, HandleMessageError err msg)
  | (a, None) => Some (a, ok msg)
  end.

Definition handleMessage (E : AppEnv) (msg : Message) (a : App) : option (App * replies) :=
  let fail err (a : App) := Some (a, HandleMessageError err msg) in
  if negb (bool_decide (To msg = AGGREGATOR)) then Some (a, []) else
  if negb (bool_decide (From msg = ADMIN)) && negb (bool_decide (From msg = FETCHER))
  then fail (Sentinel ErrBusNonAdmin) a else
  let cmd := Command (Content msg) in
  if bool_decide (cmd = ACTIVATE_AGGREGATOR) then
    match ParseInt32MsgParam msg "id" with
    | Err err => fail err a
    | Ok aggregatorId =>
        match startAggregatorById aggregatorId a with
        | Err err => fail err a
        | Ok a => Some (a, ok msg)
        end
    end
  else if bool_decide (cmd = DEACTIVATE_AGGREGATOR) then
    match ParseInt32MsgParam msg "id" with
    | Err err => fail err a
    | Ok aggregatorId =>
        match stopAggregatorById aggregatorId a with
        | Err err => fail err a
        | Ok a => Some (a, ok msg)
        end
    end
  else if bool_decide (cmd = REFRESH_AGGREGATOR_APP) then refreshApp E msg a
  else if bool_decide (cmd = STOP_AGGREGATOR_APP) then stopApp msg a
  else if bool_decide (cmd = START_AGGREGATOR_APP) then
    let a := startAllAggregators a in
    a ← startGlobalAggregateBulkWriter a;
    Some (a, ok msg)
  else if bool_decide (cmd = RENEW_SIGNER) then
    match renewSigner E with
    | Some err => fail err a
    | None => Some (a, ok msg)
    end
  else if bool_decide (cmd = STREAM_LOCAL_AGGREGATE) then
    match Args (Content msg) !! "value" with
    | Some (AnyLocalAggregate localAggregate) =>
        Some (set_Latest (Store (Latest a) (la_ConfigID localAggregate) localAggregate) a, [])
    | _ => None
    end
  else fail (Sentinel ErrBusUnknownCommand) a.

(** ** One loop per running aggregator *)
Definition live (a : App) (id : Z) (c : nat) : Prop := (id, c) ∈ Loops a /\ c ∉ Cancelled a.

Record inv (a : App) : Prop := {
  inv_run id n : Aggregators a !! id = Some n -> isRunning n = true ->
    exists c, nodeCtx n = Some c /\ live a id c;
  inv_live id c : live a id c ->
    exists n, Aggregators a !! id = Some n /\ isRunning n = true /\ nodeCtx n = Some c;
  inv_fresh c : c ∈ (Loops a).*2 \/ c ∈ Cancelled a -> (c < NextCtx a)%nat;
  inv_nodup : NoDup (Loops a).*2
}.

Lemma inv_New : inv New.
Proof.
  constructor; simpl; unfold live; simpl.
  - intros id n Hn. by rewrite lookup_empty in Hn.
  - intros id c [Hin _]. by apply not_elem_of_nil in Hin.
  - intros c [Hin|Hin]; by apply not_elem_of_nil in Hin.
  - constructor.
Qed.

Lemma inv_Writer w a : inv a -> inv (set_Writer w a).
Proof. intros []. by constructor. Qed.
Lemma inv_Latest l a : inv a -> inv (set_Latest l a).
Proof. intros []. by constructor. Qed.

Lemma inv_startAggregator id n a :
  inv a -> Aggregators a !! id = Some n -> inv (startAggregator id n a).
Proof.
  intros [H1 H2 H3 H4] Hn. unfold startAggregator. destruct (isRunning n) eqn:Hr; [by constructor|].
  assert (NextCtx a ∉ (Loops a).*2 /\ NextCtx a ∉ Cancelled a) as [HL HC].
  { split; intros Hin; [specialize (H3 _ (or_introl Hin))|specialize (H3 _ (or_intror Hin))]; lia. }
  constructor; simpl; unfold live in *; simpl.
  - intros id' n' Hn' Hr'. destruct (decide (id = id')) as [<-|Hne].
    + rewrite lookup_insert_eq in Hn'. simplify_eq. simpl. exists (NextCtx a). split_and!; [done|by left|done].
    + rewrite lookup_insert_ne in Hn' by done. destruct (H1 _ _ Hn' Hr') as (c & ? & ? & ?).
      exists c. split_and!; [done|by right|done].
  - intros id' c [[?|Hin]%elem_of_cons Hc].
    + simplify_eq. exists (mkNode (n_agg n) true (Some (NextCtx a))). by rewrite lookup_insert_eq.
    + destruct (H2 id' c (conj Hin Hc)) as (n' & Hn' & Hr' & Hc').
      exists n'. rewrite lookup_insert_ne; [done|]. intros ->. congruence.
  - intros c [[->|Hin]%elem_of_cons|Hin]; [lia|specialize (H3 _ (or_introl Hin))|specialize (H3 _ (or_intror Hin))]; lia.
  - by constructor.
Qed.

Lemma NoDup_snd_inj {A B} (l : list (A * B)) x y z :
  NoDup l.*2 -> (x, z) ∈ l -> (y, z) ∈ l -> x = y.
Proof.
  induction l as [|[a b] l IH]; simpl; intros Hnd Hx Hy; [by apply not_elem_of_nil in Hx|].
  apply NoDup_cons in Hnd as [Hb Hnd].
  apply elem_of_cons in Hx as [Hx|Hx], Hy as [Hy|Hy]; simplify_eq; auto.
  - exfalso. apply Hb. by apply (list_elem_of_fmap_2 snd) in Hy.
  - exfalso. apply Hb. by apply (list_elem_of_fmap_2 snd) in Hx.
Qed.

Lemma inv_stopAggregator id n a :
  inv a -> Aggregators a !! id = Some n ->
  exists a', stopAggregator id n a = Ok a' /\ inv a' /\ Writer a' = Writer a /\
    dom (Aggregators a') = dom (Aggregators a) /\
    (forall id' n', Aggregators a' !! id' = Some n' -> isRunning n' = true ->
       id' <> id /\ Aggregators a !! id' = Some n').
Proof.
  intros Hinv Hn. pose proof Hinv as [H1 H2 H3 H4]. unfold stopAggregator.
  destruct (isRunning n) eqn:Hr; simpl.
  2:{ exists a. split_and!; try done. intros id' n' Hn' Hr'. split; [|done]. intros ->. congruence. }
  destruct (H1 _ _ Hn Hr) as (c & Hc & Hin & Hnc). rewrite Hc. eexists. split; [done|].
  assert (forall id' n', <[id := mkNode (n_agg n) false (Some c)]> (Aggregators a) !! id' = Some n' ->
    isRunning n' = true -> id' <> id /\ Aggregators a !! id' = Some n') as Hrun.
  { intros id' n' Hn' Hr'. destruct (decide (id = id')) as [<-|Hne].
    - rewrite lookup_insert_eq in Hn'. by simplify_eq.
    - rewrite lookup_insert_ne in Hn' by done. done. }
  split_and!; [|done| |done].
  - constructor; simpl; unfold live in *; simpl.
    + intros id' n' Hn' Hr'. destruct (Hrun _ _ Hn' Hr') as [Hne Hn''].
      destruct (H1 _ _ Hn'' Hr') as (c' & ? & Hin' & ?). exists c'. split_and!; [done|done|].
      intros [->|?]%elem_of_cons; [|done]. apply Hne. by eapply NoDup_snd_inj.
    + intros id' c' [Hin' Hc']. assert (c' <> c /\ c' ∉ Cancelled a) as [Hcc Hc''] by set_solver.
      destruct (H2 _ _ (conj Hin' Hc'')) as (n' & Hn' & Hr' & Hctx). exists n'.
      rewrite lookup_insert_ne; [done|]. intros ->. congruence.
    + intros c' [Hc'|[->|Hc']%elem_of_cons].
      * apply H3. by left.
      * apply H3. left. by apply (list_elem_of_fmap_2 snd) in Hin.
      * apply H3. by right.
    + done.
  - simpl. rewrite dom_insert_L. apply elem_of_dom_2 in Hn. set_solver.
Qed.

Lemma inv_start_loop l : forall a, inv a -> inv (start_loop l a) /\ Writer (start_loop l a) = Writer a.
Proof.
  induction l as [|id l IH]; intros a Ha; [done|]. simpl.
  destruct (Aggregators a !! id) as [n|] eqn:Hn; [|by apply IH].
  destruct (IH (startAggregator id n a)) as [? ->]; [by apply inv_startAggregator|].
  split; [done|]. unfold startAggregator. by destruct (isRunning n).
Qed.

(** Stopping never fails, and what it covers no longer runs. *)
Lemma inv_stop_loop l : forall a, inv a ->
  exists a', stop_loop l a = (a', None) /\ inv a' /\ Writer a' = Writer a /\
    dom (Aggregators a') = dom (Aggregators a) /\
    (forall id n, Aggregators a' !! id = Some n -> isRunning n = true ->
       id ∉ l /\ Aggregators a !! id = Some n).
Proof.
  induction l as [|id l IH]; intros a Ha; simpl.
  - exists a. split_and!; try done. intros id n Hn _. split; [apply not_elem_of_nil|done].
  - destruct (Aggregators a !! id) as [n|] eqn:Hn.
    + destruct (inv_stopAggregator id n a Ha Hn) as (a1 & -> & Ha1 & Hw1 & Hd1 & Hs1).
      destruct (IH a1 Ha1) as (a2 & -> & Ha2 & Hw2 & Hd2 & Hs2). exists a2.
      split_and!; [done|done|congruence|congruence|]. intros id' n' Hn' Hr'.
      destruct (Hs2 _ _ Hn' Hr') as [Hl Hn1]. destruct (Hs1 _ _ Hn1 Hr') as [Hne Hn0].
      split; [|done]. by apply not_elem_of_cons.
    + destruct (IH a Ha) as (a2 & -> & Ha2 & Hw2 & Hd2 & Hs2). exists a2. split_and!; try done.
      intros id' n' Hn' Hr'. destruct (Hs2 _ _ Hn' Hr') as [Hl Hn1]. split; [|done].
      apply not_elem_of_cons. split; [|done]. intros ->. congruence.
Qed.

Lemma ids_elem a id n : Aggregators a !! id = Some n -> id ∈ ids a.
Proof. intros Hn. unfold ids. apply list_elem_of_fmap. exists (id, n). split; [done|]. by apply elem_of_map_to_list. Qed.

Lemma inv_stopAll a : inv a ->
  exists a', stopAllAggregators a = (a', None) /\ inv a' /\ Writer a' = Writer a /\
    forall id c, ~ live a' id c.
Proof.
  intros Ha. destruct (inv_stop_loop (ids a) a Ha) as (a' & H & Ha' & Hw & _ & Hs).
  exists a'. split_and!; try done. intros id c Hl. destruct (inv_live _ Ha' _ _ Hl) as (n & Hn & Hr & _).
  destruct (Hs _ _ Hn Hr) as [Hnot Hn']. apply Hnot. by eapply ids_elem.
Qed.

Lemma inv_clear a : inv a ->
  exists a', clearAggregators a = (a', None) /\ inv a' /\ Writer a' = Writer a.
Proof.
  intros Ha. destruct (inv_stopAll a Ha) as (a' & H & Ha' & Hw & Hl).
  unfold clearAggregators. unfold stopAllAggregators in H. rewrite H. eexists. split; [done|].
  split; [|done]. destruct Ha'. constructor; simpl; unfold live in *; simpl; [|naive_solver|done|done].
  intros id n Hn. by rewrite lookup_empty in Hn.
Qed.

Lemma inv_init_loop E configs : forall a a' err,
  inv a -> init_loop E configs a = (a', err) -> inv a' /\ Writer a' = Writer a.
Proof.
  induction configs as [|config configs IH]; intros a a' err Ha Hi; simpl in Hi; [by simplify_eq|].
  destruct (Aggregators a !! c_ID config) eqn:Hc; [by eapply IH|].
  destruct (NewAggregator _ _) as [tmp|]; [|by simplify_eq].
  destruct (join E _); [by simplify_eq|].
  apply IH in Hi; [done|]. destruct Ha as [H1 H2 H3 H4]. constructor; simpl; unfold live in *; simpl; try done.
  - intros id n Hn Hr. destruct (decide (c_ID config = id)) as [<-|Hne].
    + rewrite lookup_insert_eq in Hn. by simplify_eq.
    + rewrite lookup_insert_ne in Hn by done. by apply (H1 id n).
  - intros id c Hl. destruct (H2 id c Hl) as (n & Hn & ?). exists n. rewrite lookup_insert_ne; [done|].
    intros <-. congruence.
Qed.

Lemma inv_setAggregators E configs a a' err :
  inv a -> setAggregators E configs a = (a', err) -> inv a' /\ Writer a' = Writer a.
Proof.
  intros Ha. unfold setAggregators. destruct (inv_clear a Ha) as (a1 & -> & Ha1 & Hw1).
  unfold initializeLoadedAggregators. destruct (newSigner E); [intros; by simplify_eq|].
  intros Hi. apply inv_init_loop in Hi as [? Hw]; [|done]. by rewrite Hw.
Qed.

(** ** Reachable states *)

(** Any history of start-up and bus messages, each handled before the next one
    comes, whatever the database, the signer and pubsub answer. *)
Inductive reach : App -> Prop :=
| reach_New : reach New
| reach_Run E a a' err : reach a -> Run E a = Some (a', err) -> reach a'
| reach_msg E msg a a' rs : reach a -> handleMessage E msg a = Some (a', rs) -> reach a'.

Lemma inv_setWriter configs a : inv a -> inv (setGlobalAggregateBulkWriter configs a).
Proof.
  intros Ha. unfold setGlobalAggregateBulkWriter. apply inv_Writer. destruct (Writer a); [by apply inv_Writer|done].
Qed.

Lemma inv_Run E a a' err : inv a -> Run E a = Some (a', err) -> inv a'.
Proof.
  intros Ha. unfold Run. destruct (getConfigs E) as [configs|]; [|intros; by simplify_eq].
  intros Hr. apply bind_Some in Hr as (a1 & Hs & Hr).
  apply bind_Some in Hs as (w & _ & Hs). simplify_eq.
  cbv zeta in Hr. destruct (setAggregators E configs _) as [a2 [err2|]] eqn:Hset;
    (apply inv_setAggregators in Hset as [Hinv _]; [|by apply inv_Writer, inv_setWriter]); simplify_eq; [done|].
  by apply inv_start_loop.
Qed.

Lemma inv_byId a id a' :
  inv a -> (startAggregatorById id a = Ok a' \/ stopAggregatorById id a = Ok a') -> inv a'.
Proof.
  intros Ha. unfold startAggregatorById, stopAggregatorById.
  destruct (Aggregators a !! id) as [n|] eqn:Hn; [|naive_solver].
  intros [H|H]; simplify_eq; [by apply inv_startAggregator|].
  destruct (inv_stopAggregator id n a Ha Hn) as (a1 & H1 & ? & _). congruence.
Qed.

Lemma inv_refreshApp E msg a a' rs :
  inv a -> refreshApp E msg a = Some (a', rs) -> inv a' /\ length rs = 1%nat.
Proof.
  intros Ha Hh. apply bind_Some in Hh as (a1 & Hs & Hh). apply bind_Some in Hs as (w & _ & Hs). simplify_eq.
  destruct (inv_stopAll (set_Writer (Some (Stop w)) a)) as (a2 & H2 & Ha2 & _); [by apply inv_Writer|].
  rewrite H2 in Hh. destruct (getConfigs E) as [configs|]; [|by simplify_eq].
  cbv zeta in Hh. destruct (setAggregators E configs _) as [a3 [err|]] eqn:Hset;
    (apply inv_setAggregators in Hset as [Ha3 _]; [|by apply inv_setWriter]); [by simplify_eq|].
  apply bind_Some in Hh as (a4 & Hs & Hh). apply bind_Some in Hs as (w' & _ & Hs). simplify_eq.
  split; [|done]. by apply inv_Writer, inv_start_loop.
Qed.

Lemma inv_stopApp msg a a' rs :
  inv a -> stopApp msg a = Some (a', rs) ->
  inv a' /\ rs = ok msg /\ (forall id c, ~ live a' id c) /\ (w_running <$> Writer a') = Some false.
Proof.
  intros Ha Hh. apply bind_Some in Hh as (a1 & Hs & Hh). apply bind_Some in Hs as (w & _ & Hs). simplify_eq.
  destruct (inv_stopAll (set_Writer (Some (Stop w)) a)) as (a2 & H2 & Ha2 & Hw2 & Hl); [by apply inv_Writer|].
  rewrite H2 in Hh. simplify_eq. split_and!; [done|done|done|]. rewrite Hw2. simpl. unfold Stop.
  destruct (w_running w) eqn:Hw; simpl; by rewrite ?Hw.
Qed.

Lemma inv_handleMessage E msg a a' rs :
  inv a -> handleMessage E msg a = Some (a', rs) ->
  inv a' /\ (To msg = AGGREGATOR -> Command (Content msg) <> STREAM_LOCAL_AGGREGATE -> length rs = 1%nat).
Proof.
  intros Ha. unfold handleMessage.
  destruct (bool_decide (To msg = AGGREGATOR)) eqn:Hto; simpl; [|breflect; intros; by simplify_eq].
  destruct (negb _ && negb _); [intros; by simplify_eq|].
  destruct (bool_decide (_ = ACTIVATE_AGGREGATOR)).
  { destruct (ParseInt32MsgParam msg "id") as [id|]; [|intros; by simplify_eq].
    destruct (startAggregatorById id a) eqn:Hs; intros; simplify_eq; [|done]. split; [|done]. eapply inv_byId; eauto. }
  destruct (bool_decide (_ = DEACTIVATE_AGGREGATOR)).
  { destruct (ParseInt32MsgParam msg "id") as [id|]; [|intros; by simplify_eq].
    destruct (stopAggregatorById id a) eqn:Hs; intros; simplify_eq; [|done]. split; [|done]. eapply inv_byId; eauto. }
  destruct (bool_decide (_ = REFRESH_AGGREGATOR_APP)).
  { intros H. by apply inv_refreshApp in H as [? ?]. }
  destruct (bool_decide (_ = STOP_AGGREGATOR_APP)).
  { intros H. by apply inv_stopApp in H as (? & -> & _). }
  destruct (bool_decide (_ = START_AGGREGATOR_APP)).
  { intros H. apply bind_Some in H as (a1 & Hs & H). apply bind_Some in Hs as (w & _ & Hs). simplify_eq.
    split; [|done]. by apply inv_Writer, inv_start_loop. }
  destruct (bool_decide (_ = RENEW_SIGNER)); [destruct (renewSigner E); intros; by simplify_eq|].
  destruct (bool_decide (_ = STREAM_LOCAL_AGGREGATE)) eqn:Hst.
  { breflect. destruct (Args _ !! _) as [[]|]; intros; simplify_eq. split; [by apply inv_Latest|done]. }
  intros; by simplify_eq.
Qed.

Lemma reach_inv a : reach a -> inv a.
Proof.
  induction 1 as [|E a a' err _ IH H|E msg a a' rs _ IH H]; [apply inv_New|by eapply inv_Run|].
  by apply inv_handleMessage in H as [? _].
Qed.

(** When each command is handled before the next one comes: after any history
    of start-up, refreshes and such commands, an aggregator
    that is marked running has exactly one live loop, and one that is not, or
    has been removed, has none; stopping never fails. *)
Theorem one_loop_serial a :
  reach a ->
  (forall id c c', live a id c -> live a id c' -> c = c') /\
  (forall id, (exists c, live a id c) <-> exists n, Aggregators a !! id = Some n /\ isRunning n = true) /\
  snd (stopAllAggregators a) = None.
Proof.
  intros Ha%reach_inv. split_and!.
  - intros id c c' Hc Hc'. destruct (inv_live _ Ha _ _ Hc) as (n & Hn & _ & H1).
    destruct (inv_live _ Ha _ _ Hc') as (n' & Hn' & _ & H2). congruence.
  - intros id. split.
    + intros [c Hc]. destruct (inv_live _ Ha _ _ Hc) as (n & ? & ? & _). eauto.
    + intros (n & Hn & Hr). destruct (inv_run _ Ha _ _ Hn Hr) as (c & _ & ?). eauto.
  - destruct (inv_stopAll a Ha) as (a' & -> & _). done.
Qed.

(** Every message addressed to the application, except the stream of
    local aggregates, is answered exactly once. *)
Theorem every_command_answered E msg a a' rs :
  reach a -> handleMessage E msg a = Some (a', rs) ->
  To msg = AGGREGATOR -> Command (Content msg) <> STREAM_LOCAL_AGGREGATE -> length rs = 1%nat.
Proof. intros Ha%reach_inv H. by apply inv_handleMessage in H as [_ ?]. Qed.

(** If the configs cannot be read at start-up, the application is
    already subscribed to the bus, but its bulk writer is nil: a later stop,
    start or refresh command panics. *)
Theorem stop_after_failed_start_panics E err c :
  getConfigs E = Err err -> c ∈ [STOP_AGGREGATOR_APP; START_AGGREGATOR_APP; REFRESH_AGGREGATOR_APP] ->
  exists a, Run E New = Some (a, Some err) /\
    forall E' args, handleMessage E' (mkMessage ADMIN AGGREGATOR (mkContent c args) 0) a = None.
Proof.
  intros Hc Hin. unfold Run. rewrite Hc. exists New. split; [done|]. intros E' args.
  apply elem_of_cons in Hin as [->|[->|[->|Hin]%elem_of_cons]%elem_of_cons]; [done..|].
  by apply not_elem_of_nil in Hin.
Qed.

(** Witnesses. *)
Definition w_aenv : AppEnv :=
  mkAppEnv (Ok [mkConfig 1 "A" 400; mkConfig 2 "B" 400]) None (fun _ => None) None.
Definition w_app : App := match Run w_aenv New with Some (a, _) => a | None => New end.

Lemma w_app_reach : reach w_app.
Proof. apply (reach_Run w_aenv New w_app None); [apply reach_New|]. vm_compute. reflexivity. Qed.

Lemma one_loop_serial_witness : snd (stopAllAggregators w_app) = None.
Proof. apply (one_loop_serial w_app w_app_reach). Defined.

Lemma every_command_answered_witness : exists a' rs,
  handleMessage w_aenv (mkMessage ADMIN AGGREGATOR (mkContent STOP_AGGREGATOR_APP ∅) 0) w_app = Some (a', rs) /\
  length rs = 1%nat.
Proof.
  destruct (handleMessage w_aenv (mkMessage ADMIN AGGREGATOR (mkContent STOP_AGGREGATOR_APP ∅) 0) w_app)
    as [[a' rs]|] eqn:H; [|by vm_compute in H].
  exists a', rs. split; [done|].
  apply (every_command_answered w_aenv _ w_app a' rs w_app_reach H); done.
Defined.

Lemma stop_after_failed_start_panics_witness : exists a,
  Run (mkAppEnv (Err DeadlineExceeded) None (fun _ => None) None) New = Some (a, Some DeadlineExceeded).
Proof.
  destruct (stop_after_failed_start_panics (mkAppEnv (Err DeadlineExceeded) None (fun _ => None) None)
    DeadlineExceeded STOP_AGGREGATOR_APP) as (a & H & _); [done|by left|by exists a].
Defined.

End App.
