(* ===== verification/LocalAggregator.v ===== *)
(** * LocalAggregator: one node's own price

    [node/pkg/fetcher/localaggregator.go], the calculations of
    [node/pkg/fetcher/utils.go] and [localaggregatebulkwriter.go].  Every tick a
    local aggregator reads the latest data of its feeds, removes outliers, takes
    the volume-weighted average and the median, and streams the result to the
    aggregator application over the bus. *)

From S2P Require Import Prelude Errors Wire Text Aggregator Bus App Float FeedData.
From Stdlib Require Import Floats.SpecFloat.
Import Text Float FeedData.

Local Open Scope Z_scope.

Module LocalAggregator.

Definition ForeignExchangePricePairs : string := "GBP-USD,EUR-USD,KRW-USD,JPY-USD,CHF-USD".
Definition DefaultMedianRatio : float64 := const 5 100.
Definition LocalAggregatesChannelSize : nat := 2000.
Definition MaxOutlierRemovalRatio : float64 := const 1 4.

(** ** [utils.go] *)
Definition calculateVWAP (feedData : list FeedData) : res float64 :=
  if bool_decide (feedData = []) then Ok fzero else
  let '(totalPrice, totalVolume) :=
    foldl (fun '(p, v) data => (fadd p (fmul (Value data) (Volume data)), fadd v (Volume data)))
      (fzero, fzero) feedData in
  if feqb totalVolume fzero then Err ErrLocalAggregatorZeroVolume
  else Ok (fdiv totalPrice totalVolume).

Definition calculateMedian (feedData : list FeedData) : res float64 :=
  if bool_decide (feedData = []) then Ok fzero else GetFloatMed (Value <$> feedData).

(** [strings.Contains]. *)
Definition Contains (s sub : string) : bool := bool_decide (is_Some (String.index 0 sub s)).
Definition isFXPricePair (name : string) : bool := Contains ForeignExchangePricePairs name.

(** ** The aggregator *)
Record Config : Type := mkConfig { ID : int32; Name : string; FetchInterval : int32 }.

Definition partitionFeeds (feeds : list FeedData) : list FeedData * list FeedData :=
  (filter (fun feed => fltb fzero (Volume feed) = true) feeds,
   filter (fun feed => fltb fzero (Volume feed) = false) feeds).

Definition calculateAggregatedPrice (valueWeightedAveragePrice medianPrice : float64) : float64 :=
  if feqb valueWeightedAveragePrice fzero then medianPrice
  else if feqb medianPrice fzero then valueWeightedAveragePrice
  else fadd (fmul valueWeightedAveragePrice (const 95 100)) (fmul medianPrice DefaultMedianRatio).

(** The comparison function of the two sorts: farthest from the median first. *)
Definition by_distance (median a b : float64) : Z :=
  if fltb (fabs (fsub median a)) (fabs (fsub median b)) then 1
  else if fltb (fabs (fsub median b)) (fabs (fsub median a)) then -1
  else 0.

(** [slices.Contains] compares with [==]. *)
Definition contains (l : list float64) (v : float64) : bool := existsb (fun x => feqb x v) l.

(** [slices.DeleteFunc] with the values of [l]. *)
Definition delete_values (l : list float64) (feeds : list FeedData) : list FeedData :=
  filter (fun feed => contains l (Value feed) = false) feeds.

Definition maxOutliersToRemove (feeds : list FeedData) : Z :=
  to_int64 (fmul (of_int (Z.of_nat (length feeds))) MaxOutlierRemovalRatio).

(** *** Equality of floats *)
Lemma feqb_spec x y : feqb x y = true -> x = y \/ exists s s', x = S754_zero s /\ y = S754_zero s'.
Proof.
  unfold feqb, SFeqb. destruct x as [s|s| |s m e], y as [s'|s'| |s' m' e']; simpl.
  all: try (by destruct s); try (by destruct s'); try done.
  - intros _. right. eauto.
  - destruct s, s'; by auto.
  - destruct s, s'; try done; destruct (Z.compare_spec e e') as [->| |]; try done.
    all: change (Pos.compare_cont Eq m m') with (m ?= m')%positive.
    all: destruct (Pos.compare_spec m m') as [->| |]; by auto.
Qed.

Lemma feqb_euclid v x y : feqb v x = true -> feqb v y = true -> feqb x y = true.
Proof.
  intros Hx Hy. destruct (feqb_spec _ _ Hx) as [->|(s & s' & -> & ->)]; [done|].
  by destruct (feqb_spec _ _ Hy) as [<-|(s1 & s2 & ? & ->)].
Qed.

(** *** What the filter removes *)
Lemma delete_values_app l1 l2 feeds : delete_values l2 (delete_values l1 feeds) = delete_values (l1 ++ l2) feeds.
Proof.
  unfold delete_values. rewrite list_filter_filter. apply list_filter_iff. intros f.
  unfold contains. rewrite existsb_app, orb_false_iff. tauto.
Qed.

Lemma delete_values_nil feeds : delete_values [] feeds = feeds.
Proof. unfold delete_values. induction feeds as [|f feeds IH]; [done|]. rewrite filter_cons_True by done. by rewrite IH. Qed.

(** No two feeds have the same price. *)
Definition distinct (feeds : list FeedData) : Prop :=
  StronglySorted (fun f g => feqb (Value f) (Value g) = false) feeds.

Lemma distinct_delete l feeds : distinct feeds -> distinct (delete_values l feeds).
Proof.
  unfold distinct, delete_values. induction 1 as [|f feeds _ IH Hf]; [constructor|].
  rewrite filter_cons. case_decide; [|done]. constructor; [done|].
  apply Forall_forall. intros g [_ Hg]%list_elem_of_filter. rewrite Forall_forall in Hf. by apply Hf.
Qed.

Lemma delete_one v feeds : distinct feeds -> (length feeds <= S (length (delete_values [v] feeds)))%nat.
Proof.
  unfold distinct, delete_values. induction 1 as [|f feeds Hs IH Hf]; [simpl; lia|].
  rewrite filter_cons. case_decide as Hc; [cbn [length]; lia|].
  assert (feqb v (Value f) = true) as Hv by (unfold contains in Hc; simpl in Hc; by destruct (feqb v (Value f))).
  assert (filter (fun g => contains [v] (Value g) = false) feeds = feeds) as Hall; [|rewrite Hall; done].
  clear IH Hs. induction Hf as [|g feeds Hg _ IH]; [done|]. rewrite filter_cons_True; [by rewrite IH|].
  simpl. rewrite orb_false_r. destruct (feqb v (Value g)) eqn:Hvg; [|done].
  by rewrite (feqb_euclid v (Value f) (Value g)) in Hg.
Qed.

Lemma delete_values_count l : forall feeds,
  distinct feeds -> (length feeds <= length l + length (delete_values l feeds))%nat.
Proof.
  induction l as [|v l IH]; intros feeds Hd; [by rewrite delete_values_nil|].
  change (v :: l) with ([v] ++ l). rewrite <- delete_values_app, length_app. simpl.
  pose proof (delete_one v feeds Hd). specialize (IH _ (distinct_delete [v] feeds Hd)). lia.
Qed.

(** A quarter of the feeds, rounded down. *)
Lemma maxOutliersToRemove_quarter feeds :
  (length feeds <= 4096)%nat -> maxOutliersToRemove feeds = Z.of_nat (length feeds) / 4.
Proof.
  intros Hle. unfold maxOutliersToRemove.
  assert (forall n, n ∈ seqZ 0 4097 -> to_int64 (fmul (of_int n) MaxOutlierRemovalRatio) = n / 4) as Hall.
  { apply Forall_forall, (bool_decide_eq_true_1 (Forall _ (seqZ 0 4097))). vm_compute. reflexivity. }
  apply Hall, elem_of_seqZ. lia.
Qed.

Section local_aggregator.

(** [stats.QuartileOutliers] (mild, extreme) and [stats.Median] of a
    third-party package; [slices.SortFunc], which is not stable. *)
Context (QuartileOutliers : list float64 -> res (list float64 * list float64))
  (stats_Median : list float64 -> res float64)
  (SortFunc : (float64 -> float64 -> Z) -> list float64 -> list float64).

Definition filterOutliers (feeds : list FeedData) : res (list FeedData) :=
  if (length feeds <? 5)%nat then Ok feeds else
  let data := Value <$> feeds in
  match QuartileOutliers data with
  | Err err => Err err
  | Ok (Mild, Extreme) =>
      if (length Mild =? 0)%nat && (length Extreme =? 0)%nat then Ok feeds else
      match stats_Median data with
      | Err err => Err err
      | Ok median =>
          let max := Z.to_nat (maxOutliersToRemove feeds) in
          let '(extremes, filtered) :=
            if (0 <? length Extreme)%nat then
              let extremes := take (min max (length Extreme)) (SortFunc (by_distance median) Extreme) in
              (extremes, delete_values extremes feeds)
            else ([], feeds) in
          if (length extremes <? max)%nat && (0 <? length Mild)%nat then
            let milds := take (min (max - length extremes) (length Mild)) (SortFunc (by_distance median) Mild) in
            Ok (delete_values milds filtered)
          else Ok filtered
      end
  end.

Record LocalAggregator : Type := mkLocalAggregator { config : Config; Feeds : list int32 }.

(** What the two channels look like after a call, or that the call waits for
    room in [localAggregatesChannel] (its message is on the bus by then). *)
Inductive streamed : Type :=
| Returned (mb : Bus.MessageBus) (ch : list Aggregator.LocalAggregate) (err : option error)
| Waiting (mb : Bus.MessageBus).

Definition streamLocalAggregate (now : Time) (c : Config) (aggregated : float64)
    (mb : Bus.MessageBus) (ch : list Aggregator.LocalAggregate) : streamed :=
  if negb (feqb aggregated fzero) then
    let localAggregate := Aggregator.mkLocalAggregate (ID c) (to_int64 aggregated) now in
    let msg := Bus.mkMessage Bus.FETCHER Bus.AGGREGATOR
      (Bus.mkContent Bus.STREAM_LOCAL_AGGREGATE {["value" := Bus.AnyLocalAggregate localAggregate]}) 0 in
    let '(mb, err) := Bus.Publish msg mb in
    if (length ch <? LocalAggregatesChannelSize)%nat
    then Returned mb (ch ++ [localAggregate]) err else Waiting mb
  else Returned mb ch None.

Definition processFXPricePair (now : Time) (c : Config) (feeds : list FeedData)
    (mb : Bus.MessageBus) (ch : list Aggregator.LocalAggregate) : streamed :=
  match calculateMedian feeds with
  | Err err => Returned mb ch (Some err)
  | Ok median => streamLocalAggregate now c median mb ch
  end.

Definition processVolumeWeightedFeeds (now : Time) (c : Config) (feeds : list FeedData)
    (mb : Bus.MessageBus) (ch : list Aggregator.LocalAggregate) : streamed :=
  match filterOutliers feeds with
  | Err err => Returned mb ch (Some err)
  | Ok filtered =>
      let '(volumeWeightedFeeds, medianFeeds) := partitionFeeds filtered in
      match calculateVWAP volumeWeightedFeeds with
      | Err err => Returned mb ch (Some err)
      | Ok vwap =>
          match calculateMedian medianFeeds with
          | Err err => Returned mb ch (Some err)
          | Ok median => streamLocalAggregate now c (calculateAggregatedPrice vwap median) mb ch
          end
      end
  end.

Definition processFeeds (now : Time) (c : Config) (feeds : list FeedData)
    (mb : Bus.MessageBus) (ch : list Aggregator.LocalAggregate) : streamed :=
  if isFXPricePair (Name c) then processFXPricePair now c feeds mb ch
  else processVolumeWeightedFeeds now c feeds mb ch.

Definition collect (c : LocalAggregator) (m : LatestFeedDataMap) : list FeedData :=
  GetLatestFeedData m (Feeds c).

Definition Job (now : Time) (c : LocalAggregator) (m : LatestFeedDataMap)
    (mb : Bus.MessageBus) (ch : list Aggregator.LocalAggregate) : streamed :=
  let feeds := collect c m in
  if (length feeds =? 0)%nat then Returned mb ch None
  else processFeeds now (config c) feeds mb ch.

(** ** Theorems *)
Context (SortFunc_perm : forall cmp l, SortFunc cmp l ≡ₚ l).

Lemma filterOutliers_chosen feeds kept :
  filterOutliers feeds = Ok kept ->
  kept = feeds \/
  exists Mild Extreme vs, QuartileOutliers (Value <$> feeds) = Ok (Mild, Extreme) /\
    kept = delete_values vs feeds /\ vs ⊆ Mild ++ Extreme /\ (length vs <= Z.to_nat (maxOutliersToRemove feeds))%nat.
Proof.
  unfold filterOutliers. destruct (length feeds <? 5)%nat; [intros; simplify_eq; by left|].
  destruct (QuartileOutliers _) as [[Mild Extreme]|] eqn:HQ; [|done].
  destruct (_ && _); [intros; simplify_eq; by left|]. destruct (stats_Median _) as [median|]; [|done].
  set (mx := Z.to_nat _).
  assert (forall n l, take n (SortFunc (by_distance median) l) ⊆ l) as Hsub.
  { intros n l x Hx%elem_of_take. destruct Hx as (i & Hi & _). rewrite <- (SortFunc_perm (by_distance median) l).
    by eapply list_elem_of_lookup_2. }
  set (ext := if (0 <? length Extreme)%nat then _ else _).
  assert (exists extremes, ext = (extremes, delete_values extremes feeds) /\ extremes ⊆ Extreme /\ (length extremes <= mx)%nat)
    as (extremes & -> & He & Hl).
  { unfold ext. destruct (0 <? length Extreme)%nat.
    - eexists. split; [done|]. split; [apply Hsub|]. rewrite length_take. lia.
    - exists []. rewrite delete_values_nil. split; [done|]. split; [apply list_subseteq_nil|simpl; lia]. }
  destruct (_ && _); intros; simplify_eq; right; exists Mild, Extreme.
  - eexists. split; [done|]. rewrite delete_values_app. split; [done|]. split.
    + intros x [Hx|Hx]%elem_of_app; apply elem_of_app; [right; by apply He|left; by eapply Hsub].
    + rewrite length_app, length_take. lia.
  - exists extremes. split_and!; [done|done| |done]. intros x Hx. apply elem_of_app. right. by apply He.
Qed.

(** C24: the outlier filter only drops feeds, each with a price that is an
    outlier, of at most a quarter as many prices as there are feeds; when no two
    feeds have the same price it keeps at least three quarters of them. *)
Theorem outlier_filter_bounded feeds kept :
  (length feeds <= 4096)%nat -> filterOutliers feeds = Ok kept ->
  kept `sublist_of` feeds /\
  (forall f, f ∈ feeds -> f ∉ kept -> exists Mild Extreme v,
     QuartileOutliers (Value <$> feeds) = Ok (Mild, Extreme) /\ v ∈ Mild ++ Extreme /\ feqb v (Value f) = true) /\
  (exists vs, kept = delete_values vs feeds /\ (4 * length vs <= length feeds)%nat) /\
  (distinct feeds -> (3 * length feeds <= 4 * length kept)%nat).
Proof.
  intros Hlen Hf. pose proof (maxOutliersToRemove_quarter feeds Hlen) as Hmax.
  destruct (filterOutliers_chosen _ _ Hf) as [->|(Mild & Extreme & vs & HQ & -> & Hsub & Hvs)].
  - split_and!; [done|done| |lia]. exists []. rewrite delete_values_nil. split; [done|simpl; lia].
  - rewrite Hmax in Hvs.
    assert (4 * length vs <= length feeds)%nat as H4 by (pose proof (Z.mul_div_le (Z.of_nat (length feeds)) 4); lia).
    split_and!.
    + apply sublist_filter.
    + intros f Hin Hout. unfold delete_values in Hout. rewrite list_elem_of_filter in Hout.
      destruct (contains vs (Value f)) eqn:Hc; [|by destruct Hout].
      apply existsb_exists in Hc as (v & Hv & Heq). exists Mild, Extreme, v. split_and!; [done| |done].
      apply Hsub. by apply list_elem_of_In.
    + by exists vs.
    + intros Hd. pose proof (delete_values_count vs feeds Hd). lia.
Qed.

(** A published price is queued for the aggregator application, which then has
    it as the latest of its config. *)
Lemma stream_delivered now c x mb ch q E a :
  feqb x fzero = false ->
  Bus.channels mb !! Bus.AGGREGATOR = Some q -> (length q < Bus.msgBuffer mb)%nat ->
  (length ch < LocalAggregatesChannelSize)%nat ->
  let la := Aggregator.mkLocalAggregate (ID c) (to_int64 x) now in
  exists mb' msg a',
    streamLocalAggregate now c x mb ch = Returned mb' (ch ++ [la]) None /\
    Bus.channels mb' !! Bus.AGGREGATOR = Some (q ++ [msg]) /\
    App.handleMessage E msg a = Some (a', []) /\ Aggregator.Load (App.Latest a') (ID c) = Some la.
Proof.
  intros Hx Hq Hroom Hch la. unfold streamLocalAggregate. rewrite Hx. simpl.
  unfold Bus.Publish. simpl. rewrite Hq, (proj2 (Nat.ltb_lt _ _) Hroom), (proj2 (Nat.ltb_lt _ _) Hch).
  eexists _, _, _. split; [done|]. simpl. rewrite lookup_insert_eq. split; [done|].
  split; [reflexivity|]. simpl. apply lookup_insert_eq.
Qed.

(** For a foreign-exchange pair with data, a job sends the median of the
    newest prices, cut to an integer, to the aggregator application, which then
    holds it as its latest local price; a median of zero sends nothing. *)
Theorem fx_price_reaches_aggregator now c m mb ch q E a :
  isFXPricePair (Name (config c)) = true -> collect c m <> [] ->
  Bus.channels mb !! Bus.AGGREGATOR = Some q -> (length q < Bus.msgBuffer mb)%nat ->
  (length ch < LocalAggregatesChannelSize)%nat ->
  exists med, GetFloatMed (Value <$> collect c m) = Ok med /\
    (feqb med fzero = true -> Job now c m mb ch = Returned mb ch None) /\
    (feqb med fzero = false ->
     let la := Aggregator.mkLocalAggregate (ID (config c)) (to_int64 med) now in
     exists mb' msg a',
       Job now c m mb ch = Returned mb' (ch ++ [la]) None /\
       Bus.channels mb' !! Bus.AGGREGATOR = Some (q ++ [msg]) /\
       App.handleMessage E msg a = Some (a', []) /\ Aggregator.Load (App.Latest a') (ID (config c)) = Some la).
Proof.
  intros Hfx Hne Hq Hroom Hch.
  destruct (GetFloatMed_Ok (Value <$> collect c m)) as [med Hmed]; [by destruct (collect c m)|].
  assert (Job now c m mb ch = streamLocalAggregate now (config c) med mb ch) as ->.
  { unfold Job. rewrite (proj2 (Nat.eqb_neq _ _)) by (by destruct (collect c m)).
    unfold processFeeds, processFXPricePair, calculateMedian. by rewrite Hfx, bool_decide_eq_false_2, Hmed. }
  exists med. split_and!; [done| |].
  - intros H0. unfold streamLocalAggregate. by rewrite H0.
  - intros H0 la. by apply stream_delivered.
Qed.

(** A price that is not a number, or infinite, is streamed all the same, as
    the least 64-bit integer, and a leader that collects it leaves it out of the
    median. *)
Theorem unusable_price_filtered now c x mb ch p1 p2 :
  isNaN x = true \/ (exists s, x = S754_infinity s) -> (length ch < LocalAggregatesChannelSize)%nat ->
  let la := Aggregator.mkLocalAggregate (ID c) min_int64 now in
  (exists mb' err, streamLocalAggregate now c x mb ch = Returned mb' (ch ++ [la]) err) /\
  Aggregator.FilterNegative (p1 ++ Aggregator.la_Value la :: p2) = Aggregator.FilterNegative (p1 ++ p2).
Proof.
  intros Hx Hch la. split.
  - assert (feqb x fzero = false /\ to_int64 x = min_int64) as [H0 Hi].
    { destruct Hx as [Hx|[s ->]]; [by destruct x|by destruct s]. }
    unfold streamLocalAggregate. rewrite H0, Hi. simpl. destruct (Bus.Publish _ mb) as [mb' err].
    rewrite (proj2 (Nat.ltb_lt _ _) Hch). by eexists _, _.
  - unfold Aggregator.FilterNegative. by rewrite !filter_app.
Qed.

End local_aggregator.

(** Prices that occur more than once count once in the bound but are all
    removed: of sixteen feeds, ten at 100, three at 1000000 and three at 0, all
    six outliers go, though four is the limit. *)
Definition w_fd (id v : Z) : FeedData := mkFeedData id (of_int v) fzero (Some 0).
Definition w_sixteen : list FeedData :=
  (w_fd 1 <$> replicate 10 100) ++ (w_fd 2 <$> replicate 3 1000000) ++ (w_fd 3 <$> replicate 3 0).
Definition w_outliers (l : list float64) : res (list float64 * list float64) :=
  Ok ([], filter (fun x => x <> of_int 100) l).
Definition w_median (l : list float64) : res float64 := GetFloatMed l.
Definition not_after (cmp : float64 -> float64 -> Z) : relation spec_float := fun a b => cmp a b <= 0.
#[export] Instance not_after_dec cmp : RelDecision (not_after cmp).
Proof. intros a b. unfold not_after. apply _. Defined.
Definition w_sort (cmp : float64 -> float64 -> Z) (l : list float64) : list float64 := merge_sort (not_after cmp) l.
Lemma w_sort_perm cmp l : w_sort cmp l ≡ₚ l.
Proof. apply merge_sort_Permutation. Qed.

Lemma repeated_outliers_exceed_limit :
  maxOutliersToRemove w_sixteen = 4 /\
  res_map length (filterOutliers w_outliers w_median w_sort w_sixteen) = Ok 10%nat.
Proof. vm_compute. auto. Qed.

Lemma outlier_filter_bounded_witness : exists kept,
  filterOutliers w_outliers w_median w_sort w_sixteen = Ok kept /\ kept `sublist_of` w_sixteen.
Proof.
  destruct (filterOutliers w_outliers w_median w_sort w_sixteen) as [kept|] eqn:Hf.
  - exists kept. split; [done|]. eapply (outlier_filter_bounded w_outliers w_median w_sort w_sort_perm); [|done].
    vm_compute. lia.
  - exfalso. vm_compute in Hf. discriminate.
Defined.

Definition w_la : LocalAggregator := mkLocalAggregator (mkConfig 7 "EUR-USD" 500) [1; 2].
Definition w_map : LatestFeedDataMap := {[1 := w_fd 1 100; 2 := w_fd 2 102]}.
Definition w_bus : Bus.MessageBus := Bus.Subscribe Bus.AGGREGATOR (Bus.New 2).

Lemma fx_price_reaches_aggregator_witness : exists med,
  GetFloatMed (Value <$> collect w_la w_map) = Ok med /\ to_int64 med = 101.
Proof.
  destruct (fx_price_reaches_aggregator w_outliers w_median w_sort 5 w_la w_map w_bus [] [] App.w_aenv App.New)
    as (med & Hmed & _).
  - vm_compute. reflexivity.
  - vm_compute. discriminate.
  - vm_compute. reflexivity.
  - vm_compute. lia.
  - vm_compute. lia.
  - exists med. split; [done|]. vm_compute in Hmed. simplify_eq. vm_compute. reflexivity.
Defined.

Lemma unusable_price_filtered_witness :
  Aggregator.FilterNegative ([5] ++ min_int64 :: [6]) = [5; 6].
Proof.
  apply (unusable_price_filtered 5 (mkConfig 7 "EUR-USD" 500) S754_nan w_bus [] [5] [6]); [by left|].
  vm_compute. lia.
Defined.
End LocalAggregator.
