(* ===== verification/FetcherApp.v ===== *)
(** * FetcherApp: the fetchers, local aggregators and bulk writers of a node

    [node/pkg/fetcher/app.go] with the two bulk writers it runs.  Contexts are
    numbered, and [live] counts the goroutines started on a context that is not
    cancelled.  [handleMessage] is what one command does when no other is handled
    meanwhile; [Runners] has the commands and the goroutines interleaved. *)

From S2P Require Import Prelude Errors Aggregator Bus LocalAggregator.
Import Bus.

Local Open Scope Z_scope.

(** ** Things that run

    Fetchers, local aggregators and the writer of feed data are started and
    stopped alike: [isRunning] and [cancel] beside one goroutine on the context
    that [cancel] cancels. *)
Module Pool.

Record Runner : Type := mkRunner { isRunning : bool; cancel : option nat }.
Definition idle : Runner := mkRunner false None.

(** [loops]: every goroutine ever started, with its context. *)
Record Pool : Type := mkPool {
  runners : gmap Z Runner; next : nat; cancelled : list nat; loops : list (Z * nat)
}.
Definition empty : Pool := mkPool ∅ 0 [] [].

(** [startFetcher], [startLocalAggregator]: nothing for one that runs. *)
Definition start (id : Z) (p : Pool) : Pool :=
  match runners p !! id with
  | Some r =>
      if isRunning r then p
      else mkPool (<[id := mkRunner true (Some (next p))]> (runners p)) (S (next p)) (cancelled p)
             ((id, next p) :: loops p)
  | None => p
  end.

(** [stopFetcher], [stopLocalAggregator], with the error for a missing
    [cancel]. *)
Definition stop (missing : CustomError) (id : Z) (p : Pool) : Pool * option error :=
  match runners p !! id with
  | Some r =>
      if negb (isRunning r) then (p, None)
      else match cancel r with
           | None => (p, Some (Sentinel missing))
           | Some c => (mkPool (<[id := mkRunner false (Some c)]> (runners p)) (next p) (c :: cancelled p) (loops p), None)
           end
  | None => (p, None)
  end.

Definition ids (p : Pool) : list Z := (map_to_list (runners p)).*1.
Definition startAll (p : Pool) : Pool := foldl (fun p id => start id p) p (ids p).

(** The loop of [stopAllFetchers] and [stopAllLocalAggregators]: the first
    error ends it. *)
Fixpoint stop_loop (missing : CustomError) (l : list Z) (p : Pool) : Pool * option error :=
  match l with
  | [] => (p, None)
  | id :: l =>
      match stop missing id p with
      | (p, Some err) => (p, Some err)
      | (p, None) => stop_loop missing l p
      end
  end.
Definition stopAll (missing : CustomError) (p : Pool) : Pool * option error := stop_loop missing (ids p) p.

(** New runners in place of the old ones. *)
Definition replace (m : gmap Z Runner) (p : Pool) : Pool := mkPool m (next p) (cancelled p) (loops p).

(** *** One goroutine for each that runs *)
Definition live (p : Pool) (id : Z) (c : nat) : Prop := (id, c) ∈ loops p /\ c ∉ cancelled p.

Record inv (p : Pool) : Prop := {
  inv_fresh : forall id c, (id, c) ∈ loops p -> (c < next p)%nat;
  inv_cancelled : forall c, c ∈ cancelled p -> (c < next p)%nat;
  inv_unique : NoDup (loops p).*2;
  inv_running : forall id r, runners p !! id = Some r -> isRunning r = true ->
    exists c, cancel r = Some c /\ live p id c;
  inv_live : forall id c, live p id c ->
    exists r, runners p !! id = Some r /\ isRunning r = true /\ cancel r = Some c
}.

Lemma inv_empty : inv empty.
Proof.
  constructor; simpl.
  - by intros ?? ?%not_elem_of_nil.
  - by intros ? ?%not_elem_of_nil.
  - constructor.
  - intros ??. by rewrite lookup_empty.
  - by intros ?? [?%not_elem_of_nil _].
Qed.

Lemma loops_inj p i j c : inv p -> (i, c) ∈ loops p -> (j, c) ∈ loops p -> i = j.
Proof.
  intros Hp. pose proof (inv_unique _ Hp) as Hn. clear Hp. revert Hn. generalize (loops p). intros l.
  induction l as [|[k d] l IH]; intros Hn Hi Hj; [by apply not_elem_of_nil in Hi|].
  simpl in Hn. apply NoDup_cons in Hn as [Hd Hn].
  assert (forall x, (x, c) ∈ l -> c ∈ l.*2) as Hmem
    by (intros x Hx; apply list_elem_of_fmap; by exists (x, c)).
  apply elem_of_cons in Hi as [Hi|Hi], Hj as [Hj|Hj]; simplify_eq; try done.
  - by destruct Hd; eapply Hmem.
  - by destruct Hd; eapply Hmem.
  - by apply IH.
Qed.

Lemma inv_start id p : inv p -> inv (start id p).
Proof.
  intros Hp. unfold start. destruct (runners p !! id) as [r|] eqn:Hr; [|done].
  destruct (isRunning r) eqn:Hrun; [done|]. constructor; simpl.
  - intros i c [?|Hin]%elem_of_cons; simplify_eq; [lia|]. pose proof (inv_fresh _ Hp _ _ Hin). lia.
  - intros c Hc. pose proof (inv_cancelled _ Hp _ Hc). lia.
  - apply NoDup_cons. split; [|apply Hp]. intros ([i c] & ? & Hin)%list_elem_of_fmap. simplify_eq/=.
    pose proof (inv_fresh _ Hp _ _ Hin). lia.
  - intros i r' [[<- <-]|[Hne Hr']]%lookup_insert_Some Hrun'; unfold live; simpl.
    + exists (next p). split; [done|]. split; [by left|]. intros Hc. pose proof (inv_cancelled _ Hp _ Hc). lia.
    + destruct (inv_running _ Hp _ _ Hr' Hrun') as (c & Hc & Hl & Hnc). exists c. split_and!; [done|by right|done].
  - intros i c [[?|Hin]%elem_of_cons Hnc]; simplify_eq/=.
    + rewrite lookup_insert_eq. eauto.
    + destruct (inv_live _ Hp i c) as (r' & Hr' & Hrun' & Hc'); [done|].
      exists r'. rewrite lookup_insert_ne; [done|]. intros ->. congruence.
Qed.

Lemma inv_stop missing id p :
  inv p -> exists p', stop missing id p = (p', None) /\ inv p' /\
    (forall r, runners p' !! id = Some r -> isRunning r = false) /\
    (forall i, i <> id -> runners p' !! i = runners p !! i).
Proof.
  intros Hp. unfold stop. destruct (runners p !! id) as [r|] eqn:Hr; [|exists p; naive_solver].
  destruct (isRunning r) eqn:Hrun; simpl; [|exists p; naive_solver].
  destruct (inv_running _ Hp _ _ Hr Hrun) as (c & Hc & Hl & Hnc). rewrite Hc. eexists. split; [done|].
  split_and!; simpl.
  - constructor; simpl.
    + apply Hp.
    + intros d [->|Hd]%elem_of_cons; [by eapply inv_fresh|by apply Hp].
    + apply Hp.
    + intros i r' [[<- <-]|[Hne Hr']]%lookup_insert_Some Hrun'; [done|].
      destruct (inv_running _ Hp _ _ Hr' Hrun') as (d & Hd & Hl' & Hnd). exists d. split_and!; [done..|].
      unfold live; simpl. split; [done|]. intros [->|?]%elem_of_cons; [|done].
      by apply Hne, (loops_inj p id i c).
    + intros i d [Hin Hnd]. simpl in *. apply not_elem_of_cons in Hnd as [Hne Hnd].
      destruct (inv_live _ Hp i d) as (r' & Hr' & Hrun' & Hc'); [done|].
      exists r'. rewrite lookup_insert_ne; [done|]. intros ->. congruence.
  - intros r'. rewrite lookup_insert_eq. intros. by simplify_eq.
  - intros i Hi. by rewrite lookup_insert_ne.
Qed.

Lemma inv_startAll p : inv p -> inv (startAll p).
Proof.
  unfold startAll. generalize (ids p). intros l. revert p.
  induction l as [|id l IH]; intros p Hp; [done|]. simpl. by apply IH, inv_start.
Qed.

Definition stopped (p : Pool) : Prop := forall id r, runners p !! id = Some r -> isRunning r = false.

Lemma inv_stop_all missing p : inv p -> exists p', stopAll missing p = (p', None) /\ inv p' /\ stopped p'.
Proof.
  intros Hp. unfold stopAll.
  assert (forall l p, inv p -> exists p', stop_loop missing l p = (p', None) /\ inv p' /\
    (forall id r, runners p' !! id = Some r -> id ∈ l \/ (exists r0, runners p !! id = Some r0 /\ isRunning r0 = false) -> isRunning r = false) /\
    (forall id, is_Some (runners p' !! id) -> is_Some (runners p !! id))) as Hloop.
  { clear. induction l as [|i l IH]; intros p Hp.
    - exists p. simpl. split_and!; [done..| |done]. intros id r Hr [?%not_elem_of_nil|(r0 & Hr0 & ?)]; [done|]. congruence.
    - destruct (inv_stop missing i p Hp) as (p1 & Hs & Hp1 & Hi & Ho). simpl. rewrite Hs.
      destruct (IH p1 Hp1) as (p2 & Hl & Hp2 & Hst & Hsub). exists p2. split_and!; [done..| |].
      + intros id r Hr Hor. apply (Hst id r Hr). destruct (decide (id = i)) as [->|Hne].
        * right. destruct (Hsub i) as [r1 Hr1]; [by eexists|]. eauto.
        * rewrite (Ho id Hne). destruct Hor as [[?|?]%elem_of_cons|?]; [done|by left|by right].
      + intros id Hid. apply Hsub in Hid. destruct (decide (id = i)) as [->|Hne].
        * unfold stop in Hs. destruct (runners p !! i) eqn:Hri; [done|]. simplify_eq. congruence.
        * by rewrite <- (Ho id Hne). }
  destruct (Hloop (ids p) p Hp) as (p' & Hl & Hp' & Hst & Hsub). exists p'. split_and!; [done..|].
  intros id r Hr. apply (Hst id r Hr). left. destruct (Hsub id) as [r0 Hr0]; [by eexists|].
  apply list_elem_of_fmap. exists (id, r0). split; [done|]. by apply elem_of_map_to_list.
Qed.

Lemma inv_replace m p :
  inv p -> stopped p -> (forall id r, m !! id = Some r -> isRunning r = false) -> inv (replace m p).
Proof.
  intros Hp Hs Hm. constructor; simpl.
  - apply Hp.
  - apply Hp.
  - apply Hp.
  - intros id r Hr Hrun. rewrite (Hm _ _ Hr) in Hrun. done.
  - intros id c Hl. destruct (inv_live _ Hp id c Hl) as (r & Hr & Hrun & _). rewrite (Hs _ _ Hr) in Hrun. done.
Qed.

(** One that runs has exactly one live goroutine, any other none. *)
Lemma one_live p id r :
  inv p -> runners p !! id = Some r ->
  if isRunning r then exists! c, live p id c else forall c, ~ live p id c.
Proof.
  intros Hp Hr. destruct (isRunning r) eqn:Hrun.
  - destruct (inv_running _ Hp _ _ Hr Hrun) as (c & Hc & Hl). exists c. split; [done|].
    intros c' (r' & Hr' & _ & Hc')%(inv_live _ Hp). congruence.
  - intros c (r' & Hr' & Hrun' & _)%(inv_live _ Hp). congruence.
Qed.
End Pool.

(** ** The application *)
Module FetcherApp.
Import Pool LocalAggregator.

(** [LocalAggregateBulkWriter]: the channel it reads is numbered. *)
Record LocalWriter : Type := mkLocalWriter {
  lw_isRunning : bool; lw_cancel : option nat; lw_channel : nat
}.

(** The writer of feed data is the runner 0 of [FeedWriter], absent while it is
    nil.  [w_next], [w_cancelled], [w_loops]: contexts and goroutines of the
    writer of local aggregates, a goroutine with the channel it reads and the
    context it writes with.  The websocket fetcher is represented by whether it
    was last started or stopped. *)
Record App : Type := mkApp {
  Fetchers : Pool;
  LocalAggregators : Pool;
  FeedWriter : Pool;
  LocalAggregateBulkWriter : option LocalWriter;
  w_next : nat;
  w_cancelled : list nat;
  w_loops : list (nat * nat);
  nextChannel : nat;
  wsStarted : bool
}.

Definition New : App := mkApp Pool.empty Pool.empty Pool.empty None 0 [] [] 0 false.

Definition set_Fetchers p (a : App) : App :=
  mkApp p (LocalAggregators a) (FeedWriter a) (LocalAggregateBulkWriter a) (w_next a) (w_cancelled a) (w_loops a) (nextChannel a) (wsStarted a).
Definition set_LocalAggregators p (a : App) : App :=
  mkApp (Fetchers a) p (FeedWriter a) (LocalAggregateBulkWriter a) (w_next a) (w_cancelled a) (w_loops a) (nextChannel a) (wsStarted a).
Definition set_FeedWriter p (a : App) : App :=
  mkApp (Fetchers a) (LocalAggregators a) p (LocalAggregateBulkWriter a) (w_next a) (w_cancelled a) (w_loops a) (nextChannel a) (wsStarted a).
Definition set_ws b (a : App) : App :=
  mkApp (Fetchers a) (LocalAggregators a) (FeedWriter a) (LocalAggregateBulkWriter a) (w_next a) (w_cancelled a) (w_loops a) (nextChannel a) b.
(** A new writer with a new channel. *)
Definition new_LocalWriter (a : App) : App :=
  mkApp (Fetchers a) (LocalAggregators a) (FeedWriter a) (Some (mkLocalWriter false None (nextChannel a)))
    (w_next a) (w_cancelled a) (w_loops a) (S (nextChannel a)) (wsStarted a).

(** What the database and the websocket fetcher answer. *)
Record Env : Type := mkEnv {
  getConfigs : res (list Config);
  getFeedsWithoutWss : Z -> res (list Z);
  getFeeds : Z -> res (list Z);
  getProxies : option error;
  wsInit : option error
}.

(** The loop of [initialize] over the configs. *)
Fixpoint init_loop (E : Env) (configs : list Config) (a : App) : App * option error :=
  match configs with
  | [] => (a, None)
  | config :: configs =>
      let id := LocalAggregator.ID config in
      match getFeedsWithoutWss E id with
      | Err err => (a, Some err)
      | Ok fetcherFeeds =>
          let a := if (0 <? length fetcherFeeds)%nat
                   then set_Fetchers (replace (<[id := idle]> (runners (Fetchers a))) (Fetchers a)) a else a in
          match getFeeds E id with
          | Err err => (a, Some err)
          | Ok _ =>
              init_loop E configs
                (set_LocalAggregators (replace (<[id := idle]> (runners (LocalAggregators a))) (LocalAggregators a)) a)
          end
      end
  end.

Definition initialize (E : Env) (a : App) : App * option error :=
  match getConfigs E with
  | Err err => (a, Some err)
  | Ok configs =>
      let a := set_LocalAggregators (replace ∅ (LocalAggregators a)) (set_Fetchers (replace ∅ (Fetchers a)) a) in
      match init_loop E configs (new_LocalWriter a) with
      | (a, Some err) => (a, Some err)
      | (a, None) =>
          let a := set_FeedWriter (replace {[0 := idle]} (FeedWriter a)) a in
          match getProxies E with
          | Some err => (a, Some err)
          | None => (a, wsInit E)
          end
      end
  end.

(** The test for a running writer only logs: the goroutine is started anyway.
    It sets [isRunning] and [cancel] when it starts to run, which is before the
    next command here.  [None]: the writer is nil. *)
Definition startLocalAggregateBulkWriter (a : App) : option App :=
  w ← LocalAggregateBulkWriter a;
  Some (mkApp (Fetchers a) (LocalAggregators a) (FeedWriter a)
    (Some (mkLocalWriter true (Some (w_next a)) (lw_channel w))) (S (w_next a)) (w_cancelled a)
    ((lw_channel w, w_next a) :: w_loops a) (nextChannel a) (wsStarted a)).

(** The goroutine watches the context it was started with, not the one that
    [cancel] cancels: stopping ends no goroutine. *)
Definition stopLocalAggregateBulkWriter (a : App) : option (App * option error) :=
  w ← LocalAggregateBulkWriter a;
  if negb (lw_isRunning w) then Some (a, None) else
  match lw_cancel w with
  | None => Some (a, Some (Sentinel ErrLocalAggregateBulkWriterCancelNotFound))
  | Some c =>
      Some (mkApp (Fetchers a) (LocalAggregators a) (FeedWriter a)
        (Some (mkLocalWriter false (Some c) (lw_channel w))) (w_next a) (c :: w_cancelled a) (w_loops a)
        (nextChannel a) (wsStarted a), None)
  end.

Definition startFeedDataBulkWriter (a : App) : option App :=
  _ ← runners (FeedWriter a) !! 0; Some (set_FeedWriter (start 0 (FeedWriter a)) a).
Definition stopFeedDataBulkWriter (a : App) : option (App * option error) :=
  _ ← runners (FeedWriter a) !! 0;
  let '(p, err) := stop ErrFeedDataBulkWriterCancelNotFound 0 (FeedWriter a) in Some (set_FeedWriter p a, err).

Definition startLocalAggregator (id : Z) (a : App) : App := set_LocalAggregators (start id (LocalAggregators a)) a.
Definition stopLocalAggregator (id : Z) (a : App) : App * option error :=
  let '(p, err) := stop ErrLocalAggregatorCancelNotFound id (LocalAggregators a) in (set_LocalAggregators p a, err).

Definition startAllFetchers (a : App) : App := set_Fetchers (startAll (Fetchers a)) a.
Definition startAllLocalAggregators (a : App) : App := set_LocalAggregators (startAll (LocalAggregators a)) a.
Definition stopAllFetchers (a : App) : App * option error :=
  let '(p, err) := stopAll ErrFetcherCancelNotFound (Fetchers a) in (set_Fetchers p a, err).
Definition stopAllLocalAggregators (a : App) : App * option error :=
  let '(p, err) := stopAll ErrLocalAggregatorCancelNotFound (LocalAggregators a) in (set_LocalAggregators p a, err).

(** All are started one after the other. *)
Lemma startAllLocalAggregators_each a :
  startAllLocalAggregators a = foldl (fun a id => startLocalAggregator id a) a (ids (LocalAggregators a)).
Proof.
  unfold startAllLocalAggregators, startAll. generalize (ids (LocalAggregators a)). intros l. revert a.
  induction l as [|id l IH]; intros a; simpl; [by destruct a|]. by rewrite <- IH.
Qed.

(** [startAll] and [stopAll] of the application. *)
Definition app_startAll (a : App) : option App :=
  a ← startLocalAggregateBulkWriter (startAllFetchers a);
  startFeedDataBulkWriter (set_ws true (startAllLocalAggregators a)).

Definition app_stopAll (a : App) : option (App * option error) :=
  match stopAllFetchers (set_ws false a) with
  | (a, Some err) => Some (a, Some err)
  | (a, None) =>
      match stopAllLocalAggregators a with
      | (a, Some err) => Some (a, Some err)
      | (a, None) =>
          '(a, err) ← stopLocalAggregateBulkWriter a;
          match err with
          | Some err => Some (a, Some err)
          | None => stopFeedDataBulkWriter a
          end
      end
  end.

Definition Run (E : Env) (a : App) : option (App * option error) :=
  match initialize E a with
  | (a, Some err) => Some (a, Some err)
  | (a, None) => a ← app_startAll a; Some (a, None)
  end.

Definition ok (msg : Message) : list (nat * MessageResponse) := [(Response msg, mkResponse true None)].

Definition handleMessage (E : Env) (msg : Message) (a : App) : option (App * list (nat * MessageResponse)) :=
  if negb (bool_decide (From msg = ADMIN)) then Some (a, []) else
  if negb (bool_decide (To msg = FETCHER)) then Some (a, []) else
  let cmd := Command (Content msg) in
  if bool_decide (cmd = STOP_FETCHER_APP) then
    '(a, err) ← app_stopAll a;
    match err with
    | Some err => Some (a, HandleMessageError err msg)
    | None => Some (a, ok msg)
    end
  else if bool_decide (cmd = START_FETCHER_APP) then
    a ← app_startAll a; Some (a, ok msg)
  else if bool_decide (cmd = REFRESH_FETCHER_APP) then
    '(a, err) ← app_stopAll a;
    match err with
    | Some err => Some (a, HandleMessageError err msg)
    | None =>
        match initialize E a with
        | (a, Some err) => Some (a, HandleMessageError err msg)
        | (a, None) => a ← app_startAll a; Some (a, ok msg)
        end
    end
  else Some (a, []).

(** ** The job of the writer of local aggregates *)
Section writer.

(** [db.BulkCopy]: the first argument says that its context is cancelled. *)
Context (BulkCopy : bool -> list (Z * Z * Z) -> option error).

(** The rows written, and what is left in the channel. *)
Definition bulkWriterJob (ctx_cancelled : bool) (ch : list Aggregator.LocalAggregate)
    : list (Z * Z * Z) * list Aggregator.LocalAggregate :=
  if (length ch =? 0)%nat then ([], ch) else
  let rows := (fun d => (Aggregator.la_ConfigID d, Aggregator.la_Value d, Aggregator.la_Timestamp d)) <$> ch in
  match BulkCopy ctx_cancelled rows with
  | Some _ => ([], [])
  | None => (rows, [])
  end.
End writer.

(** ** Invariant *)
Record ainv (a : App) : Prop := {
  ai_fetchers : inv (Fetchers a);
  ai_locals : inv (LocalAggregators a);
  ai_feeds : inv (FeedWriter a);
  ai_feed_only : forall id, is_Some (runners (FeedWriter a) !! id) -> id = 0;
  ai_local : exists w, LocalAggregateBulkWriter a = Some w /\
    (lw_isRunning w = true -> exists c, lw_cancel w = Some c /\ c ∉ w_cancelled a /\ (lw_channel w, c) ∈ w_loops a);
  ai_cancelled : forall c, c ∈ w_cancelled a -> (c < w_next a)%nat;
  ai_loops : forall x c, (x, c) ∈ w_loops a -> (c < w_next a)%nat
}.

(** The writer of feed data is not nil. *)
Definition ready (a : App) : Prop := is_Some (runners (FeedWriter a) !! 0).

Lemma start_dom id p i : is_Some (runners (start id p) !! i) <-> is_Some (runners p !! i).
Proof.
  unfold start. destruct (runners p !! id) as [r|] eqn:Hr; [|done]. destruct (isRunning r); [done|].
  simpl. rewrite lookup_insert_is_Some'. split; [intros [<-|?]; [by eexists|done]|by right].
Qed.

Lemma stop_dom missing id p i : is_Some (runners (fst (stop missing id p)) !! i) <-> is_Some (runners p !! i).
Proof.
  unfold stop. destruct (runners p !! id) as [r|] eqn:Hr; [|done]. destruct (negb (isRunning r)); [done|].
  destruct (cancel r); [|done]. simpl. rewrite lookup_insert_is_Some'.
  split; [intros [<-|?]; [by eexists|done]|by right].
Qed.

Lemma ainv_startAll a : ainv a -> ready a -> exists a', app_startAll a = Some a' /\ ainv a' /\ ready a' /\
  w_cancelled a' = w_cancelled a /\
  (forall w, LocalAggregateBulkWriter a = Some w ->
     LocalAggregateBulkWriter a' = Some (mkLocalWriter true (Some (w_next a)) (lw_channel w)) /\
     w_loops a' = (lw_channel w, w_next a) :: w_loops a).
Proof.
  intros [Hf Hl Hfe Hdom (w & Hw & Hrun) Hc Hlo] [r Hr]. unfold app_startAll, startLocalAggregateBulkWriter. simpl. rewrite Hw.
  simpl. unfold startFeedDataBulkWriter. simpl. rewrite Hr. simpl.
  eexists. split; [done|]. split_and!.
  - constructor; simpl.
    + by apply inv_startAll.
    + by apply inv_startAll.
    + by apply inv_start.
    + intros id. rewrite start_dom. apply Hdom.
    + eexists. split; [done|]. intros _. exists (w_next a). simpl. split_and!; [done| |by left].
      intros Hin%Hc. lia.
    + intros c Hin%Hc. lia.
    + intros x c [?|Hin%Hlo]%elem_of_cons; simplify_eq; lia.
  - unfold ready. simpl. apply start_dom. by eexists.
  - done.
  - intros w' ?. by simplify_eq.
Qed.

(** Stopping the writer of local aggregates. *)
Lemma stopLocal a w :
  ainv a -> LocalAggregateBulkWriter a = Some w ->
  exists a', stopLocalAggregateBulkWriter a = Some (a', None) /\ ainv a' /\
    Fetchers a' = Fetchers a /\ LocalAggregators a' = LocalAggregators a /\ FeedWriter a' = FeedWriter a /\
    w_loops a' = w_loops a /\
    (forall c, lw_isRunning w = true -> lw_cancel w = Some c ->
       LocalAggregateBulkWriter a' = Some (mkLocalWriter false (Some c) (lw_channel w)) /\
       w_cancelled a' = c :: w_cancelled a).
Proof.
  intros Ha Hw. unfold stopLocalAggregateBulkWriter. rewrite Hw. simpl.
  destruct (lw_isRunning w) eqn:Hrun; simpl; [|exists a; by split_and!].
  destruct (ai_local _ Ha) as (w' & Hw' & Hc'). simplify_eq. destruct (Hc' Hrun) as (c & Hc & Hnc & Hin). rewrite Hc.
  eexists. split; [done|]. split_and!; try done.
  - destruct Ha. constructor; simpl; try done.
    + eexists. by split.
    + intros d [->|?]%elem_of_cons; eauto.
  - intros d _ ?. by simplify_eq.
Qed.

Lemma ainv_stopAll a : ainv a -> ready a -> exists a', app_stopAll a = Some (a', None) /\ ainv a' /\ ready a' /\
  stopped (Fetchers a') /\ stopped (LocalAggregators a') /\ stopped (FeedWriter a') /\
  w_loops a' = w_loops a /\
  (forall w c, LocalAggregateBulkWriter a = Some w -> lw_isRunning w = true -> lw_cancel w = Some c ->
     LocalAggregateBulkWriter a' = Some (mkLocalWriter false (Some c) (lw_channel w)) /\
     w_cancelled a' = c :: w_cancelled a).
Proof.
  intros Ha Hready. unfold app_stopAll, stopAllFetchers, stopAllLocalAggregators. simpl.
  destruct (inv_stop_all ErrFetcherCancelNotFound _ (ai_fetchers _ Ha)) as (pf & -> & Hpf & Hsf). simpl.
  destruct (inv_stop_all ErrLocalAggregatorCancelNotFound _ (ai_locals _ Ha)) as (pl & -> & Hpl & Hsl). simpl.
  destruct (ai_local _ Ha) as (w & Hw & Hrun).
  set (b := set_LocalAggregators pl _).
  assert (ainv b) as Hb by (destruct Ha; constructor; simpl; try done; by eexists).
  destruct (stopLocal b w Hb Hw) as (b' & -> & Hb' & Hbf & Hbl & Hbw & Hlo & Hst). simpl.
  unfold stopFeedDataBulkWriter. unfold ready in Hready. destruct Hready as [r Hr]. rewrite Hbw. change (FeedWriter b) with (FeedWriter a).
  rewrite Hr. simpl. change (FeedWriter b) with (FeedWriter a) in Hbw.
  pose proof (stop_dom ErrFeedDataBulkWriterCancelNotFound 0 (FeedWriter a)) as Hdom.
  destruct (inv_stop ErrFeedDataBulkWriterCancelNotFound 0 _ (ai_feeds _ Ha)) as (pw & Hs & Hpw & H0 & _).
  rewrite Hs in *. simpl in Hdom. eexists. split; [done|]. split_and!; simpl.
  - destruct Hb'. constructor; simpl; try done. intros id. rewrite Hdom. apply Ha.
  - apply Hdom. by eexists.
  - by rewrite Hbf.
  - by rewrite Hbl.
  - intros id r' Hr'. assert (id = 0) as -> by (apply (ai_feed_only _ Ha), Hdom; by eexists). by apply H0.
  - done.
  - intros w' c Hw' Hrun' Hc'. simplify_eq. by apply Hst.
Qed.

Lemma init_loop_ok E configs : forall a a' err,
  init_loop E configs a = (a', err) ->
  ainv a -> stopped (Fetchers a) -> stopped (LocalAggregators a) ->
  ainv a' /\ stopped (Fetchers a') /\ stopped (LocalAggregators a') /\ FeedWriter a' = FeedWriter a.
Proof.
  assert (forall id p, stopped p -> stopped (replace (<[id := idle]> (runners p)) p)) as Hidle.
  { intros id p Hs i r Hr. simpl in Hr. apply lookup_insert_Some in Hr as [[<- <-]|[_ Hr]]; [done|by eapply Hs]. }
  induction configs as [|config configs IH]; intros a a' err H Ha Hf Hl; simpl in H; [by simplify_eq|].
  destruct (getFeedsWithoutWss E _) as [feeds|]; [|by simplify_eq].
  set (b := if (0 <? length feeds)%nat then _ else a) in H.
  assert (ainv b /\ stopped (Fetchers b) /\ LocalAggregators b = LocalAggregators a /\ FeedWriter b = FeedWriter a)
    as (Hb & Hbf & Hbl & Hbw).
  { unfold b. destruct (0 <? length feeds)%nat; [|done]. split_and!; try done; [|by apply Hidle].
    destruct Ha. constructor; simpl; try done. apply inv_replace; [done..|]. by apply Hidle. }
  destruct (getFeeds E _); [|simplify_eq; by rewrite Hbl].
  apply IH in H as (? & ? & ? & Hw); simpl in *; [|  |done|].
  - split_and!; try done. by rewrite Hw.
  - destruct Hb. constructor; simpl; try done. rewrite Hbl in *. apply inv_replace; [done..|]. by apply Hidle.
  - rewrite Hbl. by apply Hidle.
Qed.

(** A state in which nothing runs, as before the first start. *)
Definition quiet (a : App) : Prop :=
  inv (Fetchers a) /\ inv (LocalAggregators a) /\ inv (FeedWriter a) /\
  stopped (Fetchers a) /\ stopped (LocalAggregators a) /\ stopped (FeedWriter a) /\
  (forall id, is_Some (runners (FeedWriter a) !! id) -> id = 0) /\
  (forall c, c ∈ w_cancelled a -> (c < w_next a)%nat) /\
  (forall x c, (x, c) ∈ w_loops a -> (c < w_next a)%nat).

Lemma initialize_ok E a a' err :
  quiet a -> initialize E a = (a', err) -> (a' = a \/ ainv a') /\ (err = None -> ready a') /\ (ready a -> ready a').
Proof.
  intros (Hf & Hl & Hw & Hsf & Hsl & Hsw & Hdom & Hc & Hlo). unfold initialize.
  destruct (getConfigs E) as [configs|]; [|naive_solver].
  set (b := new_LocalWriter _).
  assert (forall p, inv p -> stopped p -> inv (replace ∅ p)) as Hrep by (intros p ??; by apply inv_replace).
  assert (ainv b) as Hb.
  { constructor; simpl; auto. eexists. by split. }
  destruct (init_loop E configs b) as [b' err'] eqn:Hloop.
  destruct (init_loop_ok _ _ _ _ _ Hloop Hb) as (Hb' & _ & _ & Hfw); [done|done|]. change (FeedWriter b) with (FeedWriter a) in Hfw.
  unfold ready. destruct err' as [e|]; [intros; simplify_eq; rewrite Hfw; naive_solver|].
  set (d := set_FeedWriter _ b').
  assert (ainv d /\ is_Some (runners (FeedWriter d) !! 0)) as [Hd Hr].
  { split; [|simpl; rewrite lookup_singleton_eq; by eexists]. destruct Hb'. constructor; simpl; try done.
    - rewrite Hfw. apply inv_replace; [done..|]. intros id r [<- <-]%lookup_singleton_Some. done.
    - intros id [r [<- _]%lookup_singleton_Some]. done. }
  destruct (getProxies E); intros; simplify_eq; naive_solver.
Qed.

Lemma quiet_New : quiet New.
Proof.
  unfold quiet. split_and!; try apply inv_empty; try (intros ? ? H%not_elem_of_nil; done).
  1-3: by intros id r Hr; cbn in Hr; rewrite lookup_empty in Hr.
  intros id [? H]. cbn in H. by rewrite lookup_empty in H.
Qed.

(** ** Reachable states

    The application subscribes to the bus once it is initialized; each command is
    handled before the next one comes. *)
Inductive reach : App -> Prop :=
| reach_run E a : Run E New = Some (a, None) -> reach a
| reach_step E msg a a' rs : reach a -> handleMessage E msg a = Some (a', rs) -> reach a'.

Lemma handleMessage_ok E msg a :
  ainv a -> ready a -> exists a' rs, handleMessage E msg a = Some (a', rs) /\ ainv a' /\ ready a'.
Proof.
  intros Ha Hr. unfold handleMessage.
  destruct (negb _); [by eexists _, _|]. destruct (negb _); [by eexists _, _|].
  destruct (bool_decide (_ = STOP_FETCHER_APP)).
  { destruct (ainv_stopAll a Ha Hr) as (a' & -> & Ha' & Hr' & _). simpl. by eexists _, _. }
  destruct (bool_decide (_ = START_FETCHER_APP)).
  { destruct (ainv_startAll a Ha Hr) as (a' & -> & Ha' & Hr' & _). simpl. by eexists _, _. }
  destruct (bool_decide (_ = REFRESH_FETCHER_APP)); [|by eexists _, _].
  destruct (ainv_stopAll a Ha Hr) as (a1 & -> & Ha1 & Hr1 & Hsf & Hsl & Hsw & _). simpl.
  destruct (initialize E a1) as [a2 err] eqn:Hi.
  destruct (initialize_ok E a1 a2 err) as (Ha2 & _ & Hr2); [destruct Ha1; by split_and!|done|].
  assert (ainv a2) as Ha2' by (by destruct Ha2 as [->|]).
  destruct err; [eexists _, _; split; [done|auto]|].
  destruct (ainv_startAll a2 Ha2' (Hr2 Hr1)) as (a3 & -> & Ha3 & Hr3 & _). simpl. by eexists _, _.
Qed.

Lemma reach_ainv a : reach a -> ainv a /\ ready a.
Proof.
  induction 1 as [E a H|E msg a a' rs _ [IH1 IH2] H].
  - unfold Run in H. destruct (initialize E New) as [a1 err] eqn:Hi.
    destruct (initialize_ok _ _ _ _ quiet_New Hi) as (Ha1 & Hr1 & _). destruct err; [done|].
    specialize (Hr1 eq_refl). destruct Ha1 as [->|Ha1]; [destruct Hr1 as [? Hr1]; cbn in Hr1; by rewrite lookup_empty in Hr1|].
    destruct (ainv_startAll a1 Ha1 Hr1) as (a2 & Hs & Ha2 & Hr2 & _). rewrite Hs in H. simpl in H. by simplify_eq.
  - destruct (handleMessage_ok E msg a IH1 IH2) as (a2 & rs2 & Hh & ? & ?). rewrite Hh in H. by simplify_eq.
Qed.

(** When each command is handled before the next one comes: after any history
    of such commands, none of which panics, every fetcher, local aggregator and
    the writer of feed data has exactly one goroutine that was started on a context
    that is not cancelled when it is marked as running, and none otherwise. *)
Theorem fetcher_one_goroutine_each a p id r :
  reach a -> p ∈ [Fetchers a; LocalAggregators a; FeedWriter a] -> runners p !! id = Some r ->
  (if isRunning r then exists! c, live p id c else forall c, ~ live p id c) /\
  forall E msg, is_Some (handleMessage E msg a).
Proof.
  intros [Ha Hready]%reach_ainv Hp Hr. split.
  - apply one_live; [|done]. destruct Ha. set_solver.
  - intros E msg. destruct (handleMessage_ok E msg a Ha Hready) as (a' & rs & -> & _). by eexists.
Qed.

(** ** The goroutines of the writer of local aggregates *)
Definition command (c : string) : Message := mkMessage ADMIN FETCHER (mkContent c ∅) 0.

(** [n] times: stop the application, then start it. *)
Fixpoint restarts (E : Env) (n : nat) (a : App) : option App :=
  match n with
  | O => Some a
  | S n =>
      '(a, _) ← handleMessage E (command STOP_FETCHER_APP) a;
      '(a, _) ← handleMessage E (command START_FETCHER_APP) a;
      restarts E n a
  end.

(** The goroutines that read a channel and write with a cancelled context. *)
Definition dead (channel : nat) (a : App) : list (nat * nat) :=
  filter (fun l => l.1 = channel /\ l.2 ∈ w_cancelled a) (w_loops a).

Lemma filter_more {A} (P Q : A -> Prop) `{!forall x, Decision (P x), !forall x, Decision (Q x)} (l : list A) x :
  (forall y, P y -> Q y) -> x ∈ l -> Q x -> ~ P x -> (S (length (filter P l)) <= length (filter Q l))%nat.
Proof.
  intros HPQ Hx HQ HP.
  assert (forall k : list A, (length (filter P k) <= length (filter Q k))%nat) as Hle.
  { induction k as [|y k IH]; [done|]. rewrite !filter_cons. repeat case_decide; simpl; try lia. naive_solver. }
  induction l as [|y l IH]; [by apply not_elem_of_nil in Hx|]. rewrite !filter_cons.
  apply elem_of_cons in Hx as [<-|Hx].
  - rewrite decide_False, decide_True by done. simpl. specialize (Hle l). lia.
  - specialize (IH Hx). repeat case_decide; simpl; try lia. naive_solver.
Qed.

Lemma restart_once E a w :
  ainv a -> ready a -> LocalAggregateBulkWriter a = Some w -> lw_isRunning w = true ->
  exists a' w', restarts E 1 a = Some a' /\ ainv a' /\ ready a' /\
    LocalAggregateBulkWriter a' = Some w' /\ lw_isRunning w' = true /\ lw_channel w' = lw_channel w /\
    (S (length (dead (lw_channel w) a)) <= length (dead (lw_channel w) a'))%nat.
Proof.
  intros Ha Hr Hw Hrun. destruct (ai_local _ Ha) as (w0 & Hw0 & Hc0). simplify_eq.
  destruct (Hc0 Hrun) as (c & Hc & Hnc & Hin).
  destruct (ainv_stopAll a Ha Hr) as (a1 & Hs1 & Ha1 & Hr1 & _ & _ & _ & Hl1 & Hst1).
  destruct (Hst1 w c Hw Hrun Hc) as [Hw1 Hca1].
  destruct (ainv_startAll a1 Ha1 Hr1) as (a2 & Hs2 & Ha2 & Hr2 & Hca2 & Hst2).
  destruct (Hst2 _ Hw1) as [Hw2 Hl2]. simpl in *.
  exists a2. eexists. split.
  { change (handleMessage E (command STOP_FETCHER_APP) a) with
      ('(a, err) ← app_stopAll a; match err with Some err => Some (a, HandleMessageError err (command STOP_FETCHER_APP))
         | None => Some (a, ok (command STOP_FETCHER_APP)) end). rewrite Hs1. simpl.
    change (handleMessage E (command START_FETCHER_APP) a1) with
      (a ← app_startAll a1; Some (a, ok (command START_FETCHER_APP))). by rewrite Hs2. }
  split_and!; [done|done|exact Hw2|done|done|].
  unfold dead. rewrite Hl2, Hl1, Hca2, Hca1. rewrite filter_cons.
  assert (S (length (filter (fun l : nat * nat => l.1 = lw_channel w /\ l.2 ∈ w_cancelled a) (w_loops a))) <=
    length (filter (fun l : nat * nat => l.1 = lw_channel w /\ l.2 ∈ c :: w_cancelled a) (w_loops a)))%nat as Hmore.
  { apply (filter_more _ _ _ (lw_channel w, c)); [|done| |].
    - intros [x y] [-> Hy]. simpl in *. split; [done|by right].
    - simpl. split; [done|by left].
    - by intros [_ ?]. }
  case_decide; simpl in *; lia.
Qed.

(** Stopping the application ends no goroutine of the writer of local
    aggregates: after [n] restarts at least [n] of them still read the channel
    in use, with a context that is cancelled, and whichever of these ticks first
    takes all the local aggregates that wait there and writes none. *)
Theorem restarts_lose_local_aggregates
    (BulkCopy : bool -> list (Z * Z * Z) -> option error) (a : App) w E n :
  (forall rows, is_Some (BulkCopy true rows)) ->
  reach a -> LocalAggregateBulkWriter a = Some w -> lw_isRunning w = true ->
  (exists a' w', restarts E n a = Some a' /\ LocalAggregateBulkWriter a' = Some w' /\
     lw_channel w' = lw_channel w /\ (n <= length (dead (lw_channel w') a'))%nat) /\
  (forall ch, bulkWriterJob BulkCopy true ch = ([], [])).
Proof.
  intros Hcopy [Ha Hr]%reach_ainv Hw Hrun. split.
  - revert a w Ha Hr Hw Hrun.
    assert (forall a w, ainv a -> ready a -> LocalAggregateBulkWriter a = Some w -> lw_isRunning w = true ->
      exists a' w', restarts E n a = Some a' /\ LocalAggregateBulkWriter a' = Some w' /\ lw_channel w' = lw_channel w /\
        (n + length (dead (lw_channel w) a) <= length (dead (lw_channel w') a'))%nat) as H.
    { induction n as [|n IH]; intros a w Ha Hr Hw Hrun; [exists a, w; done|].
      destruct (restart_once E a w Ha Hr Hw Hrun) as (a1 & w1 & Hone & Ha1 & Hr1 & Hw1 & Hrun1 & Hch1 & Hd).
      destruct (IH a1 w1 Ha1 Hr1 Hw1 Hrun1) as (a2 & w2 & Hmany & Hw2 & Hch2 & Hd2).
      exists a2, w2. rewrite Hch1 in *. split_and!; [|done|done|lia].
      simpl in *. destruct (handleMessage E (command STOP_FETCHER_APP) a) as [[b rs]|]; [|done]. simpl in *.
      destruct (handleMessage E (command START_FETCHER_APP) b) as [[d rs']|]; [|done]. simpl in *. by simplify_eq. }
    intros a w Ha Hr Hw Hrun. destruct (H a w Ha Hr Hw Hrun) as (a' & w' & ? & ? & ? & ?).
    exists a', w'. split_and!; [done..|lia].
  - intros ch. unfold bulkWriterJob. destruct (length ch =? 0)%nat eqn:Hl.
    + apply Nat.eqb_eq, nil_length_inv in Hl. by subst.
    + edestruct Hcopy as [e ->]. done.
Qed.

(** Witnesses: one config with one feed. *)
Definition w_env : Env :=
  mkEnv (Ok [mkConfig 7 "BTC-USDT" 500]) (fun _ => Ok [1]) (fun _ => Ok [1; 2]) None None.
Definition w_app : App := match Run w_env New with Some (a, _) => a | None => New end.
Definition w_copy (cancelled : bool) (rows : list (Z * Z * Z)) : option error :=
  if cancelled then Some DeadlineExceeded else None.

Lemma w_fapp_reach : reach w_app.
Proof. apply (reach_run w_env). vm_compute. reflexivity. Qed.

Lemma fetcher_one_goroutine_each_witness : exists r c,
  runners (Fetchers w_app) !! 7 = Some r /\ live (Fetchers w_app) 7 c.
Proof.
  destruct (runners (Fetchers w_app) !! 7) as [r|] eqn:Hr; [|exfalso; vm_compute in Hr; done].
  destruct (fetcher_one_goroutine_each w_app (Fetchers w_app) 7 r w_fapp_reach) as [H _]; [by left|done|].
  assert (isRunning r = true) as Hrun by (vm_compute in Hr; by simplify_eq). rewrite Hrun in H.
  destruct H as (c & Hc & _). by exists r, c.
Defined.

Lemma restarts_lose_local_aggregates_witness : exists a', restarts w_env 2 w_app = Some a'.
Proof.
  destruct (restarts_lose_local_aggregates w_copy w_app (mkLocalWriter true (Some 0%nat) 0) w_env 2)
    as [(a' & _ & H & _) _].
  - by eexists.
  - apply w_fapp_reach.
  - vm_compute. reflexivity.
  - done.
  - by exists a'.
Defined.
End FetcherApp.
