(* ===== verification/Runners.v ===== *)
(** * Runners: commands that start and stop things, interleaved

    The applications of [aggregator/app.go] and [fetcher/app.go] handle each
    command of the bus in a goroutine of its own ([go a.handleMessage]) and take no
    lock.  [App] and [FetcherApp] have what one command does; here the
    goroutines of any number of commands are interleaved, one read or write of a
    shared field at a time, with the loops that they start.

    Which things a command starts and stops depends on maps and on the database,
    which other commands change meanwhile: a command is here any list of starts
    and stops. *)

From S2P Require Import Prelude.

Local Open Scope nat_scope.

Module Runners.

(** The fields that [startAggregator], [stopAggregator] and their like of the
    fetcher application read and write. *)
Record Obj : Type := mkObj { running : bool; ctx : option nat; cancel : option nat }.
Definition idle : Obj := mkObj false None None.

Inductive op : Type := Start (o : nat) | Stop (o : nat).

(** Where the goroutine of a command is: between two calls, or inside one. *)
Inductive pc : Type :=
| AtNext
| SetCtx (o : nat)               (** found it not running *)
| SetCancel (o c : nat)
| SetFlag (o c : nat)
| Go (o c : nat)
| Cancel (o : nat)               (** found it running *)
| ClearFlag (o : nat)
| Await (o : nat).               (** at [<-nodeCtx.Done()] *)
Definition works (p : pc) : option nat :=
  match p with
  | AtNext => None
  | SetCtx o | SetCancel o _ | SetFlag o _ | Go o _ | Cancel o | ClearFlag o | Await o => Some o
  end.

(** The loop of a thing: doing its work, or at its [select] on a context. *)
Inductive lstate : Type := Busy | Waiting (d : nat).

(** Contexts are numbered; [owners] has the thing each was made for.  A loop has
    its thing, the context it was started with, and where it is. *)
Record State : Type := mkState {
  objs : gmap nat Obj;
  owners : list nat;
  cancelled : list nat;
  threads : list (pc * list op);
  loops : list (nat * nat * lstate)
}.
Definition obj (s : State) (o : nat) : Obj := default idle (objs s !! o).
Definition set_obj (o : nat) (x : Obj) (s : State) : State :=
  mkState (<[o := x]> (objs s)) (owners s) (cancelled s) (threads s) (loops s).
Definition set_threads (l : list (pc * list op)) (s : State) : State :=
  mkState (objs s) (owners s) (cancelled s) l (loops s).
Definition set_loops (l : list (nat * nat * lstate)) (s : State) : State :=
  mkState (objs s) (owners s) (cancelled s) (threads s) l.
Definition init : State := mkState ∅ [] [] [] [].

Section runners.
(** [field]: the loop reads its context from the field of the thing at every
    [select] (fetchers, local aggregators, the writer of feed data), not from a
    parameter (aggregators).  [waits]: stopping ends with [<-nodeCtx.Done()]
    (aggregators). *)
Context (field waits : bool).

(** One step of a command.  [None]: it is finished, or waits. *)
Definition advance (s : State) (p : pc) (ops : list op) : option (State * pc * list op) :=
  match p with
  | AtNext =>
      match ops with
      | [] => None
      | Start o :: ops => Some (s, if running (obj s o) then AtNext else SetCtx o, ops)
      | Stop o :: ops => Some (s, if running (obj s o) then Cancel o else AtNext, ops)
      end
  | SetCtx o =>
      let c := length (owners s) in
      let x := obj s o in
      Some (mkState (<[o := mkObj (running x) (Some c) (cancel x)]> (objs s)) (owners s ++ [o]) (cancelled s)
              (threads s) (loops s), SetCancel o c, ops)
  | SetCancel o c => let x := obj s o in Some (set_obj o (mkObj (running x) (ctx x) (Some c)) s, SetFlag o c, ops)
  | SetFlag o c => let x := obj s o in Some (set_obj o (mkObj true (ctx x) (cancel x)) s, Go o c, ops)
  | Go o c => Some (set_loops (loops s ++ [(o, c, Busy)]) s, AtNext, ops)
  | Cancel o =>
      match cancel (obj s o) with
      | None => Some (s, AtNext, [])
      | Some c => Some (mkState (objs s) (owners s) (c :: cancelled s) (threads s) (loops s), ClearFlag o, ops)
      end
  | ClearFlag o =>
      let x := obj s o in
      Some (set_obj o (mkObj false (ctx x) (cancel x)) s, if waits then Await o else AtNext, ops)
  | Await o =>
      match ctx (obj s o) with
      | Some c => if bool_decide (c ∈ cancelled s) then Some (s, AtNext, ops) else None
      | None => None
      end
  end.

Inductive event : Type :=
| Spawn (ops : list op)          (** a command arrives *)
| Thread (i : nat)
| Select (i : nat)               (** the loop [i] comes to its [select] *)
| Tick (i : nat)                 (** and has work to do *)
| End_ (i : nat).                (** or finds its context cancelled and returns *)

Definition exec1 (s : State) (e : event) : option State :=
  match e with
  | Spawn ops => Some (set_threads (threads s ++ [(AtNext, ops)]) s)
  | Thread i =>
      '(p, ops) ← threads s !! i;
      '(s', p', ops') ← advance s p ops;
      Some (set_threads (<[i := (p', ops')]> (threads s')) s')
  | Select i =>
      '(o, c, l) ← loops s !! i;
      match l with
      | Busy => d ← (if field then ctx (obj s o) else Some c); Some (set_loops (<[i := (o, c, Waiting d)]> (loops s)) s)
      | Waiting _ => None
      end
  | Tick i =>
      '(o, c, l) ← loops s !! i;
      match l with Waiting _ => Some (set_loops (<[i := (o, c, Busy)]> (loops s)) s) | Busy => None end
  | End_ i =>
      '(o, c, l) ← loops s !! i;
      match l with
      | Waiting d => if bool_decide (d ∈ cancelled s) then Some (set_loops (delete i (loops s)) s) else None
      | Busy => None
      end
  end.
Fixpoint exec (s : State) (es : list event) : option State :=
  match es with [] => Some s | e :: es => s' ← exec1 s e; exec s' es end.

Definition step (s s' : State) : Prop := exists e, exec1 s e = Some s'.

Lemma exec_rtc es : forall s s', exec s es = Some s' -> rtc step s s'.
Proof.
  induction es as [|e es IH]; intros s s' H; [injection H as <-; apply rtc_refl|].
  apply bind_Some in H as (s1 & H1 & H). eapply rtc_l; [by exists e|by apply IH].
Qed.
Lemma exec_app s es1 es2 : exec s (es1 ++ es2) = s' ← exec s es1; exec s' es2.
Proof. revert s. induction es1 as [|e es1 IH]; intros s; [done|]. simpl. destruct (exec1 s e); [apply IH|done]. Qed.

(** ** When no two commands work on the same thing *)
Definition exclusive (s : State) : Prop :=
  forall i j x y o, i <> j -> threads s !! i = Some x -> threads s !! j = Some y ->
    works x.1 = Some o -> works y.1 = Some o -> False.

Inductive erun : State -> Prop :=
| erun_init : erun init
| erun_step s s' : erun s -> step s s' -> exclusive s' -> erun s'.

(** The contexts of the loops of [o] that are not cancelled. *)
Definition live (s : State) (o : nat) : list nat :=
  (fun l : nat * nat * lstate => l.1.2) <$> filter (fun l => l.1.1 = o /\ l.1.2 ∉ cancelled s) (loops s).

Definition busy_with (s : State) (o : nat) : Prop := exists i x, threads s !! i = Some x /\ works x.1 = Some o.

(** What holds of [o] while a command is at [p]. *)
Definition ok_at (s : State) (o : nat) (p : pc) : Prop :=
  let x := obj s o in
  match p with
  | AtNext => True
  | SetCtx _ => running x = false /\ live s o = []
  | SetCancel _ c => running x = false /\ live s o = [] /\ ctx x = Some c /\ c ∉ cancelled s
  | SetFlag _ c => running x = false /\ live s o = [] /\ ctx x = Some c /\ c ∉ cancelled s /\ cancel x = Some c
  | Go _ c => running x = true /\ live s o = [] /\ ctx x = Some c /\ c ∉ cancelled s /\ cancel x = Some c
  | Cancel _ => running x = true /\ exists c, live s o = [c] /\ ctx x = Some c /\ c ∉ cancelled s /\ cancel x = Some c
  | ClearFlag _ => live s o = [] /\ exists c, ctx x = Some c /\ c ∈ cancelled s
  | Await _ => running x = false /\ live s o = [] /\ exists c, ctx x = Some c /\ c ∈ cancelled s
  end.
(** What holds of [o] while none works on it. *)
Definition ok_free (s : State) (o : nat) : Prop :=
  let x := obj s o in
  if running x then exists c, live s o = [c] /\ ctx x = Some c /\ c ∉ cancelled s /\ cancel x = Some c
  else live s o = [].

Record inv (s : State) : Prop := {
  inv_loops : forall o c l, (o, c, l) ∈ loops s -> owners s !! c = Some o;
  inv_fields : forall o c, ctx (obj s o) = Some c \/ cancel (obj s o) = Some c -> owners s !! c = Some o;
  inv_cancelled : forall c, c ∈ cancelled s -> is_Some (owners s !! c);
  inv_pcs : forall i o c ops, threads s !! i = Some (SetCancel o c, ops) \/ threads s !! i = Some (SetFlag o c, ops) \/
    threads s !! i = Some (Go o c, ops) -> owners s !! c = Some o;
  inv_at : forall i x o, threads s !! i = Some x -> works x.1 = Some o -> ok_at s o x.1;
  inv_free : forall o, ~ busy_with s o -> ok_free s o;
  inv_own : field = false -> forall o c d, (o, c, Waiting d) ∈ loops s -> d = c
}.

Lemma obj_set o x s : obj (set_obj o x s) o = x.
Proof. unfold obj. simpl. by rewrite lookup_insert_eq. Qed.
Lemma obj_insert o x m a b c d : obj (mkState (<[o := x]> m) a b c d) o = x.
Proof. unfold obj. simpl. by rewrite lookup_insert_eq. Qed.
Lemma obj_insert_ne o o' x m a b c d : o' <> o -> obj (mkState (<[o := x]> m) a b c d) o' = default idle (m !! o').
Proof. intros. unfold obj. simpl. by rewrite lookup_insert_ne. Qed.

(** *** What a step leaves alone *)
Record same (s s' : State) (o : nat) : Prop := {
  same_obj : obj s' o = obj s o;
  same_live : live s' o = live s o;
  same_cancelled : forall c, owners s !! c = Some o -> c ∈ cancelled s' <-> c ∈ cancelled s
}.

Lemma ok_at_same s s' o p : inv s -> same s s' o -> ok_at s o p -> ok_at s' o p.
Proof.
  intros Hi [Ho Hl Hc]. pose proof (inv_fields _ Hi o) as Hf. unfold ok_at. rewrite Ho, Hl.
  destruct p; naive_solver.
Qed.
Lemma ok_free_same s s' o : inv s -> same s s' o -> ok_free s o -> ok_free s' o.
Proof.
  intros Hi [Ho Hl Hc]. pose proof (inv_fields _ Hi o) as Hf. unfold ok_free. rewrite Ho, Hl.
  destruct (running _); naive_solver.
Qed.

(** The parts of the invariant that are not about one thing. *)
Record wfs (s : State) : Prop := {
  wfs_loops : forall o c l, (o, c, l) ∈ loops s -> owners s !! c = Some o;
  wfs_fields : forall o c, ctx (obj s o) = Some c \/ cancel (obj s o) = Some c -> owners s !! c = Some o;
  wfs_cancelled : forall c, c ∈ cancelled s -> is_Some (owners s !! c);
  wfs_own : field = false -> forall o c d, (o, c, Waiting d) ∈ loops s -> d = c
}.
Lemma inv_wfs s : inv s -> wfs s.
Proof. intros []. by constructor. Qed.

Definition holds_ctx (p : pc) : option (nat * nat) :=
  match p with SetCancel o c | SetFlag o c | Go o c => Some (o, c) | _ => None end.
Lemma inv_holds s i x o c : inv s -> threads s !! i = Some x -> holds_ctx x.1 = Some (o, c) -> owners s !! c = Some o.
Proof. intros Hi Ht Hp. destruct x as [p ops]. eapply (inv_pcs _ Hi i _ _ ops). destruct p; naive_solver. Qed.

(** A command at [p] goes on to [p'], about [o]. *)
Lemma inv_thread s s1 i p ops p' ops' o :
  inv s -> exclusive s -> threads s !! i = Some (p, ops) -> threads s1 = threads s ->
  exclusive (set_threads (<[i := (p', ops')]> (threads s)) s1) ->
  works p = Some o \/ works p' = Some o -> (works p = None \/ works p = Some o) -> (works p' = None \/ works p' = Some o) ->
  wfs s1 -> (forall c o', owners s !! c = Some o' -> owners s1 !! c = Some o') ->
  (forall c, holds_ctx p' = Some (o, c) -> owners s1 !! c = Some o) ->
  (forall o', o' <> o -> same s s1 o') ->
  (~ (exists j x, j <> i /\ threads s !! j = Some x /\ works x.1 = Some o) -> if works p' then ok_at s1 o p' else ok_free s1 o) ->
  inv (set_threads (<[i := (p', ops')]> (threads s)) s1).
Proof.
  intros Hi Hex Ht Hth Hex' Hwork Hp Hp' [Hl Hf Hc Hown] Hgrow Hctx Hsame Hok.
  assert (Hlen : i < length (threads s)) by by eapply lookup_lt_Some.
  assert (Halone : ~ (exists j x, j <> i /\ threads s !! j = Some x /\ works x.1 = Some o)).
  { intros (j & x & Hne & Hj & Hx). destruct Hwork as [Hw|Hw].
    - by apply (Hex i j (p, ops) x o).
    - eapply (Hex' i j (p', ops') x o); try done; simpl; [by rewrite list_lookup_insert_eq|by rewrite list_lookup_insert_ne]. }
  specialize (Hok Halone). constructor; try done.
  - intros j o0 c0 ops0 Hj. assert (exists x, (<[i := (p', ops')]> (threads s)) !! j = Some x /\ holds_ctx x.1 = Some (o0, c0)) as (x & Hx & Hh).
    { simpl in Hj. destruct Hj as [Hj|[Hj|Hj]]; by eexists. }
    simpl. apply list_lookup_insert_Some in Hx as [(<- & <- & _)|[Hne Hx]].
    + assert (works p' = Some o0) as Hw by (by destruct p'; simplify_eq/=). destruct Hp' as [?|?]; [congruence|].
      assert (o0 = o) as -> by congruence. by apply Hctx.
    + apply Hgrow. by eapply inv_holds.
  - intros j x o0 Hj Hx. simpl in Hj. apply list_lookup_insert_Some in Hj as [(<- & <- & _)|[Hne Hj]].
    + simpl in *. destruct Hp' as [?|Hw]; [congruence|]. rewrite Hw in *. simplify_eq. exact Hok.
    + assert (o0 <> o) by (intros ->; apply Halone; eauto).
      assert (ok_at s1 o0 x.1) as H1; [|exact H1]. eapply ok_at_same; [done|by apply Hsame|]. by eapply inv_at.
  - intros o0 Hnb. assert (ok_free s1 o0) as H1; [|exact H1]. destruct (decide (o0 = o)) as [->|Hne].
    + destruct Hp' as [Hw|Hw]; [by rewrite Hw in Hok|]. exfalso. apply Hnb. exists i, (p', ops'). simpl.
      by rewrite list_lookup_insert_eq.
    + apply (ok_free_same s); [done|by apply Hsame|]. apply (inv_free _ Hi). intros (j & x & Hj & Hx). apply Hnb.
      destruct (decide (j = i)) as [->|Hji].
      * assert (x = (p, ops)) as -> by congruence. simpl in Hx. destruct Hp; congruence.
      * exists j, x. simpl. by rewrite list_lookup_insert_ne.
Qed.

(** A command that goes on to its next call without having touched anything. *)
Lemma inv_skip s i ops ops' :
  inv s -> threads s !! i = Some (AtNext, ops) -> inv (set_threads (<[i := (AtNext, ops')]> (threads s)) s).
Proof.
  intros Hi Ht.
  assert (Hfw : forall j x o, (<[i := (AtNext, ops')]> (threads s)) !! j = Some x -> works x.1 = Some o -> threads s !! j = Some x).
  { intros j x o [(<- & <- & _)|[_ Hj]]%list_lookup_insert_Some Hx; done. }
  destruct Hi as [H1 H2 H3 H4 H5 H6 H7]. constructor; try done.
  - intros j o c ops0 Hj. apply (H4 j o c ops0). simpl in Hj.
    destruct Hj as [Hj|[Hj|Hj]]; [left|right; left|right; right]; by eapply Hfw.
  - intros j x o Hj Hx. simpl in Hj. assert (ok_at s o x.1) as H; [|exact H]. eapply H5; [|done]. by eapply Hfw.
  - intros o Hnb. assert (ok_free s o) as H; [|exact H]. apply H6. intros (j & x & Hj & Hx). apply Hnb. exists j, x. simpl.
    rewrite list_lookup_insert_ne; [done|]. intros <-. rewrite Ht in Hj. by simplify_eq.
Qed.

Lemma live_set_obj s o x o' : live (set_obj o x s) o' = live s o'.
Proof. done. Qed.

(** Writing a field of [o] leaves the others alone. *)
Lemma same_set_obj s o x o' : o' <> o -> same s (set_obj o x s) o'.
Proof. intros Hne. constructor; try done. unfold set_obj. by rewrite obj_insert_ne. Qed.
Lemma wfs_set_obj s o x : wfs s -> (forall c, ctx x = Some c \/ cancel x = Some c -> owners s !! c = Some o) -> wfs (set_obj o x s).
Proof.
  intros [H1 H2 H3 H4] Hx. constructor; try done. intros o' c. unfold set_obj. destruct (decide (o' = o)) as [->|Hne].
  - rewrite obj_insert. apply Hx.
  - rewrite obj_insert_ne by done. apply H2.
Qed.

Lemma list_filter_iff_in {A} (P Q : A -> Prop) `{!forall x, Decision (P x), !forall x, Decision (Q x)} (l : list A) :
  (forall x, x ∈ l -> P x <-> Q x) -> filter P l = filter Q l.
Proof.
  induction l as [|x l IH]; intros Heq; [done|]. rewrite !filter_cons. rewrite IH by (intros y Hy; apply Heq; by right).
  pose proof (Heq x ltac:(by left)). repeat case_decide; naive_solver.
Qed.

(** Cancelling the context of the only loop of [o]. *)
Lemma live_cancel s o c : live s o = [c] ->
  (fun l : nat * nat * lstate => l.1.2) <$> filter (fun l => l.1.1 = o /\ l.1.2 ∉ c :: cancelled s) (loops s) = [].
Proof.
  intros Hl. unfold live in Hl.
  assert (filter (fun l : nat * nat * lstate => l.1.1 = o /\ l.1.2 ∉ c :: cancelled s) (loops s) = []) as ->; [|done].
  destruct (filter _ (loops s)) as [|x k] eqn:Hf at 1; [done|]. exfalso.
  assert (x ∈ x :: k) as Hx by by left. rewrite <- Hf in Hx. apply list_elem_of_filter in Hx as [[Ho Hc] Hx].
  apply not_elem_of_cons in Hc as [Hne Hnc].
  assert (x.1.2 ∈ [c]) as Hin.
  { rewrite <- Hl. apply list_elem_of_fmap. exists x. split; [done|]. apply list_elem_of_filter. done. }
  apply list_elem_of_singleton in Hin. done.
Qed.

Lemma owner_grows s o c o' : owners s !! c = Some o' -> (owners s ++ [o]) !! c = Some o'.
Proof. intros H. by apply lookup_app_l_Some. Qed.

(** If no other command works on [o] and this one is between two calls, none
    works on [o]. *)
Lemma free_of s i ops o : threads s !! i = Some (AtNext, ops) ->
  ~ (exists j x, j <> i /\ threads s !! j = Some x /\ works x.1 = Some o) -> ~ busy_with s o.
Proof.
  intros Ht Hno (j & x & Hj & Hx). apply Hno. exists j, x. split; [|done]. intros ->. by simplify_eq/=.
Qed.

(** Apply [inv_thread] to the step at hand. *)
Ltac thread_at o Hi Hex Ht Hex' :=
  match goal with
  | |- inv (set_threads _ ?s1) => refine (inv_thread _ s1 _ _ _ _ _ o Hi Hex Ht eq_refl Hex' _ _ _ _ _ _ _ _)
  end.

Lemma inv_SetCtx s i o ops s1 p' ops' :
  inv s -> exclusive s -> threads s !! i = Some (SetCtx o, ops) -> advance s (SetCtx o) ops = Some (s1, p', ops') ->
  exclusive (set_threads (<[i := (p', ops')]> (threads s1)) s1) ->
  inv (set_threads (<[i := (p', ops')]> (threads s1)) s1).
Proof.
  intros Hi Hex Ht Ha. pose proof (inv_wfs _ Hi) as Hw. cbn [advance] in Ha. cbv zeta in Ha.
  injection Ha as <- <- <-. pose proof (inv_at _ Hi i _ o Ht eq_refl) as [Hr Hl]. simpl in Hr, Hl. intros Hex'. simpl in *.
  assert (Hnew : length (owners s) ∉ cancelled s).
  { intros Hin. destruct (inv_cancelled _ Hi _ Hin) as [o' Ho']. apply lookup_lt_Some in Ho'. lia. }
  thread_at o Hi Hex Ht Hex'; auto.
  + destruct Hw as [H1 H2 H3 H4]. constructor; simpl; try done.
    * intros o0 c0 l Hin. by eapply owner_grows, H1.
    * intros o0 c0. destruct (decide (o0 = o)) as [->|Hne].
      -- rewrite obj_insert. simpl. intros [Hc|Hc]; [simplify_eq; by rewrite lookup_app_r, Nat.sub_diag by lia|].
         eapply owner_grows, H2. by right.
      -- rewrite obj_insert_ne by done. intros Hc. by eapply owner_grows, H2.
    * intros c0 Hc. destruct (H3 c0 Hc) as [o0 Ho0]. exists o0. by apply owner_grows.
  + intros c0 o' Hc. by apply owner_grows.
  + intros c0 Hc. simplify_eq/=. by rewrite lookup_app_r, Nat.sub_diag by lia.
  + intros o' Hne. constructor; simpl; try done. by rewrite obj_insert_ne.
  + intros _. simpl. rewrite obj_insert. simpl. done.
Qed.

Lemma inv_Go s i o c ops s1 p' ops' :
  inv s -> exclusive s -> threads s !! i = Some (Go o c, ops) -> advance s (Go o c) ops = Some (s1, p', ops') ->
  exclusive (set_threads (<[i := (p', ops')]> (threads s1)) s1) ->
  inv (set_threads (<[i := (p', ops')]> (threads s1)) s1).
Proof.
  intros Hi Hex Ht Ha. pose proof (inv_wfs _ Hi) as Hw. cbn [advance] in Ha. cbv zeta in Ha.
  injection Ha as <- <- <-. pose proof (inv_at _ Hi i _ o Ht eq_refl) as (Hr & Hl & Hc & Hn & Hcc). pose proof (inv_holds _ _ _ o c Hi Ht eq_refl) as Hown.
  intros Hex'. thread_at o Hi Hex Ht Hex'; auto; try done.
  + destruct Hw as [H1 H2 H3 H4]. constructor; simpl; try done.
    * intros o0 c0 l [Hin|Hin]%elem_of_app; [by eapply H1|]. apply list_elem_of_singleton in Hin. by simplify_eq.
    * intros Hf o0 c0 d [Hin|Hin]%elem_of_app; [by eapply H4|]. apply list_elem_of_singleton in Hin. by simplify_eq.
  + intros o' Hne. constructor; simpl; try done. unfold live. simpl. rewrite filter_app, filter_cons_False; [by rewrite filter_nil, app_nil_r|].
    simpl. by intros [<- _].
  + intros _. simpl. unfold ok_free. change (obj (set_loops _ s) o) with (obj s o). rewrite Hr. exists c. split; [|done].
    unfold live in *. simpl. rewrite filter_app, fmap_app. rewrite Hl. rewrite filter_cons_True by done. done.
Qed.

Lemma inv_Cancel s i o ops s1 p' ops' :
  inv s -> exclusive s -> threads s !! i = Some (Cancel o, ops) -> advance s (Cancel o) ops = Some (s1, p', ops') ->
  exclusive (set_threads (<[i := (p', ops')]> (threads s1)) s1) ->
  inv (set_threads (<[i := (p', ops')]> (threads s1)) s1).
Proof.
  intros Hi Hex Ht Ha. pose proof (inv_wfs _ Hi) as Hw. cbn [advance] in Ha. cbv zeta in Ha.
  pose proof (inv_at _ Hi i _ o Ht eq_refl) as (Hr & c & Hl & Hc & Hn & Hcc). simpl in Hcc. rewrite Hcc in Ha. injection Ha as <- <- <-.
  intros Hex'. assert (Hown : owners s !! c = Some o) by (apply (inv_fields _ Hi); by left).
  thread_at o Hi Hex Ht Hex'; auto; try done.
  + destruct Hw as [H1 H2 H3 H4]. constructor; simpl; try done. intros c0 [->|Hin]%elem_of_cons; [by eexists|by apply H3].
  + intros o' Hne. assert (Hno : forall c0, owners s !! c0 = Some o' -> c0 ∈ c :: cancelled s <-> c0 ∈ cancelled s).
    { intros c0 H0. rewrite elem_of_cons. split; [intros [->|?]; [congruence|done]|by right]. }
    constructor; [done| |done]. unfold live. simpl. f_equal. apply list_filter_iff_in. intros [[o0 c0] l] Hin. simpl.
    pose proof (inv_loops _ Hi _ _ _ Hin) as H0. split; intros [-> Hnc]; (split; [done|]); by rewrite (Hno c0 H0) in *.
  + intros _. simpl. split; [|exists c; split; [done|by left]]. exact (live_cancel s o c Hl).
Qed.

Lemma runners_inv_advance s i p ops s1 p' ops' :
  inv s -> exclusive s -> threads s !! i = Some (p, ops) -> advance s p ops = Some (s1, p', ops') ->
  exclusive (set_threads (<[i := (p', ops')]> (threads s1)) s1) ->
  inv (set_threads (<[i := (p', ops')]> (threads s1)) s1).
Proof.
  intros Hi Hex Ht Ha. pose proof (inv_wfs _ Hi) as Hw. destruct p as [|o|o c|o c|o c|o|o|o].
  2: by eapply inv_SetCtx.
  4: by eapply inv_Go.
  4: by eapply inv_Cancel.
  all: cbn [advance] in Ha; cbv zeta in Ha.
  - destruct ops as [|[o|o] ops]; [done|..].
    + destruct (running (obj s o)) eqn:Hr; injection Ha as <- <- <-; [intros _; by eapply inv_skip|]. intros Hex'.
      apply (inv_thread s s i AtNext (Start o :: ops) (SetCtx o) ops o); auto; try done.
      intros Hno. pose proof (inv_free _ Hi o (free_of _ _ _ _ Ht Hno)) as Hf. unfold ok_free in Hf. rewrite Hr in Hf. done.
    + destruct (running (obj s o)) eqn:Hr; injection Ha as <- <- <-; [|intros _; by eapply inv_skip]. intros Hex'.
      apply (inv_thread s s i AtNext (Stop o :: ops) (Cancel o) ops o); auto; try done.
      intros Hno. pose proof (inv_free _ Hi o (free_of _ _ _ _ Ht Hno)) as Hf. unfold ok_free in Hf. rewrite Hr in Hf. done.
  - injection Ha as <- <- <-. pose proof (inv_at _ Hi i _ o Ht eq_refl) as (Hr & Hl & Hc & Hn). pose proof (inv_holds _ _ _ o c Hi Ht eq_refl) as Hown.
    intros Hex'. thread_at o Hi Hex Ht Hex'; auto.
    + apply wfs_set_obj; [done|]. simpl. intros c0 [H0|H0]; simplify_eq; [|done]. apply (inv_fields _ Hi). by left.
    + intros c0 H0. by simplify_eq/=.
    + intros o' Hne. by apply same_set_obj.
    + intros _. simpl. rewrite obj_set. simpl. done.
  - injection Ha as <- <- <-. pose proof (inv_at _ Hi i _ o Ht eq_refl) as (Hr & Hl & Hc & Hn & Hcc). pose proof (inv_holds _ _ _ o c Hi Ht eq_refl) as Hown.
    intros Hex'. thread_at o Hi Hex Ht Hex'; auto.
    + apply wfs_set_obj; [done|]. simpl. intros c0 H0. by apply (inv_fields _ Hi).
    + intros c0 H0. by simplify_eq/=.
    + intros o' Hne. by apply same_set_obj.
    + intros _. simpl. rewrite obj_set. simpl. done.
  - injection Ha as <- <- <-. pose proof (inv_at _ Hi i _ o Ht eq_refl) as (Hl & c & Hc & Hn). intros Hex'.
    thread_at o Hi Hex Ht Hex'; auto.
    + destruct waits; auto.
    + apply wfs_set_obj; [done|]. simpl. intros c0 H0. by apply (inv_fields _ Hi).
    + intros c0 H0. by destruct waits.
    + intros o' Hne. by apply same_set_obj.
    + intros _. destruct waits; simpl; unfold ok_free; rewrite obj_set; simpl; [|done]. split_and!; [done|done|]. by exists c.
  - pose proof (inv_at _ Hi i _ o Ht eq_refl) as (Hr & Hl & c & Hc & Hn). simpl in Hc. rewrite Hc in Ha.
    rewrite bool_decide_true in Ha by done. injection Ha as <- <- <-. intros Hex'.
    thread_at o Hi Hex Ht Hex'; auto; try done.
    intros _. simpl. unfold ok_free. by rewrite Hr.
Qed.

(** A loop that moves changes neither its thing nor its context. *)
Lemma live_loops s l' o :
  (fun l : nat * nat * lstate => l.1) <$> l' = (fun l : nat * nat * lstate => l.1) <$> loops s ->
  live (set_loops l' s) o = live s o.
Proof.
  unfold live. change (loops (set_loops l' s)) with l'. change (cancelled (set_loops l' s)) with (cancelled s).
  generalize (loops s) (cancelled s). intros l k. revert l. induction l' as [|x l' IH]; intros [|y l] Heq; try done.
  injection Heq as Hx Heq. specialize (IH l Heq). rewrite !filter_cons, Hx. case_decide; [|done]. by rewrite !fmap_cons, Hx, IH.
Qed.

(** A loop that returns had a cancelled context, if it reads its own. *)
Lemma live_delete s i o0 c d o :
  loops s !! i = Some (o0, c, Waiting d) -> c ∈ cancelled s -> live (set_loops (delete i (loops s)) s) o = live s o.
Proof.
  intros Hl Hc. unfold live. change (loops (set_loops (delete i (loops s)) s)) with (delete i (loops s)).
  change (cancelled (set_loops (delete i (loops s)) s)) with (cancelled s). rewrite delete_take_drop.
  rewrite <- (take_drop_middle (loops s) i _ Hl) at 3. rewrite !filter_app, filter_cons_False; [done|].
  simpl. naive_solver.
Qed.

Lemma inv_set_loops s l' : inv s -> wfs (set_loops l' s) -> (forall o, live (set_loops l' s) o = live s o) -> inv (set_loops l' s).
Proof.
  intros Hi [H1 H2 H3 H4] Hl. constructor; try done.
  - apply Hi.
  - intros i x o Hx Hw. eapply ok_at_same; [exact Hi|by constructor|]. by eapply inv_at.
  - intros o Hnb. eapply ok_free_same; [exact Hi|by constructor|]. by apply (inv_free _ Hi).
Qed.

Lemma wfs_set_loops s l' : wfs s ->
  (forall o c l, (o, c, l) ∈ l' -> (exists l0, (o, c, l0) ∈ loops s) /\ (field = false -> forall d, l = Waiting d -> d = c)) ->
  wfs (set_loops l' s).
Proof.
  intros [H1 H2 H3 H4] Hl. constructor; try done; simpl.
  - intros o c l Hin. destruct (Hl _ _ _ Hin) as [[l0 H0] _]. by eapply H1.
  - intros Hf o c d Hin. destruct (Hl _ _ _ Hin) as [_ H0]. by apply H0.
Qed.

Lemma insert_loop (k : list (nat * nat * lstate)) i o c l l' x :
  k !! i = Some (o, c, l) -> x ∈ <[i := (o, c, l')]> k -> x = (o, c, l') \/ x ∈ k.
Proof.
  intros Hi Hx. apply list_elem_of_lookup in Hx as [j Hj]. apply list_lookup_insert_Some in Hj as [(_ & <- & _)|[_ Hj]]; [by left|].
  right. by eapply list_elem_of_lookup_2.
Qed.
Lemma insert_loop_fst (k : list (nat * nat * lstate)) i o c l l' :
  k !! i = Some (o, c, l) -> (fun x : nat * nat * lstate => x.1) <$> <[i := (o, c, l')]> k = (fun x : nat * nat * lstate => x.1) <$> k.
Proof. intros Hi. rewrite list_fmap_insert. apply list_insert_id. by rewrite list_lookup_fmap, Hi. Qed.

Lemma inv_move s i o c l l' :
  inv s -> loops s !! i = Some (o, c, l) -> (field = false -> forall d, l' = Waiting d -> d = c) ->
  inv (set_loops (<[i := (o, c, l')]> (loops s)) s).
Proof.
  intros Hi Hl Hd. apply inv_set_loops; [done| |].
  - apply wfs_set_loops; [by apply inv_wfs|]. intros o0 c0 l0 [Heq|Hin]%(insert_loop _ _ _ _ _ _ _ Hl).
    + simplify_eq. split; [|done]. exists l. by eapply list_elem_of_lookup_2.
    + split; [by exists l0|]. intros Hf d ->. by eapply (inv_own _ Hi).
  - intros o0. apply live_loops. by eapply insert_loop_fst.
Qed.

Lemma inv_spawn s ops : inv s -> inv (set_threads (threads s ++ [(AtNext, ops)]) s).
Proof.
  intros Hi.
  assert (Hfw : forall j x o, (threads s ++ [(AtNext, ops)]) !! j = Some x -> works x.1 = Some o -> threads s !! j = Some x).
  { intros j x o [Hj|[_ Hj]]%lookup_app_Some Hx; [done|]. apply list_lookup_singleton_Some in Hj as [_ <-]. done. }
  destruct Hi as [H1 H2 H3 H4 H5 H6 H7]. constructor; try done.
  - intros j o c ops0 Hj. apply (H4 j o c ops0). simpl in Hj.
    destruct Hj as [Hj|[Hj|Hj]]; [left|right; left|right; right]; by eapply Hfw.
  - intros j x o Hj Hx. assert (ok_at s o x.1) as H; [|exact H]. eapply H5; [|done]. by eapply Hfw.
  - intros o Hnb. assert (ok_free s o) as H; [|exact H]. apply H6. intros (j & x & Hj & Hx). apply Hnb. exists j, x. simpl.
    split; [|done]. by apply lookup_app_l_Some.
Qed.

Lemma inv_init : inv init.
Proof. by constructor; simpl; [intros ??? ?%not_elem_of_nil|intros ?? [?|?]|intros ? ?%not_elem_of_nil|naive_solver|..|intros _ ??? ?%not_elem_of_nil]. Qed.

(** The loops of things whose loop reads a parameter. *)
Hypothesis Hparam : field = false.

Lemma inv_exec1 s e s' : inv s -> exclusive s -> exec1 s e = Some s' -> exclusive s' -> inv s'.
Proof.
  intros Hi Hex He Hex'. destruct e as [ops|i|i|i|i]; cbn [exec1] in He.
  - injection He as <-. by apply inv_spawn.
  - apply bind_Some in He as ([p ops] & Ht & He). apply bind_Some in He as ([[s1 p'] ops'] & Ha & He). injection He as <-.
    by eapply runners_inv_advance.
  - apply bind_Some in He as ([[o c] l] & Hl & He). destruct l; [|done]. rewrite Hparam in He. simpl in He. injection He as <-.
    eapply inv_move; [done|done|]. intros _ d Hd. by injection Hd as <-.
  - apply bind_Some in He as ([[o c] l] & Hl & He). destruct l; [done|]. injection He as <-. by eapply inv_move.
  - apply bind_Some in He as ([[o c] l] & Hl & He). destruct l as [|d]; [done|]. case_bool_decide as Hd; [|done]. injection He as <-.
    assert (d = c) as -> by (eapply (inv_own _ Hi Hparam), list_elem_of_lookup_2; exact Hl).
    apply inv_set_loops; [done| |].
    + apply wfs_set_loops; [by apply inv_wfs|]. intros o0 c0 l0 Hin. apply list_elem_of_delete_inv in Hin. split; [by exists l0|].
      intros _ d0 ->. by eapply (inv_own _ Hi Hparam).
    + intros o0. by eapply live_delete.
Qed.

Lemma erun_inv s : erun s -> inv s /\ exclusive s.
Proof.
  induction 1 as [|s s' _ [Hi Hex] [e He] Hex']; [|split; [by eapply inv_exec1|done]].
  split; [apply inv_init|]. by intros ????? _ H.
Qed.
End runners.

(** ** Aggregators *)

(** C15: the application starts a goroutine for each command and takes no
    lock.  In every interleaving of any commands with each other and with the
    loops, as long as no two of them are starting or stopping the same aggregator
    at the same time: an aggregator that none of them works on has, when it is
    marked running, exactly one loop whose context is not cancelled, and otherwise
    none; every loop waits on the context it was started with; and no command is
    stuck or fails because a [cancel] is missing. *)
Theorem one_loop_per_aggregator s :
  erun false true s ->
  (forall o, ~ busy_with s o -> if running (obj s o) then exists c, live s o = [c] else live s o = []) /\
  (forall o c d, (o, c, Waiting d) ∈ loops s -> d = c) /\
  (forall i p ops, threads s !! i = Some (p, ops) -> (p, ops) <> (AtNext, []) ->
     is_Some (advance true s p ops) /\ forall o, p = Cancel o -> cancel (obj s o) <> None).
Proof.
  intros [Hi _]%erun_inv; [|done]. split_and!.
  - intros o Hnb. pose proof (inv_free _ _ Hi o Hnb) as Hf. unfold ok_free in Hf. destruct (running _); [|done].
    destruct Hf as (c & ? & _). by exists c.
  - by apply (inv_own _ _ Hi).
  - intros i p ops Ht Hne.
    assert (Hat : forall o, works p = Some o -> ok_at s o p) by (intros o; by apply (inv_at _ _ Hi i (p, ops) o Ht)).
    split; [|intros o ->; destruct (Hat o eq_refl) as (_ & c & _ & _ & _ & ->); done].
    destruct p as [|o|o c|o c|o c|o|o|o]; cbn [advance]; try done.
    + destruct ops as [|[] ops]; [done|..]; by eexists.
    + destruct (Hat o eq_refl) as (_ & c & _ & _ & _ & Hc). simpl in Hc. rewrite Hc. by eexists.
    + destruct (Hat o eq_refl) as (_ & _ & c & Hc & Hn). simpl in Hc. rewrite Hc, bool_decide_true by done. by eexists.
Qed.

(** A loop that nothing can stop: its context is not cancelled and no longer
    known to anything that could cancel it. *)
Record orphan (s : State) (o c : nat) : Prop := {
  or_loop : exists l, (o, c, l) ∈ loops s /\ (l = Busy \/ l = Waiting c);
  or_live : c ∉ cancelled s;
  or_old : c < length (owners s);
  or_fields : forall o', cancel (obj s o') <> Some c;
  or_pcs : forall i o' ops, threads s !! i <> Some (SetCancel o' c, ops)
}.

Lemma orphan_advance s i p ops s1 p' ops' o c :
  orphan s o c -> threads s !! i = Some (p, ops) -> advance true s p ops = Some (s1, p', ops') ->
  orphan (set_threads (<[i := (p', ops')]> (threads s1)) s1) o c.
Proof.
  intros [(l & Hl & Hls) Hlive Hold Hf Hpc] Ht Ha.
  assert (Hset : forall o1 x, (cancel x = Some c -> cancel (obj s o1) = Some c \/ exists o2, p = SetCancel o2 c) ->
    forall o', cancel (default idle (<[o1 := x]> (objs s) !! o')) <> Some c).
  { intros o1 x Hx o'. destruct (decide (o' = o1)) as [->|Hne]; [rewrite lookup_insert_eq|rewrite lookup_insert_ne by done; apply Hf].
    simpl. intros Hc. destruct (Hx Hc) as [?|[o2 ->]]; [by eapply Hf|]. by eapply Hpc. }
  assert (threads s1 = threads s /\ (o, c, l) ∈ loops s1 /\ c ∉ cancelled s1 /\ length (owners s) <= length (owners s1) /\
    (forall o', cancel (obj s1 o') <> Some c) /\ (forall o', p' <> SetCancel o' c)) as (H1 & H2 & H3 & H4 & H5 & H6).
  { destruct p as [|o1|o1 c1|o1 c1|o1 c1|o1|o1|o1]; cbn [advance] in Ha; cbv zeta in Ha.
    - destruct ops as [|[o1|o1] ops]; [done|..]; injection Ha as <- <- <-; by destruct (running _).
    - injection Ha as <- <- <-. split_and!; try done; simpl; [rewrite length_app; simpl; lia| |].
      + intros o'. apply Hset. simpl. auto.
      + intros o' Heq. injection Heq as <- <-. lia.
    - injection Ha as <- <- <-. split_and!; try done. intros o'. apply Hset. simpl. intros Hc. injection Hc as ->. eauto.
    - injection Ha as <- <- <-. split_and!; try done. intros o'. apply Hset. simpl. auto.
    - injection Ha as <- <- <-. split_and!; try done. simpl. apply elem_of_app. by left.
    - destruct (cancel (obj s o1)) as [c1|] eqn:Hc1; injection Ha as <- <- <-; split_and!; try done.
      simpl. intros [->|?]%elem_of_cons; [by eapply Hf|done].
    - injection Ha as <- <- <-. split_and!; try done. intros o'. apply Hset. simpl. auto.
    - destruct (ctx (obj s o1)); [|done]. case_bool_decide; [|done]. by injection Ha as <- <- <-. }
  constructor; simpl; [by exists l|done|lia|exact H5|]. intros j o' ops0. rewrite H1.
  intros [(<- & Heq & _)|[_ Hj]]%list_lookup_insert_Some; [injection Heq as Hp' _; by eapply H6|by eapply Hpc].
Qed.

Lemma orphan_loops s l' o c :
  orphan s o c -> (exists l, (o, c, l) ∈ l' /\ (l = Busy \/ l = Waiting c)) -> orphan (set_loops l' s) o c.
Proof. intros [_ H2 H3 H4 H5] H1. by constructor. Qed.

Lemma elem_insert_other {A} (l : list A) i x y z : l !! i = Some x -> y ∈ l -> y <> x -> y ∈ <[i := z]> l.
Proof.
  intros Hi Hy Hne. apply list_elem_of_lookup in Hy as [j Hj]. apply (list_elem_of_lookup_2 _ j).
  rewrite list_lookup_insert_ne; [done|]. intros ->. congruence.
Qed.
Lemma elem_delete_other {A} (l : list A) i x y : l !! i = Some x -> y ∈ l -> y <> x -> y ∈ delete i l.
Proof.
  intros Hi Hy Hne. rewrite delete_take_drop. rewrite <- (take_drop_middle l i x Hi) in Hy.
  apply elem_of_app in Hy as [Hy|[?|Hy]%elem_of_cons]; [apply elem_of_app; by left|done|apply elem_of_app; by right].
Qed.

Lemma orphan_move s i o0 c0 l0 l1 o c :
  orphan s o c -> loops s !! i = Some (o0, c0, l0) -> (c0 = c -> l1 = Busy \/ l1 = Waiting c) ->
  orphan (set_loops (<[i := (o0, c0, l1)]> (loops s)) s) o c.
Proof.
  intros Ho Hl H1. apply orphan_loops; [done|]. destruct (or_loop _ _ _ Ho) as (l & Hin & Hls).
  destruct (decide ((o, c) = (o0, c0))) as [Heq|Hne].
  - simplify_eq. exists l1. split; [|by apply H1]. apply (list_elem_of_lookup_2 _ i), list_lookup_insert_eq. by eapply lookup_lt_Some.
  - exists l. split; [|done]. eapply elem_insert_other; [done|done|]. naive_solver.
Qed.

Lemma orphan_loop_step s s' o c : orphan s o c -> step false true s s' -> orphan s' o c.
Proof.
  intros Ho [e He]. destruct e as [ops|i|i|i|i]; cbn [exec1] in He.
  - injection He as <-. destruct Ho as [H1 H2 H3 H4 H5]. constructor; try done. simpl.
    intros i o' ops0 [Hi|[_ Hi]]%lookup_app_Some; [by eapply H5|]. by apply list_lookup_singleton_Some in Hi as [_ ?].
  - apply bind_Some in He as ([p ops] & Ht & He). apply bind_Some in He as ([[s1 p'] ops'] & Ha & He). injection He as <-.
    by eapply orphan_advance.
  - apply bind_Some in He as ([[o0 c0] l0] & Hl & He). destruct l0; [|done]. simpl in He. injection He as <-.
    eapply orphan_move; [done|done|]. intros ->. by right.
  - apply bind_Some in He as ([[o0 c0] l0] & Hl & He). destruct l0; [done|]. injection He as <-.
    eapply orphan_move; [done|done|]. by left.
  - apply bind_Some in He as ([[o0 c0] l0] & Hl & He). destruct l0 as [|d]; [done|]. case_bool_decide as Hd; [|done]. injection He as <-.
    apply orphan_loops; [done|]. destruct (or_loop _ _ _ Ho) as (l & Hin & Hls). exists l. split; [|done].
    eapply elem_delete_other; [done|done|]. intros Heq. pose proof (or_live _ _ _ Ho). destruct Hls; simplify_eq; done.
Qed.

(** C28: What the condition of [one_loop_per_aggregator] excludes happens: two
    commands that activate the same aggregator at the same time start two loops,
    and whatever commands come later, one of the two is never stopped. *)
Theorem overlapping_starts_leak :
  exists s c c', rtc (step false true) init s /\ live s 0 = [c; c'] /\ c <> c' /\
    forall s', rtc (step false true) s s' -> exists l, (0, c, l) ∈ loops s' /\ c ∉ cancelled s'.
Proof.
  set (es := [Spawn [Start 0]; Spawn [Start 0]; Thread 0; Thread 1] ++ replicate 4 (Thread 0) ++ replicate 4 (Thread 1)).
  set (s := mkState {[0 := mkObj true (Some 1) (Some 1)]} [0; 0] [] [(AtNext, []); (AtNext, [])] [(0, 0, Busy); (0, 1, Busy)]).
  assert (exec false true init es = Some s) as Hs by by vm_compute. exists s, 0, 1.
  split; [by eapply exec_rtc|]. split; [by vm_compute|]. split; [done|].
  intros s' Hr. enough (orphan s' 0 0) as Ho; [destruct (or_loop _ _ _ Ho) as (l & Hl & _); exists l; split; [exact Hl|apply Ho]|].
  revert s' Hr. refine (rtc_ind_r _ _ _ _); [|intros y z _ Hyz Hy; by eapply orphan_loop_step].
  constructor; simpl.
  - exists Busy. split; [by left|by left].
  - apply not_elem_of_nil.
  - lia.
  - intros o'. unfold obj. simpl. destruct (decide (o' = 0)) as [->|Hne]; [done|]. by rewrite lookup_singleton_ne.
  - intros [|[|i]] o' ops; done.
Qed.

(** ** Fetchers, local aggregators and the writer of feed data *)

(** A thing after [n] restarts, its loops at work, the commands [ops] to come. *)
Record restarted (n : nat) (ops : list op) (s : State) : Prop := {
  re_obj : objs s = {[0 := mkObj true (Some n) (Some n)]};
  re_ctx : length (owners s) = S n;
  re_cancelled : forall c, c ∈ cancelled s -> c < n;
  re_thread : threads s = [(AtNext, ops)];
  re_count : length (loops s) = S n;
  re_loops : Forall (fun l => l.1.1 = 0 /\ l.2 = Busy) (loops s)
}.
Fixpoint restart_ops (n : nat) : list op := match n with O => [] | S n => Stop 0 :: Start 0 :: restart_ops n end.

Lemma restart_cycle n ow ca lo ops :
  exec true false (mkState {[0 := mkObj true (Some n) (Some n)]} ow ca [(AtNext, Stop 0 :: Start 0 :: ops)] lo)
    (replicate 8 (Thread 0)) =
  Some (mkState {[0 := mkObj true (Some (length ow)) (Some (length ow))]} (ow ++ [0]) (n :: ca) [(AtNext, ops)]
    (lo ++ [(0, length ow, Busy)])).
Proof. reflexivity. Qed.

Lemma restart_many k : forall n s, restarted n (restart_ops k) s ->
  exists s', rtc (step true false) s s' /\ restarted (n + k) [] s'.
Proof.
  induction k as [|k IH]; intros n s Hs; [exists s; rewrite Nat.add_0_r; split; [apply rtc_refl|done]|].
  destruct s as [ob ow ca th lo]. destruct Hs as [H1 H2 H3 H4 H5 H6]. simpl in *. subst ob th.
  pose proof (restart_cycle n ow ca lo (restart_ops k)) as Hex. rewrite H2 in Hex. apply exec_rtc in Hex.
  match type of Hex with rtc _ _ ?t => assert (restarted (S n) (restart_ops k) t) as Ht end.
  { constructor; simpl; try done.
    - rewrite length_app. simpl. lia.
    - intros c [->|Hc%H3]%elem_of_cons; lia.
    - rewrite length_app. simpl. lia.
    - apply Forall_app. split; [done|]. by repeat constructor. }
  destruct (IH (S n) _ Ht) as (s' & Hr & Hs'). exists s'. split; [etrans; [exact Hex|exact Hr]|by rewrite Nat.add_succ_r].
Qed.

Lemma select_many n s : restarted n [] s -> forall k, k <= S n ->
  exists s', rtc (step true false) s s' /\ objs s' = objs s /\ cancelled s' = cancelled s /\ threads s' = threads s /\
    loops s' = ((fun l : nat * nat * lstate => (l.1, Waiting n)) <$> take k (loops s)) ++ drop k (loops s).
Proof.
  intros [H1 H2 H3 H4 H5 H6]. induction k as [|k IH]; intros Hk; [exists s; by split_and!; [apply rtc_refl|..]|].
  destruct IH as (s' & Hr & Ho & Hc & Ht & Hl); [lia|].
  destruct (lookup_lt_is_Some_2 (loops s) k) as [[[o c] l] Hx]; [lia|].
  rewrite Forall_lookup in H6. destruct (H6 k _ Hx) as [Ho0 Hb]. simpl in *. subst o l.
  assert (length ((fun l : nat * nat * lstate => (l.1, Waiting n)) <$> take k (loops s)) = k) as Hlen
    by (rewrite length_fmap, length_take; lia).
  assert (Hx' : loops s' !! k = Some (0, c, Busy)).
  { rewrite Hl, lookup_app_r, Hlen, Nat.sub_diag by lia. by rewrite lookup_drop, Nat.add_0_r. }
  exists (set_loops (<[k := (0, c, Waiting n)]> (loops s')) s'). split.
  - eapply rtc_r; [exact Hr|]. exists (Select k). cbn [exec1]. rewrite Hx'. simpl. unfold obj. by rewrite Ho, H1.
  - simpl. split_and!; try done. rewrite Hl, insert_app_r_alt, Hlen, Nat.sub_diag by lia.
    rewrite (take_S_r _ _ _ Hx), fmap_app, <- app_assoc. f_equal.
    rewrite <- (take_drop_middle (loops s) k _ Hx) at 1. rewrite drop_app_length'; [done|]. rewrite length_take. lia.
Qed.


(** Witness: an aggregator that one command starts, stops and starts again,
    while another starts a second one. *)
Definition w_events : list event :=
  [Spawn [Start 0; Stop 0; Start 0]; Spawn [Start 1]; Thread 0; Thread 1; Thread 0; Thread 1; Thread 0; Thread 1; Thread 0; Thread 0;
   Select 0; Thread 0; Thread 1; Thread 0; Thread 1; End_ 0] ++ replicate 7 (Thread 0).

(** No two commands are at the same thing. *)
Definition exclusiveb (s : State) : bool := bool_decide (NoDup (omap (works ∘ fst) (threads s))).
Lemma exclusive_check s : exclusiveb s = true -> exclusive s.
Proof.
  intros Hn%bool_decide_eq_true i j x y o Hne Hi Hj Hx Hy. revert Hn Hi Hj. generalize (threads s). clear s.
  assert (forall (l : list (pc * list op)) i x, l !! i = Some x -> works x.1 = Some o -> o ∈ omap (works ∘ fst) l) as Hin.
  { intros l i0 x0 Hi0 Hx0. apply list_elem_of_omap. exists x0. split; [by eapply list_elem_of_lookup_2|done]. }
  intros l. revert i j Hne. induction l as [|z l IH]; intros i j Hne Hn Hi Hj; [done|].
  simpl in Hn. destruct i as [|i], j as [|j]; simpl in *; [done|..].
  - simplify_eq. rewrite Hx in Hn. apply NoDup_cons in Hn as [Hn _]. apply Hn. by eapply Hin.
  - simplify_eq. rewrite Hy in Hn. apply NoDup_cons in Hn as [Hn _]. apply Hn. by eapply Hin.
  - apply (IH i j); [congruence| |done|done]. destruct (works z.1); [by apply NoDup_cons in Hn as [_ ?]|done].
Qed.

(** A run on given events, all its states exclusive. *)
Fixpoint exec_excl (s : State) (es : list event) : option State :=
  match es with
  | [] => Some s
  | e :: es => s' ← exec1 false true s e; if exclusiveb s' then exec_excl s' es else None
  end.
Lemma exec_excl_erun es : forall s s', erun false true s -> exec_excl s es = Some s' -> erun false true s'.
Proof.
  induction es as [|e es IH]; intros s s' Hs He; [by injection He as <-|]. apply bind_Some in He as (s1 & H1 & He).
  destruct (exclusiveb s1) eqn:Hx; [|done]. eapply IH; [|done]. eapply erun_step; [done|by exists e|by apply exclusive_check].
Qed.

Lemma one_loop_per_aggregator_witness : exists s c, erun false true s /\ live s 0 = [c] /\ running (obj s 0) = true.
Proof.
  destruct (exec_excl init w_events) as [s|] eqn:Hs; [|by vm_compute in Hs].
  assert (erun false true s) as Hr by (eapply exec_excl_erun; [apply erun_init|done]).
  destruct (one_loop_per_aggregator s Hr) as [Hone _]. specialize (Hone 0).
  assert (running (obj s 0) = true) as Hrun by (vm_compute in Hs; injection Hs as <-; done). rewrite Hrun in Hone.
  destruct Hone as [c Hc]; [|exists s, c; split; [exact Hr|split; [exact Hc|exact Hrun]]].
  intros (i & x & Hi & Hx). vm_compute in Hs. injection Hs as <-. simpl in Hi.
  destruct i as [|[|i]]; simpl in Hi; simplify_eq; done.
Defined.
End Runners.
