(* ===== verification/Hub.v ===== *)
(** * Hub: the websocket clients of the DAL, and its cache of API keys

    [node/pkg/dal/hub/hub.go] and [node/pkg/dal/utils/keycache/keycache.go].
    Connections are numbered.  [Clients] operations are one critical section
    each; the hourly clean-up also talks to the goroutine that registers
    clients, so the two are a step relation with the lock made explicit. *)

From S2P Require Import Prelude Errors Text.
Import Text.

Local Open Scope Z_scope.

Module Hub.

Abbreviation conn := nat (only parsing).

Record Subscription : Type := mkSubscription { Method : string; Params : list string }.

Record Hub : Type := mkHub {
  Symbols : gset string;
  Clients : gmap conn (gset string)
}.

Definition NewHub (symbols : gset string) : Hub := mkHub symbols ∅.
Definition HubSetup (symbols : list string) : Hub := NewHub (list_to_set symbols).

(** The loop over the parameters of a subscription. *)
Fixpoint subscribe_loop (symbols : gset string) (params : list string) (subscriptions : gset string)
    (valid : list string) : gset string * list string :=
  match params with
  | [] => (subscriptions, valid)
  | param :: params =>
      let symbol := TrimPrefix param "submission@" in
      if bool_decide (symbol ∈ symbols)
      then subscribe_loop symbols params ({[symbol]} ∪ subscriptions) (valid ++ [param])
      else subscribe_loop symbols params subscriptions valid
  end.

(** The second result: the parameters recorded in the statistics. *)
Definition HandleSubscription (client : conn) (msg : Subscription) (h : Hub) : Hub * list string :=
  let subscriptions := default ∅ (Clients h !! client) in
  let '(subscriptions, valid) := subscribe_loop (Symbols h) (Params msg) subscriptions [] in
  (mkHub (Symbols h) (<[client := subscriptions]> (Clients h)), valid).

Definition addClient (client : conn) (h : Hub) : Hub :=
  match Clients h !! client with
  | Some _ => h
  | None => mkHub (Symbols h) (<[client := ∅]> (Clients h))
  end.

(** The second result: the connections closed. *)
Definition removeClient (client : conn) (h : Hub) : Hub * list conn :=
  match Clients h !! client with
  | None => (h, [])
  | Some _ => (mkHub (Symbols h) (delete client (Clients h)), [client])
  end.

(** Who is sent a piece of data for a symbol. *)
Definition castSubmissionData (symbol : string) (h : Hub) : list conn :=
  (filter (fun cs : conn * gset string => symbol ∈ cs.2) (map_to_list (Clients h))).*1.

(** ** Subscriptions *)
Lemma subscribe_loop_spec symbols params : forall subs valid,
  let '(subs', valid') := subscribe_loop symbols params subs valid in
  (forall s, s ∈ subs' <-> s ∈ subs \/ s ∈ symbols /\ exists p, p ∈ params /\ TrimPrefix p "submission@" = s) /\
  valid' = valid ++ filter (fun p => TrimPrefix p "submission@" ∈ symbols) params.
Proof.
  induction params as [|p params IH]; intros subs valid; simpl.
  - split; [set_solver|]. by rewrite filter_nil, app_nil_r.
  - rewrite filter_cons. case_bool_decide as Hp; case_decide; try done.
    + specialize (IH ({[TrimPrefix p "submission@"]} ∪ subs) (valid ++ [p])).
      destruct (subscribe_loop _ _ _ _) as [subs' valid']. destruct IH as [Hs ->]. split.
      * intros s. rewrite Hs. set_solver.
      * by rewrite <- app_assoc.
    + specialize (IH subs valid). destruct (subscribe_loop _ _ _ _) as [subs' valid'].
      destruct IH as [Hs ->]. split; [|done]. intros s. rewrite Hs. split; [set_solver|].
      intros [?|(Hin & q & [->|Hq]%elem_of_cons & <-)]; [by left|done|right; eauto].
Qed.

(** A client is sent exactly the known symbols it asked for; other clients are
    not affected. *)
Lemma HandleSubscription_cast client msg h h' valid symbol c :
  HandleSubscription client msg h = (h', valid) ->
  c ∈ castSubmissionData symbol h' <->
    (c <> client /\ c ∈ castSubmissionData symbol h) \/
    (c = client /\ ((exists subs, Clients h !! client = Some subs /\ symbol ∈ subs) \/
       symbol ∈ Symbols h /\ exists p, p ∈ Params msg /\ TrimPrefix p "submission@" = symbol)).
Proof.
  assert (forall h0, c ∈ castSubmissionData symbol h0 <->
    exists subs, Clients h0 !! c = Some subs /\ symbol ∈ subs) as Hcast.
  { intros h0. unfold castSubmissionData. rewrite list_elem_of_fmap. split.
    - intros ([c' subs] & -> & [Hs Hin]%list_elem_of_filter). apply elem_of_map_to_list in Hin. eauto.
    - intros (subs & Hc & Hs). exists (c, subs). split; [done|]. apply list_elem_of_filter.
      split; [done|]. by apply elem_of_map_to_list. }
  unfold HandleSubscription.
  pose proof (subscribe_loop_spec (Symbols h) (Params msg) (default ∅ (Clients h !! client)) []) as Hl.
  destruct (subscribe_loop _ _ _ _) as [subs valid']. destruct Hl as [Hs _]. intros. simplify_eq.
  rewrite !Hcast. simpl. destruct (decide (client = c)) as [<-|Hne].
  - rewrite lookup_insert_eq. split.
    + intros (subs' & ? & Hin). simplify_eq. apply Hs in Hin as [Hin|Hin]; right; (split; [done|]); [left|by right].
      destruct (Clients h !! client); simpl in Hin; [eauto|set_solver].
    + intros [[? _]|[_ Hor]]; [done|]. exists subs. split; [done|]. apply Hs.
      destruct Hor as [(subs' & Hc & Hin)|?]; [left; by rewrite Hc|by right].
  - rewrite lookup_insert_ne by done. naive_solver.
Qed.

(** ** Clean-up *)

(** The goroutine of [handleClientRegistration]: waiting on its two unbuffered
    channels, or about to take the lock for a client. *)
Inductive registrar : Type := Waiting | Adding (c : conn) | Removing (c : conn).

(** [cleanup]: not running, or inside its loop with the clients still to visit
    and the new map. *)
Inductive cleaner : Type :=
| Idle
| Looping (todo : list (conn * gset string)) (newClients : gmap conn (gset string)).

(** [cleanup] holds the lock exactly while it is inside its loop. *)
Record hsys : Type := mkHsys {
  hub : Hub; cleanup : cleaner; reg : registrar; closed : list conn
}.

Inductive hstep : hsys -> hsys -> Prop :=
| h_start h todo r k :
    todo ≡ₚ map_to_list (Clients h) -> hstep (mkHsys h Idle r k) (mkHsys h (Looping todo ∅) r k)
| h_keep h c s todo new r k :
    s <> ∅ -> hstep (mkHsys h (Looping ((c, s) :: todo) new) r k) (mkHsys h (Looping todo (<[c := s]> new)) r k)
| h_send h c todo new k :
    hstep (mkHsys h (Looping ((c, ∅) :: todo) new) Waiting k) (mkHsys h (Looping todo new) (Removing c) k)
| h_end h new r k :
    hstep (mkHsys h (Looping [] new) r k) (mkHsys (mkHub (Symbols h) new) Idle r k)
| h_register h cl c k : hstep (mkHsys h cl Waiting k) (mkHsys h cl (Adding c) k)
| h_unregister h cl c k : hstep (mkHsys h cl Waiting k) (mkHsys h cl (Removing c) k)
| h_add h c k : hstep (mkHsys h Idle (Adding c) k) (mkHsys (addClient c h) Idle Waiting k)
| h_remove h c k h' ks :
    removeClient c h = (h', ks) -> hstep (mkHsys h Idle (Removing c) k) (mkHsys h' Idle Waiting (ks ++ k))
| h_subscribe h c msg r k h' valid :
    HandleSubscription c msg h = (h', valid) -> hstep (mkHsys h Idle r k) (mkHsys h' Idle r k).

(** Clients that asked for nothing. *)
Definition silent (l : list (conn * gset string)) : nat := length (filter (fun cs : conn * gset string => cs.2 = ∅) l).

Definition stuck (s : hsys) : Prop :=
  exists todo new, cleanup s = Looping todo new /\
    ((2 <= silent todo)%nat \/ (1 <= silent todo)%nat /\ reg s <> Waiting).

Lemma stuck_step s s' : stuck s -> hstep s s' -> stuck s'.
Proof.
  intros (todo & new & Hc & Hs) Hstep.
  destruct Hstep as [h td r k Hp|h c sb todo' new' r k Hsb|h c todo' new' k|h new' r k|h cl c k|h cl c k|h c k|h c k h' ks Hr|h c msg r k h' valid Hh];
    simpl in *; simplify_eq; unfold stuck; simpl.
  - exists todo', (<[c := sb]> new). split; [done|]. unfold silent in *. rewrite filter_cons in Hs.
    by rewrite decide_False in Hs.
  - exists todo', new. split; [done|]. unfold silent in *. rewrite filter_cons, decide_True in Hs by done.
    simpl in Hs. destruct Hs as [Hs|[_ Hw]]; [right; split; [lia|done]|done].
  - unfold silent in Hs. simpl in Hs. lia.
  - exists todo, new. split; [done|]. destruct Hs as [Hs|[_ Hw]]; [by left|done].
  - exists todo, new. split; [done|]. destruct Hs as [Hs|[_ Hw]]; [by left|done].
Qed.

(** C34: the hourly clean-up deadlocks the hub as soon as two clients have no
    subscription, whatever order the map is visited in: it holds the lock while it hands the second client to the
    registration goroutine, which waits for that lock to remove the first.  From
    then on no clean-up ends and no client is added, removed or closed. *)
Theorem cleanup_deadlocks h r k s0 s :
  (2 <= silent (map_to_list (Clients h)))%nat ->
  hstep (mkHsys h Idle r k) s0 -> cleanup s0 <> Idle -> rtc hstep s0 s ->
  hub s = h /\ cleanup s <> Idle /\ closed s = k.
Proof.
  intros H2 Hstart Hrun Hrtc.
  assert (stuck s0 /\ hub s0 = h /\ closed s0 = k) as (Hstuck & Hh & Hk).
  { inversion Hstart as [h0 todo r0 k0 Hp| | | | | | | |]; subst; simpl in *; try done.
    split; [|done]. exists todo, ∅. split; [done|]. left. simpl. unfold silent in *. by rewrite Hp. }
  clear Hstart Hrun H2. induction Hrtc as [s0|s0 s1 s2 H01 _ IH].
  { destruct Hstuck as (todo & new & Hc & _). rewrite Hc. done. }
  apply IH.
  - by eapply stuck_step.
  - destruct Hstuck as (todo & new & Hc & Hs).
    destruct H01; simpl in *; simplify_eq; try done. unfold silent in Hs. simpl in Hs. lia.
  - destruct Hstuck as (todo & new & Hc & Hs). destruct H01; simpl in *; simplify_eq; done.
Qed.

(** With a single such client there is no deadlock, but the client is dropped
    from the map before it is removed, so its connection is never closed. *)
Lemma cleanup_forgets_to_close h c k :
  Clients h = {[c := ∅]} ->
  exists s, rtc hstep (mkHsys h Idle Waiting k) s /\
    cleanup s = Idle /\ reg s = Waiting /\ Clients (hub s) = ∅ /\ closed s = k.
Proof.
  intros Hc. eexists. split.
  - eapply rtc_l; [apply (h_start _ [(c, ∅)]); by rewrite Hc, map_to_list_singleton|].
    eapply rtc_l; [apply h_send|]. eapply rtc_l; [apply h_end|].
    eapply rtc_l; [by apply h_remove|]. apply rtc_refl.
  - done.
Qed.

Lemma cleanup_deadlocks_witness :
  let h := mkHub ∅ {[1%nat := ∅; 2%nat := ∅]} in
  hub (mkHsys h (Looping (map_to_list (Clients h)) ∅) Waiting []) = h.
Proof.
  intros h. apply (cleanup_deadlocks h Waiting [] (mkHsys h (Looping (map_to_list (Clients h)) ∅) Waiting [])).
  - vm_compute. lia.
  - by apply h_start.
  - done.
  - apply rtc_refl.
Defined.
End Hub.

(** ** API keys *)
Module KeyCache.

Record KeyCache : Type := mkKeyCache { keys : gmap string Z; ttl : Z }.

Definition NewAPIKeyCache (ttl : Z) : KeyCache := mkKeyCache ∅ ttl.
Definition Set_ (now : Z) (key : string) (c : KeyCache) : KeyCache :=
  mkKeyCache (<[key := now + ttl c]> (keys c)) (ttl c).
Definition Get (now : Z) (key : string) (c : KeyCache) : bool :=
  match keys c !! key with
  | None => false
  | Some expiry => negb (expiry <? now)
  end.
Definition Cleanup (now : Z) (c : KeyCache) : KeyCache :=
  mkKeyCache (filter (fun kv => ~ kv.2 < now) (keys c)) (ttl c).
(** The goroutine sleeps once and cleans once; [now] is the time after the
    sleep. *)
Definition CleanupLoop (now : Z) (c : KeyCache) : KeyCache := Cleanup now c.
Definition ValidateApiKeyFromDB (row : res bool) : bool :=
  match row with Ok exists_ => exists_ | Err _ => false end.

(** A clean-up is invisible: it removes only keys that [Get] refuses, now and
    at any later time. *)
Lemma Cleanup_Get now later key c : now <= later -> Get later key (Cleanup now c) = Get later key c.
Proof.
  intros Hle. unfold Get, Cleanup. simpl. rewrite map_lookup_filter.
  destruct (keys c !! key) as [expiry|]; [|done]. simpl.
  destruct (decide (~ expiry < now)) as [Hn|Hn].
  - rewrite option_guard_True by done. done.
  - rewrite option_guard_False by done. symmetry. apply negb_false_iff, Z.ltb_lt. lia.
Qed.

(** A key is accepted for exactly its time to live after it was set. *)
Lemma Set_Get now later key c : Get later key (Set_ now key c) = (later <=? now + ttl c).
Proof.
  unfold Get, Set_. simpl. rewrite lookup_insert_eq. apply eq_true_iff_eq.
  rewrite negb_true_iff, Z.ltb_ge, Z.leb_le. lia.
Qed.
End KeyCache.
