(* ===== verification/Signer.v ===== *)
(** * Signer: the oracle's key, its renewal and its storage

    [node/pkg/chain/helper/signer.go], the key storage of
    [node/pkg/chain/utils/utils.go] and [node/pkg/utils/encryptor].  The chain,
    the database, scrypt and AES-CTR are parameters: the environment of a call
    holds their answers. *)

From S2P Require Import Prelude Errors Wire Text Signing.
Import Text Signing.

Local Open Scope Z_scope.

(** ** The encryptor *)
Module Encryptor.
Section encryptor.

(** [scrypt.Key] and the key stream of AES-256-CTR, third-party code. *)
Context (scrypt_Key : string -> list Z -> res (list Z))
  (keystream : list Z -> list Z -> nat -> list Z)
  (ENCRYPT_PASSWORD : string).

Definition password : string :=
  if bool_decide (ENCRYPT_PASSWORD = "") then "anything" else ENCRYPT_PASSWORD.

(** [stream.XORKeyStream]. *)
Definition XORKeyStream (key iv src : list Z) : list Z :=
  zip_with Z.lxor src (keystream key iv (length src)).

(** [iv] and [salt] are what the two calls of [rand.Read] give.  A key of 32
    bytes is always a key of AES, so [aes.NewCipher] does not fail. *)
Definition EncryptText (iv salt : res (list Z)) (textToEncrypt : string) : res string :=
  match iv with
  | Err err => Err err
  | Ok iv =>
      match salt with
      | Err err => Err err
      | Ok salt =>
          match scrypt_Key password salt with
          | Err err => Err err
          | Ok key =>
              let ciphertext := XORKeyStream key iv (string_bytes textToEncrypt) in
              Ok (EncodeToString iv +:+ EncodeToString salt +:+ EncodeToString ciphertext)
          end
      end
  end.

Definition bytes_string (l : list Z) : string := text ((fun b => Ascii.ascii_of_N (Z.to_N b)) <$> l).

(** [None]: the slices panic on a text shorter than 64 characters. *)
Definition DecryptText (encryptedText : string) : option (res string) :=
  let l := chars encryptedText in
  if (length l <? 64)%nat then None else
  Some match decode_hex (take 32 l), decode_hex (take 32 (drop 32 l)), decode_hex (drop 64 l) with
  | Some iv, Some salt, Some ciphertext =>
      match scrypt_Key password salt with
      | Err err => Err err
      | Ok key => Ok (bytes_string (XORKeyStream key iv ciphertext))
      end
  | _, _, _ => Err (External "encoding/hex")
  end.

(** *** Round trip *)
Abbreviation is_byte := (fun b : Z => 0 <= b < 256).
Context (keystream_length : forall key iv n, length (keystream key iv n) = n)
  (keystream_bytes : forall key iv n, Forall is_byte (keystream key iv n)).

Lemma string_bytes_is_byte s : Forall is_byte (string_bytes s).
Proof.
  unfold string_bytes. apply Forall_forall. intros b Hb. apply list_elem_of_fmap in Hb as (c & -> & _).
  pose proof (Ascii.N_ascii_bounded c). lia.
Qed.

Lemma bytes_string_bytes s : bytes_string (string_bytes s) = s.
Proof.
  unfold bytes_string, string_bytes. rewrite <- list_fmap_compose. rewrite <- (text_chars s) at 2. f_equal.
  rewrite <- (list_fmap_id (chars s)) at 2. apply list_fmap_ext. intros i c _. simpl.
  by rewrite N2Z.id, Ascii.ascii_N_embedding.
Qed.

Lemma lxor_byte a b : is_byte a -> is_byte b -> is_byte (Z.lxor a b).
Proof.
  intros Ha Hb. assert (Z.lxor a b = Z.land (Z.lxor a b) (Z.ones 8)) as ->.
  2:{ rewrite Z.land_ones by lia. by apply Z.mod_pos_bound. }
  apply Z.bits_inj'. intros i Hi.
  rewrite Z.land_spec, Z.lxor_spec, Z.testbit_ones_nonneg by lia.
  destruct (i <? 8) eqn:H8; [by rewrite andb_true_r|]. apply Z.ltb_ge in H8. rewrite andb_false_r.
  assert (forall x, 0 <= x < 256 -> Z.testbit x i = false) as Hhigh.
  { intros x Hx. destruct (decide (x = 0)) as [->|]; [apply Z.testbit_0_l|].
    apply Z.bits_above_log2; [lia|]. apply Z.log2_lt_pow2; [lia|].
    apply Z.lt_le_trans with (2 ^ 8); [lia|]. apply Z.pow_le_mono_r; lia. }
  by rewrite !Hhigh.
Qed.

Lemma XORKeyStream_spec key iv l :
  Forall is_byte l ->
  length (XORKeyStream key iv l) = length l /\ Forall is_byte (XORKeyStream key iv l) /\
  XORKeyStream key iv (XORKeyStream key iv l) = l.
Proof.
  intros Hl. unfold XORKeyStream.
  pose proof (keystream_length key iv (length l)) as Hk. pose proof (keystream_bytes key iv (length l)) as Hb.
  assert (length (zip_with Z.lxor l (keystream key iv (length l))) = length l) as Hlen
    by (rewrite length_zip_with; lia).
  split; [done|]. rewrite Hlen. revert Hk Hb. generalize (keystream key iv (length l)). clear Hlen.
  induction Hl as [|x l Hx _ IH]; intros [|y k] Hk Hb; try done. apply Forall_cons in Hb as [Hy Hb].
  destruct (IH k) as [IH1 IH2]; [by injection Hk|done|]. simpl. split.
  - constructor; [by apply lxor_byte|done].
  - rewrite IH2. f_equal. by rewrite Z.lxor_assoc, Z.lxor_nilpotent, Z.lxor_0_r.
Qed.

Lemma length_hex bs : length (bs ≫= hex_byte) = (2 * length bs)%nat.
Proof. induction bs as [|b bs IH]; [done|]. rewrite bind_cons, length_app, IH. simpl. lia. Qed.

Lemma Decrypt_Encrypt_lemma iv salt s enc :
  length iv = 16%nat -> length salt = 16%nat -> Forall is_byte iv -> Forall is_byte salt ->
  EncryptText (Ok iv) (Ok salt) s = Ok enc -> DecryptText enc = Some (Ok s).
Proof.
  intros Hiv Hsalt Hbi Hbs. unfold EncryptText. destruct (scrypt_Key password salt) as [key|] eqn:Hkey; [|done].
  intros. simplify_eq. pose proof (string_bytes_is_byte s) as Hs.
  destruct (XORKeyStream_spec key iv _ Hs) as (Hlen & Hby & Hinv).
  set (ct := XORKeyStream key iv (string_bytes s)) in *.
  unfold DecryptText. rewrite !chars_app. unfold EncodeToString. rewrite !chars_text.
  set (hi := iv ≫= hex_byte). set (hs := salt ≫= hex_byte).
  assert (length hi = 32%nat) as Lhi by (unfold hi; rewrite length_hex; lia).
  assert (length hs = 32%nat) as Lhs by (unfold hs; rewrite length_hex; lia).
  rewrite length_app, length_app. rewrite (proj2 (Nat.ltb_ge _ _)) by lia.
  rewrite take_app_length' by done. rewrite (drop_app_length' hi) by done. rewrite take_app_length' by done.
  replace (drop 64 (hi ++ hs ++ (ct ≫= hex_byte))) with (ct ≫= hex_byte).
  2:{ rewrite app_assoc, drop_app_length'; [done|rewrite length_app; lia]. }
  assert (forall bs, Forall is_byte bs -> decode_hex (bs ≫= hex_byte) = Some bs) as Hdec.
  { intros bs Hb. pose proof (DecodeString_EncodeToString bs Hb) as Hd.
    unfold DecodeString, EncodeToString in Hd. by rewrite chars_text in Hd. }
  unfold hi, hs. rewrite !Hdec by done. rewrite Hkey, Hinv. by rewrite bytes_string_bytes.
Qed.
End encryptor.
End Encryptor.

(** ** The signer *)
Module Signer.
Import Encryptor.
Section signer.
Context `{Crypto} (scrypt_Key : string -> list Z -> res (list Z))
  (keystream : list Z -> list Z -> nat -> list Z) (ENCRYPT_PASSWORD : string).

Abbreviation Encrypt := (EncryptText scrypt_Key keystream ENCRYPT_PASSWORD).
Abbreviation Decrypt := (DecryptText scrypt_Key keystream ENCRYPT_PASSWORD).

Definition DefaultSignerRenewInterval : Duration := 12 * 3600 * second.
Definition DefaultSignerRenewThreshold : Duration := 7 * 24 * 3600 * second.

(** The mutex guards [PK] alone.  [chainHelper] is represented by the key it
    submits with; [None] once it is closed and not replaced. *)
Record Signer : Type := mkSigner {
  PK : PrivateKey;
  chainHelper : option string;
  submissionProxyContractAddr : string;
  expirationDate : option Time;
  renewInterval : Duration;
  renewThreshold : Duration
}.

Definition set_PK (pk : PrivateKey) (s : Signer) : Signer :=
  mkSigner pk (chainHelper s) (submissionProxyContractAddr s) (expirationDate s) (renewInterval s) (renewThreshold s).
Definition set_chainHelper (c : option string) (s : Signer) : Signer :=
  mkSigner (PK s) c (submissionProxyContractAddr s) (expirationDate s) (renewInterval s) (renewThreshold s).
Definition set_expirationDate (d : Time) (s : Signer) : Signer :=
  mkSigner (PK s) (chainHelper s) (submissionProxyContractAddr s) (Some d) (renewInterval s) (renewThreshold s).

Record SignerConfig : Type := mkSignerConfig { pk : string; cfg_interval : Duration; cfg_threshold : Duration }.

Definition SignerOption : Type := SignerConfig -> SignerConfig.
Definition WithSignerPk (pk : string) : SignerOption :=
  fun config => mkSignerConfig pk (cfg_interval config) (cfg_threshold config).
Definition WithRenewInterval (renewInterval : Duration) : SignerOption :=
  fun config => mkSignerConfig (pk config) renewInterval (cfg_threshold config).
Definition WithRenewThreshold (renewThreshold : Duration) : SignerOption :=
  fun config => mkSignerConfig (pk config) (cfg_interval config) renewThreshold.
(** The defaults, and the options in turn. *)
Definition signerConfig (opts : list SignerOption) : SignerConfig :=
  foldl (fun config opt => opt config) (mkSignerConfig "" DefaultSignerRenewInterval DefaultSignerRenewThreshold) opts.

(** The row of the signer table, empty when there is none. *)
Record Db : Type := mkDb { stored : string }.

(** Answers of one call: the clock, the key generator, the chain (the update of
    the signer, a new client, the expiration it stores for an address, [None]
    for a result of another type), reading and writing the database, and the
    random bytes. *)
Record SEnv : Type := mkSEnv {
  now : Time;
  NewPk : res (PrivateKey * string);
  updateOracle : Address -> option error;
  NewChainHelper : option error;
  readExpiration : Address -> res (option int64);
  dbReadError : option error;
  dbError : option error;
  rand_iv : res (list Z);
  rand_salt : res (list Z)
}.

Definition LoadSignerPk (E : SEnv) (db : Db) : option (res string) :=
  match dbReadError E with Some err => Some (Err err) | None =>
  if bool_decide (stored db = "") then Some (Err ErrChainSignerPKNotFound) else
  match Decrypt (stored db) with
  | None => None
  | Some (Err err) => Some (Err err)
  | Some (Ok pk) => Some (Ok (TrimPrefix pk "0x"))
  end end.

Definition StoreSignerPk (E : SEnv) (pk : string) (db : Db) : Db * option error :=
  match Encrypt (rand_iv E) (rand_salt E) pk with
  | Err err => (db, Some err)
  | Ok encryptedPk =>
      match dbError E with
      | Some err => (db, Some err)
      | None => (mkDb encryptedPk, None)
      end
  end.

(** [secret]: [secrets.GetSecret(SignerPk)]. *)
Definition getSignerPk (E : SEnv) (config : SignerConfig) (secret : string) (db : Db) : option (res string * Db) :=
  if negb (bool_decide (pk config = "")) then Some (Ok (TrimPrefix (pk config) "0x"), db) else
  loaded ← LoadSignerPk E db;
  let pk := match loaded with Ok pk => pk | Err _ => "" end in
  if bool_decide (pk = "") then
    if bool_decide (secret = "") then Some (Err ErrChainSignerPKNotFound, db)
    else let '(db, _) := StoreSignerPk E secret db in Some (Ok (TrimPrefix secret "0x"), db)
  else Some (Ok (TrimPrefix pk "0x"), db).

(** [contract]: the environment variable [SUBMISSION_PROXY_CONTRACT].  The
    goroutine it starts is [autoRenew] below. *)
Definition NewSigner (E : SEnv) (config : SignerConfig) (secret contract : string) (db : Db)
    : option (res Signer * Db) :=
  got ← getSignerPk E config secret db;
  let '(rpk, db) := got in
  match rpk with
  | Err err => Some (Err err, db)
  | Ok pk =>
      match StringToPk pk with
      | Err err => Some (Err err, db)
      | Ok privateKey =>
          match NewChainHelper E with
          | Some err => Some (Err err, db)
          | None =>
              if bool_decide (contract = "") then Some (Err ErrChainSubmissionProxyContractNotFound, db) else
              Some (Ok (mkSigner privateKey (Some pk) contract None (cfg_interval config) (cfg_threshold config)), db)
          end
      end
  end.

Definition LoadExpiration (E : SEnv) (s : Signer) : Signer * option error :=
  let addr := PubkeyToAddress (Public (PK s)) in
  match readExpiration E addr with
  | Err err => (s, Some err)
  | Ok None => (s, Some (Sentinel ErrChainFailedToParseContractResult))
  | Ok (Some rawTimestamp) =>
      (set_expirationDate (rawTimestamp * second) s, None)
  end.

(** [None]: the expiration is nil and its dereference panics. *)
Definition IsRenewalRequired (E : SEnv) (s : Signer) : option bool :=
  date ← expirationDate s; Some (time_Sub date (now E) <? renewThreshold s).

Definition Renew (E : SEnv) (newPK : PrivateKey) (newPkHex : string) (s : Signer) (db : Db)
    : Signer * Db * option error :=
  match StringPkToAddress newPkHex with
  | Err err => (s, db, Some err)
  | Ok addr =>
      match updateOracle E addr with
      | Some err => (s, db, Some err)
      | None =>
          let s := set_chainHelper None (set_PK newPK s) in
          match NewChainHelper E with
          | Some err => (s, db, Some err)
          | None =>
              let s := set_chainHelper (Some newPkHex) s in
              match LoadExpiration E s with
              | (s, Some err) => (s, db, Some err)
              | (s, None) => let '(db, err) := StoreSignerPk E newPkHex db in (s, db, err)
              end
          end
      end
  end.

Definition CheckAndUpdateSignerPK (E : SEnv) (s : Signer) (db : Db)
    : option (Signer * Db * option error) :=
  let '(s, err) :=
    match expirationDate s with
    | None => LoadExpiration E s
    | Some d => if IsZero d then LoadExpiration E s else (s, None)
    end in
  match err with
  | Some err => Some (s, db, Some err)
  | None =>
      required ← IsRenewalRequired E s;
      if negb required then Some (s, db, None) else
      match NewPk E with
      | Err err => Some (s, db, Some err)
      | Ok (newPK, newPkHex) => Some (Renew E newPK newPkHex s db)
      end
  end.

(** The check at the start, then one per tick until the context ends; an error
    is logged and the loop goes on.  [Es]: what each of them meets. *)
Fixpoint autoRenew_ticks (Es : list SEnv) (s : Signer) (db : Db) : option (Signer * Db) :=
  match Es with
  | [] => Some (s, db)
  | E :: Es => checked ← CheckAndUpdateSignerPK E s db; let '(s, db, _) := checked in autoRenew_ticks Es s db
  end.
Definition autoRenew (E : SEnv) (ticks : list SEnv) (s : Signer) (db : Db) : option (Signer * Db) :=
  autoRenew_ticks (E :: ticks) s db.

(** ** Theorems *)

(** The check never panics: the expiration is known before it is compared. *)
Lemma CheckAndUpdateSignerPK_total E s db : is_Some (CheckAndUpdateSignerPK E s db).
Proof.
  unfold CheckAndUpdateSignerPK.
  destruct (match expirationDate s with None => _ | Some d => if IsZero d then _ else _ end) as [s' [err|]] eqn:He;
    [by eexists|].
  assert (is_Some (expirationDate s')) as [d Hd].
  { destruct (expirationDate s) as [d|] eqn:Hs; [destruct (IsZero d)|].
    1,3: unfold LoadExpiration in He; destruct (readExpiration E _) as [[ts|]|]; simplify_eq; by eexists.
    simplify_eq. by eexists. }
  unfold IsRenewalRequired. rewrite Hd. simpl. destruct (negb _); [by eexists|].
  destruct (NewPk E) as [[pk hex]|]; by eexists.
Qed.

(** A new key comes with its text. *)
Definition newPk_consistent (E : SEnv) : Prop :=
  forall newPK hex, NewPk E = Ok (newPK, hex) -> StringToPk hex = Ok newPK.
(** The chain took the address of [key] as the new signer. *)
Definition accepted (E : SEnv) (key : PrivateKey) : Prop := updateOracle E (PubkeyToAddress (Public key)) = None.

Lemma LoadExpiration_PK E s : PK (LoadExpiration E s).1 = PK s.
Proof. unfold LoadExpiration. by destruct (readExpiration E _) as [[]|]. Qed.
Lemma check_key E s db s' db' err :
  newPk_consistent E -> CheckAndUpdateSignerPK E s db = Some (s', db', err) -> PK s' = PK s \/ accepted E (PK s').
Proof.
  intros Hnew. unfold CheckAndUpdateSignerPK.
  destruct (match expirationDate s with None => _ | Some d => if IsZero d then _ else _ end) as [s1 err1] eqn:He.
  assert (Hs1 : PK s1 = PK s).
  { pose proof (LoadExpiration_PK E s) as Hl. destruct (expirationDate s) as [d|]; [destruct (IsZero d)|];
      [rewrite He in Hl|injection He as <- _|rewrite He in Hl]; done. }
  destruct err1; [intros [= <- _ _]; by left|].
  destruct (IsRenewalRequired E s1) as [required|]; [simpl|done].
  destruct (negb required); [intros [= <- _ _]; by left|].
  destruct (NewPk E) as [[newPK hex]|] eqn:Hn; [|intros [= <- _ _]; by left]. intros [= Hr].
  unfold Renew, StringPkToAddress in Hr. rewrite (Hnew _ _ Hn) in Hr. cbn beta iota zeta in Hr.
  destruct (updateOracle E _) eqn:Hu; [simplify_eq/=; by left|right].
  assert (PK s' = newPK) as ->; [|done].
  destruct (NewChainHelper E); [by simplify_eq/=|].
  pose proof (LoadExpiration_PK E (set_chainHelper (Some hex) (set_chainHelper None (set_PK newPK s1)))) as Hl.
  clear He. destruct (LoadExpiration E _) as [s2 [e|]]; simpl in Hl; [injection Hr as <- _ _; exact Hl|].
  destruct (StoreSignerPk E hex db) as [db2 e2]. injection Hr as <- _ _; exact Hl.
Qed.

(** The renewal loop never panics, whatever it meets, and the key a node signs
    with is always the one it started with or one the chain has accepted. *)
Theorem renewed_key_accepted E ticks s db :
  Forall newPk_consistent (E :: ticks) ->
  exists s' db', autoRenew E ticks s db = Some (s', db') /\
    (PK s' = PK s \/ exists E', In E' (E :: ticks) /\ accepted E' (PK s')).
Proof.
  unfold autoRenew. generalize (E :: ticks). intros Es Hall. revert s db.
  induction Hall as [|E' Es HE _ IH]; intros s db; [by exists s, db; split; [|left]|]. simpl.
  assert (Htot : is_Some (CheckAndUpdateSignerPK E' s db)) by apply CheckAndUpdateSignerPK_total.
  destruct Htot as [[[s1 db1] err] Hc]. rewrite Hc. simpl.
  destruct (IH s1 db1) as (s' & db' & Hr & Hk). exists s', db'. split; [done|].
  destruct Hk as [Hk|(E2 & Hin & Ha)]; [|right; exists E2; by split; [right|]].
  destruct (check_key _ _ _ _ _ _ HE Hc) as [Hs|Ha]; [left; congruence|].
  right. exists E'. rewrite Hk. by split; [left|].
Qed.

Context (keystream_length : forall key iv n, length (keystream key iv n) = n)
  (keystream_bytes : forall key iv n, Forall (fun b : Z => 0 <= b < 256) (keystream key iv n)).

(** Sixteen random bytes were read. *)
Definition sixteen (r : res (list Z)) : Prop :=
  exists b, r = Ok b /\ length b = 16%nat /\ Forall (fun x : Z => 0 <= x < 256) b.

(** What is stored is loaded again. *)
Lemma LoadSignerPk_StoreSignerPk E E' pk db db' :
  sixteen (rand_iv E) -> sixteen (rand_salt E) -> dbReadError E' = None ->
  StoreSignerPk E pk db = (db', None) -> LoadSignerPk E' db' = Some (Ok (TrimPrefix pk "0x")).
Proof.
  intros (iv & Hiv & Liv & Biv) (salt & Hsalt & Lsalt & Bsalt) Hread Hst. unfold StoreSignerPk in Hst.
  rewrite Hiv, Hsalt in Hst. destruct (Encrypt _ _ pk) as [enc|] eqn:Henc; [|done].
  destruct (dbError E); [done|]. simplify_eq.
  eapply (Decrypt_Encrypt_lemma scrypt_Key keystream ENCRYPT_PASSWORD keystream_length keystream_bytes) in Henc as Hdec;
    [|done..]. unfold LoadSignerPk. rewrite Hread. simpl. case_bool_decide as He; [|by rewrite Hdec].
  exfalso. subst enc. unfold EncryptText in Henc. destruct (scrypt_Key _ _); [|done].
  assert (forall a b : string, a +:+ b = "" -> a = "") as Happ by (intros [] ?; done).
  assert (EncodeToString iv = "") as Hnil by (eapply Happ; by injection Henc).
  apply (f_equal chars) in Hnil. unfold EncodeToString in Hnil. rewrite chars_text in Hnil.
  apply (f_equal length) in Hnil. rewrite length_hex in Hnil. simpl in Hnil. lia.
Qed.

(** A node that is started with a stored key uses it. *)
Lemma NewSigner_stored E config secret contract db newPK hex :
  pk config = "" -> LoadSignerPk E db = Some (Ok hex) -> hex <> "" -> TrimPrefix hex "0x" = hex ->
  HexToECDSA hex = Ok newPK -> NewChainHelper E = None -> contract <> "" ->
  NewSigner E config secret contract db =
    Some (Ok (mkSigner newPK (Some hex) contract None (cfg_interval config) (cfg_threshold config)), db).
Proof.
  intros Hc Hl Hne Htrim Hhex Hn Hco. unfold NewSigner, getSignerPk. rewrite Hc. simpl.
  rewrite Hl. simpl. rewrite (bool_decide_eq_false_2 (hex = "")) by done. simpl.
  unfold StringToPk. rewrite !Htrim, Hhex, Hn. by rewrite bool_decide_eq_false_2.
Qed.

(** After a renewal that reports success the new key is in use, and a node
    restarted from the database comes back with it; but when the chain has
    accepted the new key and the next call (the new client or the expiration)
    fails, the renewal reports an error, the node signs with the new key, and
    the database still holds the old one, which is what a restart loads. *)
Theorem renew_persistence E newPK newPkHex s db s' db' err :
  sixteen (rand_iv E) -> sixteen (rand_salt E) ->
  newPkHex <> "" -> TrimPrefix newPkHex "0x" = newPkHex -> HexToECDSA newPkHex = Ok newPK ->
  Renew E newPK newPkHex s db = (s', db', err) ->
  (err = None ->
   PK s' = newPK /\ updateOracle E (PubkeyToAddress (Public newPK)) = None /\
   forall E' config secret contract,
     pk config = "" -> contract <> "" -> dbReadError E' = None -> NewChainHelper E' = None ->
     NewSigner E' config secret contract db' =
       Some (Ok (mkSigner newPK (Some newPkHex) contract None (cfg_interval config) (cfg_threshold config)), db')) /\
  (updateOracle E (PubkeyToAddress (Public newPK)) = None ->
   is_Some (NewChainHelper E) \/ (forall ts, readExpiration E (PubkeyToAddress (Public newPK)) <> Ok (Some ts)) ->
   is_Some err /\ PK s' = newPK /\ db' = db).
Proof.
  intros Hiv Hsalt Hne Htrim Hhex Hr. unfold Renew, StringPkToAddress, StringToPk in Hr. rewrite Htrim, Hhex in Hr.
  destruct (updateOracle E _) as [e|]; [simplify_eq; by split|].
  destruct (NewChainHelper E) as [e|].
  { simplify_eq. simpl. split; [done|]. intros _ _. split; [by eexists|done]. }
  unfold LoadExpiration in Hr. simpl in Hr.
  destruct (readExpiration E (PubkeyToAddress (Public newPK))) as [[ts|]|e] eqn:Hread.
  - destruct (StoreSignerPk E newPkHex db) as [db1 err1] eqn:Hst. simplify_eq. simpl. split.
    + intros ->. split_and!; [done|done|]. intros E' config secret contract Hc Hco Hrd Hn.
      apply NewSigner_stored; try done. rewrite <- Htrim. by eapply LoadSignerPk_StoreSignerPk.
    + intros _ [[? ?]|Hno]; [done|]. by destruct (Hno ts).
  - simplify_eq. simpl. split; [done|]. intros _ _. split; [by eexists|done].
  - simplify_eq. simpl. split; [done|]. intros _ _. split; [by eexists|done].
Qed.
End signer.

(** Witness: a renewal after which the new client cannot be made, and one that
    succeeds and is found again after a restart. *)
Definition w_senv (helper : option error) : @SEnv toy_crypto :=
  @mkSEnv toy_crypto 0 (Ok (2, "ab")) (fun _ => None) helper (fun _ => Ok (Some 10)) None None
    (Ok (replicate 16 1)) (Ok (replicate 16 2)).
Definition w_scrypt (p : string) (salt : list Z) : res (list Z) := Ok salt.
Definition w_stream (key iv : list Z) (n : nat) : list Z := replicate n 7.
Definition w_signer : @Signer toy_crypto := @mkSigner toy_crypto 1 None "0xc" None 0 0.

Lemma w_stream_length key iv n : length (w_stream key iv n) = n.
Proof. apply length_replicate. Qed.
Lemma w_stream_bytes key iv n : Forall (fun b : Z => 0 <= b < 256) (w_stream key iv n).
Proof. apply Forall_replicate. lia. Qed.
Lemma w_sixteen b : 0 <= b < 256 -> sixteen (Ok (replicate 16 b)).
Proof. intros Hb. exists (replicate 16 b). split_and!; [done|done|by apply Forall_replicate]. Qed.

Lemma renew_persistence_witness :
  (exists s' err,
    @Renew toy_crypto w_scrypt w_stream "pw" (w_senv (Some DeadlineExceeded)) 2 "ab" w_signer (mkDb "old")
      = (s', mkDb "old", err) /\ is_Some err) /\
  exists s' db',
    @Renew toy_crypto w_scrypt w_stream "pw" (w_senv None) 2 "ab" w_signer (mkDb "old") = (s', db', None) /\
    @NewSigner toy_crypto w_scrypt w_stream "pw" (w_senv None) (mkSignerConfig "" 0 0) "" "0xc" db'
      = Some (Ok (@mkSigner toy_crypto 2 (Some "ab") "0xc" None 0 0), db').
Proof.
  split.
  - destruct (@Renew toy_crypto w_scrypt w_stream "pw" (w_senv (Some DeadlineExceeded)) 2 "ab" w_signer (mkDb "old"))
      as [[s' db'] err] eqn:Hr.
    destruct (@renew_persistence toy_crypto w_scrypt w_stream "pw" w_stream_length w_stream_bytes
      (w_senv (Some DeadlineExceeded)) 2 "ab" w_signer (mkDb "old") s' db' err) as [_ H];
      [by apply w_sixteen..|done|done|done|done|].
    destruct H as (He & _ & ->); [done|left; by eexists|]. by exists s', err.
  - destruct (@Renew toy_crypto w_scrypt w_stream "pw" (w_senv None) 2 "ab" w_signer (mkDb "old"))
      as [[s' db'] err] eqn:Hr.
    assert (err = None) as Herr by (vm_compute in Hr; by simplify_eq).
    destruct (@renew_persistence toy_crypto w_scrypt w_stream "pw" w_stream_length w_stream_bytes
      (w_senv None) 2 "ab" w_signer (mkDb "old") s' db' err) as [H _];
      [by apply w_sixteen..|done|done|done|done|].
    destruct (H Herr) as (_ & _ & Hnew). exists s', db'. rewrite <- Herr. split; [done|]. by apply Hnew.
Defined.

End Signer.
