(* ===== verification/Util.v ===== *)
(** * Small utilities

    [node/pkg/utils/retrier], [utils/condition], [utils/set], [utils/pool] and
    [utils/request]: the retry loop, the waiting loops, a set, a pool of workers
    and the building of HTTP requests. *)

From S2P Require Import Prelude Errors.

Local Open Scope Z_scope.

Definition Millisecond : Z := 1000000.
Definition Second : Z := 1000 * Millisecond.

(** ** [retrier.go] *)
Module Retrier.

(** [n]: what [rand.Int(rand.Reader, 100)] gives, or that it failed. *)
Definition calculateJitter (baseTimeout : int64) (n : option Z) : int64 :=
  match n with
  | None => baseTimeout
  | Some n => let jitter := wrap64 (n * Millisecond) in wrap64 (baseTimeout + jitter)
  end.

Section Retry.
Context {St : Type}.
(** The job acts on what it closes over and may fail. *)
Variable job : St -> St * option error.
(** The random draw of each attempt. *)
Variable rand : nat -> option Z.

(** The loop; the last result is the sequence of sleeps. *)
Fixpoint retry_loop (attempts i : nat) (failureTimeout maxTimeout : int64)
    (err : option error) (s : St) : St * option error * list Z :=
  match attempts with
  | O => (s, err, [])
  | S attempts =>
      let failureTimeout := calculateJitter failureTimeout (rand i) in
      let failureTimeout := if maxTimeout <? failureTimeout then maxTimeout else failureTimeout in
      match job s with
      | (s, Some e) =>
          let '(s, err, sleeps) := retry_loop attempts (S i) failureTimeout maxTimeout (Some e) s in
          (s, err, failureTimeout :: sleeps)
      | (s, None) => (s, None, [])
      end
  end.

Definition Retry (maxAttempts initialTimeout maxTimeout : int64) (s : St)
    : St * option error * list Z :=
  retry_loop (Z.to_nat maxAttempts) 0 initialTimeout maxTimeout None s.

(** The state after [k] runs of the job, all of which failed, with the error of
    the last. *)
Fixpoint failures (k : nat) (err : option error) (s : St) : option (St * option error) :=
  match k with
  | O => Some (s, err)
  | S k => match job s with (s, Some e) => failures k (Some e) s | (_, None) => None end
  end.

Lemma failures_error k err s s' : failures (S k) err s <> Some (s', None).
Proof.
  revert err s. induction k as [|k IH]; intros err s.
  - simpl. by destruct (job s) as [? []].
  - change (failures (S (S k)) err s) with
      (match job s with (s, Some e) => failures (S k) (Some e) s | (_, None) => None end).
    destruct (job s) as [? []]; [apply IH|done].
Qed.

(** What each failing run keeps holds after all of them. *)
Lemma failures_inv (P : nat -> St -> Prop) k err s s' err' :
  (forall n s s' e, P n s -> job s = (s', Some e) -> P (S n) s') ->
  P 0%nat s -> failures k err s = Some (s', err') -> P k s'.
Proof.
  intros Hstep H0. enough (forall n, P n s -> failures k err s = Some (s', err') -> P (n + k)%nat s') as H by exact (H 0%nat H0).
  clear H0. revert err s. induction k as [|k IH]; intros err s n Hn Hf; simpl in Hf; [simplify_eq; by rewrite Nat.add_0_r|].
  destruct (job s) as [s1 [e|]] eqn:Hj; [|done]. rewrite <- Nat.add_succ_comm. eapply IH; eauto.
Qed.

Lemma retry_loop_spec attempts i t maxT err s s' err' sleeps :
  retry_loop attempts i t maxT err s = (s', err', sleeps) ->
  Forall (fun d => d <= maxT) sleeps /\
  ((err' = None /\ (length sleeps < attempts)%nat /\
      exists s0 e0, failures (length sleeps) err s = Some (s0, e0) /\ job s0 = (s', None)) \/
   (length sleeps = attempts /\ failures attempts err s = Some (s', err'))).
Proof.
  revert i t err s s' err' sleeps.
  induction attempts as [|attempts IH]; intros i t err s s' err' sleeps; simpl.
  { intros [= -> -> <-]. split; [constructor|]. by right. }
  destruct (job s) as [s1 [e|]] eqn:Hj.
  - destruct (retry_loop _ _ _ _ _ _) as [[s2 err2] sl] eqn:Hl. intros [= -> -> <-].
    apply IH in Hl as [Hall Hd]. split.
    { constructor; [|done]. case_match; breflect; lia. }
    simpl. rewrite Hj. destruct Hd as [(-> & ? & ?)|(? & ?)]; [left|right]; auto with lia.
  - intros [= -> <- <-]. split; [constructor|]. left. split_and!; [done|simpl; lia|].
    by exists s, err.
Qed.

(** [Retry] runs its job at most [maxAttempts] times and sleeps at most
    [maxTimeout] after each failure.  It returns nil when a run succeeded, which
    ended the loop at once, and otherwise the error of the last run; with a
    non-positive [maxAttempts] it returns nil without running the job. *)
Theorem retry_spec maxAttempts initialTimeout maxTimeout s s' err sleeps :
  Retry maxAttempts initialTimeout maxTimeout s = (s', err, sleeps) ->
  Forall (fun d => d <= maxTimeout) sleeps /\
  Z.of_nat (length sleeps) <= Z.max 0 maxAttempts /\
  (err = None /\ Z.of_nat (length sleeps) < maxAttempts /\
     (exists s0 e0, failures (length sleeps) None s = Some (s0, e0) /\ job s0 = (s', None)) \/
   Z.of_nat (length sleeps) = Z.max 0 maxAttempts /\
     failures (length sleeps) None s = Some (s', err) /\ (err = None <-> maxAttempts <= 0)).
Proof.
  intros [Hall Hd]%retry_loop_spec. split; [done|].
  destruct Hd as [(-> & ? & ?)|(Hlen & Hf)]; [split; [lia|]; left; auto with lia|].
  split; [lia|]. right. split_and!; [lia|by rewrite Hlen|].
  destruct (decide (maxAttempts <= 0)).
  - replace (Z.to_nat maxAttempts) with 0%nat in Hf by lia. naive_solver.
  - split; [|lia]. intros ->. exfalso. revert Hf.
    destruct (Z.to_nat maxAttempts) as [|n'] eqn:?; [lia|]. apply failures_error.
Qed.
End Retry.

(** A job that succeeds at its third run. *)
Definition w_job (n : nat) : nat * option error :=
  (S n, if (n <? 2)%nat then Some (External "again") else None).
Lemma retry_spec_witness : exists s err sleeps,
  Retry w_job (fun _ => Some 5) 3 Millisecond Second 0%nat = (s, err, sleeps) /\ err = None /\ length sleeps = 2%nat /\
  Forall (fun d => d <= Second) sleeps.
Proof.
  destruct (Retry w_job (fun _ => Some 5) 3 Millisecond Second 0%nat) as [[s err] sleeps] eqn:Hr.
  exists s, err, sleeps. pose proof (retry_spec _ _ _ _ _ _ _ _ _ Hr) as [Hall _].
  vm_compute in Hr. injection Hr as <- <- <-. done.
Defined.
End Retrier.

(** ** [condition.go] *)
Module Condition.

(** What an iteration of a waiting loop meets: the value of the condition,
    whether the context is done when [select] looks, and whether a timer made by
    [time.After] in this very [select] has already fired. *)
Record look : Type := mkLook { l_condition : bool; l_done : bool; l_after : bool }.

(** The loops as functions of the iterations met so far: [None] when the loop is
    still running at their end.  With several cases ready [select] may take any;
    [pick] says whether it prefers the context. *)
Fixpoint WaitForCondition (looks : list look) : option unit :=
  match looks with
  | [] => None
  | l :: looks =>
      if l_condition l then Some ()
      else if l_done l then Some () else WaitForCondition looks
  end.

Fixpoint WaitForConditionWithTimeout (ctxErr : error) (pick : bool) (looks : list look)
    : option (option error) :=
  match looks with
  | [] => None
  | l :: looks =>
      if l_condition l then Some None
      else if l_done l && (negb (l_after l) || pick) then Some (Some ctxErr)
      else if l_after l then Some (Some (ErrConditionTimedOut : error))
      else WaitForConditionWithTimeout ctxErr pick looks
  end.

(** Each iteration makes its own timer, and the [default] branch is taken when
    nothing is ready, so a timer counts only if it fires within the [select] that
    made it. *)
Lemma timeout_needs_instant_timer ctxErr pick looks :
  Forall (fun l => l_condition l = false /\ l_done l = false /\ l_after l = false) looks ->
  WaitForConditionWithTimeout ctxErr pick looks = None.
Proof. by induction 1 as [|[[] [] []] ls (?&?&?) ? IH]; simplify_eq/=. Qed.

Lemma wait_returns ctxErr pick looks l :
  l ∈ looks -> l_condition l || l_done l = true ->
  is_Some (WaitForCondition looks) /\ is_Some (WaitForConditionWithTimeout ctxErr pick looks).
Proof.
  induction 1 as [l ls|l l' ls Hin IH]; simpl; intros Hl.
  - destruct l as [[] [] []], pick; simplify_eq/=; eauto.
  - specialize (IH Hl). destruct l' as [[] [] []], pick; simpl; eauto; naive_solver.
Qed.
End Condition.

(** ** [set.go] *)
Module Sets.
Section Set_.
Context {T : Type} `{Countable T}.

Record Set_ : Type := mkSet { data : gmap T () }.
Definition NewSet : Set_ := mkSet ∅.
Definition Add (s : Set_) (element : T) : Set_ := mkSet (<[element := ()]> (data s)).
Definition Remove (s : Set_) (element : T) : Set_ := mkSet (delete element (data s)).
Definition Contains (s : Set_) (element : T) : bool :=
  match data s !! element with Some _ => true | None => false end.
Definition Size (s : Set_) : nat := size (data s).

(** The set the structure stands for, and what each operation does to it. *)
Definition elements_of (s : Set_) : gset T := dom (data s).

Lemma set_refines s e :
  elements_of NewSet = ∅ /\
  elements_of (Add s e) = {[e]} ∪ elements_of s /\
  elements_of (Remove s e) = elements_of s ∖ {[e]} /\
  (Contains s e = true <-> e ∈ elements_of s) /\
  Size s = size (elements_of s).
Proof.
  unfold elements_of, Add, Remove, Contains, Size; simpl. split_and!.
  - apply dom_empty_L.
  - apply dom_insert_L.
  - apply dom_delete_L.
  - rewrite elem_of_dom. destruct (data s !! e) as [[]|]; split; intros Hx;
      [eauto|done|done|by destruct Hx].
  - symmetry. apply size_dom.
Qed.
End Set_.
End Sets.

(** ** [pool.go] *)
Module Pool.
Section Pool.
Context {Job : Type}.

(** A goroutine of [worker], with the number of the [Run] that started it: that
    call's context. *)
Inductive worker_state : Type := Idle | Busy (j : Job).

(** [sending]: the calls of [AddJob] that wait at the unbuffered channel, in
    order; [cancelled]: the contexts that are done; [finished]: the jobs that have
    returned.  [p_runs] counts the calls of [Run]; [p.Cancel] is the last one's. *)
Record Pool : Type := mkPool {
  workerCount : nat; IsRunning : bool; p_runs : nat; cancelled : gset nat;
  sending : list Job; workers : list (nat * worker_state); finished : list Job
}.

Definition NewPool (workerCount : nat) : Pool := mkPool workerCount false 0 ∅ [] [] [].

Definition Run (p : Pool) : Pool :=
  mkPool (workerCount p) true (S (p_runs p)) (cancelled p) (sending p)
    (workers p ++ replicate (workerCount p) (p_runs p, Idle)) (finished p).

Definition AddJob (p : Pool) (j : Job) : Pool :=
  if IsRunning p then
    mkPool (workerCount p) (IsRunning p) (p_runs p) (cancelled p) (sending p ++ [j]) (workers p) (finished p)
  else p.

(** [p.Cancel()]: nil before [Run]. *)
Definition Cancel (p : Pool) : option Pool :=
  match p_runs p with
  | O => None
  | S r => Some (mkPool (workerCount p) (IsRunning p) (p_runs p) ({[r]} ∪ cancelled p)
                   (sending p) (workers p) (finished p))
  end.

Definition set_workers (p : Pool) (sd : list Job) (w : list (nat * worker_state)) (f : list Job) : Pool :=
  mkPool (workerCount p) (IsRunning p) (p_runs p) (cancelled p) sd w f.

(** What the goroutines do: take a job, return from it, or leave. *)
Inductive worker_step : Pool -> Pool -> Prop :=
| step_take p j sd w1 r w2 :
    sending p = j :: sd -> workers p = w1 ++ (r, Idle) :: w2 ->
    worker_step p (set_workers p sd (w1 ++ (r, Busy j) :: w2) (finished p))
| step_return p j w1 r w2 :
    workers p = w1 ++ (r, Busy j) :: w2 ->
    worker_step p (set_workers p (sending p) (w1 ++ (r, Idle) :: w2) (finished p ++ [j]))
| step_done p w1 r w2 :
    r ∈ cancelled p -> workers p = w1 ++ (r, Idle) :: w2 ->
    worker_step p (set_workers p (sending p) (w1 ++ w2) (finished p)).

(** Any use of the pool; the list is the jobs handed to [AddJob] while it ran. *)
Inductive pool_run (p0 : Pool) : list Job -> Pool -> Prop :=
| run_start : pool_run p0 [] p0
| run_run js p : pool_run p0 js p -> pool_run p0 js (Run p)
| run_add js p j : pool_run p0 js p ->
    pool_run p0 (if IsRunning p then js ++ [j] else js) (AddJob p j)
| run_cancel js p p' : pool_run p0 js p -> Cancel p = Some p' -> pool_run p0 js p'
| run_worker js p p' : pool_run p0 js p -> worker_step p p' -> pool_run p0 js p'.

Definition busy_of (w : nat * worker_state) : list Job :=
  match w.2 with Idle => [] | Busy j => [j] end.
Definition running_jobs (p : Pool) : list Job := workers p ≫= busy_of.

(** Every job that was accepted waits, runs or has returned, exactly once. *)
Lemma pool_jobs_once n js p :
  pool_run (NewPool n) js p -> Permutation js (finished p ++ running_jobs p ++ sending p).
Proof.
  unfold running_jobs.
  induction 1 as [|js p Hr IH|js p j Hr IH|js p p' Hr IH Hc|js p p' Hr IH Hs].
  - done.
  - simpl. rewrite bind_app.
    replace (replicate (workerCount p) (p_runs p, Idle) ≫= busy_of) with (@nil Job); [by rewrite app_nil_r|].
    by induction (workerCount p).
  - unfold AddJob. destruct (IsRunning p); [|done]. simpl. rewrite IH. solve_Permutation.
  - unfold Cancel in Hc. destruct (p_runs p); [done|]. by simplify_eq/=.
  - inversion Hs as [? j sd w1 r w2 Hq Hw|? j w1 r w2 Hw|? w1 r w2 Hc Hw]; subst; simpl;
      rewrite IH, ?Hq, Hw, !bind_app; simpl; solve_Permutation.
Qed.

(** The jobs that run at the same time are no more than the workers started. *)
Lemma pool_concurrency n js p :
  pool_run (NewPool n) js p -> (length (running_jobs p) <= n * p_runs p)%nat.
Proof.
  intros Hr. assert (workerCount p = n /\ length (workers p) <= n * p_runs p)%nat as [_ Hl].
  { induction Hr as [|js p Hr [IHn IH]|js p j Hr [IHn IH]|js p p' Hr [IHn IH] Hc|js p p' Hr [IHn IH] Hs].
    - simpl. lia.
    - simpl. rewrite length_app, length_replicate, IHn. lia.
    - unfold AddJob. by destruct (IsRunning p).
    - unfold Cancel in Hc. destruct (p_runs p) eqn:?; [done|]. simplify_eq/=. lia.
    - inversion Hs as [? j sd w1 r w2 Hq Hw|? j w1 r w2 Hw|? w1 r w2 Hc Hw]; subst; simpl;
        rewrite Hw, !length_app in IH; simpl in IH; rewrite !length_app; simpl; lia. }
  etrans; [|exact Hl]. unfold running_jobs. clear Hl Hr.
  induction (workers p) as [|[r st] w IH]; [done|].
  rewrite bind_cons, length_app. destruct st; simpl in *; lia.
Qed.

(** After [Cancel] the pool still counts as running; once the workers have left,
    a call of [AddJob] never returns. *)
Lemma add_after_cancel_blocks p j p' :
  workers p = [] -> IsRunning p = true -> rtc worker_step (AddJob p j) p' ->
  p' = AddJob p j /\ j ∈ sending p'.
Proof.
  intros Hw Hr Hs. unfold AddJob in *. rewrite Hr in *.
  inversion Hs as [|? p1 ? H1]; subst.
  - split; [done|]. simpl. set_solver.
  - exfalso. inversion H1 as [? ? ? w1 ? ? ? Hw'|? ? w1 ? ? Hw'|? w1 ? ? ? Hw']; subst; simpl in Hw';
      rewrite Hw in Hw'; by destruct w1.
Qed.
End Pool.
End Pool.

(** ** [request.go] *)
Module Request.
Local Open Scope go_scope.

(** A parsed URL: [url.Parse] and [String] are those of [net/url]. *)
Record URL : Type := mkURL { Scheme : string; rest : string }.

(** [Body]: what [json.Marshal] makes of the body, or nil. *)
Record RequestConfig : Type := mkRequestConfig {
  Timeout : int64; Endpoint : string; Body : option (res (list Z));
  Headers : list (string * string); Proxy : string; Method : string
}.

Definition DefaultTimeout : int64 := 2 * Second.

Definition WithTimeout (timeout : int64) (c : RequestConfig) : RequestConfig :=
  mkRequestConfig timeout (Endpoint c) (Body c) (Headers c) (Proxy c) (Method c).
Definition WithEndpoint (endpoint : string) (c : RequestConfig) : RequestConfig :=
  mkRequestConfig (Timeout c) endpoint (Body c) (Headers c) (Proxy c) (Method c).
Definition WithBody (body : option (res (list Z))) (c : RequestConfig) : RequestConfig :=
  mkRequestConfig (Timeout c) (Endpoint c) body (Headers c) (Proxy c) (Method c).
Definition WithHeaders (headers : list (string * string)) (c : RequestConfig) : RequestConfig :=
  mkRequestConfig (Timeout c) (Endpoint c) (Body c) headers (Proxy c) (Method c).
Definition WithProxy (proxy : string) (c : RequestConfig) : RequestConfig :=
  mkRequestConfig (Timeout c) (Endpoint c) (Body c) (Headers c) proxy (Method c).
Definition WithMethod (method : string) (c : RequestConfig) : RequestConfig :=
  mkRequestConfig (Timeout c) (Endpoint c) (Body c) (Headers c) (Proxy c) method.

(** The request a client sends. *)
Record HttpRequest : Type := mkHttpRequest {
  r_Method : string; r_URL : URL; r_Body : option (list Z); r_Header : list (string * string);
  r_Timeout : int64; r_Proxy : option URL
}.
Record Response : Type := mkResponse { StatusCode : Z; r_Bytes : res (list Z) }.

Definition validMethods : list string := ["GET"; "POST"; "PUT"; "PATCH"; "DELETE"]%string.

Section Request.
Variable url_Parse : string -> res URL.
(** [http.NewRequest] parses the printed URL again. *)
Variable url_String : URL -> string.
Variable client_Do : HttpRequest -> res Response.

Definition config0 : RequestConfig :=
  mkRequestConfig DefaultTimeout "" None [] "" "GET".
Definition configure (opts : list (RequestConfig -> RequestConfig)) : RequestConfig :=
  fold_left (fun c opt => opt c) opts config0.

(** [req.Header.Set]: the keys are canonicalised by [net/textproto]; the model
    keeps the calls in order. *)
Definition headers_of (c : RequestConfig) : list (string * string) :=
  ("Content-Type", "application/json")%string :: Headers c.

Definition setProxy (proxyURL : string) : res URL := url_Parse proxyURL.

(** What [requestRaw] sends, or the error it returns before sending. *)
Definition build (config : RequestConfig) : res HttpRequest :=
  let? body := match Body config with
               | None => Ok None
               | Some m => let? b := m in Ok (Some b)
               end in
  let? url := url_Parse (Endpoint config) in
  if negb (bool_decide (Method config ∈ validMethods)) then Err ErrRequestInvalidMethod
  else
    let? url' := url_Parse (url_String url) in
    if negb (bool_decide (Proxy config = ""%string)) then
      let? p := setProxy (Proxy config) in
      let target := if bool_decide (Scheme url = "https"%string) then mkURL "http" (rest url) else url' in
      Ok (mkHttpRequest (Method config) target body (headers_of config) (Timeout config) (Some p))
    else Ok (mkHttpRequest (Method config) url' body (headers_of config) (Timeout config) None).

Definition requestRaw (config : RequestConfig) : res Response :=
  let? req := build config in client_Do req.

Definition RequestRaw (opts : list (RequestConfig -> RequestConfig)) : res Response :=
  requestRaw (configure opts).

Definition Request {T} (Unmarshal : list Z -> res T) (opts : list (RequestConfig -> RequestConfig)) : res T :=
  let? response := requestRaw (configure opts) in
  if negb (StatusCode response =? 200) then Err ErrRequestStatusNotOk
  else let? resultBody := r_Bytes response in Unmarshal resultBody.

(** A request is sent only with a valid method, and with a proxy never as https. *)
Lemma build_ok config req :
  (forall u, url_Parse (url_String u) = Ok u) -> build config = Ok req ->
  r_Method req ∈ validMethods /\ r_Timeout req = Timeout config /\
  (Proxy config <> ""%string -> Scheme (r_URL req) <> "https"%string).
Proof.
  intros Hp. unfold build. intros (body & _ & (url & _ & H)%res_bind_Ok)%res_bind_Ok.
  rewrite Hp in H. destruct (bool_decide (Method config ∈ validMethods)) eqn:Hm; simpl in H; [|done].
  breflect. destruct (bool_decide (Proxy config = _)) eqn:Hx; simpl in H; breflect.
  { simplify_eq/=. naive_solver. }
  apply res_bind_Ok in H as (p & _ & H). simplify_eq/=. split_and!; [done..|]. intros _.
  case_bool_decide; [done|done].
Qed.

(** A result is the decoding of a 200 answer. *)
Lemma request_result {T} (Unmarshal : list Z -> res T) opts t :
  Request Unmarshal opts = Ok t ->
  exists req resp bs, build (configure opts) = Ok req /\ client_Do req = Ok resp /\
    StatusCode resp = 200 /\ r_Bytes resp = Ok bs /\ Unmarshal bs = Ok t.
Proof.
  unfold Request, requestRaw. intros (resp & (req & Hb & Hd)%res_bind_Ok & Ht)%res_bind_Ok.
  destruct (StatusCode resp =? 200) eqn:Hc; simpl in Ht; [|done].
  apply res_bind_Ok in Ht as (bs & ? & ?). breflect. eauto 10.
Qed.
End Request.
End Request.
