(* ===== verification/Strings.v ===== *)
(** * More of Go's [strings], and the regular expressions the code uses

    Separators and replaced texts are single characters in the code modelled.
    [ToUpper], [TrimSpace] and the class [\s] are those of ASCII text.  A regular
    expression is a sequence of literal characters and starred classes, matched
    leftmost and greedily as [regexp] does, with the starred classes in
    parentheses captured. *)

From S2P Require Import Prelude Text.
From Stdlib Require Import Ascii.
Import Text.

Module Strings.

Definition upper (c : ascii) : ascii :=
  let n := N_of_ascii c in
  if ((97 <=? n) && (n <=? 122))%N then ascii_of_N (n - 32) else c.
Definition ToUpper (s : string) : string := text (upper <$> chars s).

(** [strings.Split(s, sep)]: always at least one part. *)
Fixpoint split_loop (sep : ascii) (part : list ascii) (l : list ascii) : list (list ascii) :=
  match l with
  | [] => [part]
  | c :: l => if Ascii.eqb c sep then part :: split_loop sep [] l else split_loop sep (part ++ [c]) l
  end.
Definition Split (s : string) (sep : ascii) : list string := text <$> split_loop sep [] (chars s).

(** [strings.ReplaceAll(s, old, new)] and [strings.Replace(s, old, new, 1)]. *)
Definition ReplaceAll (s : string) (old : ascii) (new : string) : string :=
  text (chars s ≫= (fun c => if Ascii.eqb c old then chars new else [c])).
Fixpoint replace_first (l : list ascii) (old : ascii) (new : list ascii) : list ascii :=
  match l with
  | [] => []
  | c :: l => if Ascii.eqb c old then new ++ l else c :: replace_first l old new
  end.
Definition Replace1 (s : string) (old : ascii) (new : string) : string :=
  text (replace_first (chars s) old (chars new)).

Fixpoint is_prefix (p l : list ascii) : bool :=
  match p, l with
  | [], _ => true
  | a :: p, b :: l => Ascii.eqb a b && is_prefix p l
  | _, _ => false
  end.
Fixpoint contains (w l : list ascii) : bool :=
  is_prefix w l || match l with [] => false | _ :: l => contains w l end.
Definition Contains (s sub : string) : bool := contains (chars sub) (chars s).
Definition HasSuffix (s suf : string) : bool := is_prefix (rev (chars suf)) (rev (chars s)).

Definition is_space (c : ascii) : bool :=
  let n := N_of_ascii c in ((9 <=? n) && (n <=? 13) || (n =? 32))%N.
Fixpoint drop_space (l : list ascii) : list ascii :=
  match l with [] => [] | c :: l' => if is_space c then drop_space l' else l end.
Definition trim_space (l : list ascii) : list ascii := rev (drop_space (rev (drop_space l))).
Definition TrimSpace (s : string) : string := text (trim_space (chars s)).

(** ** Regular expressions *)
Inductive item : Type :=
| Lit (c : ascii)
| Star (p : ascii -> bool)
| Capture (p : ascii -> bool).

(** The ways to take characters of a class from the front, longest first. *)
Fixpoint splits (p : ascii -> bool) (l : list ascii) : list (list ascii * list ascii) :=
  match l with
  | [] => [([], [])]
  | c :: l' => (if p c then (fun ar => (c :: ar.1, ar.2)) <$> splits p l' else []) ++ [([], l)]
  end.

Fixpoint first_some {A B} (f : A -> option B) (l : list A) : option B :=
  match l with
  | [] => None
  | a :: l => match f a with Some b => Some b | None => first_some f l end
  end.

(** A match at the front of the text: its captures. *)
Fixpoint match_items (r : list item) (l : list ascii) : option (list (list ascii)) :=
  match r with
  | [] => Some []
  | Lit c :: r =>
      match l with
      | [] => None
      | c' :: l => if Ascii.eqb c c' then match_items r l else None
      end
  | Star p :: r => first_some (fun ar => match_items r ar.2) (splits p l)
  | Capture p :: r =>
      first_some (fun ar => match match_items r ar.2 with
                            | Some caps => Some (ar.1 :: caps)
                            | None => None
                            end) (splits p l)
  end.

(** The leftmost match. *)
Fixpoint find (r : list item) (l : list ascii) : option (list (list ascii)) :=
  match match_items r l with
  | Some caps => Some caps
  | None => match l with [] => None | _ :: l => find r l end
  end.

Definition word_char (c : ascii) : bool :=
  let n := N_of_ascii c in
  ((48 <=? n) && (n <=? 57) || (65 <=? n) && (n <=? 90) || (97 <=? n) && (n <=? 122) || (n =? 95))%N.
(** [\s] *)
Definition re_space (c : ascii) : bool :=
  let n := N_of_ascii c in ((n =? 9) || (n =? 10) || (n =? 12) || (n =? 13) || (n =? 32))%N.
(** [.] *)
Definition re_any (c : ascii) : bool := negb (N_of_ascii c =? 10)%N.

(** ** Lemmas *)
Lemma split_loop_sep sep part l :
  split_loop sep part l <> [] /\ (forall x, x ∈ split_loop sep part l -> sep ∉ part -> sep ∉ x).
Proof.
  revert part. induction l as [|c l IH]; intros part; simpl.
  - split; [done|]. set_solver.
  - destruct (Ascii.eqb_spec c sep) as [->|Hc].
    + split; [done|]. intros x [->|Hx]%elem_of_cons Hp; [done|]. apply (IH []); [done|set_solver].
    + destruct (IH (part ++ [c])) as [Hn Hs]. split; [done|]. intros x Hx Hp.
      apply Hs; [done|]. set_solver.
Qed.

Lemma split_loop_app sep a : forall part b,
  sep ∉ a -> split_loop sep part (a ++ sep :: b) = (part ++ a) :: split_loop sep [] b.
Proof.
  induction a as [|c a IH]; intros part b Ha; simpl.
  - by rewrite Ascii.eqb_refl, app_nil_r.
  - destruct (Ascii.eqb_spec c sep) as [->|Hc]; [set_solver|].
    rewrite IH, <- app_assoc by set_solver. done.
Qed.
Lemma split_loop_none sep a part : sep ∉ a -> split_loop sep part a = [part ++ a].
Proof.
  revert part. induction a as [|c a IH]; intros part Ha; simpl; [by rewrite app_nil_r|].
  destruct (Ascii.eqb_spec c sep) as [->|Hc]; [set_solver|].
  rewrite IH, <- app_assoc by set_solver. done.
Qed.

(** Two parts joined by a separator they do not contain come apart again. *)
Lemma Split_join2 a b sep :
  sep ∉ chars a -> sep ∉ chars b -> Split (a +:+ String sep b) sep = [a; b].
Proof.
  intros Ha Hb. unfold Split. rewrite chars_app. change (chars (String sep b)) with (sep :: chars b).
  rewrite split_loop_app, split_loop_none by done. simpl. by rewrite !text_chars.
Qed.

Lemma is_prefix_spec p l : is_prefix p l = true <-> exists k, l = p ++ k.
Proof.
  revert l. induction p as [|a p IH]; intros l; simpl; [naive_solver|].
  destruct l as [|b l]; [naive_solver|].
  rewrite andb_true_iff, Ascii.eqb_eq, IH. naive_solver.
Qed.
Lemma contains_spec w l : contains w l = true <-> exists a b, l = a ++ w ++ b.
Proof.
  induction l as [|c l IH]; simpl.
  - rewrite orb_false_r, is_prefix_spec. split; [intros [k ?]; by exists [], k|].
    intros (a & b & Heq). destruct a; [|done]. by exists b.
  - rewrite orb_true_iff, is_prefix_spec, IH. split.
    + intros [[k ->]|(a & b & ->)]; [by exists [], k|by exists (c :: a), b].
    + intros ([|c' a] & b & Heq); simplify_eq/=; eauto.
Qed.
Lemma contains_app_r w a l : contains w l = true -> contains w (a ++ l) = true.
Proof. rewrite !contains_spec. intros (x & y & ->). exists (a ++ x), y. by rewrite <- app_assoc. Qed.

Lemma contains_snoc w l c :
  contains w (l ++ [c]) = true -> last w <> Some c -> w <> [] -> contains w l = true.
Proof.
  rewrite !contains_spec. intros (a & b & Heq) Hc Hw. destruct (exists_last Hw) as (w' & z & ->).
  rewrite last_snoc in Hc. destruct (decide (b = [])) as [->|Hb].
  - rewrite app_nil_r, app_assoc in Heq. apply app_inj_tail in Heq as [_ ->]. done.
  - destruct (exists_last Hb) as (b' & z' & ->). exists a, b'.
    rewrite !app_assoc in Heq. apply app_inj_tail in Heq as [-> _]. by rewrite <- !app_assoc.
Qed.

Lemma splits_spec p l a b : (a, b) ∈ splits p l <-> l = a ++ b /\ Forall (fun c => p c = true) a.
Proof.
  revert a b. induction l as [|c l IH]; intros a b; simpl.
  - rewrite list_elem_of_singleton. split; [by intros [= -> ->]|].
    intros [Heq _]. destruct a; by simplify_eq/=.
  - rewrite elem_of_app, list_elem_of_singleton. split.
    + intros [H|[= -> ->]]; [|done]. destruct (p c) eqn:Hp; [|set_solver].
      apply list_elem_of_fmap in H as ([a' b'] & [= -> ->] & [-> ?]%IH). auto.
    + intros [Heq Hall]. destruct a as [|c' a]; simplify_eq/=; [by right|].
      inversion Hall; subst. left. rewrite H1. apply list_elem_of_fmap. exists (a, b).
      split; [done|]. by apply IH.
Qed.

Lemma first_some_elem {A B} (f : A -> option B) l b :
  first_some f l = Some b -> exists a, a ∈ l /\ f a = Some b.
Proof. induction l as [|a l IH]; simpl; [done|]. destruct (f a) eqn:?; naive_solver set_solver. Qed.

(** The greedy choice: the split taken is the longest one that lets the rest
    match. *)
Lemma first_some_splits {B} (f : list ascii * list ascii -> option B) p a b r :
  Forall (fun c => p c = true) a -> f (a, b) = Some r ->
  (forall x y, b = x ++ y -> x <> [] -> Forall (fun c => p c = true) x -> f (a ++ x, y) = None) ->
  first_some f (splits p (a ++ b)) = Some r.
Proof.
  revert f. induction a as [|c a IH]; intros f Hall Hf Hno; simpl in *.
  - assert (exists pre, splits p b = pre ++ [([], b)] /\ Forall (fun s => f s = None) pre) as (pre & -> & Hpre).
    { destruct b as [|c b]; simpl; [by exists []|]. eexists. split; [done|].
      destruct (p c) eqn:Hp; [|constructor]. apply Forall_fmap, Forall_forall. intros [x y] [-> ?]%splits_spec.
      simpl. apply (Hno (c :: x) y); [done..|by constructor]. }
    induction Hpre as [|s' pre Hn Hpre IHp]; simpl; [by rewrite Hf|by rewrite Hn].
  - inversion Hall as [|? ? Hc Hall']; subst. rewrite Hc.
    specialize (IH (fun ar => f (c :: ar.1, ar.2)) Hall' Hf Hno).
    rewrite <- IH.
    assert (forall (ls : list (list ascii * list ascii)) tl,
      is_Some (first_some (fun ar => f (c :: ar.1, ar.2)) ls) ->
      first_some f (((fun ar => (c :: ar.1, ar.2)) <$> ls) ++ tl) =
      first_some (fun ar => f (c :: ar.1, ar.2)) ls) as Hl; [|apply Hl; by rewrite IH].
    clear. intros ls tl. induction ls as [|s ls IHl]; simpl; [by intros [? ?]|].
    by destruct (f _).
Qed.

(** A match contains the literals of the expression in a row. *)
Lemma match_items_contains r1 w r2 l caps :
  match_items (r1 ++ (Lit <$> w) ++ r2) l = Some caps -> contains w l = true.
Proof.
  revert l caps. induction r1 as [|i r1 IH]; intros l caps; simpl.
  - intros H. apply contains_spec. exists []. simpl. revert l H.
    induction w as [|c w IHw]; intros l H; simpl in *; [by exists l|].
    destruct l as [|c' l]; [done|]. destruct (Ascii.eqb_spec c c') as [->|]; [|done].
    destruct (IHw _ H) as [b ->]. by exists b.
  - destruct i as [c|p|p]; simpl.
    + destruct l as [|c' l]; [done|]. destruct (Ascii.eqb c c'); [|done].
      intros ?%IH. by apply (contains_app_r w [c']).
    + intros ([a b] & [-> _]%splits_spec & H)%first_some_elem. by eapply contains_app_r, IH.
    + intros ([a b] & [-> _]%splits_spec & H)%first_some_elem. simpl in H.
      destruct (match_items _ b) eqn:Hm; [|done]. by eapply contains_app_r, IH.
Qed.

(** The two ways a star ends: at a character outside its class, or at the
    longest point from which the rest matches. *)
Lemma match_star_stop p r a c b :
  Forall (fun c => p c = true) a -> p c = false -> is_Some (match_items r (c :: b)) ->
  match_items (Star p :: r) (a ++ c :: b) = match_items r (c :: b).
Proof.
  intros Ha Hc [caps Hm]. rewrite Hm. simpl. apply first_some_splits; [done..|].
  intros [|c' x] y Heq Hx Hall; [done|]. simplify_eq/=. inversion Hall. congruence.
Qed.
Lemma match_capture_stop p r a c b caps :
  Forall (fun c => p c = true) a -> p c = false -> match_items r (c :: b) = Some caps ->
  match_items (Capture p :: r) (a ++ c :: b) = Some (a :: caps).
Proof.
  intros Ha Hc Hm. simpl. apply first_some_splits; [done|simpl; by rewrite Hm|].
  intros [|c' x] y Heq Hx Hall; [done|]. simplify_eq/=. inversion Hall. congruence.
Qed.
Lemma match_capture p r a b caps :
  Forall (fun c => p c = true) a -> match_items r b = Some caps ->
  (forall x y, b = x ++ y -> x <> [] -> match_items r y = None) ->
  match_items (Capture p :: r) (a ++ b) = Some (a :: caps).
Proof.
  intros Ha Hm Hno. simpl. apply first_some_splits; [done|simpl; by rewrite Hm|].
  intros x y Heq Hx _. simpl. by rewrite (Hno x y).
Qed.
Lemma match_lit c r l : match_items (Lit c :: r) (c :: l) = match_items r l.
Proof. simpl. by rewrite Ascii.eqb_refl. Qed.
Lemma match_lits w r l : match_items ((Lit <$> w) ++ r) (w ++ l) = match_items r l.
Proof. induction w as [|c w IH]; [done|]. change (match_items (Lit c :: ((Lit <$> w) ++ r)) (c :: (w ++ l)) = match_items r l). by rewrite match_lit. Qed.
Lemma find_match r l caps : match_items r l = Some caps -> find r l = Some caps.
Proof. intros H. destruct l; cbn [find]; by rewrite H. Qed.

Lemma HasPrefix_is_prefix s p : HasPrefix s p = is_prefix (chars p) (chars s).
Proof.
  unfold HasPrefix. revert s. induction p as [|c p IH]; intros s; simpl; [by destruct s|].
  destruct s as [|c' s]; [done|]. simpl. destruct (ascii_dec c c') as [->|Hc].
  - by rewrite Ascii.eqb_refl, IH.
  - by rewrite (proj2 (Ascii.eqb_neq c c') Hc).
Qed.

Lemma ReplaceAll_none s old new : old ∉ chars s -> ReplaceAll s old new = s.
Proof.
  intros Hs. unfold ReplaceAll. rewrite <- (text_chars s) at 2. f_equal.
  induction (chars s) as [|c l IH]; [done|]. rewrite bind_cons, IH by set_solver.
  destruct (Ascii.eqb_spec c old) as [->|]; [set_solver|done].
Qed.

Lemma trim_space_id l c1 c2 l1 l2 :
  l = c1 :: l1 -> l = l2 ++ [c2] -> is_space c1 = false -> is_space c2 = false -> trim_space l = l.
Proof.
  intros H1 H2 Hc1 Hc2. unfold trim_space. rewrite H1 at 1. simpl. rewrite Hc1, <- H1, H2 at 1.
  rewrite rev_unit. simpl. rewrite Hc2, H2. simpl. by rewrite rev_involutive.
Qed.

End Strings.
