(* ===== verification/Abi.v ===== *)
(** * Function signatures and ABIs

    The part of [node/pkg/chain/utils/utils.go] that reads a function signature
    written as text and turns it into the JSON description of an ABI, and the
    cache of parsed ABIs of [chain/utils/abicached.go].  The ABI package itself
    is third-party code: the class [AbiPackage] lists its functions. *)

From S2P Require Import Prelude Errors Text Strings.
From Stdlib Require Import Ascii.
Import Text Strings.

Class AbiPackage := {
  ABI : Type;
  Arg : Type;
  Output : Type;
  abi_JSON : string -> res ABI;
  Pack : ABI -> string -> list Arg -> res (list Z);
  Unpack : ABI -> string -> list Z -> res Output
}.

Module Abi.

(** ** Signatures *)

(** A word, spaces, anything in parentheses and anything; and the same followed
    by spaces, [returns], spaces and anything in parentheses. *)
Definition funcRegexpWithoutReturn : list item :=
  [Capture word_char; Star re_space; Lit "("; Capture re_any; Lit ")"; Capture re_any]%char.
Definition funcRegexpWithReturn : list item :=
  ([Capture word_char; Star re_space; Lit "("; Capture re_any; Lit ")"; Capture re_any; Star re_space]
     ++ (Lit <$> chars "returns") ++ [Star re_space; Lit "("; Capture re_any; Lit ")"])%char.

Definition newline : ascii := "010"%char.
Definition tab : ascii := "009"%char.

Definition ParseMethodSignature (name : string) : res (string * string * string) :=
  if bool_decide (name = ""%string) then Err ErrChainEmptyNameParam else
  let name := ReplaceAll name newline " " in
  let name := ReplaceAll name tab " " in
  let name := TrimPrefix name "function " in
  let name := TrimSpace name in
  if Contains name "returns" then
    match find funcRegexpWithReturn (chars name) with
    | Some [m1; m2; m3; m4] => Ok (TrimSpace (text m1), TrimSpace (text m2), TrimSpace (text m4))
    | _ => Err ErrChainFailedToFindMethodSignatureMatch
    end
  else
    match find funcRegexpWithoutReturn (chars name) with
    | Some [m1; m2; m3] => Ok (TrimSpace (text m1), TrimSpace (text m2), ""%string)
    | _ => Err ErrChainFailedToFindMethodSignatureMatch
    end.

(** ** The JSON description *)
Definition quote : string := String "034"%char "".
Definition quoted (s : string) : string := (quote +:+ s +:+ quote)%string.
Definition nl : string := String newline "".

(** The attribute of one argument; [part] is never empty. *)
Definition arg_attribute (arg : string) : string :=
  let part := Split (TrimSpace arg) " "%char in
  let first := default ""%string (head part) in
  let last_ := default ""%string (last part) in
  if (length part <? 2)%nat then ("{" +:+ quoted "type" +:+ ":" +:+ quoted first +:+ "}")%string
  else if bool_decide (part !! 1%nat = Some "indexed"%string) && (2 <? length part)%nat then
    ("{" +:+ quoted "type" +:+ ":" +:+ quoted first +:+ "," +:+ quoted "name" +:+ ":" +:+ quoted last_
       +:+ "," +:+ quoted "indexed" +:+ ":true}")%string
  else
    ("{" +:+ quoted "type" +:+ ":" +:+ quoted first +:+ "," +:+ quoted "name" +:+ ":" +:+ quoted last_ +:+ "}")%string.

Definition MakeAbiFuncAttribute (args : string) : string :=
  let splittedArgs := Split args ","%char in
  if bool_decide (head splittedArgs = Some ""%string) then ""%string
  else Join ("," +:+ nl)%string (arg_attribute <$> splittedArgs).

(** A line of the JSON text, indented by [n] tabs. *)
Definition line (n : nat) (s : string) : string := (text (replicate n tab) +:+ s +:+ nl)%string.
Definition field (n : nat) (key val : string) : string := line n (quoted key +:+ ": " +:+ val +:+ ",")%string.

Definition functionJson (functionName inputArgs outputArgs stateMutability : string) (payable : bool) : string :=
  ("[" +:+ nl +:+ line 2 "{" +:+ field 3 "constant" "false" +:+ field 3 "inputs" ("[" +:+ inputArgs +:+ "]")
     +:+ field 3 "name" (quoted functionName) +:+ field 3 "outputs" ("[" +:+ outputArgs +:+ "]")
     +:+ field 3 "payable" (if payable then "true" else "false")
     +:+ field 3 "stateMutability" (quoted stateMutability)
     +:+ line 3 (quoted "type" +:+ ": " +:+ quoted "function") +:+ line 2 "}" +:+ line 1 "]"
     +:+ text [tab])%string.

Definition eventJson (eventName inputArgs : string) : string :=
  ("[" +:+ nl +:+ line 2 "{" +:+ field 3 "anonymous" "false" +:+ field 3 "inputs" ("[" +:+ inputArgs +:+ "]")
     +:+ field 3 "name" (quoted eventName) +:+ line 3 (quoted "type" +:+ ": " +:+ quoted "event")
     +:+ line 2 "}" +:+ text [tab] +:+ "]")%string.

Section package.
Context `{AbiPackage}.

Definition generateABI (functionName inputs outputs stateMutability : string) (payable : bool) : res ABI :=
  if bool_decide (functionName = ""%string) then Err ErrChainEmptyFuncStringParam else
  let inputArgs := MakeAbiFuncAttribute inputs in
  let outputArgs := MakeAbiFuncAttribute outputs in
  abi_JSON (functionJson functionName inputArgs outputArgs stateMutability payable).

Definition GenerateCallABI (functionName inputs outputs : string) : res ABI :=
  generateABI functionName inputs outputs "nonpayable" false.
Definition GenerateViewABI (functionName inputs outputs : string) : res ABI :=
  generateABI functionName inputs outputs "view" false.

Definition GenerateEventABI (eventName inputs : string) : res ABI :=
  if bool_decide (eventName = ""%string) then Err ErrChainEmptyEventNameStringParam else
  abi_JSON (eventJson eventName (MakeAbiFuncAttribute inputs)).

(** ** The cache: one for the whole process *)
Record AbiWithFunctionName : Type := mkAbiWithFunctionName { Abi_ : ABI; FunctionName : string }.
Record AbiCache : Type := mkAbiCache { AbiMap : gmap string AbiWithFunctionName }.
Definition newAbiCache : AbiCache := mkAbiCache ∅.

Definition getAbi (c : AbiCache) (functionSignature : string) : res AbiWithFunctionName :=
  match AbiMap c !! functionSignature with
  | Some abi => Ok abi
  | None => Err ErrChainCachedAbiNotFound
  end.
Definition setAbi (c : AbiCache) (functionSignature : string) (a : AbiWithFunctionName) : AbiCache :=
  mkAbiCache (<[functionSignature := a]> (AbiMap c)).

Definition GetAbi (c : AbiCache) (functionSignature : string) : res (ABI * string) :=
  res_map (fun r => (Abi_ r, FunctionName r)) (getAbi c functionSignature).
Definition SetAbi (c : AbiCache) (functionSignature : string) (abi : ABI) (functionName : string) : AbiCache :=
  setAbi c functionSignature (mkAbiWithFunctionName abi functionName).

(** The block the callers share: take the ABI from the cache, or parse the
    signature, generate the ABI with [generate] and store it. *)
Definition abiOf (generate : string -> string -> string -> res ABI) (c : AbiCache) (functionString : string)
    : res (ABI * string) * AbiCache :=
  match GetAbi c functionString with
  | Ok r => (Ok r, c)
  | Err _ =>
      match ParseMethodSignature functionString with
      | Err e => (Err e, c)
      | Ok (functionName, inputs, outputs) =>
          match generate functionName inputs outputs with
          | Err e => (Err e, c)
          | Ok abi => (Ok (abi, functionName), SetAbi c functionString abi functionName)
          end
      end
  end.

(** What a signature stands for without a cache, and the cache that only holds
    such entries: of calls or of views, whichever came first. *)
Definition fresh (generate : string -> string -> string -> res ABI) (functionString : string) : res (ABI * string) :=
  res_bind (ParseMethodSignature functionString) (fun '(functionName, inputs, outputs) =>
    res_map (fun abi => (abi, functionName)) (generate functionName inputs outputs)).

Definition cache_ok (c : AbiCache) : Prop := forall s a,
  AbiMap c !! s = Some a ->
  fresh GenerateCallABI s = Ok (Abi_ a, FunctionName a) \/ fresh GenerateViewABI s = Ok (Abi_ a, FunctionName a).

Lemma newAbiCache_ok : cache_ok newAbiCache.
Proof. intros s a. unfold newAbiCache. simpl. by rewrite lookup_empty. Qed.

Lemma abiOf_spec generate c s r c' :
  generate = GenerateCallABI \/ generate = GenerateViewABI ->
  cache_ok c -> abiOf generate c s = (r, c') ->
  cache_ok c' /\
  (r = fresh generate s \/ exists a, r = Ok a /\ c' = c /\
     (fresh GenerateCallABI s = Ok a \/ fresh GenerateViewABI s = Ok a)).
Proof.
  intros Hg Hc. unfold abiOf, GetAbi, getAbi. destruct (AbiMap c !! s) as [a|] eqn:Ha; simpl.
  { intros [= <- <-]. split; [done|]. right. eexists. split_and!; [done..|]. by apply Hc. }
  unfold fresh. destruct (ParseMethodSignature s) as [[[f i] o]|e] eqn:Hp; simpl; [|by intros [= <- <-]; auto].
  destruct (generate f i o) as [abi|e] eqn:Hgen; simpl; intros [= <- <-]; [|auto].
  split; [|by left]. intros s' a' Hl. simpl in Hl.
  destruct (decide (s = s')) as [<-|Hne]; [|rewrite lookup_insert_ne in Hl by done; by apply Hc].
  rewrite lookup_insert_eq in Hl. simplify_eq/=. unfold fresh. rewrite Hp. simpl.
  destruct Hg as [->| ->]; rewrite Hgen; auto.
Qed.
End package.

(** ** Signatures are read as they are written *)
Local Abbreviation Any := (Forall (fun c => re_any c = true)).
Local Abbreviation Word := (Forall (fun c => word_char c = true)).

Lemma any_of l : newline ∉ l -> Any l.
Proof.
  intros Hl. apply Forall_forall. intros c Hc. unfold re_any. destruct (N.eqb_spec (N_of_ascii c) 10) as [H|]; [|done].
  exfalso. apply Hl. replace newline with c; [done|].
  rewrite <- (ascii_N_embedding c), H. reflexivity.
Qed.

Lemma word_not_prefix f r : Word f -> is_prefix (chars "function ") (f ++ "("%char :: r) = false.
Proof.
  intros Hf. apply not_true_iff_false. intros [k Hk]%is_prefix_spec.
  assert (forall c, c ∈ f -> c <> " "%char) as Hsp.
  { intros c Hc ->. rewrite Forall_forall in Hf. by specialize (Hf _ Hc). }
  do 9 (destruct f as [|? f]; [by simplify_eq|]; simplify_eq/=).
  eapply Hsp; [|done]. set_solver.
Qed.

(** After the closing parenthesis of the inputs [returns] does not occur again. *)
Lemma returns_once pre x y o :
  ")"%char ∉ pre -> pre ++ o ++ [")"%char] = x ++ ")"%char :: y -> contains (chars "returns") o = false ->
  contains (chars "returns") y = false.
Proof.
  intros Hpre Heq Ho. apply not_true_iff_false. intros Hy. revert Ho. apply not_false_iff_true.
  apply (contains_snoc _ _ ")"%char); [|done..].
  assert (exists x', o ++ [")"%char] = x' ++ ")"%char :: y) as [x' ->].
  { revert x Heq. induction pre as [|c pre IH]; intros x Heq; [by exists x|].
    destruct x as [|c' x]; simplify_eq/=; [set_solver|]. eapply IH; [set_solver|done]. }
  apply contains_app_r. by apply (contains_app_r _ [")"%char]).
Qed.

Lemma no_match_without r1 r2 l :
  contains (chars "returns") l = false -> match_items (r1 ++ (Lit <$> chars "returns") ++ r2) l = None.
Proof.
  intros Hl. destruct (match_items _ l) eqn:Hm; [|done]. apply match_items_contains in Hm. congruence.
Qed.

(** The text up to the outputs: greedy stars stop where they should. *)
Lemma match_outputs o :
  Any o -> match_items [Star re_space; Lit "("; Capture re_any; Lit ")"]%char (chars " (" ++ o ++ [")"%char]) = Some [o].
Proof.
  intros Ho. change (chars " (" ++ o ++ [")"%char]) with ([" "%char] ++ "("%char :: (o ++ [")"%char])).
  assert (match_items [Lit "("; Capture re_any; Lit ")"]%char ("("%char :: (o ++ [")"%char])) = Some [o]) as Hm.
  { rewrite match_lit. apply match_capture; [done|done|].
    intros x y Heq Hx. destruct x as [|? [|]]; by simplify_eq/=. }
  rewrite match_star_stop; [done|by repeat constructor|done|]. by rewrite Hm.
Qed.

Lemma match_returns o :
  Any o -> contains (chars "returns") o = false ->
  match_items ([Capture re_any; Star re_space] ++ (Lit <$> chars "returns") ++
    [Star re_space; Lit "("; Capture re_any; Lit ")"]%char) (chars " returns (" ++ o ++ [")"%char])
  = Some [[" "%char]; o].
Proof.
  intros Ho Hr. change (chars " returns (" ++ o ++ [")"%char]) with
    ([" "%char] ++ (chars "returns" ++ (chars " (" ++ o ++ [")"%char]))).
  apply match_capture; [by repeat constructor| |].
  - change (chars "returns" ++ (chars " (" ++ o ++ [")"%char])) with
      ([] ++ "r"%char :: (chars "eturns" ++ (chars " (" ++ o ++ [")"%char]))).
    assert (match_items ((Lit <$> chars "returns") ++ [Star re_space; Lit "("; Capture re_any; Lit ")"]%char)
      ("r"%char :: (chars "eturns" ++ (chars " (" ++ o ++ [")"%char]))) = Some [o]) as Hm.
    { change ("r"%char :: (chars "eturns" ++ (chars " (" ++ o ++ [")"%char]))) with
        (chars "returns" ++ (chars " (" ++ o ++ [")"%char])).
      rewrite match_lits. by apply match_outputs. }
    rewrite match_star_stop; [done|constructor|done|]. by rewrite Hm.
  - intros x y Heq Hx. apply (no_match_without [Star re_space]). apply not_true_iff_false.
    intros (a & b & ->)%contains_spec. revert Hr. apply not_false_iff_true.
    apply (contains_snoc _ _ ")"%char); [|done..]. apply contains_spec.
    destruct x as [|c x]; [done|]. rewrite (app_assoc (c :: x) a) in Heq.
    change ((c :: x) ++ a) with (c :: (x ++ a)) in Heq. revert Heq. generalize (x ++ a). intros xa Heq.
    do 8 (destruct xa as [|? xa]; [by simplify_eq/=|]; simplify_eq/=).
    by exists xa, b.
Qed.

Lemma match_front f i r rest caps :
  Word f -> Any i -> match_items r rest = Some caps ->
  (forall x y, rest = x ++ ")"%char :: y -> match_items r y = None) ->
  match_items ([Capture word_char; Star re_space; Lit "("; Capture re_any; Lit ")"]%char ++ r)
    (f ++ "("%char :: (i ++ ")"%char :: rest)) = Some (f :: i :: caps).
Proof.
  intros Hf Hi Hm Hno. simpl app. apply match_capture_stop; [done..|].
  change ("("%char :: (i ++ ")"%char :: rest)) with ([] ++ "("%char :: (i ++ ")"%char :: rest)).
  assert (match_items (Lit "(" :: Capture re_any :: Lit ")" :: r)%char ("("%char :: (i ++ ")"%char :: rest))
    = Some (i :: caps)) as H1.
  { rewrite match_lit. apply match_capture; [done|by rewrite match_lit|].
    intros [|c x] y Heq Hx; [done|]. injection Heq as <- ->. destruct y as [|c y]; [done|].
    cbn [match_items]. destruct (Ascii.eqb_spec ")" c) as [<-|]; [by eapply Hno|done]. }
  rewrite match_star_stop; [done|constructor|done|]. by rewrite H1.
Qed.

Lemma word_not_space c : word_char c = true -> is_space c = false.
Proof.
  intros Hw. apply not_true_iff_false. intros Hs. revert Hw. unfold is_space, word_char in *.
  generalize dependent (N_of_ascii c). intros n Hs Hw.
  repeat (rewrite ?orb_true_iff, ?andb_true_iff, ?N.leb_le, ?N.eqb_eq in * ). lia.
Qed.
Lemma word_trim f : f <> ""%string -> Word (chars f) -> TrimSpace f = f.
Proof.
  intros Hne Hf. unfold TrimSpace. rewrite <- (text_chars f) at 2. f_equal.
  destruct (chars f) as [|c l] eqn:Hl; [done|].
  destruct (exists_last (l := c :: l) ltac:(done)) as (l' & z & Hz).
  rewrite Forall_forall in Hf.
  apply (trim_space_id _ c z l l'); [done..| |]; apply word_not_space, Hf; [set_solver|].
  rewrite Hz. set_solver.
Qed.

Lemma normalise f l :
  Word f -> f <> [] -> newline ∉ l -> tab ∉ l ->
  let s := text (f ++ "("%char :: l ++ [")"%char]) in
  s <> ""%string /\
  TrimSpace (TrimPrefix (ReplaceAll (ReplaceAll s newline " ") tab " ") "function ") = s.
Proof.
  intros Hf Hne Hn Ht s. split; [by destruct f|].
  assert (forall c, c = newline \/ c = tab -> c ∉ chars s) as Hc.
  { intros c Hc. unfold s. rewrite chars_text, elem_of_app, elem_of_cons, elem_of_app, list_elem_of_singleton.
    intros [Hin|[->|[Hin| ->]]]; [|by destruct Hc|by destruct Hc as [->| ->]|by destruct Hc].
    rewrite Forall_forall in Hf. specialize (Hf _ Hin). by destruct Hc as [->| ->]. }
  rewrite !ReplaceAll_none by (rewrite ?ReplaceAll_none; auto).
  unfold TrimPrefix. rewrite HasPrefix_is_prefix. unfold s at 1. rewrite chars_text, word_not_prefix by done.
  unfold TrimSpace, s. rewrite chars_text. f_equal. destruct f as [|c f]; [done|].
  eapply (trim_space_id _ c ")"%char _ ((c :: f) ++ "("%char :: l)); [done|by rewrite <- app_assoc| |done].
  inversion Hf; subst. by apply word_not_space.
Qed.

(** C30: A signature written as [f(inputs)] or [f(inputs) returns (outputs)] is
    read back as the name, the inputs and the outputs, without the spaces around
    them, whatever parentheses the inputs and the outputs contain; in the second
    form the outputs must not contain [returns] again. *)
Theorem signature_parsed f i o :
  f <> ""%string -> Word (chars f) ->
  newline ∉ chars (i +:+ o)%string -> tab ∉ chars (i +:+ o)%string ->
  (Contains (f +:+ "(" +:+ i +:+ ")")%string "returns" = false ->
     ParseMethodSignature (f +:+ "(" +:+ i +:+ ")")%string = Ok (f, TrimSpace i, ""%string)) /\
  (Contains o "returns" = false ->
     ParseMethodSignature (f +:+ "(" +:+ i +:+ ") returns (" +:+ o +:+ ")")%string
       = Ok (f, TrimSpace i, TrimSpace o)).
Proof.
  intros Hne Hf. rewrite chars_app, !not_elem_of_app. intros [Hni Hno] [Hti Hto].
  pose proof (word_trim f Hne Hf) as Htf.
  assert (chars f <> []) as Hcf by (destruct f; by simpl).
  assert (forall t, text (chars t) = t) as Htc by apply text_chars. split; intros Hc.
  - destruct (normalise (chars f) (chars i)) as [He Hnorm]; [done..|].
    assert (text (chars f ++ "("%char :: chars i ++ [")"%char]) = f +:+ "(" +:+ i +:+ ")")%string as Hs
      by (rewrite <- (Htc (f +:+ _)%string), !chars_app; done).
    cbv zeta in He, Hnorm. rewrite Hs in He, Hnorm.
    unfold ParseMethodSignature. rewrite bool_decide_false, Hnorm, Hc, !chars_app by done.
    rewrite (find_match _ _ [chars f; chars i; []]); [by rewrite !Htc, Htf|].
    apply (match_front (chars f) (chars i) [Capture re_any] [] [[]]); [done|by apply any_of|done|].
    intros x y Heq. by destruct x.
  - destruct (normalise (chars f) (chars i ++ chars ") returns (" ++ chars o)) as [He Hnorm]; [done|done| | |].
    1,2: rewrite !not_elem_of_app; split_and!; [done| |done]; by apply (bool_decide_eq_false_1 _).
    assert (text (chars f ++ "("%char :: (chars i ++ chars ") returns (" ++ chars o) ++ [")"%char])
      = f +:+ "(" +:+ i +:+ ") returns (" +:+ o +:+ ")")%string as Hs
      by (rewrite <- (Htc (f +:+ _)%string), !chars_app, <- !app_assoc; done).
    cbv zeta in He, Hnorm. rewrite Hs in He, Hnorm.
    unfold ParseMethodSignature. rewrite bool_decide_false, Hnorm by done.
    assert (Contains (f +:+ "(" +:+ i +:+ ") returns (" +:+ o +:+ ")") "returns" = true)%string as ->.
    { unfold Contains. rewrite !chars_app. do 3 apply contains_app_r. apply contains_spec.
      by exists (chars ") "), (chars " (" ++ chars o ++ chars ")"). }
    rewrite !chars_app.
    rewrite (find_match _ _ [chars f; chars i; [" "%char]; chars o]); [by rewrite !Htc, Htf|].
    apply (match_front (chars f) (chars i) _ (chars " returns (" ++ chars o ++ [")"%char]) [[" "%char]; chars o]);
      [done|by apply any_of|by apply match_returns; [apply any_of|]|].
    intros x y Heq. apply (no_match_without [Capture re_any; Star re_space]).
    eapply (returns_once (chars " returns (") x y (chars o)); [by apply (bool_decide_eq_false_1 _)|done|done].
Qed.

Lemma signature_parsed_witness :
  ParseMethodSignature "whitelist(address) returns ((uint256, uint256))" =
    Ok ("whitelist", "address", "(uint256, uint256)")%string.
Proof.
  apply (signature_parsed "whitelist" "address" "(uint256, uint256)");
    [done|by repeat constructor|by apply (bool_decide_eq_false_1 _)..|done].
Defined.
End Abi.
