(* ===== verification/Chain.v ===== *)
(** * Transactions and the chain helper

    [node/pkg/chain/utils/utils.go] (building, signing and submitting
    transactions, reading contracts) and [node/pkg/chain/helper/helper.go],
    [helper/types.go].  Klaytn's transaction type is third-party code: the class
    [TxPackage] lists its functions and [TxLaws] what the code relies on.  What
    the chain, the delegator and the environment answer are arguments. *)

From S2P Require Import Prelude Errors Text Signing Nonce Strings Abi Util.
From Stdlib Require Import Ascii.
Import Text Abi.

Local Open Scope Z_scope.

(** The map that describes a fee delegated contract execution. *)
Record TxMap : Type := mkTxMap {
  m_Nonce : uint64; m_GasPrice : Z; m_GasLimit : uint64; m_To : Address; m_Amount : Z;
  m_From : Address; m_Data : list Z; m_FeePayer : Address
}.

(** A signature [(V, R, S)]. *)
Definition TxSignature : Type := Z * Z * Z.

Class TxPackage `{Crypto} := {
  Tx : Type;
  NewTransaction : uint64 -> Address -> Z -> uint64 -> Z -> list Z -> Tx;
  (** [NewTransactionWithMap(TxTypeFeeDelegatedSmartContractExecution, m)] *)
  NewTransactionWithMap : TxMap -> res Tx;
  SignTx : Tx -> Z -> PrivateKey -> res Tx;
  SignTxAsFeePayer : Tx -> Z -> PrivateKey -> res Tx;
  From : Tx -> res Address;
  To : Tx -> option Address;
  tx_Nonce : Tx -> uint64;
  Gas : Tx -> uint64;
  GasPrice : Tx -> Z;
  tx_Value : Tx -> Z;
  Data : Tx -> list Z;
  tx_ChainId : Tx -> Z;
  RawSignatureValues : Tx -> list TxSignature;
  SetSignature : Tx -> list TxSignature -> Tx;
  GetRlp : Tx -> list Z;
  rlp_DecodeBytes : list Z -> res Tx;
  HexToAddress : string -> Address;
  Hex : Address -> string
}.

(** What a transaction asks the chain to do, whoever pays for it. *)
Record call : Type := mkCall {
  c_nonce : uint64; c_to : option Address; c_value : Z; c_gas : uint64; c_gasPrice : Z; c_data : list Z
}.
Definition call_of `{TxPackage} (tx : Tx) : call :=
  mkCall (tx_Nonce tx) (To tx) (tx_Value tx) (Gas tx) (GasPrice tx) (Data tx).

(** Documented behaviour of the package: constructors store what they are given,
    signing adds a signature and keeps the rest, RLP is a round trip. *)
Class TxLaws `(P : TxPackage) : Prop := {
  new_call n to v g gp d : call_of (NewTransaction n to v g gp d) = mkCall n (Some to) v g gp d;
  map_call m tx : NewTransactionWithMap m = Ok tx ->
    call_of tx = mkCall (m_Nonce m) (Some (m_To m)) (m_Amount m) (m_GasLimit m) (m_GasPrice m) (m_Data m)
    /\ From tx = Ok (m_From m);
  sign_call tx c k tx' : SignTx tx c k = Ok tx' ->
    call_of tx' = call_of tx /\ RawSignatureValues tx' <> [];
  feepayer_call tx c k tx' : SignTxAsFeePayer tx c k = Ok tx' ->
    call_of tx' = call_of tx /\ RawSignatureValues tx' = RawSignatureValues tx;
  setsig_call tx s : call_of (SetSignature tx s) = call_of tx /\ RawSignatureValues (SetSignature tx s) = s;
  rlp_roundtrip tx : rlp_DecodeBytes (GetRlp tx) = Ok tx;
  rlp_bytes tx : Forall (fun b => 0 <= b < 256) (GetRlp tx)
}.

Module Chain.
Local Open Scope go_scope.

Definition DEFAULT_GAS_LIMIT : uint64 := 6000000.

Record SignInsertPayload : Type := mkPayload {
  p_From : string; p_To : string; p_Input : string; p_Gas : string; p_Value : string;
  p_ChainId : string; p_GasPrice : string; p_Nonce : string; p_V : string; p_R : string; p_S : string;
  p_RawTx : string
}.

Section chain.
Context {AP : AbiPackage} {CR : Crypto} {TP : TxPackage}.

(** ** [utils.go] *)
Definition TxToHash (tx : Tx) : string := EncodeToString (GetRlp tx).

Definition HashToTx (hash : string) : res Tx :=
  match DecodeString (TrimPrefix hash "0x") with
  | None => Err (External "failed to decode hash")
  | Some rawTxBytes => rlp_DecodeBytes rawTxBytes
  end.

Definition hex0x (n : Z) : string := ("0x" +:+ Format 16 n)%string.

(** [None]: no receiver (a nil dereference) or no signature (out of range).  The
    signature's parts end up under each other's names. *)
Definition MakePayload (tx : Tx) : option (res SignInsertPayload) :=
  match From tx with
  | Err e => Some (Err e)
  | Ok rawFrom =>
      to ← To tx;
      '(sigV, sigR, sigS) ← head (RawSignatureValues tx);
      let r := hex0x sigR in
      let s := hex0x sigS in
      let v := hex0x sigV in
      Some (Ok (mkPayload (ToLower (Hex rawFrom)) (ToLower (Hex to))
        ("0x" +:+ EncodeToString (Data tx))%string (hex0x (Gas tx)) ("0x" +:+ Itoa (tx_Value tx))%string
        (hex0x (tx_ChainId tx)) ("0x" +:+ Itoa (GasPrice tx))%string (hex0x (tx_Nonce tx))
        r s v ("0x" +:+ TxToHash tx)%string))
  end.

(** What the client answers while a transaction is built. *)
Record ClientAnswers : Type := mkAnswers {
  SuggestGasPrice : res Z;
  EstimateGas : Address -> list Z -> res uint64
}.

(** The parameters' checks, in the code's order. *)
Definition check_params (client : option ClientAnswers) (contractAddressHex reporter functionString : string)
    (chainID : option Z) : res (ClientAnswers * Z) :=
  match client with
  | None => Err ErrChainEmptyClientParam
  | Some client =>
      if bool_decide (contractAddressHex = ""%string) then Err ErrChainEmptyAddressParam
      else if bool_decide (reporter = ""%string) then Err ErrChainEmptyReporterParam
      else if bool_decide (functionString = ""%string) then Err ErrChainEmptyFuncStringParam
      else match chainID with
           | None => Err ErrChainEmptyChainIdParam
           | Some chainID => Ok (client, chainID)
           end
  end.

Definition gasLimit (estimated : res uint64) : uint64 :=
  let estimatedGas := match estimated with Ok g => g | Err _ => DEFAULT_GAS_LIMIT end in
  if estimatedGas <? DEFAULT_GAS_LIMIT then DEFAULT_GAS_LIMIT else estimatedGas.

(** A built transaction and the cache after it; the cache keeps what was parsed
    also when a later step fails. *)
Definition MakeDirectTx (cache : AbiCache) (client : option ClientAnswers)
    (contractAddressHex reporter functionString : string) (chainID : option Z) (nonce : uint64)
    (args : list Arg) : res Tx * AbiCache :=
  match check_params client contractAddressHex reporter functionString chainID with
  | Err e => (Err e, cache)
  | Ok (client, chainID) =>
      let '(abi_, cache) := abiOf GenerateCallABI cache functionString in
      (let? (abi, functionName) := abi_ in
       let? packed := Pack abi functionName args in
       let? privateKey := HexToECDSA reporter in
       let? gasPrice := SuggestGasPrice client in
       let contractAddress := HexToAddress contractAddressHex in
       let estimatedGas := gasLimit (EstimateGas client contractAddress packed) in
       let tx := NewTransaction nonce contractAddress 0 estimatedGas gasPrice packed in
       SignTx tx chainID privateKey, cache)
  end.

Definition MakeFeeDelegatedTx (cache : AbiCache) (client : option ClientAnswers)
    (contractAddressHex reporter functionString : string) (chainID : option Z) (nonce : uint64)
    (args : list Arg) : res Tx * AbiCache :=
  match check_params client contractAddressHex reporter functionString chainID with
  | Err e => (Err e, cache)
  | Ok (client, chainID) =>
      let '(abi_, cache) := abiOf GenerateCallABI cache functionString in
      (let? (abi, functionName) := abi_ in
       let? packed := Pack abi functionName args in
       let? privateKey := HexToECDSA reporter in
       let fromAddress := PubkeyToAddress (Public privateKey) in
       let? gasPrice := SuggestGasPrice client in
       let contractAddress := HexToAddress contractAddressHex in
       let estimatedGas := gasLimit (EstimateGas client contractAddress packed) in
       let? unsigned := NewTransactionWithMap
         (mkTxMap nonce gasPrice estimatedGas contractAddress 0 fromAddress packed 0) in
       SignTx unsigned chainID privateKey, cache)
  end.

(** [None]: [newTx] is nil when the constructor failed, and [SetSignature] on it
    panics. *)
Definition UpdateFeePayer (tx : Tx) (feePayer : Address) : option (res Tx) :=
  match From tx with
  | Err e => Some (Err e)
  | Ok from =>
      match To tx with
      | None => Some (Err ErrChainEmptyToAddress)
      | Some to =>
          let remap := mkTxMap (tx_Nonce tx) (GasPrice tx) (Gas tx) to (tx_Value tx) from (Data tx) feePayer in
          match NewTransactionWithMap remap with
          | Err _ => None
          | Ok newTx => Some (Ok (SetSignature newTx (RawSignatureValues tx)))
          end
      end
  end.

(** [pk]: the value of [TEST_FEE_PAYER_PK]. *)
Definition SignTxByFeePayer (pk : string) (tx : Tx) (chainID : Z) : option (res Tx) :=
  match HexToECDSA (TrimPrefix pk "0x") with
  | Err e => Some (Err e)
  | Ok feePayerPrivateKey =>
      match UpdateFeePayer tx (PubkeyToAddress (Public feePayerPrivateKey)) with
      | None => None
      | Some (Err e) => Some (Err e)
      | Some (Ok updatedTx) => Some (SignTxAsFeePayer updatedTx chainID feePayerPrivateKey)
      end
  end.

(** The chain's answers to a submission: of [SendTransaction], and the status
    of the receipt [bind.WaitMined] waits for. *)
Record SubmitAnswers : Type := mkSubmitAnswers {
  SendTransaction : Tx -> option error;
  WaitMined : Tx -> res Z
}.

(** The transactions handed to the client, and the error. *)
Definition SubmitRawTx (E : SubmitAnswers) (tx : Tx) : list Tx * option error :=
  match SendTransaction E tx with
  | Some err => ([tx], Some err)
  | None =>
      match WaitMined E tx with
      | Err err => ([tx], Some err)
      | Ok status => ([tx], if negb (status =? 1) then Some (ErrChainTransactionFail : error) else None)
      end
  end.

Definition SubmitRawTxString (E : SubmitAnswers) (rawTx : string) : list Tx * option error :=
  match DecodeString rawTx with
  | None => ([], Some (External "failed to decode raw tx"))
  | Some rawTxBytes =>
      match rlp_DecodeBytes rawTxBytes with
      | Err err => ([], Some err)
      | Ok tx => SubmitRawTx E tx
      end
  end.

Definition ReadContract (cache : AbiCache) (CallContract : option (Address -> list Z -> res (list Z)))
    (functionString contractAddress : string) (args : list Arg) : res Output * AbiCache :=
  match CallContract with
  | None => (Err ErrChainEmptyClientParam, cache)
  | Some CallContract =>
      if bool_decide (contractAddress = ""%string) then (Err ErrChainEmptyAddressParam, cache)
      else if bool_decide (functionString = ""%string) then (Err ErrChainEmptyFuncStringParam, cache)
      else
        let '(abi_, cache) := abiOf GenerateViewABI cache functionString in
        (let? (abi, functionName) := abi_ in
         let contractAddressHex := HexToAddress contractAddress in
         let? callData := Pack abi functionName args in
         let? result := CallContract contractAddressHex callData in
         Unpack abi functionName result, cache)
  end.

(** The rows come ordered by priority. *)
Record ProviderUrl : Type := mkProviderUrl { pu_Url : string }.
Definition LoadProviderUrls (rows : res (list ProviderUrl)) : res (list string) :=
  let? providerUrls := rows in Ok (pu_Url <$> providerUrls).

Definition IsJsonRpcFailureError (errorCode : Z) : bool :=
  if errorCode =? -32603 then true
  else if (errorCode <=? -32000) && (-32099 <=? errorCode) then true
  else false.

(** [code]: the error's code when it is a [JsonRpcError]. *)
Definition ShouldRetryWithSwitchedJsonRPC (code : option Z) : bool :=
  match code with
  | Some c => IsJsonRpcFailureError c
  | None => false
  end.

(** ** [helper.go] *)

(** [BlockchainType] is an int. *)
Definition Kaia : Z := 0.
Definition Ethereum : Z := 1.

Record ChainHelperConfig : Type := mkHelperConfig {
  cfg_ProviderUrl : string; cfg_ReporterPk : string; cfg_BlockchainType : Z;
  cfg_UseAdditionalProviderUrls : bool
}.
Definition WithProviderUrl (url : string) (c : ChainHelperConfig) : ChainHelperConfig :=
  mkHelperConfig url (cfg_ReporterPk c) (cfg_BlockchainType c) (cfg_UseAdditionalProviderUrls c).
Definition WithReporterPk (pk : string) (c : ChainHelperConfig) : ChainHelperConfig :=
  mkHelperConfig (cfg_ProviderUrl c) pk (cfg_BlockchainType c) (cfg_UseAdditionalProviderUrls c).
Definition WithBlockchainType (t : Z) (c : ChainHelperConfig) : ChainHelperConfig :=
  mkHelperConfig (cfg_ProviderUrl c) (cfg_ReporterPk c) t (cfg_UseAdditionalProviderUrls c).

Definition KaiaProviderUrl : string := "KAIA_PROVIDER_URL".
Definition KaiaReporterPk : string := "KAIA_REPORTER_PK".
Definition EthProviderUrl : string := "ETH_PROVIDER_URL".
Definition EthReporterPk : string := "ETH_REPORTER_PK".
Definition EnvDelegatorUrl : string := "DELEGATOR_URL".

(** What the process and the chain answer while a helper is made. *)
Record HelperEnv : Type := mkHelperEnv {
  Getenv : string -> string;
  GetSecret : string -> string;
  dialFuncs : Z -> string -> option error;
  NetworkID : res Z;
  PendingNonceAt : Address -> res uint64
}.

(** One case of the switch. *)
Definition set_from (E : HelperEnv) (urlVar pkVar : string) (config : ChainHelperConfig) : res ChainHelperConfig :=
  let? config :=
    (if bool_decide (cfg_ProviderUrl config = ""%string) then
       let config := WithProviderUrl (Getenv E urlVar) config in
       if bool_decide (cfg_ProviderUrl config = ""%string) then Err ErrChainProviderUrlNotFound else Ok config
     else Ok config) in
  Ok (if bool_decide (cfg_ReporterPk config = ""%string) then WithReporterPk (GetSecret E pkVar) config else config).

Definition setProviderAndReporter (E : HelperEnv) (config : ChainHelperConfig) (blockchainType : Z)
    : res ChainHelperConfig :=
  if blockchainType =? Kaia then set_from E KaiaProviderUrl KaiaReporterPk config
  else if blockchainType =? Ethereum then set_from E EthProviderUrl EthReporterPk config
  else Err ErrChainReporterUnsupportedChain.

Record ChainHelper : Type := mkChainHelper {
  h_wallet : string; h_chainID : Z; h_delegatorUrl : string; h_noncemanager : Nonce.V2.NonceManagerV2
}.

(** [None]: making the nonce manager blocks. *)
Definition NewChainHelper (E : HelperEnv) (opts : list (ChainHelperConfig -> ChainHelperConfig))
    : option (res ChainHelper) :=
  let config := fold_left (fun c opt => opt c) opts (mkHelperConfig "" "" Kaia false) in
  match setProviderAndReporter E config (cfg_BlockchainType config) with
  | Err err => Some (Err err)
  | Ok config =>
      match dialFuncs E (cfg_BlockchainType config) (cfg_ProviderUrl config) with
      | Some err => Some (Err err)
      | None =>
          match NetworkID E with
          | Err err => Some (Err err)
          | Ok chainID =>
              let wallet := TrimPrefix (cfg_ReporterPk config) "0x" in
              nm ← Nonce.V2.New (Signing.GetNonceFromPk wallet (PendingNonceAt E)) wallet;
              match nm with
              | Err err => Some (Err err)
              | Ok nonceManager =>
                  Some (Ok (mkChainHelper wallet chainID (Getenv E EnvDelegatorUrl) nonceManager))
              end
          end
      end
  end.

(** [delegator]: what the request to [delegatorUrl] yields for a payload: the
    field [signedRawTx], which may be null. *)
Definition GetSignedFromDelegator (delegator : SignInsertPayload -> res (option string)) (t : ChainHelper) (tx : Tx)
    : option (res Tx) :=
  if bool_decide (h_delegatorUrl t = ""%string) then Some (Err ErrChainDelegatorUrlNotFound) else
  payload_ ← MakePayload tx;
  match payload_ with
  | Err err => Some (Err err)
  | Ok payload =>
      match delegator payload with
      | Err err => Some (Err err)
      | Ok None => Some (Err ErrChainEmptySignedRawTx)
      | Ok (Some signedRawTx) => Some (HashToTx signedRawTx)
      end
  end.

Definition helper_MakeDirectTx (cache : AbiCache) (client : ClientAnswers) (pending : Address -> res uint64)
    (t : ChainHelper) (contractAddressHex functionString : string) (args : list Arg) : res Tx * AbiCache :=
  match Signing.GetNonceFromPk (h_wallet t) pending with
  | Err err => (Err err, cache)
  | Ok nonce =>
      MakeDirectTx cache (Some client) contractAddressHex (h_wallet t) functionString (Some (h_chainID t)) nonce args
  end.

Definition PublicAddress (t : ChainHelper) : res Address :=
  let? privateKey := HexToECDSA (h_wallet t) in Ok (PubkeyToAddress (Public privateKey)).
Definition PublicAddressString (t : ChainHelper) : res string := let? a := PublicAddress t in Ok (Hex a).

Definition with_nm (t : ChainHelper) (nm : Nonce.V2.NonceManagerV2) : ChainHelper :=
  mkChainHelper (h_wallet t) (h_chainID t) (h_delegatorUrl t) nm.

(** What the outside answers to one submission: the client while the delegated
    and the direct transaction are built, the delegator, and the chain. *)
Record SubmitEnv : Type := mkSubmitEnv {
  e_delegated : ClientAnswers; e_delegator : SignInsertPayload -> res (option string);
  e_direct : ClientAnswers; e_submit : SubmitAnswers
}.

(** The helper, the cache, the transactions sent and the error. *)
Definition SubmitDelegatedFallbackDirect (E : SubmitEnv) (t : ChainHelper) (cache : AbiCache)
    (contractAddress functionString : string) (args : list Arg)
    : option (ChainHelper * AbiCache * (list Tx * option error)) :=
  '(nonce, nm) ← Nonce.V2.GetNonce (h_noncemanager t);
  let t := with_nm t nm in
  match MakeFeeDelegatedTx cache (Some (e_delegated E)) contractAddress (h_wallet t) functionString
          (Some (h_chainID t)) nonce args with
  | (Err err, cache) => Some (t, cache, ([], Some err))
  | (Ok tx, cache) =>
      signed ← GetSignedFromDelegator (e_delegator E) t tx;
      match signed with
      | Err _ =>
          match MakeDirectTx cache (Some (e_direct E)) contractAddress (h_wallet t) functionString
                  (Some (h_chainID t)) nonce args with
          | (Err err, cache) => Some (t, cache, ([], Some err))
          | (Ok tx, cache) => Some (t, cache, SubmitRawTx (e_submit E) tx)
          end
      | Ok tx => Some (t, cache, SubmitRawTx (e_submit E) tx)
      end
  end.

Definition SubmitDirect (E : SubmitEnv) (pending : Address -> res uint64) (t : ChainHelper) (cache : AbiCache)
    (contractAddress functionString : string) (args : list Arg) : AbiCache * (list Tx * option error) :=
  match helper_MakeDirectTx cache (e_direct E) pending t contractAddress functionString args with
  | (Err err, cache) => (cache, ([], Some err))
  | (Ok tx, cache) => (cache, SubmitRawTx (e_submit E) tx)
  end.

Definition FlushNoncePool (pending : Address -> res uint64) (t : ChainHelper) : option (ChainHelper * option error) :=
  r ← Nonce.V2.Reset (Signing.GetNonceFromPk (h_wallet t) pending) (h_noncemanager t);
  match r with
  | Err err => Some (t, Some err)
  | Ok nm => Some (with_nm t nm, None)
  end.

(** ** Proofs *)

Lemma hex_not_0x bs : Forall (fun b => 0 <= b < 256) bs -> HasPrefix (EncodeToString bs) "0x" = false.
Proof.
  intros Hb. apply not_true_iff_false. rewrite Strings.HasPrefix_is_prefix, Strings.is_prefix_spec.
  intros [k Hk]. apply DecodeString_EncodeToString in Hb. unfold DecodeString in Hb. by rewrite Hk in Hb.
Qed.

Lemma gasLimit_floor g : DEFAULT_GAS_LIMIT <= gasLimit g.
Proof. unfold gasLimit. destruct g as [g|]; case_match; breflect; lia. Qed.

(** The kind of a function does not change how its arguments are packed. *)
Definition abi_uniform : Prop := forall f i o,
  match GenerateCallABI f i o, GenerateViewABI f i o with
  | Ok a, Ok b => forall name args, Pack a name args = Pack b name args
  | Err e, Err e' => e = e'
  | _, _ => False
  end.

Lemma abiOf_fresh generate f : (abiOf generate newAbiCache f).1 = fresh generate f.
Proof.
  unfold abiOf, GetAbi, getAbi, fresh. simpl. rewrite lookup_empty. simpl.
  destruct (ParseMethodSignature f) as [[[? ?] ?]|]; [|done]. simpl. by destruct (generate _ _ _).
Qed.

(** Packing with the ABI from the cache is packing with a fresh one. *)
Lemma pack_cached {B} cache f args (k : list Z -> res B) :
  cache_ok cache -> abi_uniform ->
  let pack r := (let? (abi, name) := r in let? packed := Pack abi name args in k packed) in
  pack (abiOf GenerateCallABI cache f).1 = pack (fresh GenerateCallABI f) /\
  cache_ok (abiOf GenerateCallABI cache f).2.
Proof.
  intros Hc Hu pack. destruct (abiOf GenerateCallABI cache f) as [r c'] eqn:Ha.
  apply abiOf_spec in Ha as [Hc' Hr]; [|auto..]. split; [|done]. simpl.
  destruct Hr as [->|([abi name] & -> & -> & [->|Hv])]; [done..|].
  unfold fresh in *. destruct (ParseMethodSignature f) as [[[g i] o]|]; [|done]. simpl in *.
  specialize (Hu g i o). destruct (GenerateViewABI g i o); [|done].
  destruct (GenerateCallABI g i o); [|done]. simplify_eq/=. by rewrite Hu.
Qed.

(** Building a transaction with the process-wide ABI cache gives what it gives
    without one: a cached entry, even one stored by a contract read, packs the
    arguments as the freshly parsed signature would, and the cache only ever holds
    such entries. *)
Theorem abi_cache_transparent cache client a r f id n args :
  cache_ok cache -> abi_uniform ->
  (MakeDirectTx cache client a r f id n args).1 = (MakeDirectTx newAbiCache client a r f id n args).1 /\
  (MakeFeeDelegatedTx cache client a r f id n args).1 =
    (MakeFeeDelegatedTx newAbiCache client a r f id n args).1 /\
  cache_ok (MakeDirectTx cache client a r f id n args).2 /\
  cache_ok (MakeFeeDelegatedTx cache client a r f id n args).2.
Proof.
  intros Hc Hu. unfold MakeDirectTx, MakeFeeDelegatedTx.
  destruct (check_params _ _ _ _ _) as [[cl id']|]; [|done].
  pose proof (fun B k => @pack_cached B cache f args k Hc Hu) as Hp.
  pose proof (abiOf_fresh GenerateCallABI f) as Hf.
  destruct (abiOf GenerateCallABI newAbiCache f) as [r0 c0]. simpl in Hf. subst r0.
  destruct (abiOf GenerateCallABI cache f) as [r1 c1]. simpl in Hp |- *.
  pose proof (proj2 (Hp unit (fun _ => Ok ()))).
  split_and!; [apply Hp..|done|done].
Qed.

Section laws.
Context {TL : TxLaws TP}.

Lemma roundtrip_lemma tx :
  HashToTx (TxToHash tx) = Ok tx /\ HashToTx ("0x" +:+ TxToHash tx)%string = Ok tx.
Proof.
  assert (forall s, s = TxToHash tx \/ s = "0x" +:+ TxToHash tx -> TrimPrefix s "0x" = TxToHash tx)%string as Hs.
  { intros s [->| ->]; [|apply TrimPrefix_app]. unfold TrimPrefix.
    destruct (HasPrefix _ _) eqn:Hp; [|done]. exfalso. revert Hp. apply not_true_iff_false.
    apply hex_not_0x, rlp_bytes. }
  split; unfold HashToTx; rewrite Hs by auto; unfold TxToHash;
    rewrite DecodeString_EncodeToString by apply rlp_bytes; apply rlp_roundtrip.
Qed.

(** The hexadecimal text of a transaction, with or without the prefix, reads
    back as the transaction. *)
Theorem tx_hash_roundtrip tx :
  HashToTx (TxToHash tx) = Ok tx /\ HashToTx ("0x" +:+ TxToHash tx)%string = Ok tx.
Proof. apply roundtrip_lemma. Qed.

(** What both builders put in a transaction. *)
Lemma MakeDirectTx_call cache cl a r f id n args tx c' :
  MakeDirectTx cache (Some cl) a r f (Some id) n args = (Ok tx, c') ->
  exists gp packed abi name, SuggestGasPrice cl = Ok gp /\
    (abiOf GenerateCallABI cache f) = (Ok (abi, name), c') /\ Pack abi name args = Ok packed /\
    call_of tx = mkCall n (Some (HexToAddress a)) 0 (gasLimit (EstimateGas cl (HexToAddress a) packed)) gp packed.
Proof.
  unfold MakeDirectTx. destruct (check_params _ _ _ _ _) as [[cl' id']|] eqn:Hc; [|done].
  assert (cl' = cl) as -> by (unfold check_params in Hc; go_cases; done).
  destruct (abiOf _ _ _) as [abi_ c1]. intros [= Hb <-].
  apply res_bind_Ok in Hb as ([abi name] & -> & (packed & Hp & (pk & _ & (gp & Hg & Hs)%res_bind_Ok)%res_bind_Ok)%res_bind_Ok).
  apply sign_call in Hs as [Hs _]. rewrite new_call in Hs. eauto 10.
Qed.

Lemma MakeFeeDelegatedTx_call cache cl a r f id n args tx c' :
  MakeFeeDelegatedTx cache (Some cl) a r f (Some id) n args = (Ok tx, c') ->
  RawSignatureValues tx <> [] /\
  exists gp packed abi name, SuggestGasPrice cl = Ok gp /\
    (abiOf GenerateCallABI cache f) = (Ok (abi, name), c') /\ Pack abi name args = Ok packed /\
    call_of tx = mkCall n (Some (HexToAddress a)) 0 (gasLimit (EstimateGas cl (HexToAddress a) packed)) gp packed.
Proof.
  unfold MakeFeeDelegatedTx. destruct (check_params _ _ _ _ _) as [[cl' id']|] eqn:Hc; [|done].
  assert (cl' = cl) as -> by (unfold check_params in Hc; go_cases; done).
  destruct (abiOf _ _ _) as [abi_ c1]. intros [= Hb <-].
  apply res_bind_Ok in Hb as ([abi name] & -> & (packed & Hp & (pk & _ & (gp & Hg & Hs)%res_bind_Ok)%res_bind_Ok)%res_bind_Ok).
  apply res_bind_Ok in Hs as (un & [Hu _]%map_call & [Hs Hne]%sign_call). rewrite Hu in Hs. eauto 10.
Qed.

(** The fallback sends what the delegated transaction would have sent: built
    from the same answers, both transactions make the same call (nonce, receiver,
    value, gas of at least [DEFAULT_GAS_LIMIT], gas price and data) and leave the
    same cache. *)
Theorem direct_delegated_agree cache cl a r f id n args tx1 tx2 c1 c2 :
  MakeDirectTx cache (Some cl) a r f (Some id) n args = (Ok tx1, c1) ->
  MakeFeeDelegatedTx cache (Some cl) a r f (Some id) n args = (Ok tx2, c2) ->
  call_of tx1 = call_of tx2 /\ c1 = c2 /\ c_nonce (call_of tx1) = n /\
  DEFAULT_GAS_LIMIT <= c_gas (call_of tx1).
Proof.
  intros (gp1 & p1 & abi1 & nm1 & Hg1 & Ha1 & Hp1 & H1)%MakeDirectTx_call
    (_ & gp2 & p2 & abi2 & nm2 & Hg2 & Ha2 & Hp2 & H2)%MakeFeeDelegatedTx_call.
  rewrite Ha1 in Ha2. simplify_eq. rewrite Hp1 in Hp2. rewrite Hg1 in Hg2. simplify_eq. rewrite H1, H2.
  split_and!; [done..|]. apply gasLimit_floor.
Qed.

Lemma GetSignedFromDelegator_answers dl t tx :
  RawSignatureValues tx <> [] -> is_Some (To tx) ->
  exists r, GetSignedFromDelegator dl t tx = Some r /\
    forall tx', r = Ok tx' -> exists p raw, MakePayload tx = Some (Ok p) /\ dl p = Ok (Some raw) /\ HashToTx raw = Ok tx'.
Proof.
  intros Hs [to Hto]. unfold GetSignedFromDelegator. case_bool_decide; [eexists; split; [done|]; done|].
  assert (exists p, MakePayload tx = Some p) as [p Hp].
  { unfold MakePayload. destruct (From tx); [|eauto]. rewrite Hto.
    destruct (RawSignatureValues tx) as [|[[v r] s] ?]; [done|]. simpl. eauto. }
  rewrite Hp. simpl. destruct p as [p|]; [|eexists; split; [done|]; done].
  destruct (dl p) as [[raw|]|] eqn:Hd; eexists; (split; [done|]); [|done..].
  intros tx' Ht. eauto 10.
Qed.

Lemma SubmitRawTx_spec E tx sent err :
  SubmitRawTx E tx = (sent, err) ->
  sent = [tx] /\ (err = None <-> SendTransaction E tx = None /\ WaitMined E tx = Ok 1).
Proof.
  unfold SubmitRawTx. intros Hs. go_cases; try (split; [done|naive_solver]).
  destruct (WaitMined E tx) as [st|e]; simplify_eq/=; (split; [done|]); [|naive_solver].
  destruct (Z.eqb_spec st 1); simpl; naive_solver.
Qed.
(** What one submission does, for every answer of the outside. *)
Lemma submit_cases E t cache a f args :
  Nonce.V2.ok (h_noncemanager t) ->
  exists t' c' sent err,
    SubmitDelegatedFallbackDirect E t cache a f args = Some (t', c', (sent, err)) /\
    Nonce.V2.ok (h_noncemanager t') /\
    Nonce.V2.next (h_noncemanager t') = wrapu64 (Nonce.V2.next (h_noncemanager t) + 1) /\
    (sent = [] /\ err <> None \/
     exists tx, sent = [tx] /\
       (err = None <-> SendTransaction (e_submit E) tx = None /\ WaitMined (e_submit E) tx = Ok 1) /\
       ((exists tx0 p raw, c_nonce (call_of tx0) = Nonce.V2.next (h_noncemanager t) /\
           c_to (call_of tx0) = Some (HexToAddress a) /\ DEFAULT_GAS_LIMIT <= c_gas (call_of tx0) /\
           MakePayload tx0 = Some (Ok p) /\ e_delegator E p = Ok (Some raw) /\ HashToTx raw = Ok tx) \/
        c_nonce (call_of tx) = Nonce.V2.next (h_noncemanager t) /\
           c_to (call_of tx) = Some (HexToAddress a) /\ DEFAULT_GAS_LIMIT <= c_gas (call_of tx))).
Proof.
  intros Hok. destruct (Nonce.V2.GetNonce_spec _ Hok) as (nm & Hn & Hok' & Hnx).
  unfold SubmitDelegatedFallbackDirect. rewrite Hn. cbn [mbind option_bind].
  destruct (MakeFeeDelegatedTx _ _ _ _ _ _ _ _) as [[tx|e] c1] eqn:Hm.
  2:{ do 4 eexists. split; [done|]. split_and!; [done..|]. by left. }
  pose proof Hm as (Hsig & gp & pk & abi & name & _ & _ & _ & Hcall)%MakeFeeDelegatedTx_call.
  destruct (GetSignedFromDelegator_answers (e_delegator E) (with_nm t nm) tx) as (r & Hr & Hans).
  { done. }
  { unfold call_of in Hcall. simplify_eq. eauto. }
  rewrite Hr. cbn [mbind option_bind]. destruct r as [tx'|e].
  - destruct (SubmitRawTx _ _) as [sent err] eqn:Hs. apply SubmitRawTx_spec in Hs as [-> He].
    do 4 eexists. split; [done|]. split_and!; [done..|]. right. exists tx'. split_and!; [done..|]. left.
    destruct (Hans _ eq_refl) as (p & raw & Hp & Hd & Hh). exists tx, p, raw. rewrite Hcall. simpl.
    split_and!; try done. apply gasLimit_floor.
  - destruct (MakeDirectTx _ _ _ _ _ _ _ _) as [[tx'|e'] c2] eqn:Hd.
    2:{ do 4 eexists. split; [done|]. split_and!; [done..|]. by left. }
    destruct (SubmitRawTx _ _) as [sent err] eqn:Hs. apply SubmitRawTx_spec in Hs as [-> He].
    do 4 eexists. split; [done|]. split_and!; [done..|]. right. exists tx'. split_and!; [done..|]. right.
    apply MakeDirectTx_call in Hd as (? & ? & ? & ? & _ & _ & _ & ->). simpl.
    split_and!; [done..|apply gasLimit_floor].
Qed.

(** A submission takes exactly one nonce, never panics or blocks, and sends at
    most one transaction; it reports success exactly when that transaction was
    accepted and mined with status 1.  With a delegator that signs what it is
    given, the transaction carries that nonce, goes to the contract and has at
    least the default gas limit.  When nothing is sent the nonce is lost. *)
Theorem submission_one_nonce E t cache a f args :
  Nonce.V2.ok (h_noncemanager t) ->
  (forall tx0 p raw tx, MakePayload tx0 = Some (Ok p) -> e_delegator E p = Ok (Some raw) ->
     HashToTx raw = Ok tx -> call_of tx = call_of tx0) ->
  exists t' c' sent err,
    SubmitDelegatedFallbackDirect E t cache a f args = Some (t', c', (sent, err)) /\
    Nonce.V2.next (h_noncemanager t') = wrapu64 (Nonce.V2.next (h_noncemanager t) + 1) /\
    (length sent <= 1)%nat /\
    (err = None <-> exists tx, sent = [tx] /\ SendTransaction (e_submit E) tx = None /\
                      WaitMined (e_submit E) tx = Ok 1) /\
    forall tx, tx ∈ sent -> c_nonce (call_of tx) = Nonce.V2.next (h_noncemanager t) /\
      c_to (call_of tx) = Some (HexToAddress a) /\ DEFAULT_GAS_LIMIT <= c_gas (call_of tx).
Proof.
  intros Hok Hdl. destruct (submit_cases E t cache a f args Hok) as (t' & c' & sent & err & Hs & _ & Hn & Hd).
  exists t', c', sent, err. split_and!; [done..| | |].
  - destruct Hd as [[-> _]|(? & -> & _)]; simpl; lia.
  - destruct Hd as [[-> He]|(tx & -> & He & _)]; [naive_solver|]. rewrite He. naive_solver.
  - intros tx Htx. destruct Hd as [[-> _]|(tx' & -> & _ & Hd)]; [set_solver|].
    apply list_elem_of_singleton in Htx as ->.
    destruct Hd as [(tx0 & p & raw & ? & ? & ? & Hp & Hr & Hh)|?]; [|done].
    by rewrite (Hdl _ _ _ _ Hp Hr Hh).
Qed.

End laws.
End chain.

(** ** A toy chain: transactions are records, RLP a list of their numbers *)
Definition toy_abi : AbiPackage := {|
  ABI := unit; Arg := Z; Output := list Z; abi_JSON s := Ok ();
  Pack _ name args := Ok args; Unpack _ _ bs := Ok bs
|}.

(** A transaction as a tuple: the call, the sender, the signatures, the payer.
    Its bytes are the bits of its code as a positive number. *)
Definition toy_tx : Type := (uint64 * option Address * Z * uint64 * Z * list Z) * Address * list TxSignature * Address.

Fixpoint pos_bits (p : positive) : list Z :=
  match p with xH => [] | xO p => 0 :: pos_bits p | xI p => 1 :: pos_bits p end.
Fixpoint bits_pos (l : list Z) : positive :=
  match l with [] => xH | b :: l => if b =? 0 then xO (bits_pos l) else xI (bits_pos l) end.
Lemma bits_pos_bits p : bits_pos (pos_bits p) = p.
Proof. by induction p as [p IH|p IH|]; simpl; f_equal. Qed.
Lemma pos_bits_bytes p : Forall (fun b => 0 <= b < 256) (pos_bits p).
Proof. induction p; simpl; constructor; (lia || done). Qed.

Definition toy_package : @TxPackage Signing.toy_crypto := {|
  Tx := toy_tx;
  NewTransaction n to v g gp d := (n, Some to, v, g, gp, d, 0, [], 0);
  NewTransactionWithMap m := Ok (m_Nonce m, Some (m_To m), m_Amount m, m_GasLimit m, m_GasPrice m, m_Data m,
                                  m_From m, [], m_FeePayer m);
  SignTx tx c k := let '(cl, fr, _, py) := tx in Ok (cl, fr, [(c, 1, 2)], py);
  SignTxAsFeePayer tx c k := Ok tx;
  From tx := Ok tx.1.1.2; To tx := tx.1.1.1.1.1.1.1.2; tx_Nonce tx := tx.1.1.1.1.1.1.1.1;
  tx_Value tx := tx.1.1.1.1.1.1.2; Gas tx := tx.1.1.1.1.1.2; GasPrice tx := tx.1.1.1.1.2;
  Data tx := tx.1.1.1.2; tx_ChainId tx := 1001; RawSignatureValues tx := tx.1.2;
  SetSignature tx s := let '(cl, fr, _, py) := tx in (cl, fr, s, py);
  GetRlp tx := pos_bits (encode (tx : toy_tx));
  rlp_DecodeBytes bs := match decode (bits_pos bs) with Some tx => Ok (tx : toy_tx) | None => Err (External "rlp") end;
  HexToAddress s := Z.of_nat (String.length s); Hex a := Format 16 a
|}.

Lemma toy_package_laws : TxLaws toy_package.
Proof.
  constructor; try done.
  - intros m tx [= <-]. done.
  - intros [[[cl fr] sg] py] c k tx' [= <-]. done.
  - intros tx c k tx' [= <-]. done.
  - intros [[[cl fr] sg] py] s. done.
  - intros tx. simpl. rewrite bits_pos_bits, decode_encode. done.
  - intros tx. apply pos_bits_bytes.
Qed.

Definition w_answers : @ClientAnswers := mkAnswers (Ok 25) (fun _ _ => Err (External "revert")).
Definition w_helper : ChainHelper := mkChainHelper "77" 1001 "http://delegator"
  (Nonce.V2.mkManager (Nonce.nonces 5 100) "77").
(** A delegator that returns what it is sent, and a chain that mines it. *)
Definition w_submit : @SubmitEnv Signing.toy_crypto toy_package :=
  @mkSubmitEnv _ toy_package w_answers (fun p => Ok (Some (p_RawTx p))) w_answers
    (@mkSubmitAnswers _ toy_package (fun _ => None) (fun _ => Ok 1)).

Lemma direct_delegated_agree_witness : exists tx1 tx2 c1 c2,
  @MakeDirectTx toy_abi _ toy_package newAbiCache (Some w_answers) "0xab" "77" "submit(int256 a)" (Some 1001) 5 [3] = (Ok tx1, c1) /\
  @MakeFeeDelegatedTx toy_abi _ toy_package newAbiCache (Some w_answers) "0xab" "77" "submit(int256 a)" (Some 1001) 5 [3] = (Ok tx2, c2) /\
  call_of tx1 = call_of tx2 /\ c_gas (call_of tx1) = 6000000.
Proof.
  do 4 eexists. split; [reflexivity|]. split; [reflexivity|]. split; [|reflexivity].
  refine (proj1 (direct_delegated_agree (AP := toy_abi) (TL := toy_package_laws) newAbiCache w_answers "0xab" "77" "submit(int256 a)" 1001 5 [3]
    _ _ _ _ _ _)); reflexivity.
Defined.

Definition w_tx : toy_tx := (5, Some 4, 0, 6000000, 25, [3], 2, [(1001, 1, 2)], 0).

Lemma tx_hash_roundtrip_witness :
  @HashToTx _ toy_package ("0x" +:+ @TxToHash _ toy_package w_tx)%string = Ok w_tx.
Proof. exact (proj2 (tx_hash_roundtrip (TL := toy_package_laws) w_tx)). Defined.

Lemma abi_cache_transparent_witness :
  let cache := (@ReadContract toy_abi _ toy_package newAbiCache (Some (fun _ _ => Ok [])) "submit(int256 a)" "0xab" [3]).2 in
  (@MakeDirectTx toy_abi _ toy_package cache (Some w_answers) "0xab" "77" "submit(int256 a)" (Some 1001) 5 [3]).1 =
  (@MakeDirectTx toy_abi _ toy_package newAbiCache (Some w_answers) "0xab" "77" "submit(int256 a)" (Some 1001) 5 [3]).1.
Proof.
  intros cache. refine (proj1 (abi_cache_transparent (AP := toy_abi) cache (Some w_answers) "0xab" "77" "submit(int256 a)"
    (Some 1001) 5 [3] _ _)).
  - intros s a Hs. right. unfold cache in Hs.
    destruct (decide (s = "submit(int256 a)"%string)) as [->|Hne].
    + vm_compute in Hs. vm_compute. by simplify_eq.
    + exfalso. assert (AbiMap cache = {[ "submit(int256 a)"%string := mkAbiWithFunctionName (() : @ABI toy_abi) "submit" ]}) as Hc
        by reflexivity.
      unfold cache in Hc. rewrite Hc in Hs. by rewrite lookup_singleton_ne in Hs.
  - intros f i o. unfold GenerateCallABI, GenerateViewABI, generateABI. by case_bool_decide.
Defined.

Lemma submission_one_nonce_witness : exists t' c' sent err,
  @SubmitDelegatedFallbackDirect toy_abi _ toy_package w_submit w_helper newAbiCache "0xab" "submit(int256 a)" [3]
    = Some (t', c', (sent, err)) /\ (length sent <= 1)%nat.
Proof.
  destruct (submission_one_nonce (AP := toy_abi) (TL := toy_package_laws) w_submit w_helper newAbiCache "0xab"
    "submit(int256 a)" [3]) as (t' & c' & sent & err & Hs & _ & Hl & _).
  - exists 5, 100%nat. split_and!; [reflexivity|by vm_compute|unfold Nonce.V2.poolSize; lia..].
  - intros tx0 p raw tx Hp [= <-] Hh.
    assert (p_RawTx p = "0x" +:+ @TxToHash _ toy_package tx0)%string as Hr.
    { unfold MakePayload in Hp. simpl in Hp. destruct (_.1.1.1.1.1.1.1.2); [|done]. simpl in Hp.
      destruct (tx0.1.2) as [|[[? ?] ?] ?]; [done|]. by simplify_eq/=. }
    rewrite Hr, (proj2 (@roundtrip_lemma _ toy_package toy_package_laws tx0)) in Hh. by simplify_eq.
  - eauto 10.
Defined.
End Chain.
