(* ===== verification/Delegator.v ===== *)
(** * The delegator

    [node/pkg/delegator]: a service that signs transactions as the fee payer.
    [Db] holds the tables with the constraints of
    [node/migrations/delegator] and the statements of the [queries.go] files,
    [Admin] the controllers of organizations, reporters, contracts and functions,
    [Sign] the signing controller, [Whole] the reporter's side and the delegator
    together.

    A handler runs in the monad [M]: it reads and changes the world (the tables
    and the fee payer's key), fails, or panics.  [faults] lists, for the
    statements to come, whether the database refuses them for reasons of its own
    (connection, limits of columns). *)

From S2P Require Import Prelude Errors Wire Text Signing Nonce Strings Float Abi Chain Util.
From Stdlib Require Import Ascii.
Import Text Strings Chain.

Local Open Scope Z_scope.

(** ** The tables *)
Module Db.

Record Organization : Type := mkOrganization { og_id : Z; og_name : string }.
Record Reporter : Type := mkReporter { rp_id : Z; rp_address : string; rp_organization : Z }.
Record Contract : Type := mkContract { ct_id : Z; ct_address : string }.
Record Function_ : Type := mkFunction { fn_id : Z; fn_name : string; fn_encodedName : string; fn_contract : Z }.

(** A row of [transactions]; [s_body] holds the twelve texts of the payload. *)
Record SignModel : Type := mkSignModel {
  s_Id : Z; s_Timestamp : Time; s_body : SignInsertPayload; s_SignedRawTx : option string;
  s_Succeed : option bool; s_FunctionId : option Z; s_ContractId : option Z; s_ReporterId : option Z
}.

(** [serial]: the number a [BIGSERIAL] column hands out next; it is used up also
    by an insertion that fails. *)
Record Tables : Type := mkTables {
  serial : Z;
  organizations : list Organization; reporters : list Reporter; contracts : list Contract;
  functions : list Function_; links : list (Z * Z); transactions : list SignModel
}.

Definition violation : error := External "constraint violation".

Definition next (t : Tables) : Tables :=
  mkTables (serial t + 1) (organizations t) (reporters t) (contracts t) (functions t) (links t) (transactions t).
Definition set_organizations (x : list Organization) (t : Tables) : Tables :=
  mkTables (serial t) x (reporters t) (contracts t) (functions t) (links t) (transactions t).
Definition set_reporters (x : list Reporter) (t : Tables) : Tables :=
  mkTables (serial t) (organizations t) x (contracts t) (functions t) (links t) (transactions t).
Definition set_contracts (x : list Contract) (t : Tables) : Tables :=
  mkTables (serial t) (organizations t) (reporters t) x (functions t) (links t) (transactions t).
Definition set_functions (x : list Function_) (t : Tables) : Tables :=
  mkTables (serial t) (organizations t) (reporters t) (contracts t) x (links t) (transactions t).
Definition set_links (x : list (Z * Z)) (t : Tables) : Tables :=
  mkTables (serial t) (organizations t) (reporters t) (contracts t) (functions t) x (transactions t).
Definition set_transactions (x : list SignModel) (t : Tables) : Tables :=
  mkTables (serial t) (organizations t) (reporters t) (contracts t) (functions t) (links t) x.

(** A statement: its rows or an error, and the tables after it. *)
Definition stmt (A : Type) : Type := Tables -> res A * Tables.

Definition select {A} (f : Tables -> A) : stmt A := fun t => (Ok (f t), t).

Definition InsertOrganization (name : string) : stmt (list Organization) := fun t =>
  let row := mkOrganization (serial t) name in
  if bool_decide (name ∈ (og_name <$> organizations t)) then (Err violation, next t)
  else (Ok [row], set_organizations (organizations t ++ [row]) (next t)).
Definition UpdateOrganization (id : Z) (name : string) : stmt (list Organization) := fun t =>
  let rest := filter (fun o => og_id o <> id) (organizations t) in
  if bool_decide (Exists (fun o => og_id o = id) (organizations t)) then
    if bool_decide (name ∈ (og_name <$> rest)) then (Err violation, t)
    else (Ok [mkOrganization id name], set_organizations (rest ++ [mkOrganization id name]) t)
  else (Ok [], t).

(** [ON DELETE SET NULL] of the transactions' columns. *)
Definition clear_refs (fn ct : list Z) (rp : list Z) (t : Tables) : Tables :=
  let keep l x := match x with Some i => if bool_decide (i ∈ (l : list Z)) then None else Some i | None => None end in
  set_transactions ((fun r => mkSignModel (s_Id r) (s_Timestamp r) (s_body r) (s_SignedRawTx r) (s_Succeed r)
     (keep fn (s_FunctionId r)) (keep ct (s_ContractId r)) (keep rp (s_ReporterId r))) <$> transactions t) t.

(** Reporters go with their links. *)
Definition drop_reporters (gone : list Z) (t : Tables) : Tables :=
  clear_refs [] [] gone
    (set_links (filter (fun l => l.2 ∉ gone) (links t))
      (set_reporters (filter (fun r => rp_id r ∉ gone) (reporters t)) t)).

Definition DeleteOrganization (id : Z) : stmt (list Organization) := fun t =>
  let gone := filter (fun o => og_id o = id) (organizations t) in
  let members := rp_id <$> filter (fun r => rp_organization r = id) (reporters t) in
  (Ok gone, drop_reporters members (set_organizations (filter (fun o => og_id o <> id) (organizations t)) t)).

(** A null organization violates [NOT NULL]. *)
Definition InsertReporter (address : string) (org : option Z) : stmt (list Reporter) := fun t =>
  match org with
  | Some org =>
      if bool_decide (address ∈ (rp_address <$> reporters t)) || negb (bool_decide (org ∈ (og_id <$> organizations t)))
      then (Err violation, next t)
      else let row := mkReporter (serial t) address org in
           (Ok [row], set_reporters (reporters t ++ [row]) (next t))
  | None => (Err violation, next t)
  end.
Definition UpdateReporterById (id : Z) (address : string) (org : option Z) : stmt (list Reporter) := fun t =>
  let rest := filter (fun r => rp_id r <> id) (reporters t) in
  if bool_decide (Exists (fun r => rp_id r = id) (reporters t)) then
    match org with
    | Some org =>
        if bool_decide (address ∈ (rp_address <$> rest)) || negb (bool_decide (org ∈ (og_id <$> organizations t)))
        then (Err violation, t)
        else (Ok [mkReporter id address org], set_reporters (rest ++ [mkReporter id address org]) t)
    | None => (Err violation, t)
    end
  else (Ok [], t).
Definition DeleteReporterById (id : Z) : stmt (list Reporter) := fun t =>
  (Ok (filter (fun r => rp_id r = id) (reporters t)), drop_reporters [id] t).

Definition InsertContract (address : string) : stmt (list Contract) := fun t =>
  let row := mkContract (serial t) address in
  if bool_decide (address ∈ (ct_address <$> contracts t)) then (Err violation, next t)
  else (Ok [row], set_contracts (contracts t ++ [row]) (next t)).
Definition UpdateContract (id : Z) (address : string) : stmt (list Contract) := fun t =>
  let rest := filter (fun c => ct_id c <> id) (contracts t) in
  if bool_decide (Exists (fun c => ct_id c = id) (contracts t)) then
    if bool_decide (address ∈ (ct_address <$> rest)) then (Err violation, t)
    else (Ok [mkContract id address], set_contracts (rest ++ [mkContract id address]) t)
  else (Ok [], t).
(** Functions restrict the deletion of their contract. *)
Definition DeleteContract (id : Z) : stmt (list Contract) := fun t =>
  let gone := filter (fun c => ct_id c = id) (contracts t) in
  if bool_decide (gone <> [] /\ Exists (fun f => fn_contract f = id) (functions t)) then (Err violation, t)
  else (Ok gone, clear_refs [] [id] []
                   (set_links (filter (fun l => l.1 <> id) (links t))
                      (set_contracts (filter (fun c => ct_id c <> id) (contracts t)) t))).

Definition ConnectReporter (contractId reporterId : Z) : stmt () := fun t =>
  if bool_decide ((contractId, reporterId) ∈ links t) || negb (bool_decide (contractId ∈ (ct_id <$> contracts t)))
     || negb (bool_decide (reporterId ∈ (rp_id <$> reporters t)))
  then (Err violation, t)
  else (Ok (), set_links (links t ++ [(contractId, reporterId)]) t).
Definition DisconnectReporter (contractId reporterId : Z) : stmt () := fun t =>
  (Ok (), set_links (filter (fun l => l <> (contractId, reporterId)) (links t)) t).

Definition InsertFunction (name encodedName : string) (contract : Z) : stmt (list Function_) := fun t =>
  let row := mkFunction (serial t) name encodedName contract in
  if bool_decide ((encodedName, contract) ∈ ((fun f => (fn_encodedName f, fn_contract f)) <$> functions t))
     || negb (bool_decide (contract ∈ (ct_id <$> contracts t)))
  then (Err violation, next t)
  else (Ok [row], set_functions (functions t ++ [row]) (next t)).
Definition UpdateFunctionById (id : Z) (name encodedName : string) (contract : Z) : stmt (list Function_) := fun t =>
  let rest := filter (fun f => fn_id f <> id) (functions t) in
  let row := mkFunction id name encodedName contract in
  if bool_decide (Exists (fun f => fn_id f = id) (functions t)) then
    if bool_decide ((encodedName, contract) ∈ ((fun f => (fn_encodedName f, fn_contract f)) <$> rest))
       || negb (bool_decide (contract ∈ (ct_id <$> contracts t)))
    then (Err violation, t)
    else (Ok [row], set_functions (rest ++ [row]) t)
  else (Ok [], t).
Definition DeleteFunctionById (id : Z) : stmt (list Function_) := fun t =>
  (Ok (filter (fun f => fn_id f = id) (functions t)),
   clear_refs [id] [] [] (set_functions (filter (fun f => fn_id f <> id) (functions t)) t)).

(** The queries of the signing controller. *)
Definition GetContractByAddress (address : string) (t : Tables) : list Contract :=
  filter (fun c => ct_address c = address) (contracts t).
Definition GetReporterByFromAndTo (from to : string) (t : Tables) : list Reporter :=
  filter (fun r => rp_address r = from /\
            Exists (fun l => l.2 = rp_id r /\ l.1 ∈ (ct_id <$> GetContractByAddress to t)) (links t)) (reporters t).
Definition GetFunctionByToAndEncodedName (to encodedName : string) (t : Tables) : list Function_ :=
  filter (fun f => fn_contract f ∈ (ct_id <$> GetContractByAddress to t) /\ fn_encodedName f = encodedName)
    (functions t).

(** Names that the caller does not supply are null. *)
Definition InsertTransaction (ts : Time) (body : SignInsertPayload) (signed : option string) (succeed : option bool)
    : stmt (list SignModel) := fun t =>
  let row := mkSignModel (serial t) ts body signed succeed None None None in
  (Ok [row], set_transactions (transactions t ++ [row]) (next t)).
Definition UpdateTransaction (row : SignModel) : stmt (list SignModel) := fun t =>
  let refs := match s_FunctionId row with Some i => bool_decide (i ∈ (fn_id <$> functions t)) | None => true end
           && match s_ContractId row with Some i => bool_decide (i ∈ (ct_id <$> contracts t)) | None => true end
           && match s_ReporterId row with Some i => bool_decide (i ∈ (rp_id <$> reporters t)) | None => true end in
  if bool_decide (Exists (fun r => s_Id r = s_Id row) (transactions t)) then
    if refs then (Ok [row], set_transactions ((fun r => if bool_decide (s_Id r = s_Id row) then row else r) <$> transactions t) t)
    else (Err violation, t)
  else (Ok [], t).

End Db.

(** ** Handlers *)
Module Handler.
Import Db.

(** [w_feePayer]: the package variable [feePayer]. *)
Record World : Type := mkWorld { w_tables : Tables; w_feePayer : string; w_faults : list (option error) }.

Inductive outcome (A : Type) : Type :=
| Done (a : A)
| Fail (e : error)
| Panic.
Arguments Done {A} _.
Arguments Fail {A} _.
Arguments Panic {A}.

Definition M (A : Type) : Type := World -> outcome A * World.
Definition ret {A} (a : A) : M A := fun w => (Done a, w).
Definition fail {A} (e : error) : M A := fun w => (Fail e, w).
Definition panic {A} : M A := fun w => (Panic, w).
Arguments ret {A} _ _ /.
Arguments fail {A} _ _ /.
Arguments panic {A} _ /.
Definition bind {A B} (m : M A) (f : A -> M B) : M B := fun w =>
  match m w with
  | (Done a, w) => f a w
  | (Fail e, w) => (Fail e, w)
  | (Panic, w) => (Panic, w)
  end.
Definition lift {A} (r : res A) : M A := match r with Ok a => ret a | Err e => fail e end.
Definition lift_opt {A} (r : option (res A)) : M A := match r with Some r => lift r | None => panic end.

End Handler.
Notation "'do?' x <- m ; k" := (Handler.bind m (fun x => k))
  (at level 10, x pattern, m at level 100, k at level 200) : go_scope.

Module Query.
Import Db Handler.

(** Send a statement: the database may refuse it before it runs. *)
Definition send {A} (s : stmt A) : M (res A) := fun w =>
  match w_faults w with
  | Some e :: fs => (Fail e, mkWorld (w_tables w) (w_feePayer w) fs)
  | fs => let '(r, t) := s (w_tables w) in (Done r, mkWorld t (w_feePayer w) (tail fs))
  end.

Definition QueryRows {A} (s : stmt (list A)) : M (list A) := bind (send s) lift.
(** The first row; [None] stands for the zero value, which is returned without
    an error when there is none. *)
Definition QueryRow {A} (s : stmt (list A)) : M (option A) := bind (QueryRows s) (fun l => ret (head l)).
(** The error of the execution is in [rows.Err()], which is not looked at. *)
Definition RawQueryWithoutReturn (s : stmt ()) : M () := bind (send s) (fun _ => ret ()).
End Query.

(** ** Controllers of the tables *)
Module Admin.
Import Db Handler Query.
Local Open Scope go_scope.

Definition invalid : error := External "validation failed".
(** [validate:"required"]. *)
Definition required (s : string) : bool := negb (bool_decide (s = ""%string)).

(** The path parameter, [None] when it is not a number: the database rejects it. *)
Definition with_id {A} (id : option Z) (s : Z -> stmt (list A)) : stmt (list A) := fun t =>
  match id with Some id => s id t | None => (Err (External "invalid input syntax for type bigint"), t) end.
Definition by_id {A} (f : Z -> Tables -> list A) (id : Z) : stmt (list A) := select (f id).

Definition GetContractById (id : Z) (t : Tables) : list Contract := filter (fun c => ct_id c = id) (contracts t).
Definition GetConnectedReporters (contractId : option Z) (t : Tables) : list Reporter :=
  match contractId with
  | Some i => filter (fun r => (i, rp_id r) ∈ links t) (reporters t)
  | None => []
  end.
Definition GetConnectedFunctions (contractId : option Z) (t : Tables) : list Function_ :=
  match contractId with Some i => filter (fun f => fn_contract f = i) (functions t) | None => [] end.
Definition GetConnectedContracts (reporterId : option Z) (t : Tables) : list Contract :=
  match reporterId with Some i => filter (fun c => (ct_id c, i) ∈ links t) (contracts t) | None => [] end.

(** *** contract/controller.go *)
Record ContractDetailModel : Type := mkContractDetail {
  cd_id : option Z; cd_address : string; cd_reporter : list string; cd_encodedName : list string
}.

Definition contract_insert (payload : res string) : M (option Contract) :=
  do? address <- lift payload;
  if negb (required address) then fail invalid else QueryRow (InsertContract (ToLower address)).

Definition contract_detail (c : option Contract) : M ContractDetailModel :=
  let id := ct_id <$> c in
  do? rs <- QueryRows (select (GetConnectedReporters id));
  do? fs <- QueryRows (select (GetConnectedFunctions id));
  ret (mkContractDetail id (default ""%string (ct_address <$> c)) (rp_address <$> rs) (fn_encodedName <$> fs)).

Fixpoint each {A B} (f : A -> M B) (l : list A) : M (list B) :=
  match l with
  | [] => ret []
  | a :: l => do? b <- f a; do? bs <- each f l; ret (b :: bs)
  end.

Definition contract_get : M (list ContractDetailModel) :=
  do? cs <- QueryRows (select contracts); each (fun c => contract_detail (Some c)) cs.
Definition contract_getById (id : option Z) : M ContractDetailModel :=
  do? c <- QueryRow (with_id id (by_id GetContractById)); contract_detail c.

Definition connectReporter (payload : res (option Z * option Z)) : M () :=
  do? p <- lift payload;
  match p with
  | (Some contractId, Some reporterId) => RawQueryWithoutReturn (ConnectReporter contractId reporterId)
  | _ => fail invalid
  end.
Definition disconnectReporter (payload : res (option Z * option Z)) : M () :=
  do? p <- lift payload;
  match p with
  | (Some contractId, Some reporterId) => RawQueryWithoutReturn (DisconnectReporter contractId reporterId)
  | _ => fail invalid
  end.

(** Unlike [insert], the address is stored as it comes. *)
Definition contract_updateById (id : option Z) (payload : res string) : M (option Contract) :=
  do? address <- lift payload;
  if negb (required address) then fail invalid else QueryRow (with_id id (fun id => UpdateContract id address)).
Definition contract_deleteById (id : option Z) : M (option Contract) := QueryRow (with_id id DeleteContract).

(** *** reporter/controller.go *)
Record ReporterDetailModel : Type := mkReporterDetail {
  rd_id : option Z; rd_address : string; rd_organization : string; rd_contract : list string
}.
Definition reporter_insert (payload : res (string * option Z)) : M (option Reporter) :=
  do? p <- lift payload;
  if negb (required p.1) then fail invalid else QueryRow (InsertReporter (ToLower p.1) p.2).
Definition GetOrganizationName (organizationId : option Z) (t : Tables) : list string :=
  match organizationId with
  | Some i => og_name <$> filter (fun o => og_id o = i) (organizations t)
  | None => []
  end.
Definition reporter_detail (r : option Reporter) : M ReporterDetailModel :=
  do? organizationName <- QueryRow (select (GetOrganizationName (rp_organization <$> r)));
  do? cs <- QueryRows (select (GetConnectedContracts (rp_id <$> r)));
  ret (mkReporterDetail (rp_id <$> r) (default ""%string (rp_address <$> r)) (default ""%string organizationName)
         (ct_address <$> cs)).
Definition reporter_get : M (list ReporterDetailModel) :=
  do? rs <- QueryRows (select reporters); each (fun r => reporter_detail (Some r)) rs.
Definition GetReporterById (id : Z) (t : Tables) : list Reporter := filter (fun r => rp_id r = id) (reporters t).
Definition reporter_getById (id : option Z) : M ReporterDetailModel :=
  do? r <- QueryRow (with_id id (by_id GetReporterById)); reporter_detail r.
Definition reporter_updateById (id : option Z) (payload : res (string * option Z)) : M (option Reporter) :=
  do? p <- lift payload;
  if negb (required p.1) then fail invalid else QueryRow (with_id id (fun id => UpdateReporterById id p.1 p.2)).
Definition reporter_deleteById (id : option Z) : M (option Reporter) := QueryRow (with_id id DeleteReporterById).

(** *** organization/controller.go *)
Definition organization_insert (payload : res string) : M (option Organization) :=
  do? name <- lift payload;
  if negb (required name) then fail invalid else QueryRow (InsertOrganization name).
Definition organization_get : M (list Organization) := QueryRows (select organizations).
Definition organization_getById (id : option Z) : M (option Organization) :=
  QueryRow (with_id id (by_id (fun id t => filter (fun o => og_id o = id) (organizations t)))).
(** The payload is not validated. *)
Definition organization_updateById (id : option Z) (payload : res string) : M (option Organization) :=
  do? name <- lift payload; QueryRow (with_id id (fun id => UpdateOrganization id name)).
Definition organization_deleteById (id : option Z) : M (option Organization) := QueryRow (with_id id DeleteOrganization).

(** *** function/controller.go *)
Record FunctionDetailModel : Type := mkFunctionDetail {
  fd_id : option Z; fd_name : string; fd_encodedName : string; fd_address : string
}.
Section functions.
Context {CR : Crypto}.

(** The selector of a function: the first four bytes of the hash of its name. *)
Definition encodeName (name : string) : string :=
  ("0x" +:+ EncodeToString (take 4 (Keccak256 (Signing.string_bytes name))))%string.

Definition function_insert (payload : res (string * option Z)) : M (option Function_) :=
  do? p <- lift payload;
  match p with
  | (name, Some contractId) =>
      if negb (required name) then fail invalid
      else QueryRow (InsertFunction name (encodeName name) contractId)
  | (_, None) => fail invalid
  end.
Definition function_detail (f : option Function_) : M FunctionDetailModel :=
  do? c <- QueryRow (select (fun t => match fn_contract <$> f with Some i => GetContractById i t | None => [] end));
  ret (mkFunctionDetail (fn_id <$> f) (default ""%string (fn_name <$> f)) (default ""%string (fn_encodedName <$> f))
         (default ""%string (ct_address <$> c))).
Definition function_get : M (list FunctionDetailModel) :=
  do? fs <- QueryRows (select functions); each (fun f => function_detail (Some f)) fs.
Definition GetFunctionById (id : Z) (t : Tables) : list Function_ := filter (fun f => fn_id f = id) (functions t).
Definition function_getById (id : option Z) : M FunctionDetailModel :=
  do? f <- QueryRow (with_id id (by_id GetFunctionById)); function_detail f.
Definition function_updateById (id : option Z) (payload : res (string * option Z)) : M (option Function_) :=
  do? p <- lift payload;
  match p with
  | (name, Some contractId) =>
      if negb (required name) then fail invalid
      else QueryRow (with_id id (fun id => UpdateFunctionById id name (encodeName name) contractId))
  | (_, None) => fail invalid
  end.
Definition function_deleteById (id : option Z) : M (option Function_) := QueryRow (with_id id DeleteFunctionById).
End functions.
End Admin.

(** ** sign/controller.go *)
Module Sign.
Import Db Handler Query Admin.
Local Open Scope go_scope.

(** [new(big.Int).SetString(s, 0)]: the base comes from the prefix, underscores
    may separate digits. *)
Definition SetString0 (s : string) : option Z :=
  let '(neg, l) := Float.read_sign (chars s) in
  let '(b, prefixed, l) :=
    match l with
    | "0"%char :: "x"%char :: l' | "0"%char :: "X"%char :: l' => (16, true, l')
    | "0"%char :: "b"%char :: l' | "0"%char :: "B"%char :: l' => (2, true, l')
    | "0"%char :: "o"%char :: l' | "0"%char :: "O"%char :: l' => (8, true, l')
    | "0"%char :: c :: l' => (8, true, c :: l')
    | _ => (10, false, l)
    end in
  digits ← Float.drop_underscores b prefixed l;
  v ← value b digits;
  Some (if neg then - v else v).
(** [SetString(s, 16)]. *)
Definition SetString16 (s : string) : option Z :=
  let '(neg, l) := Float.read_sign (chars s) in
  v ← value 16 l; Some (if neg then - v else v).
(** [strconv.ParseUint(s, 16, 64)]. *)
Definition ParseUint16 (s : string) : option uint64 :=
  v ← value 16 (chars s); if v <? 2 ^ 64 then Some v else None.

(** [s[n:]] and [s[:n]], which panic past the end. *)
Definition slice_from (n : nat) (s : string) : M string :=
  if (n <=? String.length s)%nat then ret (text (drop n (chars s))) else panic.
Definition slice_to (n : nat) (s : string) : M string :=
  if (n <=? String.length s)%nat then ret (text (take n (chars s))) else panic.

Definition or_fail {A} (msg : string) (o : option A) : M A :=
  match o with Some a => ret a | None => fail (External msg) end.

(** The request's payload: the twelve texts, and what a client may add. *)
Record SignPayload : Type := mkSignPayload {
  sp_body : SignInsertPayload; sp_SignedRawTx : option string; sp_Succeed : option bool
}.

Definition all_required (b : SignInsertPayload) : bool :=
  forallb required [p_From b; p_To b; p_Input b; p_Gas b; p_Value b; p_ChainId b; p_GasPrice b; p_Nonce b;
                    p_V b; p_R b; p_S b; p_RawTx b].
Definition lower_addresses (b : SignInsertPayload) : SignInsertPayload :=
  mkPayload (ToLower (p_From b)) (ToLower (p_To b)) (p_Input b) (p_Gas b) (p_Value b) (p_ChainId b) (p_GasPrice b)
    (p_Nonce b) (p_V b) (p_R b) (p_S b) (p_RawTx b).

Definition parse (payload : res SignPayload) : M SignPayload := lift payload.
Definition validate (b : SignInsertPayload) : M () := if all_required b then ret () else fail invalid.

(** [c.Locals("feePayer")], set when the request came in. *)
Definition GetFeePayer : M string := fun w => (Done (w_feePayer w), w).
Definition UpdateFeePayer_ (pk : string) : M () := fun w => (Done (), mkWorld (w_tables w) pk (w_faults w)).

Definition zero_payload : SignInsertPayload := mkPayload "" "" "" "" "" "" "" "" "" "" "" "".
Definition zero_row : SignModel := mkSignModel 0 0 zero_payload None None None None None.

Definition insertTransaction (now : Time) (p : SignPayload) : M SignModel :=
  do? r <- QueryRow (InsertTransaction now (sp_body p) (sp_SignedRawTx p) (sp_Succeed p)); ret (default zero_row r).
Definition updateTransaction (tx : SignModel) : M SignModel :=
  do? r <- QueryRow (UpdateTransaction tx); ret (default zero_row r).

Definition validateTransaction (tx : SignModel) : M SignModel :=
  let to := p_To (s_body tx) in
  do? encodedName <- slice_to 10 (p_Input (s_body tx));
  do? contract <- QueryRow (select (GetContractByAddress to));
  do? fs <- QueryRows (select (GetFunctionByToAndEncodedName to encodedName));
  do? rs <- QueryRows (select (GetReporterByFromAndTo (p_From (s_body tx)) to));
  match fs, rs, contract with
  | [f], [r], Some c =>
      ret (mkSignModel (s_Id tx) (s_Timestamp tx) (s_body tx) (s_SignedRawTx tx) (s_Succeed tx)
             (Some (fn_id f)) (Some (ct_id c)) (Some (rp_id r)))
  | [], _, _ | _, [], _ | _, _, None => fail (External "not approved transaction")
  | _, _, _ => fail (External "unexpected result length")
  end.

(** [validContracts]: the map of the request.  Its result is the map after the
    call. *)
Definition validateContractAddress (validContracts : gset string) (address : string) : M (gset string) := fun w =>
  if bool_decide (address ∈ validContracts) then (Done validContracts, w)
  else
    match QueryRow (select (GetContractByAddress address)) w with
    | (Done (Some _), w) => (Done ({[address]} ∪ validContracts), w)
    | (Panic, w) => (Panic, w)
    | (_, w) => (Fail (External "not approved contract address"), w)
    end.

Section signing.
Context {CR : Crypto} {TP : TxPackage}.

Definition GetPublicKey (pk : string) : res string :=
  let pk := TrimPrefix pk "0x" in
  if (String.length pk =? 110)%nat then Err (External "klaytn wallet key is given instead of private key")
  else match HexToECDSA pk with
       | Err e => Err (External ("failed to convert private key to ECDSA: " +:+ Error e)%string)
       | Ok privateKeyECDSA => Ok (Hex (PubkeyToAddress (Public privateKeyECDSA)))
       end.

(** A text of the signature that does not parse is a nil number, encoded as 0. *)
Definition CreateUnsignedTx (b : SignInsertPayload) (feePayerPublicKey : string) : M Tx :=
  do? n <- slice_from 2 (p_Nonce b);
  do? nonce <- or_fail "nonce" (ParseUint16 n);
  let to := HexToAddress (p_To b) in
  do? value <- or_fail "failed to convert value to big.Int" (SetString0 (p_Value b));
  do? g <- slice_from 2 (p_Gas b);
  do? gas <- or_fail "gas" (ParseUint16 g);
  do? gasPrice <- or_fail "failed to convert gas price to big.Int" (SetString0 (p_GasPrice b));
  do? d <- slice_from 2 (p_Input b);
  do? data <- or_fail "input" (DecodeString d);
  let from := HexToAddress (p_From b) in
  let feePayer := HexToAddress feePayerPublicKey in
  do? transaction <- lift (NewTransactionWithMap (mkTxMap nonce gasPrice gas to value from data feePayer));
  let num s := default 0 (SetString0 s) in
  ret (SetSignature transaction [(num (p_V b), num (p_R b), num (p_S b))]).

Definition signTxByFeePayer (tx : SignModel) : M SignModel :=
  do? pk <- GetFeePayer;
  do? feePayerKey <- lift (HexToECDSA pk);
  do? feePayerPublicKey <- lift (GetPublicKey pk);
  do? transaction <- CreateUnsignedTx (s_body tx) feePayerPublicKey;
  do? c <- slice_from 2 (p_ChainId (s_body tx));
  do? chainId <- or_fail "failed to convert chainId to big.Int" (SetString16 c);
  do? signed <- lift (SignTxAsFeePayer transaction chainId feePayerKey);
  ret (mkSignModel (s_Id tx) (s_Timestamp tx) (s_body tx) (Some ("0x" +:+ EncodeToString (GetRlp signed))%string)
         (Some true) (s_FunctionId tx) (s_ContractId tx) (s_ReporterId tx)).

(** The same as [UpdateFeePayer] of the chain utilities, with a message of its
    own. *)
Definition updateFeePayer (tx : Tx) (feePayer : Address) : option (res Tx) :=
  match From tx with
  | Err e => Some (Err e)
  | Ok from =>
      match To tx with
      | None => Some (Err (External "to address is nil"))
      | Some to =>
          let remap := mkTxMap (tx_Nonce tx) (GasPrice tx) (Gas tx) to (tx_Value tx) from (Data tx) feePayer in
          match NewTransactionWithMap remap with
          | Err _ => None
          | Ok newTx => Some (Ok (SetSignature newTx (RawSignatureValues tx)))
          end
      end
  end.

Definition signTxByFeePayerV2 (tx : Tx) : M Tx :=
  do? pk <- GetFeePayer;
  do? feePayerKey <- lift (HexToECDSA pk);
  do? updatedTx <- lift_opt (updateFeePayer tx (PubkeyToAddress (Public feePayerKey)));
  lift (SignTxAsFeePayer updatedTx (tx_ChainId tx) feePayerKey).

(** [POST /sign] *)
Definition insert (now : Time) (payload : res SignPayload) : M SignModel :=
  do? p <- parse payload;
  do? _ <- validate (sp_body p);
  let p := mkSignPayload (lower_addresses (sp_body p)) (sp_SignedRawTx p) (sp_Succeed p) in
  do? tx <- insertTransaction now p;
  do? tx <- validateTransaction tx;
  do? tx <- signTxByFeePayer tx;
  updateTransaction tx.

(** [POST /sign/volatile]: the signed transaction. *)
Definition onlySign (payload : res SignPayload) : M string :=
  do? p <- parse payload;
  do? _ <- validate (sp_body p);
  do? transaction <- lift (HashToTx (p_RawTx (sp_body p)));
  do? signedTransaction <- signTxByFeePayerV2 transaction;
  ret (TxToHash signedTransaction).

(** A deferred step, whose error is only logged. *)
Definition deferred (m : M SignModel) : M () := fun w =>
  match m w with
  | (Panic, w) => (Panic, w)
  | (_, w) => (Done (), w)
  end.

(** [POST /sign/v2]: the map of valid contracts is new for each request. *)
Definition insertV2 (now : Time) (payload : res SignPayload) : M string :=
  do? p <- parse payload;
  do? transaction <- lift (HashToTx (p_RawTx (sp_body p)));
  do? _ <- validate (sp_body p);
  do? _ <- validateContractAddress ∅ (ToLower (p_To (sp_body p)));
  do? signedTransaction <- signTxByFeePayerV2 transaction;
  let signedRawTxHash := TxToHash signedTransaction in
  do? _ <- deferred (insertTransaction now
             (mkSignPayload (lower_addresses (sp_body p)) (Some signedRawTxHash) (Some true)));
  ret signedRawTxHash.

(** [GET /sign/feePayer] *)
Definition getFeePayerAddress : M string :=
  do? pk <- GetFeePayer;
  do? privateKey <- lift (HexToECDSA pk);
  let result := Hex (PubkeyToAddress (Public privateKey)) in
  ret (if HasPrefix result "0x" then result else ("0x" +:+ result)%string).
End signing.

(** [GET /sign] and [GET /sign/:id] *)
Definition get : M (list SignModel) := QueryRows (select transactions).
Definition getById (id : option Z) : M SignModel :=
  do? r <- QueryRow (with_id id (by_id (fun id t => filter (fun r => s_Id r = id) (transactions t))));
  ret (default zero_row r).

(** What the process's environment and the secret stores answer. *)
Record PkEnv : Type := mkPkEnv {
  envPk : string; useVault : bool; useGoogleSecretManager : bool;
  fromVault : res string; fromGSM : option (res string)
}.

(** [LoadFeePayerFromVault] and [LoadFeePayerFromGSM]: the prefix is cut; an empty
    secret is an error only in the second, where a refused access panics. *)
Definition LoadFeePayerFromVault (E : PkEnv) : res string := res_map (fun s => TrimPrefix s "0x") (fromVault E).
Definition LoadFeePayerFromGSM (E : PkEnv) : option (res string) :=
  match fromGSM E with
  | None => None
  | Some (Err e) => Some (Err e)
  | Some (Ok s) =>
      Some (if bool_decide (s = ""%string) then Err (External "failed to get secret from secret manager")
            else Ok (TrimPrefix s "0x"))
  end.

(** The variable is assigned also when loading fails: with the empty text. *)
Definition InitFeePayerPK (E : PkEnv) : M () :=
  do? _ <- UpdateFeePayer_ (envPk E);
  if negb (bool_decide (envPk E = ""%string)) then ret ()
  else if useVault E then
    match LoadFeePayerFromVault E with
    | Ok pk => UpdateFeePayer_ pk
    | Err e => do? _ <- UpdateFeePayer_ ""; fail e
    end
  else if useGoogleSecretManager E then
    match LoadFeePayerFromGSM E with
    | None => panic
    | Some (Ok pk) => UpdateFeePayer_ pk
    | Some (Err e) => do? _ <- UpdateFeePayer_ ""; fail e
    end
  else ret ().

(** [GET /sign/initialize?feePayerPrivateKey=pk] *)
Definition initialize (E : PkEnv) (pk : string) : M string :=
  if bool_decide (pk = ""%string) then do? _ <- InitFeePayerPK E; ret "Initialized"%string
  else do? _ <- UpdateFeePayer_ (TrimPrefix pk "0x"); ret "Initialized"%string.
End Sign.

(** ** The routes, and the invariant of the tables *)
Module Routes.
Import Db Handler Query Admin Sign.

(** The routes of [route.go] with their parsed payloads and path parameters. *)
Inductive request : Type :=
| PostOrganization (p : res string) | GetOrganizations | GetOrganization (id : option Z)
| PatchOrganization (id : option Z) (p : res string) | DelOrganization (id : option Z)
| PostReporter (p : res (string * option Z)) | GetReporters | GetReporter (id : option Z)
| PatchReporter (id : option Z) (p : res (string * option Z)) | DelReporter (id : option Z)
| PostContract (p : res string) | GetContracts | GetContract (id : option Z)
| PostConnectReporter (p : res (option Z * option Z)) | PostDisconnectReporter (p : res (option Z * option Z))
| PatchContract (id : option Z) (p : res string) | DelContract (id : option Z)
| PostFunction (p : res (string * option Z)) | GetFunctions | GetFunction (id : option Z)
| PatchFunction (id : option Z) (p : res (string * option Z)) | DelFunction (id : option Z)
| PostSign (p : res SignPayload) | PostSignV2 (p : res SignPayload) | PostVolatile (p : res SignPayload)
| GetInitialize (pk : string) | GetFeePayerAddress | GetSigns | GetSign (id : option Z).

Section routes.
Context {CR : Crypto} {TP : TxPackage}.

(** A request's effect, its answer left out; a panic is recovered by the
    middleware and leaves what was done. *)
Definition effect {A} (m : M A) (w : World) : World := (m w).2.

Definition serve (E : PkEnv) (now : Time) (r : request) : World -> World :=
  match r with
  | PostOrganization p => effect (organization_insert p)
  | GetOrganizations => effect organization_get
  | GetOrganization id => effect (organization_getById id)
  | PatchOrganization id p => effect (organization_updateById id p)
  | DelOrganization id => effect (organization_deleteById id)
  | PostReporter p => effect (reporter_insert p)
  | GetReporters => effect reporter_get
  | GetReporter id => effect (reporter_getById id)
  | PatchReporter id p => effect (reporter_updateById id p)
  | DelReporter id => effect (reporter_deleteById id)
  | PostContract p => effect (contract_insert p)
  | GetContracts => effect contract_get
  | GetContract id => effect (contract_getById id)
  | PostConnectReporter p => effect (connectReporter p)
  | PostDisconnectReporter p => effect (disconnectReporter p)
  | PatchContract id p => effect (contract_updateById id p)
  | DelContract id => effect (contract_deleteById id)
  | PostFunction p => effect (function_insert p)
  | GetFunctions => effect function_get
  | GetFunction id => effect (function_getById id)
  | PatchFunction id p => effect (function_updateById id p)
  | DelFunction id => effect (function_deleteById id)
  | PostSign p => effect (insert now p)
  | PostSignV2 p => effect (insertV2 now p)
  | PostVolatile p => effect (onlySign p)
  | GetInitialize pk => effect (initialize E pk)
  | GetFeePayerAddress => effect getFeePayerAddress
  | GetSigns => effect get
  | GetSign id => effect (getById id)
  end.

(** The keys are unique, and below the next serial number. *)
Definition fn_key (f : Function_) : string * Z := (fn_encodedName f, fn_contract f).
Record tables_ok (t : Tables) : Prop := {
  ok_ct_address : NoDup (ct_address <$> contracts t);
  ok_ct_id : NoDup (ct_id <$> contracts t);
  ok_ct_serial : Forall (fun c => ct_id c < serial t) (contracts t);
  ok_rp_address : NoDup (rp_address <$> reporters t);
  ok_fn_key : NoDup (fn_key <$> functions t)
}.

Definition fresh_tables : Tables := mkTables 1 [] [] [] [] [] [].
Lemma fresh_ok : tables_ok fresh_tables.
Proof. constructor; constructor. Qed.

Lemma NoDup_fmap_filter {A B} (f : A -> B) (P : A -> Prop) `{!forall x, Decision (P x)} l :
  NoDup (f <$> l) -> NoDup (f <$> filter P l).
Proof. intros Hl. eapply sublist_NoDup; [exact Hl|]. apply fmap_sublist, sublist_filter. Qed.
Lemma Forall_sub_filter {A} (Q P : A -> Prop) `{!forall x, Decision (P x)} l : Forall Q l -> Forall Q (filter P l).
Proof. rewrite !Forall_forall. intros Hl x [_ Hx]%list_elem_of_filter. by apply Hl. Qed.
Lemma NoDup_fmap_snoc {A B} (f : A -> B) l x : NoDup (f <$> l) -> f x ∉ (f <$> l) -> NoDup (f <$> (l ++ [x])).
Proof.
  intros Hl Hx. rewrite fmap_app, NoDup_app. split_and!; [done| |apply NoDup_singleton].
  intros y Hy. simpl. rewrite list_elem_of_singleton. intros ->. done.
Qed.

(** A statement that keeps the invariant. *)
Definition keeps {A} (s : stmt A) : Prop := forall t, tables_ok t -> tables_ok (s t).2.
Definition keepsM {A} (m : M A) : Prop := forall w, tables_ok (w_tables w) -> tables_ok (w_tables (m w).2).

Lemma keeps_select {A} (f : Tables -> A) : keeps (select f).
Proof. intros t Ht. exact Ht. Qed.
Lemma next_ok t : tables_ok t -> tables_ok (next t).
Proof.
  intros []. constructor; simpl; try done. eapply Forall_impl; [done|]. simpl. lia.
Qed.
Lemma clear_refs_ok fn ct rp t : tables_ok t -> tables_ok (clear_refs fn ct rp t).
Proof. intros []. by constructor. Qed.
Lemma drop_reporters_ok gone t : tables_ok t -> tables_ok (drop_reporters gone t).
Proof. intros []. apply clear_refs_ok. constructor; simpl; try done. by apply NoDup_fmap_filter. Qed.

Lemma keeps_contracts :
  (forall a, keeps (InsertContract a)) /\ (forall id a, keeps (UpdateContract id a)) /\
  (forall id, keeps (DeleteContract id)).
Proof.
  split_and!.
  - intros a t Ht. unfold InsertContract. case_bool_decide as Ha; simpl; [by apply next_ok|].
    destruct Ht. constructor; simpl; try done.
    + by apply NoDup_fmap_snoc.
    + apply NoDup_fmap_snoc; [done|]. simpl. intros (c & Hc & Hin)%list_elem_of_fmap.
      rewrite Forall_forall in ok_ct_serial0. specialize (ok_ct_serial0 _ Hin). lia.
    + apply Forall_app. split; [|constructor; [simpl; lia|done]]. eapply Forall_impl; [done|]. simpl. lia.
  - intros id a t Ht. unfold UpdateContract. repeat case_bool_decide; simpl; try done.
    destruct Ht. constructor; simpl; try done.
    + apply NoDup_fmap_snoc; [by apply NoDup_fmap_filter|done].
    + apply NoDup_fmap_snoc; [by apply NoDup_fmap_filter|]. simpl.
      intros (c & Hc & [Hne _]%list_elem_of_filter)%list_elem_of_fmap. done.
    + apply Forall_app. split; [by apply Forall_sub_filter|]. constructor; [|done]. simpl.
      apply Exists_exists in H as (c & Hin & <-). rewrite Forall_forall in ok_ct_serial0. by apply ok_ct_serial0.
  - intros id t Ht. unfold DeleteContract. case_bool_decide; simpl; [done|]. apply clear_refs_ok.
    destruct Ht. constructor; simpl; try done; [by apply NoDup_fmap_filter..|by apply Forall_sub_filter].
Qed.

Lemma keeps_reporters :
  (forall a o, keeps (InsertReporter a o)) /\ (forall id a o, keeps (UpdateReporterById id a o)) /\
  (forall id, keeps (DeleteReporterById id)) /\ (forall c r, keeps (ConnectReporter c r)) /\
  (forall c r, keeps (DisconnectReporter c r)).
Proof.
  split_and!.
  - intros a [o|] t Ht; simpl; [|by apply next_ok]. destruct (_ || _) eqn:Hc; simpl; [by apply next_ok|].
    breflect. apply next_ok in Ht as []. constructor; simpl in *; try done. by apply NoDup_fmap_snoc.
  - intros id a o t Ht. unfold UpdateReporterById. case_bool_decide; [|done]. destruct o as [o|]; [|done].
    destruct (_ || _) eqn:Hc; [done|]. breflect. destruct Ht. constructor; simpl; try done.
    apply NoDup_fmap_snoc; [by apply NoDup_fmap_filter|done].
  - intros id t Ht. by apply drop_reporters_ok.
  - intros c r t Ht. unfold ConnectReporter. destruct (_ || _); [done|]. destruct Ht. by constructor.
  - intros c r t Ht. destruct Ht. by constructor.
Qed.

Lemma keeps_functions :
  (forall n e c, keeps (InsertFunction n e c)) /\ (forall id n e c, keeps (UpdateFunctionById id n e c)) /\
  (forall id, keeps (DeleteFunctionById id)).
Proof.
  split_and!.
  - intros n e c t Ht. unfold InsertFunction. destruct (_ || _) eqn:Hc; simpl; [by apply next_ok|].
    breflect. apply next_ok in Ht as []. constructor; simpl in *; try done. by apply NoDup_fmap_snoc.
  - intros id n e c t Ht. unfold UpdateFunctionById. case_bool_decide; [|done].
    destruct (_ || _) eqn:Hc; [done|]. breflect. destruct Ht. constructor; simpl; try done.
    apply NoDup_fmap_snoc; [by apply NoDup_fmap_filter|done].
  - intros id t Ht. apply clear_refs_ok. destruct Ht. constructor; simpl; try done. by apply NoDup_fmap_filter.
Qed.

Lemma keeps_others :
  (forall n, keeps (InsertOrganization n)) /\ (forall id n, keeps (UpdateOrganization id n)) /\
  (forall id, keeps (DeleteOrganization id)) /\
  (forall ts b s o, keeps (InsertTransaction ts b s o)) /\ (forall r, keeps (UpdateTransaction r)).
Proof.
  split_and!.
  - intros n t Ht. unfold InsertOrganization. case_bool_decide; simpl; apply next_ok in Ht; [done|].
    destruct Ht. by constructor.
  - intros id n t Ht. unfold UpdateOrganization. repeat case_bool_decide; try done. destruct Ht. by constructor.
  - intros id t Ht. apply drop_reporters_ok. destruct Ht. by constructor.
  - intros ts b s o t Ht. apply next_ok in Ht. destruct Ht. by constructor.
  - intros r t Ht. unfold UpdateTransaction. case_bool_decide; [|done]. destruct (_ && _); [|done].
    destruct Ht. by constructor.
Qed.

Lemma keepsM_ret {A} (a : A) : keepsM (ret a).
Proof. intros w Hw. exact Hw. Qed.
Lemma keepsM_fail {A} e : keepsM (@fail A e).
Proof. intros w Hw. exact Hw. Qed.
Lemma keepsM_panic {A} : keepsM (@panic A).
Proof. intros w Hw. exact Hw. Qed.
Lemma keepsM_bind {A B} (m : M A) (f : A -> M B) : keepsM m -> (forall a, keepsM (f a)) -> keepsM (bind m f).
Proof.
  intros Hm Hf w Hw. unfold bind. specialize (Hm w Hw). destruct (m w) as [[a|e|] w']; [|exact Hm..].
  apply Hf, Hm.
Qed.
Lemma keepsM_send {A} (s : stmt A) : keeps s -> keepsM (send s).
Proof.
  intros Hs w Hw. unfold send. specialize (Hs _ Hw).
  destruct (w_faults w) as [|[e|] fs]; [|exact Hw|]; destruct (s (w_tables w)); exact Hs.
Qed.
Lemma keepsM_each {A B} (f : A -> M B) l : (forall a, keepsM (f a)) -> keepsM (each f l).
Proof.
  intros Hf. induction l as [|a l IH]; [apply keepsM_ret|].
  apply keepsM_bind; [apply Hf|]. intros b. apply keepsM_bind; [exact IH|]. intros bs. apply keepsM_ret.
Qed.
Lemma keepsM_with_id {A} id (s : Z -> stmt (list A)) : (forall i, keeps (s i)) -> keeps (with_id id s).
Proof. intros Hs t Ht. destruct id; [by apply Hs|exact Ht]. Qed.

(** Handlers are built from statements and plain steps. *)
Ltac keep :=
  repeat first
    [ progress intros
    | apply keepsM_ret | apply keepsM_fail | apply keepsM_panic | apply keepsM_bind | apply keepsM_send
    | apply keepsM_each | apply keepsM_with_id | apply keeps_select
    | apply keeps_contracts | apply keeps_reporters | apply keeps_functions | apply keeps_others
    | progress unfold QueryRow, QueryRows, RawQueryWithoutReturn, lift, lift_opt, or_fail, by_id, parse, validate, slice_from,
        slice_to
    | match goal with
      | |- context [match ?x with _ => _ end] => destruct x
      end ].

Lemma keeps_sign now p : keepsM (insert now p) /\ keepsM (insertV2 now p) /\ keepsM (onlySign p).
Proof.
  assert (forall m, keepsM m -> keepsM (deferred m)) as Hd.
  { intros m Hm w Hw. specialize (Hm w Hw). unfold deferred. destruct (m w) as [[] ?]; exact Hm. }
  assert (forall vc a, keepsM (validateContractAddress vc a)) as Hv.
  { intros vc a w Hw. unfold validateContractAddress. case_bool_decide; [exact Hw|].
    assert (keepsM (QueryRow (select (GetContractByAddress a)))) as Hq by keep.
    specialize (Hq w Hw). destruct (QueryRow _ w) as [[[c|]| |] w']; exact Hq. }
  assert (keepsM GetFeePayer) as Hg by (intros w Hw; exact Hw).
  assert (forall now p, keepsM (insertTransaction now p)) as Hi by (unfold insertTransaction; keep).
  assert (forall tx, keepsM (signTxByFeePayerV2 tx)) as Hs2 by (unfold signTxByFeePayerV2; keep; auto).
  split_and!.
  - unfold insert, insertTransaction, validateTransaction, signTxByFeePayer, CreateUnsignedTx, updateTransaction.
    keep; auto.
  - unfold insertV2. keep; auto.
  - unfold onlySign. keep; auto.
Qed.

Lemma serve_keeps E now r w : tables_ok (w_tables w) -> tables_ok (w_tables (serve E now r w)).
Proof.
  assert (forall pk, keepsM (UpdateFeePayer_ pk)) as Hu by (intros pk w' Hw'; exact Hw').
  assert (keepsM GetFeePayer) as Hg by (intros w' Hw'; exact Hw').
  assert (forall c, keepsM (contract_detail c)) as Hc by (unfold contract_detail; keep).
  assert (forall c, keepsM (reporter_detail c)) as Hr by (unfold reporter_detail; keep).
  assert (forall c, keepsM (function_detail c)) as Hf by (unfold function_detail; keep).
  assert (forall A (m : M A), keepsM m -> tables_ok (w_tables w) -> tables_ok (w_tables (effect m w))) as He
    by (intros A m Hm; apply Hm).
  destruct r; simpl serve; apply He; try apply keeps_sign; clear He.
  all: unfold organization_insert, organization_get, organization_getById, organization_updateById,
    organization_deleteById, reporter_insert, reporter_get, reporter_getById, reporter_updateById, reporter_deleteById,
    contract_insert, contract_get, contract_getById, connectReporter, disconnectReporter, contract_updateById,
    contract_deleteById, function_insert, function_get, function_getById, function_updateById, function_deleteById,
    initialize, InitFeePayerPK, getFeePayerAddress, get, getById; keep; auto.
Qed.

Definition serve_all (E : PkEnv) (rs : list (Time * request)) (w : World) : World :=
  fold_left (fun w r => serve E r.1 r.2 w) rs w.

Lemma serve_all_keeps E rs w : tables_ok (w_tables w) -> tables_ok (w_tables (serve_all E rs w)).
Proof. revert w. induction rs as [|r rs IH]; intros w Hw; [done|]. by apply IH, serve_keeps. Qed.
End routes.
End Routes.

(** ** What the delegator signs *)
Module Approval.
Import Db Handler Query Admin Sign Routes.

(** A contract with that address, a function of it with that selector, and a
    reporter with the sender's address connected to it. *)
Definition approved (t : Tables) (b : SignInsertPayload) : Prop :=
  exists c f r, c ∈ contracts t /\ ct_address c = p_To b /\
    f ∈ functions t /\ fn_contract f = ct_id c /\ fn_encodedName f = text (take 10 (chars (p_Input b))) /\
    r ∈ reporters t /\ rp_address r = p_From b /\ (ct_id c, rp_id r) ∈ links t.

Lemma bind_Done {A B} (m : M A) (f : A -> M B) w b w' :
  bind m f w = (Done b, w') <-> exists a w1, m w = (Done a, w1) /\ f a w1 = (Done b, w').
Proof. unfold bind. destruct (m w) as [[a|e|] w1]; naive_solver. Qed.
Lemma send_Done {A} (s : stmt A) w r w' :
  send s w = (Done r, w') -> s (w_tables w) = (r, w_tables w') /\ w_feePayer w' = w_feePayer w.
Proof.
  unfold send. destruct (w_faults w) as [|[e|] fs]; [|done|];
    destruct (s (w_tables w)) as [r' t']; intros [= <- <-]; done.
Qed.
Lemma QueryRows_Done {A} (s : stmt (list A)) w l w' :
  QueryRows s w = (Done l, w') -> s (w_tables w) = (Ok l, w_tables w') /\ w_feePayer w' = w_feePayer w.
Proof.
  unfold QueryRows. rewrite bind_Done. intros (r & w1 & [Hs Hf]%send_Done & Hl).
  destruct r as [l'|e]; cbn in Hl; [|done]. by injection Hl as -> ->.
Qed.
Lemma QueryRow_Done {A} (s : stmt (list A)) w o w' :
  QueryRow s w = (Done o, w') -> exists l, s (w_tables w) = (Ok l, w_tables w') /\ o = head l /\ w_feePayer w' = w_feePayer w.
Proof.
  unfold QueryRow. rewrite bind_Done. intros (l & w1 & [Hs Hf]%QueryRows_Done & Hl). cbn in Hl.
  injection Hl as <- ->. eauto.
Qed.

Lemma filter_key_one {A K} (f : A -> K) (P : A -> Prop) `{!forall x, Decision (P x)} l k :
  NoDup (f <$> l) -> (forall x, P x -> f x = k) -> (length (filter P l) <= 1)%nat.
Proof.
  intros Hn HP. destruct (filter P l) as [|x [|y m]] eqn:Hf; simpl; [lia..|]. exfalso.
  assert (NoDup (f <$> filter P l)) as Hd by by apply NoDup_fmap_filter. rewrite Hf in Hd.
  assert (P x /\ P y) as [Hx Hy].
  { split; eapply (list_elem_of_filter P l); rewrite Hf; set_solver. }
  apply HP in Hx, Hy. simpl in Hd. rewrite Hx, Hy in Hd. apply NoDup_cons in Hd as [Hd _]. set_solver.
Qed.

(** With unique keys the three queries have at most one row each. *)
Lemma query_lengths t to from enc :
  tables_ok t ->
  (length (GetContractByAddress to t) <= 1)%nat /\
  (length (GetFunctionByToAndEncodedName to enc t) <= 1)%nat /\
  (length (GetReporterByFromAndTo from to t) <= 1)%nat.
Proof.
  intros []. assert (length (GetContractByAddress to t) <= 1)%nat as Hc
    by (by apply (filter_key_one ct_address _ _ to)).
  split_and!; [done| |apply (filter_key_one rp_address _ _ from); [done|by intros r [? ?]]].
  unfold GetFunctionByToAndEncodedName. destruct (GetContractByAddress to t) as [|c [|c' l]]; simpl in *; [| |lia].
  - induction (functions t) as [|f l IH]; [simpl; lia|]. rewrite filter_cons_False; [|set_solver].
    apply IH. simpl in ok_fn_key0. by apply NoDup_cons in ok_fn_key0 as [_ ?].
  - apply (filter_key_one fn_key _ _ (enc, ct_id c)); [done|]. intros f [Hf1%list_elem_of_singleton Hf2]. unfold fn_key. by rewrite Hf1, Hf2.
Qed.

Lemma queries_approved t b :
  tables_ok t ->
  approved t b <-> GetContractByAddress (p_To b) t <> [] /\
    GetFunctionByToAndEncodedName (p_To b) (text (take 10 (chars (p_Input b)))) t <> [] /\
    GetReporterByFromAndTo (p_From b) (p_To b) t <> [].
Proof.
  intros Hok. destruct (query_lengths t (p_To b) "" "" Hok) as [Hone _].
  assert (forall A (l : list A) x, x ∈ l -> l <> []) as Hne by (intros A [|] x Hx; set_solver).
  assert (forall A (l : list A), l <> [] -> exists x, x ∈ l) as Hex
    by (intros A [|x l] Hl; [done|exists x; set_solver]).
  split.
  - intros (c & f & r & Hc & Hca & Hf & Hfc & Hfe & Hr & Hra & Hl).
    assert (c ∈ GetContractByAddress (p_To b) t) as Hin by by apply list_elem_of_filter.
    split_and!; eapply Hne; [done|apply (list_elem_of_filter _ _ f)|apply (list_elem_of_filter _ _ r)]; (split; [|done]).
    + split; [|done]. rewrite Hfc. by apply list_elem_of_fmap_2.
    + split; [done|]. apply Exists_exists. exists (ct_id c, rp_id r). split_and!; [done..|].
      simpl. by apply list_elem_of_fmap_2.
  - intros (Hc & (f & [[Hfc Hfe] Hf]%list_elem_of_filter)%Hex & (r & [[Hra He] Hr]%list_elem_of_filter)%Hex).
    apply Exists_exists in He as ([i j] & Hl & Hj & Hi). simpl in Hj, Hi. subst j.
    destruct (GetContractByAddress (p_To b) t) as [|c [|c' l]] eqn:Hg; [done| |simpl in Hone; lia].
    apply list_elem_of_singleton in Hi as ->, Hfc.
    assert (c ∈ GetContractByAddress (p_To b) t) as [? ?]%list_elem_of_filter by (rewrite Hg; set_solver).
    exists c, f, r. done.
Qed.

Lemma select_free {A} (q : Tables -> list A) t pk :
  QueryRows (select q) (mkWorld t pk []) = (Done (q t), mkWorld t pk []) /\
  QueryRow (select q) (mkWorld t pk []) = (Done (head (q t)), mkWorld t pk []).
Proof. done. Qed.

(** The first error of the database among the three queries of the check. *)
Definition first_fault (faults : list (option error)) : option error := head (omap id (take 3 faults)).

Lemma validate_faults tx t pk faults :
  let b := s_body tx in let enc := text (take 10 (chars (p_Input b))) in
  (10 <= String.length (p_Input b))%nat ->
  (validateTransaction tx (mkWorld t pk faults)).1 =
  match first_fault faults with
  | Some e => Fail e
  | None =>
      match GetFunctionByToAndEncodedName (p_To b) enc t, GetReporterByFromAndTo (p_From b) (p_To b) t,
            head (GetContractByAddress (p_To b) t) with
      | [f], [r], Some c =>
          Done (mkSignModel (s_Id tx) (s_Timestamp tx) (s_body tx) (s_SignedRawTx tx) (s_Succeed tx)
               (Some (fn_id f)) (Some (ct_id c)) (Some (rp_id r)))
      | [], _, _ | _, [], _ | _, _, None => Fail (External "not approved transaction")
      | _, _, _ => Fail (External "unexpected result length")
      end
  end.
Proof.
  intros b enc Hlen. unfold validateTransaction, slice_to, first_fault. fold b. rewrite (proj2 (Nat.leb_le _ _) Hlen). fold enc.
  destruct faults as [|[e1|] [|[e2|] [|[e3|] fs]]]; unfold bind; cbn; repeat case_match; done.
Qed.

Lemma validate_reads tx w : w_tables (validateTransaction tx w).2 = w_tables w.
Proof.
  destruct w as [t pk faults]. unfold validateTransaction, slice_to. destruct (_ <=? _)%nat; [|done].
  destruct faults as [|[e1|] [|[e2|] [|[e3|] fs]]]; unfold bind; cbn; repeat case_match; done.
Qed.

(** C21: The check of [POST /sign], the first version of the endpoint, in every case.
    Whatever requests were served before, it changes no table; it panics on an
    input of less than 10 characters; it returns the first error of the database
    when one of its three queries fails; otherwise it approves exactly the calls
    of an inserted function of a contract by a reporter connected to it, and
    refuses every other one as not approved, so that the third outcome of the
    code, an unexpected number of rows, never happens.  The second version of the
    endpoint and [POST /sign/volatile] do not use this check
    ([v2_checks_only_payload]). *)
Theorem approval_exact `{CR : Crypto} `{!TxPackage} E rs pk0 faults pk faults' tx :
  let t := w_tables (serve_all E rs (mkWorld fresh_tables pk0 faults)) in
  let '(out, w') := validateTransaction tx (mkWorld t pk faults') in
  w_tables w' = t /\
  if (String.length (p_Input (s_body tx)) <? 10)%nat then out = Panic
  else match first_fault faults' with
       | Some e => out = Fail e
       | None =>
           approved t (s_body tx) /\ (exists row, out = Done row /\ s_body row = s_body tx) \/
           ~ approved t (s_body tx) /\ out = Fail (External "not approved transaction")
       end.
Proof.
  intros t. assert (tables_ok t) as Hok by (apply serve_all_keeps, fresh_ok).
  pose proof (validate_reads tx (mkWorld t pk faults')) as Hw. pose proof (validate_faults tx t pk faults') as Hv.
  destruct (validateTransaction tx (mkWorld t pk faults')) as [out w'] eqn:Hout. split; [exact Hw|].
  destruct (Nat.ltb_spec (String.length (p_Input (s_body tx))) 10) as [Hs|Hlen].
  { unfold validateTransaction, slice_to in Hout. rewrite (proj2 (Nat.leb_gt _ _)) in Hout by exact Hs.
    cbn in Hout. by simplify_eq. }
  specialize (Hv Hlen). cbn [fst] in Hv. rewrite Hv. destruct (first_fault faults') as [e|]; [done|]. clear Hv Hout Hw.
  destruct (query_lengths t (p_To (s_body tx)) (p_From (s_body tx)) (text (take 10 (chars (p_Input (s_body tx))))) Hok) as (Hc & Hf & Hr).
  rewrite (queries_approved t (s_body tx) Hok).
  destruct (GetFunctionByToAndEncodedName _ _ _) as [|f [|]], (GetReporterByFromAndTo _ _ _) as [|r [|]],
    (GetContractByAddress _ _) as [|c cs]; simpl in *; try lia; naive_solver.
Qed.

(** A check that succeeds has seen an approval, whatever the tables. *)
Lemma validate_Done tx w row w' :
  tables_ok (w_tables w) -> validateTransaction tx w = (Done row, w') ->
  approved (w_tables w) (s_body tx) /\ w_tables w' = w_tables w.
Proof.
  intros Hok. unfold validateTransaction. rewrite bind_Done. intros (enc & w1 & Hs & H).
  assert (enc = text (take 10 (chars (p_Input (s_body tx)))) /\ w1 = w) as [-> ->].
  { unfold slice_to in Hs. case_match; [|done]. by inversion Hs. }
  apply bind_Done in H as (c & w2 & (cl & [= <- Ht2] & -> & _)%QueryRow_Done & H).
  apply bind_Done in H as (fs & w3 & [[= <- Ht3] _]%QueryRows_Done & H).
  apply bind_Done in H as (rs & w4 & [[= <- Ht4] _]%QueryRows_Done & H).
  rewrite queries_approved by done. rewrite <- ?Ht2, <- ?Ht3, <- ?Ht4 in *.
  destruct (GetFunctionByToAndEncodedName _ _ _) as [|f [|]], (GetReporterByFromAndTo _ _ _) as [|r [|]],
    (GetContractByAddress _ _) as [|c cs]; cbn in H; simplify_eq.
  split; [done|]. congruence.
Qed.

Section signing.
Context {CR : Crypto} {TP : TxPackage}.

(** The first version of the endpoint signs only what is approved: when it
    answers with a transaction, the tables it started from approve the payload's
    receiver, selector and sender, in lower case. *)
Theorem v1_signs_only_approved E rs pk0 faults now p row w' :
  let w := serve_all E rs (mkWorld fresh_tables pk0 faults) in
  insert now (Ok p) w = (Done row, w') -> approved (w_tables w) (lower_addresses (sp_body p)).
Proof.
  intros w. assert (tables_ok (w_tables w)) as Hok by (apply serve_all_keeps, fresh_ok). clearbody w.
  unfold insert. rewrite bind_Done. intros (p' & w1 & [= <- <-] & H).
  apply bind_Done in H as ([] & w2 & Hv & H).
  assert (w2 = w) as -> by (unfold validate in Hv; destruct (all_required _); cbn in Hv; by simplify_eq).
  apply bind_Done in H as (tx & w3 & Hi & H). apply bind_Done in H as (tx' & w4 & Hval & _).
  unfold insertTransaction in Hi. apply bind_Done in Hi as (r & w5 & (l & Hins & -> & _)%QueryRow_Done & Hr).
  cbn in Hr, Hins. injection Hr as <- <-. injection Hins as <- Ht.
  apply validate_Done in Hval as [Ha _].
  - rewrite <- Ht in Ha. exact Ha.
  - rewrite <- Ht. destruct (next_ok _ Hok). by constructor.
Qed.

Section laws.
Context {TL : TxLaws TP}.

Lemma updateFeePayer_call tx payer tx' :
  updateFeePayer tx payer = Some (Ok tx') ->
  call_of tx' = call_of tx /\ RawSignatureValues tx' = RawSignatureValues tx.
Proof.
  unfold updateFeePayer. destruct (From tx); [|done]. destruct (To tx) as [to|] eqn:Hto; [|done].
  destruct (NewTransactionWithMap _) as [new|] eqn:Hn; [|done]. intros [= <-].
  destruct (setsig_call new (RawSignatureValues tx)) as [-> ->]. split; [|done].
  apply map_call in Hn as [-> _]. unfold call_of. by rewrite Hto.
Qed.

Lemma sign_Done tx w tx' w' :
  signTxByFeePayerV2 tx w = (Done tx', w') ->
  w' = w /\ call_of tx' = call_of tx /\ RawSignatureValues tx' = RawSignatureValues tx.
Proof.
  unfold signTxByFeePayerV2. rewrite bind_Done. intros (pk & w1 & [= <- <-] & H).
  apply bind_Done in H as (k & w2 & Hk & H). destruct (HexToECDSA _); cbn in Hk; simplify_eq.
  apply bind_Done in H as (u & w3 & Hu & H).
  destruct (updateFeePayer tx _) as [[u'|]|] eqn:Hup; cbn in Hu; simplify_eq.
  destruct (SignTxAsFeePayer _ _ _) as [t|] eqn:Hf; cbn in H; simplify_eq.
  apply updateFeePayer_call in Hup as [Hc Hs].
  apply feepayer_call in Hf as [Hf1 Hf2]. split_and!; congruence.
Qed.

Lemma insertV2_Done now p w raw w' :
  insertV2 now (Ok p) w = (Done raw, w') ->
  exists tx tx', HashToTx (p_RawTx (sp_body p)) = Ok tx /\ HashToTx raw = Ok tx' /\
    call_of tx' = call_of tx /\ RawSignatureValues tx' = RawSignatureValues tx /\
    GetContractByAddress (ToLower (p_To (sp_body p))) (w_tables w) <> [].
Proof.
  unfold insertV2. rewrite bind_Done. intros (p' & w1 & [= <- <-] & H).
  apply bind_Done in H as (tx & w2 & Htx & H). destruct (HashToTx _) as [tx0|] eqn:Hh; cbn in Htx; simplify_eq.
  apply bind_Done in H as ([] & w3 & Hv & H).
  assert (w3 = w2) as -> by (unfold validate in Hv; destruct (all_required _); cbn in Hv; by simplify_eq).
  apply bind_Done in H as (vc & w4 & Hvc & H).
  apply bind_Done in H as (tx' & w5 & (-> & Hc & Hs)%sign_Done & H).
  apply bind_Done in H as ([] & w6 & _ & [= <- <-]).
  exists tx, tx'. split_and!; [done|apply roundtrip_lemma|done..|].
  unfold validateContractAddress in Hvc. rewrite bool_decide_false in Hvc by set_solver.
  destruct (QueryRow _ w2) as [[[c|]| |] w7] eqn:Hq; simplify_eq.
  apply QueryRow_Done in Hq as (l & [= <- _] & Hl & _). by destruct (GetContractByAddress _ _).
Qed.

(** The delegator as the chain helper meets it: any served request history, any
    faults; a failed or panicking request is an error of the HTTP request. *)
Definition delegator_answer (now : Time) (w : World) (p : SignInsertPayload) : res (option string) :=
  match (insertV2 now (Ok (mkSignPayload p None None)) w).1 with
  | Done raw => Ok (Some raw)
  | Fail e => Err e
  | Panic => Err (ErrRequestStatusNotOk : error)
  end.

(** C10: Reporter and delegator together: whatever state the delegator is in and
    whatever the chain answers, a submission takes one nonce, sends at most one
    transaction, and that transaction (signed by the delegator or built as the
    fallback) carries the nonce, the contract and at least the default gas. *)
Theorem delegated_submission {AP : AbiPackage} now w a1 a2 sub t cache a f args :
  Nonce.V2.ok (h_noncemanager t) ->
  exists t' c' sent err,
    SubmitDelegatedFallbackDirect (mkSubmitEnv a1 (delegator_answer now w) a2 sub) t cache a f args
      = Some (t', c', (sent, err)) /\
    Nonce.V2.next (h_noncemanager t') = wrapu64 (Nonce.V2.next (h_noncemanager t) + 1) /\
    (length sent <= 1)%nat /\
    forall tx, tx ∈ sent -> c_nonce (call_of tx) = Nonce.V2.next (h_noncemanager t) /\
      c_to (call_of tx) = Some (HexToAddress a) /\ DEFAULT_GAS_LIMIT <= c_gas (call_of tx).
Proof.
  intros Hok. destruct (submit_cases (mkSubmitEnv a1 (delegator_answer now w) a2 sub) t cache a f args Hok)
    as (t' & c' & sent & err & Hs & _ & Hn & Hd).
  exists t', c', sent, err. split_and!; [done..| |].
  { destruct Hd as [[-> _]|(? & -> & _)]; simpl; lia. }
  intros tx Htx. destruct Hd as [[-> _]|(tx' & -> & _ & Hd)]; [set_solver|].
  apply list_elem_of_singleton in Htx as ->.
  destruct Hd as [(tx0 & p & raw & ? & ? & ? & Hp & Hr & Hh)|?]; [|done].
  simpl in Hr. unfold delegator_answer in Hr.
  destruct (insertV2 _ _ _) as [[raw'| |] w'] eqn:Hi; cbn in Hr; [|done..]. injection Hr as ->.
  apply insertV2_Done in Hi as (tx1 & tx2 & Hx1 & Hx2 & Hc & _). simpl in Hx1.
  assert (p_RawTx p = "0x" +:+ TxToHash tx0)%string as Hraw.
  { unfold MakePayload in Hp. destruct (From tx0); [|done]. destruct (To tx0); [|done]. cbn in Hp.
    destruct (RawSignatureValues tx0) as [|[[? ?] ?] ?]; [done|]. by simplify_eq/=. }
  rewrite Hraw in Hx1. rewrite (proj2 (roundtrip_lemma tx0)) in Hx1. assert (call_of tx' = call_of tx0) as -> by congruence. done.
Qed.
End laws.

(** The second version of the endpoint compares the receiver named in the
    payload with the approved contracts, not the receiver of the transaction it
    signs: with any approved address in the payload, every raw transaction that can
    be signed is signed, whatever contract it calls and whoever sent it. *)
Theorem v2_checks_only_payload now p w c tx tx' :
  w_faults w = [] -> c ∈ contracts (w_tables w) -> ct_address c = ToLower (p_To (sp_body p)) ->
  all_required (sp_body p) = true -> HashToTx (p_RawTx (sp_body p)) = Ok tx ->
  signTxByFeePayerV2 tx w = (Done tx', w) ->
  (insertV2 now (Ok p) w).1 = Done (TxToHash tx').
Proof.
  intros Hf Hc Ha Hr Hh Hs. unfold insertV2, bind at 1. cbn [parse lift ret].
  unfold bind at 1. rewrite Hh. cbn [lift ret]. unfold bind at 1, validate. rewrite Hr. cbn [ret].
  destruct w as [t pk fs]. simpl in Hf, Hc. subst fs.
  unfold bind at 1, validateContractAddress. rewrite bool_decide_false by set_solver.
  rewrite (proj2 (select_free _ _ _)).
  assert (c ∈ GetContractByAddress (ToLower (p_To (sp_body p))) t) as Hin by by apply list_elem_of_filter.
  destruct (GetContractByAddress _ t) as [|c' l]; [set_solver|]. cbn [head].
  unfold bind at 1. rewrite Hs. done.
Qed.
End signing.

(** A payload whose input is shorter than a selector makes the first version
    of the endpoint panic, after the transaction has been stored. *)
Theorem short_input_panics `{CR : Crypto} `{!TxPackage} now p t pk :
  all_required (sp_body p) = true -> (String.length (p_Input (sp_body p)) < 10)%nat ->
  exists row t', insert now (Ok p) (mkWorld t pk []) = (Panic, mkWorld t' pk []) /\
    transactions t' = transactions t ++ [row] /\ s_body row = lower_addresses (sp_body p).
Proof.
  intros Hr Hl.
  set (row := mkSignModel (serial t) now (lower_addresses (sp_body p)) (sp_SignedRawTx p) (sp_Succeed p) None None None).
  exists row, (set_transactions (transactions t ++ [row]) (next t)). split; [|done].
  unfold insert, bind at 1. cbn [parse lift ret]. unfold bind at 1, validate. rewrite Hr. cbn [ret].
  unfold bind at 1. cbn [insertTransaction bind QueryRow QueryRows send w_faults InsertTransaction lift ret head default].
  unfold bind at 1, validateTransaction, bind at 1, slice_to.
  rewrite (proj2 (Nat.leb_gt _ _)) by exact Hl. reflexivity.
Qed.

(** Connecting reports success also when the database refused it. *)
Lemma connect_ignores_refusal c r t pk :
  (ConnectReporter c r t).1 <> Ok () ->
  connectReporter (Ok (Some c, Some r)) (mkWorld t pk []) = (Done (), mkWorld t pk []).
Proof.
  unfold connectReporter, RawQueryWithoutReturn, ConnectReporter, bind. cbn. unfold ConnectReporter.
  destruct (_ || _); by simpl.
Qed.

Lemma lower_idem s : ToLower (ToLower s) = ToLower s.
Proof.
  unfold ToLower. rewrite chars_text. f_equal. rewrite <- list_fmap_compose. apply list_fmap_ext.
  intros _ c _. unfold compose, lower. set (n := N_of_ascii c).
  destruct ((65 <=? n) && (n <=? 90))%N eqn:Hn; fold n; [|by rewrite Hn].
  apply andb_true_iff in Hn as [H1%N.leb_le H2%N.leb_le].
  rewrite N_ascii_embedding by lia. rewrite (proj2 (N.leb_gt (n + 32) 90)) by lia. by rewrite andb_false_r.
Qed.

(** Changing a contract's address stores it as it is written, and every check
    looks for a lower-case address: a contract whose new address has a capital
    letter is never found again. *)
Theorem updated_address_hidden id a w c w' :
  contract_updateById (Some id) (Ok a) w = (Done (Some c), w') -> ToLower a <> a ->
  c ∈ contracts (w_tables w') /\ forall x, c ∉ GetContractByAddress (ToLower x) (w_tables w').
Proof.
  unfold contract_updateById. rewrite bind_Done. intros (a' & w1 & [= <- <-] & H) Ha.
  destruct (required a); [|done]. cbn [negb] in H.
  apply QueryRow_Done in H as (l & Hu & Hl & _). cbn in Hu. unfold UpdateContract in Hu.
  destruct (bool_decide (Exists _ _)); [|by simplify_eq].
  destruct (bool_decide (a ∈ _)); [done|]. injection Hu as <- Ht. simpl in Hl. injection Hl as ->.
  rewrite <- Ht. split; [set_solver|].
  intros x [Hx _]%list_elem_of_filter. simpl in Hx. apply Ha. rewrite Hx. apply lower_idem.
Qed.

(** ** Witnesses: a small organisation with one contract, function and reporter *)
Definition w_pk : PkEnv := mkPkEnv "77" false false (Ok "") None.
Definition w_requests : list (Time * request) :=
  [(1, PostOrganization (Ok "bisonai"%string)); (2, PostReporter (Ok ("0xAB"%string, Some 1)));
   (3, PostContract (Ok "0xC0"%string)); (4, PostFunction (Ok ("submit()"%string, Some 3)));
   (5, PostConnectReporter (Ok (Some 3, Some 2))); (6, GetInitialize "0x77")].
Definition w_world : World :=
  @serve_all Signing.toy_crypto toy_package w_pk w_requests (mkWorld fresh_tables "" []).
Definition w_body : SignInsertPayload :=
  mkPayload "0xAB" "0xc0" "0x7375626d00" "0x10" "0x0" "0x3e9" "0x5" "0x7" "0x1" "0x2" "0x3"
    ("0x" +:+ @TxToHash _ toy_package w_tx)%string.
Definition w_row : SignModel := mkSignModel 9 9 (lower_addresses w_body) None None None None None.

Lemma approval_exact_witness : exists row,
  (validateTransaction w_row (mkWorld (w_tables w_world) "77" [None; None])).1 = Done row /\ s_body row = lower_addresses w_body.
Proof.
  pose proof (@approval_exact Signing.toy_crypto toy_package w_pk w_requests "" [] "77" [None; None] w_row) as H. cbv zeta in H.
  fold w_world in H. destruct (validateTransaction w_row (mkWorld (w_tables w_world) "77" [None; None])) as [out w'].
  destruct H as [_ H]. destruct H as [[_ H]|[Hn _]]; [exact H|]. exfalso. apply Hn.
  exists (mkContract 3 "0xc0"), (mkFunction 4 "submit()" "0x7375626d" 3), (mkReporter 2 "0xab" 1).
  vm_compute. split_and!; try reflexivity; left.
Defined.

Lemma v1_signs_only_approved_witness : exists row w',
  @insert Signing.toy_crypto toy_package 7 (Ok (mkSignPayload w_body None None)) w_world = (Done row, w') /\
  approved (w_tables w_world) (lower_addresses w_body).
Proof.
  destruct (@insert Signing.toy_crypto toy_package 7 (Ok (mkSignPayload w_body None None)) w_world) as [o w'] eqn:Hi.
  assert (exists row, o = Done row) as [row ->].
  { apply (f_equal fst) in Hi. simpl in Hi. rewrite <- Hi. eexists. vm_compute. reflexivity. }
  exists row, w'. split; [done|].
  exact (v1_signs_only_approved w_pk w_requests "" [] 7 (mkSignPayload w_body None None) row w' Hi).
Defined.

Lemma delegated_submission_witness : exists t' c' sent err,
  @SubmitDelegatedFallbackDirect toy_abi _ toy_package
    (@mkSubmitEnv _ toy_package w_answers (@delegator_answer _ toy_package 7 w_world) w_answers
       (@mkSubmitAnswers _ toy_package (fun _ => None) (fun _ => Ok 1)))
    w_helper Abi.newAbiCache "0xc0" "submit(int256 a)" [3] = Some (t', c', (sent, err)) /\ (length sent <= 1)%nat.
Proof.
  destruct (@delegated_submission _ toy_package toy_package_laws toy_abi 7 w_world w_answers w_answers
    (@mkSubmitAnswers _ toy_package (fun _ => None) (fun _ => Ok 1)) w_helper Abi.newAbiCache "0xc0" "submit(int256 a)" [3])
    as (t' & c' & sent & err & Hs & _ & Hl & _).
  - exists 5, 100%nat. split_and!; [reflexivity|by vm_compute|unfold Nonce.V2.poolSize; lia..].
  - eauto 10.
Defined.

Lemma v2_checks_only_payload_witness :
  exists tx', (@insertV2 Signing.toy_crypto toy_package 7 (Ok (mkSignPayload w_body None None)) w_world).1
    = Done (@TxToHash _ toy_package tx').
Proof.
  destruct (@signTxByFeePayerV2 Signing.toy_crypto toy_package w_tx w_world) as [[tx'| |] w'] eqn:Hs.
  - exists tx'. apply (@v2_checks_only_payload Signing.toy_crypto toy_package 7 (mkSignPayload w_body None None) w_world (mkContract 3 "0xc0") w_tx tx').
    + reflexivity.
    + vm_compute. left.
    + reflexivity.
    + reflexivity.
    + vm_compute. reflexivity.
    + assert (w' = w_world) as Hw by (vm_compute in Hs |- *; congruence). rewrite Hw in Hs. exact Hs.
  - exfalso. vm_compute in Hs. congruence.
  - exfalso. vm_compute in Hs. congruence.
Defined.

Lemma short_input_panics_witness : exists row t',
  @insert Signing.toy_crypto toy_package 7
    (Ok (mkSignPayload (mkPayload "0xAB" "0xc0" "0x73" "0x10" "0x0" "0x3e9" "0x5" "0x7" "0x1" "0x2" "0x3" "0x") None None))
    (mkWorld fresh_tables "77" []) = (Panic, mkWorld t' "77" []) /\ transactions t' = [row].
Proof.
  destruct (@short_input_panics Signing.toy_crypto toy_package 7
    (mkSignPayload (mkPayload "0xAB" "0xc0" "0x73" "0x10" "0x0" "0x3e9" "0x5" "0x7" "0x1" "0x2" "0x3" "0x") None None)
    fresh_tables "77") as (row & t' & Hi & Ht & _).
  - reflexivity.
  - apply Nat.ltb_lt. reflexivity.
  - exists row, t'. split; [exact Hi|exact Ht].
Defined.

Lemma updated_address_hidden_witness : exists c w',
  contract_updateById (Some 3) (Ok "0xC0"%string) w_world = (Done (Some c), w') /\
  c ∉ GetContractByAddress (ToLower "0xC0") (w_tables w').
Proof.
  destruct (contract_updateById (Some 3) (Ok "0xC0"%string) w_world) as [o w'] eqn:Hu.
  assert (o = Done (Some (mkContract 3 "0xC0"))) as -> by (vm_compute in Hu; congruence).
  exists (mkContract 3 "0xC0"), w'. split; [done|].
  apply (updated_address_hidden 3 "0xC0" w_world _ _ Hu). vm_compute. congruence.
Defined.
End Approval.
