(* ===== verification/DalApi.v ===== *)
(** * The web API of the data access layer

    [node/pkg/dal/apiv2/controller.go], [apiv2/types.go],
    [dal/utils/stats/stats.go] and [dal/app.go].  A request is its method, its
    request URI, its path in segments and its API key; the routes are those the
    server registers, chosen as [http.ServeMux] chooses them.  The statistics are
    a buffer of entries that a goroutine copies to the database. *)

From S2P Require Import Prelude Errors Text Strings Signing Collector Hub Util.
From Stdlib Require Import Ascii.
Import Text Strings Collector.

Local Open Scope Z_scope.

Module DalApi.

Record BulkResponse : Type := mkBulk {
  Symbols : list string; Values : list string; AggregateTimes : list string;
  Proofs : list string; FeedHashes_ : list string; Decimals : list string
}.

Inductive body : Type :=
| BText (s : string)
| BSymbols (l : list string)
| BFeeds (l : list OutgoingSubmissionData)
| BBulk (b : BulkResponse).

Record Response : Type := mkResponse { status : Z; content : body }.
Definition StatusOK : Z := 200.
Definition StatusBadRequest : Z := 400.
Definition StatusUnauthorized : Z := 401.
Definition StatusInternalServerError : Z := 500.

(** ** The handlers *)
Section handlers.
Variable c : Collector.
(** The order in which a map is visited. *)
Variable order : list OutgoingSubmissionData -> list OutgoingSubmissionData.

Definition HealthCheckHandler : Response := mkResponse StatusOK (BText "Miko Node DAL API").

Definition SymbolsHandler (symbols : gset string) : Response := mkResponse StatusOK (BSymbols (elements symbols)).

Definition AllLatestFeedsHandler : Response := mkResponse StatusOK (BFeeds (GetAllLatestData order c)).

Definition AllLatestFeedsTransposedHandler : Response :=
  let result := GetAllLatestData order c in
  mkResponse StatusOK (BBulk (mkBulk (o_Symbol <$> result) (o_Value <$> result) (o_AggregateTime <$> result)
    (o_Proof <$> result) (o_FeedHash <$> result) (o_Decimals <$> result))).

Definition bad_symbol (symbol : string) : Response :=
  mkResponse StatusBadRequest
    (BText ("wrong symbol format: " +:+ symbol +:+ ", symbol should be in {BASE}-{QUOTE} format")%string).
Definition empty_symbol : Response := mkResponse StatusBadRequest (BText "invalid symbol: empty symbol").
Definition normal (symbol : string) : string := if negb (Contains symbol "test") then ToUpper symbol else symbol.

(** The loop over the symbols; its accumulator is the response under
    construction. *)
Fixpoint transposed_loop (symbols : list string) (bulk : BulkResponse) : Response :=
  match symbols with
  | [] => mkResponse StatusOK (BBulk bulk)
  | symbol :: symbols =>
      if bool_decide (symbol = ""%string) then transposed_loop symbols bulk
      else if negb (Contains symbol "-") then bad_symbol symbol
      else
        match GetLatestData (normal symbol) c with
        | Err err => mkResponse StatusInternalServerError (BText (Error err))
        | Ok result =>
            transposed_loop symbols
              (mkBulk (Symbols bulk ++ [o_Symbol result]) (Values bulk ++ [o_Value result])
                 (AggregateTimes bulk ++ [o_AggregateTime result]) (Proofs bulk ++ [o_Proof result])
                 (FeedHashes_ bulk ++ [o_FeedHash result]) (Decimals bulk ++ [o_Decimals result]))
        end
  end.
Definition TransposedLatestFeedsHandler (symbolsStr : string) : Response :=
  if bool_decide (symbolsStr = ""%string) then empty_symbol
  else transposed_loop (Split (ReplaceAll symbolsStr " "%char "") ","%char) (mkBulk [] [] [] [] [] []).

Fixpoint feeds_loop (symbols : list string) (results : list OutgoingSubmissionData) : Response :=
  match symbols with
  | [] => mkResponse StatusOK (BFeeds results)
  | symbol :: symbols =>
      if bool_decide (symbol = ""%string) then feeds_loop symbols results
      else if negb (Contains symbol "-") then bad_symbol symbol
      else
        match GetLatestData (normal symbol) c with
        | Err err => mkResponse StatusInternalServerError (BText (Error err))
        | Ok result => feeds_loop symbols (results ++ [result])
        end
  end.
Definition LatestFeedsHandler (symbolsStr : string) : Response :=
  if bool_decide (symbolsStr = ""%string) then empty_symbol
  else feeds_loop (Split (ReplaceAll symbolsStr " "%char "") ","%char) [].

Fixpoint unstrict_loop (symbols : list string) (results : list OutgoingSubmissionData) : Response :=
  match symbols with
  | [] => mkResponse StatusOK (BFeeds results)
  | symbol :: symbols =>
      if bool_decide (symbol = ""%string) then unstrict_loop symbols results
      else if negb (Contains symbol "-") then bad_symbol symbol
      else
        match GetLatestData (normal symbol) c with
        | Err _ => unstrict_loop symbols results
        | Ok result => unstrict_loop symbols (results ++ [result])
        end
  end.
Definition LatestFeedsHandlerUnstrict (symbolsStr : string) : Response :=
  if bool_decide (symbolsStr = ""%string) then empty_symbol
  else unstrict_loop (Split (ReplaceAll symbolsStr " "%char "") ","%char) [].
End handlers.

(** ** Statistics *)
Record RestEntry : Type := mkRestEntry { ApiKey : string; Endpoint : string; re_StatusCode : Z; ResponseTime : Z }.

Definition DefaultBufferSize : nat := 20000.

Record StatsAppConfig : Type := mkStatsConfig { sc_Interval : Z; sc_BufferSize : nat }.
Definition WithBulkLogsCopyInterval (i : Z) (c : StatsAppConfig) : StatsAppConfig := mkStatsConfig i (sc_BufferSize c).
Definition WithBufferSize (n : nat) (c : StatsAppConfig) : StatsAppConfig := mkStatsConfig (sc_Interval c) n.

(** [RestEntryBuffer] is a channel of capacity [BufferSize]; [rest_calls] the
    table the entries are copied to. *)
Record StatsApp : Type := mkStatsApp {
  BulkLogsCopyInterval : Z; BufferSize : nat; RestEntryBuffer : list RestEntry; rest_calls : list RestEntry
}.
Definition NewStatsApp (opts : list (StatsAppConfig -> StatsAppConfig)) : StatsApp :=
  let config := fold_left (fun c opt => opt c) opts (mkStatsConfig (600 * Second) DefaultBufferSize) in
  mkStatsApp (sc_Interval config) (sc_BufferSize config) [] [].

(** One tick of [Run]: the buffer is emptied into one bulk copy, which may fail;
    its entries are then gone.  The response time is stored in microseconds. *)
Definition Run_tick (BulkCopy : option error) (a : StatsApp) : StatsApp :=
  let entries := (fun e => mkRestEntry (ApiKey e) (Endpoint e) (re_StatusCode e) (ResponseTime e / 1000)) <$>
                   RestEntryBuffer a in
  mkStatsApp (BulkLogsCopyInterval a) (BufferSize a) []
    (if bool_decide (entries = []) then rest_calls a
     else match BulkCopy with Some _ => rest_calls a | None => rest_calls a ++ entries end).

(** The deferred part of the middleware; [None]: it waits for room in the
    buffer. *)
Definition log_request (key uri : string) (statusCode responseTime : Z) (a : StatsApp) : option StatsApp :=
  if bool_decide (key = ""%string) then Some a
  else if bool_decide (uri = "/"%string) then Some a
  else if (length (RestEntryBuffer a) <? BufferSize a)%nat then
    Some (mkStatsApp (BulkLogsCopyInterval a) (BufferSize a)
            (RestEntryBuffer a ++ [mkRestEntry key uri statusCode responseTime]) (rest_calls a))
  else None.

Definition RequestLoggerMiddleware (next : Response) (key uri : string) (responseTime : Z) (a : StatsApp)
    : Response * option StatsApp :=
  (next, log_request key uri (status next) responseTime a).

(** ** The server *)
Record ServerV2 : Type := mkServer {
  collector : Collector; hub : Hub.Hub; keyCache : KeyCache.KeyCache; statsApp : StatsApp
}.

Record Request : Type := mkRequest { method : string; RequestURI : string; path : list string; apiKey : string }.

Inductive handler : Type :=
| Health | Ws | SymbolsH | All | AllTransposed | Transposed (symbols : string) | Latest (symbols : string)
| Unstrict (symbols : string).

(** [ServeMux]: a literal segment is more specific than a wildcard, a pattern
    with a method more specific than one without; "GET" matches HEAD too, a
    wildcard matches a segment that is not empty, and "/" matches the rest. *)
Definition route (r : Request) : handler :=
  let get := bool_decide (method r = "GET"%string) || bool_decide (method r = "HEAD"%string) in
  match path r with
  | [a] =>
      if bool_decide (a = "ws"%string) then Ws
      else if get && bool_decide (a = "symbols"%string) then SymbolsH else Health
  | [a; b] =>
      if negb get || bool_decide (b = ""%string) then Health
      else if bool_decide (a = "latest-data-feeds"%string) then
        if bool_decide (b = "all"%string) then All else Latest b
      else if bool_decide (a = "latest-data-feeds-unstrict"%string) then Unstrict b else Health
  | [a; b; d] =>
      if negb get || bool_decide (d = ""%string) then Health
      else if bool_decide (a = "latest-data-feeds"%string) && bool_decide (b = "transpose"%string) then
        if bool_decide (d = "all"%string) then AllTransposed else Transposed d
      else Health
  | _ => Health
  end.

(** [checkAPIKey]; [row]: what the database answers for the key. *)
Definition checkAPIKey (now : Z) (row : res bool) (key : string) (k : KeyCache.KeyCache) : bool * KeyCache.KeyCache :=
  if bool_decide (key = ""%string) then (false, k)
  else if KeyCache.Get now key k then (true, k)
  else if KeyCache.ValidateApiKeyFromDB row then (true, KeyCache.Set_ now key k)
  else (false, k).

(** What the handler of a route writes; [upgrade] is what [websocket.Accept]
    writes, the rest of that handler is [WSHandler] below. *)
Definition answer (order : list OutgoingSubmissionData -> list OutgoingSubmissionData) (upgrade : Z)
    (s : ServerV2) (h : handler) : Response :=
  match h with
  | Health => HealthCheckHandler
  | Ws => mkResponse upgrade (BText "")
  | SymbolsH => SymbolsHandler (Hub.Symbols (hub s))
  | All => AllLatestFeedsHandler (collector s) order
  | AllTransposed => AllLatestFeedsTransposedHandler (collector s) order
  | Transposed x => TransposedLatestFeedsHandler (collector s) x
  | Latest x => LatestFeedsHandler (collector s) x
  | Unstrict x => LatestFeedsHandlerUnstrict (collector s) x
  end.

Definition unauthorized : Response := mkResponse StatusUnauthorized (BText "Unauthorized").

(** [ServeHTTP]: the response and the server; [None]: the handler's goroutine
    waits for the statistics. *)
Definition ServeHTTP (now : Z) (row : res bool) (order : list OutgoingSubmissionData -> list OutgoingSubmissionData)
    (upgrade responseTime : Z) (r : Request) (s : ServerV2) : Response * option ServerV2 :=
  let '(ok, k) := if bool_decide (RequestURI r = "/"%string) then (true, keyCache s)
                  else checkAPIKey now row (apiKey r) (keyCache s) in
  let s := mkServer (collector s) (hub s) k (statsApp s) in
  if negb ok then (unauthorized, Some s)
  else
    let '(resp, a) := RequestLoggerMiddleware (answer order upgrade s (route r)) (apiKey r) (RequestURI r) responseTime (statsApp s) in
    (resp, (fun a => mkServer (collector s) (hub s) (keyCache s) a) <$> a).

(** ** The websocket handler *)

(** What it asks of the hub and of the connection, in order. *)
Inductive wsop : Type :=
| OpRegister | OpSubscribe (msg : Hub.Subscription) | OpUnregister | OpClose.

(** [accept]: whether the connection is accepted; [id]: the row that
    [InsertWebsocketConnection] inserts; [msgs]: the messages read before reading
    fails. *)
Definition WSHandler (accept : bool) (id : res Z) (msgs : list Hub.Subscription) : list wsop :=
  if negb accept then []
  else
    OpRegister ::
    match id with
    | Err _ => [OpClose]
    | Ok _ =>
        (OpSubscribe <$> filter (fun m => Hub.Method m = "SUBSCRIBE"%string) msgs) ++ [OpUnregister; OpClose]
    end.

(** The hub's part, with the registrations done as they are asked for. *)
Definition run_op (client : nat) (h : Hub.Hub) (op : wsop) : Hub.Hub :=
  match op with
  | OpRegister => Hub.addClient client h
  | OpSubscribe msg => (Hub.HandleSubscription client msg h).1
  | OpUnregister => (Hub.removeClient client h).1
  | OpClose => h
  end.
Definition run_ops (client : nat) (ops : list wsop) (h : Hub.Hub) : Hub.Hub := fold_left (run_op client) ops h.

(** ** [apiv2.Start] and [dal/app.go] *)
Record ServerConfig : Type := mkServerConfig {
  sv_Port : string; sv_Collector : option Collector; sv_Hub : option Hub.Hub; sv_KeyCache : option KeyCache.KeyCache;
  sv_StatsApp : StatsApp
}.
Definition NewServer (co : Collector) (k : KeyCache.KeyCache) (h : Hub.Hub) (st : StatsApp) : ServerV2 := mkServer co h k st.

(** Up to the point where the server listens; [listen] is the outcome of that. *)
Definition Start (config : ServerConfig) (listen : option error) : res ServerV2 :=
  if bool_decide (sv_Port config = ""%string) then Err ErrDalPortNotFound else
  match sv_Collector config, sv_Hub config, sv_KeyCache config with
  | None, _, _ => Err ErrDalCollectorNotFound
  | _, None, _ => Err ErrDalHubNotFound
  | _, _, None => Err ErrDalKeyCacheNotFound
  | Some co, Some h, Some k =>
      match listen with
      | Some err => Err err
      | None => Ok (NewServer co k h (sv_StatsApp config))
      end
  end.

Definition fetchSymbols (names : res (list string)) : res (list string) :=
  match names with
  | Err err => Err err
  | Ok [] => Err ErrDalSymbolsNotFound
  | Ok results => Ok results
  end.

(** [Run] up to serving; [oracles] is what the collector reads from the chain. *)
Definition Run {CR : Crypto} (chain : string) (names : res (list string)) (oracles : res (list Address)) (listen : option error)
    : res ServerV2 :=
  let stats := NewStatsApp [] in
  let keyCache := KeyCache.NewAPIKeyCache (3600 * Second) in
  if bool_decide (chain = ""%string) then Err ErrDalChainEnvNotFound else
  match fetchSymbols names with
  | Err err => Err err
  | Ok symbols =>
      match NewCollector oracles symbols with
      | Err err => Err err
      | Ok co =>
          let co := Collector.Start co in
          let h := Hub.HubSetup symbols in
          Start (mkServerConfig "8090" (Some co) (Some h) (Some keyCache) stats) listen
      end
  end.

(** ** Columns and rows *)
Definition columns (l : list OutgoingSubmissionData) : BulkResponse :=
  mkBulk (o_Symbol <$> l) (o_Value <$> l) (o_AggregateTime <$> l) (o_Proof <$> l) (o_FeedHash <$> l) (o_Decimals <$> l).
Definition transpose (r : Response) : Response :=
  mkResponse (status r) (match content r with BFeeds l => BBulk (columns l) | b => b end).

Lemma transposed_loop_feeds c symbols l :
  transposed_loop c symbols (columns l) = transpose (feeds_loop c symbols l).
Proof.
  revert l. induction symbols as [|x symbols IH]; intros l; simpl; [done|].
  case_bool_decide; [apply IH|]. destruct (negb _); [done|].
  destruct (GetLatestData _ c) as [d|]; [|done]. rewrite <- IH. f_equal. unfold columns. simpl.
  by rewrite !fmap_app.
Qed.

(** C23: The transposed endpoints answer exactly what the plain ones do, turned
    from rows into columns: the same status, the same error texts, and for data
    the same entries in the same order, for every text of symbols. *)
Theorem transposed_equivalent c order x :
  TransposedLatestFeedsHandler c x = transpose (LatestFeedsHandler c x) /\
  AllLatestFeedsTransposedHandler c order = transpose (AllLatestFeedsHandler c order).
Proof.
  split; [|done]. unfold TransposedLatestFeedsHandler, LatestFeedsHandler. case_bool_decide; [done|].
  apply (transposed_loop_feeds c _ []).
Qed.

(** ** What is served for a text of symbols *)
Definition asked (x : string) : list string :=
  filter (fun s => s <> ""%string) (Split (ReplaceAll x " "%char "") ","%char).

Lemma mapM_omap {A B} (f : A -> option B) l k : mapM f l = Some k -> omap f l = k.
Proof.
  revert k. induction l as [|x l IH]; intros k; simpl; [by intros [= <-]|].
  destruct (f x) as [y|]; [|done]. simpl. destruct (mapM f l) as [k'|]; [|done]. simpl. intros [= <-].
  f_equal. by apply IH.
Qed.

Lemma feeds_loop_spec c symbols acc :
  let wanted := filter (fun s => s <> ""%string) symbols in
  (Forall (fun s => Contains s "-" = true) wanted ->
     unstrict_loop c symbols acc = mkResponse StatusOK (BFeeds (acc ++ omap (fun s => LatestData c !! normal s) wanted)) /\
     forall l, feeds_loop c symbols acc = mkResponse StatusOK (BFeeds l) <->
       exists l', mapM (fun s => LatestData c !! normal s) wanted = Some l' /\ l = acc ++ l') /\
  (~ Forall (fun s => Contains s "-" = true) wanted ->
     status (unstrict_loop c symbols acc) = StatusBadRequest /\ status (feeds_loop c symbols acc) <> StatusOK).
Proof.
  revert acc. induction symbols as [|x symbols IH]; intros acc; simpl.
  { split; [|intros H; exfalso; by apply H]. intros _. rewrite app_nil_r. split; [done|].
    intros l. split; [intros [= <-]; exists []; split; [done|by rewrite app_nil_r]|].
    intros (l' & [= <-] & ->). by rewrite app_nil_r. }
  destruct (decide (x = ""%string)) as [->|Hx].
  { rewrite filter_cons_False by (intros Hn; by apply Hn). apply IH. }
  rewrite filter_cons_True, bool_decide_false by done.
  rewrite Forall_cons. destruct (Contains x "-") eqn:Hc; simpl.
  2:{ split; [by intros [? ?]|]. intros _. done. }
  unfold GetLatestData. destruct (LatestData c !! normal x) as [d|] eqn:Hd; simpl.
  - destruct (IH (acc ++ [d])) as [H1 H2]. split.
    + intros [_ Hf]. destruct (H1 Hf) as [-> Hs]. rewrite <- app_assoc. split; [done|]. intros l. rewrite Hs.
      split; intros (l' & Hm & ->).
      * exists (d :: l'). rewrite Hm. simpl. split; [done|]. by rewrite <- app_assoc.
      * destruct (mapM _ (filter _ symbols)) as [l0|]; simpl in Hm; [|done]. injection Hm as <-.
        exists l0. split; [done|]. by rewrite <- app_assoc.
    + intros Hn. apply H2. intros Hf. by apply Hn.
  - destruct (IH acc) as [H1 H2]. split.
    + intros [_ Hf]. destruct (H1 Hf) as [-> _]. split; [done|]. intros l. split; [done|]. by intros (l' & ? & _).
    + intros Hn. split; [|done]. apply H2. intros Hf. by apply Hn.
Qed.

(** For a text of symbols that is not empty, with every entry in the form
    base-quote: the strict endpoint serves the latest data of all of them, in the
    order asked for, exactly when all are known; the other serves the data of those
    that are known, and nothing else; and when the strict one serves data, both
    agree.  With a malformed entry neither serves data. *)
Theorem latest_feeds_spec c x :
  x <> ""%string ->
  (Forall (fun s => Contains s "-" = true) (asked x) ->
     LatestFeedsHandlerUnstrict c x =
       mkResponse StatusOK (BFeeds (omap (fun s => LatestData c !! normal s) (asked x))) /\
     (forall l, LatestFeedsHandler c x = mkResponse StatusOK (BFeeds l) <->
        mapM (fun s => LatestData c !! normal s) (asked x) = Some l) /\
     (forall l, LatestFeedsHandler c x = mkResponse StatusOK (BFeeds l) ->
        LatestFeedsHandlerUnstrict c x = mkResponse StatusOK (BFeeds l))) /\
  (~ Forall (fun s => Contains s "-" = true) (asked x) ->
     status (LatestFeedsHandlerUnstrict c x) = StatusBadRequest /\ status (LatestFeedsHandler c x) <> StatusOK).
Proof.
  intros Hx. unfold LatestFeedsHandlerUnstrict, LatestFeedsHandler. rewrite bool_decide_false by done.
  destruct (feeds_loop_spec c (Split (ReplaceAll x " "%char "") ","%char) []) as [H1 H2]. fold (asked x) in *.
  split; [|done]. intros Hf. destruct (H1 Hf) as [-> Hs].
  assert (forall l, feeds_loop c (Split (ReplaceAll x " "%char "") ","%char) [] = mkResponse StatusOK (BFeeds l) <->
    mapM (fun s => LatestData c !! normal s) (asked x) = Some l) as Hl.
  { intros l. rewrite Hs. split; [by intros (l' & ? & ->)|]. intros. exists l. done. }
  split_and!; [done..|]. intros l Hl'%Hl. simpl. do 2 f_equal. by apply mapM_omap.
Qed.

Lemma latest_feeds_spec_witness :
  let c := mkCollector ∅ ∅ ∅ {["BTC-USDT"%string := mkOutgoing "BTC-USDT" "7" "1" "0x" "0x" "8"]} [] true true in
  LatestFeedsHandlerUnstrict c "btc-usdt, ETH-USDT" =
    mkResponse StatusOK (BFeeds [mkOutgoing "BTC-USDT" "7" "1" "0x" "0x" "8"]).
Proof.
  intros c. destruct (latest_feeds_spec c "btc-usdt, ETH-USDT") as [H _]; [done|].
  destruct H as [-> _]; [by vm_compute; repeat constructor|]. by vm_compute.
Defined.

(** ** Keys *)

(** Data, as opposed to texts. *)
Definition has_data (r : Response) : bool := match content r with BText _ => false | _ => true end.

(** The path of the request URI "/" is one empty segment. *)
Definition well_formed (r : Request) : Prop := RequestURI r = "/"%string -> path r = [""%string].

(** A request as it arrives: the time, the database's answer for its key, the
    order of a map, what [Accept] writes and how long it takes. *)
Record arrival : Type := mkArrival {
  a_now : Z; a_row : res bool; a_order : list OutgoingSubmissionData -> list OutgoingSubmissionData;
  a_upgrade : Z; a_time : Z; a_request : Request
}.
Definition serve (a : arrival) (s : ServerV2) : Response * option ServerV2 :=
  ServeHTTP (a_now a) (a_row a) (a_order a) (a_upgrade a) (a_time a) (a_request a) s.

(** The responses to requests served one after the other; a request that waits
    for the statistics ends the list.  Between requests the rest of the server
    may change anything but the keys. *)
Inductive served : KeyCache.KeyCache -> list (arrival * Response) -> KeyCache.KeyCache -> Prop :=
| served_nil k : served k [] k
| served_snoc k0 l s a resp s' :
    served k0 l (keyCache s) -> serve a s = (resp, Some s') -> served k0 (l ++ [(a, resp)]) (keyCache s')
| served_cleanup k0 l k now : served k0 l k -> served k0 l (KeyCache.Cleanup now k).

(** Every key of the cache was found in the database by a request so far, one
    time to live before it expires. *)
Definition cache_from (l : list (arrival * Response)) (k : KeyCache.KeyCache) : Prop :=
  forall key e, KeyCache.keys k !! key = Some e ->
    exists ar, ar ∈ l /\ apiKey (a_request ar.1) = key /\ a_row ar.1 = Ok true /\ e = a_now ar.1 + KeyCache.ttl k.

Lemma checkAPIKey_spec now row key k ok k' :
  checkAPIKey now row key k = (ok, k') ->
  KeyCache.ttl k' = KeyCache.ttl k /\
  (ok = true -> key <> ""%string /\ (KeyCache.Get now key k = true \/ row = Ok true)) /\
  (k' = k \/ row = Ok true /\ k' = KeyCache.Set_ now key k).
Proof.
  unfold checkAPIKey. case_bool_decide; [intros [= <- <-]; naive_solver|].
  destruct (KeyCache.Get now key k) eqn:Hg; [intros [= <- <-]; naive_solver|].
  destruct row as [[]|]; simpl; intros [= <- <-]; naive_solver.
Qed.

Lemma ServeHTTP_keys now row order up t r s resp s' :
  ServeHTTP now row order up t r s = (resp, s') -> well_formed r ->
  (has_data resp = true -> apiKey r <> ""%string /\ (KeyCache.Get now (apiKey r) (keyCache s) = true \/ row = Ok true)) /\
  (forall s1, s' = Some s1 -> KeyCache.ttl (keyCache s1) = KeyCache.ttl (keyCache s) /\
     (keyCache s1 = keyCache s \/ row = Ok true /\ keyCache s1 = KeyCache.Set_ now (apiKey r) (keyCache s))).
Proof.
  unfold ServeHTTP. intros Hs Hwf. case_bool_decide as Hu.
  - simpl in Hs. unfold route in Hs. rewrite (Hwf Hu) in Hs. simpl in Hs.
    replace (if _ && false then SymbolsH else Health) with Health in Hs by (by rewrite andb_false_r).
    simplify_eq/=. split; [done|]. intros s1. destruct (log_request _ _ _ _ _); intros [= <-]. auto.
  - destruct (checkAPIKey now row (apiKey r) (keyCache s)) as [ok k] eqn:Hk.
    apply checkAPIKey_spec in Hk as (Ht & Hok & Hk). destruct ok; simplify_eq/=.
    + split; [intros _; by apply Hok|]. intros s1. destruct (log_request _ _ _ _ _); intros [= <-]. auto.
    + split; [done|]. intros s1 [= <-]. auto.
Qed.

Lemma served_cache k0 l k :
  KeyCache.keys k0 = ∅ -> Forall (fun ar : arrival * Response => well_formed (a_request ar.1)) l -> served k0 l k ->
  KeyCache.ttl k = KeyCache.ttl k0 /\ cache_from l k.
Proof.
  intros H0 Hwf Hs. induction Hs as [k|k0 l s a resp s' Hs IH Ha|k0 l k now Hs IH].
  - split; [done|]. intros key e. by rewrite H0, lookup_empty.
  - apply Forall_app in Hwf as [Hwf Hw]. apply Forall_inv in Hw. destruct (IH H0 Hwf) as [Ht Hc].
    apply ServeHTTP_keys in Ha as [_ Ha]; [|done]. destruct (Ha _ eq_refl) as [Ht' Hk].
    split; [congruence|]. intros key e Hl. destruct Hk as [Hk|[Hr Hk]]; rewrite Hk in Hl |- *.
    + destruct (Hc _ _ Hl) as (ar & ? & ? & ? & ?). exists ar. set_solver.
    + simpl in Hl. destruct (decide (apiKey (a_request a) = key)) as [<-|Hne].
      * rewrite lookup_insert_eq in Hl. exists (a, resp). simplify_eq. set_solver.
      * rewrite lookup_insert_ne in Hl by done. destruct (Hc _ _ Hl) as (ar & ? & ? & ? & ?). exists ar. set_solver.
  - destruct (IH H0 Hwf) as [Ht Hc]. split; [done|]. intros key e Hl. simpl in Hl.
    apply map_lookup_filter_Some in Hl as [Hl _]. by apply Hc.
Qed.

(** C22: Without a key there is no data.  Whatever requests were served since the
    cache of keys was empty, a response that carries symbols or feed data went to
    a request whose key the database confirmed, then or at most one time to live
    earlier. *)
Theorem data_needs_key k0 l s a resp s' :
  KeyCache.keys k0 = ∅ -> Forall (fun ar : arrival * Response => well_formed (a_request ar.1)) l ->
  served k0 l (keyCache s) -> well_formed (a_request a) -> serve a s = (resp, s') -> has_data resp = true ->
  apiKey (a_request a) <> ""%string /\
  (a_row a = Ok true \/
   exists ar, ar ∈ l /\ apiKey (a_request ar.1) = apiKey (a_request a) /\ a_row ar.1 = Ok true /\
     a_now a <= a_now ar.1 + KeyCache.ttl k0).
Proof.
  intros H0 Hwf Hs Hw Ha Hd. destruct (served_cache k0 l (keyCache s) H0 Hwf Hs) as [Ht Hc].
  apply ServeHTTP_keys in Ha as [Hk _]; [|done]. destruct (Hk Hd) as [Hne [Hg|Hr]]; split; auto.
  unfold KeyCache.Get in Hg. destruct (KeyCache.keys (keyCache s) !! _) as [e|] eqn:He; [|done].
  apply negb_true_iff, Z.ltb_ge in Hg. destruct (Hc _ _ He) as (ar & ? & ? & ? & ->). right. exists ar.
  split_and!; [done..|]. rewrite <- Ht. lia.
Qed.

Definition w_server : ServerV2 :=
  mkServer (mkCollector ∅ ∅ ∅ ∅ [] true true) (Hub.HubSetup ["BTC-USDT"%string]) (KeyCache.NewAPIKeyCache 3600)
    (NewStatsApp []).
Definition w_arrival : arrival :=
  mkArrival 5 (Ok true) id 101 1 (mkRequest "GET" "/symbols" ["symbols"%string] "key").

Lemma data_needs_key_witness :
  has_data (serve w_arrival w_server).1 = true /\ apiKey (a_request w_arrival) <> ""%string.
Proof.
  split; [reflexivity|].
  apply (data_needs_key (KeyCache.NewAPIKeyCache 3600) [] w_server w_arrival (serve w_arrival w_server).1
    (serve w_arrival w_server).2); try reflexivity; [constructor|constructor|done].
Defined.

(** ** Websocket clients *)
Lemma run_ops_subscribes client msgs h :
  is_Some (Hub.Clients h !! client) ->
  is_Some (Hub.Clients (run_ops client (OpSubscribe <$> msgs) h) !! client).
Proof.
  revert h. induction msgs as [|m msgs IH]; intros h Hh; [done|]. simpl. apply IH.
  unfold Hub.HandleSubscription. destruct (Hub.subscribe_loop _ _ _ _). simpl. rewrite lookup_insert_eq. eauto.
Qed.

(** When a connection ends, the hub has forgotten its client exactly if the
    row of the statistics could be written when it began: after a failed insertion
    the handler leaves before the unregistration is set up, and the closed
    connection stays among the clients. *)
Theorem ws_client_removed_iff client id msgs h :
  Hub.Clients h !! client = None ->
  (Hub.Clients (run_ops client (WSHandler true id msgs) h) !! client = None <-> exists n, id = Ok n).
Proof.
  intros Hn. unfold WSHandler. simpl. unfold Hub.addClient. rewrite Hn.
  assert (is_Some (Hub.Clients (Hub.mkHub (Hub.Symbols h) (<[client := ∅]> (Hub.Clients h))) !! client)) as Hs
    by (simpl; rewrite lookup_insert_eq; eauto).
  destruct id as [n|e].
  - split; [eauto|]. intros _. unfold run_ops. simpl. rewrite fold_left_app. simpl.
    apply (run_ops_subscribes client (filter (fun m => Hub.Method m = "SUBSCRIBE"%string) msgs)) in Hs as [subs Hs].
    unfold Hub.removeClient. unfold run_ops in Hs. rewrite Hs. simpl. apply lookup_delete_eq.
  - unfold run_ops. simpl. rewrite lookup_insert_eq. split; [done|]. by intros [n ?].
Qed.

Lemma ws_client_removed_iff_witness :
  Hub.Clients (run_ops 1 (WSHandler true (Ok 4) [Hub.mkSubscription "SUBSCRIBE" ["submission@BTC-USDT"%string]])
    (Hub.HubSetup ["BTC-USDT"%string])) !! 1%nat = None.
Proof.
  apply (ws_client_removed_iff 1 (Ok 4) [Hub.mkSubscription "SUBSCRIBE" ["submission@BTC-USDT"%string]]
    (Hub.HubSetup ["BTC-USDT"%string])); [reflexivity|]. by exists 4.
Defined.

(** ** Statistics *)

(** Requests logged and ticks, in any order; the list: the entries accepted since
    the start. *)
Inductive stats_run : StatsApp -> list RestEntry -> StatsApp -> Prop :=
| stats_start opts : stats_run (NewStatsApp opts) [] (NewStatsApp opts)
| stats_log a0 l a key uri st t a' :
    stats_run a0 l a -> log_request key uri st t a = Some a' ->
    stats_run a0 (if bool_decide (key = ""%string) || bool_decide (uri = "/"%string) then l
                  else l ++ [mkRestEntry key uri st t]) a'
| stats_tick a0 l a : stats_run a0 l a -> stats_run a0 l (Run_tick None a).

Definition micro (e : RestEntry) : RestEntry := mkRestEntry (ApiKey e) (Endpoint e) (re_StatusCode e) (ResponseTime e / 1000).

(** While the database accepts the copies, every logged request is in the table
    or in the buffer, once and in order, and the buffer keeps to its size. *)
Lemma stats_exact a0 l a :
  stats_run a0 l a ->
  micro <$> l = rest_calls a ++ (micro <$> RestEntryBuffer a) /\ (length (RestEntryBuffer a) <= BufferSize a)%nat.
Proof.
  induction 1 as [opts|a0 l a key uri st t a' _ [IH IHl] Hl|a0 l a _ [IH IHl]].
  - split; [done|simpl; lia].
  - unfold log_request in Hl. case_bool_decide; simpl; [by simplify_eq|]. case_bool_decide; [by simplify_eq|].
    destruct (_ <? _)%nat eqn:Hlt; [|done]. simplify_eq/=. apply Nat.ltb_lt in Hlt.
    rewrite !fmap_app, IH, length_app. simpl. split; [by rewrite <- app_assoc|lia].
  - unfold Run_tick. simpl. split; [|lia]. rewrite app_nil_r. fold micro. case_bool_decide as He; [|done].
    change ((fun e => _) <$> RestEntryBuffer a) with (micro <$> RestEntryBuffer a) in He.
    rewrite He, app_nil_r in IH. done.
Qed.

(** A full buffer holds every request with a key until the next tick, up to ten
    minutes later. *)
Lemma full_buffer_blocks key uri st t a :
  key <> ""%string -> uri <> "/"%string -> length (RestEntryBuffer a) = BufferSize a ->
  log_request key uri st t a = None.
Proof.
  intros Hk Hu Hl. unfold log_request. rewrite !bool_decide_false by done.
  by rewrite (proj2 (Nat.ltb_ge _ _)) by lia.
Qed.
End DalApi.
