(* ===== verification/DalStats.v ===== *)
(** * The statistics tables of the data access layer

    [node/pkg/dal/utils/stats/stats.go], the rest of it: the writer that records
    the status of an answer, and the statements on the tables [rest_calls],
    [websocket_connections] and [websocket_subscriptions], which
    [node/migrations/dal/000003_measures.up.sql] declares: serial ids, columns of
    type INT, and subscriptions that refer to a connection.

    Times are microseconds, as the database keeps them.  A statement runs as a
    whole or fails and changes nothing; [fault] is an error of the connection. *)

From S2P Require Import Prelude Errors Text Util DalApi.
Import Text DalApi.

Local Open Scope Z_scope.
Local Open Scope go_scope.

Module DalStats.

(** ** The writer *)

(** The library's writer: the first header counts, and a write without one
    sends 200. *)
Record ResponseWriter : Type := mkWriter { sent_status : option Z; sent_body : string }.
Definition w_Write (buf : string) (w : ResponseWriter) : ResponseWriter :=
  mkWriter (Some (default 200 (sent_status w))) (sent_body w +:+ buf).
Definition w_WriteHeader (code : Z) (w : ResponseWriter) : ResponseWriter :=
  mkWriter (Some (default code (sent_status w))) (sent_body w).

Record StatsLogger : Type := mkLogger { w : ResponseWriter; body : string; statusCode : Z }.
Definition NewStatsLogger (w : ResponseWriter) : StatsLogger := mkLogger w "" 200.
Definition sl_Write (buf : string) (sl : StatsLogger) : StatsLogger :=
  mkLogger (w_Write buf (w sl)) (body sl +:+ buf) (statusCode sl).
Definition WriteHeader (code : Z) (sl : StatsLogger) : StatsLogger :=
  mkLogger (w_WriteHeader code (w sl)) (body sl) code.

(** What a handler does with its writer. *)
Inductive wcall : Type := CWrite (buf : string) | CHeader (code : Z).
Definition run_call (sl : StatsLogger) (c : wcall) : StatsLogger :=
  match c with CWrite buf => sl_Write buf sl | CHeader code => WriteHeader code sl end.
Definition is_header (c : wcall) : bool := match c with CHeader _ => true | _ => false end.

(** The body recorded is the body sent; and a handler that sets the status at
    most once, before it writes, has the status that is sent recorded. *)
Lemma logger_faithful (calls : list wcall) :
  let sl := fold_left run_call calls (NewStatsLogger (mkWriter None "")) in
  body sl = sent_body (w sl) /\
  (match calls with [] => True | _ :: rest => Forall (fun c => is_header c = false) rest end ->
   statusCode sl = default 200 (sent_status (w sl))).
Proof.
  assert (Hbody : forall cs sl, body sl = sent_body (w sl) ->
    body (fold_left run_call cs sl) = sent_body (w (fold_left run_call cs sl))).
  { induction cs as [|[] cs IH]; intros sl Hb; simpl; [done|apply IH; simpl; by rewrite Hb|by apply IH]. }
  assert (Hrest : forall cs sl, Forall (fun c => is_header c = false) cs -> statusCode sl = default 200 (sent_status (w sl)) ->
    statusCode (fold_left run_call cs sl) = default 200 (sent_status (w (fold_left run_call cs sl)))).
  { induction cs as [|c cs IH]; intros sl Hc Hs; simpl; [done|]. inversion Hc; subst. apply IH; [done|]. by destruct c. }
  intros sl. split; [by apply Hbody|]. unfold sl. destruct calls as [|c calls]; [done|]. intros Hc.
  simpl. apply Hrest; [done|]. by destruct c.
Qed.

(** A header after the first write is recorded but not sent. *)
Example late_header :
  let sl := fold_left run_call [CWrite "ok"; CHeader 500] (NewStatsLogger (mkWriter None "")) in
  statusCode sl = 500 /\ sent_status (w sl) = Some 200.
Proof. by vm_compute. Qed.

(** ** The tables *)

Record Connection : Type := mkConnection {
  c_id : Z; c_api_key : string; c_timestamp : Z; connection_end : option Z; duration : option Z
}.
Record SubscriptionRow : Type := mkSubscriptionRow { connection_id : Z; topic : string }.
(** [next_id]: the sequence of [websocket_connections]. *)
Record Tables : Type := mkTables {
  rest_calls_rows : list RestEntry; connections : list Connection; subscriptions : list SubscriptionRow; next_id : Z
}.
Definition empty_tables : Tables := mkTables [] [] [] 1.

Definition OutOfRange : error := External "ERROR: integer out of range (SQLSTATE 22003)".
Definition ForeignKey : error := External "ERROR: insert or update violates foreign key constraint (SQLSTATE 23503)".
Definition SyntaxError : error := External "ERROR: syntax error at end of input (SQLSTATE 42601)".
Definition SequenceEnd : error := External "ERROR: nextval: reached maximum value of sequence (SQLSTATE 2200H)".
Definition fits_int (z : Z) : bool := (- 2 ^ 31 <=? z) && (z <? 2 ^ 31).
Definition storable (e : RestEntry) : bool := fits_int (re_StatusCode e) && fits_int (ResponseTime e).

(** [responseTime] is a duration; [Microseconds] rounds towards zero. *)
Definition InsertRestCall (fault : option error) (apiKey endpoint : string) (statusCode responseTime : Z) (t : Tables)
    : Tables * option error :=
  let entry := mkRestEntry apiKey endpoint statusCode (Z.quot responseTime 1000) in
  match fault with
  | Some err => (t, Some err)
  | None =>
      if storable entry
      then (mkTables (rest_calls_rows t ++ [entry]) (connections t) (subscriptions t) (next_id t), None)
      else (t, Some OutOfRange)
  end.

Definition InsertWebsocketConnection (fault : option error) (now : Z) (apiKey : string) (t : Tables) : Tables * res Z :=
  match fault with
  | Some err => (t, Err err)
  | None =>
      if next_id t <? 2 ^ 31
      then (mkTables (rest_calls_rows t) (connections t ++ [mkConnection (next_id t) apiKey now None None])
              (subscriptions t) (next_id t + 1), Ok (next_id t))
      else (t, Err SequenceEnd)
  end.

(** Milliseconds since the start of the connection, rounded to the nearest. *)
Definition elapsed (now : Z) (c : Connection) : Z := (now - c_timestamp c + 500) / 1000.
Definition end_connection (now : Z) (c : Connection) : Connection :=
  mkConnection (c_id c) (c_api_key c) (c_timestamp c) (Some now) (Some (elapsed now c)).
Definition UpdateWebsocketConnection (fault : option error) (now : Z) (connectionId : Z) (t : Tables) : Tables * option error :=
  let hit := fun c => bool_decide (c_id c = connectionId) in
  match fault with
  | Some err => (t, Some err)
  | None =>
      if forallb (fun c => negb (hit c) || fits_int (elapsed now c)) (connections t)
      then (mkTables (rest_calls_rows t) ((fun c => if hit c then end_connection now c else c) <$> connections t)
              (subscriptions t) (next_id t), None)
      else (t, Some OutOfRange)
  end.

(** The bulk insert of one row per topic; without topics the statement has no
    values. *)
Definition InsertWebsocketSubscriptions (fault : option error) (connectionId : Z) (topics : list string) (t : Tables)
    : Tables * option error :=
  match fault with
  | Some err => (t, Some err)
  | None =>
      match topics with
      | [] => (t, Some SyntaxError)
      | _ =>
          if existsb (fun c => bool_decide (c_id c = connectionId)) (connections t)
          then (mkTables (rest_calls_rows t) (connections t)
                  (subscriptions t ++ (mkSubscriptionRow connectionId <$> topics)) (next_id t), None)
          else (t, Some ForeignKey)
      end
  end.

(** ** Theorems *)

Inductive Op : Type :=
| OpCall (apiKey endpoint : string) (statusCode responseTime : Z)
| OpConnect (now : Z) (apiKey : string)
| OpEnd (now : Z) (id : Z)
| OpTopics (id : Z) (topics : list string).
Definition run_stmt (t : Tables) (x : Op * option error) : Tables :=
  let '(op, fault) := x in
  match op with
  | OpCall k e s r => (InsertRestCall fault k e s r t).1
  | OpConnect now k => (InsertWebsocketConnection fault now k t).1
  | OpEnd now id => (UpdateWebsocketConnection fault now id t).1
  | OpTopics id topics => (InsertWebsocketSubscriptions fault id topics t).1
  end.

(** Ids are unique and below the sequence, and a subscription has its
    connection. *)
Record tables_ok (t : Tables) : Prop := mkOk {
  ok_ids : NoDup (c_id <$> connections t);
  ok_below : Forall (fun c => c_id c < next_id t) (connections t);
  ok_refs : Forall (fun s => connection_id s ∈ c_id <$> connections t) (subscriptions t)
}.

Lemma ended_ids now id (l : list Connection) : c_id <$> ((fun c => if bool_decide (c_id c = id) then end_connection now c else c) <$> l) = c_id <$> l.
Proof. rewrite <- list_fmap_compose. apply list_fmap_ext. intros i c _. simpl. by case_bool_decide. Qed.

Lemma stmt_ok t x : tables_ok t -> tables_ok (run_stmt t x).
Proof.
  intros [Hn Hb Hr]. destruct x as [op [err|]]; [by destruct op; split|]. destruct op as [k e st r|now k|now id|id topics]; simpl.
  - unfold InsertRestCall. by destruct (storable _); split.
  - unfold InsertWebsocketConnection. destruct (_ <? _); [|by split]. split; simpl.
    + rewrite fmap_app. apply NoDup_app. split_and!; [done| |apply NoDup_singleton].
      intros z Hz Hin. apply list_elem_of_singleton in Hin. subst z. apply list_elem_of_fmap in Hz as (c & Hc & Hin).
      pose proof (proj1 (List.Forall_forall _ _) Hb c) as Hlt. rewrite <- list_elem_of_In in Hlt. specialize (Hlt Hin). simpl in Hc. lia.
    + apply Forall_app. split; [|by repeat constructor; simpl; lia]. eapply Forall_impl; [exact Hb|]. simpl. lia.
    + eapply Forall_impl; [exact Hr|]. intros s Hs. rewrite fmap_app. set_solver.
  - unfold UpdateWebsocketConnection. destruct (forallb _ _); [|by split]. split; simpl; rewrite ?ended_ids; [done| |done].
    apply Forall_fmap. eapply Forall_impl; [exact Hb|]. intros c Hc. simpl. by case_bool_decide.
  - unfold InsertWebsocketSubscriptions. destruct topics as [|tp topics]; [by split|].
    destruct (existsb _ _) eqn:He; [|by split]. split; [done|done|]. simpl. apply Forall_app. split; [done|].
    apply existsb_exists in He as (c & Hc & Hid). apply bool_decide_eq_true_1 in Hid.
    assert (id ∈ c_id <$> connections t) by (subst id; by apply list_elem_of_fmap_2, list_elem_of_In).
    change (Forall (fun s => connection_id s ∈ c_id <$> connections t) (mkSubscriptionRow id <$> (tp :: topics))).
    apply Forall_fmap, Forall_true. done.
Qed.
Lemma run_stmts_ok ops t : tables_ok t -> tables_ok (fold_left run_stmt ops t).
Proof. revert t. induction ops as [|x ops IH]; intros t Ht; [done|]. by apply IH, stmt_ok. Qed.

(** The row of a connection is left alone by everything but its own end. *)
Definition not_end (id : Z) (x : Op * option error) : Prop := match x.1 with OpEnd _ id' => id' <> id | _ => True end.
Lemma row_stays c x t : not_end (c_id c) x -> c ∈ connections t -> c ∈ connections (run_stmt t x).
Proof.
  intros Hx Hc. destruct x as [op [err|]]; [by destruct op|]. destruct op as [k e st r|now k|now id|id topics]; simpl in *.
  - unfold InsertRestCall. by destruct (storable _).
  - unfold InsertWebsocketConnection. destruct (_ <? _); simpl; set_solver.
  - unfold UpdateWebsocketConnection. destruct (forallb _ _); [|done]. simpl. apply list_elem_of_fmap. exists c.
    split; [|done]. unfold not_end in Hx. simpl in Hx. by rewrite bool_decide_false by congruence.
  - unfold InsertWebsocketSubscriptions. destruct topics; [done|]. by destruct (existsb _ _).
Qed.
Lemma row_stays_run c ops t : Forall (not_end (c_id c)) ops -> c ∈ connections t -> c ∈ connections (fold_left run_stmt ops t).
Proof. intros H. revert t. induction H as [|x ops Hx _ IH]; intros t Hc; [done|]. by apply IH, row_stays. Qed.

Lemma update_in_range now c t :
  tables_ok t -> c ∈ connections t ->
  forallb (fun d => negb (bool_decide (c_id d = c_id c)) || fits_int (elapsed now d)) (connections t) = fits_int (elapsed now c).
Proof.
  intros [Hn _ _] Hc. destruct (fits_int (elapsed now c)) eqn:Hf.
  - apply forallb_forall. intros d Hd. case_bool_decide as He; [simpl|done].
    assert (d = c) as ->; [|done]. apply list_elem_of_In in Hd.
    apply list_elem_of_lookup in Hc as [i Hi]. apply list_elem_of_lookup in Hd as [j Hj].
    assert (i = j) as ->; [|congruence]. eapply (NoDup_lookup (c_id <$> connections t)); [done| |].
    + rewrite list_lookup_fmap, Hi. done.
    + rewrite list_lookup_fmap, Hj. simpl. by rewrite He.
  - apply Bool.not_true_iff_false. rewrite forallb_forall. intros Hall. apply list_elem_of_In in Hc.
    specialize (Hall _ Hc). simpl in Hall. rewrite bool_decide_true, Hf in Hall; done.
Qed.

(** A connection that is opened has one row, which every other statement leaves
    alone; when it ends within 2^31 milliseconds the row gets the end and the
    duration to the nearest millisecond, otherwise the statement fails and the
    row stays open. *)
Theorem connection_recorded t0 apiKey start ops finish id t1 :
  tables_ok t0 -> start <= finish ->
  InsertWebsocketConnection None start apiKey t0 = (t1, Ok id) ->
  Forall (not_end id) ops ->
  let '(t, err) := UpdateWebsocketConnection None finish id (fold_left run_stmt ops t1) in
  let d := (finish - start + 500) / 1000 in
  tables_ok t /\ (err = None <-> d < 2 ^ 31) /\ Z.abs (1000 * d - (finish - start)) <= 500 /\
  mkConnection id apiKey start (if d <? 2 ^ 31 then Some finish else None) (if d <? 2 ^ 31 then Some d else None) ∈ connections t.
Proof.
  intros Hok Hle Hins Hops. set (t := fold_left run_stmt ops t1).
  assert (Ht1 : tables_ok t1) by (pose proof (stmt_ok t0 (OpConnect start apiKey, None) Hok) as H;
    change (tables_ok (InsertWebsocketConnection None start apiKey t0).1) in H; by rewrite Hins in H).
  assert (Ht : tables_ok t) by by apply run_stmts_ok.
  set (c := mkConnection id apiKey start None None).
  assert (Hc : c ∈ connections t).
  { apply row_stays_run; [done|]. unfold InsertWebsocketConnection in Hins. destruct (_ <? _); [|done].
    injection Hins as <- <-. simpl. set_solver. }
  assert (Hd : forall n, (n + 500) / 1000 * 1000 <= n + 500 < ((n + 500) / 1000 + 1) * 1000).
  { intros n. pose proof (Z.div_mod (n + 500) 1000). pose proof (Z.mod_pos_bound (n + 500) 1000). lia. }
  specialize (Hd (finish - start)).
  assert (Hf : fits_int (elapsed finish c) = ((finish - start + 500) / 1000 <? 2 ^ 31)).
  { unfold fits_int, elapsed. simpl. rewrite (proj2 (Z.leb_le _ _)); [done|]. lia. }
  pose proof (stmt_ok t (OpEnd finish id, None) Ht) as Hend.
  change (tables_ok (UpdateWebsocketConnection None finish id t).1) in Hend. revert Hend.
  unfold UpdateWebsocketConnection. cbv beta zeta. pose proof (update_in_range finish c t Ht Hc) as Hr.
  change (c_id c) with id in Hr. rewrite Hf in Hr. rewrite Hr.
  destruct (Z.ltb_spec ((finish - start + 500) / 1000) (2 ^ 31)) as [Hlt|Hge]; intros Hend;
    (split; [exact Hend|]); (split; [split; [intros ?; first [done|lia]|done || lia]|]); (split; [lia|]); [|exact Hc].
  simpl. apply list_elem_of_fmap. exists c. split; [|done]. simpl. by rewrite bool_decide_true.
Qed.

(** What the database answers to the copy of a tick. *)
Definition copy_answer (a : StatsApp) : option error :=
  if forallb storable (micro <$> RestEntryBuffer a) then None else Some OutOfRange.

(** One request that took 2^31 microseconds or more, about 36 minutes, which a
    websocket connection does, makes the copy of all entries of its tick fail: they
    are lost. *)
Theorem slow_request_loses_tick a e :
  e ∈ RestEntryBuffer a -> 2 ^ 31 * 1000 <= ResponseTime e ->
  rest_calls (Run_tick (copy_answer a) a) = rest_calls a /\ RestEntryBuffer (Run_tick (copy_answer a) a) = [].
Proof.
  intros He Hlong. assert (copy_answer a = Some OutOfRange) as ->.
  { unfold copy_answer. destruct (forallb storable _) eqn:Hf; [|done]. exfalso.
    assert (Hs : storable (micro e) = true).
    { apply (proj1 (forallb_forall _ _) Hf). by apply list_elem_of_In, list_elem_of_fmap_2. }
    unfold storable, fits_int in Hs. simpl in Hs. apply andb_prop in Hs as [_ Hs]. apply andb_prop in Hs as [_ Hs].
    apply Z.ltb_lt in Hs. assert (2 ^ 31 <= ResponseTime e / 1000) by (apply Z.div_le_lower_bound; lia). lia. }
  unfold Run_tick. simpl. by case_bool_decide.
Qed.
Example websocket_loses_tick :
  let a := mkStatsApp 0 10 [mkRestEntry "k" "/symbols" 200 1000; mkRestEntry "l" "/ws" 101 (2200 * 1000000000)] [] in
  Run_tick (copy_answer a) a = mkStatsApp 0 10 [] [].
Proof. by vm_compute. Qed.
End DalStats.
