(* ===== verification/Por.v ===== *)
(** * Proof of reserve

    [node/pkg/por/app.go] and [por/types.go]: fetch a value, read the last answer
    from the contract, and submit the value directly when it is due.  The
    fetching is [Fetcher.FetchSingle], the contract calls and the submission are
    those of [Chain], the retries [Util.Retrier]. *)

From S2P Require Import Prelude Errors Wire Text Float Reducer Fetcher Signing Nonce Abi Chain Util.
From Stdlib Require Import SpecFloat.
Import Float Fetcher Chain Abi.

Local Open Scope Z_scope.

Module Por.

Definition DECIMALS : Z := 4.
Definition DEVIATION_THRESHOLD : float64 := const 1 10000.
Definition ABSOLUTE_THRESHOLD : float64 := const 1 10.
Definition INITIAL_FAILURE_TIMEOUT : Z := 500 * Millisecond.
Definition MAX_RETRY : Z := 3.
Definition MAX_RETRY_DELAY : Z := 5000 * Millisecond.

Definition SUBMIT_FUNCTION_STRING : string := "submit(uint256 _roundId, int256 _submission)".
Definition READ_ROUND_ID : string := "function oracleRoundState(address _oracle, uint32 _queriedRoundId) external view returns (
            bool _eligibleToSubmit,
            uint32 _roundId,
            int256 _latestSubmission,
            uint64 _startedAt,
            uint64 _timeout,
            uint8 _oracleCount
    )".
Definition READ_LATEST_ROUND_DATA : string := ("function latestRoundData() public view returns (
            uint80 roundId,
            int256 answer,
            uint256 startedAt,
            uint256 updatedAt,
            uint80 answeredInRound
        )
" +:+ Text.text [tab])%string.

Record LastInfo : Type := mkLastInfo { UpdatedAt : Z; Answer : Z }.

(** ** When to report *)
Definition DeviationCheck (oldValue newValue : float64) : bool :=
  let denominator := Pow10 DECIMALS in
  let old := fdiv oldValue denominator in
  let new := fdiv newValue denominator in
  if negb (feqb old fzero) && negb (feqb new fzero) then
    let deviationRange := fmul old DEVIATION_THRESHOLD in
    let min := fsub old deviationRange in
    let max := fadd old deviationRange in
    fltb new min || fltb max new
  else if feqb old fzero && negb (feqb new fzero) then fltb ABSOLUTE_THRESHOLD new
  else false.

(** [big.Float.SetInt] and [Float64]: the nearest double. *)
Definition big_to_float (z : Z) : float64 := of_ratio (z <? 0) (Z.abs z) 1.

Definition ShouldReport (SubmitInterval : Duration) (lastInfo : LastInfo) (value : float64) (fetchedTime : Time) : bool :=
  if (UpdatedAt lastInfo =? 0) && (Answer lastInfo =? 0) then true
  else
    let lastSubmissionTime := wrap64 (UpdatedAt lastInfo) * second in
    let buffer := 5 * second in
    if wrap64 (SubmitInterval - buffer) <? time_Sub fetchedTime lastSubmissionTime then true
    else DeviationCheck (big_to_float (Answer lastInfo)) value.

(** [big.Float.SetFloat64] (which panics on NaN) and [Int]: towards zero; an
    infinity leaves the result 0. *)
Definition submission_of (x : float64) : option Z :=
  match x with
  | S754_nan => None
  | S754_finite s m e => Some (cond_Zopp s (Z.shiftl (Zpos m) e))
  | _ => Some 0
  end.

(** ** The application *)

(** A value in the slice that [abi.Unpack] returns. *)
Inductive unpacked : Type := UBig (z : Z) | UUint32 (z : Z) | UOther.

Record App : Type := mkApp {
  a_Name : string; a_Definition : Definition_; FetchInterval : Duration; SubmitInterval : Duration;
  KaiaHelper : ChainHelper; ContractAddress : string
}.

(** [fm_Definition]: what [json.Unmarshal] makes of the raw definition. *)
Record FeedModel : Type := mkFeedModel { fm_Name : string; fm_Definition : res Definition_ }.
Record AdapterModel : Type := mkAdapter { ad_Name : string; ad_Feeds : list FeedModel; ad_Interval : option Z }.
Record AggregatorModel : Type := mkAggregator { ag_Name : string; ag_Heartbeat : option Z; ag_Address : string }.

(** [None]: an adapter without feeds makes the index panic, or making the helper
    blocks.  [fetchAdapter] and [fetchAggregator] are the requests to the URLs
    built from the chain's name. *)
Definition New {CR : Crypto} (H : HelperEnv) (fetchAdapter : string -> res AdapterModel)
    (fetchAggregator : string -> res AggregatorModel) : option (res App) :=
  let chain := if bool_decide (Getenv H "POR_CHAIN" = ""%string) then "baobab"%string else Getenv H "POR_CHAIN" in
  let providerUrl := if bool_decide (Getenv H "POR_PROVIDER_URL" = ""%string)
                     then Getenv H "KAIA_PROVIDER_URL" else Getenv H "POR_PROVIDER_URL" in
  if bool_decide (providerUrl = ""%string) then Some (Err ErrPorProviderUrlNotFound) else
  match fetchAdapter ("https://config.orakl.network/adapter/" +:+ chain +:+ "/peg-" +:+ chain +:+ ".por.json")%string with
  | Err err => Some (Err err)
  | Ok adapter =>
      let fetchInterval := match ad_Interval adapter with
                           | Some i => wrap64 (i * Millisecond)
                           | None => 60 * second
                           end in
      match fetchAggregator ("https://config.orakl.network/aggregator/" +:+ chain +:+ "/peg.por.json")%string with
      | Err err => Some (Err err)
      | Ok aggregator =>
          feed ← head (ad_Feeds adapter);
          match fm_Definition feed with
          | Err err => Some (Err err)
          | Ok definition =>
              let submitInterval := match ag_Heartbeat aggregator with
                                    | Some h => wrap64 (h * Millisecond)
                                    | None => 3600 * second
                                    end in
              let porReporterPk := GetSecret H "POR_REPORTER_PK" in
              if bool_decide (porReporterPk = ""%string) then Some (Err ErrPorReporterPkNotFound) else
              r ← NewChainHelper H [WithBlockchainType Kaia; WithReporterPk porReporterPk; WithProviderUrl providerUrl];
              match r with
              | Err err => Some (Err err)
              | Ok chainHelper =>
                  Some (Ok (mkApp (ad_Name adapter) definition fetchInterval submitInterval chainHelper
                              (ag_Address aggregator)))
              end
          end
      end
  end.

(** What the outside answers to one execution. *)
Record PorEnv `{TxPackage} : Type := mkPorEnv {
  e_fetch : option (res float64);
  e_call : Address -> list Z -> res (list Z);
  e_now : Time;
  e_pending : Address -> res uint64;
  e_client : ClientAnswers;
  e_chain : SubmitAnswers
}.

Section por.
Context {AP : AbiPackage} {CR : Crypto} {TP : TxPackage}.
(** The dynamic types of arguments and results. *)
Variables (big_arg : Z -> Arg) (addr_arg : Address -> Arg) (uint32_arg : Z -> Arg).
Variable as_slice : Output -> option (list unpacked).

(** [None]: the index is out of range. *)
Definition GetLastInfo (E : PorEnv) (a : App) (cache : AbiCache) : option (res LastInfo * AbiCache) :=
  match ReadContract cache (Some (e_call E)) READ_LATEST_ROUND_DATA (ContractAddress a) [] with
  | (Err err, cache) => Some (Err err, cache)
  | (Ok rawResult, cache) =>
      match as_slice rawResult with
      | None => Some (Err ErrPorRawResultCastFail, cache)
      | Some l =>
          u ← l !! 3%nat;
          match u with
          | UBig updatedAt =>
              v ← l !! 1%nat;
              match v with
              | UBig answer => Some (Ok (mkLastInfo updatedAt answer), cache)
              | _ => Some (Err ErrPorAnswerCastFail, cache)
              end
          | _ => Some (Err ErrPorUpdatedAtCastFail, cache)
          end
      end
  end.

Definition GetRoundID (E : PorEnv) (a : App) (cache : AbiCache) : option (res Z * AbiCache) :=
  match PublicAddress (KaiaHelper a) with
  | Err err => Some (Err err, cache)
  | Ok publicAddress =>
      match ReadContract cache (Some (e_call E)) READ_ROUND_ID (ContractAddress a) [addr_arg publicAddress; uint32_arg 0] with
      | (Err err, cache) => Some (Err err, cache)
      | (Ok rawResult, cache) =>
          match as_slice rawResult with
          | None => Some (Err ErrPorRawResultCastFail, cache)
          | Some l =>
              u ← l !! 1%nat;
              match u with
              | UUint32 roundID => Some (Ok roundID, cache)
              | _ => Some (Err ErrPorRoundIdCastFail, cache)
              end
          end
      end
  end.

(** The transactions sent, the error and the cache. *)
Definition report (E : PorEnv) (a : App) (cache : AbiCache) (submissionValue : float64) (latestRoundId : Z)
    : option (list Tx * option error * AbiCache) :=
  submissionValueParam ← submission_of submissionValue;
  match helper_MakeDirectTx cache (e_client E) (e_pending E) (KaiaHelper a) (ContractAddress a) SUBMIT_FUNCTION_STRING
          [big_arg latestRoundId; big_arg submissionValueParam] with
  | (Err err, cache) => Some ([], Some err, cache)
  | (Ok tx, cache) => Some (SubmitRawTx (e_chain E) tx, cache)
  end.

(** The error of the fetch is only logged: the value is then 0. *)
Definition Execute (E : PorEnv) (a : App) (cache : AbiCache) : option (list Tx * option error * AbiCache) :=
  fetched ← e_fetch E;
  let value := match fetched with Ok v => v | Err _ => fzero end in
  '(lastInfo, cache) ← GetLastInfo E a cache;
  match lastInfo with
  | Err err => Some ([], Some err, cache)
  | Ok lastInfo =>
      if ShouldReport (SubmitInterval a) lastInfo value (e_now E) then
        '(roundId, cache) ← GetRoundID E a cache;
        match roundId with
        | Err err => Some ([], Some err, cache)
        | Ok roundId => report E a cache value roundId
        end
      else Some ([], None, cache)
  end.

(** One tick of [Run]: the executions of the retry loop, the [i]-th with the
    answers [Es i].  The state: the attempts made, the cache and the transactions
    sent; [None] after a panic, which ends the program. *)
Definition job (a : App) (Es : nat -> PorEnv) (s : option (nat * AbiCache * list Tx))
    : option (nat * AbiCache * list Tx) * option error :=
  match s with
  | None => (None, None)
  | Some (i, cache, sent) =>
      match Execute (Es i) a cache with
      | None => (None, None)
      | Some (txs, err, cache) => (Some (S i, cache, sent ++ txs), err)
      end
  end.
Definition tick (a : App) (Es : nat -> PorEnv) (rand : nat -> option Z) (cache : AbiCache)
    : option (nat * AbiCache * list Tx) * option error * list Z :=
  Retrier.Retry (job a Es) rand MAX_RETRY INITIAL_FAILURE_TIMEOUT MAX_RETRY_DELAY (Some (0%nat, cache, [])).

(** ** Theorems *)
Lemma Execute_one E a cache txs err cache' :
  Execute E a cache = Some (txs, err, cache') -> (length txs <= 1)%nat.
Proof.
  unfold Execute. destruct (e_fetch E) as [f|]; [|done]. cbn [mbind option_bind].
  destruct (GetLastInfo E a cache) as [[[li|e] c1]|]; [|by intros [= <- _ _]; simpl; lia|done]. cbn [mbind option_bind].
  destruct (ShouldReport _ _ _ _); [|intros [= <- _ _]; simpl; lia].
  destruct (GetRoundID E a c1) as [[[r|e] c2]|]; [|intros [= <- _ _]; simpl; lia|done]. cbn [mbind option_bind].
  unfold report. destruct (submission_of _) as [v|]; [|done]. cbn [mbind option_bind].
  destruct (helper_MakeDirectTx _ _ _ _ _ _ _) as [[tx|e'] c3]; [|intros [= <- _ _]; simpl; lia].
  destruct (SubmitRawTx (e_chain E) tx) as [sent er] eqn:Hs. apply SubmitRawTx_spec in Hs as [-> _].
  intros [= <- _ _]. simpl. lia.
Qed.

Lemma failures_sent a Es k err cache s' err' :
  Retrier.failures (job a Es) k err (Some (0%nat, cache, [])) = Some (s', err') ->
  match s' with Some (i, _, sent) => (i = k /\ length sent <= k)%nat | None => True end.
Proof.
  assert (forall k err i c sent s' err',
    Retrier.failures (job a Es) k err (Some (i, c, sent)) = Some (s', err') ->
    match s' with Some (j, _, sent') => (j = i + k /\ length sent' <= length sent + k)%nat | None => True end) as Hg.
  { clear. induction k as [|k IH]; intros err i c sent s' err'; cbn [Retrier.failures].
    - intros [= <- _]. simpl. lia.
    - cbn [job]. destruct (Execute (Es i) a c) as [[[txs [e|]] c']|] eqn:He; [| |done]; [|done].
      apply Execute_one in He. intros Hf. apply IH in Hf. destruct s' as [[[j ?] sent']|]; [|done].
      rewrite length_app in Hf. lia. }
  intros Hf. apply Hg in Hf. destruct s' as [[[j ?] sent']|]; [|done]. simpl in Hf. lia.
Qed.

(** A tick of the proof-of-reserve loop makes at most three executions and
    sends at most three transactions, one per execution; it ends without an error
    exactly when the last execution did, and sleeps at most five seconds between
    two of them. *)
Theorem por_tick_bounded a Es rand cache i cache' sent err sleeps :
  tick a Es rand cache = (Some (i, cache', sent), err, sleeps) ->
  (1 <= i <= 3)%nat /\ (length sent <= i)%nat /\ Forall (fun d => d <= MAX_RETRY_DELAY) sleeps /\
  length sleeps = (if err then i else i - 1)%nat.
Proof.
  intros Ht. apply Retrier.retry_loop_spec in Ht as [Hall Hd].
  change (Z.to_nat MAX_RETRY) with 3%nat in Hd.
  destruct Hd as [(-> & Hlt & s0 & e0 & Hf & Hj)|(Hl & Hf)].
  - apply failures_sent in Hf. destruct s0 as [[[j c] sent0]|]; [|done]. destruct Hf as [-> Hlen].
    cbn [job] in Hj. destruct (Execute _ a c) as [[[txs er] c2]|] eqn:He; [|done].
    apply Execute_one in He. simplify_eq/=. rewrite length_app. 
    split_and!; [lia..|done|lia].
  - rewrite Hl.
    assert (err <> None) as Herr by (intros ->; by eapply (Retrier.failures_error _ 2)).
    apply failures_sent in Hf. destruct Hf as [-> Hlen]. destruct err; [|done]. split_and!; [lia..|done|done].
Qed.

(** A failed fetch does not stop the report: when the heartbeat is due, the
    execution goes on with the value 0, and every transaction it sends submits 0
    for the round. *)
Theorem por_reports_zero {TL : TxLaws TP} E a cache e li c1 rid c2 txs err c3 :
  e_fetch E = Some (Err e) ->
  GetLastInfo E a cache = Some (Ok li, c1) ->
  wrap64 (SubmitInterval a - 5 * second) < time_Sub (e_now E) (wrap64 (UpdatedAt li) * second) ->
  GetRoundID E a c1 = Some (Ok rid, c2) ->
  Execute E a cache = Some (txs, err, c3) ->
  report E a c2 fzero rid = Some (txs, err, c3) /\
  forall tx, tx ∈ txs -> exists abi name, Pack abi name [big_arg rid; big_arg 0] = Ok (Data tx).
Proof.
  intros Hf Hl Ht Hr. unfold Execute. rewrite Hf. cbn [mbind option_bind]. rewrite Hl. cbn [mbind option_bind].
  assert (ShouldReport (SubmitInterval a) li fzero (e_now E) = true) as ->.
  { unfold ShouldReport. destruct (_ && _); [done|]. by rewrite (proj2 (Z.ltb_lt _ _) Ht). }
  rewrite Hr. cbn [mbind option_bind]. intros Hrep. split; [done|]. unfold report in Hrep. cbn in Hrep.
  unfold helper_MakeDirectTx in Hrep. destruct (Signing.GetNonceFromPk _ _) as [nonce|]; [|by simplify_eq; set_solver].
  destruct (MakeDirectTx _ _ _ _ _ _ _ _) as [[tx0|e'] c4] eqn:Hm; [|simplify_eq; set_solver].
  destruct (SubmitRawTx (e_chain E) tx0) as [sent er] eqn:Hs. apply SubmitRawTx_spec in Hs as [-> _]. simplify_eq.
  intros tx ->%list_elem_of_singleton.
  apply MakeDirectTx_call in Hm as (gp & packed & abi & name & _ & _ & Hp & Hc).
  exists abi, name. rewrite Hp. f_equal. apply (f_equal c_data) in Hc. done.
Qed.
End por.

(** ** Witnesses *)
Definition w_app : App :=
  mkApp "peg" (mkDefinition (Some "https://x"%string) ∅ [] None None) 1 (3600 * second) w_helper "0xc0".
(** A contract whose last answer is 700, two hours ago; the fetch fails. *)
Definition w_env (now : Time) : @PorEnv Signing.toy_crypto toy_package :=
  @mkPorEnv _ toy_package (Some (Err (External "timeout"))) (fun _ _ => Ok []) now (fun _ => Ok 5) w_answers
    (@mkSubmitAnswers _ toy_package (fun _ => None) (fun _ => Ok 1)).
(** Round data for the one read, the state of the round for the other. *)
Definition w_slice (o : list Z) : option (list unpacked) :=
  Some [UOther; match o with [] => UBig 700 | _ => UUint32 9 end; UOther; UBig 1].
Definition toy_reads : AbiPackage := {|
  ABI := string; Arg := Z; Output := list Z; abi_JSON s := Ok s;
  Pack _ name args := Ok args; Unpack _ name _ := Ok (if bool_decide (name = "latestRoundData"%string) then [] else [1])
|}.
Definition w_execute (now : Time) :=
  @Execute toy_reads _ toy_package (fun z => z) (fun z => z) (fun z => z) w_slice (w_env now) w_app newAbiCache.

(** The parts of a result that do not hold a cache, for evaluation. *)
Definition shown {A B} (r : option (A * B)) : option A := fst <$> r.
Lemma shown_some {A B} (r : option (A * B)) a : shown r = Some a -> exists b, r = Some (a, b).
Proof. destruct r as [[x y]|]; [|done]. intros [= <-]. by exists y. Qed.

Lemma por_reports_zero_witness : exists txs err c3,
  w_execute (7201 * second) = Some (txs, err, c3) /\ length txs = 1%nat /\
  forall tx, tx ∈ txs -> @Data _ toy_package tx = [9; 0].
Proof.
  pose (W := (5, Some 4, 0, 6000000, 25, [9; 0], 0, [(1001, 1, 2)], 0) : toy_tx).
  destruct (shown_some (w_execute (7201 * second)) ([W], None)) as [c3 He]; [vm_compute; reflexivity|].
  destruct (shown_some (@GetLastInfo toy_reads _ toy_package w_slice (w_env (7201 * second)) w_app newAbiCache)
    (Ok (mkLastInfo 1 700))) as [c1 Hl]; [vm_compute; reflexivity|].
  destruct (shown_some (@GetRoundID toy_reads _ toy_package (fun z => z) (fun z => z) w_slice (w_env (7201 * second))
    w_app c1) (Ok 9)) as [c2 Hr].
  { transitivity (shown (c ← snd <$> (@GetLastInfo toy_reads _ toy_package w_slice (w_env (7201 * second)) w_app newAbiCache);
      @GetRoundID toy_reads _ toy_package (fun z => z) (fun z => z) w_slice (w_env (7201 * second)) w_app c)).
    - rewrite Hl. reflexivity.
    - vm_compute. reflexivity. }
  exists [W], None, c3. split; [exact He|]. split; [reflexivity|].
  edestruct (@por_reports_zero toy_reads _ toy_package (fun z => z) (fun z => z) (fun z => z) w_slice toy_package_laws
    (w_env (7201 * second)) w_app newAbiCache (External "timeout") (mkLastInfo 1 700) c1 9 c2 [W] None c3) as [_ Hd].
  - reflexivity.
  - exact Hl.
  - vm_compute. reflexivity.
  - exact Hr.
  - exact He.
  - intros tx Htx. destruct (Hd tx Htx) as (abi & name & Hp). simpl in Hp. by injection Hp.
Defined.

Lemma por_tick_bounded_witness : exists i c sent err sleeps,
  @tick toy_reads _ toy_package (fun z => z) (fun z => z) (fun z => z) w_slice w_app (fun _ => w_env (7201 * second))
    (fun _ => Some 7) newAbiCache = (Some (i, c, sent), err, sleeps) /\ (length sent <= i <= 3)%nat.
Proof.
  destruct (@tick toy_reads _ toy_package (fun z => z) (fun z => z) (fun z => z) w_slice w_app
    (fun _ => w_env (7201 * second)) (fun _ => Some 7) newAbiCache) as [[[[[i c] sent]|] err] sleeps] eqn:Ht.
  2:{ exfalso. apply (f_equal (fun r => match r.1.1 with Some _ => true | None => false end)) in Ht.
      vm_compute in Ht. discriminate. }
  exists i, c, sent, err, sleeps. split; [done|].
  destruct (por_tick_bounded _ _ _ _ _ _ _ _ _ _ _ _ _ Ht) as (H1 & H2 & _). lia.
Defined.
End Por.
