(* ===== verification/Wss.v ===== *)
(** * The websocket client

    [node/pkg/wss/types.go] and [wss/utils.go]: the options, dialing through a
    proxy, subscribing with retries, and the loop of [Run] as a step relation.
    The answers of the websocket library are functions of the history of calls,
    so they may change from one call to the next. *)

From S2P Require Import Prelude Errors Text Strings Reducer Util.
From Stdlib Require Import Ascii.
Import Text Strings.

Local Open Scope Z_scope.

Module Wss.

Definition Hour : Z := 3600 * Second.
Definition Minute : Z := 60 * Second.
Definition DefaultReconnectInterval : Z := 12 * Hour.
Definition DefaultInactivityTimeout : Z := 15 * Minute.

(** A message read from a connection: [map[string]any]. *)
Definition message : Type := list (string * Reducer.json).
Definition Conn_ : Type := nat.

Record DialOptions : Type := mkDialOptions {
  o_Proxy : option string; o_HTTPHeader : list (string * string); o_ContextTakeover : bool }.

Section wss.
(** The values that providers subscribe with. *)
Context {J : Type}.

(** A subscription is either raw bytes or a value written as JSON. *)
Inductive subscription : Type := Raw (bytes : string) | Value (v : J).

(** Calls of the library with their results. *)
Inductive event : Type :=
| EDial (endpoint : string) (opts : DialOptions) (r : res Conn_)
| EReadLimit (c : Conn_) (n : Z)
| EWrite (c : Conn_) (x : subscription) (r : option error)
| EClose (c : Conn_).

Definition dial_func : Type := list event -> string -> DialOptions -> res Conn_.
Definition read_func : Type := list event -> Conn_ -> res (option message).

Record ConnectionConfig : Type := mkConnectionConfig {
  cc_Endpoint : string;
  cc_Proxy : string;
  cc_Subscriptions : list subscription;
  cc_Compression : bool;
  cc_DialFunc : option dial_func;
  cc_ReadFunc : option read_func;
  cc_RequestHeaders : list (string * string);
  cc_ReadLimit : int64;
  cc_ReconnectInterval : Z;
  cc_InactivityTimeout : Z }.

Definition WithEndpoint (endpoint : string) (c : ConnectionConfig) : ConnectionConfig :=
  mkConnectionConfig endpoint (cc_Proxy c) (cc_Subscriptions c) (cc_Compression c) (cc_DialFunc c)
    (cc_ReadFunc c) (cc_RequestHeaders c) (cc_ReadLimit c) (cc_ReconnectInterval c) (cc_InactivityTimeout c).
Definition WithProxyUrl (proxyUrl : string) (c : ConnectionConfig) : ConnectionConfig :=
  if bool_decide (proxyUrl = ""%string) then c
  else mkConnectionConfig (cc_Endpoint c) proxyUrl (cc_Subscriptions c) (cc_Compression c) (cc_DialFunc c)
    (cc_ReadFunc c) (cc_RequestHeaders c) (cc_ReadLimit c) (cc_ReconnectInterval c) (cc_InactivityTimeout c).
Definition WithSubscriptions (subscriptions : list subscription) (c : ConnectionConfig) : ConnectionConfig :=
  mkConnectionConfig (cc_Endpoint c) (cc_Proxy c) subscriptions (cc_Compression c) (cc_DialFunc c)
    (cc_ReadFunc c) (cc_RequestHeaders c) (cc_ReadLimit c) (cc_ReconnectInterval c) (cc_InactivityTimeout c).
Definition WithCustomDialFunc (dialFunc : dial_func) (c : ConnectionConfig) : ConnectionConfig :=
  mkConnectionConfig (cc_Endpoint c) (cc_Proxy c) (cc_Subscriptions c) (cc_Compression c) (Some dialFunc)
    (cc_ReadFunc c) (cc_RequestHeaders c) (cc_ReadLimit c) (cc_ReconnectInterval c) (cc_InactivityTimeout c).
Definition WithCustomReadFunc (readFunc : read_func) (c : ConnectionConfig) : ConnectionConfig :=
  mkConnectionConfig (cc_Endpoint c) (cc_Proxy c) (cc_Subscriptions c) (cc_Compression c) (cc_DialFunc c)
    (Some readFunc) (cc_RequestHeaders c) (cc_ReadLimit c) (cc_ReconnectInterval c) (cc_InactivityTimeout c).
Definition WithCompressionMode (c : ConnectionConfig) : ConnectionConfig :=
  mkConnectionConfig (cc_Endpoint c) (cc_Proxy c) (cc_Subscriptions c) true (cc_DialFunc c)
    (cc_ReadFunc c) (cc_RequestHeaders c) (cc_ReadLimit c) (cc_ReconnectInterval c) (cc_InactivityTimeout c).
Definition WithRequestHeaders (headers : list (string * string)) (c : ConnectionConfig) : ConnectionConfig :=
  mkConnectionConfig (cc_Endpoint c) (cc_Proxy c) (cc_Subscriptions c) (cc_Compression c) (cc_DialFunc c)
    (cc_ReadFunc c) headers (cc_ReadLimit c) (cc_ReconnectInterval c) (cc_InactivityTimeout c).
Definition WithReadLimit (readLimit : int64) (c : ConnectionConfig) : ConnectionConfig :=
  mkConnectionConfig (cc_Endpoint c) (cc_Proxy c) (cc_Subscriptions c) (cc_Compression c) (cc_DialFunc c)
    (cc_ReadFunc c) (cc_RequestHeaders c) readLimit (cc_ReconnectInterval c) (cc_InactivityTimeout c).
Definition WithReconnectInterval (duration : Z) (c : ConnectionConfig) : ConnectionConfig :=
  mkConnectionConfig (cc_Endpoint c) (cc_Proxy c) (cc_Subscriptions c) (cc_Compression c) (cc_DialFunc c)
    (cc_ReadFunc c) (cc_RequestHeaders c) (cc_ReadLimit c) duration (cc_InactivityTimeout c).
Definition WithInactivityTimeout (duration : Z) (c : ConnectionConfig) : ConnectionConfig :=
  mkConnectionConfig (cc_Endpoint c) (cc_Proxy c) (cc_Subscriptions c) (cc_Compression c) (cc_DialFunc c)
    (cc_ReadFunc c) (cc_RequestHeaders c) (cc_ReadLimit c) (cc_ReconnectInterval c) duration.

(** The fields that change while the client runs come first. *)
Record WebsocketHelper : Type := mkWebsocketHelper {
  Conn : option Conn_;
  Endpoint : string;
  IsRunning : bool;
  lastMessageTime : Z;
  Subscriptions : list subscription;
  Proxy : string;
  Compression : bool;
  CustomDialFunc : option dial_func;
  CustomReadFunc : option read_func;
  RequestHeaders : list (string * string);
  ReadLimit : int64;
  ReconnectInterval : Z;
  InactivityTimeout : Z }.

(** [zeroTime]: the zero value of [time.Time]. *)
Definition NewWebsocketHelper (zeroTime : Z) (opts : list (ConnectionConfig -> ConnectionConfig))
    : res WebsocketHelper :=
  let config := fold_left (fun c opt => opt c) opts
    (mkConnectionConfig "" "" [] false None None [] 0 DefaultReconnectInterval DefaultInactivityTimeout) in
  if bool_decide (cc_Endpoint config = ""%string) then Err (External "endpoint is required")
  else Ok (mkWebsocketHelper None (cc_Endpoint config) false zeroTime (cc_Subscriptions config) (cc_Proxy config)
    (cc_Compression config) (cc_DialFunc config) (cc_ReadFunc config) (cc_RequestHeaders config)
    (if 0 <? cc_ReadLimit config then cc_ReadLimit config else 0)
    (cc_ReconnectInterval config) (cc_InactivityTimeout config)).

(** ** Dialing and writing *)
Record Library : Type := mkLibrary {
  url_Parse : string -> option error;
  websocket_Dial : dial_func;
  wsjson_Read : list event -> Conn_ -> res message;
  websocket_Write : list event -> Conn_ -> subscription -> option error;
  Ping : list event -> Conn_ -> option error;
  websocket_Close : list event -> Conn_ -> option error;
  CloseStatus : error -> Z }.

(** The client with the history of its calls. *)
Record World : Type := mkWorld { ws : WebsocketHelper; log : list event }.

Definition set_endpoint (e : string) (h : WebsocketHelper) : WebsocketHelper :=
  mkWebsocketHelper (Conn h) e (IsRunning h) (lastMessageTime h) (Subscriptions h) (Proxy h) (Compression h)
    (CustomDialFunc h) (CustomReadFunc h) (RequestHeaders h) (ReadLimit h) (ReconnectInterval h) (InactivityTimeout h).
Definition set_conn (c : Conn_) (h : WebsocketHelper) : WebsocketHelper :=
  mkWebsocketHelper (Some c) (Endpoint h) (IsRunning h) (lastMessageTime h) (Subscriptions h) (Proxy h) (Compression h)
    (CustomDialFunc h) (CustomReadFunc h) (RequestHeaders h) (ReadLimit h) (ReconnectInterval h) (InactivityTimeout h).
Definition set_running (b : bool) (h : WebsocketHelper) : WebsocketHelper :=
  mkWebsocketHelper (Conn h) (Endpoint h) b (lastMessageTime h) (Subscriptions h) (Proxy h) (Compression h)
    (CustomDialFunc h) (CustomReadFunc h) (RequestHeaders h) (ReadLimit h) (ReconnectInterval h) (InactivityTimeout h).
Definition set_last (t : Z) (h : WebsocketHelper) : WebsocketHelper :=
  mkWebsocketHelper (Conn h) (Endpoint h) (IsRunning h) t (Subscriptions h) (Proxy h) (Compression h)
    (CustomDialFunc h) (CustomReadFunc h) (RequestHeaders h) (ReadLimit h) (ReconnectInterval h) (InactivityTimeout h).

(** [strings.Replace(s, "wss", "ws", 1)] of a text that begins with [wss]. *)
Definition plain_endpoint (e : string) : string :=
  if HasPrefix e "wss" then ("ws" +:+ TrimPrefix e "wss")%string else e.

Variable L : Library.

Definition Dial (w : World) : World * option error :=
  let h := ws w in
  let proxied := negb (bool_decide (Proxy h = ""%string)) in
  let h := if proxied then set_endpoint (plain_endpoint (Endpoint h)) h else h in
  match if proxied then url_Parse L (Proxy h) else None with
  | Some err => (mkWorld h (log w), Some err)
  | None =>
      let dialOption := mkDialOptions (if proxied then Some (Proxy h) else None) (RequestHeaders h) (Compression h) in
      let dialFunc := default (websocket_Dial L) (CustomDialFunc h) in
      let r := dialFunc (log w) (Endpoint h) dialOption in
      let l := log w ++ [EDial (Endpoint h) dialOption r] in
      match r with
      | Err err => (mkWorld h l, Some err)
      | Ok conn =>
          let l := if 0 <? ReadLimit h then l ++ [EReadLimit conn (ReadLimit h)] else l in
          (mkWorld (set_conn conn h) l, None)
      end
  end.

(** [Write] and [RawWrite] differ in how the library encodes their argument;
    [None]: the connection is nil, which panics. *)
Definition write (x : subscription) (w : World) : option (World * option error) :=
  c ← Conn (ws w);
  let r := websocket_Write L (log w) c x in
  Some (mkWorld (ws w) (log w ++ [EWrite c x r]), r).
Definition Write (v : J) (w : World) : option (World * option error) := write (Value v) w.
Definition RawWrite (s : string) (w : World) : option (World * option error) := write (Raw s) w.

Definition Close (w : World) : World * option error :=
  match Conn (ws w) with
  | None => (w, None)
  | Some c => (mkWorld (ws w) (log w ++ [EClose c]), websocket_Close L (log w) c)
  end.

Definition IsAlive (w : World) : option error :=
  match Conn (ws w) with
  | None => Some (External "websocket is not running")
  | Some c => Ping L (log w) c
  end.

Definition StatusNormalClosure : Z := 1000.
Definition StatusGoingAway : Z := 1001.
Definition isErrorNormalClosure (err : error) : bool :=
  (CloseStatus L err =? StatusNormalClosure) || (CloseStatus L err =? StatusGoingAway).

Definition defaultReader (l : list event) (conn : Conn_) : res (option message) :=
  match wsjson_Read L l conn with
  | Err err => Err err
  | Ok data => Ok (if bool_decide (data = []) then None else Some data)
  end.

(** ** [dialAndSubscribe] *)
(** The state of a job: [None] after a panic. *)
Definition dialJob (s : option World) : option World * option error :=
  match s with
  | None => (None, None)
  | Some w => let '(w, err) := Dial w in (Some w, err)
  end.

Fixpoint subscribe_loop (l : list subscription) (w : World) : option (World * option error) :=
  match l with
  | [] => Some (w, None)
  | x :: l =>
      '(w, err) ← match x with Raw b => RawWrite b w | Value v => Write v w end;
      match err with Some e => Some (w, Some e) | None => subscribe_loop l w end
  end.
Definition subscribeJob (s : option World) : option World * option error :=
  match s with
  | None => (None, None)
  | Some w =>
      match subscribe_loop (Subscriptions (ws w)) w with
      | None => (None, None)
      | Some (w, err) => (Some w, err)
      end
  end.

(** The timeouts of the retries are durations, so 1 and 10 nanoseconds. *)
Definition dialAndSubscribe (rand : nat -> option Z) (w : World) : option World * option error :=
  let '(s, err, _) := Retrier.Retry dialJob rand 3 1 10 (Some w) in
  match err with
  | Some e => (s, Some e)
  | None => let '(s, err, _) := Retrier.Retry subscribeJob rand 3 1 10 s in (s, err)
  end.

(** ** [Run] *)
Inductive pc : Type := Dialing | Selecting | Reading | Returned.

(** The loop with its context, its ticker, its timer and the messages handed to
    the router, each in a goroutine of its own. *)
Record Loop : Type := mkLoop {
  at_ : pc;
  w_ : World;
  cancelled : bool;
  ticked : bool;
  fired : bool;
  armed : option Z;
  now : Z;
  routed : list message }.

Definition readFunc (h : WebsocketHelper) : read_func := default defaultReader (CustomReadFunc h).
Definition close_ (w : World) : World := (Close w).1.
Definition go_to (p : pc) (w : World) (s : Loop) : Loop :=
  mkLoop p w (cancelled s) (ticked s) (fired s) (armed s) (now s) (routed s).

(** The first lines of [Run]: a running client refuses a second loop. *)
Definition Run (w : World) (t : Z) : option Loop :=
  if IsRunning (ws w) then None
  else Some (mkLoop Dialing (mkWorld (set_running true (ws w)) (log w)) false false false
               (Some (t + InactivityTimeout (ws w))) t []).

(** What the loop does by itself. *)
Inductive loop_step : Loop -> Loop -> Prop :=
| r_dial_failed s rand w e :
    at_ s = Dialing -> dialAndSubscribe rand (w_ s) = (Some w, Some e) ->
    loop_step s (go_to Dialing w s)
| r_dialed s rand w :
    at_ s = Dialing -> dialAndSubscribe rand (w_ s) = (Some w, None) ->
    loop_step s (go_to Selecting w s)
| r_done s :
    at_ s = Selecting -> cancelled s = true ->
    loop_step s (go_to Returned (mkWorld (set_running false (ws (w_ s))) (log (close_ (w_ s)))) s)
| r_reconnect s :
    at_ s = Selecting -> ticked s = true ->
    loop_step s (mkLoop Dialing (close_ (w_ s)) (cancelled s) false (fired s) (armed s) (now s) (routed s))
| r_inactive s :
    at_ s = Selecting -> fired s = true ->
    InactivityTimeout (ws (w_ s)) < now s - lastMessageTime (ws (w_ s)) ->
    loop_step s (mkLoop Dialing (close_ (w_ s)) (cancelled s) (ticked s) false (armed s) (now s) (routed s))
| r_active s :
    at_ s = Selecting -> fired s = true ->
    now s - lastMessageTime (ws (w_ s)) <= InactivityTimeout (ws (w_ s)) ->
    loop_step s (mkLoop Selecting (w_ s) (cancelled s) (ticked s) false
      (Some (now s + (InactivityTimeout (ws (w_ s)) - (now s - lastMessageTime (ws (w_ s)))))) (now s) (routed s))
| r_default s :
    at_ s = Selecting -> cancelled s = false -> ticked s = false -> fired s = false ->
    loop_step s (go_to Reading (w_ s) s)
| r_read_failed s c e :
    at_ s = Reading -> Conn (ws (w_ s)) = Some c -> readFunc (ws (w_ s)) (log (w_ s)) c = Err e ->
    loop_step s (go_to Dialing (close_ (w_ s)) s)
| r_read s c data :
    at_ s = Reading -> Conn (ws (w_ s)) = Some c -> readFunc (ws (w_ s)) (log (w_ s)) c = Ok data ->
    loop_step s (mkLoop Selecting (mkWorld (set_last (now s) (ws (w_ s))) (log (w_ s)))
      (cancelled s) (ticked s) (fired s) (armed s) (now s)
      (routed s ++ match data with Some (x :: m) => [x :: m] | _ => [] end)).

(** What happens around it: time passes, the ticker ticks into its buffer of
    one, the timer fires once when its time has come, the context is cancelled,
    and other goroutines write to the connection. *)
Inductive env_step : Loop -> Loop -> Prop :=
| e_time s t : now s <= t ->
    env_step s (mkLoop (at_ s) (w_ s) (cancelled s) (ticked s) (fired s) (armed s) t (routed s))
| e_tick s :
    env_step s (mkLoop (at_ s) (w_ s) (cancelled s) true (fired s) (armed s) (now s) (routed s))
| e_fire s t : armed s = Some t -> t <= now s ->
    env_step s (mkLoop (at_ s) (w_ s) (cancelled s) (ticked s) true None (now s) (routed s))
| e_cancel s :
    env_step s (mkLoop (at_ s) (w_ s) true (ticked s) (fired s) (armed s) (now s) (routed s))
| e_write s x w e : write x (w_ s) = Some (w, e) ->
    env_step s (go_to (at_ s) w s).

Definition run_step (s s' : Loop) : Prop := loop_step s s' \/ env_step s s'.

(** ** Lemmas on dialing and subscribing *)
Definition not_dial (e : event) : Prop := match e with EDial _ _ _ => False | _ => True end.
Definition not_close (e : event) : Prop := match e with EClose _ => False | _ => True end.
Definition quiet (l : list event) : Prop := Forall not_dial l /\ Forall not_close l.

(** The events of a successful pass over the subscriptions. *)
Definition all_written (c : Conn_) (subs : list subscription) : list event := (fun x => EWrite c x None) <$> subs.

(** The client is connected, and since the dial that gave its connection all
    subscriptions were written to it, in order, and nobody closed it. *)
Definition subscribed (subs : list subscription) (w : World) : Prop :=
  exists c e o l1 l2 l3, Conn (ws w) = Some c /\ Subscriptions (ws w) = subs /\
    log w = l1 ++ EDial e o (Ok c) :: l2 ++ all_written c subs ++ l3 /\ quiet l2 /\ quiet l3.

(** The fields that dialing leaves alone. *)
Definition same (w w' : World) : Prop :=
  Subscriptions (ws w) = Subscriptions (ws w') /\ IsRunning (ws w) = IsRunning (ws w') /\
  CustomDialFunc (ws w) = CustomDialFunc (ws w').

Lemma same_refl w : same w w.
Proof. done. Qed.
Lemma same_trans w1 w2 w3 : same w1 w2 -> same w2 w3 -> same w1 w3.
Proof. unfold same. intuition congruence. Qed.
#[local] Hint Resolve same_refl same_trans : core.

Lemma Dial_spec w w' err :
  Dial w = (w', err) ->
  same w w' /\
  (err = None -> exists c e o l, Conn (ws w') = Some c /\
     log w' = log w ++ EDial e o (Ok c) :: l /\ quiet l).
Proof.
  unfold Dial. set (h := if negb _ then set_endpoint _ _ else _). set (bad := if negb _ then url_Parse _ _ else None).
  assert (same w (mkWorld h (log w))) as Hs by (subst h; by destruct (negb _)).
  clearbody bad h. destruct bad as [e|]; [by intros [= <- <-]|].
  destruct (default (websocket_Dial L) _ _ _ _) as [c|e]; intros [= <- <-]; [|done]. split; [done|]. intros _.
  exists c, (Endpoint h). eexists _, (if 0 <? ReadLimit h then [EReadLimit c (ReadLimit h)] else []).
  split; [done|]. simpl. destruct (0 <? ReadLimit h); simpl; rewrite <- ?app_assoc; (split; [reflexivity|]);
    split; repeat constructor.
Qed.

Lemma subscribe_loop_written l w c :
  Conn (ws w) = Some c ->
  exists evs err, subscribe_loop l w = Some (mkWorld (ws w) (log w ++ evs), err) /\
    quiet evs /\ (length evs <= length l)%nat /\ (err = None -> evs = all_written c l).
Proof.
  intros Hc. revert w Hc. induction l as [|x l IH]; intros w Hc; simpl.
  { exists [], None. destruct w. simpl. rewrite app_nil_r. split_and!; try done; constructor. }
  assert (match x with Raw b => RawWrite b w | Value v => Write v w end = write x w) as -> by by destruct x.
  unfold write at 1. rewrite Hc. cbn.
  destruct (websocket_Write L (log w) c x) as [e|] eqn:Hw.
  - eexists _, (Some e). split_and!; [done| |simpl; lia|done]. split; repeat constructor.
  - destruct (IH (mkWorld (ws w) (log w ++ [EWrite c x None])) Hc) as (evs & err & Hl & [Hq1 Hq2] & Hn & Ha).
    simpl in Hl. rewrite <- app_assoc in Hl. rewrite Hl. exists (EWrite c x None :: evs), err.
    split_and!; [done|split; constructor; done|simpl; lia|]. intros He. by rewrite (Ha He).
Qed.

Lemma dial_failures w k e0 s e :
  Retrier.failures dialJob k e0 (Some w) = Some (s, e) -> exists w', s = Some w' /\ same w w'.
Proof.
  intros Hf. refine (Retrier.failures_inv _ (fun _ s => exists w', s = Some w' /\ same w w') _ _ _ _ _ _ _ Hf);
    [|by exists w].
  intros n s1 s2 e' (w1 & -> & Hs) Hj. simpl in Hj. destruct (Dial w1) as [w2 er] eqn:Hd. simplify_eq.
  apply Dial_spec in Hd as [Hd _]. exists w2. eauto.
Qed.

Lemma dial_retry rand w s err sl :
  Retrier.Retry dialJob rand 3 1 10 (Some w) = (s, err, sl) ->
  exists w', s = Some w' /\ same w w' /\
    (err = None -> exists c e o l1 l2, Conn (ws w') = Some c /\ log w' = l1 ++ EDial e o (Ok c) :: l2 /\ quiet l2).
Proof.
  pose proof (dial_failures w) as HP.
  intros [_ Hd]%Retrier.retry_loop_spec. destruct Hd as [(-> & _ & s0 & e0 & Hf & Hj)|(_ & Hf)].
  - apply HP in Hf as (w1 & -> & Hs). simpl in Hj. destruct (Dial w1) as [w2 er] eqn:Hd. simplify_eq.
    apply Dial_spec in Hd as [Hd Hc]. exists w2. split_and!; [done|eauto|]. intros _.
    destruct (Hc eq_refl) as (c & e & o & l & ? & ? & ?). naive_solver.
  - assert (err <> None) by (intros ->; by eapply (Retrier.failures_error _ 2)).
    apply HP in Hf as (w1 & -> & Hs). exists w1. by split_and!.
Qed.

Lemma subscribe_retry rand w c s err sl :
  Conn (ws w) = Some c -> Retrier.Retry subscribeJob rand 3 1 10 (Some w) = (s, err, sl) ->
  exists evs evs', s = Some (mkWorld (ws w) (log w ++ evs ++ evs')) /\ quiet evs /\ quiet evs' /\
    (err = None -> evs' = all_written c (Subscriptions (ws w))).
Proof.
  intros Hc.
  set (P := fun (_ : nat) (s : option World) => exists evs, s = Some (mkWorld (ws w) (log w ++ evs)) /\ quiet evs).
  assert (forall k e0 e s, Retrier.failures subscribeJob k e0 (Some w) = Some (s, e) -> P k s) as HP.
  { intros k e0 e s' Hf. refine (Retrier.failures_inv _ P _ _ _ _ _ _ _ Hf).
    2:{ exists []. destruct w. rewrite app_nil_r. split; [done|split; constructor]. }
    intros n s1 s2 e' (evs & -> & Hq) Hj. simpl in Hj.
    destruct (subscribe_loop_written (Subscriptions (ws w)) (mkWorld (ws w) (log w ++ evs)) c Hc)
      as (evs' & er & Hl & Hq' & _). simpl in Hl. rewrite Hl in Hj. simplify_eq. exists (evs ++ evs').
    rewrite app_assoc. split; [done|]. destruct Hq, Hq'. split; by apply Forall_app. }
  intros [_ Hd]%Retrier.retry_loop_spec. destruct Hd as [(-> & _ & s0 & e0 & Hf & Hj)|(_ & Hf)].
  - apply HP in Hf as (evs & -> & Hq). simpl in Hj.
    destruct (subscribe_loop_written (Subscriptions (ws w)) (mkWorld (ws w) (log w ++ evs)) c Hc)
      as (evs' & er & Hl & Hq' & _ & Ha). simpl in Hl. rewrite Hl in Hj. simplify_eq.
    exists evs, evs'. rewrite app_assoc. auto.
  - assert (err <> None) by (intros ->; by eapply (Retrier.failures_error _ 2)).
    apply HP in Hf as (evs & -> & Hq). exists evs, []. rewrite app_nil_r. split_and!; try done; constructor.
Qed.

Lemma dialAndSubscribe_spec rand w :
  exists w' err, dialAndSubscribe rand w = (Some w', err) /\ same w w' /\
    (err = None -> subscribed (Subscriptions (ws w)) w').
Proof.
  unfold dialAndSubscribe. destruct (Retrier.Retry dialJob _ _ _ _ _) as [[s err] sl] eqn:Hd.
  apply dial_retry in Hd as (w1 & -> & Hs & Hc). destruct err as [e|]; [by exists w1, (Some e)|].
  destruct (Hc eq_refl) as (c & e & o & l1 & l2 & Hconn & Hlog & Hq).
  destruct (Retrier.Retry subscribeJob _ _ _ _ _) as [[s err] sl'] eqn:Hr.
  apply (subscribe_retry _ _ c) in Hr as (evs & evs' & -> & Hq1 & Hq2 & Ha); [|done].
  eexists _, err. split; [done|]. split; [by destruct Hs as (? & ? & ?)|]. intros ->. rewrite (Ha eq_refl).
  exists c, e, o, l1, (l2 ++ evs), []. simpl. destruct Hs as (-> & _ & _). split_and!; [done..| | |].
  - by rewrite Hlog, app_nil_r, <- !app_assoc.
  - destruct Hq, Hq1. split; by apply Forall_app.
  - split; constructor.
Qed.

(** ** The loop *)
Record loop_ok (subs : list subscription) (s : Loop) : Prop := {
  ok_subs : Subscriptions (ws (w_ s)) = subs;
  ok_subscribed : at_ s = Selecting \/ at_ s = Reading -> subscribed subs (w_ s);
  ok_running : IsRunning (ws (w_ s)) = true <-> at_ s <> Returned;
  ok_returned : at_ s = Returned -> cancelled s = true;
  ok_routed : Forall (fun m => m <> []) (routed s)
}.

Lemma subscribed_write subs w x w' e : write x w = Some (w', e) -> subscribed subs w -> subscribed subs w'.
Proof.
  intros Hw (c & e' & o & l1 & l2 & l3 & Hc & Hs & Hl & Hq2 & Hq3). unfold write in Hw. rewrite Hc in Hw.
  injection Hw as <- <-. exists c, e', o, l1, l2, (l3 ++ [EWrite c x (websocket_Write L (log w) c x)]). simpl.
  split_and!; [done..|by rewrite Hl, <- !app_assoc, <- app_comm_cons, <- !app_assoc|done|].
  destruct Hq3. split; apply Forall_app; split; auto; repeat constructor.
Qed.

Lemma close_same w : ws (close_ w) = ws w.
Proof. unfold close_, Close. by destruct (Conn (ws w)). Qed.

Lemma loop_step_ok subs s s' : loop_ok subs s -> loop_step s s' -> loop_ok subs s'.
Proof.
  intros [Hs Hsub Hrun Hret Hr] Hst.
  destruct Hst as [s rand w e Ha Hd|s rand w Ha Hd|s Ha Hc|s Ha Ht|s Ha Hf Hi|s Ha Hf Hi|s Ha Hc Ht Hf
                  |s c e Ha Hc Hrd|s c d Ha Hc Hrd];
    rewrite Ha in *; try specialize (Hsub (or_introl eq_refl)); try specialize (Hsub (or_intror eq_refl)).
  1,2: destruct (dialAndSubscribe_spec rand (w_ s)) as (w' & err & Hd' & (Hs' & Hi' & _) & Hok);
       rewrite Hd in Hd'; injection Hd' as <- <-; rewrite Hs in Hs', Hok; rewrite Hi' in Hrun.
  all: constructor; simpl; rewrite ?close_same; auto; try done; try (by intros [?|?]).
  all: try (split; [done|intros _; by apply Hrun]).
  apply Forall_app. split; [done|]. destruct d as [[|x m]|]; repeat constructor; done.
Qed.

Lemma write_same x w w' e : write x w = Some (w', e) -> ws w' = ws w.
Proof. unfold write. destruct (Conn (ws w)); [|done]. by intros [= <- <-]. Qed.

Lemma env_step_ok subs s s' : loop_ok subs s -> env_step s s' -> loop_ok subs s'.
Proof.
  intros [Hs Hsub Hrun Hret Hr] Hst. destruct Hst as [| | | |s x w e Hw]; constructor; simpl; auto.
  all: rewrite ?(write_same _ _ _ _ Hw); auto. intros Ha. eauto using subscribed_write.
Qed.

Lemma run_ok w t s0 s : Run w t = Some s0 -> rtc run_step s0 s -> loop_ok (Subscriptions (ws w)) s.
Proof.
  intros H0 Hr. assert (loop_ok (Subscriptions (ws w)) s0) as Hok.
  { unfold Run in H0. destruct (IsRunning _); [done|]. injection H0 as <-. constructor; simpl; auto; try done.
    by intros [?|?]. }
  clear H0. induction Hr as [s0|s0 s1 s Hst _ IH]; [done|]. apply IH.
  destruct Hst; eauto using loop_step_ok, env_step_ok.
Qed.

(** A loop that has not returned can always go on: it neither panics nor waits
    for anything but the library. *)
Lemma loop_progress subs s : loop_ok subs s -> at_ s <> Returned -> exists s', loop_step s s'.
Proof.
  intros [_ Hsub _ _ _] Ha. destruct (at_ s) eqn:Hat; [| | |done].
  - destruct (dialAndSubscribe_spec (fun _ => None) (w_ s)) as (w' & [e|] & Hd & _); eexists;
      [eapply r_dial_failed|eapply r_dialed]; done.
  - destruct (cancelled s) eqn:?; [eexists; by apply r_done|]. destruct (ticked s) eqn:?; [eexists; by apply r_reconnect|].
    destruct (fired s) eqn:?; [|eexists; by apply r_default].
    destruct (decide (InactivityTimeout (ws (w_ s)) < now s - lastMessageTime (ws (w_ s))));
      eexists; [by apply r_inactive|apply r_active; [done..|lia]].
  - destruct (Hsub (or_intror eq_refl)) as (c & ? & ? & ? & ? & ? & Hc & _).
    destruct (readFunc (ws (w_ s)) (log (w_ s)) c) eqn:?; eexists; [by eapply r_read|by eapply r_read_failed].
Qed.

(** C12: In every state that [Run] reaches, whatever the library answers and
    however the timers, the context and other writers interleave: the client
    reads only from a connection to which, since it was dialed, all subscriptions
    were written in order and which nobody closed; only messages that are not
    empty reach the router; the loop can always go on until it returns, and it
    returns only after the context was cancelled, leaving the client not running. *)
Theorem run_reads_subscribed w t s0 s :
  Run w t = Some s0 -> rtc run_step s0 s ->
  (at_ s = Reading -> subscribed (Subscriptions (ws w)) (w_ s)) /\
  Forall (fun m => m <> []) (routed s) /\
  (at_ s <> Returned -> exists s', loop_step s s') /\
  (at_ s = Returned -> cancelled s = true /\ IsRunning (ws (w_ s)) = false).
Proof.
  intros H0 Hr. pose proof (run_ok _ _ _ _ H0 Hr) as Hok. pose proof (loop_progress _ _ Hok) as Hp.
  destruct Hok as [Hs Hsub Hrun Hret Hro]. split_and!; [auto..|]. intros Ha. split; [auto|].
  destruct (IsRunning _); [|done]. by destruct (proj1 Hrun eq_refl).
Qed.

(** ** What the loop does not notice *)
Definition dial_of (w : World) : dial_func := default (websocket_Dial L) (CustomDialFunc (ws w)).

Lemma dial_fails rand w :
  (forall l e o, exists x, dial_of w l e o = Err x) ->
  exists w' e, dialAndSubscribe rand w = (Some w', Some e) /\ same w w'.
Proof.
  intros Hd. destruct (dialAndSubscribe_spec rand w) as (w' & [e|] & Heq & Hs & Hok); [by exists w', e|].
  exfalso. clear Hok. unfold dialAndSubscribe in Heq.
  destruct (Retrier.Retry dialJob _ _ _ _ _) as [[s err] sl] eqn:Hr. destruct err; [done|].
  apply Retrier.retry_loop_spec in Hr as [_ Hr].
  pose proof (dial_failures w) as HP.
  destruct Hr as [(_ & _ & s1 & e1 & Hf & Hj)|(_ & Hf)].
  - apply HP in Hf as (w1 & -> & (_ & _ & Hcd)). simpl in Hj. unfold dial_of in Hd. rewrite Hcd in Hd.
    destruct (Dial w1) as [w2 er] eqn:Hd1. injection Hj as _ ->. unfold Dial in Hd1.
    destruct (if negb _ then url_Parse _ _ else None); [done|].
    match type of Hd1 with context [default ?f ?g ?l ?e ?o] =>
      replace g with (CustomDialFunc (ws w1)) in Hd1 by (by destruct (negb _)); destruct (Hd l e o) as [x Hx]; rewrite Hx in Hd1 end.
    done.
  - by eapply (Retrier.failures_error _ 2).
Qed.

(** The loop looks at its context only while it is connected: as long as
    dialing fails, as it does with a cancelled context, it never returns. *)
Theorem dialing_ignores_cancellation s s' :
  at_ s = Dialing -> (forall l e o, exists x, dial_of (w_ s) l e o = Err x) ->
  rtc run_step s s' -> at_ s' = Dialing.
Proof.
  intros Ha Hd Hr. induction Hr as [s|s s1 s' Hst _ IH]; [done|].
  enough (at_ s1 = Dialing /\ CustomDialFunc (ws (w_ s1)) = CustomDialFunc (ws (w_ s))) as [H1 H2].
  { apply IH; [done|]. unfold dial_of. by rewrite H2. }
  destruct Hst as [Hst|Hst].
  - destruct Hst as [s rand w e _ Hds|s rand w _ Hds| | | | | | | ]; try congruence;
      destruct (dial_fails rand _ Hd) as (w' & e' & Hds' & (_ & _ & Hc)); rewrite Hds in Hds'; simplify_eq; done.
  - destruct Hst as [| | | |s x w e Hw]; simpl; rewrite ?(write_same _ _ _ _ Hw); auto.
Qed.

(** A read that does not return holds the loop: neither the ticker, the timer nor
    the context ends it. *)
Lemma read_holds_loop s s1 s2 :
  at_ s = Reading -> rtc env_step s s1 -> loop_step s1 s2 ->
  exists c, Conn (ws (w_ s1)) = Some c /\
    ((exists e, readFunc (ws (w_ s1)) (log (w_ s1)) c = Err e /\ at_ s2 = Dialing) \/
     (exists data, readFunc (ws (w_ s1)) (log (w_ s1)) c = Ok data /\ at_ s2 = Selecting)).
Proof.
  intros Ha He Hl. assert (at_ s1 = Reading) as Ha1 by (clear Hl s2; induction He as [|? ? ? Hst _ IH]; [done|];
    apply IH; by destruct Hst).
  destruct Hl as [| | | | | | |s1 c e _ Hc Hr|s1 c d _ Hc Hr]; try congruence; exists c; (split; [done|]);
    [left; by exists e|right; by exists d].
Qed.

(** Once the timer has fired and ended a connection it is never armed again, so
    later connections are not watched for inactivity. *)
Lemma inactivity_watched_once s s' :
  armed s = None -> fired s = false -> rtc run_step s s' -> armed s' = None /\ fired s' = false.
Proof.
  intros Ha Hf Hr. revert Ha Hf. induction Hr as [s|s s1 s' Hst _ IH]; intros Ha Hf; [done|].
  apply IH; destruct Hst as [Hst|Hst]; destruct Hst; simpl in *; congruence.
Qed.
End wss.

(** ** Examples *)
(** A library whose first dial fails and whose later ones succeed, and which
    reads one message. *)
Definition w_library : @Library nat :=
  mkLibrary (fun _ => None) (fun l _ _ => if bool_decide (l = []) then Err (External "refused") else Ok 7%nat)
    (fun _ _ => Ok [("p", Reducer.JNull)]) (fun _ _ _ => None) (fun _ _ => None) (fun _ _ => None) (fun _ => 1006).
Definition w_client (subs : list (@subscription nat)) : World :=
  mkWorld (mkWebsocketHelper None "wss://x" false 0 subs "http://proxy" false None None [] 0 Hour Minute) [].

Lemma run_reads_subscribed_witness :
  exists s0 s, Run (w_client [Value 1%nat; Raw "a"]) 5 = Some s0 /\ rtc (run_step w_library) s0 s /\
    at_ s = Reading /\ length (routed s) = 1%nat /\ subscribed [Value 1%nat; Raw "a"] (w_ s).
Proof.
  destruct (Run (w_client [Value 1%nat; Raw "a"]) 5) as [s0|] eqn:H0; [|done]. injection H0 as <-.
  match goal with |- context [Some ?s0 = Some _] => assert (exists s, rtc (run_step w_library) s0 s /\
    at_ s = Reading /\ length (routed s) = 1%nat) as (s & Hr & Ha & Hl) end.
  { eexists. split; [|split].
    - eapply rtc_l; [left; eapply (r_dialed _ _ (fun _ => None)); [reflexivity|vm_compute; reflexivity]|].
      eapply rtc_l; [left; eapply r_default; reflexivity|].
      eapply rtc_l; [left; eapply (r_read _ _ 7%nat); reflexivity|].
      eapply rtc_l; [left; eapply r_default; reflexivity|]. apply rtc_refl.
    - reflexivity.
    - reflexivity. }
  eexists _, s. split; [reflexivity|]. split_and!; [exact Hr|done|done|].
  by apply (proj1 (run_reads_subscribed w_library (w_client [Value 1%nat; Raw "a"]) 5 _ s eq_refl Hr)).
Defined.

Definition w_offline : @Library nat :=
  mkLibrary (fun _ => None) (fun _ _ _ => Err (External "context canceled")) (fun _ _ => Err (External "closed"))
    (fun _ _ _ => None) (fun _ _ => None) (fun _ _ => None) (fun _ => 1006).
Lemma dialing_ignores_cancellation_witness : exists s s',
  cancelled s = true /\ rtc (run_step w_offline) s s' /\ s' <> s /\ at_ s' = Dialing.
Proof.
  set (s := mkLoop Dialing (w_client []) true false false None 5 []).
  destruct (dialAndSubscribe w_offline (fun _ => None) (w_client [])) as [[w|] [e|]] eqn:Hd; try done.
  exists s, (go_to Dialing w s).
  assert (rtc (run_step w_offline) s (go_to Dialing w s)) as Hr
    by (apply rtc_once; left; by eapply r_dial_failed).
  split_and!; [done|exact Hr|by injection Hd as <-|].
  apply (dialing_ignores_cancellation w_offline s _ eq_refl); [|exact Hr]. intros l e' o. by eexists.
Defined.
End Wss.
