(* ===== verification/Decode.v ===== *)
(** * Decoding of messages

    What the websocket providers use of [encoding/json]: a message is a
    [map[string]any], which [common.MessageToStruct] of
    [node/pkg/websocketfetcher/common/utils.go] writes out and reads back into a
    struct.  The struct types of the providers are values of [ty], decoding
    follows the rules of the package: keys name fields exactly or, failing that,
    up to case; null leaves a field as it is; a value of another kind is an error. *)

From S2P Require Import Prelude Errors Text Float Reducer.
From Stdlib Require Import Ascii Floats.SpecFloat.
Import Text Float Reducer.

Local Open Scope Z_scope.
Local Open Scope go_scope.

Module Decode.

(** Types of fields, [TRaw] for [json.RawMessage]; a struct lists its fields by name, JSON name and type. *)
Inductive ty : Type :=
| TString | TFloat | TBool | TAny | TRaw
| TInt (bits : Z)
| TPtr (t : ty)
| TSlice (t : ty)
| TMap (t : ty)
| TStruct (fields : list (string * string * ty)).

Inductive value : Type :=
| VString (s : string)
| VFloat (f : float64)
| VBool (b : bool)
| VAny (j : json)
| VInt (n : Z)
| VNil
| VRef (v : value)
| VSlice (l : list value)
| VMap (m : list (string * value))
| VStruct (fields : list (string * value)).

Fixpoint zero (t : ty) : value :=
  match t with
  | TString => VString ""
  | TFloat => VFloat fzero
  | TBool => VBool false
  | TAny => VAny JNull
  | TRaw => VNil
  | TInt _ => VInt 0
  | TPtr _ => VNil
  | TSlice _ => VSlice []
  | TMap _ => VMap []
  | TStruct fields => VStruct ((fix go l := match l with [] => [] | (n, _, t) :: l => (n, zero t) :: go l end) fields)
  end.

(** ** Values of a type *)
Fixpoint has_type (v : value) (t : ty) : bool :=
  match v, t with
  | VString _, TString | VFloat _, TFloat | VBool _, TBool | VAny _, TAny | VNil, TPtr _ | VAny _, TRaw | VNil, TRaw => true
  | VInt n, TInt bits => (- 2 ^ (bits - 1) <=? n) && (n <? 2 ^ (bits - 1))
  | VRef v, TPtr t => has_type v t
  | VSlice l, TSlice t => forallb (fun v => has_type v t) l
  | VMap m, TMap t => forallb (fun kv => has_type (snd kv) t) m
  | VStruct l, TStruct fields =>
      (fix go l fs := match l, fs with
        | [], [] => true
        | (n, v) :: l, (n', _, t) :: fs => bool_decide (n = n') && has_type v t && go l fs
        | _, _ => false
        end) l fields
  | _, _ => false
  end.

(** ** Numbers *)
(** The integer that a double is, if it is one. *)
Definition integral (f : float64) : option Z :=
  match f with
  | S754_zero _ => Some 0
  | S754_finite s m e =>
      let n := if 0 <=? e then Zpos m * 2 ^ e else Zpos m / 2 ^ (- e) in
      if (0 <=? e) || (Zpos m `mod` 2 ^ (- e) =? 0) then Some (if s then - n else n) else None
  | _ => None
  end.

(** The shortest decimal that reads back as a positive integral double below
    [10^21], with zeros in place of the digits left out: the candidates with [k]
    digits fewer are the multiples of [10^k] next to it. *)
Fixpoint shortest_from (k : nat) (f : float64) (n : Z) : Z :=
  match k with
  | O => n
  | S k' =>
      let p := 10 ^ Z.of_nat k in
      let lo := n / p * p in
      let hi := lo + p in
      let good c := feqb (of_ratio false c 1) f in
      match good lo, good hi with
      | true, true => if n - lo <=? hi - n then lo else hi
      | true, false => lo
      | false, true => hi
      | false, false => shortest_from k' f n
      end
  end.
(** The integer that the JSON text of the double is read as. *)
Definition int_literal (bits : Z) (f : float64) : option Z :=
  n ← integral f;
  if 10 ^ 21 <=? Z.abs n then None
  else
    let a := if Z.abs n <? 2 ^ 53 then Z.abs n else shortest_from 20 (fabs f) (Z.abs n) in
    let n := if n <? 0 then - a else a in
    if (- 2 ^ (bits - 1) <=? n) && (n <? 2 ^ (bits - 1)) then Some n else None.

(** ** [json.Unmarshal] *)
Definition mismatch : error := External "json: cannot unmarshal".

(** The field that a key names: its exact name first, else up to case. *)
Fixpoint field_by (eq : string -> string -> bool) (key : string) (fields : list (string * string * ty))
    : option (string * ty) :=
  match fields with
  | [] => None
  | (n, k, t) :: fields => if eq k key then Some (n, t) else field_by eq key fields
  end.
Definition field_of (key : string) (fields : list (string * string * ty)) : option (string * ty) :=
  match field_by (fun a b => bool_decide (a = b)) key fields with
  | Some f => Some f
  | None => field_by (fun a b => bool_decide (ToLower a = ToLower b)) key fields
  end.

Fixpoint get_field (l : list (string * value)) (n : string) : option value :=
  match l with
  | [] => None
  | (n', v) :: l => if bool_decide (n' = n) then Some v else get_field l n
  end.
Fixpoint put_field (n : string) (v : value) (l : list (string * value)) : list (string * value) :=
  match l with
  | [] => []
  | (n', v') :: l => if bool_decide (n' = n) then (n', v) :: l else (n', v') :: put_field n v l
  end.

(** Pointers are followed, and made where they are nil. *)
Fixpoint strip (t : ty) : ty := match t with TPtr t => strip t | _ => t end.
Fixpoint deref (t : ty) (cur : value) : value :=
  match t with
  | TPtr t => deref t (match cur with VRef v => v | _ => zero t end)
  | _ => cur
  end.
Fixpoint wrap_ (t : ty) (v : value) : value := match t with TPtr t => VRef (wrap_ t v) | _ => v end.

(** What null does to a value. *)
Definition on_null (t : ty) (cur : value) : value :=
  match t with TPtr _ | TSlice _ | TMap _ | TAny => zero t | TRaw => VAny JNull | _ => cur end.

Fixpoint decode (j : json) (t : ty) (cur : value) {struct j} : res value :=
  match j with
  | JNull => Ok (on_null t cur)
  | _ =>
      res_map (wrap_ t)
        match strip t, j with
        | TAny, j | TRaw, j => Ok (VAny j)
        | TString, JStr s => Ok (VString s)
        | TFloat, JNum f => Ok (VFloat f)
        | TBool, JBool b => Ok (VBool b)
        | TInt bits, JNum f => match int_literal bits f with Some n => Ok (VInt n) | None => Err mismatch end
        | TSlice t, JArr l =>
            res_map VSlice ((fix go l := match l with
              | [] => Ok []
              | j :: l => let? v := decode j t (zero t) in let? vs := go l in Ok (v :: vs)
              end) l)
        | TMap t, JObj m =>
            res_map VMap ((fix go m := match m with
              | [] => Ok []
              | (k, j) :: m => let? v := decode j t (zero t) in let? vs := go m in Ok ((k, v) :: vs)
              end) m)
        | TStruct fields, JObj m =>
            match deref t cur with
            | VStruct vs =>
                res_map VStruct ((fix go m vs := match m with
                  | [] => Ok vs
                  | (k, j) :: m =>
                      match field_of k fields with
                      | None => go m vs
                      | Some (n, t) =>
                          match get_field vs n with
                          | None => go m vs
                          | Some cur => let? v := decode j t cur in go m (put_field n v vs)
                          end
                      end
                  end) m vs)
            | _ => Err mismatch
            end
        | _, _ => Err mismatch
        end
  end.

(** [json.Marshal]: keys in order; there is no text for what is not a number. *)
Definition key_le (a b : string * json) : Prop := str_ltb b.1 a.1 = false.
#[global] Instance key_le_dec a b : Decision (key_le a b).
Proof. unfold key_le. solve_decision. Defined.
Fixpoint marshal (j : json) : option json :=
  match j with
  | JNum f => match f with S754_infinity _ | S754_nan => None | _ => Some j end
  | JArr l => JArr <$> (fix go l := match l with
      | [] => Some [] | j :: l => x ← marshal j; xs ← go l; Some (x :: xs) end) l
  | JObj m => (fun m => JObj (merge_sort key_le m)) <$> (fix go m := match m with
      | [] => Some [] | (k, j) :: m => x ← marshal j; xs ← go m; Some ((k, x) :: xs) end) m
  | _ => Some j
  end.

Definition MessageToStruct (t : ty) (message : list (string * json)) : res value :=
  match marshal (JObj message) with
  | None => Err (External "json: unsupported value")
  | Some data => decode data t (zero t)
  end.

(** ** Reading a struct *)
Definition fld (n : string) (v : value) : value :=
  match v with VStruct l => default VNil (get_field l n) | _ => VNil end.
Definition as_str (v : value) : string := match v with VString s => s | _ => "" end.
Definition as_float (v : value) : float64 := match v with VFloat f => f | _ => fzero end.
Definition as_int (v : value) : Z := match v with VInt n => n | _ => 0 end.
Definition as_slice (v : value) : list value := match v with VSlice l => l | _ => [] end.
Definition as_map (v : value) : list (string * value) := match v with VMap m => m | _ => [] end.
(** The text of a [json.RawMessage], [None] when the field was absent. *)
Definition as_raw (v : value) : option json := match v with VAny j => Some j | _ => None end.
Definition as_any (v : value) : json := match v with VAny j => j | _ => JNull end.
(** What a pointer refers to. *)
Definition ref (v : value) : option value := match v with VRef v => Some v | _ => None end.
Definition str (n : string) (v : value) : string := as_str (fld n v).
Definition flt (n : string) (v : value) : float64 := as_float (fld n v).
Definition int (n : string) (v : value) : Z := as_int (fld n v).

(** ** Decoding keeps to the type *)
Fixpoint json_nested (P : json -> Prop) (Hnull : P JNull) (Hb : forall b, P (JBool b)) (Hn : forall f, P (JNum f))
    (Hs : forall s, P (JStr s)) (Ha : forall l, Forall P l -> P (JArr l))
    (Ho : forall m, Forall (fun kv => P (snd kv)) m -> P (JObj m)) (j : json) : P j :=
  match j with
  | JNull => Hnull | JBool b => Hb b | JNum f => Hn f | JStr s => Hs s
  | JArr l => Ha l ((fix go l : Forall P l := match l with
      | [] => Forall_nil_2 _
      | x :: l => Forall_cons_2 _ _ _ (json_nested P Hnull Hb Hn Hs Ha Ho x) (go l) end) l)
  | JObj m => Ho m ((fix go m : Forall (fun kv => P (snd kv)) m := match m with
      | [] => Forall_nil_2 _
      | (k, j) :: m => Forall_cons_2 _ (k, j) _ (json_nested P Hnull Hb Hn Hs Ha Ho j) (go m) end) m)
  end.

Fixpoint ty_nested (P : ty -> Prop) (H1 : P TString) (H2 : P TFloat) (H3 : P TBool) (H4 : P TAny) (H6 : P TRaw)
    (H5 : forall bits, P (TInt bits)) (Hp : forall t, P t -> P (TPtr t)) (Hs : forall t, P t -> P (TSlice t)) (Hm : forall t, P t -> P (TMap t))
    (Hf : forall fs, Forall (fun f => P (snd f)) fs -> P (TStruct fs)) (t : ty) : P t :=
  match t with
  | TPtr t => Hp t (ty_nested P H1 H2 H3 H4 H6 H5 Hp Hs Hm Hf t)
  | TSlice t => Hs t (ty_nested P H1 H2 H3 H4 H6 H5 Hp Hs Hm Hf t)
  | TMap t => Hm t (ty_nested P H1 H2 H3 H4 H6 H5 Hp Hs Hm Hf t)
  | TStruct fs => Hf fs ((fix go fs : Forall (fun f => P (snd f)) fs := match fs with
      | [] => Forall_nil_2 _
      | (n, t) :: fs => Forall_cons_2 _ (n, t) _ (ty_nested P H1 H2 H3 H4 H6 H5 Hp Hs Hm Hf t) (go fs) end) fs)
  | TString => H1 | TFloat => H2 | TBool => H3 | TAny => H4 | TRaw => H6 | TInt bits => H5 bits
  end.

(** The fields of a struct against their declarations. *)
Fixpoint fields_typed (l : list (string * value)) (fs : list (string * string * ty)) : bool :=
  match l, fs with
  | [], [] => true
  | (n, v) :: l, (n', _, t) :: fs => bool_decide (n = n') && has_type v t && fields_typed l fs
  | _, _ => false
  end.
Lemma has_type_struct l fs : has_type (VStruct l) (TStruct fs) = fields_typed l fs.
Proof. revert fs. induction l as [|[n v] l IH]; intros [|[[n' k] t] fs]; try done. Qed.

(** Types whose structs have distinct field names and whose integers are wide
    enough for zero. *)
Fixpoint ty_ok (t : ty) : bool :=
  match t with
  | TInt bits => 0 <? bits
  | TPtr t | TSlice t | TMap t => ty_ok t
  | TStruct fs => bool_decide (NoDup ((fun f => f.1.1) <$> fs)) &&
      (fix go fs := match fs with [] => true | (_, _, t) :: fs => ty_ok t && go fs end) fs
  | _ => true
  end.
Definition fields_ok (fs : list (string * string * ty)) : bool := forallb (fun f => ty_ok (snd f)) fs.
Lemma ty_ok_struct fs : ty_ok (TStruct fs) = bool_decide (NoDup ((fun f => f.1.1) <$> fs)) && fields_ok fs.
Proof. simpl. f_equal. induction fs as [|[[n k] t] fs IH]; [done|]. unfold fields_ok in *. simpl. by rewrite IH. Qed.

Lemma zero_typed t : ty_ok t = true -> has_type (zero t) t = true.
Proof.
  induction t as [| | | | |bits|t IH|t IH|t IH|fs IH] using ty_nested; try done.
  - intros Hb%Z.ltb_lt. simpl. apply andb_true_iff.
    assert (0 < 2 ^ (bits - 1)) by (apply Z.pow_pos_nonneg; lia). split; breflect; lia.
  - rewrite ty_ok_struct. intros [_ Hok]%andb_true_iff.
    change (zero (TStruct fs)) with (VStruct ((fix go l := match l with [] => [] | (n, _, t) :: l => (n, zero t) :: go l end) fs)).
    rewrite has_type_struct. induction IH as [|[[n k] t] fs Ht _ IH]; [done|].
    unfold fields_ok in *. simpl in *. apply andb_true_iff in Hok as [H1 H2].
    rewrite bool_decide_true by done. by rewrite (Ht H1), (IH H2).
Qed.

Lemma fields_typed_get l fs n v : NoDup ((fun f => f.1.1) <$> fs) -> fields_typed l fs = true -> get_field l n = Some v ->
  forall k t, (n, k, t) ∈ fs -> has_type v t = true.
Proof.
  revert fs. induction l as [|[n1 v1] l IH]; intros [|[[n' k'] t'] fs] Hnd Hl Hg k t Hin; try done.
  simpl in Hl, Hg. apply andb_true_iff in Hl as [[->%bool_decide_eq_true Hv]%andb_true_iff Hl].
  rewrite fmap_cons, NoDup_cons in Hnd. destruct Hnd as [Hni Hnd].
  case_bool_decide; simplify_eq.
  - apply elem_of_cons in Hin as [[= -> ->]|Hin]; [done|]. destruct Hni. apply list_elem_of_fmap. by exists (n, k, t).
  - apply elem_of_cons in Hin as [[= -> -> ->]|Hin]; [done|]. by eapply IH.
Qed.
Lemma fields_typed_put l fs n v : fields_typed l fs = true -> NoDup ((fun f => f.1.1) <$> fs) ->
  (forall k t, (n, k, t) ∈ fs -> has_type v t = true) -> fields_typed (put_field n v l) fs = true.
Proof.
  revert fs. induction l as [|[n1 v1] l IH]; intros [|[[n' k'] t'] fs] Hl Hnd Hv; try done.
  simpl in Hl |- *. apply andb_true_iff in Hl as [[->%bool_decide_eq_true Hv1]%andb_true_iff Hl].
  rewrite fmap_cons, NoDup_cons in Hnd. destruct Hnd as [Hni Hnd].
  case_bool_decide; simplify_eq; simpl; rewrite bool_decide_true by done; simpl.
  - rewrite Hl, (Hv k' t'); [done|left].
  - rewrite Hv1. apply IH; [done..|]. intros k t Hin. eapply Hv. by right.
Qed.

Lemma field_unique (fs : list (string * string * ty)) n k t k' t' : NoDup ((fun f => f.1.1) <$> fs) ->
  (n, k, t) ∈ fs -> (n, k', t') ∈ fs -> t = t'.
Proof.
  induction fs as [|[[n0 k0] t0] fs IH]; rewrite ?fmap_cons, ?NoDup_cons; [intros _ []%elem_of_nil|].
  intros [Hni Hnd] H1 H2. apply elem_of_cons in H1, H2.
  assert (forall k t, (n0, k, t) ∉ fs) by (intros k1 t1 Hin; apply Hni, list_elem_of_fmap; by exists (n0, k1, t1)).
  destruct H1, H2; simplify_eq; naive_solver.
Qed.

Lemma field_of_elem key fs n t : field_of key fs = Some (n, t) -> exists k, (n, k, t) ∈ fs.
Proof.
  assert (forall eq, field_by eq key fs = Some (n, t) -> exists k, (n, k, t) ∈ fs) as H.
  { intros eq. induction fs as [|[[n' k'] t'] fs IH]; [done|]. simpl. destruct (eq k' key).
    - intros [= -> ->]. exists k'. left.
    - intros Hf. destruct (IH Hf) as [k ?]. exists k. by right. }
  unfold field_of. destruct (field_by _ key fs) as [f|] eqn:Hf; [|apply H]. intros [= ->]. by apply H in Hf.
Qed.

Lemma strip_ok t : ty_ok t = true -> ty_ok (strip t) = true.
Proof. induction t; auto. Qed.
Lemma wrap_typed t v : has_type v (strip t) = true -> has_type (wrap_ t v) t = true.
Proof. induction t; auto. Qed.
Lemma deref_typed t cur : ty_ok t = true -> has_type cur t = true -> has_type (deref t cur) (strip t) = true.
Proof.
  revert cur. induction t as [| | | | | |t IH| | |]; intros cur Hok Hc; try done. simpl in *.
  apply IH; [done|]. destruct cur; try done. by apply zero_typed.
Qed.

Lemma int_literal_range bits f n : int_literal bits f = Some n -> has_type (VInt n) (TInt bits) = true.
Proof.
  unfold int_literal. destruct (integral f) as [n0|]; [|done]. cbn [mbind option_bind]. destruct (_ <=? Z.abs n0); [done|].
  set (k := if n0 <? 0 then _ else _). clearbody k. unfold has_type.
  destruct ((_ <=? k) && (k <? _)) eqn:Hk; [|done]. by intros [= <-].
Qed.

Lemma decode_typed j : forall t cur v,
  ty_ok t = true -> has_type cur t = true -> decode j t cur = Ok v -> has_type v t = true.
Proof.
  induction j as [|b|f|s|l IH|m IH] using json_nested; intros t cur v Hok Hc Hd.
  { simpl in Hd. injection Hd as <-. destruct t; simpl; try done. }
  all: pose proof (strip_ok t Hok) as Hok'; pose proof (deref_typed t cur Hok Hc) as Hc'.
  all: cbn [decode] in Hd; apply res_map_Ok in Hd as (x & Hx & ->); apply wrap_typed.
  all: destruct (strip t) as [| | | | |bits|t'|t'|t'|fs] eqn:Ht; simplify_eq; try done.
  - destruct (int_literal bits f) eqn:Hi; simplify_eq. by eapply int_literal_range.
  - apply res_map_Ok in Hx as (vs & Hvs & ->). simpl in Hok' |- *. clear Hc' Ht. revert vs Hvs.
    induction IH as [|j l Hj _ IH]; intros vs Hvs; [by simplify_eq|].
    apply res_bind_Ok in Hvs as (v & Hv & (vs' & Hvs' & ?)%res_bind_Ok). simplify_eq. simpl.
    rewrite (Hj t' _ v Hok' (zero_typed _ Hok') Hv). by apply IH.
  - apply res_map_Ok in Hx as (vs & Hvs & ->). simpl in Hok' |- *. clear Hc' Ht. revert vs Hvs.
    induction IH as [|[k j] m Hj _ IH]; intros vs Hvs; [by simplify_eq|].
    apply res_bind_Ok in Hvs as (v & Hv & (vs' & Hvs' & ?)%res_bind_Ok). simplify_eq. simpl.
    rewrite (Hj t' _ v Hok' (zero_typed _ Hok') Hv). by apply IH.
  - destruct (deref t cur) as [| | | | | | | | |cs]; try done. clear Hc Ht.
    apply res_map_Ok in Hx as (vs & Hvs & ->). rewrite has_type_struct in Hc' |- *.
    rewrite ty_ok_struct in Hok'. apply andb_true_iff in Hok' as [Hnd%bool_decide_eq_true Hfs].
    revert cs Hc' Hvs. induction IH as [|[k j] m Hj _ IH]; intros cs Hc Hvs; [by simplify_eq|].
    destruct (field_of k fs) as [[n t']|] eqn:Hf; [|by eapply IH].
    destruct (get_field cs n) as [c|] eqn:Hg; [|by eapply IH].
    apply res_bind_Ok in Hvs as (v & Hv & Hvs). eapply IH, Hvs. apply fields_typed_put; [done..|].
    apply field_of_elem in Hf as [k' Hin]. intros k2 t2 Hin2.
    assert (t2 = t') as -> by by apply (field_unique fs n k2 t2 k' t').
    eapply (Hj t'), Hv; [|by eapply fields_typed_get].
    unfold fields_ok in Hfs. rewrite forallb_forall in Hfs. apply (Hfs (n, k', t')). by apply list_elem_of_In.
Qed.

(** The decoder is sound for the types of this model: reading a message into a
    struct type gives an error or a value of exactly that type. *)
Theorem message_well_typed t message v :
  ty_ok t = true -> MessageToStruct t message = Ok v -> has_type v t = true.
Proof.
  intros Hok. unfold MessageToStruct. destruct (marshal _); [|done]. apply decode_typed; [done|by apply zero_typed].
Qed.

(** A type with all kinds of fields. *)
Definition w_type : ty := TStruct [("Type", "e", TString); ("Time", "E", TInt 64); ("Price", "p", TPtr TFloat);
  ("Data", "data", TSlice (TStruct [("ID", "id", TInt 32)]))].
Lemma message_well_typed_witness : exists v,
  MessageToStruct w_type [("Data", JArr [JObj [("ID", JNum (of_int 7))]]); ("E", JNum (of_int 1700000000000));
    ("e", JStr "ticker"); ("P", JNull)] = Ok v /\
  str "Type" v = "ticker"%string /\ int "Time" v = 1700000000000 /\ fld "Price" v = VNil /\ has_type v w_type = true.
Proof.
  destruct (MessageToStruct w_type _) as [v|] eqn:Hm; [|by vm_compute in Hm]. exists v. split; [done|].
  assert (ty_ok w_type = true) as Hok by (vm_compute; reflexivity).
  pose proof (message_well_typed w_type _ v Hok Hm). vm_compute in Hm. injection Hm as <-. done.
Defined.

(** A number beyond the exact integers is read with its last digits as zeros. *)
Example long_number : int_literal 64 (of_int 1152921504606846976) = Some 1152921504606847000.
Proof. vm_compute. reflexivity. Qed.
End Decode.
