(* ===== verification/WsFetcher.v ===== *)
(** * The websocket fetcher

    [node/pkg/websocketfetcher/app.go] with [common/type.go] and
    [common/utils.go]: the feeds of each exchange by symbol, the options and the
    set-up of the fetchers, and the jobs that move feed data from the buffer of
    the providers to the table of latest data and to the channel of the database
    writer.  The providers themselves are in the files [Providers*.v]. *)

From S2P Require Import Prelude Errors Wire Text Strings Float Reducer FeedData Util Abi Decode.
From Stdlib Require Import Ascii.
Import Text Strings Float Reducer FeedData Decode.

Local Open Scope Z_scope.
Local Open Scope go_scope.

(** ** [common/type.go] and [common/utils.go] *)
Module Common.

Definition DECIMALS : Z := 8.
Definition VolumeCacheLifespan : Z := 600 * Second.
Definition VolumeFetchInterval : Z := 10000.
Definition VolumeFetchTimeout : Z := 6 * Second.

(** [Definition]: the JSON of the definition, or that it is not valid. *)
Record Feed : Type := mkFeed { fd_ID : int32; fd_Definition : res json }.

Definition FeedDefinition : ty := TStruct
  [("Type", "type", TString); ("Provider", "provider", TString); ("Base", "base", TString); ("Quote", "quote", TString)].
Definition DexFeedDefinition : ty := TStruct
  [("Type", "type", TString); ("Address", "address", TString); ("ChainId", "chainId", TString);
   ("Token0Decimals", "token0Decimals", TInt 64); ("Token1Decimals", "token1Decimals", TInt 64);
   ("Reciprocal", "reciprocal", TPtr TBool)].

Abbreviation feed_map := (gmap string (list int32)).
Record FeedMaps : Type := mkFeedMaps { Combined : feed_map; Separated : feed_map }.

Record FetcherConfig : Type := mkFetcherConfig { fc_FeedMaps : FeedMaps; fc_Proxy : string }.
Definition WithFeedMaps (feedMaps : FeedMaps) (c : FetcherConfig) : FetcherConfig := mkFetcherConfig feedMaps (fc_Proxy c).
Definition WithProxy (proxy : string) (c : FetcherConfig) : FetcherConfig := mkFetcherConfig (fc_FeedMaps c) proxy.

Record VolumeCache : Type := mkVolumeCache { vc_UpdatedAt : Time; vc_Volume : float64 }.
Abbreviation VolumeCacheMap := (gmap Z VolumeCache).

Definition capitalizeFirstLetter (s : string) : string :=
  match chars s with [] => s | c :: l => text (upper c :: l) end.
Definition GetDexFeedsQuery (name : string) : string :=
  let q := Abi.quote in
  ("SELECT * FROM feeds WHERE definition::jsonb @> '{" +:+ q +:+ "type" +:+ q +:+ ": " +:+ q +:+
   capitalizeFirstLetter name +:+ "Pool" +:+ q +:+ "}'::jsonb;")%string.

(** The names under which a feed's exchange and symbol are entered. *)
Definition definition_of (feed : Feed) : res (string * string * string) :=
  let? j := fd_Definition feed in
  let? def := decode j FeedDefinition (zero FeedDefinition) in
  Ok (ToLower (str "Provider" def), ToUpper (str "Base" def), ToUpper (str "Quote" def)).
Definition combinedName (base quote : string) : string := (base +:+ quote)%string.
Definition separatedName (base quote : string) : string := (base +:+ "-" +:+ quote)%string.

Definition append_id (key : string) (id : int32) (m : feed_map) : feed_map :=
  <[key := default [] (m !! key) ++ [id]]> m.
Definition add_feed (feedMaps : gmap string FeedMaps) (feed : Feed) : gmap string FeedMaps :=
  match definition_of feed with
  | Err _ => feedMaps
  | Ok (provider, base, quote) =>
      let c := combinedName base quote in
      let s := separatedName base quote in
      let maps := default (mkFeedMaps {[c := []]} {[s := []]}) (feedMaps !! provider) in
      <[provider := mkFeedMaps (append_id c (fd_ID feed) (Combined maps)) (append_id s (fd_ID feed) (Separated maps))]>
        feedMaps
  end.
Definition GetWssFeedMap (feeds : list Feed) : gmap string FeedMaps := fold_left add_feed feeds ∅.

Definition invalid_number : error := External "strconv.ParseFloat: invalid syntax".
Definition FormatFloat64Price (price : float64) : float64 := fmul price (Pow10 DECIMALS).
Definition PriceStringToFloat64 (price : string) : res float64 :=
  match ParseFloat price with
  | None => Err invalid_number
  | Some f => Ok (FormatFloat64Price f)
  end.
Definition VolumeStringToFloat64 (volume : string) : res float64 :=
  match ParseFloat volume with None => Err invalid_number | Some f => Ok f end.
Definition Min (a b : Z) : Z := if a <? b then a else b.

(** The data that the converters make: one for each feed of the symbol. *)
Definition feed_data (ids : list int32) (value volume : float64) (timestamp : Time) : list FeedData :=
  (fun id => mkFeedData id value volume (Some timestamp)) <$> ids.
Definition UnixMilli (ms : int64) : Time := ms * Millisecond.

(** *** The maps are exact *)
(** The ids entered for a provider under a key, in order. *)
Definition ids_for (name : string -> string -> string) (p key : string) (feeds : list Feed) : list int32 :=
  omap (fun f => match definition_of f with
    | Ok (provider, b, q) => if bool_decide (provider = p /\ name b q = key) then Some (fd_ID f) else None
    | Err _ => None end) feeds.
Definition entry (l : list int32) : option (list int32) := match l with [] => None | _ => Some l end.

Lemma append_entry name id (m : feed_map) l k :
  m !! k = entry l \/ (name = k /\ m !! k = Some [] /\ l = []) ->
  append_id name id m !! k = entry (l ++ if bool_decide (name = k) then [id] else []).
Proof.
  intros Hm. unfold append_id. case_bool_decide as Hk; [subst name; rewrite lookup_insert_eq|].
  - destruct Hm as [->|(_ & -> & ->)]; [by destruct l|done].
  - rewrite lookup_insert_ne by done. rewrite app_nil_r. naive_solver.
Qed.

Lemma entry_nil l : None = entry l -> l = [].
Proof. by destruct l. Qed.

Lemma feed_maps_exact_lemma feeds p key :
  (GetWssFeedMap feeds !! p ≫= fun m => Combined m !! key) = entry (ids_for combinedName p key feeds) /\
  (GetWssFeedMap feeds !! p ≫= fun m => Separated m !! key) = entry (ids_for separatedName p key feeds).
Proof.
  induction feeds as [|f feeds [Hc Hs]] using rev_ind; [done|].
  assert (GetWssFeedMap (feeds ++ [f]) = add_feed (GetWssFeedMap feeds) f) as -> by (unfold GetWssFeedMap; by rewrite fold_left_app).
  assert (forall name, ids_for name p key (feeds ++ [f]) = ids_for name p key feeds ++ ids_for name p key [f]) as Hsnoc
    by (intros name; unfold ids_for; by rewrite omap_app).
  rewrite !Hsnoc. unfold add_feed. unfold ids_for at 2 4. simpl.
  destruct (definition_of f) as [[[q b] c]|]; [|by rewrite !app_nil_r].
  destruct (decide (q = p)) as [->|Hne].
  2:{ rewrite lookup_insert_ne by done. rewrite !bool_decide_false by naive_solver. by rewrite !app_nil_r. }
  rewrite lookup_insert_eq. simpl.
  assert (forall name, match (if bool_decide (p = p /\ name b c = key) then Some (fd_ID f) else None) with
    | Some y => [y] | None => [] end = if bool_decide (name b c = key) then [fd_ID f] else []) as Hid.
  { intros name. destruct (decide (name b c = key)); [by rewrite !bool_decide_true|by rewrite !bool_decide_false by naive_solver]. }
  rewrite !Hid. destruct (GetWssFeedMap feeds !! p) as [m|]; simpl in *.
  - split; apply append_entry; by left.
  - apply entry_nil in Hc, Hs. rewrite Hc, Hs.
    split; apply append_entry;
      (match goal with |- {[?k := _]} !! _ = _ \/ _ => destruct (decide (k = key)) as [->|] end;
       [right; by rewrite lookup_singleton_eq|left; by rewrite lookup_singleton_ne]).
Qed.

(** The map of an exchange has an entry for a symbol exactly when a feed with
    a valid definition names the exchange, in any case, and that symbol; the entry
    lists the ids of all such feeds, in the order of the feeds.  The same holds of
    the combined names, which join base and quote. *)
Theorem feed_maps_exact feeds p key :
  (GetWssFeedMap feeds !! p ≫= fun m => Combined m !! key) = entry (ids_for combinedName p key feeds) /\
  (GetWssFeedMap feeds !! p ≫= fun m => Separated m !! key) = entry (ids_for separatedName p key feeds).
Proof. apply feed_maps_exact_lemma. Qed.

(** Joined names of different pairs can be equal: the feeds of BTCB-USD and
    BTC-BUSD share an entry. *)
Definition w_wss (id : Z) (base quote : string) : Feed :=
  mkFeed id (Ok (JObj [("type", JStr "wss"); ("provider", JStr "Binance"); ("base", JStr base); ("quote", JStr quote)])).
Example combined_names_collide :
  (GetWssFeedMap [w_wss 1 "btcb" "usd"; w_wss 2 "BTC" "BUSD"] !! "binance"%string
     ≫= fun m => Combined m !! "BTCBUSD"%string) = Some [1; 2].
Proof. rewrite (proj1 (feed_maps_exact_lemma _ _ _)). vm_compute. reflexivity. Qed.
End Common.

(** ** [app.go] *)
Module WsApp.
Import Common.

Definition DefaultStoreInterval : Z := 200 * Millisecond.
Definition DefaultBufferSize : nat := 3000.

(** Shared objects (the table, the channels) are references. *)
Definition ref_ : Type := nat.

Section app.
(** The fetchers of the providers. *)
Context {F : Type}.

Record AppConfig : Type := mkAppConfig {
  SetFromDB : bool;
  Feeds : list Feed;
  CexFactories : list (string * (FetcherConfig -> res F));
  DexFactories : list (string * (list Feed -> F));
  BufferSize : nat;
  StoreInterval : Z;
  LatestFeedDataMap_ : ref_;
  FeedDataDumpChannel : ref_ }.

Definition WithSetFromDB (useDB : bool) (c : AppConfig) : AppConfig :=
  mkAppConfig useDB (Feeds c) (CexFactories c) (DexFactories c) (BufferSize c) (StoreInterval c)
    (LatestFeedDataMap_ c) (FeedDataDumpChannel c).
Definition WithFeeds (feeds : list Feed) (c : AppConfig) : AppConfig :=
  mkAppConfig (SetFromDB c) feeds (CexFactories c) (DexFactories c) (BufferSize c) (StoreInterval c)
    (LatestFeedDataMap_ c) (FeedDataDumpChannel c).
Definition WithCexFactories (factories : list (string * (FetcherConfig -> res F))) (c : AppConfig) : AppConfig :=
  mkAppConfig (SetFromDB c) (Feeds c) factories (DexFactories c) (BufferSize c) (StoreInterval c)
    (LatestFeedDataMap_ c) (FeedDataDumpChannel c).
Definition WithBufferSize (size : nat) (c : AppConfig) : AppConfig :=
  mkAppConfig (SetFromDB c) (Feeds c) (CexFactories c) (DexFactories c) size (StoreInterval c)
    (LatestFeedDataMap_ c) (FeedDataDumpChannel c).
Definition WithStoreInterval (interval : Z) (c : AppConfig) : AppConfig :=
  mkAppConfig (SetFromDB c) (Feeds c) (CexFactories c) (DexFactories c) (BufferSize c) interval
    (LatestFeedDataMap_ c) (FeedDataDumpChannel c).
Definition WithLatestFeedDataMap (m : ref_) (c : AppConfig) : AppConfig :=
  mkAppConfig (SetFromDB c) (Feeds c) (CexFactories c) (DexFactories c) (BufferSize c) (StoreInterval c)
    m (FeedDataDumpChannel c).
Definition WithFeedDataDumpChannel (d : ref_) (c : AppConfig) : AppConfig :=
  mkAppConfig (SetFromDB c) (Feeds c) (CexFactories c) (DexFactories c) (BufferSize c) (StoreInterval c)
    (LatestFeedDataMap_ c) d.

(** A fetcher is kept with the channel it was given. *)
Record App : Type := mkApp {
  fetchers : list (ref_ * F);
  buffer : option (ref_ * nat);
  storeInterval : Z;
  chainReader : bool;
  latestFeedDataMap : option ref_;
  feedDataDumpChannel : option ref_;
  running : bool }.
Definition New : App := mkApp [] None 0 false None None false.

(** The answers of the database, the environment and the chain reader. *)
Record InitEnv : Type := mkInitEnv {
  e_wssFeeds : res (list Feed);
  e_dexFeeds : string -> res (list Feed);
  e_getenv : string -> string;
  e_chainReader : option error }.

(** The loop over the factories; what was made before an error stays. *)
Fixpoint cex_loop (feedMap : gmap string FeedMaps) (wsProxy : string) (buf : ref_)
    (factories : list (string * (FetcherConfig -> res F))) (fs : list (ref_ * F)) : list (ref_ * F) * option error :=
  match factories with
  | [] => (fs, None)
  | (name, factory) :: factories =>
      match feedMap !! name with
      | None => cex_loop feedMap wsProxy buf factories fs
      | Some maps =>
          match factory (WithProxy wsProxy (WithFeedMaps maps (mkFetcherConfig (mkFeedMaps ∅ ∅) ""))) with
          | Err err => (fs, Some err)
          | Ok fetcher => cex_loop feedMap wsProxy buf factories (fs ++ [(buf, fetcher)])
          end
      end
  end.

(** [buf]: the channel that is made. *)
Definition initializeCex (E : InitEnv) (buf : ref_) (c : AppConfig) (a : App) : App * option error :=
  match if SetFromDB c then e_wssFeeds E else Ok [] with
  | Err err => (a, Some err)
  | Ok feeds =>
      let feeds := match Feeds c with [] => feeds | fs => fs end in
      let feedMap := GetWssFeedMap feeds in
      let '(fs, err) := cex_loop feedMap (e_getenv E "WS_PROXY") buf (CexFactories c) (fetchers a) in
      (mkApp fs (Some (buf, BufferSize c)) (StoreInterval c) (chainReader a) (latestFeedDataMap a)
         (feedDataDumpChannel a) (running a), err)
  end.

Fixpoint dex_loop (E : InitEnv) (buf : ref_) (factories : list (string * (list Feed -> F))) (fs : list (ref_ * F))
    : list (ref_ * F) * option error :=
  match factories with
  | [] => (fs, None)
  | (name, factory) :: factories =>
      match e_dexFeeds E (GetDexFeedsQuery name) with
      | Err err => (fs, Some err)
      | Ok feeds => dex_loop E buf factories (fs ++ [(buf, factory feeds)])
      end
  end.
Definition initializeDex (E : InitEnv) (buf : ref_) (c : AppConfig) (a : App) : App * option error :=
  if bool_decide (e_getenv E "KAIA_WEBSOCKET_URL" = ""%string) || bool_decide (e_getenv E "ETH_WEBSOCKET_URL" = ""%string)
  then (a, Some (External "KAIA_WEBSOCKET_URL and ETH_WEBSOCKET_URL must be set"))
  else match e_chainReader E with
  | Some err => (a, Some err)
  | None =>
      let '(fs, err) := dex_loop E buf (DexFactories c) (fetchers a) in
      (mkApp fs (buffer a) (storeInterval a) true (latestFeedDataMap a) (feedDataDumpChannel a) (running a), err)
  end.

(** [fresh_map], [fresh_dump]: the objects of the default configuration. *)
Definition Init (E : InitEnv) (cex : list (string * (FetcherConfig -> res F))) (dex : list (string * (list Feed -> F)))
    (fresh_map fresh_dump buf : ref_) (opts : list (AppConfig -> AppConfig)) (a : App) : App * option error :=
  let c := fold_left (fun c opt => opt c) opts
    (mkAppConfig true [] cex dex DefaultBufferSize DefaultStoreInterval fresh_map fresh_dump) in
  let a := mkApp (fetchers a) (buffer a) (storeInterval a) (chainReader a) (Some (LatestFeedDataMap_ c))
             (Some (FeedDataDumpChannel c)) (running a) in
  let '(a, err) := initializeCex E buf c a in
  match err with
  | Some e => (a, Some e)
  | None => initializeDex E buf c a
  end.

(** [Start] runs every fetcher; [Stop] cancels them. *)
Definition Start (a : App) : App * list (ref_ * F) :=
  (mkApp (fetchers a) (buffer a) (storeInterval a) (chainReader a) (latestFeedDataMap a) (feedDataDumpChannel a) true,
   fetchers a).
Definition Stop (a : App) : App :=
  mkApp (fetchers a) (buffer a) (storeInterval a) (chainReader a) (latestFeedDataMap a) (feedDataDumpChannel a) false.

(** *** Which fetchers there are *)
Lemma cex_loop_app feedMap proxy buf factories fs fs' err :
  cex_loop feedMap proxy buf factories fs = (fs', err) -> exists new, fs' = fs ++ new /\ Forall (fun f => f.1 = buf) new.
Proof.
  revert fs. induction factories as [|[name factory] factories IH]; intros fs; simpl.
  { intros [= <- _]. exists []. by rewrite app_nil_r. }
  destruct (feedMap !! name) as [maps|]; [|apply IH]. destruct (factory _) as [x|e].
  - intros (new & -> & Hn)%IH. exists ((buf, x) :: new). rewrite <- app_assoc. auto.
  - intros [= <- _]. exists []. by rewrite app_nil_r.
Qed.
Lemma dex_loop_app E buf factories fs fs' err :
  dex_loop E buf factories fs = (fs', err) -> exists new, fs' = fs ++ new /\ Forall (fun f => f.1 = buf) new.
Proof.
  revert fs. induction factories as [|[name factory] factories IH]; intros fs; simpl.
  { intros [= <- _]. exists []. by rewrite app_nil_r. }
  destruct (e_dexFeeds E _) as [l|e].
  - intros (new & -> & Hn)%IH. exists ((buf, factory l) :: new). rewrite <- app_assoc. auto.
  - intros [= <- _]. exists []. by rewrite app_nil_r.
Qed.

Lemma Init_fetchers E cex dex fm fd buf opts a a' err :
  Init E cex dex fm fd buf opts a = (a', err) ->
  exists new, fetchers a' = fetchers a ++ new /\ Forall (fun f => f.1 = buf) new /\
    (err = None -> fst <$> buffer a' = Some buf).
Proof.
  unfold Init. set (c := fold_left _ _ _). set (a0 := mkApp _ _ _ _ _ _ _).
  destruct (initializeCex E buf c a0) as [a1 e1] eqn:Hcex.
  assert (exists new, fetchers a1 = fetchers a ++ new /\ Forall (fun f => f.1 = buf) new /\
    (e1 = None -> fst <$> buffer a1 = Some buf)) as (new1 & H1 & Hn1 & Hb1).
  { unfold initializeCex in Hcex. destruct (if SetFromDB c then _ else _) as [feeds|e].
    - destruct (cex_loop _ _ _ _ _) as [fs er] eqn:Hl. apply cex_loop_app in Hl as (new & -> & Hn).
      injection Hcex as <- <-. by exists new.
    - injection Hcex as <- <-. exists []. by rewrite app_nil_r. }
  destruct e1 as [e|].
  { intros [= <- <-]. by exists new1. }
  unfold initializeDex. destruct (_ || _); [intros [= <- <-]; by exists new1|].
  destruct (e_chainReader E); [intros [= <- <-]; by exists new1|].
  destruct (dex_loop _ _ _ _) as [fs er] eqn:Hl. apply dex_loop_app in Hl as (new2 & -> & Hn2).
  intros [= <- <-]. exists (new1 ++ new2). simpl. rewrite H1, app_assoc. split_and!; [done|by apply Forall_app|auto].
Qed.

(** Initialising again keeps the fetchers of before, with the channel they
    were given, and makes a new channel: after a refresh the next start runs the
    old fetchers too, and what they send goes to a channel that no job of the
    application reads any more. *)
Theorem refresh_keeps_old_fetchers E cex dex fm fd buf opts a a' :
  Init E cex dex fm fd buf opts a = (a', None) -> Forall (fun f => f.1 <> buf) (fetchers a) ->
  exists new, (Start a').2 = fetchers a ++ new /\
    forall f, f ∈ fetchers a -> f ∈ (Start a').2 /\ Some f.1 <> fst <$> buffer a'.
Proof.
  intros (new & Hf & _ & Hb)%Init_fetchers Hold. exists new. simpl. rewrite Hf, (Hb eq_refl).
  split; [done|]. intros f Hin. split; [set_solver|]. intros [= Heq].
  rewrite Forall_forall in Hold. by apply (Hold _ Hin).
Qed.
End app.

Definition w_cex : list (string * (FetcherConfig -> res nat)) := [("binance"%string, fun _ => Ok 1%nat)].
Definition w_init : InitEnv := mkInitEnv (Ok [w_wss 7 "BTC" "USD"]) (fun _ => Ok []) (fun _ => "url"%string) None.
Lemma refresh_keeps_old_fetchers_witness : exists a a',
  Init w_init w_cex [] 0%nat 1%nat 2%nat [] New = (a, None) /\ Init w_init w_cex [] 0%nat 1%nat 3%nat [] a = (a', None) /\
  (Start a').2 = [(2%nat, 1%nat); (3%nat, 1%nat)] /\ Some 2%nat <> fst <$> buffer a'.
Proof.
  destruct (Init w_init w_cex [] 0%nat 1%nat 2%nat [] New) as [a [e|]] eqn:H1; [by vm_compute in H1|].
  destruct (Init w_init w_cex [] 0%nat 1%nat 3%nat [] a) as [a' [e|]] eqn:H2; [by vm_compute in H1; simplify_eq|].
  exists a, a'. split_and!; [done..| |].
  - vm_compute in H1. injection H1 as <-. vm_compute in H2. by injection H2 as <-.
  - assert (fetchers a = [(2%nat, 1%nat)]) as Hf by (vm_compute in H1; by injection H1 as <-).
    destruct (refresh_keeps_old_fetchers w_init w_cex [] 0%nat 1%nat 3%nat [] a a' H2) as (new & _ & Hall);
      [rewrite Hf; by repeat constructor|].
    apply (Hall (2%nat, 1%nat)). rewrite Hf. set_solver.
Defined.
End WsApp.

(** ** [storeFeedData] *)
Module Store.

(** A job that has taken its first data: its batch, and whether the last element
    still has to be sent to the dump channel. *)
Record job : Type := mkJob { batch : list FeedData; dumping : option FeedData }.

(** The buffer, the dump channel and the table, with the running jobs and the
    history of what was produced, dumped and stored. *)
Record Sys : Type := mkSys {
  buf : list FeedData;
  dchan : list FeedData;
  table : gmap Z FeedData;
  jobs : list job;
  produced : list FeedData;
  dumped : list FeedData;
  firsts : list FeedData;
  stored : list FeedData }.

Section store.
Variables (bufferSize dumpSize : nat).

(** Every tick of [Start] starts a goroutine of its own, so jobs interleave.  A
    job that finds the buffer empty, or the context done, ends at once. *)
Inductive store_step : Sys -> Sys -> Prop :=
| s_produce s d : (length (buf s) < bufferSize)%nat -> timed d ->
    store_step s (mkSys (buf s ++ [d]) (dchan s) (table s) (jobs s) (produced s ++ [d]) (dumped s) (firsts s) (stored s))
| s_first s d b : buf s = d :: b ->
    store_step s (mkSys b (dchan s) (table s) (jobs s ++ [mkJob [d] None]) (produced s) (dumped s) (firsts s ++ [d]) (stored s))
| s_take s j1 l j2 d b : jobs s = j1 ++ mkJob l None :: j2 -> buf s = d :: b ->
    store_step s (mkSys b (dchan s) (table s) (j1 ++ mkJob (l ++ [d]) (Some d) :: j2) (produced s) (dumped s) (firsts s) (stored s))
| s_dump s j1 l d j2 : jobs s = j1 ++ mkJob l (Some d) :: j2 -> (length (dchan s) < dumpSize)%nat ->
    store_step s (mkSys (buf s) (dchan s ++ [d]) (table s) (j1 ++ mkJob l None :: j2) (produced s) (dumped s ++ [d]) (firsts s) (stored s))
| s_store s j1 l j2 m : jobs s = j1 ++ mkJob l None :: j2 -> buf s = [] ->
    SetLatestFeedData (Some <$> l) (table s) = Some m ->
    store_step s (mkSys (buf s) (dchan s) m (j1 ++ j2) (produced s) (dumped s) (firsts s) (stored s ++ l))
| s_consume s d c : dchan s = d :: c ->
    store_step s (mkSys (buf s) c (table s) (jobs s) (produced s) (dumped s) (firsts s) (stored s)).

Definition init : Sys := mkSys [] [] ∅ [] [] [] [] [].
Definition pending (j : job) : list FeedData := match dumping j with Some d => [d] | None => [] end.

Record sys_ok (s : Sys) : Prop := {
  ok_produced : produced s ≡ₚ buf s ++ (jobs s ≫= batch) ++ stored s;
  ok_dumped : (jobs s ≫= batch) ++ stored s ≡ₚ firsts s ++ dumped s ++ (jobs s ≫= pending);
  ok_timed : Forall timed (produced s);
  ok_table : holds (table s) (stored s)
}.

Lemma omap_some (l : list FeedData) : omap id (Some <$> l) = l.
Proof. induction l as [|x l IH]; [done|]. change (x :: omap id (Some <$> l) = x :: l). by rewrite IH. Qed.

Lemma batch_timed s l j1 j2 o : sys_ok s -> jobs s = j1 ++ mkJob l o :: j2 -> Forall timed l.
Proof.
  intros [Hp _ Ht _] Hj. rewrite Hp, Hj, bind_app, bind_cons in Ht. simpl in Ht. rewrite !Forall_app in Ht. tauto.
Qed.

Lemma store_step_ok s s' : sys_ok s -> store_step s s' -> sys_ok s'.
Proof.
  intros Hok Hst. pose proof Hok as [Hp Hd Ht Hh].
  destruct Hst as [s d Hl Htd|s d b Hb|s j1 l j2 d b Hj Hb|s j1 l d j2 Hj Hl|s j1 l j2 m Hj Hb Hm|s d c Hc].
  - constructor; simpl; [|done| |done].
    + rewrite Hp. solve_Permutation.
    + apply Forall_app. split; [done|]. by apply Forall_singleton.
  - constructor; simpl; [| |done|done]; rewrite ?bind_app; simpl; rewrite ?app_nil_r.
    + rewrite Hp, Hb. solve_Permutation.
    + rewrite <- app_assoc. rewrite (Permutation_app_comm [d] (stored s)), app_assoc, Hd. solve_Permutation.
  - rewrite Hj in *. rewrite bind_app, bind_cons in Hp, Hd. rewrite bind_app, bind_cons in Hd. simpl in Hp, Hd.
    constructor; simpl; [| |done|done]; rewrite ?bind_app, ?bind_cons; simpl.
    + rewrite Hp, Hb. solve_Permutation.
    + transitivity (d :: (((j1 ≫= batch) ++ l ++ (j2 ≫= batch)) ++ stored s)); [solve_Permutation|].
      rewrite Hd. solve_Permutation.
  - rewrite Hj in *. rewrite bind_app, bind_cons in Hp, Hd. rewrite bind_app, bind_cons in Hd. simpl in Hp, Hd.
    constructor; simpl; [| |done|done]; rewrite ?bind_app, ?bind_cons; simpl; [done|].
    rewrite Hd. solve_Permutation.
  - pose proof (batch_timed _ _ _ _ _ Hok Hj) as Htl.
    destruct (SetLatestFeedData_holds (Some <$> l) (table s) (stored s) Hh) as (m' & Hm' & Hh'); [by rewrite omap_some|].
    rewrite Hm in Hm'. injection Hm' as <-. rewrite omap_some in Hh'.
    rewrite Hj in *. rewrite bind_app, bind_cons in Hp, Hd. rewrite bind_app, bind_cons in Hd. simpl in Hp, Hd.
    constructor; simpl; [| |done|done]; rewrite ?bind_app; simpl.
    + rewrite Hp. solve_Permutation.
    + etransitivity; [|exact Hd]. solve_Permutation.
  - by constructor.
Qed.

Lemma reachable_ok s : rtc store_step init s -> sys_ok s.
Proof.
  intros Hr. assert (sys_ok init) as Hi by (constructor; simpl; try done; apply holds_empty).
  revert Hi. induction Hr as [|? ? ? ? _ IH]; eauto using store_step_ok.
Qed.

(** C13: However the jobs interleave with each other, the providers and the
    database writer: every data that entered the buffer is at any time in exactly
    one place, the buffer, the batch of one job, or the table's history; the table
    holds the newest data of every feed among those stored; a job can always store
    its batch; and what was sent to the database writer is everything taken from
    the buffer except the first data of each batch. *)
Theorem store_conserves s :
  rtc store_step init s ->
  produced s ≡ₚ buf s ++ (jobs s ≫= batch) ++ stored s /\
  holds (table s) (stored s) /\
  (forall l, (exists o, mkJob l o ∈ jobs s) -> is_Some (SetLatestFeedData (Some <$> l) (table s))) /\
  (jobs s ≫= batch) ++ stored s ≡ₚ firsts s ++ dumped s ++ (jobs s ≫= pending).
Proof.
  intros Hok%reachable_ok. pose proof Hok as [Hp Hd Ht Hh]. split_and!; [done..| |done].
  intros l (o & (j1 & j2 & Hj)%list_elem_of_split). pose proof (batch_timed _ _ _ _ _ Hok Hj) as Htl.
  destruct (SetLatestFeedData_holds (Some <$> l) (table s) (stored s) Hh) as (m' & Hm' & _); [by rewrite omap_some|].
  by exists m'.
Qed.

(** When everything has come to rest, all data produced is stored, and of each
    batch the first was not sent to the database. *)
Lemma quiescent s :
  rtc store_step init s -> buf s = [] -> jobs s = [] -> produced s ≡ₚ stored s /\ produced s ≡ₚ firsts s ++ dumped s.
Proof.
  intros [Hp Hd _ _]%reachable_ok Hb Hj. rewrite Hb, Hj in *. simpl in *. rewrite app_nil_r in Hd. by rewrite <- Hd.
Qed.
End store.

Definition w_data (v t : Z) : FeedData := mkFeedData 1 (of_int v) fzero (Some t).
Definition w_table : gmap Z FeedData := {[1 := w_data 6 2]}.
Definition w_end : Sys :=
  mkSys [] [w_data 6 2] w_table [] [w_data 5 1; w_data 6 2] [w_data 6 2] [w_data 5 1] [w_data 5 1; w_data 6 2].
Lemma w_stored : SetLatestFeedData (Some <$> [w_data 5 1; w_data 6 2]) ∅ = Some w_table.
Proof. vm_compute. reflexivity. Qed.
Lemma store_conserves_witness :
  rtc (store_step 10 10) init w_end /\ holds (table w_end) (stored w_end) /\
  stored w_end ≡ₚ firsts w_end ++ dumped w_end.
Proof.
  assert (rtc (store_step 10 10) init w_end) as Hr.
  { eapply rtc_l; [apply (s_produce _ _ _ (w_data 5 1)); [simpl; lia|by eexists]|].
    eapply rtc_l; [eapply s_first; reflexivity|].
    eapply rtc_l; [apply (s_produce _ _ _ (w_data 6 2)); [simpl; lia|by eexists]|].
    eapply rtc_l; [eapply (s_take _ _ _ []); reflexivity|].
    eapply rtc_l; [eapply (s_dump _ _ _ []); [reflexivity|simpl; lia]|].
    eapply rtc_l; [eapply (s_store _ _ _ []); [reflexivity|reflexivity|exact w_stored]|]. apply rtc_refl. }
  destruct (store_conserves 10 10 w_end Hr) as (_ & Hh & _ & Hd). split_and!; [exact Hr|exact Hh|exact Hd].
Defined.
End Store.
