(* ===== verification/GoTime.v ===== *)
(** * Parsing of times

    What the websocket providers use of Go's [time] package: [Parse] and
    [ParseInLocation] for the layouts [time.RFC3339Nano],
    [2006-01-02T15:04:05.000], [20060102] and [150405].  A time is its number of
    nanoseconds since the epoch.  The zones Asia/Seoul and Asia/Shanghai are taken
    at the offsets they have had since 1992. *)

From S2P Require Import Prelude Errors Wire Text.
From Stdlib Require Import Ascii.
Import Text.

Local Open Scope Z_scope.

Module GoTime.

(** ** Dates *)
Definition leap (y : Z) : bool := (y `mod` 4 =? 0) && (negb (y `mod` 100 =? 0) || (y `mod` 400 =? 0)).
Definition days_in (y m : Z) : Z :=
  if m =? 2 then (if leap y then 29 else 28)
  else if (m =? 4) || (m =? 6) || (m =? 9) || (m =? 11) then 30 else 31.
(** Days from the epoch to the first of January. *)
Definition days_before_year (y : Z) : Z :=
  365 * (y - 1970) + ((y - 1) / 4 - 492) - ((y - 1) / 100 - 19) + ((y - 1) / 400 - 4).
Fixpoint days_before_month (y : Z) (m : nat) : Z :=
  match m with O | 1%nat => 0 | S m => days_before_month y m + days_in y (Z.of_nat m) end.
Definition days (y m d : Z) : Z := days_before_year y + days_before_month y (Z.to_nat m) + (d - 1).

Definition Seoul : Z := 9 * 3600.
Definition Shanghai : Z := 8 * 3600.
(** [time.Date] in a zone [offset] seconds ahead of UTC. *)
Definition Date (y m d hour min sec nsec offset : Z) : Time :=
  (days y m d * 86400 + hour * 3600 + min * 60 + sec - offset) * 1000000000 + nsec.

(** ** Reading *)
Definition digit (c : ascii) : option Z :=
  let n := Z.of_N (N_of_ascii c) in if (48 <=? n) && (n <=? 57) then Some (n - 48) else None.
Fixpoint number (k : nat) (acc : Z) (l : list ascii) : option (Z * list ascii) :=
  match k, l with
  | O, _ => Some (acc, l)
  | S k, c :: l => d ← digit c; number k (10 * acc + d) l
  | S _, [] => None
  end.
(** [getnum] with and without fixed width. *)
Definition getnum2 (l : list ascii) : option (Z * list ascii) := number 2 0 l.
Definition getnum (l : list ascii) : option (Z * list ascii) :=
  match number 2 0 l with Some r => Some r | None => number 1 0 l end.
Definition expect (c : ascii) (l : list ascii) : option (list ascii) :=
  match l with c' :: l => if bool_decide (c = c') then Some l else None | [] => None end.
Definition upto (lo hi : Z) (r : option (Z * list ascii)) : option (Z * list ascii) :=
  '(n, l) ← r; if (lo <=? n) && (n <=? hi) then Some (n, l) else None.

(** The nanoseconds of a fraction of a second: the first nine digits. *)
Fixpoint span (l : list ascii) : list Z * list ascii :=
  match l with
  | c :: l' => match digit c with Some d => let '(ds, r) := span l' in (d :: ds, r) | None => ([], l) end
  | [] => ([], [])
  end.
Definition nanos (ds : list Z) : Z :=
  fold_left (fun acc d => 10 * acc + d) (take 9 (ds ++ replicate 9 0)) 0.
(** An optional fraction after a point or a comma. *)
Definition fraction (l : list ascii) : Z * list ascii :=
  match l with
  | c :: l' =>
      if bool_decide (c = "."%char \/ c = ","%char)
      then match span l' with ([], _) => (0, l) | (ds, r) => (nanos ds, r) end
      else (0, l)
  | [] => (0, [])
  end.

Record clock : Type := mkClock { Hour : Z; Minute : Z; Second_ : Z }.
Record date : Type := mkDate { Year : Z; Month : Z; Day : Z }.
Definition valid (d : date) : bool := (1 <=? Day d) && (Day d <=? days_in (Year d) (Month d)).

(** [2006-01-02T15:04:05]. *)
Definition read_date_time (l : list ascii) : option (date * clock * list ascii) :=
  '(y, l) ← number 4 0 l; l ← expect "-"%char l; '(m, l) ← upto 1 12 (getnum2 l);
  l ← expect "-"%char l; '(d, l) ← getnum2 l; l ← expect "T"%char l;
  '(h, l) ← upto 0 23 (getnum l); l ← expect ":"%char l; '(mi, l) ← upto 0 59 (getnum2 l);
  l ← expect ":"%char l; '(s, l) ← upto 0 59 (getnum2 l);
  Some (mkDate y m d, mkClock h mi s, l).

(** The zone [Z07:00]: seconds ahead of UTC. *)
Definition read_zone (l : list ascii) : option (Z * list ascii) :=
  match l with
  | c :: l' =>
      if bool_decide (c = "Z"%char) then Some (0, l')
      else if bool_decide (c = "+"%char \/ c = "-"%char) then
        '(h, l) ← upto 0 24 (getnum2 l'); l ← expect ":"%char l; '(m, l) ← upto 0 60 (getnum2 l);
        let o := h * 3600 + m * 60 in Some (if bool_decide (c = "-"%char) then - o else o, l)
      else None
  | [] => None
  end.

Definition ended {A} (a : A) (l : list ascii) : option A := match l with [] => Some a | _ => None end.
Definition to_time (d : date) (c : clock) (nsec offset : Z) : option Time :=
  if valid d then Some (Date (Year d) (Month d) (Day d) (Hour c) (Minute c) (Second_ c) nsec offset) else None.

(** [time.Parse(time.RFC3339Nano, s)]. *)
Definition ParseRFC3339Nano (s : string) : option Time :=
  '(d, c, l) ← read_date_time (chars s);
  let '(ns, l) := fraction l in
  '(o, l) ← read_zone l; _ ← ended () l; to_time d c ns o.
(** [time.ParseInLocation("2006-01-02T15:04:05.000", s, loc)]: three digits. *)
Definition ParseMillis (offset : Z) (s : string) : option Time :=
  '(d, c, l) ← read_date_time (chars s);
  l ← expect "."%char l; '(ms, l) ← number 3 0 l; _ ← ended () l; to_time d c (ms * 1000000) offset.
(** [time.ParseInLocation("20060102", s, loc)]. *)
Definition ParseDate (s : string) : option date :=
  '(y, l) ← number 4 0 (chars s); '(m, l) ← upto 1 12 (getnum2 l); '(d, l) ← getnum2 l;
  _ ← ended () l; if valid (mkDate y m d) then Some (mkDate y m d) else None.
(** [time.ParseInLocation("150405", s, loc)], with a fraction of a second allowed. *)
Definition ParseClock (s : string) : option (clock * Z) :=
  '(h, l) ← upto 0 23 (getnum (chars s)); '(m, l) ← upto 0 59 (getnum2 l); '(sec, l) ← upto 0 59 (getnum2 l);
  let '(ns, l) := fraction l in ended (mkClock h m sec, ns) l.

Example rfc_ex : ParseRFC3339Nano "2024-02-29T23:59:59.5Z" = Some 1709251199500000000.
Proof. vm_compute. reflexivity. Qed.
Example rfc_zone : ParseRFC3339Nano "2024-03-01T08:59:59.5+09:00" = ParseRFC3339Nano "2024-02-29T23:59:59.5Z".
Proof. vm_compute. reflexivity. Qed.
Example millis_ex : ParseMillis Shanghai "2024-03-01T08:00:00.250" = Some 1709251200250000000.
Proof. vm_compute. reflexivity. Qed.
Example clock_ex : ParseClock "235959" = Some (mkClock 23 59 59, 0) /\ ParseDate "20230229" = None.
Proof. vm_compute. done. Qed.

(** ** The calendar *)
(** The day after a valid date has the next number, also over the ends of months
    and years. *)
Definition next_day (d : date) : date :=
  if Day d <? days_in (Year d) (Month d) then mkDate (Year d) (Month d) (Day d + 1)
  else if Month d <? 12 then mkDate (Year d) (Month d + 1) 1 else mkDate (Year d + 1) 1 1.

Lemma year_length y : days_before_year (y + 1) = days_before_year y + (if leap y then 366 else 365).
Proof.
  unfold days_before_year, leap. replace (y + 1 - 1) with y by lia.
  destruct (Z.eqb_spec (y `mod` 4) 0), (Z.eqb_spec (y `mod` 100) 0), (Z.eqb_spec (y `mod` 400) 0); simpl;
    Z.div_mod_to_equations; lia.
Qed.

Lemma next_day_number d :
  1 <= Month d <= 12 -> valid d = true ->
  days (Year (next_day d)) (Month (next_day d)) (Day (next_day d)) = days (Year d) (Month d) (Day d) + 1.
Proof.
  destruct d as [y m k]. unfold valid, next_day, days. simpl. intros Hm [H1 H2]%andb_true_iff. breflect.
  destruct (Z.ltb_spec k (days_in y m)); simpl; [lia|].
  assert (k = days_in y m) as -> by lia. destruct (Z.ltb_spec m 12); simpl.
  - replace (Z.to_nat (m + 1)) with (S (Z.to_nat m)) by lia.
    assert (exists n, Z.to_nat m = S n) as [n Hn] by (exists (pred (Z.to_nat m)); lia).
    rewrite Hn. cbn [days_before_month]. replace (Z.of_nat (S n)) with m by lia. lia.
  - assert (m = 12) as -> by lia. rewrite year_length. change (Z.to_nat 12) with 12%nat. change (Z.to_nat 1) with 1%nat.
    cbn [days_before_month]. unfold days_in. simpl. destruct (leap y); lia.
Qed.
End GoTime.
