(* ===== verification/Providers.v ===== *)
(** * The exchange providers: common parts

    What the packages under [node/pkg/websocketfetcher/providers] share: the
    environment of a message handler, what handling a message does, how a client
    is made, and the functions that read compressed or plain frames.  The packages
    themselves are modules of [ProvidersA.v], [ProvidersB.v] and [ProvidersC.v],
    each with the names of its Go package. *)

From S2P Require Import Prelude Errors Wire Text Strings Float Reducer FeedData Util Wss Decode WsFetcher GoTime.
From Stdlib Require Import Ascii.
Import Text Strings Float Reducer FeedData Decode Common.

Local Open Scope Z_scope.
Local Open Scope go_scope.

Module Provider.

Abbreviation message := (list (string * json)).

(** What a handler sees: the time, the cache of volumes, and the results of
    writes to the connection. *)
Record Env : Type := mkEnv { now : Time; volumes : VolumeCacheMap; ws_Write : json -> option error }.

(** What handling a message does: the data sent to the buffer, what is written to
    the connection, and the error returned.  [None]: the handler panics. *)
Record out : Type := mkOut { sent : list FeedData; written : list json; failed : option error }.
Definition handler : Type := Env -> feed_map -> message -> option out.

Definition ignored : out := mkOut [] [] None.
Definition fails (e : error) : out := mkOut [] [] (Some e).
Definition send (r : res (list FeedData)) : out :=
  match r with Ok l => mkOut l [] None | Err e => fails e end.
Definition reply (E : Env) (j : json) : out := mkOut [] [j] (ws_Write E j).
(** [common.MessageToStruct] and its error. *)
Definition with_struct (t : ty) (m : message) (k : value -> option out) : option out :=
  match MessageToStruct t m with Err e => Some (fails e) | Ok v => k v end.
Definition has_key (k : string) (m : message) : bool := existsb (fun kv => bool_decide (kv.1 = k)) m.

Definition not_found : error := External "feed not found".
Definition lookup_ids (feedMap : feed_map) (key : string) : res (list int32) :=
  match feedMap !! key with Some ids => Ok ids | None => Err not_found end.
Definition ok_list {A} (r : res (list A)) : list A := match r with Ok l => l | Err _ => [] end.

(** [strconv.ParseInt(s, 10, 64)]. *)
Definition parse_int (s : string) : res int64 :=
  match ParseInt 64 s with Some n => Ok n | None => Err (External "strconv.ParseInt: invalid syntax") end.

(** The volume of a feed in the cache, zero when it is absent or older than the
    lifespan. *)
Definition cached_volume (E : Env) (id : int32) : float64 :=
  match volumes E !! id with
  | None => fzero
  | Some v => if vc_UpdatedAt v <? now E - VolumeCacheLifespan then fzero else vc_Volume v
  end.
Definition cached_data (E : Env) (ids : list int32) (value : float64) (timestamp : Time) : list FeedData :=
  (fun id => mkFeedData id value (cached_volume E id) (Some timestamp)) <$> ids.
Definition cache_ids (at_ : Time) (volume : float64) (ids : list int32) (m : VolumeCacheMap) : VolumeCacheMap :=
  fold_left (fun m id => <[id := mkVolumeCache at_ volume]> m) ids m.

(** ** Clients *)
Record Fetcher : Type := mkFetcher { FeedMap : feed_map; Ws : @Wss.WebsocketHelper json }.

(** The time and the identifiers that a subscription may carry. *)
Record NewEnv : Type := mkNewEnv { n_now : Time; n_uuid : nat -> string; n_zeroTime : Time }.

Abbreviation option_ := (@Wss.ConnectionConfig json -> @Wss.ConnectionConfig json).
Definition connect (N : NewEnv) (feedMap : feed_map) (opts : list option_) : res Fetcher :=
  let? ws := Wss.NewWebsocketHelper (n_zeroTime N) opts in Ok (mkFetcher feedMap ws).
Definition client (N : NewEnv) (config : FetcherConfig) (feedMap : feed_map) (url : string) (subs : list json) : res Fetcher :=
  connect N feedMap [Wss.WithEndpoint url; Wss.WithSubscriptions (Wss.Value <$> subs); Wss.WithProxyUrl (fc_Proxy config)].

Definition JInt (n : Z) : json := JNum (of_int n).
Definition JStrs (l : list string) : json := JArr (JStr <$> l).

(** [l[i:min(i+n, len(l))]] for [i = 0, n, 2n, ...]. *)
Fixpoint chunks_loop {A} (fuel n : nat) (l : list A) : list (list A) :=
  match fuel, l with
  | S fuel, _ :: _ => take n l :: chunks_loop fuel n (drop n l)
  | _, _ => []
  end.
Definition chunks {A} (n : nat) (l : list A) : list (list A) := chunks_loop (length l) n l.

(** ** Frames *)
(** The connection's frames, decompression, and reading of JSON text. *)
Record Frames : Type := mkFrames {
  conn_Read : list (@Wss.event json) -> Wss.Conn_ -> res string;
  DecompressGzip : string -> res string;
  Unmarshal : string -> res message }.
(** [customReadFunc] of coinex, huobi and bingx. *)
Definition gzipReadFunc (R : Frames) : @Wss.read_func json := fun l conn =>
  let? data := conn_Read R l conn in
  let? decompressed := DecompressGzip R data in
  let? result := Unmarshal R decompressed in Ok (Some result).
(** [customReadFunc] of bitget, bitmart and xt. *)
Definition pongReadFunc (R : Frames) : @Wss.read_func json := fun l conn =>
  let? data := conn_Read R l conn in
  if bool_decide (data = "pong"%string) then Ok None
  else let? result := Unmarshal R data in Ok (Some result).

(** ** Lemmas *)
Lemma chunks_loop_concat {A} fuel n (l : list A) :
  (0 < n)%nat -> (length l <= fuel)%nat -> concat (chunks_loop fuel n l) = l.
Proof.
  intros Hn. revert l. induction fuel as [|fuel IH]; intros [|x l] Hl; simpl in *; try done; [lia|].
  rewrite IH by (rewrite length_drop; simpl; lia). apply take_drop.
Qed.
Lemma chunks_concat {A} n (l : list A) : (0 < n)%nat -> concat (chunks n l) = l.
Proof. intros Hn. by apply chunks_loop_concat. Qed.
Lemma chunks_short {A} n (l : list A) : Forall (fun c => (length c <= n)%nat) (chunks n l).
Proof.
  unfold chunks. generalize (length l) as fuel. intros fuel. revert l.
  induction fuel as [|fuel IH]; intros [|x l]; constructor; auto. rewrite length_take. lia.
Qed.

(** The data is for feeds of the map: all feeds of some symbols, each with a time
    and each symbol's feeds with one value. *)
Definition from_map (feedMap : feed_map) (l : list FeedData) : Prop :=
  exists groups : list (string * list FeedData), l = groups ≫= snd /\
    Forall (fun g => exists ids value t, feedMap !! g.1 = Some ids /\ FeedID <$> g.2 = ids /\
      Forall (fun d => Value d = value /\ Timestamp d = Some t) g.2) groups.

Lemma from_map_nil m : from_map m [].
Proof. by exists []. Qed.
Lemma from_map_app m l1 l2 : from_map m l1 -> from_map m l2 -> from_map m (l1 ++ l2).
Proof.
  intros (g1 & -> & H1) (g2 & -> & H2). exists (g1 ++ g2). rewrite bind_app. split; [done|by apply Forall_app].
Qed.
Lemma from_map_bind {A} m (f : A -> list FeedData) l : (forall x, from_map m (f x)) -> from_map m (l ≫= f).
Proof. intros Hf. induction l; [apply from_map_nil|]. rewrite bind_cons. auto using from_map_app. Qed.
Lemma from_map_group m key ids l value t :
  m !! key = Some ids -> FeedID <$> l = ids -> Forall (fun d => Value d = value /\ Timestamp d = Some t) l -> from_map m l.
Proof.
  intros Hk Hi Hl. exists [(key, l)]. simpl. rewrite app_nil_r. split; [done|]. apply Forall_singleton. by exists ids, value, t.
Qed.
Lemma from_map_feed_data m key ids value volume t :
  m !! key = Some ids -> from_map m (feed_data ids value volume t).
Proof.
  intros Hk. eapply (from_map_group _ _ _ _ value t); [done| |]; unfold feed_data.
  - rewrite <- list_fmap_compose. apply list_fmap_id.
  - apply Forall_fmap, Forall_true. done.
Qed.
Lemma from_map_cached_data m key ids E value t :
  m !! key = Some ids -> from_map m (cached_data E ids value t).
Proof.
  intros Hk. eapply (from_map_group _ _ _ _ value t); [done| |]; unfold cached_data.
  - rewrite <- list_fmap_compose. apply list_fmap_id.
  - apply Forall_fmap, Forall_true. done.
Qed.
Lemma lookup_ids_Ok m key ids : lookup_ids m key = Ok ids -> m !! key = Some ids.
Proof. unfold lookup_ids. destruct (m !! key); [|done]. by intros [= ->]. Qed.

(** A handler is sound when it never panics and sends data from the map only. *)
Definition sound (h : handler) : Prop := forall E m msg, exists o, h E m msg = Some o /\ from_map m (sent o).
End Provider.
