(* ===== verification/ProvidersA.v ===== *)
(** * Exchange providers, first part

    The packages binance, coinbase, coinone, korbit, kucoin, bybit, upbit, crypto
    and btse under [node/pkg/websocketfetcher/providers]: the types of their
    messages, the conversion of a message to feed data, the handler and the
    subscription.  [feeds] is the list of the feed map's keys in the order in which
    the map is iterated. *)

From S2P Require Import Prelude Errors Wire Text Strings Float Reducer FeedData Util Wss Decode WsFetcher GoTime Providers.
From Stdlib Require Import Ascii.
Import Text Strings Float Reducer FeedData Decode Common Provider.

Local Open Scope Z_scope.
Local Open Scope go_scope.

Module binance.
Definition URL : string := "wss://stream.binance.com:443/ws".
Definition MiniTicker : ty := TStruct
  [("EventType", "e", TString); ("EventTime", "E", TInt 64); ("Symbol", "s", TString); ("Price", "c", TString);
   ("OpenPrice", "o", TString); ("HighPrice", "h", TString); ("LowPrice", "l", TString); ("Volume", "v", TString);
   ("QuoteVolume", "q", TString)].
Definition Subscription (method : string) (params : list string) (id : Z) : json :=
  JObj [("method", JStr method); ("params", JStrs params); ("id", JInt id)].

Definition TickerToFeedData (miniTicker : value) (feedMap : feed_map) : res (list FeedData) :=
  let timestamp := UnixMilli (int "EventTime" miniTicker) in
  let? value := PriceStringToFloat64 (str "Price" miniTicker) in
  let? volume := VolumeStringToFloat64 (str "Volume" miniTicker) in
  let? ids := lookup_ids feedMap (str "Symbol" miniTicker) in
  Ok (feed_data ids value volume timestamp).

Definition New (N : NewEnv) (config : FetcherConfig) (feeds : list string) : res Fetcher :=
  let streams := (fun feed => ToLower feed +:+ "@miniTicker")%string <$> feeds in
  client N config (Combined (fc_FeedMaps config)) URL [Subscription "SUBSCRIBE" streams 1].

Definition handleMessage : handler := fun E FeedMap message =>
  with_struct MiniTicker message (fun ticker =>
    if negb (bool_decide (str "EventType" ticker = "24hrMiniTicker"%string)) then Some ignored
    else Some (send (TickerToFeedData ticker FeedMap))).
End binance.

Module coinbase.
Definition URL : string := "wss://ws-feed.exchange.coinbase.com".
Definition Ticker : ty := TStruct
  [("Type", "type", TString); ("Sequence", "sequence", TInt 64); ("ProductID", "product_id", TString);
   ("Price", "price", TString); ("Open24h", "open_24h", TString); ("Volume24h", "volume_24h", TString);
   ("Low24h", "low_24h", TString); ("High24h", "high_24h", TString); ("Volume30d", "volume_30d", TString);
   ("BestBid", "best_bid", TString); ("BestBidSize", "best_bid_size", TString); ("BestAsk", "best_ask", TString);
   ("BestAskSize", "best_ask_size", TString); ("Side", "side", TString); ("Time", "time", TString);
   ("TradeID", "trade_id", TInt 64); ("LastSize", "last_size", TString)].
Definition Subscription (type_ : string) (productIds channels : list string) : json :=
  JObj [("type", JStr type_); ("product_ids", JStrs productIds); ("channels", JStrs channels)].

Definition TickerToFeedData (now_ : Time) (ticker : value) (feedMap : feed_map) : res (list FeedData) :=
  let? ids := lookup_ids feedMap (ToUpper (str "ProductID" ticker)) in
  let timestamp := default now_ (GoTime.ParseRFC3339Nano (str "Time" ticker)) in
  let? value := PriceStringToFloat64 (str "Price" ticker) in
  let? volume := VolumeStringToFloat64 (str "Volume24h" ticker) in
  Ok (feed_data ids value volume timestamp).

Definition New (N : NewEnv) (config : FetcherConfig) (feeds : list string) : res Fetcher :=
  client N config (Separated (fc_FeedMaps config)) URL [Subscription "subscribe" feeds ["ticker"%string]].

Definition handleMessage : handler := fun E FeedMap message =>
  with_struct Ticker message (fun ticker =>
    if negb (bool_decide (str "Type" ticker = "ticker"%string)) then Some ignored
    else Some (send (TickerToFeedData (now E) ticker FeedMap))).
End coinbase.

Module coinone.
Definition URL : string := "wss://stream.coinone.co.kr".
Definition Topic (quoteCurrency targetCurrency : string) : json :=
  JObj [("quote_currency", JStr quoteCurrency); ("target_currency", JStr targetCurrency)].
Definition Subscription (requestType channel : string) (topic : json) (format : string) : json :=
  JObj [("request_type", JStr requestType); ("channel", JStr channel); ("topic", topic); ("format", JStr format)].
Definition Data : ty := TStruct
  [("QuoteCurrency", "qc", TString); ("TargetCurrency", "tc", TString); ("Timestamp", "t", TInt 64);
   ("QuoteVolume", "qv", TString); ("TargetVolume", "tv", TString); ("First", "fi", TString); ("Low", "lo", TString);
   ("High", "hi", TString); ("Last", "la", TString); ("VolumePower", "vp", TString); ("AskBestPrice", "abp", TString);
   ("AskBestQty", "abq", TString); ("BidBestPrice", "bbp", TString); ("BidBestQty", "bbq", TString); ("ID", "i", TString);
   ("YesterdayFirst", "yfi", TString); ("YesterdayLow", "ylo", TString); ("YesterdayHigh", "yhi", TString);
   ("YesterdayLast", "yla", TString); ("YesterdayQuoteVolume", "yqv", TString); ("YesterdayTargetVolume", "ytv", TString)].
Definition Raw : ty := TStruct [("ResponseType", "r", TString); ("Channel", "c", TString); ("Data", "d", Data)].

Definition DataToFeedData (data : value) (feedMap : feed_map) : res (list FeedData) :=
  let? ids := lookup_ids feedMap
    (ToUpper (str "TargetCurrency" data) +:+ "-" +:+ ToUpper (str "QuoteCurrency" data))%string in
  let timestamp := UnixMilli (int "Timestamp" data) in
  let? value := PriceStringToFloat64 (str "Last" data) in
  let? volume := VolumeStringToFloat64 (str "TargetVolume" data) in
  Ok (feed_data ids value volume timestamp).

(** The loop of [New] over the feeds. *)
Fixpoint subscribe_loop (feeds : list string) : res (list json) :=
  match feeds with
  | [] => Ok []
  | feed :: feeds =>
      match Split feed "-"%char with
      | base :: quote :: _ =>
          let? subs := subscribe_loop feeds in
          Ok (Subscription "SUBSCRIBE" "TICKER" (Topic quote base) "SHORT" :: subs)
      | _ => Err (External "invalid feed name")
      end
  end.
Definition New (N : NewEnv) (config : FetcherConfig) (feeds : list string) : res Fetcher :=
  let? subscriptions := subscribe_loop feeds in
  client N config (Separated (fc_FeedMaps config)) URL subscriptions.

Definition handleMessage : handler := fun E FeedMap message =>
  with_struct Raw message (fun raw =>
    if negb (bool_decide (str "ResponseType" raw = "DATA"%string)) then Some ignored
    else Some (send (DataToFeedData (fld "Data" raw) FeedMap))).
End coinone.

Module korbit.
Definition URL : string := "wss://ws2.korbit.co.kr/v1/user/push".
Definition Ticker : ty := TStruct
  [("Channel", "channel", TString); ("CurrencyPair", "currency_pair", TString); ("Timestamp", "timestamp", TInt 64);
   ("Last", "last", TString); ("Open", "open", TString); ("Bid", "bid", TString); ("Ask", "ask", TString);
   ("Low", "low", TString); ("High", "high", TString); ("Volume", "volume", TString); ("Change", "change", TString)].
Definition Raw : ty := TStruct [("Event", "event", TString); ("Data", "data", Ticker)].
Definition Data (channels : list string) : json := JObj [("channels", JStrs channels)].
Definition Subscription (timestamp : Z) (event : string) (data : json) : json :=
  JObj [("accessToken", JNull); ("timestamp", JInt timestamp); ("event", JStr event); ("data", data)].

Definition DataToFeedData (data : value) (feedMap : feed_map) : res (list FeedData) :=
  let timestamp := UnixMilli (int "Timestamp" data) in
  let? value := PriceStringToFloat64 (str "Last" data) in
  let? volume := VolumeStringToFloat64 (str "Volume" data) in
  match Split (str "CurrencyPair" data) "_"%char with
  | target :: quote :: _ =>
      let? ids := lookup_ids feedMap (ToUpper target +:+ "-" +:+ ToUpper quote)%string in
      Ok (feed_data ids value volume timestamp)
  | _ => Err (External "invalid feed name")
  end.

Definition New (N : NewEnv) (config : FetcherConfig) (feeds : list string) : res Fetcher :=
  let symbols := (fun feed => ToLower (ReplaceAll feed "-"%char "_")) <$> feeds in
  client N config (Separated (fc_FeedMaps config)) URL
    [Subscription (n_now N / Second) "korbit:subscribe" (Data [("ticker:" +:+ Join "," symbols)%string])].

Definition handleMessage : handler := fun E FeedMap message =>
  with_struct Raw message (fun raw =>
    if negb (bool_decide (str "Event" raw = "korbit:push-ticker"%string)) then Some ignored
    else Some (send (DataToFeedData (fld "Data" raw) FeedMap))).
End korbit.

Module kucoin.
Definition TokenUrl : string := "https://api.kucoin.com/api/v1/bullet-public".
Definition URL : string := "wss://ws-api-spot.kucoin.com/".
Definition DEFAULT_PING_INTERVAL : Z := 18000.
Definition InstanceServers : ty := TStruct [("PingInterval", "pingInterval", TInt 64)].
Definition ResponseData : ty := TStruct [("Token", "token", TString); ("InstanceServers", "instanceServers", TSlice InstanceServers)].
Definition TokenResponse : ty := TStruct [("Data", "data", ResponseData)].
Definition Subscription (id : Z) (type_ topic : string) (response : bool) : json :=
  JObj [("id", JInt id); ("type", JStr type_); ("topic", JStr topic); ("response", JBool response)].
Definition Ping (id : Z) (type_ : string) : json := JObj [("id", JInt id); ("type", JStr type_)].
Definition SymbolSnapshotData : ty := TStruct
  [("Sequence", "sequence", TString);
   ("Data", "data", TStruct [("Symbol", "symbol", TString); ("Price", "lastTradedPrice", TFloat);
                             ("Volume", "vol", TFloat); ("Time", "datetime", TInt 64)])].
Definition SymbolSnapshotRaw : ty := TStruct
  [("Type", "type", TString); ("Topic", "topic", TString); ("Subject", "subject", TString); ("Data", "data", SymbolSnapshotData)].

Definition RawDataToFeedData (raw : value) (feedMap : feed_map) : res (list FeedData) :=
  let snapshot := fld "Data" (fld "Data" raw) in
  let symbol := str "Symbol" snapshot in
  let? ids := lookup_ids feedMap symbol in
  let timestamp := UnixMilli (int "Time" snapshot) in
  let value := FormatFloat64Price (flt "Price" snapshot) in
  let volume := flt "Volume" snapshot in
  Ok (feed_data ids value volume timestamp).

(** [resp]: the answer to the request for a token; an empty list of servers
    panics. *)
Definition getTokenAndPingInterval (resp : res value) : option (res (string * Z)) :=
  match resp with
  | Err e => Some (Err e)
  | Ok resp =>
      match as_slice (fld "InstanceServers" (fld "Data" resp)) with
      | [] => None
      | server :: _ => Some (Ok (str "Token" (fld "Data" resp), int "PingInterval" server))
      end
  end.
(** [dial]: the library's dial function; the result has the new ping interval. *)
Definition customDialFunc (resp : res value) (dial : @Wss.dial_func json) (pingInterval : Z)
    (l : list Wss.event) (endpoint : string) (opts : Wss.DialOptions) : option (res Wss.Conn_ * Z) :=
  match getTokenAndPingInterval resp with
  | None => None
  | Some (Err e) => Some (Err e, pingInterval)
  | Some (Ok (token, interval)) => Some (dial l (endpoint +:+ "?token=" +:+ token)%string opts, interval)
  end.

Definition New (N : NewEnv) (dialFunc : @Wss.dial_func json) (config : FetcherConfig) (feeds : list string) : res Fetcher :=
  connect N (Separated (fc_FeedMaps config))
    [Wss.WithCustomDialFunc dialFunc; Wss.WithEndpoint URL;
     Wss.WithSubscriptions [Wss.Value (Subscription 1 "subscribe" ("/market/snapshot:" +:+ Join "," feeds)%string true)];
     Wss.WithProxyUrl (fc_Proxy config)].

Definition handleMessage : handler := fun E FeedMap message =>
  with_struct SymbolSnapshotRaw message (fun raw =>
    if negb (bool_decide (str "Subject" raw = "trade.snapshot"%string)) then Some ignored
    else Some (send (RawDataToFeedData raw FeedMap))).
End kucoin.

Module bybit.
Definition URL : string := "wss://stream.bybit.com/v5/public/spot".
Definition Subscription (op : string) (args : list string) : json := JObj [("op", JStr op); ("args", JStrs args)].
Definition Response : ty := TStruct
  [("Topic", "topic", TPtr TString); ("Timestamp", "ts", TPtr (TInt 64)); ("Type", "type", TPtr TString);
   ("Data", "Data", TStruct [("Symbol", "symbol", TString); ("Price", "lastPrice", TString); ("Volume", "volume24h", TString)])].
Definition Heartbeat (op : string) : json := JObj [("op", JStr op)].

(** [None]: the timestamp is a nil pointer. *)
Definition ResponseToFeedData (data : value) (feedMap : feed_map) : option (res (list FeedData)) :=
  match lookup_ids feedMap (str "Symbol" (fld "Data" data)) with
  | Err e => Some (Err e)
  | Ok ids =>
      ts ← ref (fld "Timestamp" data);
      let timestamp := UnixMilli (as_int ts) in
      Some (
        let? value := PriceStringToFloat64 (str "Price" (fld "Data" data)) in
        let? volume := VolumeStringToFloat64 (str "Volume" (fld "Data" data)) in
        Ok (feed_data ids value volume timestamp))
  end.

Definition New (N : NewEnv) (config : FetcherConfig) (feeds : list string) : res Fetcher :=
  let pairList := (fun feed => "tickers." +:+ feed)%string <$> feeds in
  client N config (Combined (fc_FeedMaps config)) URL (Subscription "subscribe" <$> chunks 10 pairList).

Definition handleMessage : handler := fun E FeedMap message =>
  with_struct Response message (fun response =>
    match ref (fld "Topic" response) with
    | None => Some ignored
    | Some topic =>
        if negb (HasPrefix (as_str topic) "tickers.") then Some ignored
        else send <$> ResponseToFeedData response FeedMap
    end).
End bybit.

Module upbit.
Definition URL : string := "wss://api.upbit.com/websocket/v1".
Definition Response : ty := TStruct
  [("Type", "ty", TString); ("Code", "cd", TString); ("OpeningPrice", "op", TPtr TFloat); ("HighPrice", "hp", TPtr TFloat);
   ("LowPrice", "lp", TPtr TFloat); ("TradePrice", "tp", TFloat); ("PrevClosingPrice", "pcp", TFloat); ("Change", "c", TString);
   ("ChangePrice", "cp", TFloat); ("SignedChangePrice", "scp", TPtr TFloat); ("ChangeRate", "cr", TPtr TFloat);
   ("SignedChangeRate", "scr", TPtr TFloat); ("TradeVolume", "tv", TFloat); ("AccTradeVolume", "atv", TPtr TFloat);
   ("AccTradeVolume24h", "atv24h", TPtr TFloat); ("AccTradePrice", "atp", TPtr TFloat); ("AccTradePrice24h", "atp24h", TPtr TFloat);
   ("TradeDate", "td", TString); ("TradeTime", "ttm", TString); ("TradeTimestamp", "ttms", TInt 64); ("AskBid", "ab", TString);
   ("AccAskVolume", "aav", TPtr TFloat); ("AccBidVolume", "abv", TPtr TFloat); ("Highest52WeekPrice", "h52wp", TPtr TFloat);
   ("Highest52WeekDate", "h52wdt", TPtr TString); ("Lowest52WeekPrice", "l52wp", TPtr TFloat);
   ("Lowest52WeekDate", "l52wdt", TPtr TString); ("TradeStatus", "ts", TPtr TString); ("MarketState", "ms", TPtr TString);
   ("MarketStateForIos", "msfi", TPtr TString); ("IsTradingSuspended", "its", TPtr TBool); ("MarketWarning", "mw", TPtr TString);
   ("Timestamp", "tms", TInt 64); ("StreamType", "st", TString); ("SequentialId", "sid", TPtr (TInt 64))].
Definition Subscription (ticket : string) (codes : list string) : json :=
  JArr [JObj [("ticket", JStr ticket)];
        JObj [("type", JStr "ticker"); ("codes", JStrs codes); ("isOnlyRealtime", JBool true)];
        JObj [("format", JStr "SIMPLE")]].

(** [None]: the code has no dash, so there is no second part. *)
Definition ResponseToFeedData (data : value) (feedMap : feed_map) : option (res (list FeedData)) :=
  let timestamp := UnixMilli (int "TradeTimestamp" data) in
  let price := FormatFloat64Price (flt "TradePrice" data) in
  let volume := fld "AccTradeVolume24h" data in
  match Split (str "Code" data) "-"%char with
  | quote :: base :: _ => Some (
      let? ids := lookup_ids feedMap (ToUpper base +:+ "-" +:+ ToUpper quote)%string in
      Ok (feed_data ids price (match ref volume with Some v => as_float v | None => fzero end) timestamp))
  | _ => None
  end.

(** [None]: a feed without a dash in its name. *)
Fixpoint codes_of (feeds : list string) : option (list string) :=
  match feeds with
  | [] => Some []
  | feed :: feeds =>
      match Split feed "-"%char with
      | base :: quote :: _ => cons (ToUpper quote +:+ "-" +:+ ToUpper base)%string <$> codes_of feeds
      | _ => None
      end
  end.
Definition New (N : NewEnv) (config : FetcherConfig) (feeds : list string) : option (res Fetcher) :=
  codes ← codes_of feeds;
  Some (client N config (Separated (fc_FeedMaps config)) URL [Subscription (n_uuid N 0) codes]).

Definition handleMessage : handler := fun E FeedMap message =>
  with_struct Response message (fun response => send <$> ResponseToFeedData response FeedMap).
End upbit.

Module crypto.
Definition URL : string := "wss://stream.crypto.com/exchange/v1/market".
Definition Subscription (method : string) (channels : list string) : json :=
  JObj [("method", JStr method); ("params", JObj [("channels", JStrs channels)])].
Definition Response : ty := TStruct
  [("Method", "method", TString); ("Code", "code", TInt 64);
   ("Result", "result", TStruct
     [("Channel", "channel", TString); ("InstrumentName", "instrument_name", TString); ("Subscription", "subscription", TString);
      ("Data", "data", TSlice (TStruct
        [("HighPrice24h", "h", TString); ("LowPrice24h", "l", TPtr TString); ("LastTradePrice", "a", TPtr TString);
         ("InstrumentName", "i", TString); ("Total24hTradeVolume", "v", TString); ("Total24hTradeValue", "vv", TString);
         ("OpenInterest", "oi", TString); ("PriceChange24h", "c", TPtr TString); ("CurrentBestBidPrice", "b", TPtr TString);
         ("CurrentBestAskPrice", "k", TPtr TString); ("Timestamp", "t", TInt 64)]))])].
Definition Heartbeat : ty := TStruct [("ID", "id", TInt 64); ("Method", "method", TString)].
Definition heartbeat (id : Z) (method : string) : json := JObj [("id", JInt id); ("method", JStr method)].

(** One round of the loop; an error means that it goes on to the next. *)
Definition tick_data (feedMap : feed_map) (tick : value) : res (list FeedData) :=
  match ref (fld "LastTradePrice" tick) with
  | None => Ok []
  | Some price =>
      let timestamp := UnixMilli (int "Timestamp" tick) in
      let? value := PriceStringToFloat64 (as_str price) in
      let? volume := VolumeStringToFloat64 (str "Total24hTradeVolume" tick) in
      match Split (str "InstrumentName" tick) "_"%char with
      | [base; quote] =>
          let? ids := lookup_ids feedMap (base +:+ "-" +:+ quote)%string in
          Ok (feed_data ids value volume timestamp)
      | _ => Ok []
      end
  end.
Definition ResponseToFeedDataList (data : value) (feedMap : feed_map) : res (list FeedData) :=
  Ok (as_slice (fld "Data" (fld "Result" data)) ≫= fun tick => ok_list (tick_data feedMap tick)).

Definition New (N : NewEnv) (config : FetcherConfig) (feeds : list string) : res Fetcher :=
  let channels := (fun feed => "ticker." +:+ ReplaceAll feed "-"%char "_")%string <$> feeds in
  client N config (Separated (fc_FeedMaps config)) URL [Subscription "subscribe" channels].

Definition handleMessage : handler := fun E FeedMap message =>
  with_struct Response message (fun response =>
    if bool_decide (str "Method" response = "public/heartbeat"%string) then
      with_struct Heartbeat message (fun h => Some (reply E (heartbeat (int "ID" h) "public/respond-heartbeat")))
    else if negb (bool_decide (str "Channel" (fld "Result" response) = "ticker"%string)) then Some ignored
    else Some (send (ResponseToFeedDataList response FeedMap))).
End crypto.

Module btse.
Definition URL : string := "wss://ws.btse.com/ws/spot".
Definition MARKET_SUMMARY_ENDPOINT : string := "https://api.btse.com/spot/api/v3.2/market_summary".
Definition Subscription (op : string) (args : list string) : json := JObj [("op", JStr op); ("args", JStrs args)].
Definition Response : ty := TStruct
  [("Topic", "topic", TString);
   ("Data", "data", TSlice (TStruct
     [("Symbol", "symbol", TString); ("Side", "side", TString); ("Size", "size", TFloat); ("Price", "price", TFloat);
      ("TradeId", "tradeId", TInt 64); ("Timestamp", "timestamp", TInt 64)]))].
Definition MarketSummary : ty := TStruct [("Symbol", "symbol", TString); ("Size", "size", TFloat)].

Definition trade_data (E : Env) (feedMap : feed_map) (ticker : value) : res (list FeedData) :=
  let? ids := lookup_ids feedMap (str "Symbol" ticker) in
  let timestamp := UnixMilli (int "Timestamp" ticker) in
  let price := FormatFloat64Price (flt "Price" ticker) in
  Ok (cached_data E ids price timestamp).
Definition ResponseToFeedDataList (E : Env) (data : value) (feedMap : feed_map) : res (list FeedData) :=
  Ok (as_slice (fld "Data" data) ≫= fun ticker => ok_list (trade_data E feedMap ticker)).

(** [result]: the answer to the request for the summary; [now_] when it came. *)
Definition FetchVolumes (now_ : Time) (result : res (list value)) (feedMap : feed_map) (m : VolumeCacheMap)
    : VolumeCacheMap * option error :=
  match result with
  | Err err => (m, Some err)
  | Ok result =>
      (fold_left (fun m entry =>
         match feedMap !! str "Symbol" entry with
         | None => m
         | Some ids => cache_ids now_ (flt "Size" entry) ids m
         end) result m, None)
  end.

Definition New (N : NewEnv) (config : FetcherConfig) (feeds : list string) : res Fetcher :=
  let args := (fun feed => "tradeHistoryApi:" +:+ feed)%string <$> feeds in
  client N config (Separated (fc_FeedMaps config)) URL [Subscription "subscribe" args].

Definition handleMessage : handler := fun E FeedMap message =>
  with_struct Response message (fun response =>
    if negb (HasPrefix (str "Topic" response) "tradeHistoryApi:") then Some ignored
    else Some (send (ResponseToFeedDataList E response FeedMap))).
End btse.
