(* ===== verification/ProvidersB.v ===== *)
(** * Exchange providers, second part

    The packages bithumb, gateio, coinex, huobi, mexc, bitstamp, gemini and lbank
    under [node/pkg/websocketfetcher/providers]. *)

From S2P Require Import Prelude Errors Wire Text Strings Float Reducer FeedData Util Wss Decode WsFetcher GoTime Providers.
From Stdlib Require Import Ascii.
Import Text Strings Float Reducer FeedData Decode Common Provider.

Local Open Scope Z_scope.
Local Open Scope go_scope.

Definition bad_time : error := External "parsing time: cannot parse".

Module bithumb.
Definition URL : string := "wss://pubwss.bithumb.com/pub/ws".
Definition Subscription (type_ : string) (symbols tickTypes : list string) : json :=
  JObj [("type", JStr type_); ("symbols", JStrs symbols); ("tickTypes", JStrs tickTypes)].
Definition RawResponse : ty := TStruct [("Type", "type", TString)].
Definition TickerResponse : ty := TStruct
  [("Type", "type", TString);
   ("Content", "content", TStruct
     [("Symbol", "symbol", TString); ("TickType", "tickType", TString); ("Date", "date", TString); ("Time", "time", TString);
      ("OpenPrice", "openPrice", TString); ("ClosePrice", "closePrice", TString); ("LowPrice", "lowPrice", TString);
      ("HighPrice", "highPrice", TString); ("Value", "value", TString); ("Volume", "volume", TString);
      ("SellVolume", "sellVolume", TString); ("BuyVolume", "buyVolume", TString); ("PrevClosePrice", "prevClosePrice", TString);
      ("ChgRate", "chgRate", TString); ("ChgAmt", "chgAmt", TString); ("VolumePower", "volumePower", TString)])].

(** [None]: the symbol has no underscore. *)
Definition TickerResponseToFeedData (data : value) (feedMap : feed_map) : option (res (list FeedData)) :=
  let content := fld "Content" data in
  match Split (str "Symbol" content) "_"%char with
  | a :: b :: _ => Some (
      let? ids := lookup_ids feedMap (a +:+ "-" +:+ b)%string in
      let? date := match GoTime.ParseDate (str "Date" content) with Some d => Ok d | None => Err bad_time end in
      let? (t, ns) := match GoTime.ParseClock (str "Time" content) with Some c => Ok c | None => Err bad_time end in
      let timestamp := GoTime.Date (GoTime.Year date) (GoTime.Month date) (GoTime.Day date)
        (GoTime.Hour t) (GoTime.Minute t) (GoTime.Second_ t) ns GoTime.Seoul in
      let? price := PriceStringToFloat64 (str "ClosePrice" content) in
      let? volume := VolumeStringToFloat64 (str "Volume" content) in
      Ok (feed_data ids price volume timestamp))
  | _ => None
  end.

Definition New (N : NewEnv) (config : FetcherConfig) (feeds : list string) : res Fetcher :=
  let symbols := (fun feed => ReplaceAll feed "-"%char "_") <$> feeds in
  client N config (Separated (fc_FeedMaps config)) URL [Subscription "ticker" symbols ["24H"%string]].

Definition handleMessage : handler := fun E FeedMap message =>
  with_struct RawResponse message (fun response =>
    if negb (bool_decide (str "Type" response = "ticker"%string)) then Some ignored
    else with_struct TickerResponse message (fun tickerResponse =>
      send <$> TickerResponseToFeedData tickerResponse FeedMap)).
End bithumb.

Module gateio.
Definition URL : string := "wss://api.gateio.ws/ws/v4/".
Definition Subscription (time : Z) (channel event : string) (payload : list string) : json :=
  JObj [("time", JInt time); ("channel", JStr channel); ("event", JStr event); ("payload", JStrs payload)].
Definition Response : ty := TStruct
  [("Time", "time", TInt 64); ("TimeMs", "time_ms", TInt 64); ("Channel", "channel", TString); ("Event", "event", TString);
   ("Result", "result", TStruct
     [("CurrencyPair", "currency_pair", TString); ("Last", "last", TString); ("LowestAsk", "lowest_ask", TString);
      ("HighestBid", "highest_bid", TString); ("ChangePercentage", "change_percentage", TString);
      ("BaseVolume", "base_volume", TString); ("QuoteVolume", "quote_volume", TString); ("High24h", "high_24h", TString);
      ("Low24h", "low_24h", TString)])].

Definition ResponseToFeedData (data : value) (feedMap : feed_map) : res (list FeedData) :=
  let timestamp := int "Time" data * Second in
  let? price := PriceStringToFloat64 (str "Last" (fld "Result" data)) in
  let? volume := VolumeStringToFloat64 (str "BaseVolume" (fld "Result" data)) in
  let key := Replace1 (str "CurrencyPair" (fld "Result" data)) "_"%char "-" in
  let? ids := lookup_ids feedMap key in
  Ok (feed_data ids price volume timestamp).

Definition New (N : NewEnv) (config : FetcherConfig) (feeds : list string) : res Fetcher :=
  let payload := (fun feed => ReplaceAll feed "-"%char "_") <$> feeds in
  client N config (Separated (fc_FeedMaps config)) URL
    [Subscription (n_now N / Second) "spot.tickers" "subscribe" payload].

Definition handleMessage : handler := fun E FeedMap message =>
  with_struct Response message (fun response =>
    if negb (bool_decide (str "Channel" response = "spot.tickers"%string)) ||
       bool_decide (str "Last" (fld "Result" response) = ""%string) then Some ignored
    else Some (send (ResponseToFeedData response FeedMap))).
End gateio.

Module coinex.
Definition URL : string := "wss://socket.coinex.com/v2/spot".
Definition SubscribeParams (marketList : list string) : json := JObj [("market_list", JStrs marketList)].
Definition Subscription (method : string) (params : json) (id : Z) : json :=
  JObj [("method", JStr method); ("params", params); ("id", JInt id)].
Definition State : ty := TStruct
  [("Market", "market", TString); ("Last", "last", TString); ("Open", "open", TString); ("Close", "close", TString);
   ("High", "high", TString); ("Low", "low", TString); ("Volume", "volume", TString); ("VolumeSell", "volume_sell", TString);
   ("VolumeBuy", "volume_buy", TString); ("Value", "value", TString); ("Period", "period", TInt 64)].
Definition Data : ty := TStruct [("StateList", "state_list", TSlice State)].
Definition Response : ty := TStruct [("Method", "method", TString); ("Data", "data", Data); ("ID", "id", TPtr (TInt 64))].

Definition state_data (now_ : Time) (feedMap : feed_map) (item : value) : res (list FeedData) :=
  let? ids := lookup_ids feedMap (str "Market" item) in
  let? price := PriceStringToFloat64 (str "Last" item) in
  let? volume := VolumeStringToFloat64 (str "Volume" item) in
  Ok (feed_data ids price volume now_).
Definition ResponseToFeedDataList (now_ : Time) (data : value) (feedMap : feed_map) : res (list FeedData) :=
  Ok (as_slice (fld "StateList" (fld "Data" data)) ≫= fun item => ok_list (state_data now_ feedMap item)).

Definition customReadFunc (R : Frames) : @Wss.read_func json := gzipReadFunc R.
Definition New (N : NewEnv) (R : Frames) (config : FetcherConfig) (feeds : list string) : res Fetcher :=
  connect N (Combined (fc_FeedMaps config))
    [Wss.WithEndpoint URL;
     Wss.WithSubscriptions [Wss.Value (Subscription "state.subscribe" (SubscribeParams feeds) 1)];
     Wss.WithProxyUrl (fc_Proxy config); Wss.WithCustomReadFunc (customReadFunc R)].

Definition handleMessage : handler := fun E FeedMap message =>
  with_struct Response message (fun response =>
    if negb (bool_decide (str "Method" response = "state.update"%string)) then Some ignored
    else Some (send (ResponseToFeedDataList (now E) response FeedMap))).
End coinex.

Module huobi.
Definition URL : string := "wss://api.huobi.pro/ws".
Definition Subscription (sub : string) : json := JObj [("sub", JStr sub)].
Definition Ticker : ty := TStruct
  [("Amount", "amount", TFloat); ("Count", "count", TInt 64); ("Open", "open", TFloat); ("Close", "close", TFloat);
   ("Low", "low", TFloat); ("High", "high", TFloat); ("Vol", "vol", TFloat); ("Bid", "bid", TFloat);
   ("BidSize", "bidSize", TFloat); ("Ask", "ask", TFloat); ("AskSize", "askSize", TFloat); ("LastPrice", "lastPrice", TFloat);
   ("LastSize", "lastSize", TFloat)].
Definition Response : ty := TStruct [("Ch", "ch", TString); ("Ts", "ts", TInt 64); ("Tick", "tick", Ticker)].
Definition Heartbeat : ty := TStruct [("Ping", "ping", TInt 64)].
Definition HeartbeatResponse (pong : Z) : json := JObj [("pong", JInt pong)].

Definition ResponseToFeedData (response : value) (feedMap : feed_map) : res (list FeedData) :=
  let timestamp := UnixMilli (int "Ts" response) in
  let price := FormatFloat64Price (flt "LastPrice" (fld "Tick" response)) in
  match Split (str "Ch" response) "."%char with
  | _ :: rawSymbol :: kind :: _ =>
      if negb (bool_decide (kind = "ticker"%string)) then Err (External "invalid response")
      else
        let? ids := lookup_ids feedMap (ToUpper rawSymbol) in
        Ok (feed_data ids price (flt "Amount" (fld "Tick" response)) timestamp)
  | _ => Err (External "invalid response")
  end.

Definition customReadFunc (R : Frames) : @Wss.read_func json := gzipReadFunc R.
Definition New (N : NewEnv) (R : Frames) (config : FetcherConfig) (feeds : list string) : res Fetcher :=
  connect N (Combined (fc_FeedMaps config))
    [Wss.WithCustomReadFunc (customReadFunc R); Wss.WithEndpoint URL;
     Wss.WithSubscriptions ((fun feed => Wss.Value (Subscription ("market." +:+ ToLower feed +:+ ".ticker")%string)) <$> feeds);
     Wss.WithProxyUrl (fc_Proxy config)].

(** What [checkSubResponse] finds is only logged. *)
Definition handleMessage : handler := fun E FeedMap message =>
  if has_key "ping" message then
    with_struct Heartbeat message (fun heartbeat => Some (reply E (HeartbeatResponse (int "Ping" heartbeat))))
  else if has_key "subbed" message then Some ignored
  else if negb (has_key "tick" message) then Some ignored
  else with_struct Response message (fun response => Some (send (ResponseToFeedData response FeedMap))).
End huobi.

Module mexc.
Definition URL : string := "wss://wbs.mexc.com/ws".
Definition Subscription (method : string) (params : list string) : json := JObj [("method", JStr method); ("params", JStrs params)].
Definition Ticker : ty := TStruct
  [("Symbol", "s", TString); ("Price", "p", TString); ("PercentChange", "r", TString); ("TimezonePercentChange", "tr", TString);
   ("HighPrice", "h", TString); ("LowPrice", "l", TString); ("Volume", "v", TString); ("QuoteVolume", "q", TString);
   ("LastRT", "lastRT", TString); ("MergeTimes", "MT", TString); ("NetValue", "NV", TString)].
Definition BatchResponse : ty := TStruct [("Channel", "c", TString); ("Data", "d", TSlice Ticker); ("Time", "t", TInt 64)].

(** The loop ends at the first price or volume that cannot be read. *)
Fixpoint data_loop (timestamp : Time) (feedMap : feed_map) (items : list value) : res (list FeedData) :=
  match items with
  | [] => Ok []
  | item :: items =>
      match feedMap !! str "Symbol" item with
      | None => data_loop timestamp feedMap items
      | Some ids =>
          let? value := PriceStringToFloat64 (str "Price" item) in
          let? volume := VolumeStringToFloat64 (str "QuoteVolume" item) in
          let? rest := data_loop timestamp feedMap items in
          Ok (feed_data ids value volume timestamp ++ rest)
      end
  end.
Definition ResponseToFeedDataList (response : value) (feedMap : feed_map) : res (list FeedData) :=
  data_loop (UnixMilli (int "Time" response)) feedMap (as_slice (fld "Data" response)).

Definition New (N : NewEnv) (config : FetcherConfig) (feeds : list string) : res Fetcher :=
  client N config (Combined (fc_FeedMaps config)) URL
    [Subscription "SUBSCRIPTION" ["spot@public.miniTickers.v3.api@UTC+0"%string]].

Definition handleMessage : handler := fun E FeedMap message =>
  with_struct BatchResponse message (fun response => Some (send (ResponseToFeedDataList response FeedMap))).
End mexc.

Module bitstamp.
Definition URL : string := "wss://ws.bitstamp.net".
Definition ALL_CURRENCY_PAIR_TICKER_ENDPOINT : string := "https://www.bitstamp.net/api/v2/ticker/".
Definition Subscription (event channel : string) : json :=
  JObj [("event", JStr event); ("data", JObj [("channel", JStr channel)])].
Definition Trade : ty := TStruct
  [("ID", "id", TInt 64); ("Amount", "amount", TFloat); ("AmountStr", "amount_str", TString); ("Price", "price", TFloat);
   ("PriceStr", "price_str", TString); ("Type", "type", TInt 64); ("Timestamp", "timestamp", TString);
   ("Microtimestamp", "microtimestamp", TString); ("BuyOrderID", "buy_order_id", TInt 64); ("SellOrderID", "sell_order_id", TInt 64)].
Definition TradeEvent : ty := TStruct [("Channel", "channel", TString); ("Data", "data", Trade); ("Event", "event", TString)].
Definition VolumeEntry : ty := TStruct [("Timestamp", "timestamp", TString); ("Volume", "volume", TString); ("Pair", "pair", TString)].

Definition Microsecond : Z := 1000.
Definition TradeEventToFeedData (E : Env) (data : value) (feedMap : feed_map) : res (list FeedData) :=
  let? rawTimestamp := parse_int (str "Microtimestamp" (fld "Data" data)) in
  let timestamp := wrap64 (rawTimestamp * Microsecond) in
  let value := FormatFloat64Price (flt "Price" (fld "Data" data)) in
  match Split (str "Channel" data) "_"%char with
  | _ :: _ :: rawSymbol :: _ =>
      let? ids := lookup_ids feedMap (ToUpper rawSymbol) in
      Ok (cached_data E ids value timestamp)
  | _ => Err (External "invalid feed name")
  end.

Definition FetchVolumes (now_ : Time) (result : res (list value)) (feedMap : feed_map) (m : VolumeCacheMap)
    : VolumeCacheMap * option error :=
  match result with
  | Err err => (m, Some err)
  | Ok result =>
      (fold_left (fun m entry =>
         match feedMap !! ReplaceAll (str "Pair" entry) "/"%char "" with
         | None => m
         | Some ids =>
             match VolumeStringToFloat64 (str "Volume" entry) with
             | Err _ => m
             | Ok volume => cache_ids now_ volume ids m
             end
         end) result m, None)
  end.

Definition New (N : NewEnv) (config : FetcherConfig) (feeds : list string) : res Fetcher :=
  client N config (Combined (fc_FeedMaps config)) URL
    ((fun feed => Subscription "bts:subscribe" ("live_trades_" +:+ ToLower feed)%string) <$> feeds).

Definition handleMessage : handler := fun E FeedMap message =>
  with_struct TradeEvent message (fun response =>
    if negb (bool_decide (str "Event" response = "trade"%string)) then Some ignored
    else Some (send (TradeEventToFeedData E response FeedMap))).
End bitstamp.

Module gemini.
Definition URL : string :=
  "wss://api.gemini.com/v1/multimarketdata?bids=false&heartbeat=true&offers=false&top_of_book=true&symbols=".
Definition TICKER_ENDPOINT : string := "https://api.gemini.com/v1/pubticker/".
Definition Event : ty := TStruct
  [("Type", "type", TString); ("Symbol", "symbol", TString); ("Price", "price", TString); ("Side", "side", TPtr TString);
   ("Reason", "reason", TPtr TString); ("Remaining", "remaining", TPtr TString); ("Delta", "delta", TPtr TString);
   ("Amount", "amount", TPtr TString); ("MakerSide", "makerSide", TPtr TString)].
Definition Response : ty := TStruct
  [("Type", "type", TString); ("TimestampMs", "timestampms", TPtr (TInt 64)); ("Events", "events", TSlice Event)].
Definition HttpTickerResponse : ty := TStruct [("Volume", "volume", TMap TAny)].

Definition event_data (E : Env) (timestamp : Time) (feedMap : feed_map) (event : value) : res (list FeedData) :=
  let? ids := lookup_ids feedMap (str "Symbol" event) in
  let? price := PriceStringToFloat64 (str "Price" event) in
  Ok (cached_data E ids price timestamp).
(** [None]: the timestamp is a nil pointer. *)
Definition TradeResponseToFeedDataList (E : Env) (data : value) (feedMap : feed_map) : option (res (list FeedData)) :=
  ts ← ref (fld "TimestampMs" data);
  let timestamp := UnixMilli (as_int ts) in
  Some (Ok (as_slice (fld "Events" data) ≫= fun event => ok_list (event_data E timestamp feedMap event))).

(** One symbol: the volumes of the answer are entered for the keys that the
    symbol begins with. *)
Definition fetch_symbol (result : res value) (symbol : string) (ids : list int32) (m : VolumeCacheMap) : VolumeCacheMap :=
  match result with
  | Err _ => m
  | Ok result =>
      let volume := as_map (fld "Volume" result) in
      match as_any (default (VAny JNull) (get_field volume "timestamp")) with
      | JNum timestampRaw =>
          let timestamp := UnixMilli (to_int64 timestampRaw) in
          fold_left (fun m '(key, v) =>
            if HasPrefix symbol key then
              match as_any v with
              | JStr volumeStr =>
                  match VolumeStringToFloat64 volumeStr with
                  | Err _ => m
                  | Ok volume => cache_ids timestamp volume ids m
                  end
              | _ => m
              end
            else m) volume m
      | _ => m
      end
  end.
(** [answer]: the answers to the requests, by endpoint. *)
Definition FetchVolumes (answer : string -> res value) (feeds : list (string * list int32)) (m : VolumeCacheMap) : VolumeCacheMap :=
  fold_left (fun m '(symbol, ids) => fetch_symbol (answer (TICKER_ENDPOINT +:+ ToLower symbol)%string) symbol ids m) feeds m.

Definition New (N : NewEnv) (config : FetcherConfig) (feeds : list string) : res Fetcher :=
  let symbols := ToUpper <$> feeds in
  client N config (Combined (fc_FeedMaps config)) (URL +:+ Join "," symbols)%string [].

Definition handleMessage : handler := fun E FeedMap message =>
  with_struct Response message (fun response =>
    if negb (bool_decide (str "Type" response = "update"%string)) || bool_decide (length (as_slice (fld "Events" response)) = 0%nat)
    then Some ignored
    else send <$> TradeResponseToFeedDataList E response FeedMap).
End gemini.

Module lbank.
Definition URL : string := "wss://www.lbkex.net/ws/V2/".
Definition Subscription (action subscribe pair : string) : json :=
  JObj [("action", JStr action); ("subscribe", JStr subscribe); ("pair", JStr pair)].
Definition Response : ty := TStruct
  [("Tick", "tick", TStruct
     [("ToCny", "to_cny", TFloat); ("High", "high", TFloat); ("Vol", "vol", TFloat); ("Low", "low", TFloat);
      ("Change", "change", TFloat); ("Usd", "usd", TFloat); ("ToUsd", "to_usd", TFloat); ("Dir", "dir", TString);
      ("Turnover", "turnover", TFloat); ("Latest", "latest", TFloat); ("Cny", "cny", TFloat)]);
   ("Type", "type", TString); ("Pair", "pair", TString); ("Server", "SERVER", TString); ("TS", "TS", TString)].
Definition Ping : ty := TStruct [("Action", "action", TString); ("Ping", "ping", TString)].
Definition Pong (action pong : string) : json := JObj [("action", JStr action); ("pong", JStr pong)].

Definition ResponseToFeedData (data : value) (feedMap : feed_map) : res (list FeedData) :=
  let? timestamp := match GoTime.ParseMillis GoTime.Shanghai (str "TS" data) with Some t => Ok t | None => Err bad_time end in
  let value := FormatFloat64Price (flt "Latest" (fld "Tick" data)) in
  let symbol := ToUpper (ReplaceAll (str "Pair" data) "_"%char "-") in
  let volume := flt "Vol" (fld "Tick" data) in
  let? ids := lookup_ids feedMap symbol in
  Ok (feed_data ids value volume timestamp).

Definition New (N : NewEnv) (config : FetcherConfig) (feeds : list string) : res Fetcher :=
  client N config (Separated (fc_FeedMaps config)) URL
    ((fun feed => Subscription "subscribe" "tick" (ToLower (ReplaceAll feed "-"%char "_"))) <$> feeds).

Definition handleMessage : handler := fun E FeedMap message =>
  if has_key "ping" message then
    with_struct Ping message (fun ping => Some (reply E (Pong "pong" (str "Ping" ping))))
  else with_struct Response message (fun response =>
    if negb (bool_decide (str "Type" response = "tick"%string)) then Some ignored
    else Some (send (ResponseToFeedData response FeedMap))).
End lbank.
