(* ===== verification/ProvidersC.v ===== *)
(** * Exchange providers, third part

    The packages bitget, okx, kraken, bingx, bitmart, xt, gopax and orangex under
    [node/pkg/websocketfetcher/providers], the table of all providers, and what
    holds of every handler. *)

From S2P Require Import Prelude Errors Wire Text Strings Float Reducer FeedData Util Wss Decode WsFetcher GoTime Providers ProvidersA ProvidersB.
From Stdlib Require Import Ascii.
Import Text Strings Float Reducer FeedData Decode Common Provider.

Local Open Scope Z_scope.
Local Open Scope go_scope.

Module bitget.
Definition URL : string := "wss://ws.bitget.com/v2/ws/public".
Definition Arg (instType channel instId : string) : json :=
  JObj [("instType", JStr instType); ("channel", JStr channel); ("instId", JStr instId)].
Definition Subscription (op : string) (args : list json) : json := JObj [("op", JStr op); ("args", JArr args)].
Definition Data : ty := TStruct
  [("InstId", "instId", TString); ("Price", "lastPR", TString); ("Volume", "baseVolume", TString); ("Timestamp", "ts", TString)].
Definition Response : ty := TStruct
  [("Action", "action", TPtr TString);
   ("Arg", "arg", TStruct [("InstType", "instType", TString); ("Channel", "channel", TString); ("InstId", "instId", TString)]);
   ("Data", "Data", TSlice Data)].

Definition tick_data (feedMap : feed_map) (tick : value) : res (list FeedData) :=
  let? ids := lookup_ids feedMap (str "InstId" tick) in
  let? value := PriceStringToFloat64 (str "Price" tick) in
  let? volume := VolumeStringToFloat64 (str "Volume" tick) in
  let? timestampRaw := parse_int (str "Timestamp" tick) in
  Ok (feed_data ids value volume (UnixMilli timestampRaw)).
Definition ResponseToFeedDataList (data : value) (feedMap : feed_map) : list FeedData :=
  as_slice (fld "Data" data) ≫= fun tick => ok_list (tick_data feedMap tick).

Definition customReadFunc (R : Frames) : @Wss.read_func json := pongReadFunc R.
Definition New (N : NewEnv) (R : Frames) (config : FetcherConfig) (feeds : list string) : res Fetcher :=
  connect N (Combined (fc_FeedMaps config))
    [Wss.WithCustomReadFunc (customReadFunc R); Wss.WithEndpoint URL;
     Wss.WithSubscriptions [Wss.Value (Subscription "subscribe" (Arg "SPOT" "ticker" <$> feeds))];
     Wss.WithProxyUrl (fc_Proxy config)].

Definition handleMessage : handler := fun E FeedMap message =>
  with_struct Response message (fun response =>
    match ref (fld "Action" response) with
    | None => Some ignored
    | Some action =>
        if negb (bool_decide (as_str action = "snapshot"%string)) then Some ignored
        else Some (send (Ok (ResponseToFeedDataList response FeedMap)))
    end).
End bitget.

Module okx.
Definition URL : string := "wss://ws.okx.com:8443/ws/v5/public".
Definition Arg (channel instId : string) : json := JObj [("channel", JStr channel); ("instId", JStr instId)].
Definition Subscription (operation : string) (args : list json) : json := JObj [("op", JStr operation); ("args", JArr args)].
Definition Response : ty := TStruct
  [("Event", "event", TPtr TString);
   ("Arg", "arg", TStruct [("Channel", "channel", TString); ("InstId", "instId", TString)]);
   ("Data", "data", TSlice (TStruct
     [("InstId", "instId", TString); ("Price", "last", TString); ("Volume", "vol24h", TString); ("Timestamp", "ts", TString)]))].

Definition tick_data (feedMap : feed_map) (data : value) : res (list FeedData) :=
  let? ids := lookup_ids feedMap (str "InstId" data) in
  let? value := PriceStringToFloat64 (str "Price" data) in
  let? intTimestamp := parse_int (str "Timestamp" data) in
  let? volume := VolumeStringToFloat64 (str "Volume" data) in
  Ok (feed_data ids value volume (UnixMilli intTimestamp)).
Definition ResponseToFeedData (response : value) (feedMap : feed_map) : list FeedData :=
  as_slice (fld "Data" response) ≫= fun data => ok_list (tick_data feedMap data).

Definition New (N : NewEnv) (config : FetcherConfig) (feeds : list string) : res Fetcher :=
  client N config (Separated (fc_FeedMaps config)) URL [Subscription "subscribe" (Arg "tickers" <$> feeds)].

Definition handleMessage : handler := fun E FeedMap message =>
  with_struct Response message (fun raw =>
    if bool_decide (length (as_slice (fld "Data" raw)) = 0%nat) then Some ignored
    else Some (send (Ok (ResponseToFeedData raw FeedMap)))).
End okx.

Module kraken.
Definition URL : string := "wss://ws.kraken.com/v2".
Definition Params (channel : string) (symbol : list string) : json := JObj [("channel", JStr channel); ("symbol", JStrs symbol)].
Definition Subscription (method : string) (params : json) : json := JObj [("method", JStr method); ("params", params)].
Definition Response : ty := TStruct
  [("Channel", "channel", TString); ("Type", "type", TString);
   ("Data", "data", TSlice (TStruct [("Symbol", "symbol", TString); ("Price", "last", TFloat); ("Volume", "volume", TFloat)]))].

Definition tick_data (now_ : Time) (feedMap : feed_map) (data : value) : res (list FeedData) :=
  let? ids := lookup_ids feedMap (ReplaceAll (str "Symbol" data) "/"%char "-") in
  Ok (feed_data ids (FormatFloat64Price (flt "Price" data)) (flt "Volume" data) now_).
Definition ResponseToFeedData (now_ : Time) (response : value) (feedMap : feed_map) : list FeedData :=
  as_slice (fld "Data" response) ≫= fun data => ok_list (tick_data now_ feedMap data).

Definition New (N : NewEnv) (config : FetcherConfig) (feeds : list string) : res Fetcher :=
  let symbols := (fun feed => ReplaceAll feed "-"%char "/") <$> feeds in
  client N config (Separated (fc_FeedMaps config)) URL [Subscription "subscribe" (Params "ticker" symbols)].

Definition handleMessage : handler := fun E FeedMap message =>
  with_struct Response message (fun raw =>
    if negb (bool_decide (str "Channel" raw = "ticker"%string)) then Some ignored
    else Some (send (Ok (ResponseToFeedData (now E) raw FeedMap)))).
End kraken.

Module bingx.
Definition URL : string := "wss://open-api-ws.bingx.com/market".
Definition Subscription (id requestType dataType : string) : json :=
  JObj [("id", JStr id); ("reqType", JStr requestType); ("dataType", JStr dataType)].
Definition Data : ty := TStruct
  [("EventType", "e", TString); ("EventTime", "E", TInt 64); ("Symbol", "s", TString); ("Price", "c", TFloat); ("Volume", "v", TFloat)].
Definition Response : ty := TStruct [("Code", "code", TInt 64); ("Data", "data", Data); ("Timestamp", "timestamp", TInt 64)].
Definition Heartbeat : ty := TStruct [("Ping", "ping", TString); ("Time", "time", TString)].
Definition HeartbeatResonse (pong time : string) : json := JObj [("pong", JStr pong); ("time", JStr time)].

Definition ResponseToFeedData (response : value) (feedMap : feed_map) : res (list FeedData) :=
  let data := fld "Data" response in
  let? ids := lookup_ids feedMap (str "Symbol" data) in
  Ok (feed_data ids (FormatFloat64Price (flt "Price" data)) (flt "Volume" data) (UnixMilli (int "EventTime" data))).

Definition customReadFunc (R : Frames) : @Wss.read_func json := gzipReadFunc R.
Definition New (N : NewEnv) (R : Frames) (config : FetcherConfig) (feeds : list string) : res Fetcher :=
  connect N (Separated (fc_FeedMaps config))
    [Wss.WithCustomReadFunc (customReadFunc R); Wss.WithEndpoint URL;
     Wss.WithSubscriptions (imap (fun i feed => Wss.Value (Subscription (n_uuid N i) "sub" (feed +:+ "@ticker")%string)) feeds);
     Wss.WithProxyUrl (fc_Proxy config)].

Definition handleMessage : handler := fun E FeedMap message =>
  if has_key "ping" message then
    with_struct Heartbeat message (fun h => Some (reply E (HeartbeatResonse (str "Ping" h) (str "Time" h))))
  else if negb (has_key "data" message) then Some ignored
  else with_struct Response message (fun raw => Some (send (ResponseToFeedData raw FeedMap))).
End bingx.

Module bitmart.
Definition URL : string := "wss://ws-manager-compress.bitmart.com/api?protocol=1.1".
Definition Subscription (operation : string) (args : list string) : json := JObj [("op", JStr operation); ("args", JStrs args)].
Definition Response : ty := TStruct
  [("Table", "table", TString);
   ("Data", "data", TSlice (TStruct
     [("Price", "last_price", TString); ("Symbol", "symbol", TString); ("Volume", "base_volume_24h", TString); ("Time", "ms_t", TInt 64)]))].

Definition tick_data (feedMap : feed_map) (data : value) : res (list FeedData) :=
  let? ids := lookup_ids feedMap (ReplaceAll (str "Symbol" data) "_"%char "-") in
  let? value := PriceStringToFloat64 (str "Price" data) in
  let? volume := VolumeStringToFloat64 (str "Volume" data) in
  Ok (feed_data ids value volume (UnixMilli (int "Time" data))).
Definition ResponseToFeedData (response : value) (feedMap : feed_map) : list FeedData :=
  as_slice (fld "Data" response) ≫= fun data => ok_list (tick_data feedMap data).

Definition customReadFunc (R : Frames) : @Wss.read_func json := pongReadFunc R.
Definition New (N : NewEnv) (R : Frames) (config : FetcherConfig) (feeds : list string) : res Fetcher :=
  let args := (fun feed => "spot/ticker:" +:+ ReplaceAll feed "-"%char "_")%string <$> feeds in
  connect N (Separated (fc_FeedMaps config))
    [Wss.WithCustomReadFunc (customReadFunc R); Wss.WithEndpoint URL;
     Wss.WithSubscriptions ((fun a => Wss.Value (Subscription "subscribe" a)) <$> chunks 3 args);
     Wss.WithProxyUrl (fc_Proxy config)].

Definition handleMessage : handler := fun E FeedMap message =>
  with_struct Response message (fun response =>
    if negb (bool_decide (str "Table" response = "spot/ticker"%string)) then Some ignored
    else Some (send (Ok (ResponseToFeedData response FeedMap)))).
End bitmart.

Module xt.
Definition URL : string := "wss://stream.xt.com/public".
Definition Subscription (method : string) (params : list string) (id : string) : json :=
  JObj [("method", JStr method); ("params", JStrs params); ("id", JStr id)].
Definition Response : ty := TStruct
  [("Topic", "topic", TString); ("Event", "event", TString);
   ("Data", "data", TStruct [("Symbol", "s", TString); ("Time", "t", TInt 64); ("Price", "c", TString); ("Volume", "q", TString)])].

Definition ResponseToFeedData (response : value) (feedMap : feed_map) : res (list FeedData) :=
  let data := fld "Data" response in
  let? ids := lookup_ids feedMap (ToUpper (ReplaceAll (str "Symbol" data) "_"%char "-")) in
  let timestamp := UnixMilli (int "Time" data) in
  let? value := PriceStringToFloat64 (str "Price" data) in
  let? volume := VolumeStringToFloat64 (str "Volume" data) in
  Ok (feed_data ids value volume timestamp).

Definition customReadFunc (R : Frames) : @Wss.read_func json := pongReadFunc R.
Definition New (N : NewEnv) (R : Frames) (config : FetcherConfig) (feeds : list string) : res Fetcher :=
  connect N (Separated (fc_FeedMaps config))
    [Wss.WithCustomReadFunc (customReadFunc R); Wss.WithCompressionMode; Wss.WithEndpoint URL;
     Wss.WithSubscriptions (imap (fun i feed => Wss.Value (Subscription "subscribe"
       [("ticker@" +:+ ToLower (ReplaceAll feed "-"%char "_"))%string] (n_uuid N i))) feeds);
     Wss.WithProxyUrl (fc_Proxy config)].

(** A nil message is one without keys here, which has no topic either. *)
Definition handleMessage : handler := fun E FeedMap message =>
  match message with
  | [] => Some ignored
  | _ => with_struct Response message (fun raw =>
      if negb (bool_decide (str "Topic" raw = "ticker"%string)) then Some ignored
      else Some (send (ResponseToFeedData raw FeedMap)))
  end.
End xt.

Module gopax.
Definition URL : string := "wss://wsapi.gopax.co.kr".
Definition IncreasedReadLimit : Z := 327690.
Definition Subscription (name : string) (object : json) : json := JObj [("n", JStr name); ("o", object)].
Definition Response : ty := TStruct [("Type", "i", TInt 64); ("Name", "n", TString); ("Object", "o", TRaw)].
Definition Ticker : ty := TStruct
  [("Volume", "baseVolume", TFloat); ("Timestamp", "lastTraded", TInt 64); ("Price", "last", TFloat); ("Name", "tradingPairName", TString)].
Definition InitialResponse : ty := TStruct [("Data", "data", TSlice Ticker)].
Definition Tickers : ty := TMap Ticker.

Definition TickerToFeedData (feedMap : feed_map) (ticker : value) : res (list FeedData) :=
  let? ids := match feedMap !! str "Name" ticker with Some ids => Ok ids | None => Err ErrFetcherFeedNotFound end in
  Ok (feed_data ids (FormatFloat64Price (flt "Price" ticker)) (flt "Volume" ticker) (UnixMilli (int "Timestamp" ticker))).
Definition InitialResponseToFeedData (initialData : value) (feedMap : feed_map) : list FeedData :=
  as_slice (fld "Data" initialData) ≫= fun data => ok_list (TickerToFeedData feedMap data).

(** [json.Unmarshal] of the raw object, which fails when there is none. *)
Definition unmarshal_object (t : ty) (response : value) : res value :=
  match as_raw (fld "Object" response) with
  | Some j => match decode j t (zero t) with Ok v => Ok v | Err _ => Err (External "failed to parse response") end
  | None => Err (External "failed to parse response")
  end.

Definition New (N : NewEnv) (readFunc : @Wss.read_func json) (config : FetcherConfig) (feeds : list string) : res Fetcher :=
  connect N (Separated (fc_FeedMaps config))
    [Wss.WithEndpoint URL; Wss.WithSubscriptions [Wss.Value (Subscription "SubscribeToTickers" JNull)];
     Wss.WithProxyUrl (fc_Proxy config); Wss.WithReadLimit IncreasedReadLimit; Wss.WithCustomReadFunc readFunc].

(** The frame read, and the answer to a ping, which is written as raw text. *)
Definition ping_prefix : string := (String "034"%char "primus::ping::")%string.
Definition pong_prefix : string := (String "034"%char "primus::pong::")%string.
Definition customReadFunc (R : Frames) (l : list Wss.event) (conn : Wss.Conn_) : res (option message) * option string :=
  match conn_Read R l conn with
  | Err err => (Err err, None)
  | Ok rawResponse =>
      if HasPrefix rawResponse ping_prefix
      then (Ok None, Some (pong_prefix +:+ TrimPrefix rawResponse ping_prefix)%string)
      else match Unmarshal R rawResponse with
           | Err err => (Err err, None)
           | Ok result => (Ok (Some result), None)
           end
  end.

(** The tickers of an event are sent in the order of the map's iteration. *)
Definition handleMessage : handler := fun E FeedMap message =>
  with_struct Response message (fun response =>
    if bool_decide (str "Name" response = "SubscribeToTickers"%string) then
      match unmarshal_object InitialResponse response with
      | Err err => Some (fails err)
      | Ok initialResponse => Some (send (Ok (InitialResponseToFeedData initialResponse FeedMap)))
      end
    else if bool_decide (str "Name" response = "TickerEvent"%string) then
      match unmarshal_object Tickers response with
      | Err err => Some (fails err)
      | Ok tickers => Some (send (Ok (as_map tickers ≫= fun kv => ok_list (TickerToFeedData FeedMap kv.2))))
      end
    else Some ignored).
End gopax.

Module orangex.
Definition URL : string := "wss://api.orangex.com/ws/api/v1".
Definition Params (channels : list string) : json := JObj [("channels", JStrs channels)].
Definition Subscription (jsonRPC method : string) (params : json) (id : Z) : json :=
  JObj [("jsonrpc", JStr jsonRPC); ("method", JStr method); ("params", params); ("id", JInt id)].
Definition TickerResponse : ty := TStruct
  [("Params", "params", TStruct
     [("Data", "data", TStruct
        [("Timestamp", "timestamp", TString);
         ("Stats", "stats", TStruct
            [("Volume", "volume", TString); ("PriceChange", "price_change", TString); ("Low", "low", TString);
             ("Turnover", "turnover", TString); ("High", "high", TString)]);
         ("State", "state", TString); ("LastPrice", "last_price", TString); ("InstrumentName", "instrument_name", TString);
         ("MarkPrice", "mark_price", TString); ("BestBidPrice", "best_bid_price", TFloat); ("BestBidAmount", "best_bid_amount", TFloat);
         ("BestAskPrice", "best_ask_price", TFloat); ("BestAskAmount", "best_ask_amount", TFloat)]);
      ("Channel", "channel", TString)]);
   ("Method", "method", TString); ("JSONRPC", "jsonrpc", TString)].

Definition TickerResponseToFeedData (data : value) (feedMap : feed_map) : res (list FeedData) :=
  let data := fld "Data" (fld "Params" data) in
  match feedMap !! str "InstrumentName" data with
  | None => Ok []
  | Some ids =>
      let? value := PriceStringToFloat64 (str "LastPrice" data) in
      let? intTimestamp := parse_int (str "Timestamp" data) in
      let? volume := VolumeStringToFloat64 (str "Volume" (fld "Stats" data)) in
      Ok (feed_data ids value volume (UnixMilli intTimestamp))
  end.

(** [Marshal]: the text that [json.Marshal] makes of the subscription. *)
Definition New (N : NewEnv) (Marshal : json -> res string) (config : FetcherConfig) (feeds : list string) : res Fetcher :=
  let channels := (fun feed => "ticker." +:+ feed +:+ ".raw")%string <$> feeds in
  let? raw := Marshal (Subscription "2.0" "/public/subscribe" (Params channels) 1) in
  connect N (Separated (fc_FeedMaps config))
    [Wss.WithEndpoint URL; Wss.WithSubscriptions [Wss.Raw raw]; Wss.WithProxyUrl (fc_Proxy config)].

Definition handleMessage : handler := fun E FeedMap message =>
  with_struct TickerResponse message (fun raw =>
    if bool_decide (str "InstrumentName" (fld "Data" (fld "Params" raw)) = ""%string) then Some ignored
    else Some (send (TickerResponseToFeedData raw FeedMap))).
End orangex.
