(* ===== verification/Exchanges.v ===== *)
(** * All exchanges together

    The table of the providers' handlers, as [Init] of
    [node/pkg/websocketfetcher/app.go] lists them, and what holds of all of them:
    which data they send, when they panic, and that a subscribed symbol is
    recognised when the exchange sends it back. *)

From S2P Require Import Prelude Errors Wire Text Strings Float Reducer FeedData Util Wss Decode WsFetcher GoTime Providers ProvidersA ProvidersB ProvidersC.
From Stdlib Require Import Ascii.
Import Text Strings Float Reducer FeedData Decode Common Provider.

Local Open Scope Z_scope.
Local Open Scope go_scope.

Module Exchanges.

(** Which of the two feed maps a provider takes. *)
Inductive keys : Type := ByCombined | BySeparated.
Definition map_of (k : keys) : FeedMaps -> feed_map := match k with ByCombined => Combined | BySeparated => Separated end.

(** [cexFactories] of [Init], with the handler and the map of each provider. *)
Definition cexFactories : list (string * keys * handler) :=
  [("binance", ByCombined, binance.handleMessage);
   ("coinbase", BySeparated, coinbase.handleMessage);
   ("coinone", BySeparated, coinone.handleMessage);
   ("korbit", BySeparated, korbit.handleMessage);
   ("kucoin", BySeparated, kucoin.handleMessage);
   ("bybit", ByCombined, bybit.handleMessage);
   ("upbit", BySeparated, upbit.handleMessage);
   ("crypto", BySeparated, crypto.handleMessage);
   ("btse", BySeparated, btse.handleMessage);
   ("bithumb", BySeparated, bithumb.handleMessage);
   ("gateio", BySeparated, gateio.handleMessage);
   ("coinex", ByCombined, coinex.handleMessage);
   ("huobi", ByCombined, huobi.handleMessage);
   ("mexc", ByCombined, mexc.handleMessage);
   ("bitstamp", ByCombined, bitstamp.handleMessage);
   ("gemini", ByCombined, gemini.handleMessage);
   ("lbank", BySeparated, lbank.handleMessage);
   ("bitget", ByCombined, bitget.handleMessage);
   ("okx", BySeparated, okx.handleMessage);
   ("kraken", BySeparated, kraken.handleMessage);
   ("bingx", BySeparated, bingx.handleMessage);
   ("bitmart", BySeparated, bitmart.handleMessage);
   ("xt", BySeparated, xt.handleMessage);
   ("gopax", BySeparated, gopax.handleMessage);
   ("orangex", BySeparated, orangex.handleMessage)]%string.

(** ** Soundness of each handler *)
Definition safe (h : handler) : Prop := forall E m msg o, h E m msg = Some o -> from_map m (sent o).
Definition total (h : handler) : Prop := forall E m msg, h E m msg <> None.

Lemma safe_ignored m : from_map m (sent ignored).
Proof. apply from_map_nil. Qed.
Lemma safe_fails m e : from_map m (sent (fails e)).
Proof. apply from_map_nil. Qed.
Lemma safe_reply m E j : from_map m (sent (reply E j)).
Proof. apply from_map_nil. Qed.
Lemma safe_send m r : (forall l, r = Ok l -> from_map m l) -> from_map m (sent (send r)).
Proof. intros H. destruct r; [by apply H|apply from_map_nil]. Qed.
Lemma safe_ok_list m r : (forall l, r = Ok l -> from_map m l) -> from_map m (ok_list r).
Proof. intros H. destruct r; [by apply H|apply from_map_nil]. Qed.

(** A converter's result: unfold the chain of reads down to the data it makes. *)
Ltac conv :=
  let H := fresh "H" in intros ? H;
  repeat (first [apply res_bind_Ok in H as (? & ? & H)
                | progress simplify_eq/=
                | case_match; simplify_eq/=]);
  eauto using from_map_nil, from_map_feed_data, from_map_cached_data, lookup_ids_Ok.
(** A handler: its branches. *)
Ltac handle :=
  intros E m msg o; unfold with_struct;
  repeat case_match; intros; simplify_eq/=;
  eauto using safe_ignored, safe_fails, safe_reply.

Lemma binance_safe : safe binance.handleMessage.
Proof. unfold binance.handleMessage. handle. apply safe_send. unfold binance.TickerToFeedData. conv. Qed.
Lemma coinbase_safe : safe coinbase.handleMessage.
Proof. unfold coinbase.handleMessage. handle. apply safe_send. unfold coinbase.TickerToFeedData. conv. Qed.
Lemma coinone_safe : safe coinone.handleMessage.
Proof. unfold coinone.handleMessage. handle. apply safe_send. unfold coinone.DataToFeedData. conv. Qed.
Lemma korbit_safe : safe korbit.handleMessage.
Proof. unfold korbit.handleMessage. handle. apply safe_send. unfold korbit.DataToFeedData. conv. Qed.
Lemma kucoin_safe : safe kucoin.handleMessage.
Proof. unfold kucoin.handleMessage. handle. apply safe_send. unfold kucoin.RawDataToFeedData. conv. Qed.
Lemma gateio_safe : safe gateio.handleMessage.
Proof. unfold gateio.handleMessage. handle. apply safe_send. unfold gateio.ResponseToFeedData. conv. Qed.
Lemma crypto_safe : safe crypto.handleMessage.
Proof.
  unfold crypto.handleMessage. handle. unfold crypto.ResponseToFeedDataList. simpl. apply from_map_bind. intros x. apply safe_ok_list. unfold crypto.tick_data. conv.
Qed.
Lemma btse_safe : safe btse.handleMessage.
Proof.
  unfold btse.handleMessage. handle. unfold btse.ResponseToFeedDataList. simpl. apply from_map_bind. intros x. apply safe_ok_list. unfold btse.trade_data. conv.
Qed.
Lemma coinex_safe : safe coinex.handleMessage.
Proof.
  unfold coinex.handleMessage. handle. unfold coinex.ResponseToFeedDataList. simpl. apply from_map_bind. intros x. apply safe_ok_list. unfold coinex.state_data. conv.
Qed.
Lemma huobi_safe : safe huobi.handleMessage.
Proof. unfold huobi.handleMessage. handle. apply safe_send. unfold huobi.ResponseToFeedData. conv. Qed.
Lemma bitstamp_safe : safe bitstamp.handleMessage.
Proof. unfold bitstamp.handleMessage. handle. apply safe_send. unfold bitstamp.TradeEventToFeedData. conv. Qed.
Lemma lbank_safe : safe lbank.handleMessage.
Proof. unfold lbank.handleMessage. handle. apply safe_send. unfold lbank.ResponseToFeedData. conv. Qed.
Lemma bitget_safe : safe bitget.handleMessage.
Proof.
  unfold bitget.handleMessage. handle. unfold bitget.ResponseToFeedDataList. simpl. apply from_map_bind. intros x. apply safe_ok_list. unfold bitget.tick_data. conv.
Qed.
Lemma okx_safe : safe okx.handleMessage.
Proof.
  unfold okx.handleMessage. handle. unfold okx.ResponseToFeedData. simpl. apply from_map_bind. intros x. apply safe_ok_list. unfold okx.tick_data. conv.
Qed.
Lemma kraken_safe : safe kraken.handleMessage.
Proof.
  unfold kraken.handleMessage. handle. unfold kraken.ResponseToFeedData. simpl. apply from_map_bind. intros x. apply safe_ok_list. unfold kraken.tick_data. conv.
Qed.
Lemma bingx_safe : safe bingx.handleMessage.
Proof. unfold bingx.handleMessage. handle. apply safe_send. unfold bingx.ResponseToFeedData. conv. Qed.
Lemma bitmart_safe : safe bitmart.handleMessage.
Proof.
  unfold bitmart.handleMessage. handle. unfold bitmart.ResponseToFeedData. simpl. apply from_map_bind. intros x. apply safe_ok_list. unfold bitmart.tick_data. conv.
Qed.
Lemma xt_safe : safe xt.handleMessage.
Proof. unfold xt.handleMessage. handle. apply safe_send. unfold xt.ResponseToFeedData. conv. Qed.
Lemma orangex_safe : safe orangex.handleMessage.
Proof. unfold orangex.handleMessage. handle. apply safe_send. unfold orangex.TickerResponseToFeedData. conv. Qed.
Lemma mexc_safe : safe mexc.handleMessage.
Proof.
  unfold mexc.handleMessage. handle. apply safe_send. unfold mexc.ResponseToFeedDataList.
  generalize (as_slice (fld "Data" a)) as items. induction items as [|item items IH]; intros l; simpl.
  { intros [= <-]. apply from_map_nil. }
  destruct (m !! str "Symbol" item) as [ids|] eqn:Hk; [|apply IH].
  intros (v & _ & (vol & _ & (rest & Hr & Hl)%res_bind_Ok)%res_bind_Ok)%res_bind_Ok. simplify_eq.
  eauto using from_map_app, from_map_feed_data.
Qed.
Lemma gopax_safe : safe gopax.handleMessage.
Proof.
  unfold gopax.handleMessage. handle.
  all: unfold gopax.InitialResponseToFeedData; apply from_map_bind; intros x; apply safe_ok_list;
    unfold gopax.TickerToFeedData; conv.
Qed.
Lemma bybit_safe : safe bybit.handleMessage.
Proof.
  unfold bybit.handleMessage. handle. unfold bybit.ResponseToFeedData in *.
  destruct (lookup_ids _ _) eqn:?; simplify_eq/=; [|apply from_map_nil].
  destruct (ref (fld "Timestamp" _)); simplify_eq/=. apply safe_send. conv.
Qed.
Lemma upbit_safe : safe upbit.handleMessage.
Proof.
  unfold upbit.handleMessage. handle. unfold upbit.ResponseToFeedData in *.
  destruct (Split _ _) as [|? [|? ?]]; simplify_eq/=. apply safe_send. conv.
Qed.
Lemma bithumb_safe : safe bithumb.handleMessage.
Proof.
  unfold bithumb.handleMessage. handle. unfold bithumb.TickerResponseToFeedData in *.
  destruct (Split _ _) as [|? [|? ?]]; simplify_eq/=. apply safe_send. conv.
Qed.
Lemma gemini_safe : safe gemini.handleMessage.
Proof.
  unfold gemini.handleMessage. handle. unfold gemini.TradeResponseToFeedDataList in *.
  destruct (ref _); simplify_eq/=. apply from_map_bind. intros x. apply safe_ok_list. unfold gemini.event_data. conv.
Qed.

Lemma all_safe name k h : (name, k, h) ∈ cexFactories -> safe h.
Proof.
  unfold cexFactories. intros Hin. repeat (apply elem_of_cons in Hin as [[= -> -> ->]|Hin]);
    [apply binance_safe|apply coinbase_safe|apply coinone_safe|apply korbit_safe|apply kucoin_safe|apply bybit_safe
    |apply upbit_safe|apply crypto_safe|apply btse_safe|apply bithumb_safe|apply gateio_safe|apply coinex_safe
    |apply huobi_safe|apply mexc_safe|apply bitstamp_safe|apply gemini_safe|apply lbank_safe|apply bitget_safe
    |apply okx_safe|apply kraken_safe|apply bingx_safe|apply bitmart_safe|apply xt_safe|apply gopax_safe
    |apply orangex_safe|by apply elem_of_nil in Hin].
Qed.

(** ** What reaches the feeds *)
Lemma ids_for_elem name p key feeds i :
  i ∈ ids_for name p key feeds -> exists f b q, f ∈ feeds /\ fd_ID f = i /\ definition_of f = Ok (p, b, q).
Proof.
  unfold ids_for. intros (f & Hf & Hi)%list_elem_of_omap. destruct (definition_of f) as [[[p' b] q]|] eqn:Hd; [|done].
  case_bool_decide as Hk; [|done]. destruct Hk as [-> _]. simplify_eq. eauto 10.
Qed.
Lemma feed_map_ids k name feeds maps key ids i :
  GetWssFeedMap feeds !! name = Some maps -> map_of k maps !! key = Some ids -> i ∈ ids ->
  exists f b q, f ∈ feeds /\ fd_ID f = i /\ definition_of f = Ok (name, b, q).
Proof.
  intros Hm Hk Hi. destruct (feed_maps_exact_lemma feeds name key) as [Hc Hs]. rewrite Hm in Hc, Hs. simpl in Hc, Hs.
  destruct k; simpl in Hk; [rewrite Hk in Hc|rewrite Hk in Hs].
  - destruct (ids_for combinedName name key feeds) eqn:He; [done|]. simplify_eq/=. rewrite <- He in Hi. by eapply ids_for_elem.
  - destruct (ids_for separatedName name key feeds) eqn:He; [done|]. simplify_eq/=. rewrite <- He in Hi. by eapply ids_for_elem.
Qed.

Lemma from_map_elem m l d :
  from_map m l -> d ∈ l -> timed d /\ exists key ids, m !! key = Some ids /\ FeedID d ∈ ids /\
    forall i, i ∈ ids -> exists d', d' ∈ l /\ FeedID d' = i /\ Value d' = Value d /\ Timestamp d' = Timestamp d.
Proof.
  intros (groups & -> & Hg) ([key g] & Hd & Hin)%list_elem_of_bind.
  rewrite Forall_forall in Hg. destruct (Hg _ Hin) as (ids & v & t & Hk & Hi & Hall). simpl in *.
  rewrite Forall_forall in Hall. destruct (Hall _ Hd) as [Hv Ht]. split; [by exists t|]. exists key, ids.
  split_and!; [done|subst ids; by apply list_elem_of_fmap_2|]. intros i. subst ids.
  intros (d' & -> & Hd')%list_elem_of_fmap. exists d'. destruct (Hall _ Hd') as [Hv' Ht'].
  split_and!; [|done|congruence|congruence]. apply list_elem_of_bind. by exists (key, g).
Qed.

(** C11: Whatever an exchange sends, the data its provider puts into the buffer is
    only for feeds whose definition names this exchange; it always has a time, so
    that the table can take it; and when one feed of a symbol gets data, every feed
    of the symbol does, with the same value and time. *)
Theorem exchange_data_sound name k h feeds maps E msg o :
  (name, k, h) ∈ cexFactories -> GetWssFeedMap feeds !! name = Some maps ->
  h E (map_of k maps) msg = Some o ->
  forall d, d ∈ sent o ->
    timed d /\
    (exists f b q, f ∈ feeds /\ fd_ID f = FeedID d /\ definition_of f = Ok (name, b, q)) /\
    exists key ids, map_of k maps !! key = Some ids /\ FeedID d ∈ ids /\
      forall i, i ∈ ids -> exists d', d' ∈ sent o /\ FeedID d' = i /\ Value d' = Value d /\ Timestamp d' = Timestamp d.
Proof.
  intros Hh Hm Ho d Hd. pose proof (all_safe _ _ _ Hh _ _ _ _ Ho) as Hs.
  destruct (from_map_elem _ _ _ Hs Hd) as (Ht & key & ids & Hk & Hi & Hall).
  split_and!; [done|by eapply feed_map_ids|by exists key, ids].
Qed.

(** ** Panics *)
Lemma split_parts s c : (exists a b l, Split s c = a :: b :: l) <-> c ∈ chars s.
Proof.
  unfold Split. split.
  - intros (a & b & l & H). destruct (decide (c ∈ chars s)) as [|Hn]; [done|]. by rewrite split_loop_none in H.
  - generalize (@nil ascii). induction (chars s) as [|x l IH]; intros part; [by intros ?%elem_of_nil|]. simpl.
    destruct (Ascii.eqb_spec x c) as [->|Hne]; [|intros [?|Hl]%elem_of_cons; [done|by apply IH]]. intros _.
    destruct (split_loop c [] l) as [|y ys] eqn:Hy; [by destruct (split_loop_sep c [] l)|]. simpl. eauto.
Qed.

(** When the handler of a provider dereferences a nil pointer or takes a part
    that is not there. *)
Definition panics (name : string) (m : feed_map) (msg : message) : Prop :=
  (name = "upbit"%string /\ exists v, MessageToStruct upbit.Response msg = Ok v /\ "-"%char ∉ chars (str "Code" v)) \/
  (name = "bithumb"%string /\ exists r v, MessageToStruct bithumb.RawResponse msg = Ok r /\ str "Type" r = "ticker"%string /\
     MessageToStruct bithumb.TickerResponse msg = Ok v /\ "_"%char ∉ chars (str "Symbol" (fld "Content" v))) \/
  (name = "bybit"%string /\ exists v topic, MessageToStruct bybit.Response msg = Ok v /\ ref (fld "Topic" v) = Some topic /\
     HasPrefix (as_str topic) "tickers." = true /\ is_Some (m !! str "Symbol" (fld "Data" v)) /\ ref (fld "Timestamp" v) = None) \/
  (name = "gemini"%string /\ exists v, MessageToStruct gemini.Response msg = Ok v /\ str "Type" v = "update"%string /\
     as_slice (fld "Events" v) <> [] /\ ref (fld "TimestampMs" v) = None).

Lemma upbit_panics E m msg :
  upbit.handleMessage E m msg = None <-> exists v, MessageToStruct upbit.Response msg = Ok v /\ "-"%char ∉ chars (str "Code" v).
Proof.
  unfold upbit.handleMessage, with_struct. destruct (MessageToStruct _ _) as [v|]; [|naive_solver].
  unfold upbit.ResponseToFeedData. split.
  - intros H0. exists v. split; [done|]. rewrite <- split_parts. destruct (Split _ _) as [|a [|b l]]; naive_solver.
  - intros (? & [= <-] & Hn). rewrite <- split_parts in Hn. destruct (Split _ _) as [|a [|b l]]; naive_solver.
Qed.
Lemma bithumb_panics E m msg :
  bithumb.handleMessage E m msg = None <-> exists r v, MessageToStruct bithumb.RawResponse msg = Ok r /\
    str "Type" r = "ticker"%string /\ MessageToStruct bithumb.TickerResponse msg = Ok v /\
    "_"%char ∉ chars (str "Symbol" (fld "Content" v)).
Proof.
  unfold bithumb.handleMessage, with_struct. destruct (MessageToStruct bithumb.RawResponse msg) as [r|]; [|naive_solver].
  case_bool_decide; simpl; [|naive_solver].
  destruct (MessageToStruct bithumb.TickerResponse msg) as [v|]; [|naive_solver].
  unfold bithumb.TickerResponseToFeedData. split.
  - intros H0. exists r, v. split_and!; [done..|]. rewrite <- split_parts. destruct (Split _ _) as [|a [|b l]]; naive_solver.
  - intros (? & ? & [= <-] & _ & [= <-] & Hn). rewrite <- split_parts in Hn. destruct (Split _ _) as [|a [|b l]]; naive_solver.
Qed.
Lemma bybit_panics E m msg :
  bybit.handleMessage E m msg = None <-> exists v topic, MessageToStruct bybit.Response msg = Ok v /\
    ref (fld "Topic" v) = Some topic /\ HasPrefix (as_str topic) "tickers." = true /\
    is_Some (m !! str "Symbol" (fld "Data" v)) /\ ref (fld "Timestamp" v) = None.
Proof.
  unfold bybit.handleMessage, with_struct. destruct (MessageToStruct _ _) as [v|]; [|naive_solver].
  destruct (ref (fld "Topic" v)) as [topic|] eqn:Ht.
  2:{ split; [done|]. intros (? & ? & [= <-] & ? & _). congruence. }
  destruct (HasPrefix (as_str topic) "tickers.") eqn:Hp; simpl.
  2:{ split; [done|]. intros (? & ? & [= <-] & ? & ? & _). congruence. }
  unfold bybit.ResponseToFeedData, lookup_ids. destruct (m !! _) eqn:Hk.
  - destruct (ref (fld "Timestamp" v)) eqn:Hts; simpl.
    { split; [done|]. intros (? & ? & [= <-] & _ & _ & _ & ?). congruence. }
    split; [|done]. intros _.
    exists v, topic. rewrite Hk. eauto 10.
  - split; [done|]. intros (? & ? & [= <-] & _ & _ & [? ?] & _). congruence.
Qed.
Lemma gemini_panics E m msg :
  gemini.handleMessage E m msg = None <-> exists v, MessageToStruct gemini.Response msg = Ok v /\ str "Type" v = "update"%string /\
    as_slice (fld "Events" v) <> [] /\ ref (fld "TimestampMs" v) = None.
Proof.
  unfold gemini.handleMessage, with_struct. destruct (MessageToStruct _ _) as [v|]; [|naive_solver].
  case_bool_decide; simpl; [|naive_solver].
  case_bool_decide as Hl; [apply length_zero_iff_nil in Hl; naive_solver|].
  assert (as_slice (fld "Events" v) <> []) by (intros He; by rewrite He in Hl).
  unfold gemini.TradeResponseToFeedDataList. destruct (ref _) eqn:Hr; simpl.
  - split; [done|]. intros (? & [= <-] & _ & _ & ?). congruence.
  - split; [|done]. intros _. by exists v.
Qed.

Lemma others_total name k h :
  (name, k, h) ∈ cexFactories -> name ∉ ["upbit"; "bithumb"; "bybit"; "gemini"]%string -> total h.
Proof.
  unfold cexFactories. intros Hin Hn E m msg.
  repeat (apply elem_of_cons in Hin as [[= -> -> ->]|Hin];
    [first [exfalso; apply Hn; solve [repeat first [left|right]]
           |match goal with |- ?h E m msg <> None => unfold h end; unfold with_struct; repeat case_match; done]|]).
  by apply elem_of_nil in Hin.
Qed.

(** C31: A message makes a provider's handler panic, which ends the process, in
    exactly these cases: an upbit message whose code has no dash, a bithumb ticker
    whose symbol has no underscore, a bybit ticker of a known symbol without a
    timestamp, and a gemini update with events but without a timestamp.  The
    handlers of all other exchanges never panic. *)
Theorem handler_panics_iff name k h E m msg :
  (name, k, h) ∈ cexFactories -> (h E m msg = None <-> panics name m msg).
Proof.
  intros Hin. destruct (decide (name ∈ ["upbit"; "bithumb"; "bybit"; "gemini"]%string)) as [Hp|Hn].
  - unfold cexFactories in Hin. unfold panics.
    repeat (apply elem_of_cons in Hin as [[= -> -> ->]|Hin];
      [first [exfalso; revert Hp; apply (bool_decide_eq_false_1 (_ ∈ _)); reflexivity
             |rewrite ?upbit_panics, ?bithumb_panics, ?bybit_panics, ?gemini_panics; naive_solver]|]).
    by apply elem_of_nil in Hin.
  - split; [by intros ?%(others_total _ _ _ Hin Hn)|]. unfold panics. set_solver.
Qed.

(** ** Symbols there and back *)
Lemma upper_lower_upper c : upper (lower (upper c)) = upper c.
Proof. destruct c as [[] [] [] [] [] [] [] []]; reflexivity. Qed.
Lemma upper_sep c d : d ∈ ["-"; "_"; "/"]%char -> upper c = d -> c = d.
Proof. destruct c as [[] [] [] [] [] [] [] []]; set_solver. Qed.
Lemma lower_sep c d : d ∈ ["-"; "_"; "/"]%char -> lower c = d -> c = d.
Proof. destruct c as [[] [] [] [] [] [] [] []]; set_solver. Qed.
Lemma ToUpper_ToLower s : ToUpper (ToLower (ToUpper s)) = ToUpper s.
Proof.
  unfold ToUpper, ToLower. rewrite !chars_text, <- !list_fmap_compose. f_equal. apply list_fmap_ext.
  intros _ c _. apply upper_lower_upper.
Qed.

(** Names of currencies without separators. *)
Definition plain (s : string) : Prop := forall d, d ∈ ["-"; "_"; "/"]%char -> d ∉ chars s.
Lemma plain_upper s : plain s -> plain (ToUpper s).
Proof.
  intros Hs d Hd. unfold ToUpper. rewrite chars_text. intros (c & Hc & Hin)%list_elem_of_fmap. symmetry in Hc.
  apply upper_sep in Hc; [|done]. subst d. by apply (Hs c).
Qed.
Lemma plain_lower s : plain s -> plain (ToLower s).
Proof.
  intros Hs d Hd. unfold ToLower. rewrite chars_text. intros (c & Hc & Hin)%list_elem_of_fmap. symmetry in Hc.
  apply lower_sep in Hc; [|done]. subst d. by apply (Hs c).
Qed.

Lemma text_app a b : text (a ++ b) = (text a +:+ text b)%string.
Proof. induction a as [|c a IH]; [done|]. simpl. by rewrite IH. Qed.
Lemma ReplaceAll_join a b c d : c ∉ chars a -> c ∉ chars b ->
  ReplaceAll (a +:+ String c b) c (String d "") = (a +:+ String d b)%string.
Proof.
  intros Ha Hb. unfold ReplaceAll. rewrite chars_app, bind_app, text_app.
  assert (forall s, c ∉ chars s -> text (chars s ≫= (fun x => if Ascii.eqb x c then chars (String d "") else [x])) = s) as Hn
    by (intros s Hs; by apply (ReplaceAll_none s c (String d ""))).
  rewrite Hn by done. f_equal. change (chars (String c b)) with (c :: chars b). rewrite bind_cons, text_app, Hn by done.
  by rewrite Ascii.eqb_refl.
Qed.
Lemma ToLower_join a b d : d ∈ ["-"; "_"; "/"]%char ->
  ToLower (a +:+ String d b) = (ToLower a +:+ String d (ToLower b))%string.
Proof.
  intros Hd. unfold ToLower. rewrite chars_app, fmap_app, text_app. f_equal.
  assert (lower d = d) by (revert Hd; destruct d as [[] [] [] [] [] [] [] []]; set_solver). simpl. by f_equal.
Qed.
Lemma ToUpper_join a b d : d ∈ ["-"; "_"; "/"]%char ->
  ToUpper (a +:+ String d b) = (ToUpper a +:+ String d (ToUpper b))%string.
Proof.
  intros Hd. unfold ToUpper. rewrite chars_app, fmap_app, text_app. f_equal.
  assert (upper d = d) by (revert Hd; destruct d as [[] [] [] [] [] [] [] []]; set_solver). simpl. by f_equal.
Qed.
Lemma Replace1_join a b c d : c ∉ chars a -> Replace1 (a +:+ String c b) c (String d "") = (a +:+ String d b)%string.
Proof.
  intros Ha. unfold Replace1. rewrite chars_app. change (chars (String c b)) with (c :: chars b).
  assert (forall l, c ∉ l -> replace_first (l ++ c :: chars b) c [d] = l ++ d :: chars b) as Hr.
  { induction l as [|x l IH]; simpl; [by rewrite Ascii.eqb_refl|]. intros Hl.
    destruct (Ascii.eqb_spec x c) as [->|]; [set_solver|]. rewrite IH by set_solver. done. }
  change (chars (String d "")) with [d]. rewrite Hr by done. rewrite text_app, text_chars. f_equal. simpl. by rewrite text_chars.
Qed.

(** What the converters of nine providers make of a symbol that the exchange sends
    back, with fields that can be read: data for exactly the feeds [ids]. *)
Definition upbit_reads (m : feed_map) (symbol : string) (ids : list int32) : Prop :=
  forall v, str "Code" v = symbol -> exists l, upbit.ResponseToFeedData v m = Some (Ok l) /\ FeedID <$> l = ids.
Definition korbit_reads (m : feed_map) (symbol : string) (ids : list int32) : Prop :=
  forall v p vol, str "CurrencyPair" v = symbol ->
    PriceStringToFloat64 (str "Last" v) = Ok p -> VolumeStringToFloat64 (str "Volume" v) = Ok vol ->
    exists l, korbit.DataToFeedData v m = Ok l /\ FeedID <$> l = ids.
Definition crypto_reads (m : feed_map) (symbol : string) (ids : list int32) : Prop :=
  forall v price p vol, str "InstrumentName" v = symbol -> ref (fld "LastTradePrice" v) = Some price ->
    PriceStringToFloat64 (as_str price) = Ok p -> VolumeStringToFloat64 (str "Total24hTradeVolume" v) = Ok vol ->
    exists l, crypto.tick_data m v = Ok l /\ FeedID <$> l = ids.
Definition bithumb_reads (m : feed_map) (symbol : string) (ids : list int32) : Prop :=
  forall v d c p vol, str "Symbol" (fld "Content" v) = symbol ->
    GoTime.ParseDate (str "Date" (fld "Content" v)) = Some d -> GoTime.ParseClock (str "Time" (fld "Content" v)) = Some c ->
    PriceStringToFloat64 (str "ClosePrice" (fld "Content" v)) = Ok p ->
    VolumeStringToFloat64 (str "Volume" (fld "Content" v)) = Ok vol ->
    exists l, bithumb.TickerResponseToFeedData v m = Some (Ok l) /\ FeedID <$> l = ids.
Definition gateio_reads (m : feed_map) (symbol : string) (ids : list int32) : Prop :=
  forall v p vol, str "CurrencyPair" (fld "Result" v) = symbol ->
    PriceStringToFloat64 (str "Last" (fld "Result" v)) = Ok p -> VolumeStringToFloat64 (str "BaseVolume" (fld "Result" v)) = Ok vol ->
    exists l, gateio.ResponseToFeedData v m = Ok l /\ FeedID <$> l = ids.
Definition lbank_reads (m : feed_map) (symbol : string) (ids : list int32) : Prop :=
  forall v t, str "Pair" v = symbol -> GoTime.ParseMillis GoTime.Shanghai (str "TS" v) = Some t ->
    exists l, lbank.ResponseToFeedData v m = Ok l /\ FeedID <$> l = ids.
Definition kraken_reads (m : feed_map) (symbol : string) (ids : list int32) : Prop :=
  forall now_ v, str "Symbol" v = symbol -> exists l, kraken.tick_data now_ m v = Ok l /\ FeedID <$> l = ids.
Definition bitmart_reads (m : feed_map) (symbol : string) (ids : list int32) : Prop :=
  forall v p vol, str "Symbol" v = symbol ->
    PriceStringToFloat64 (str "Price" v) = Ok p -> VolumeStringToFloat64 (str "Volume" v) = Ok vol ->
    exists l, bitmart.tick_data m v = Ok l /\ FeedID <$> l = ids.
Definition xt_reads (m : feed_map) (symbol : string) (ids : list int32) : Prop :=
  forall v p vol, str "Symbol" (fld "Data" v) = symbol ->
    PriceStringToFloat64 (str "Price" (fld "Data" v)) = Ok p -> VolumeStringToFloat64 (str "Volume" (fld "Data" v)) = Ok vol ->
    exists l, xt.ResponseToFeedData v m = Ok l /\ FeedID <$> l = ids.

(** The symbols of a pair, by its key in the feed map. *)
Definition all_read (m : feed_map) (key : string) (ids : list int32) : Prop :=
  (exists code, upbit.codes_of [key] = Some [code] /\ upbit_reads m code ids) /\
  korbit_reads m (ToLower (ReplaceAll key "-"%char "_")) ids /\
  crypto_reads m (ReplaceAll key "-"%char "_") ids /\
  bithumb_reads m (ReplaceAll key "-"%char "_") ids /\
  gateio_reads m (ReplaceAll key "-"%char "_") ids /\
  lbank_reads m (ToLower (ReplaceAll key "-"%char "_")) ids /\
  kraken_reads m (ReplaceAll key "-"%char "/") ids /\
  bitmart_reads m (ReplaceAll key "-"%char "_") ids /\
  xt_reads m (ToLower (ReplaceAll key "-"%char "_")) ids.

(** What [New] of the providers subscribes to for the feeds of a pair, and the
    pair's key in the feed map. *)
Section symbols.
Variables (b q : string).
Hypotheses (Hb : plain b) (Hq : plain q).
Let key : string := separatedName (ToUpper b) (ToUpper q).

Lemma key_sep d : d ∈ ["-"; "_"; "/"]%char ->
  ReplaceAll key "-"%char (String d "") = (ToUpper b +:+ String d (ToUpper q))%string /\
  ReplaceAll (ReplaceAll key "-"%char (String d "")) d "-" = key.
Proof.
  intros Hd. pose proof (plain_upper _ Hb) as Hub. pose proof (plain_upper _ Hq) as Huq.
  assert (ReplaceAll key "-"%char (String d "") = (ToUpper b +:+ String d (ToUpper q))%string) as Heq
    by (apply ReplaceAll_join; [apply Hub|apply Huq]; left).
  split; [done|]. rewrite Heq. apply ReplaceAll_join; [by apply Hub|by apply Huq].
Qed.
Lemma key_lower : ToLower (ReplaceAll key "-"%char "_") = (ToLower (ToUpper b) +:+ String "_" (ToLower (ToUpper q)))%string.
Proof. rewrite (proj1 (key_sep "_"%char ltac:(set_solver))). apply ToLower_join. set_solver. Qed.
Lemma key_upper : ToUpper (ReplaceAll (ToLower (ReplaceAll key "-"%char "_")) "_"%char "-") = key.
Proof.
  rewrite key_lower, ReplaceAll_join by (apply plain_lower; [by apply plain_upper|set_solver]).
  rewrite ToUpper_join by set_solver. by rewrite !ToUpper_ToLower.
Qed.
Lemma key_split : Split (ReplaceAll key "-"%char "_") "_"%char = [ToUpper b; ToUpper q] /\
  Split (ToLower (ReplaceAll key "-"%char "_")) "_"%char = [ToLower (ToUpper b); ToLower (ToUpper q)] /\
  Split key "-"%char = [ToUpper b; ToUpper q].
Proof.
  rewrite key_lower, (proj1 (key_sep "_"%char ltac:(set_solver))).
  split_and!; apply Split_join2; try (apply plain_lower; [by apply plain_upper|set_solver]);
    try (apply plain_upper; [done|set_solver]).
Qed.

Lemma pair_read m ids : m !! key = Some ids -> all_read m key ids.
Proof.
  intros Hk. assert (lookup_ids m key = Ok ids) as Hl by (unfold lookup_ids; by rewrite Hk).
  destruct key_split as (Hs1 & Hs2 & Hs3).
  assert (forall value volume t, FeedID <$> feed_data ids value volume t = ids) as Hid
    by (intros; unfold feed_data; rewrite <- list_fmap_compose; apply list_fmap_id).
  assert ((ToUpper b +:+ "-" +:+ ToUpper q)%string = key) as Hkey by done.
  split_and!.
  - simpl. rewrite Hs3. eexists. split; [done|]. intros v Hv. unfold upbit.ResponseToFeedData. rewrite Hv.
    assert (Split (ToUpper (ToUpper q) +:+ "-" +:+ ToUpper (ToUpper b)) "-"%char = [ToUpper (ToUpper q); ToUpper (ToUpper b)]) as ->
      by (apply Split_join2; apply plain_upper; try (by apply plain_upper); set_solver).
    assert (forall s, ToUpper (ToUpper s) = ToUpper s) as Hup.
    { intros s. unfold ToUpper. rewrite chars_text, <- list_fmap_compose. f_equal. apply list_fmap_ext. intros _ c _.
      simpl. by destruct c as [[] [] [] [] [] [] [] []]. }
    rewrite !Hup, Hkey, Hl. simpl. eauto.
  - intros v p vol Hv Hp Hvol. unfold korbit.DataToFeedData. rewrite Hp, Hvol. simpl. rewrite Hv, Hs2, !ToUpper_ToLower, Hkey, Hl. simpl. eauto.
  - intros v price p vol Hv Hr Hp Hvol. unfold crypto.tick_data. rewrite Hr, Hp, Hvol. simpl. rewrite Hv, Hs1, Hkey, Hl. simpl. eauto.
  - intros v d [c ns] p vol Hv Hd Hc Hp Hvol. unfold bithumb.TickerResponseToFeedData.
    rewrite Hv, Hs1, Hkey, Hl, Hd, Hc. simpl. rewrite Hp, Hvol. simpl. eauto.
  - intros v p vol Hv Hp Hvol. unfold gateio.ResponseToFeedData. rewrite Hp, Hvol. simpl.
    rewrite Hv, (proj1 (key_sep "_"%char ltac:(set_solver))), Replace1_join by (apply plain_upper; [done|set_solver]).
    change (ToUpper b +:+ String "-" (ToUpper q))%string with key. rewrite Hl. simpl. eauto.
  - intros v t Hv Ht. unfold lbank.ResponseToFeedData. rewrite Ht. simpl. rewrite Hv, key_upper, Hl. simpl. eauto.
  - intros now_ v Hv. unfold kraken.tick_data. rewrite Hv, (proj2 (key_sep "/"%char ltac:(set_solver))), Hl. simpl. eauto.
  - intros v p vol Hv Hp Hvol. unfold bitmart.tick_data. rewrite Hv, (proj2 (key_sep "_"%char ltac:(set_solver))), Hl, Hp, Hvol. simpl. eauto.
  - intros v p vol Hv Hp Hvol. unfold xt.ResponseToFeedData. rewrite Hv, key_upper, Hl, Hp, Hvol. simpl. eauto.
Qed.
End symbols.

(** *** The symbols of a client's subscriptions *)
Inductive place : Type := Key (k : string) | Items.
Fixpoint at_path (path : list place) (j : json) : list json :=
  match path, j with
  | [], _ => [j]
  | Key k :: path, JObj m => match list_find (fun kv => kv.1 = k) m with Some (_, (_, j)) => at_path path j | None => [] end
  | Items :: path, JArr l => l ≫= at_path path
  | _, _ => []
  end.
Definition texts (l : list json) : list string := omap (fun j => match j with JStr s => Some s | _ => None end) l.
(** The texts at a place of all subscriptions that a client sends. *)
Definition asked (path : list place) (subs : list Wss.subscription) : list string :=
  subs ≫= fun s => match s with Wss.Value j => texts (at_path path j) | _ => [] end.

(** The client that [New] makes for the feeds of some pairs asks, at [path] of its
    subscriptions and written as [put] says, for one symbol per pair, and reads
    that symbol as the feeds of the pair. *)
Definition feed_of (pair : string * string) : string := separatedName (ToUpper pair.1) (ToUpper pair.2).
Definition there_and_back (config : FetcherConfig) (pairs : list (string * string)) (new : list string -> option (res Fetcher))
    (path : list place) (put : list string -> list string) (reads : feed_map -> string -> list int32 -> Prop) : Prop :=
  exists f symbols, new (feed_of <$> pairs) = Some (Ok f) /\ asked path (Wss.Subscriptions (Ws f)) = put symbols /\
    Forall2 (fun pair symbol => forall ids, Separated (fc_FeedMaps config) !! feed_of pair = Some ids -> reads (FeedMap f) symbol ids)
      pairs symbols.

Lemma texts_JStr (l : list string) : texts (JStr <$> l) = l.
Proof. unfold texts. induction l as [|x l IH]; [done|]. simpl. by f_equal. Qed.
Lemma at_items (l : list string) : at_path [Items] (JStrs l) = JStr <$> l.
Proof. simpl. induction l as [|x l IH]; [done|]. simpl. by f_equal. Qed.
Lemma asked_one path j l : at_path path j = JStr <$> l -> asked path (Wss.Value <$> [j]) = l.
Proof. intros Hp. unfold asked. simpl. by rewrite Hp, texts_JStr, app_nil_r. Qed.
Lemma asked_each {A} path (sub : A -> json) (asks : A -> list string) (l : list A) :
  (forall x, at_path path (sub x) = JStr <$> asks x) -> asked path (Wss.Value <$> (sub <$> l)) = l ≫= asks.
Proof. intros Hp. unfold asked. induction l as [|x l IH]; [done|]. simpl. rewrite Hp, texts_JStr. by f_equal. Qed.
Lemma bind_concat {A} (l : list (list A)) : l ≫= id = concat l.
Proof. induction l as [|x l IH]; [done|]. simpl. by f_equal. Qed.
Lemma bind_singletons {A B} (f : A -> B) (l : list A) : l ≫= (fun x => [f x]) = f <$> l.
Proof. induction l as [|x l IH]; [done|]. simpl. by f_equal. Qed.

(** A client with an endpoint is made, with its map and its subscriptions. *)
Definition made (new : res Fetcher) (m : feed_map) (subs : list Wss.subscription) : Prop :=
  exists f, new = Ok f /\ FeedMap f = m /\ Wss.Subscriptions (Ws f) = subs.
Lemma client_made N config m url subs : bool_decide (url = "")%string = false -> made (client N config m url subs) m (Wss.Value <$> subs).
Proof.
  intros Hu. unfold made, client, connect, Wss.NewWebsocketHelper, Wss.WithProxyUrl. cbn -[bool_decide].
  destruct (bool_decide (fc_Proxy config = _)); cbn -[bool_decide]; rewrite Hu; by eexists.
Qed.

Lemma bitmart_made N R config feeds : made (bitmart.New N R config feeds) (Separated (fc_FeedMaps config))
  (Wss.Value <$> (bitmart.Subscription "subscribe" <$> chunks 3 ((fun feed => "spot/ticker:" +:+ ReplaceAll feed "-"%char "_")%string <$> feeds))).
Proof.
  unfold made, bitmart.New, connect, Wss.NewWebsocketHelper, Wss.WithProxyUrl. rewrite <- (list_fmap_compose _ Wss.Value). cbn -[bool_decide chunks].
  destruct (bool_decide (fc_Proxy config = _)); cbn -[bool_decide chunks]; rewrite bool_decide_false by done; by eexists.
Qed.
Lemma xt_made N R config feeds : made (xt.New N R config feeds) (Separated (fc_FeedMaps config))
  (imap (fun i feed => Wss.Value (xt.Subscription "subscribe" [("ticker@" +:+ ToLower (ReplaceAll feed "-"%char "_"))%string] (n_uuid N i))) feeds).
Proof.
  unfold made, xt.New, connect, Wss.NewWebsocketHelper, Wss.WithProxyUrl. cbn -[bool_decide].
  destruct (bool_decide (fc_Proxy config = _)); cbn -[bool_decide]; rewrite bool_decide_false by done; by eexists.
Qed.
Lemma xt_asked (id : nat -> string) (symbol : string -> string) feeds :
  asked [Key "params"; Items] (imap (fun i feed => Wss.Value (xt.Subscription "subscribe" [("ticker@" +:+ symbol feed)%string] (id i))) feeds) =
  (fun feed => "ticker@" +:+ symbol feed)%string <$> feeds.
Proof.
  revert id. induction feeds as [|feed feeds IH]; intros id; [done|]. unfold asked in *. cbn [imap mbind list_bind fmap list_fmap]. 
  rewrite <- (IH (fun i => id (S i))). done.
Qed.

Lemma there_and_back_intro config pairs new path put reads (symbol : string -> string) subs :
  made (new (feed_of <$> pairs)) (Separated (fc_FeedMaps config)) subs ->
  asked path subs = put (symbol <$> (feed_of <$> pairs)) ->
  (forall pair ids, pair ∈ pairs -> Separated (fc_FeedMaps config) !! feed_of pair = Some ids ->
     reads (Separated (fc_FeedMaps config)) (symbol (feed_of pair)) ids) ->
  there_and_back config pairs (fun feeds => Some (new feeds)) path put reads.
Proof.
  intros (f & Hn & Hm & Hs) Ha Hr. exists f, (symbol <$> (feed_of <$> pairs)). split_and!; [by rewrite Hn|by rewrite Hs|].
  rewrite <- list_fmap_compose, Forall2_fmap_r, Hm. apply Forall_Forall2_diag, Forall_forall. intros pair Hin ids. by apply Hr.
Qed.

Lemma codes_of_fmap pairs : Forall (fun pair => plain pair.1 /\ plain pair.2) pairs ->
  upbit.codes_of (feed_of <$> pairs) = Some ((fun pair => (ToUpper (ToUpper pair.2) +:+ "-" +:+ ToUpper (ToUpper pair.1))%string) <$> pairs).
Proof.
  induction 1 as [|[b q] pairs [Hb Hq] _ IH]; [done|]. cbn [fmap list_fmap upbit.codes_of]. unfold feed_of at 1. cbn [fst snd] in *.
  rewrite (proj2 (proj2 (key_split b q Hb Hq))). fold (feed_of <$> pairs). by rewrite IH.
Qed.

(** C29: The symbols that [New] of a provider puts into its subscriptions are
    recognised when the exchange sends them back.  For any list of pairs whose
    names contain none of [-], [_] and [/], the clients of upbit, korbit, crypto,
    bithumb, gateio, lbank, kraken, bitmart and xt, the nine providers that
    rewrite a pair, subscribe to one symbol per pair, at the place and with the
    prefix of that exchange's protocol; and a ticker with that symbol, and fields
    that can be read, is converted to data for exactly the feeds of the pair. *)
Theorem subscribed_symbol_recognised N R config pairs :
  Forall (fun pair => plain pair.1 /\ plain pair.2) pairs ->
  let ok new feeds := Some (new feeds) in
  let t := there_and_back config pairs in
  t (upbit.New N config) [Items; Key "codes"; Items] id upbit_reads /\
  t (ok (korbit.New N config)) [Key "data"; Key "channels"; Items] (fun l => [("ticker:" +:+ Join "," l)%string]) korbit_reads /\
  t (ok (crypto.New N config)) [Key "params"; Key "channels"; Items] (fmap (fun s => "ticker." +:+ s)%string) crypto_reads /\
  t (ok (bithumb.New N config)) [Key "symbols"; Items] id bithumb_reads /\
  t (ok (gateio.New N config)) [Key "payload"; Items] id gateio_reads /\
  t (ok (lbank.New N config)) [Key "pair"] id lbank_reads /\
  t (ok (kraken.New N config)) [Key "params"; Key "symbol"; Items] id kraken_reads /\
  t (ok (bitmart.New N R config)) [Key "args"; Items] (fmap (fun s => "spot/ticker:" +:+ s)%string) bitmart_reads /\
  t (ok (xt.New N R config)) [Key "params"; Items] (fmap (fun s => "ticker@" +:+ s)%string) xt_reads.
Proof.
  intros Hp ok t. set (m := Separated (fc_FeedMaps config)).
  assert (forall pair ids, pair ∈ pairs -> m !! feed_of pair = Some ids -> all_read m (feed_of pair) ids) as Hr
    by (intros [b q] ids Hin Hk; rewrite Forall_forall in Hp; destruct (Hp _ Hin) as [Hb Hq]; exact (pair_read b q Hb Hq m ids Hk)).
  split_and!.
  - unfold t, there_and_back, upbit.New. rewrite codes_of_fmap by done. cbn [mbind option_bind].
    destruct (client_made N config m upbit.URL [upbit.Subscription (n_uuid N 0)
      ((fun pair => (ToUpper (ToUpper pair.2) +:+ "-" +:+ ToUpper (ToUpper pair.1))%string) <$> pairs)]) as (f & Hf & Hm & Hs); [done|].
    eexists f, _. split_and!; [by f_equal| |].
    + rewrite Hs. apply asked_one. etrans; [|apply at_items]. cbn. by rewrite app_nil_r.
    + rewrite Hm, Forall2_fmap_r. apply Forall_Forall2_diag, Forall_forall. intros [b q] Hin ids Hk. destruct (Hr _ _ Hin Hk) as [(code & Hc & Hx) _].
      rewrite Forall_forall in Hp. pose proof (codes_of_fmap [(b, q)] (proj2 (Forall_singleton _ _) (Hp _ Hin))) as Hc'.
      unfold feed_of in Hc'. cbn [fmap list_fmap fst snd] in Hc'. unfold feed_of in Hc. cbn [fst snd] in Hc. rewrite Hc in Hc'. injection Hc' as ->. exact Hx.
  - eapply (there_and_back_intro _ _ _ _ _ _ (fun key => ToLower (ReplaceAll key "-"%char "_"))); [by apply client_made| |intros pair ids Hin Hk; apply (Hr _ _ Hin Hk)].
    apply asked_one, (at_items [_]).
  - eapply (there_and_back_intro _ _ _ _ _ _ (fun key => ReplaceAll key "-"%char "_")); [by apply client_made| |intros pair ids Hin Hk; apply (Hr _ _ Hin Hk)].
    rewrite <- (list_fmap_compose _ (fun s => "ticker." +:+ s)%string). apply asked_one, at_items.
  - eapply (there_and_back_intro _ _ _ _ _ _ (fun key => ReplaceAll key "-"%char "_")); [by apply client_made| |intros pair ids Hin Hk; apply (Hr _ _ Hin Hk)].
    apply asked_one, at_items.
  - eapply (there_and_back_intro _ _ _ _ _ _ (fun key => ReplaceAll key "-"%char "_")); [by apply client_made| |intros pair ids Hin Hk; apply (Hr _ _ Hin Hk)].
    apply asked_one, at_items.
  - eapply (there_and_back_intro _ _ _ _ _ _ (fun key => ToLower (ReplaceAll key "-"%char "_"))); [by apply client_made| |intros pair ids Hin Hk; apply (Hr _ _ Hin Hk)].
    rewrite (asked_each _ _ (fun key => [ToLower (ReplaceAll key "-"%char "_")])) by done. apply bind_singletons.
  - eapply (there_and_back_intro _ _ _ _ _ _ (fun key => ReplaceAll key "-"%char "/")); [by apply client_made| |intros pair ids Hin Hk; apply (Hr _ _ Hin Hk)].
    apply asked_one, at_items.
  - eapply (there_and_back_intro _ _ _ _ _ _ (fun key => ReplaceAll key "-"%char "_")); [eapply bitmart_made| |intros pair ids Hin Hk; apply (Hr _ _ Hin Hk)].
    rewrite (asked_each _ _ id) by (intros feed; apply at_items). rewrite bind_concat, chunks_concat by lia. apply (list_fmap_compose _ (fun s => "spot/ticker:" +:+ s)%string).
  - eapply (there_and_back_intro _ _ _ _ _ _ (fun key => ToLower (ReplaceAll key "-"%char "_"))); [eapply xt_made| |intros pair ids Hin Hk; apply (Hr _ _ Hin Hk)].
    rewrite (xt_asked (n_uuid N) (fun key => ToLower (ReplaceAll key "-"%char "_"))). apply (list_fmap_compose _ (fun s => "ticker@" +:+ s)%string).
Qed.


(** ** Examples *)
Definition w_env : Env := mkEnv 0 ∅ (fun _ => None).
Definition w_message : message :=
  [("e", JStr "24hrMiniTicker"); ("E", JInt 1700000000000); ("s", JStr "BTCUSDT"); ("c", JStr "42000.5"); ("v", JStr "7")].
Definition w_value : SpecFloat.spec_float := FormatFloat64Price (of_ratio false 84001 2).

Lemma w_handled m : m !! "BTCUSDT"%string = Some [7] ->
  binance.handleMessage w_env m w_message =
    Some (mkOut [mkFeedData 7 w_value (of_int 7) (Some 1700000000000000000)] [] None).
Proof.
  intros Hm. unfold binance.handleMessage, with_struct.
  destruct (MessageToStruct _ _) as [v|] eqn:Hv; [|by vm_compute in Hv]. vm_compute in Hv. injection Hv as <-.
  unfold binance.TickerToFeedData, lookup_ids.
  change (str "Symbol" _) with "BTCUSDT"%string. rewrite Hm. vm_compute. reflexivity.
Qed.

Lemma exchange_data_sound_witness : exists maps o d,
  GetWssFeedMap [w_wss 7 "btc" "usdt"] !! "binance"%string = Some maps /\
  binance.handleMessage w_env (Combined maps) w_message = Some o /\ d ∈ sent o /\ timed d /\ FeedID d = 7.
Proof.
  destruct (GetWssFeedMap [w_wss 7 "btc" "usdt"] !! "binance"%string) as [maps|] eqn:Hm; [|by vm_compute in Hm].
  destruct (feed_maps_exact_lemma [w_wss 7 "btc" "usdt"] "binance" "BTCUSDT") as [Hc _]. rewrite Hm in Hc.
  assert (Combined maps !! "BTCUSDT"%string = Some [7]) as Hk by (simpl in Hc; rewrite Hc; vm_compute; reflexivity).
  pose proof (w_handled _ Hk) as Ho. do 3 eexists. split; [reflexivity|]. split; [exact Ho|]. split; [left|]. split; [|done].
  assert (("binance"%string, ByCombined, binance.handleMessage) ∈ cexFactories) as Hin by left.
  exact (proj1 (exchange_data_sound _ _ _ _ _ _ _ _ Hin Hm Ho _ (list_elem_of_here _ _))).
Defined.

Lemma handler_panics_iff_witness :
  upbit.handleMessage w_env ∅ [("cd", JStr "KRW")] = None /\ panics "upbit" ∅ [("cd", JStr "KRW")] /\
  gemini.handleMessage w_env ∅ [("type", JStr "update"); ("events", JArr [JObj []])] = None.
Proof.
  assert (upbit.handleMessage w_env ∅ [("cd", JStr "KRW")] = None) as H by (vm_compute; reflexivity).
  split_and!; [exact H| |vm_compute; reflexivity].
  assert (("upbit"%string, BySeparated, upbit.handleMessage) ∈ cexFactories) as Hin by (do 6 right; left).
  exact (proj1 (handler_panics_iff _ _ _ _ _ _ Hin) H).
Defined.

Definition w_new : NewEnv := mkNewEnv 0 (fun _ => "id"%string) 0.
Definition w_frames : Frames := mkFrames (fun _ _ => Ok ""%string) Ok (fun _ => Ok []).
Definition w_maps : FetcherConfig := mkFetcherConfig (mkFeedMaps ∅ {["BTC-USD"%string := [7]; "ETH-KRW"%string := [8]]}) "".

Lemma subscribed_symbol_recognised_witness : exists f symbol,
  kraken.New w_new w_maps ["BTC-USD"%string; "ETH-KRW"%string] = Ok f /\
  asked [Key "params"; Key "symbol"; Items] (Wss.Subscriptions (Ws f)) = [symbol; "ETH/KRW"%string] /\ symbol = "BTC/USD"%string /\
  kraken_reads (FeedMap f) symbol [7].
Proof.
  pose proof (subscribed_symbol_recognised w_new w_frames w_maps [("btc", "usd"); ("eth", "krw")]%string) as H.
  destruct H as (_ & _ & _ & _ & _ & _ & (f & symbols & Hf & Ha & Hs) & _).
  { repeat constructor; intros d Hd; simpl; set_solver. }
  apply Forall2_cons_inv_l in Hs as (s1 & l & H1 & Hs & ->). apply Forall2_cons_inv_l in Hs as (s2 & l' & _ & Hn & ->).
  apply Forall2_nil_inv_l in Hn as ->. exists f, s1. change (feed_of <$> [("btc", "usd"); ("eth", "krw")]%string) with ["BTC-USD"%string; "ETH-KRW"%string] in Hf.
  injection Hf as Hf. assert (symbols_eq : [s1; s2] = ["BTC/USD"; "ETH/KRW"]%string).
  { etrans; [symmetry; exact Ha|]. revert Hf. vm_compute. intros [= <-]. reflexivity. }
  injection symbols_eq as Hs1 Hs2. split_and!; [rewrite <- Hf; reflexivity|rewrite Ha, Hs2; reflexivity|exact Hs1|].
  apply H1. vm_compute. reflexivity.
Defined.
End Exchanges.
