(* ===== verification/Heartbeats.v ===== *)
(** * Pings and volume caches of the exchange providers

    The goroutines that run beside a provider's client under
    [node/pkg/websocketfetcher/providers]: the pings of bitget, bitmart, bybit,
    kucoin and xt, and the volume caches of bitstamp, btse and gemini.

    A ping is written to the client of [Wss.v], whose loop runs beside it: module
    [Heartbeat] composes the two.  A ticker is a step that is possible at any
    time. *)

From S2P Require Import Prelude Errors Wire Text Strings Float Reducer FeedData Util Wss Decode WsFetcher GoTime Providers ProvidersA ProvidersB ProvidersC.
Import Text Strings Float Reducer FeedData Decode Common Provider.

Local Open Scope Z_scope.
Local Open Scope go_scope.

(** ** Pings *)
Module Heartbeat.
Import Wss.
Section heartbeat.
Variable L : @Library json.
Notation World := (@Wss.World json).
Notation Loop := (@Wss.Loop json).

(** A ping goroutine: the interval of its ticker, what it writes, whether it
    looks at the context, and whether an error ends it. *)
Record Pinger : Type := mkPinger {
  interval : Z; beat : World -> option (World * option error); watches_ctx : bool; ends_on_error : bool
}.
Definition bitget_ping : Pinger := mkPinger (30 * Second) (RawWrite L "ping") true false.
Definition bitmart_ping : Pinger := mkPinger (10 * Second) (RawWrite L "ping") true false.
Definition bybit_ping : Pinger := mkPinger (20 * Second) (Write L (bybit.Heartbeat "ping")) true false.
Definition xt_ping : Pinger := mkPinger (10 * Second) (RawWrite L "ping") false false.
(** The interval is the package's variable at the start, in milliseconds. *)
Definition kucoin_pingJob (pingInterval : Z) : Pinger :=
  mkPinger (pingInterval * Millisecond) (Write L (kucoin.Ping 1 "ping")) false true.
Definition pingers : list Pinger :=
  [bitget_ping; bitmart_ping; bybit_ping; xt_ping; kucoin_pingJob kucoin.DEFAULT_PING_INTERVAL].

Inductive Beating : Type := Pinging | Stopped | Panicked.
(** [Run] of a provider: the client's loop and the ping goroutine. *)
Record Sys : Type := mkSys { loop : Loop; beating : Beating }.

(** The program ends with a panic: nothing follows it. *)
Inductive sys_step (p : Pinger) : Sys -> Sys -> Prop :=
| s_loop l l' b : b <> Panicked -> run_step L l l' -> sys_step p (mkSys l b) (mkSys l' b)
| s_ping l w err :
    beat p (w_ l) = Some (w, err) ->
    sys_step p (mkSys l Pinging)
      (mkSys (go_to (at_ l) w l) (match err with Some _ => if ends_on_error p then Stopped else Pinging | None => Pinging end))
| s_panic l : beat p (w_ l) = None -> sys_step p (mkSys l Pinging) (mkSys l Panicked)
| s_cancelled l : watches_ctx p = true -> cancelled l = true -> sys_step p (mkSys l Pinging) (mkSys l Stopped).

(** [Run]: the goroutine is started, then the client. *)
Definition start (helper : @WebsocketHelper json) (t : Z) : option Sys :=
  (fun l => mkSys l Pinging) <$> Run (mkWorld helper []) t.

Definition connected (l : Loop) : Prop := is_Some (Conn (ws (w_ l))).

Lemma retry_keeps {S} (job : S -> S * option error) rand n i a b e s (P : S -> Prop) :
  (forall s, P s -> P (job s).1) -> P s -> P (Retrier.retry_loop job rand n i a b e s).1.1.
Proof.
  intros Hj. revert i a e s. induction n as [|n IH]; intros i a e s Hs; [done|]. simpl.
  pose proof (Hj _ Hs) as H1. destruct (job s) as [s1 [err|]]; simpl in *; [|done].
  set (a' := if b <? _ then b else _). specialize (IH (Datatypes.S i) a' (Some err) s1 H1).
  by destruct (Retrier.retry_loop job rand n _ _ _ _ _) as [[? ?] ?].
Qed.

Lemma subscribe_conn l (w w' : World) err : subscribe_loop L l w = Some (w', err) -> Conn (ws w') = Conn (ws w).
Proof.
  revert w. induction l as [|x l IH]; intros w; simpl; [by intros [= <- _]|].
  assert (Hw : forall w1 e, match x with Raw b => RawWrite L b w | Value v => Write L v w end = Some (w1, e) -> ws w1 = ws w)
    by (intros w1 e; destruct x; apply write_same).
  destruct (match x with Raw b => RawWrite L b w | Value v => Write L v w end) as [[w1 [e|]]|]; simpl; [| |done].
  - intros [= <- _]. by rewrite (Hw _ _ eq_refl).
  - intros H. by rewrite (IH _ H), (Hw _ _ eq_refl).
Qed.

(** Dialing replaces a connection, it never takes one away. *)
Lemma dial_keeps_conn rand (w w' : World) err :
  is_Some (Conn (ws w)) -> dialAndSubscribe L rand w = (Some w', err) -> is_Some (Conn (ws w')).
Proof.
  intros Hc. set (P := fun o : option World => match o with Some w => is_Some (Conn (ws w)) | None => True end).
  assert (Hd : forall s, P s -> P (dialJob L s).1).
  { intros [w0|] Hw; [|done]. simpl in *. unfold Dial.
    destruct (if negb _ then url_Parse _ _ else None); simpl; [by destruct (negb _)|].
    destruct (default (websocket_Dial L) _ _ _ _); simpl; [by eexists|by destruct (negb _)]. }
  assert (Hs : forall s, P s -> P (subscribeJob L s).1).
  { intros [w0|] Hw; [|done]. simpl in *. destruct (subscribe_loop L _ w0) as [[w1 e]|] eqn:E; [|done].
    simpl. by rewrite (subscribe_conn _ _ _ _ E). }
  unfold dialAndSubscribe, Retrier.Retry.
  pose proof (retry_keeps (dialJob L) rand (Z.to_nat 3) 0 1 10 None (Some w) P Hd Hc) as H1.
  destruct (Retrier.retry_loop (dialJob L) _ _ _ _ _ _ _) as [[s1 [e|]] sl]; simpl in H1; [by intros [= -> _]|].
  pose proof (retry_keeps (subscribeJob L) rand (Z.to_nat 3) 0 1 10 None s1 P Hs H1) as H2.
  destruct (Retrier.retry_loop (subscribeJob L) _ _ _ _ _ _ _) as [[s2 e2] sl2]. simpl in H2. by intros [= -> _].
Qed.

Lemma run_step_connected l l' : connected l -> run_step L l l' -> connected l'.
Proof.
  unfold connected. intros Hc [Hst|Hst].
  - destruct Hst; simpl; rewrite ?close_same; eauto using dial_keeps_conn.
  - destruct Hst as [| | | |s x w e Hw]; simpl; rewrite ?(write_same _ _ _ _ _ Hw); auto.
Qed.

Lemma pinger_writes p w : In p pingers -> (beat p w = None <-> Conn (ws w) = None) /\
  (forall w' e, beat p w = Some (w', e) -> ws w' = ws w).
Proof.
  intros Hp. assert (exists x, beat p = Wss.write L x) as [x ->].
  { repeat (destruct Hp as [<-|Hp]; [by eexists|]). done. }
  unfold Wss.write. destruct (Conn (ws w)) as [c|] eqn:Hc; simpl; split; [done| |done|done].
  by intros w' e [= <- _].
Qed.

(** Once the client has been connected, no ping panics, through all later
    reconnections. *)
Theorem pings_safe_once_connected p s s' :
  In p pingers -> connected (loop s) -> beating s <> Panicked -> rtc (sys_step p) s s' ->
  beating s' <> Panicked /\ connected (loop s').
Proof.
  intros Hp Hc Hb Hr. induction Hr as [s|s s1 s' Hst _ IH]; [done|]. apply IH; clear IH s'.
  - destruct Hst as [l l' b Hb' Hst|l w err Hw|l Hn|l _ _]; simpl in *.
    + by eapply run_step_connected.
    + unfold connected in *. simpl. by rewrite (proj2 (pinger_writes p (w_ l) Hp) _ _ Hw).
    + done.
    + done.
  - destruct Hst as [l l' b Hb' Hst|l w err Hw|l Hn|l _ _]; simpl in *.
    + done.
    + by destruct err; [destruct (ends_on_error p)|].
    + apply (proj1 (pinger_writes p (w_ l) Hp)) in Hn. unfold connected in Hc. rewrite Hn in Hc. by destruct Hc.
    + done.
Qed.

(** No connection, and none to be had. *)
Definition offline (w : World) : Prop :=
  Conn (ws w) = None /\ forall l e o, exists x, dial_of L w l e o = Err x.

Lemma retry_fails {S} (job : S -> S * option error) rand n i a b e s (P : S -> Prop) :
  (forall s, P s -> P (job s).1 /\ is_Some (job s).2) -> P s -> (0 < n)%nat ->
  is_Some (Retrier.retry_loop job rand n i a b e s).1.2.
Proof.
  intros Hj. revert i a e s. induction n as [|n IH]; intros i a e s Hs Hn; [lia|]. simpl.
  destruct (Hj _ Hs) as [H1 [err He]]. destruct (job s) as [s1 e1]. simpl in *. subst e1.
  set (a' := if b <? _ then b else _). destruct n as [|n]; [by eexists|].
  specialize (IH (Datatypes.S i) a' (Some err) s1 H1). assert (is_Some (Retrier.retry_loop job rand (Datatypes.S n) (Datatypes.S i) a' b (Some err) s1).1.2) by (apply IH; lia).
  by destruct (Retrier.retry_loop job rand _ _ _ _ _ _) as [[? ?] ?].
Qed.

Lemma dial_offline rand (w w' : World) err :
  offline w -> dialAndSubscribe L rand w = (Some w', err) -> is_Some err /\ offline w'.
Proof.
  intros Hw. set (P := fun o : option World => exists w, o = Some w /\ offline w).
  assert (Hj : forall s, P s -> P (dialJob L s).1 /\ is_Some (dialJob L s).2).
  { intros s (w0 & -> & Hn & Hf). unfold P, dialJob, Dial, offline, dial_of in *.
    set (h := if negb _ then set_endpoint _ _ else ws w0).
    assert (CustomDialFunc h = CustomDialFunc (ws w0) /\ Conn h = None) as [Hh Hc] by (unfold h; by destruct (negb _)).
    destruct (if negb _ then url_Parse _ _ else None).
    { simpl. split; [|by eexists]. eexists. split; [done|]. simpl. by rewrite Hh. }
    match goal with |- context [default _ _ ?l ?e ?o] => destruct (Hf l e o) as [x Hx] end.
    rewrite Hh, Hx. simpl. split; [|by eexists]. eexists. split; [done|]. simpl. by rewrite Hh. }
  unfold dialAndSubscribe, Retrier.Retry.
  pose proof (retry_keeps (dialJob L) rand (Z.to_nat 3) 0 1 10 None (Some w) P (fun s H => proj1 (Hj s H))) as H1.
  pose proof (retry_fails (dialJob L) rand (Z.to_nat 3) 0 1 10 None (Some w) P Hj) as H2.
  destruct (Retrier.retry_loop (dialJob L) _ _ _ _ _ _ _) as [[s1 e1] sl]. simpl in H1, H2.
  destruct H1 as (w1 & -> & Ho); [by exists w|]. destruct H2 as [e ->]; [by exists w|lia|].
  intros [= <- <-]. by split; [eexists|].
Qed.
Lemma offline_run l l' : at_ l = Dialing -> offline (w_ l) -> run_step L l l' -> at_ l' = Dialing /\ offline (w_ l').
Proof.
  intros Ha Hw [Hst|Hst].
  - destruct Hst as [s rand w e _ Hd|s rand w _ Hd| | | | | | | ]; try congruence.
    + split; [done|]. by apply (dial_offline _ _ _ _ Hw Hd).
    + by destruct (dial_offline _ _ _ _ Hw Hd) as [[? ?] _].
  - destruct Hst as [| | | |s x w e Hx]; simpl; try done.
    unfold Wss.write in Hx. destruct Hw as [Hn _]. by rewrite Hn in Hx.
Qed.

(** As long as an exchange cannot be dialed, the first tick of its ping is a write
    to a nil connection: it ends the whole program, whenever it comes. *)
Theorem ping_offline_panics p helper t s0 s :
  In p pingers -> Conn helper = None -> (forall l e o, exists x, dial_of L (mkWorld helper []) l e o = Err x) ->
  start helper t = Some s0 -> rtc (sys_step p) s0 s ->
  beating s = Panicked \/ beating s = Stopped \/
  (sys_step p s (mkSys (loop s) Panicked) /\ forall w err, beat p (w_ (loop s)) <> Some (w, err)).
Proof.
  intros Hp Hn Hf H0 Hr.
  assert (Hinv : at_ (loop s0) = Dialing /\ offline (w_ (loop s0))).
  { unfold start, Run in H0. simpl in H0. destruct (IsRunning helper); [done|]. injection H0 as <-. simpl. by repeat split. }
  clear H0 Hn Hf. induction Hr as [s|s s1 s' Hst _ IH].
  - destruct s as [l b]. simpl in *. destruct Hinv as [_ [Hc _]].
    apply (proj1 (pinger_writes p (w_ l) Hp)) in Hc. destruct b; auto. right. right.
    split; [by apply s_panic|]. by rewrite Hc.
  - apply IH. clear IH s'. destruct Hst as [l l' b Hb Hst|l w err Hw|l _|l _ _]; simpl in *; try done.
    + destruct Hinv. by eapply offline_run.
    + destruct Hinv as [_ [Hc _]]. apply (proj1 (pinger_writes p (w_ l) Hp)) in Hc. congruence.
Qed.

(** A ping goroutine that has ended is not started again: one failed ping of
    kucoin, which a reconnection may cause, ends its pings for good. *)
Theorem kucoin_ping_ends_for_good n l w e s :
  beat (kucoin_pingJob n) (w_ l) = Some (w, Some e) ->
  let stopped := mkSys (go_to (at_ l) w l) Stopped in
  sys_step (kucoin_pingJob n) (mkSys l Pinging) stopped /\
  (rtc (sys_step (kucoin_pingJob n)) stopped s -> beating s = Stopped).
Proof.
  intros Hb stopped. split; [by apply (s_ping (kucoin_pingJob n) l w (Some e))|].
  intros Hr. assert (H0 : beating stopped = Stopped) by done. clearbody stopped.
  induction Hr as [s|s s1 s' Hst _ IH]; [done|]. apply IH. by destruct Hst.
Qed.

(** The ping of xt does not look at its context: it goes on after the client has
    returned. *)
Theorem xt_ping_never_stops s s' : beating s <> Stopped -> rtc (sys_step xt_ping) s s' -> beating s' <> Stopped.
Proof.
  intros Hb Hr. induction Hr as [s|s s1 s' Hst _ IH]; [done|]. apply IH. destruct Hst as [| ? ? []| |]; try done.
Qed.
End heartbeat.
End Heartbeat.

(** ** Volume caches *)
Module Volumes.

(** [CacheVolumes]: one fetch at the start and one per tick, errors are logged.
    [fetches]: the time and the answer of each. *)
Definition btse_CacheVolumes (feedMap : feed_map) (fetches : list (Time * res (list value))) (m : VolumeCacheMap) : VolumeCacheMap :=
  fold_left (fun m '(now_, result) => (btse.FetchVolumes now_ result feedMap m).1) fetches m.
Definition bitstamp_CacheVolumes (feedMap : feed_map) (fetches : list (Time * res (list value))) (m : VolumeCacheMap) : VolumeCacheMap :=
  fold_left (fun m '(now_, result) => (bitstamp.FetchVolumes now_ result feedMap m).1) fetches m.
(** Gemini asks for every symbol, in the order of the iteration. *)
Definition gemini_CacheVolumes (fetches : list ((string -> res value) * list (string * list int32))) (m : VolumeCacheMap) : VolumeCacheMap :=
  fold_left (fun m '(answer, feeds) => gemini.FetchVolumes answer feeds m) fetches m.

Lemma cache_ids_lookup at_ volume ids m id v :
  cache_ids at_ volume ids m !! id = Some v -> m !! id = Some v \/ (id ∈ ids /\ v = mkVolumeCache at_ volume).
Proof.
  unfold cache_ids. revert m. induction ids as [|i ids IH]; intros m; simpl; [by left|]. intros H.
  apply IH in H as [H|[Hin ->]]; [|by right; split; [right|]].
  apply lookup_insert_Some in H as [[-> <-]|[_ H]]; [right|by left]. split; [by left|done].
Qed.

(** A volume in the cache of btse is that of an entry for one of the feed's
    symbols in some answer, with the time of that answer. *)
Theorem btse_volumes_sound feedMap fetches m id v :
  btse_CacheVolumes feedMap fetches m !! id = Some v ->
  m !! id = Some v \/
  exists now_ result entry ids, (now_, Ok result) ∈ fetches /\ entry ∈ result /\
    feedMap !! str "Symbol" entry = Some ids /\ id ∈ ids /\ v = mkVolumeCache now_ (flt "Size" entry).
Proof.
  unfold btse_CacheVolumes. revert m. induction fetches as [|[now_ r] fetches IH]; intros m; simpl; [by left|].
  intros H. apply IH in H as [H|(n & result & entry & ids & Hin & H)]; clear IH.
  2: { right. exists n, result, entry, ids. split; [by right|done]. }
  destruct r as [result|e]; simpl in H; [|by left].
  assert (Hfold : forall l m, (forall x, x ∈ l -> x ∈ result) ->
    fold_left (fun m entry => match feedMap !! str "Symbol" entry with None => m
      | Some ids => cache_ids now_ (flt "Size" entry) ids m end) l m !! id = Some v ->
    m !! id = Some v \/ exists entry ids, entry ∈ result /\ feedMap !! str "Symbol" entry = Some ids /\ id ∈ ids /\
      v = mkVolumeCache now_ (flt "Size" entry)).
  { clear H m. induction l as [|x l IHl]; intros m Hl; simpl; [by left|]. intros Hv.
    apply IHl in Hv as [Hv|Hv]; [|by right|by intros y Hy; apply Hl; right].
    destruct (feedMap !! str "Symbol" x) as [ids|] eqn:Hx; [|by left].
    apply cache_ids_lookup in Hv as [Hv|[Hin ->]]; [by left|right].
    exists x, ids. split_and!; [apply Hl; by left|done..]. }
  apply (Hfold result m (fun x Hx => Hx)) in H as [H|(entry & ids & H)]; [by left|right].
  exists now_, result, entry, ids. split; [by left|done].
Qed.

(** *** The lock of a cache *)

(** Whether the converter of a trade takes the lock to read a volume. *)
Definition bitstamp_locks_read : bool := true.
Definition btse_locks_read : bool := false.
Definition gemini_locks_read : bool := false.

Inductive Owner : Type := OWriter | OReader (i : nat).
(** The accesses to the map that are under way: the writer's, and those of the
    goroutines that handle messages. *)
Record Access : Type := mkAccess { owner : option Owner; writing : bool; reading : list nat }.
Definition no_access : Access := mkAccess None false [].

Inductive access_step (locks_read : bool) : Access -> Access -> Prop :=
| a_write rs : access_step locks_read (mkAccess None false rs) (mkAccess (Some OWriter) true rs)
| a_written rs : access_step locks_read (mkAccess (Some OWriter) true rs) (mkAccess None false rs)
| a_read_locked i w rs : locks_read = true ->
    access_step locks_read (mkAccess None w rs) (mkAccess (Some (OReader i)) w (i :: rs))
| a_unlocked i w rs : locks_read = true ->
    access_step locks_read (mkAccess (Some (OReader i)) w (i :: rs)) (mkAccess None w rs)
| a_read o i w rs : locks_read = false ->
    access_step locks_read (mkAccess o w rs) (mkAccess o w (i :: rs))
| a_done o i w l1 l2 : locks_read = false ->
    access_step locks_read (mkAccess o w (l1 ++ i :: l2)) (mkAccess o w (l1 ++ l2)).

(** The runtime ends the program when a map is read while it is written. *)
Definition fatal (a : Access) : Prop := writing a = true /\ reading a <> [].

(** With the lock no read meets a write, whatever goroutines there are. *)
Theorem bitstamp_cache_exclusive a : rtc (access_step bitstamp_locks_read) no_access a -> ~ fatal a.
Proof.
  intros Hr. set (ok := fun a => match owner a with
    | None => writing a = false /\ reading a = []
    | Some OWriter => writing a = true /\ reading a = []
    | Some (OReader i) => writing a = false /\ reading a = [i] end).
  assert (H0 : ok no_access) by done. revert H0. generalize no_access, Hr. clear Hr.
  intros a0 Hr H0. assert (ok a) as Ha.
  { induction Hr as [a|a a1 a' Hst _ IH]; [done|]. apply IH. clear IH.
    destruct Hst as [rs|rs|i w rs _|i w rs _|o i w rs Hf|o i w l1 l2 Hf]; try done; unfold ok in *; simpl in *.
    - naive_solver.
    - naive_solver.
    - destruct H0 as [-> ->]. done.
    - destruct H0 as [-> H0]. by injection H0 as ->. }
  intros [Hw Hr']. unfold ok in Ha. destruct (owner a) as [[]|]; destruct Ha; congruence.
Qed.

(** Without it, as in btse and gemini, the two can meet. *)
Theorem unlocked_read_fatal : exists a, rtc (access_step btse_locks_read) no_access a /\
  rtc (access_step gemini_locks_read) no_access a /\ fatal a.
Proof.
  exists (mkAccess (Some OWriter) true [0%nat]).
  split_and!; [..|by split]; (eapply rtc_l; [apply a_write|]; apply rtc_once; by apply a_read).
Qed.
End Volumes.
