(* ===== verification/ChainReader.v ===== *)
(** * The websocket chain reader

    [node/pkg/chain/websocketchainreader/websocketreader.go] and [type.go]: the
    clients of the two chains, and the goroutine that keeps a subscription to
    the logs of a contract alive.  The clients are third-party code: a type with
    its answers. *)

From S2P Require Import Prelude Errors Text Signing Util Abi Chain.
Import Text Abi.

Local Open Scope Z_scope.
Local Open Scope go_scope.

Module ChainReader.

Definition BlockchainType : Type := Z.
Definition Kaia : BlockchainType := 1.
Definition Ethereum : BlockchainType := 2.

Record ChainReaderConfig : Type := mkReaderConfig {
  KaiaWebsocketUrl : string; EthWebsocketUrl : string; RetryInterval : int64 }.
Definition WithKaiaWebsocketUrl (url : string) (c : ChainReaderConfig) : ChainReaderConfig :=
  mkReaderConfig url (EthWebsocketUrl c) (RetryInterval c).
Definition WithEthWebsocketUrl (url : string) (c : ChainReaderConfig) : ChainReaderConfig :=
  mkReaderConfig (KaiaWebsocketUrl c) url (RetryInterval c).
Definition WithRetryInterval (interval : int64) (c : ChainReaderConfig) : ChainReaderConfig :=
  mkReaderConfig (KaiaWebsocketUrl c) (EthWebsocketUrl c) interval.

Section reader.
Context {Client Log : Type}.

(** What the client libraries answer: a client of an address, and the id of its
    chain. *)
Record DialEnv : Type := mkDialEnv {
  dial_eth : string -> res Client;
  dial_kaia : string -> res Client;
  chain_id : Client -> res Z }.

(** A client that was not dialled is a nil pointer. *)
Record ChainReader : Type := mkChainReader {
  EthClient : option Client;
  KaiaClient : option Client;
  RetryPeriod : int64;
  ChainIdToChainType : gmap string BlockchainType }.

Definition dial_one (dial : string -> res Client) (chain_id : Client -> res Z) (url : string) (t : BlockchainType)
    (m : gmap string BlockchainType) : res (option Client * gmap string BlockchainType) :=
  if bool_decide (url = ""%string) then Ok (None, m)
  else
    let? c := dial url in
    let? id := chain_id c in
    Ok (Some c, <[Itoa id := t]> m).

Definition New (E : DialEnv) (opts : list (ChainReaderConfig -> ChainReaderConfig)) : res ChainReader :=
  let config := fold_left (fun c opt => opt c) opts (mkReaderConfig "" "" (1 * Second)) in
  if bool_decide (EthWebsocketUrl config = ""%string) && bool_decide (KaiaWebsocketUrl config = ""%string)
  then Err ErrChainWebsocketUrlNotProvided
  else
    let? (eth, m) := dial_one (dial_eth E) (chain_id E) (EthWebsocketUrl config) Ethereum ∅ in
    let? (kaia, m) := dial_one (dial_kaia E) (chain_id E) (KaiaWebsocketUrl config) Kaia m in
    Ok (mkChainReader eth kaia (RetryInterval config) m).

(** [client]: any type but [Ethereum] is Kaia. *)
Definition client (c : ChainReader) (chainType : BlockchainType) : option Client :=
  if chainType =? Ethereum then EthClient c else KaiaClient c.

(** A method of a nil client panics: [None]. *)
Definition BlockNumber (number : Client -> res Z) (c : ChainReader) (chainType : BlockchainType) : option (res Z) :=
  number <$> client c chainType.

Definition ReadContractOnce {CR : Crypto} {TP : @TxPackage CR} {AB : AbiPackage} (call : Client -> Address -> list Z -> res (list Z))
    (cache : AbiCache) (c : ChainReader) (chain : BlockchainType) (contractAddressHex functionString : string)
    (args : list Arg) : option (res Output * AbiCache) :=
  cl ← client c chain;
  Some (Chain.ReadContract cache (Some (call cl)) functionString contractAddressHex args).

(** ** Subscriptions *)

(** [Ch]: the channel, by its identity. *)
Record SubscribeConfig : Type := mkSubscribeConfig {
  sc_Address : string; sc_Ch : option nat; sc_ChainType : BlockchainType; sc_BlockNumber : option Z }.
Definition WithAddress (address : string) (c : SubscribeConfig) : SubscribeConfig :=
  mkSubscribeConfig address (sc_Ch c) (sc_ChainType c) (sc_BlockNumber c).
Definition WithChannel (ch : nat) (c : SubscribeConfig) : SubscribeConfig :=
  mkSubscribeConfig (sc_Address c) (Some ch) (sc_ChainType c) (sc_BlockNumber c).
Definition WithChainType (chainType : BlockchainType) (c : SubscribeConfig) : SubscribeConfig :=
  mkSubscribeConfig (sc_Address c) (sc_Ch c) chainType (sc_BlockNumber c).
Definition WithStartBlockNumber (blockNumber : Z) (c : SubscribeConfig) : SubscribeConfig :=
  mkSubscribeConfig (sc_Address c) (sc_Ch c) (sc_ChainType c) (Some blockNumber).

(** The configuration the goroutine [handleSubscription] is started with. *)
Definition Subscribe (opts : list (SubscribeConfig -> SubscribeConfig)) : res SubscribeConfig :=
  let config := fold_left (fun c opt => opt c) opts (mkSubscribeConfig "" None Ethereum None) in
  if bool_decide (sc_Address config = ""%string) then Err ErrChainWebsocketContractAddressNotfound
  else match sc_Ch config with
  | None => Err ErrChainWebsocketChannelNotfound
  | Some _ => Ok config
  end.

(** Where the goroutine is: about to find the block number, to subscribe, in
    [processLogs] waiting for the subscription or the channel, waiting to retry,
    or at its end. *)
Inductive place : Type :=
| AtStart | AtSubscribe (from : Z) | Receiving | Sending (l : Log) | Retrying | Returned | Panicked.

(** [queries]: the first block of every filter query sent, in order;
    [open]: how many subscriptions wait for their deferred [Unsubscribe];
    [received] and [sent]: the logs taken from the subscriptions and given to
    the channel. *)
Record Sub : Type := mkSub {
  at_ : place;
  initialTrigger : bool;
  done : bool;
  queries : list Z;
  open : nat;
  received : list Log;
  sent : list Log }.

Definition goto (s : Sub) (p : place) : Sub :=
  mkSub p (initialTrigger s) (done s) (queries s) (open s) (received s) (sent s).

(** [handleSubscription], [getBlockNumber], [processLogs] and
    [retryWithContext] on one configuration.  A select with several ready cases
    takes any of them; the answers of the client and the cancellation of the
    context are steps of the environment. *)
Inductive sub_step (c : ChainReader) (config : SubscribeConfig) : Sub -> Sub -> Prop :=
| step_cancel s : sub_step c config s
    (mkSub (at_ s) (initialTrigger s) true (queries s) (open s) (received s) (sent s))
| step_fixed_block s b : at_ s = AtStart -> initialTrigger s = true -> sc_BlockNumber config = Some b ->
    sub_step c config s (goto s (AtSubscribe b))
| step_nil_client s : at_ s = AtStart -> (initialTrigger s = true -> sc_BlockNumber config = None) ->
    client c (sc_ChainType config) = None ->
    sub_step c config s (goto s Panicked)
| step_block s cl (r : res Z) : at_ s = AtStart -> (initialTrigger s = true -> sc_BlockNumber config = None) ->
    client c (sc_ChainType config) = Some cl ->
    sub_step c config s (goto s (match r with Ok b => AtSubscribe b | Err _ => Retrying end))
| step_nil_subscribe s b : at_ s = AtSubscribe b -> client c (sc_ChainType config) = None ->
    sub_step c config s (goto s Panicked)
| step_subscribed s b cl : at_ s = AtSubscribe b -> client c (sc_ChainType config) = Some cl ->
    sub_step c config s
      (mkSub Receiving (initialTrigger s) (done s) (queries s ++ [b]) (S (open s)) (received s) (sent s))
| step_not_subscribed s b cl : at_ s = AtSubscribe b -> client c (sc_ChainType config) = Some cl ->
    sub_step c config s
      (mkSub Retrying (initialTrigger s) (done s) (queries s ++ [b]) (open s) (received s) (sent s))
| step_sub_error s : at_ s = Receiving -> sub_step c config s (goto s Retrying)
| step_receive s l : at_ s = Receiving ->
    sub_step c config s
      (mkSub (Sending l) (initialTrigger s) (done s) (queries s) (open s) (received s ++ [l]) (sent s))
| step_send s l : at_ s = Sending l ->
    sub_step c config s
      (mkSub Receiving (initialTrigger s) (done s) (queries s) (open s) (received s) (sent s ++ [l]))
| step_sending_done s l : at_ s = Sending l -> done s = true -> sub_step c config s (goto s Retrying)
| step_retry s : at_ s = Retrying -> sub_step c config s (goto s AtStart)
| step_return s : at_ s = Retrying -> done s = true ->
    sub_step c config s (mkSub Returned (initialTrigger s) (done s) (queries s) 0 (received s) (sent s)).

Definition sub_init : Sub := mkSub AtStart true false [] 0 [] [].

(** ** Properties *)

(** The chain types of the table have a client. *)
Definition reader_ok (c : ChainReader) : Prop :=
  forall id t, ChainIdToChainType c !! id = Some t -> exists cl, client c t = Some cl.

Lemma dial_one_spec dial cid url t m o m' :
  dial_one dial cid url t m = Ok (o, m') ->
  (o = None /\ m' = m) \/ exists c id, o = Some c /\ m' = <[id := t]> m.
Proof.
  unfold dial_one. case_bool_decide; [intros [= <- <-]; by left|].
  destruct (dial url) as [c|?]; simpl; [|done]. destruct (cid c) as [i|?]; simpl; [|done].
  intros [= <- <-]. right. eauto.
Qed.

Lemma New_ok E opts c : New E opts = Ok c -> reader_ok c.
Proof.
  unfold New. destruct (_ && _); [done|].
  destruct (dial_one _ _ _ Ethereum _) as [[eth m1]|?] eqn:H1; simpl; [|done].
  destruct (dial_one _ _ _ Kaia _) as [[kaia m2]|?] eqn:H2; simpl; [|done].
  intros [= <-] id t. simpl. unfold client. simpl.
  apply dial_one_spec in H1 as [[-> ->]|(c1 & i1 & -> & ->)];
    apply dial_one_spec in H2 as [[-> ->]|(c2 & i2 & -> & ->)];
    rewrite ?lookup_insert_Some, ?lookup_empty; intros Hl; naive_solver.
Qed.

(** What holds all along a subscription: the first block is asked for again at
    every attempt; logs are passed on in order, each at most once, and only the
    one in hand when the context ends is lost. *)
Definition in_hand (s : Sub) : list Log := match at_ s with Sending l => [l] | _ => [] end.
Record sub_ok (config : SubscribeConfig) (s : Sub) : Prop := {
  ok_trigger : initialTrigger s = true;
  ok_from : forall b, sc_BlockNumber config = Some b ->
    Forall (eq b) (queries s) /\ (forall b', at_ s = AtSubscribe b' -> b' = b);
  ok_alive : done s = false -> received s = sent s ++ in_hand s;
  ok_sub : sublist (sent s ++ in_hand s) (received s) }.

Lemma sub_init_ok config : sub_ok config sub_init.
Proof. split; simpl; try done. Qed.

Lemma sub_step_ok c config s s' : sub_ok config s -> sub_step c config s s' -> sub_ok config s'.
Proof.
  intros [Ht Hf Ha Hs] Hstep. unfold in_hand in *.
  destruct Hstep; split; simpl in *; try done.
  all: try (intros b0 Hb0; destruct (Hf b0 Hb0) as [Hq Hat]; split; [|naive_solver];
            rewrite ?Forall_app, ?Forall_singleton; naive_solver).
  all: repeat match goal with H : at_ _ = _ |- _ => rewrite H in * end; simpl in *.
  all: repeat match goal with |- context [match ?r with Ok _ => _ | Err _ => _ end] => destruct r end.
  all: rewrite ?app_nil_r in *; try done; try (intros Hd; specialize (Ha Hd); by rewrite ?Ha).
  - by apply sublist_app.
  - congruence.
  - etrans; [|exact Hs]. by apply sublist_inserts_r.
Qed.

Lemma sub_reachable_ok c config s : rtc (sub_step c config) sub_init s -> sub_ok config s.
Proof. intros Hr. eapply rtc_ind_r with (P := sub_ok config); eauto using sub_init_ok, sub_step_ok. Qed.

(** C40: as long as the context lives, the channel has been given exactly the
    logs received from the subscriptions, in order, but for the one in hand; a
    cancellation loses at most those in hand; and with a start block every
    query of every attempt starts at that block, the later ones too: what
    [initialTrigger] is for never happens. *)
Theorem subscription_passes_logs c config s :
  rtc (sub_step c config) sub_init s ->
  (done s = false -> received s = sent s ++ in_hand s) /\
  sublist (sent s) (received s) /\
  (forall b, sc_BlockNumber config = Some b -> Forall (eq b) (queries s)).
Proof.
  intros [_ Hf Ha Hs]%sub_reachable_ok. split_and!; [done| |naive_solver].
  etrans; [|exact Hs]. by apply sublist_inserts_r.
Qed.

(** A subscription that failed is not closed before the goroutine returns. *)
Lemma subscriptions_stay_open c config s s' :
  rtc (sub_step c config) s s' -> at_ s' <> Returned -> (open s <= open s')%nat.
Proof.
  assert (Hend : forall a b, rtc (sub_step c config) a b -> at_ a = Returned -> at_ b = Returned).
  { induction 1 as [|a b d Hs _ IH]; [done|]. intros Ha. apply IH. inversion Hs; subst; simpl; congruence. }
  induction 1 as [|a b d Hs Hr IH]; [done|]. intros Hd. specialize (IH Hd).
  inversion Hs; subst; simpl in *; try lia. exfalso. apply Hd. eapply Hend; [exact Hr|done].
Qed.
End reader.

Arguments ChainReader : clear implicits.
Arguments Sub : clear implicits.
Arguments DialEnv : clear implicits.

(** Two attempts from block 5: the subscription fails after one log. *)
Definition w_reader : ChainReader nat := mkChainReader (Some 0%nat) None Second {["1"%string := Ethereum]}.
Definition w_config : SubscribeConfig := mkSubscribeConfig "0xpool" (Some 1%nat) Ethereum (Some 5).
Definition w_two : Sub nat := mkSub Receiving true false [5; 5] 2 [7%nat] [7%nat].
Lemma w_two_reachable : rtc (sub_step w_reader w_config) sub_init w_two.
Proof.
  eapply rtc_l; [by eapply (step_fixed_block _ _ _ 5)|].
  eapply rtc_l; [by eapply (step_subscribed _ _ _ 5 0%nat)|].
  eapply rtc_l; [by eapply (step_receive _ _ _ 7%nat)|].
  eapply rtc_l; [by eapply (step_send _ _ _ 7%nat)|].
  eapply rtc_l; [by eapply step_sub_error|].
  eapply rtc_l; [by eapply step_retry|].
  eapply rtc_l; [by eapply (step_fixed_block _ _ _ 5)|].
  eapply rtc_l; [by eapply (step_subscribed _ _ _ 5 0%nat)|].
  reflexivity.
Qed.
Lemma subscription_passes_logs_witness :
  received w_two = sent w_two ++ [] /\ Forall (eq 5) (queries w_two) /\ length (queries w_two) = 2%nat.
Proof.
  pose proof (subscription_passes_logs w_reader w_config w_two w_two_reachable) as (H1 & _ & H3).
  split_and!; [by apply H1|by apply H3|done].
Defined.

End ChainReader.
