(* ===== verification/Uniswap.v ===== *)
(** * The fetcher of the decentralised exchange

    [node/pkg/websocketfetcher/providers/uniswap/uniswap.go]: the price of a
    pool by a contract call, then by its swap events, with the conversion of a
    square root price in [big.Float] arithmetic. *)

From S2P Require Import Prelude Errors Wire Text Strings Float Rounding Reducer FeedData Signing Util Abi Chain Decode WsFetcher ChainReader.
From Stdlib Require Import QArith Qpower Lqa Floats.SpecFloat.
Import Text Strings Float Reducer FeedData Decode Abi Common.

Local Open Scope Z_scope.
Local Open Scope go_scope.

(** ** [math/big.Float] and [math.Pow] *)
Module BigFloat.

(** The exponents of a [big.Float] are 32 bits wide; rounding is to nearest,
    ties to even, to the precision of the variable that takes the result. *)
Definition big_emax : Z := 2 ^ 31.

(** A [new] variable takes the precision of an integer, but at least 64 bits. *)
Definition SetInt (x : Z) : Z * spec_float :=
  let prec := Z.max (Zdigits2 (Z.abs x)) 64 in (prec, binary_normalize prec big_emax x 0 false).

(** What is not a number panics. *)
Definition number (x : spec_float) : option spec_float := match x with S754_nan => None | _ => Some x end.
Definition SetFloat64 (x : float64) : option spec_float := number x.
Definition Quo (prec : Z) (x y : spec_float) : option spec_float := number (SFdiv prec big_emax x y).
Definition Mul (prec : Z) (x y : spec_float) : option spec_float := number (SFmul prec big_emax x y).
Definition Sign (x : spec_float) : Z :=
  match x with S754_zero _ | S754_nan => 0 | S754_infinity s | S754_finite s _ _ => if s then -1 else 1 end.
Definition Float64 (x : spec_float) : float64 :=
  match x with S754_finite s m e => binary_round prec emax s m e | _ => x end.

(** [math.Pow] with an integer exponent, by squaring mantissas: a base that is
    positive and finite. *)
Fixpoint pow_loop (i : positive) (a1 : float64) (ae : Z) (x1 : float64) (xe : Z) : float64 * Z :=
  if (xe <? - 4096) || (4096 <? xe) then (a1, ae + xe) else
  let x2 := fmul x1 x1 in
  let '(x2, xe2) := if fltb x2 (const 1 2) then (fadd x2 x2, 2 * xe - 1) else (x2, 2 * xe) in
  match i with
  | xH => (fmul a1 x1, ae + xe)
  | xO i => pow_loop i a1 ae x2 xe2
  | xI i => pow_loop i (fmul a1 x1) (ae + xe) x2 xe2
  end.
Definition Pow (x : float64) (y : Z) : float64 :=
  if y =? 0 then of_int 1 else if y =? 1 then x else
  match Z.abs y with
  | Zpos i =>
      let '(x1, xe) := SFfrexp prec emax x in
      let '(a1, ae) := pow_loop i (of_int 1) 0 x1 xe in
      let '(a1, ae) := if y <? 0 then (fdiv (of_int 1) a1, - ae) else (a1, ae) in
      SFldexp prec emax a1 ae
  | _ => of_int 1
  end.

End BigFloat.

Module Uniswap.
Import BigFloat.

Definition SLOT0 : string :=
  "function slot0() external view returns (uint160 sqrtPriceX96, int24 tick, uint16 observationIndex, uint16 observationCardinality, uint16 observationCardinalityNext, uint8 feeProtocol, bool unlocked)".
Definition EVENT : string :=
  "event Swap(
    address indexed sender,
    address indexed recipient,
    int256 amount0,
    int256 amount1,
    uint160 sqrtPriceX96,
    uint128 liquidity,
    int24 tick
  )".

Definition isReciprocal (definition : value) : bool :=
  match ref (fld "Reciprocal" definition) with Some (VBool b) => b | _ => false end.

(** The price before it is made a [float64]; [None]: a panic. *)
Definition tokenDatum (sqrtPrice : Z) (decimal0 decimal1 : int64) (reciprocal : bool) : option (res spec_float) :=
  let '(prec, f) := SetInt sqrtPrice in
  two96 ← SetFloat64 (Pow (of_int 2) 96);
  f ← Quo prec f two96;
  f ← Mul prec f f;
  decimalDiff ← SetFloat64 (Pow (of_int 10) (wrap64 (decimal1 - decimal0)));
  datum ← Quo prec f decimalDiff;
  if reciprocal && (Sign datum =? 0) then Some (Err ErrFetcherDivisionByZero)
  else
    datum ← (if reciprocal then Quo prec (of_int 1) datum else Some datum);
    multiplier ← SetFloat64 (Pow (of_int 10) DECIMALS);
    datum ← Mul prec datum multiplier;
    Some (Ok datum).

Definition getTokenPrice (sqrtPrice : option Z) (definition : value) : option (res float64) :=
  let decimal0 := int "Token0Decimals" definition in
  let decimal1 := int "Token1Decimals" definition in
  match sqrtPrice with
  | None => Some (Err ErrFetcherInvalidInput)
  | Some sqrtPrice =>
      if (decimal0 =? 0) || (decimal1 =? 0) then Some (Err ErrFetcherInvalidInput)
      else res_map (fun datum => Round (Float64 datum)) <$> tokenDatum sqrtPrice decimal0 decimal1 (isReciprocal definition)
  end.

(** A value of an ABI: a [*big.Int], nil or not, or of another type. *)
Inductive abi_value : Type := ABigInt (z : option Z) | AOther.

Section uniswap.
Context {CR : Crypto} {TP : TxPackage} {AB : AbiPackage} {Client : Type}.
(** The slice that [Unpack] returns, and the call of a contract by a client. *)
Variable slice_of : Output -> option (list abi_value).
Variable call : Client -> Address -> list Z -> res (list Z).

(** [json.Unmarshal] into a pointer to a struct: null leaves a nil pointer. *)
Definition definition_of (feed : Feed) : res value :=
  let? j := fd_Definition feed in
  decode j (TPtr DexFeedDefinition) (VRef (zero DexFeedDefinition)).

Definition getPriceThroughSlotCall (reader : ChainReader.ChainReader Client) (cache : AbiCache) (definition : value)
    : option (res float64 * AbiCache) :=
  match ChainReader.ChainIdToChainType reader !! str "ChainId" definition with
  | None => Some (Err ErrFetcherNoMatchingChainID, cache)
  | Some chainType =>
      '(rawResult, cache) ← ChainReader.ReadContractOnce call cache reader chainType (str "Address" definition) SLOT0 [];
      match rawResult with
      | Err err => Some (Err err, cache)
      | Ok rawResult =>
          match slice_of rawResult with
          | None | Some [] => Some (Err ErrFetcherFailedToGetDexResultSlice, cache)
          | Some (ABigInt sqrtPrice :: _) => price ← getTokenPrice sqrtPrice definition; Some (price, cache)
          | Some (AOther :: _) => Some (Err ErrFetcherFailedBigIntConvert, cache)
          end
      end
  end.

(** A nil definition panics. *)
Definition getInitialPrice (reader : ChainReader.ChainReader Client) (cache : AbiCache) (feed : Feed)
    : option (res float64 * AbiCache) :=
  match definition_of feed with
  | Err err => Some (Err err, cache)
  | Ok p => definition ← ref p; getPriceThroughSlotCall reader cache definition
  end.

(** What [readSwapEvent] has when it starts to read: the subscription it made
    ([ch] is the channel), and the ABI of the event. *)
Definition readSwapEvent_setup (reader : ChainReader.ChainReader Client) (ch : nat) (definition : value)
    : res (ChainReader.SubscribeConfig * ABI * string) :=
  match ChainReader.ChainIdToChainType reader !! str "ChainId" definition with
  | None => Err ErrFetcherNoMatchingChainID
  | Some chainType =>
      let? (eventName, input, _) := ParseMethodSignature EVENT in
      let? swapEventABI := GenerateEventABI eventName input in
      let? config := ChainReader.Subscribe [ChainReader.WithAddress (str "Address" definition);
                       ChainReader.WithChannel ch; ChainReader.WithChainType chainType] in
      Ok (config, swapEventABI, eventName)
  end.

(** One log with its data, and the clock: the feed data it adds to the buffer;
    [None]: fewer than three values, or a third that is no [*big.Int], panic. *)
Definition handle_log (feed : Feed) (definition : value) (abi : ABI) (eventName : string) (data : list Z) (now : Time)
    : option (list FeedData) :=
  match Unpack abi eventName data with
  | Err _ => Some []
  | Ok out =>
      res ← slice_of out;
      sqrtPrice ← res !! 2%nat;
      match sqrtPrice with
      | AOther => None
      | ABigInt sqrtPrice =>
          price ← getTokenPrice sqrtPrice definition;
          Some (match price with
                | Ok price => [mkFeedData (fd_ID feed) price fzero (Some now)]
                | Err _ => []
                end)
      end
  end.
Fixpoint read_logs (feed : Feed) (definition : value) (abi : ABI) (eventName : string) (logs : list (list Z * Time))
    : option (list FeedData) :=
  match logs with
  | [] => Some []
  | (data, now) :: logs =>
      l ← handle_log feed definition abi eventName data now;
      l' ← read_logs feed definition abi eventName logs;
      Some (l ++ l')
  end.

(** [subscribeEvent] with the logs that come through its channel. *)
Definition subscribeEvent (reader : ChainReader.ChainReader Client) (ch : nat) (feed : Feed) (logs : list (list Z * Time))
    : option (res (list FeedData)) :=
  match definition_of feed with
  | Err err => Some (Err err)
  | Ok p =>
      definition ← ref p;
      match readSwapEvent_setup reader ch definition with
      | Err err => Some (Err err)
      | Ok (_, abi, eventName) => Ok <$> read_logs feed definition abi eventName logs
      end
  end.

(** [run]: everything the goroutine of one feed puts into the buffer. *)
Definition run (reader : ChainReader.ChainReader Client) (cache : AbiCache) (ch : nat) (feed : Feed) (now : Time)
    (logs : list (list Z * Time)) : option (list FeedData * AbiCache) :=
  '(price, cache) ← getInitialPrice reader cache feed;
  match price with
  | Err _ => Some ([], cache)
  | Ok price =>
      let initialFeedData := mkFeedData (fd_ID feed) price fzero (Some now) in
      l ← subscribeEvent reader ch feed logs;
      Some (initialFeedData :: match l with Ok l => l | Err _ => [] end, cache)
  end.
End uniswap.

(** ** The accuracy of the price *)
Section accuracy.
Import Rounding.
Local Open Scope Q_scope.

(** A positive number within the relative error [a] of [y]. *)
Definition near (B : Z) (a : Q) (x : spec_float) (y : Q) : Prop :=
  fin B x /\ approx a (value x) y /\ 0 < y /\ 0 <= a <= (1#8).

Variable p : Z.
Hypothesis Hp : (64 <= p <= 160)%Z.

Lemma ulp_small : pow2 (- p) <= pow2 (- 64) /\ 0 < pow2 (- p).
Proof.
  split; [apply pow2_le; lia|apply pow2_pos].
Qed.

Lemma near_round B a b x z y :
  fin B x -> approx (pow2 (- p)) (value x) z -> approx a z y -> 0 < y -> 0 <= a -> a + 2 * pow2 (- 64) <= b -> b <= 1#8 ->
  near B b x y.
Proof.
  intros Hf H1 H2 Hy Ha Hb Hb'. destruct ulp_small as [Hu Hu0].
  assert (H64 : 0 < pow2 (- 64)) by apply pow2_pos.
  assert (H64' : pow2 (- 64) <= (1#8)) by (by vm_compute).
  assert (Hz : 0 <= z) by (destruct H2 as [H2 _]; nra).
  split_and!; [done| |done|lra|done].
  apply (approx_le (a + 2 * pow2 (- 64))); [lra|done|].
  eapply approx_trans; [lra|done|lra|lra| |exact H2]. eapply approx_le; [done|exact Hu|done].
Qed.

Lemma near_mul B1 B2 a1 a2 b x1 x2 y1 y2 :
  near B1 a1 x1 y1 -> near B2 a2 x2 y2 -> (4 * (B1 + B2) + 2 * p + 3 < big_emax)%Z ->
  a1 + 2 * a2 + 2 * pow2 (- 64) <= b -> b <= 1#8 ->
  near (4 * (B1 + B2) + 2 * p) b (SFmul p big_emax x1 x2) (y1 * y2).
Proof.
  intros (Hf1 & Ha1 & Hy1 & Hr1) (Hf2 & Ha2 & Hy2 & Hr2) HB Hb Hb'.
  destruct (SFmul_near p big_emax ltac:(lia) B1 B2 x1 x2 Hf1 Hf2 HB) as [Hf Ha].
  eapply near_round; [exact Hf|exact Ha|apply approx_mul; [..|exact Ha1|exact Ha2]| | |exact Hb|done]; try lra; nra.
Qed.

Lemma near_inv B a x y : near B a x y -> approx (2 * a) (/ value x) (/ y).
Proof. intros (_ & Ha & Hy & Hr). apply approx_inv; [done|lra|lra|done]. Qed.

Lemma near_div B1 B2 a1 a2 b x1 x2 y1 y2 :
  near B1 a1 x1 y1 -> near B2 a2 x2 y2 -> (4 * (B1 + B2) + 2 * p + 3 < big_emax)%Z ->
  a1 + 4 * a2 + 2 * pow2 (- 64) <= b -> b <= 1#8 ->
  near (4 * (B1 + B2) + 2 * p) b (SFdiv p big_emax x1 x2) (y1 / y2).
Proof.
  intros H1 H2 HB Hb Hb'. pose proof (near_inv _ _ _ _ H2) as Hinv.
  destruct H1 as (Hf1 & Ha1 & Hy1 & Hr1), H2 as (Hf2 & Ha2 & Hy2 & Hr2).
  destruct (SFdiv_near p big_emax ltac:(lia) B1 B2 x1 x2 Hf1 Hf2 HB) as [Hf Ha].
  assert (Hyi : 0 < / y2) by (by apply Qinv_lt_0_compat).
  eapply (near_round _ (a1 + 2 * (2 * a2))); [exact Hf|exact Ha| | | | |done]; unfold Qdiv.
  - apply approx_mul; [lra|lra|lra|lra|exact Ha1|exact Hinv].
  - nra.
  - lra.
  - lra.
Qed.

Lemma near_number B a x y : near B a x y -> number x = Some x.
Proof. intros [(m & e & -> & _) _]. done. Qed.

(** A power of ten as [Pow] computes it. *)
Definition ten (k : Z) : Q := (10#1) ^ k.
Definition pow_check (k : Z) : bool :=
  match Pow (of_int 10) k with
  | S754_finite false m e =>
      (Zpos m <? 2 ^ 200)%Z && (-200 <=? e)%Z && (e <=? 200)%Z &&
      Qle_bool (ten k * (1 - pow2 (- 53))) (inject_Z (Zpos m) * pow2 e) &&
      Qle_bool (inject_Z (Zpos m) * pow2 e) (ten k * (1 + pow2 (- 53)))
  | _ => false
  end.
Lemma pow_checked : forallb pow_check (seqZ (-22) 45) = true.
Proof. vm_compute. reflexivity. Qed.

Lemma ten_pos k : 0 < ten k.
Proof. by apply Qpower_0_lt. Qed.

Lemma Pow_near k : (-22 <= k <= 22)%Z -> near 200 (pow2 (- 53)) (Pow (of_int 10) k) (ten k).
Proof.
  intros Hk. pose proof pow_checked as H. rewrite forallb_forall in H.
  specialize (H k ltac:(apply list_elem_of_In, elem_of_seqZ; lia)). unfold pow_check in H.
  destruct (Pow (of_int 10) k) as [| | |[] m e]; try done.
  rewrite !andb_true_iff, !Z.leb_le, Z.ltb_lt, !Qle_bool_iff in H. destruct H as [[[[Hm He1] He2] H1] H2].
  split_and!; [by exists m, e|split; rewrite value_finite; done|apply ten_pos|by vm_compute|by vm_compute].
Qed.
End accuracy.

Section price.
Import Rounding.
Local Open Scope Q_scope.

Lemma SetInt_near s : (0 < s < 2 ^ 160)%Z ->
  (64 <= (SetInt s).1 <= 160)%Z /\ near 320 0 (SetInt s).2 (inject_Z s).
Proof.
  intros Hs. destruct s as [|m|]; try lia. unfold SetInt. cbn [fst snd]. change (Z.abs (Zpos m)) with (Zpos m).
  pose proof (digits_le _ _ Hs) as Hd. set (p := Z.max (Zdigits2 (Zpos m)) 64) in *.
  assert (Hp : (64 <= p <= 160)%Z) by lia. split; [done|].
  change (binary_normalize p big_emax (Zpos m) 0 false) with (binary_round p big_emax false m 0).
  destruct (binary_round_near p big_emax ltac:(lia) false m 0) as (m' & e' & -> & _ & Hex & Hm & He);
    [unfold emin, big_emax; lia|unfold big_emax; lia|].
  assert (Hv : value (S754_finite false m' e') == inject_Z (Zpos m)).
  { rewrite value_finite, Hex by lia. change (pow2 0) with 1. ring. }
  split; [|split; [unfold approx; rewrite Hv; lra|done]].
  exists m', e'. split; [done|]. split; [eapply pow_le_mono; [exact Hm|lia]|lia].
Qed.

(** The price of one unit of the first token, in units of the second. *)
Definition exactPrice (sqrtPrice decimal0 decimal1 : Z) (reciprocal : bool) : Q :=
  let ratio := (inject_Z sqrtPrice / pow2 96) * (inject_Z sqrtPrice / pow2 96) / ten (decimal1 - decimal0) in
  (if reciprocal then 1 / ratio else ratio) * ten 8.

Local Ltac step H := rewrite (near_number _ _ _ _ H); cbv beta iota delta [mbind option_bind].
Lemma tokenDatum_near sqrtPrice decimal0 decimal1 reciprocal :
  (0 < sqrtPrice < 2 ^ 160)%Z -> (-22 <= decimal1 - decimal0 <= 22)%Z ->
  exists B x, tokenDatum sqrtPrice decimal0 decimal1 reciprocal = Some (Ok x) /\
    near B (pow2 (- 48)) x (exactPrice sqrtPrice decimal0 decimal1 reciprocal).
Proof.
  intros Hs Hd. unfold tokenDatum, exactPrice. rewrite wrap64_id by (unfold in_int64, min_int64, max_int64; lia).
  destruct (SetInt_near sqrtPrice Hs) as [Hp Hf]. destruct (SetInt sqrtPrice) as [p f]. cbn [fst snd] in *.
  assert (H96 : near 100 0 (Pow (of_int 2) 96) (pow2 96)).
  { split; [|split; [|split; [apply pow2_pos|split; [done|by vm_compute]]]].
    - exists 4503599627370496%positive, 44%Z. split; [vm_compute; done|lia].
    - split; vm_compute; done. }
  assert (H8 : near 100 0 (Pow (of_int 10) 8) (ten 8)).
  { split; [|split; [|split; [apply ten_pos|split; [done|by vm_compute]]]].
    - exists 6710886400000000%positive, (-26)%Z. split; [vm_compute; done|lia].
    - split; vm_compute; done. }
  assert (H1 : near 100 0 (of_int 1) 1).
  { split; [|split; [|split; [done|split; [done|by vm_compute]]]].
    - exists 4503599627370496%positive, (-52)%Z. split; [vm_compute; done|lia].
    - split; vm_compute; done. }
  pose proof (Pow_near (decimal1 - decimal0) Hd) as H10.
  pose proof (near_div p Hp _ _ _ _ (2 * pow2 (- 64)) _ _ _ _ Hf H96 ltac:(unfold big_emax; lia)
    ltac:(by vm_compute) ltac:(by vm_compute)) as Hq1.
  pose proof (near_mul p Hp _ _ _ _ (8 * pow2 (- 64)) _ _ _ _ Hq1 Hq1 ltac:(unfold big_emax; lia)
    ltac:(by vm_compute) ltac:(by vm_compute)) as Hq2.
  pose proof (near_div p Hp _ _ _ _ (5 * pow2 (- 53)) _ _ _ _ Hq2 H10 ltac:(unfold big_emax; lia)
    ltac:(by vm_compute) ltac:(by vm_compute)) as Hq3.
  unfold SetFloat64, Quo, Mul.
  step H96. step Hq1.
  step Hq2. step H10.
  step Hq3.
  set (datum := SFdiv p big_emax (SFmul p big_emax _ _) _) in *.
  assert (Hsign : reciprocal && (Sign datum =? 0)%Z = false).
  { destruct Hq3 as [(m & e & -> & _) _]. by destruct reciprocal. }
  rewrite Hsign. unfold DECIMALS. destruct reciprocal.
  - pose proof (near_div p Hp _ _ _ _ (21 * pow2 (- 53)) _ _ _ _ H1 Hq3 ltac:(unfold big_emax; lia)
      ltac:(by vm_compute) ltac:(by vm_compute)) as Hq4.
    pose proof (near_mul p Hp _ _ _ _ (pow2 (- 48)) _ _ _ _ Hq4 H8 ltac:(unfold big_emax; lia)
      ltac:(by vm_compute) ltac:(by vm_compute)) as Hq5.
    step Hq4. step H8.
    step Hq5. eexists _, _. split; [done|exact Hq5].
  - pose proof (near_mul p Hp _ _ _ _ (pow2 (- 48)) _ _ _ _ Hq3 H8 ltac:(unfold big_emax; lia)
      ltac:(by vm_compute) ltac:(by vm_compute)) as Hq5.
    cbv beta iota delta [mbind option_bind]. step H8.
    step Hq5. eexists _, _. split; [done|exact Hq5].
Qed.

Lemma ten_checked : forallb (fun k => Qle_bool (pow2 (- 74)) (ten k) && Qle_bool (ten k) (pow2 74)) (seqZ (-22) 45) = true.
Proof. vm_compute. reflexivity. Qed.
Lemma ten_bounds k : (-22 <= k <= 22)%Z -> pow2 (- 74) <= ten k /\ ten k <= pow2 74.
Proof.
  intros Hk. pose proof ten_checked as H. rewrite forallb_forall in H.
  specialize (H k ltac:(apply list_elem_of_In, elem_of_seqZ; lia)).
  by rewrite andb_true_iff, !Qle_bool_iff in H.
Qed.

(** Numbers between [2 ^ - a] and [2 ^ a]. *)
Definition within (a : Z) (x : Q) : Prop := pow2 (- a) <= x /\ x <= pow2 a.
Lemma within_mul a b x y : within a x -> within b y -> within (a + b) (x * y).
Proof.
  unfold within. intros [H1 H2] [H3 H4]. pose proof (pow2_pos (- a)). pose proof (pow2_pos (- b)).
  rewrite pow2_plus. replace (- (a + b))%Z with (- a + - b)%Z by lia. rewrite pow2_plus. split; nra.
Qed.
Lemma within_inv a x : within a x -> within a (/ x).
Proof.
  unfold within. intros [H1 H2]. pose proof (pow2_pos (- a)). pose proof (pow2_pos a). pose proof (pow2_cancel a).
  assert (0 < / x) by (apply Qinv_lt_0_compat; lra). assert (x * / x == 1) by (field; lra).
  set (y := / x) in *. set (u := pow2 a) in *. set (v := pow2 (- a)) in *. clearbody y u v. split; nra.
Qed.

Lemma exactPrice_within s d0 d1 r : (0 < s < 2 ^ 160)%Z -> (-22 <= d1 - d0 <= 22)%Z -> within 613 (exactPrice s d0 d1 r).
Proof.
  intros Hs Hd. unfold exactPrice.
  assert (H1 : within 160 (inject_Z s)).
  { split.
    - assert (Hs1 : (1 <= s)%Z) by lia. rewrite Zle_Qle in Hs1. change (inject_Z 1) with 1 in Hs1.
      assert (pow2 (Z.opp 160) <= 1) by (by vm_compute). lra.
    - rewrite pow2_Z by lia. rewrite <-Zle_Qle. lia. }
  assert (H2 : within 96 (pow2 96)) by (split; by vm_compute).
  assert (H3 : within 74 (ten (d1 - d0))) by (by apply ten_bounds).
  assert (H8 : within 27 (ten 8)) by (split; by vm_compute).
  assert (H4 : within 256 (inject_Z s / pow2 96)) by (apply (within_mul 160 96); [done|by apply within_inv]).
  set (q := inject_Z s / pow2 96) in *.
  assert (H5 : within 586 (q * q / ten (d1 - d0))).
  { apply (within_mul 512 74); [by apply (within_mul 256 256)|by apply within_inv]. }
  destruct r; [|by apply (within_mul 586 27)].
  apply (within_mul 586 27); [|done]. apply (within_mul 0 586); [split; by vm_compute|by apply within_inv].
Qed.

Lemma price_near sqrtPrice definition :
  (0 < sqrtPrice < 2 ^ 160)%Z ->
  int "Token0Decimals" definition <> 0%Z -> int "Token1Decimals" definition <> 0%Z ->
  (-22 <= int "Token1Decimals" definition - int "Token0Decimals" definition <= 22)%Z ->
  exists price, getTokenPrice (Some sqrtPrice) definition = Some (Ok price) /\ finite price = true /\
    let exact := exactPrice sqrtPrice (int "Token0Decimals" definition) (int "Token1Decimals" definition)
                   (isReciprocal definition) in
    exact * (1 - pow2 (- 47)) - (1#2) <= value price /\ value price <= exact * (1 + pow2 (- 47)) + (1#2).
Proof.
  intros Hs H0 H1 Hd. unfold getTokenPrice.
  rewrite (proj2 (Z.eqb_neq _ _) H0), (proj2 (Z.eqb_neq _ _) H1). cbn [orb].
  destruct (tokenDatum_near sqrtPrice _ _ (isReciprocal definition) Hs Hd) as (B & x & -> & Hf & Ha & Hy & _).
  pose proof (exactPrice_within sqrtPrice _ _ (isReciprocal definition) Hs Hd) as [Hw1 Hw2].
  set (y := exactPrice _ _ _ _) in *. clearbody y.
  destruct Hf as (m & e & -> & _). unfold approx in Ha. rewrite value_finite in Ha.
  cbn [fmap option_fmap option_map res_map Float64].
  assert (Hs48 : 0 < pow2 (- 48) /\ pow2 (- 48) <= 1#2) by (split; [apply pow2_pos|by vm_compute]).
  assert (Hu : pow2 (Z.opp 613) * (1#2) >= pow2 (- 700) /\ pow2 613 * 2 <= pow2 700) by (split; by vm_compute).
  destruct (to_float64_near m e) as (m' & e' & -> & Ha' & Hm' & He'); [nra|nra|].
  destruct (Round_near m' e' Hm' He') as (Hfin & Hr1 & Hr2). eexists. split; [reflexivity|]. split; [exact Hfin|].
  assert (Ht : approx (pow2 (- 48) + 2 * pow2 (- 53)) (value (S754_finite false m' e')) y).
  { eapply approx_trans; [lra|lra|split; by vm_compute|lra|exact Ha'|exact Ha]. }
  assert (Hsum : pow2 (- 48) + 2 * pow2 (- 53) <= pow2 (- 47)) by (by vm_compute).
  apply (approx_le _ (pow2 (- 47))) in Ht; [|lra|done]. destruct Ht. lra.
Qed.

Lemma price_zero definition :
  int "Token0Decimals" definition <> 0%Z -> int "Token1Decimals" definition <> 0%Z ->
  (-22 <= int "Token1Decimals" definition - int "Token0Decimals" definition <= 22)%Z ->
  getTokenPrice (Some 0%Z) definition =
    Some (if isReciprocal definition then Err ErrFetcherDivisionByZero else Ok (S754_zero false)).
Proof.
  intros H0 H1 Hd. unfold getTokenPrice. rewrite (proj2 (Z.eqb_neq _ _) H0), (proj2 (Z.eqb_neq _ _) H1). cbn [orb].
  unfold tokenDatum. rewrite wrap64_id by (unfold in_int64, min_int64, max_int64; lia).
  destruct (Pow_near _ Hd) as [(m & e & -> & _) _]. destruct (isReciprocal definition); vm_compute; reflexivity.
Qed.

(** C35: The price of a pool, for a square root price that is nil or has 160 bits
    and decimals at most 22 apart.  It never panics.  Without a square root price,
    or when the decimals of a token are 0, as they are when they are missing, it
    is the error [ErrFetcherInvalidInput]; the square root price 0 gives the price
    0, or [ErrFetcherDivisionByZero] for a pool read the other way round; any
    other has a price: the [float64] that is stored is the exact price in units
    of [10 ^ -8] up to a relative error of [2 ^ -47] and the rounding to an
    integer, for a pool read either way round. *)
Theorem price_accurate sqrtPrice definition :
  (forall z, sqrtPrice = Some z -> 0 <= z < 2 ^ 160)%Z ->
  (-22 <= int "Token1Decimals" definition - int "Token0Decimals" definition <= 22)%Z ->
  let decimal0 := int "Token0Decimals" definition in
  let decimal1 := int "Token1Decimals" definition in
  match sqrtPrice with
  | None => getTokenPrice sqrtPrice definition = Some (Err ErrFetcherInvalidInput)
  | Some z =>
      if ((decimal0 =? 0) || (decimal1 =? 0))%Z then getTokenPrice sqrtPrice definition = Some (Err ErrFetcherInvalidInput)
      else if (z =? 0)%Z then
        getTokenPrice sqrtPrice definition =
          Some (if isReciprocal definition then Err ErrFetcherDivisionByZero else Ok (S754_zero false))
      else
        exists price, getTokenPrice sqrtPrice definition = Some (Ok price) /\ finite price = true /\
          let exact := exactPrice z decimal0 decimal1 (isReciprocal definition) in
          exact * (1 - pow2 (- 47)) - (1#2) <= value price /\ value price <= exact * (1 + pow2 (- 47)) + (1#2)
  end.
Proof.
  intros Hs Hd decimal0 decimal1. destruct sqrtPrice as [z|]; [|done]. specialize (Hs z eq_refl).
  destruct ((decimal0 =? 0) || (decimal1 =? 0))%Z eqn:Hz.
  { unfold getTokenPrice. fold decimal0 decimal1. by rewrite Hz. }
  apply orb_false_iff in Hz as [H0%Z.eqb_neq H1%Z.eqb_neq]. destruct (Z.eqb_spec z 0) as [->|Hne].
  - by apply price_zero.
  - apply price_near; [lia|done|done|done].
Qed.
End price.

Section run.
Context {CR : Crypto} {TP : TxPackage} {AB : AbiPackage} {Client : Type}.
Variable slice_of : Output -> option (list abi_value).
Variable call : Client -> Address -> list Z -> res (list Z).

(** A price of 160 bits never panics, the price zero included. *)
Lemma getTokenPrice_total z definition :
  0 <= z < 2 ^ 160 -> -22 <= int "Token1Decimals" definition - int "Token0Decimals" definition <= 22 ->
  is_Some (getTokenPrice (Some z) definition).
Proof.
  intros Hz Hd. unfold getTokenPrice. destruct (_ || _); [by eexists|].
  apply fmap_is_Some. destruct (decide (z = 0)) as [->|Hne].
  2: { destruct (tokenDatum_near z _ _ (isReciprocal definition) ltac:(lia) Hd) as (B & x & -> & _). by eexists. }
  unfold tokenDatum. rewrite wrap64_id by (unfold in_int64, min_int64, max_int64; lia).
  destruct (Pow_near _ Hd) as [(m & e & -> & _) _]. destruct (isReciprocal definition).
  - exists (Err ErrFetcherDivisionByZero). vm_compute. reflexivity.
  - exists (Ok (S754_zero false)). vm_compute. reflexivity.
Qed.

(** What the ABI package makes of the output of [slot0] and of a swap event: a
    square root price of 160 bits is the first and the third value. *)
Definition price_at (i : nat) (out : Output) : Prop :=
  exists l z, slice_of out = Some l /\ l !! i = Some (ABigInt (Some z)) /\ 0 <= z < 2 ^ 160.

Lemma handle_log_total feed definition abi name data now :
  -22 <= int "Token1Decimals" definition - int "Token0Decimals" definition <= 22 ->
  (forall out, Unpack abi name data = Ok out -> price_at 2 out) ->
  exists l, handle_log slice_of feed definition abi name data now = Some l /\
    Forall (fun d => FeedID d = fd_ID feed /\ Timestamp d = Some now) l.
Proof.
  intros Hd Hout. unfold handle_log. destruct (Unpack abi name data) as [out|]; [|by exists []].
  destruct (Hout out eq_refl) as (l & z & -> & Hl & Hz). cbn [mbind option_bind]. rewrite Hl. cbn [mbind option_bind].
  destruct (getTokenPrice_total z definition Hz Hd) as [[price|err] ->]; cbn [mbind option_bind]; eexists; split; try done.
  by apply Forall_singleton.
Qed.

Lemma read_logs_total feed definition abi name logs :
  -22 <= int "Token1Decimals" definition - int "Token0Decimals" definition <= 22 ->
  (forall data out, Unpack abi name data = Ok out -> price_at 2 out) ->
  exists l, read_logs slice_of feed definition abi name logs = Some l /\
    Forall (fun d => FeedID d = fd_ID feed /\ exists t, Timestamp d = Some t /\ t ∈ logs.*2) l.
Proof.
  intros Hd Hout. induction logs as [|[data now] logs (l' & IH & Hl')]; [by exists []|]. simpl.
  destruct (handle_log_total feed definition abi name data now Hd (Hout data)) as (l & -> & Hl). simpl. rewrite IH. simpl.
  eexists. split; [done|]. apply Forall_app. split; eapply Forall_impl; try done; simpl; [|set_solver].
  intros d [? ?]. split; [done|]. exists now. split; [done|]. set_solver.
Qed.

Definition swap_inputs : string :=
  "address indexed sender,     address indexed recipient,     int256 amount0,     int256 amount1,     uint160 sqrtPriceX96,     uint128 liquidity,     int24 tick".
Definition slot0_outputs : string :=
  "uint160 sqrtPriceX96, int24 tick, uint16 observationIndex, uint16 observationCardinality, uint16 observationCardinalityNext, uint8 feeProtocol, bool unlocked".
Lemma slot0_name generate a name : fresh generate SLOT0 = Ok (a, name) -> name = "slot0"%string.
Proof.
  unfold fresh. replace (ParseMethodSignature SLOT0) with (Ok ("slot0"%string, ""%string, slot0_outputs))
    by (vm_compute; reflexivity).
  simpl. destruct (generate _ _ _); [|done]. by intros [= _ <-].
Qed.

Lemma ReadContract_slot0 cache CallContract address out cache' :
  cache_ok cache -> Chain.ReadContract cache (Some CallContract) SLOT0 address [] = (Ok out, cache') ->
  exists abi data, Unpack abi "slot0" data = Ok out.
Proof.
  intros Hc. unfold Chain.ReadContract. case_bool_decide; [done|]. case_bool_decide; [done|].
  destruct (abiOf GenerateViewABI cache SLOT0) as [r c'] eqn:Ha.
  destruct (abiOf_spec _ _ _ _ _ (or_intror eq_refl) Hc Ha) as [_ Hr].
  destruct r as [[abi name]|]; simpl; [|done].
  assert (Hname : name = "slot0"%string).
  { destruct Hr as [Hr|(a & [= <-] & _ & [Hr|Hr])]; by eapply slot0_name. }
  subst name. destruct (Pack abi "slot0" []) as [d|]; simpl; [|done].
  destruct (CallContract _ d) as [r|]; simpl; [|done]. intros [= Hu _]. eauto.
Qed.

(** What the goroutine of a feed puts into the buffer. *)
Definition run_data (feed : Feed) (now : Time) (logs : list (list Z * Time)) (l : list FeedData) : Prop :=
  Forall (fun d => FeedID d = fd_ID feed /\ exists t, Timestamp d = Some t /\ t ∈ now :: logs.*2) l.

(** With a chain reader that was set up, a feed with a definition whose
    decimals are at most 22 apart, and an ABI package that gives square root
    prices of 160 bits, the goroutine of the feed never panics (no client is
    nil, no value is missing, no division by zero), whatever the pool's calls
    and logs answer; every feed data is of the feed and carries the time of the
    initial call or of a log. *)
Theorem dex_run_total E opts (reader : ChainReader.ChainReader Client) cache ch feed definition now logs :
  ChainReader.New E opts = Ok reader -> cache_ok cache ->
  definition_of feed = Ok (VRef definition) ->
  -22 <= int "Token1Decimals" definition - int "Token0Decimals" definition <= 22 ->
  (forall abi data out, Unpack abi "slot0" data = Ok out -> price_at 0 out) ->
  (forall abi data out, Unpack abi "Swap" data = Ok out -> price_at 2 out) ->
  exists l cache', run slice_of call reader cache ch feed now logs = Some (l, cache') /\ run_data feed now logs l.
Proof.
  intros HN Hc Hdef Hd Hslot Hswap. apply ChainReader.New_ok in HN.
  unfold run, getInitialPrice, subscribeEvent. rewrite Hdef. simpl ref. cbn [mbind option_bind].
  unfold getPriceThroughSlotCall, readSwapEvent_setup.
  destruct (ChainReader.ChainIdToChainType reader !! _) as [t|] eqn:Ht; cbn [mbind option_bind];
    [|eexists _, _; split; [done|constructor]].
  destruct (HN _ _ Ht) as [cl Hcl]. unfold ChainReader.ReadContractOnce. rewrite Hcl. cbn [mbind option_bind].
  destruct (Chain.ReadContract cache (Some (call cl)) SLOT0 _ []) as [[out|err] c'] eqn:Hread;
    cbn [mbind option_bind]; [|eexists _, _; split; [done|constructor]].
  destruct (ReadContract_slot0 _ _ _ _ _ Hc Hread) as (abi & data & Hu).
  destruct (Hslot _ _ _ Hu) as (vs & z & -> & Hv & Hz). destruct vs as [|v vs]; [done|]. injection Hv as ->.
  destruct (getTokenPrice_total z definition Hz Hd) as [[price|err] ->]; cbn [mbind option_bind];
    [|eexists _, _; split; [done|constructor]].
  replace (ParseMethodSignature EVENT) with (Ok ("Swap"%string, swap_inputs, ""%string)) by (vm_compute; reflexivity).
  cbn [res_bind].
  destruct (GenerateEventABI "Swap" swap_inputs) as [abi'|]; cbn [res_bind mbind option_bind].
  2: { eexists _, _. split; [done|]. apply Forall_singleton. split; [done|]. exists now. split; [done|]. apply list_elem_of_here. }
  destruct (ChainReader.Subscribe _) as [config|]; cbn [res_bind mbind option_bind].
  2: { eexists _, _. split; [done|]. apply Forall_singleton. split; [done|]. exists now. split; [done|]. apply list_elem_of_here. }
  destruct (read_logs_total feed definition abi' "Swap" logs Hd (Hswap abi')) as (l & -> & Hl).
  eexists _, _. split; [done|]. constructor; [split; [done|]; exists now; split; [done|]; apply list_elem_of_here|].
  eapply Forall_impl; [exact Hl|]. intros d (Hid & t' & Ht' & Hin). split; [done|]. exists t'. split; [done|].
  by apply list_elem_of_further.
Qed.
End run.

(** ** A pool of DAI (18 decimals) and USDT (6 decimals), read as it is and the
    other way round *)
Definition w_pool (reciprocal : bool) : Feed := mkFeed 7 (Ok (JObj
  [("type", JStr "UniswapPool"); ("chainId", JStr "1"); ("address", JStr "0xpool"); ("reciprocal", JBool reciprocal);
   ("token0Decimals", JNum (of_int 18)); ("token1Decimals", JNum (of_int 6))]%string)).
Definition w_def (reciprocal : bool) : value := VStruct
  [("Type", VString "UniswapPool"); ("Address", VString "0xpool"); ("ChainId", VString "1");
   ("Token0Decimals", VInt 18); ("Token1Decimals", VInt 6); ("Reciprocal", VRef (VBool reciprocal))].
Example w_pool_def : definition_of (w_pool true) = Ok (VRef (w_def true)) /\
                     definition_of (w_pool false) = Ok (VRef (w_def false)).
Proof. split; vm_compute; reflexivity. Qed.

(** One DAI for [0.9996] USDT, and one USDT for [1.0004] DAI. *)
Definition w_sqrt : Z := 79212315297535213725824.
Example w_prices : getTokenPrice (Some w_sqrt) (w_def false) = Some (Ok (of_int 99960000)) /\
                   getTokenPrice (Some w_sqrt) (w_def true) = Some (Ok (of_int 100040016)).
Proof. split; vm_compute; reflexivity. Qed.

Lemma price_accurate_witness : exists price,
  getTokenPrice (Some w_sqrt) (w_def true) = Some (Ok price) /\ Rounding.finite price = true.
Proof.
  destruct (price_accurate (Some w_sqrt) (w_def true)) as (price & H1 & H2 & _);
    [intros z [= <-]; vm_compute; done|vm_compute; done|].
  exists price. split; [exact H1|exact H2].
Defined.

Definition w_abi : AbiPackage := {|
  ABI := unit; Arg := Z; Output := unit; abi_JSON s := Ok (); Pack _ name args := Ok []; Unpack _ _ bs := Ok () |}.
Definition w_slice (out : unit) : option (list abi_value) :=
  Some [ABigInt (Some w_sqrt); AOther; ABigInt (Some w_sqrt); AOther; AOther].
Definition w_dial : ChainReader.DialEnv nat :=
  ChainReader.mkDialEnv (fun _ => Ok 0%nat) (fun _ => Err (External "dial")) (fun _ => Ok 1).
Lemma dex_run_total_witness : exists reader l cache',
  ChainReader.New w_dial [ChainReader.WithEthWebsocketUrl "ws://eth"] = Ok reader /\
  @run _ Chain.toy_package w_abi _ w_slice (fun _ _ _ => Ok []) reader (@newAbiCache w_abi) 1 (w_pool true) 50 [([], 60); ([], 70)]
    = Some (l, cache') /\ run_data (w_pool true) 50 [([], 60); ([], 70)] l.
Proof.
  pose (reader := ChainReader.mkChainReader (Some 0%nat) None Second {["1"%string := ChainReader.Ethereum]}).
  assert (Hp : forall i, i = 0%nat \/ i = 2%nat -> price_at (AB := w_abi) w_slice i ()).
  { intros i Hi. eexists _, w_sqrt. split; [reflexivity|]. split; [destruct Hi; subst; reflexivity|vm_compute; done]. }
  destruct (@dex_run_total _ Chain.toy_package w_abi nat w_slice (fun _ _ _ => Ok []) w_dial
    [ChainReader.WithEthWebsocketUrl "ws://eth"] reader newAbiCache 1 (w_pool true) (w_def true) 50 [([], 60); ([], 70)])
    as (l & cache' & Hr & Hl);
    [vm_compute; reflexivity|apply newAbiCache_ok|vm_compute; reflexivity|vm_compute; done|
     intros abi data []; intros; apply Hp; auto|intros abi data []; intros; apply Hp; auto|].
  exists reader, l, cache'. split; [vm_compute; reflexivity|]. split; [exact Hr|exact Hl].
Defined.

End Uniswap.
