(* ===== verification/Logs.v ===== *)
(** * Log services

    [node/pkg/logscribeconsumer]: the writer behind every service's logger,
    which posts batches of log entries; [node/pkg/logscribe]: the server that
    stores them and reports the most frequent ones as issues.  The logging
    library, the database and the issue tracker are third-party: their answers
    are arguments.  Runs that create issues are interleaved, statement by
    statement and attempt by attempt. *)

From S2P Require Import Prelude Errors Wire Text Strings Float Reducer Util.
From Stdlib Require Import Ascii.
Import Text Strings Float Reducer.

Local Open Scope Z_scope.
Local Open Scope go_scope.

(** ** The consumer *)
Module Consumer.

Definition DefaultLogStoreInterval : Z := 10 * Second.
Definition DefaultBufferSize : Z := 3000.
Definition DefaultLogscribeEndpoint : string := "http://orakl-logscribe.orakl.svc.cluster.local:3000/api/v1/".
Definition ProcessLogsBatchSize : nat := 1000.

(** Levels of the logging library: errors are 3, warnings 2. *)
Definition ErrorLevel : Z := 3.
Definition WarnLevel : Z := 2.

Record AppConfig : Type := mkAppConfig {
  c_StoreInterval : Z; c_Buffer : Z; c_LogscribeEndpoint : string; c_Service : string; c_Level : string;
  c_PostToLogscribe : bool }.
Definition WithBuffer (buffer : Z) (c : AppConfig) : AppConfig :=
  mkAppConfig (c_StoreInterval c) (if buffer <=? 0 then DefaultBufferSize else buffer) (c_LogscribeEndpoint c)
    (c_Service c) (c_Level c) (c_PostToLogscribe c).
Definition WithStoreInterval (interval : Z) (c : AppConfig) : AppConfig :=
  mkAppConfig (if interval <=? 0 then DefaultLogStoreInterval else interval) (c_Buffer c) (c_LogscribeEndpoint c)
    (c_Service c) (c_Level c) (c_PostToLogscribe c).
Definition WithLogscribeEndpoint (endpoint : string) (c : AppConfig) : AppConfig :=
  mkAppConfig (c_StoreInterval c) (c_Buffer c) endpoint (c_Service c) (c_Level c) (c_PostToLogscribe c).
Definition WithStoreService (service : string) (c : AppConfig) : AppConfig :=
  mkAppConfig (c_StoreInterval c) (c_Buffer c) (c_LogscribeEndpoint c) service (c_Level c) (c_PostToLogscribe c).
Definition WithStoreLevel (level : string) (c : AppConfig) : AppConfig :=
  mkAppConfig (c_StoreInterval c) (c_Buffer c) (c_LogscribeEndpoint c) (c_Service c) level (c_PostToLogscribe c).
Definition WithPostToLogscribe (post : bool) (c : AppConfig) : AppConfig :=
  mkAppConfig (c_StoreInterval c) (c_Buffer c) (c_LogscribeEndpoint c) (c_Service c) (c_Level c) post.

(** [strconv.ParseBool]. *)
Definition ParseBool (s : string) : option bool :=
  if bool_decide (s ∈ ["1"; "t"; "T"; "TRUE"; "true"; "True"]%string) then Some true
  else if bool_decide (s ∈ ["0"; "f"; "F"; "FALSE"; "false"; "False"]%string) then Some false
  else None.

Abbreviation entry := (gmap string json).

(** The record of one log line, as it is posted and stored; [Fields] is what is
    left of the entry, as JSON. *)
Record LogInsertModel : Type := mkLog {
  Service : string; Timestamp : Time; Level : Z; Message : string; Fields : entry }.

Record App : Type := mkApp {
  StoreInterval : Z; capacity : Z; LogscribeEndpoint : string; a_Service : string; a_Level : Z; PostToLogscribe : bool }.

Section consumer.
(** The level of a name, by the logging library. *)
Variable ParseLevel : string -> res Z.

(** [ping]: what the endpoint answers. *)
Definition New (Getenv : string -> string) (ping : string -> res Z) (opts : list (AppConfig -> AppConfig)) : res App :=
  let postToLogscribe := default true (ParseBool (Getenv "POST_TO_LOGSCRIBE")) in
  let level := if bool_decide (Getenv "LOGSCRIBE_LOG_LEVEL" = ""%string) then "error"%string else Getenv "LOGSCRIBE_LOG_LEVEL" in
  let c := fold_left (fun c opt => opt c) opts
    (mkAppConfig DefaultLogStoreInterval DefaultBufferSize DefaultLogscribeEndpoint "" level postToLogscribe) in
  if c_PostToLogscribe c && negb (bool_decide (ping (c_LogscribeEndpoint c) = Ok 200))
  then Err ErrLogscribeConsumerEndpointUnresponsive
  else if bool_decide (c_Service c = ""%string) then Err ErrLogscribeConsumerServiceNotProvided
  else
    let level := match ParseLevel (c_Level c) with Ok l => l | Err _ => ErrorLevel end in
    Ok (mkApp (c_StoreInterval c) (c_Buffer c) (c_LogscribeEndpoint c) (c_Service c) level (c_PostToLogscribe c)).

(** The level of the global logger that [setup] sets. *)
Definition consoleLogLevel (Getenv : string -> string) : Z :=
  match ParseLevel (Getenv "LOG_LEVEL") with Ok l => l | Err _ => WarnLevel end.

(** The bytes of a line as JSON; null leaves an empty map. *)
Definition byte2Entry (b : res json) : res entry :=
  let? j := b in
  match j with
  | JObj m => Ok (list_to_map (rev m))
  | JNull => Ok ∅
  | _ => Err (External "json: cannot unmarshal")
  end.

Definition isLogLevelValid (e : entry) (minLevel : Z) : bool :=
  match e !! "level"%string with
  | Some (JStr levelStr) => match ParseLevel levelStr with Ok lv => minLevel <=? lv | Err _ => false end
  | _ => false
  end.

(** [Write] before it gives the entry to the buffer: the count and the error it
    returns, and the entry, if it gets that far.  [p]: the bytes, their number
    and the JSON they are; [console]: the error of the console. *)
Definition Write (a : App) (n : Z) (p : res json) (console : option error) : Z * option error * option entry :=
  if n =? 0 then (0, None, None) else
  match console with
  | Some err => (0, Some err, None)
  | None =>
      if negb (PostToLogscribe a) then (n, None, None)
      else match byte2Entry p with
      | Err err => (0, Some err, None)
      | Ok res =>
          if bool_decide (res = ∅) then (0, Some (Sentinel ErrLogEmptyLogByte), None)
          else if negb (isLogLevelValid res (a_Level a)) then (0, None, None)
          else (n, None, Some res)
      end
  end.

(** [None]: a time that is no number, or a message that is no string, panics. *)
Definition extractLogscribeEntry (a : App) (e : entry) : option (res LogInsertModel) :=
  match e !! "time"%string with
  | None => Some (Err ErrLogTimestampNotExist)
  | Some timeVal =>
      match e !! "message"%string with
      | None => Some (Err ErrLogMsgNotExist)
      | Some messageVal =>
          match e !! "level"%string with
          | Some (JStr levelStr) =>
              match timeVal, messageVal with
              | JNum t, JStr message =>
                  Some (let? level := ParseLevel levelStr in
                        Ok (mkLog (a_Service a) (to_int64 t * Second) level message
                              (delete "message" (delete "level" (delete "time" e)))%string))
              | _, _ => None
              end
          | _ => Some (Err ErrLogLvlNotExist)
          end
      end
  end.

(** The models of a batch and how many entries were left out. *)
Fixpoint extract_all (a : App) (l : list entry) : option (list LogInsertModel * nat) :=
  match l with
  | [] => Some ([], 0%nat)
  | e :: l =>
      r ← extractLogscribeEntry a e;
      '(ms, bad) ← extract_all a l;
      Some (match r with Ok m => (m :: ms, bad) | Err _ => (ms, S bad) end)
  end.

(** ** The goroutine [Run] and the loggers of the service

    Where the goroutine is: waiting for its ticker, in the drain loop of
    [processBatch], before the next slice of the batch, in the request of
    [bulkPostLogEntries], writing lines of its own log, or dead.  Its own lines
    go through [Write] into the same buffer. *)
Inductive place : Type :=
| Ticking
| Draining (batch : list entry)
| Slicing (batch : list entry) (errs : nat)
| Posting (slice : list entry) (models : list LogInsertModel) (batch : list entry) (errs : nat)
| Logging (lines : nat) (k : place)
| Dead (lost : list entry).

Record Sys : Type := mkSys {
  at_ : place;
  buf : list entry;
  written : list entry;
  posts : list (list LogInsertModel) }.

(** The entries in the hands of the goroutine. *)
Fixpoint holding (p : place) : list entry :=
  match p with
  | Ticking => []
  | Draining l | Slicing l _ => l
  | Posting s _ l _ => s ++ l
  | Logging _ k => holding k
  | Dead l => l
  end.

(** [own]: the entry of a line the goroutine logs as an error, and whether the
    global logger lets errors pass. *)
Inductive sys_step (a : App) (own : entry) (global : bool) : Sys -> Sys -> Prop :=
| step_write s e : isLogLevelValid e (a_Level a) = true -> Z.of_nat (length (buf s)) < capacity a ->
    sys_step a own global s (mkSys (at_ s) (buf s ++ [e]) (written s ++ [e]) (posts s))
| step_first s e b : at_ s = Ticking -> buf s = e :: b ->
    sys_step a own global s (mkSys (Draining [e]) b (written s) (posts s))
| step_more s l e b : at_ s = Draining l -> buf s = e :: b ->
    sys_step a own global s (mkSys (Draining (l ++ [e])) b (written s) (posts s))
| step_drained s l : at_ s = Draining l -> buf s = [] ->
    sys_step a own global s (mkSys (Slicing l 0) [] (written s) (posts s))
| step_slice s l n ms bad : at_ s = Slicing l n -> l <> [] ->
    extract_all a (take ProcessLogsBatchSize l) = Some (ms, bad) ->
    sys_step a own global s
      (mkSys (Logging bad (Posting (take ProcessLogsBatchSize l) ms (drop ProcessLogsBatchSize l) n))
         (buf s) (written s) (posts s))
| step_panic s l n : at_ s = Slicing l n -> l <> [] ->
    extract_all a (take ProcessLogsBatchSize l) = None ->
    sys_step a own global s (mkSys (Dead l) (buf s) (written s) (posts s))
| step_nothing s sl l n : at_ s = Posting sl [] l n ->
    sys_step a own global s (mkSys (Slicing l n) (buf s) (written s) (posts s))
| step_posted s sl ms l n : at_ s = Posting sl ms l n -> ms <> [] ->
    sys_step a own global s (mkSys (Slicing l n) (buf s) (written s) (posts s ++ [ms]))
| step_refused s sl ms l n : at_ s = Posting sl ms l n -> ms <> [] ->
    sys_step a own global s (mkSys (Logging 1 (Slicing l (S n))) (buf s) (written s) (posts s ++ [ms]))
| step_unreachable s sl ms l n : at_ s = Posting sl ms l n -> ms <> [] ->
    sys_step a own global s (mkSys (Slicing l (S n)) (buf s) (written s) (posts s ++ [ms]))
| step_end s n : at_ s = Slicing [] n ->
    sys_step a own global s (mkSys (Logging n Ticking) (buf s) (written s) (posts s))
| step_no_line s k : at_ s = Logging 0 k ->
    sys_step a own global s (mkSys k (buf s) (written s) (posts s))
| step_line_dropped s n k : at_ s = Logging (S n) k -> global && isLogLevelValid own (a_Level a) = false ->
    sys_step a own global s (mkSys (Logging n k) (buf s) (written s) (posts s))
| step_line s n k : at_ s = Logging (S n) k -> global && isLogLevelValid own (a_Level a) = true ->
    Z.of_nat (length (buf s)) < capacity a ->
    sys_step a own global s (mkSys (Logging n k) (buf s ++ [own]) (written s ++ [own]) (posts s)).

Definition sys_init : Sys := mkSys Ticking [] [] [].

(** ** Properties *)

(** The models that a list of entries stands for. *)
Definition models_of (a : App) (l : list entry) : list LogInsertModel :=
  omap (fun e => match extractLogscribeEntry a e with Some (Ok m) => Some m | _ => None end) l.

Lemma extract_all_models a l ms bad : extract_all a l = Some (ms, bad) ->
  ms = models_of a l /\ (length ms + bad = length l)%nat.
Proof.
  revert ms bad. induction l as [|e l IH]; simpl; [by intros ms bad [= <- <-]|]. intros ms bad.
  unfold models_of. simpl. destruct (extractLogscribeEntry a e) as [r|]; simpl; [|done].
  destruct (extract_all a l) as [[ms' bad']|]; simpl; [|done]. destruct (IH _ _ eq_refl) as [-> Hl].
  destruct r; intros [= <- <-]; (split; [done|simpl in *; lia]).
Qed.

(** The entries of every slice wait with their models. *)
Fixpoint place_ok (a : App) (p : place) : Prop :=
  match p with
  | Posting sl ms _ _ => ms = models_of a sl /\ (length sl <= ProcessLogsBatchSize)%nat
  | Logging _ k => place_ok a k
  | _ => True
  end.

Record sys_ok (a : App) (s : Sys) : Prop := {
  ok_place : place_ok a (at_ s);
  ok_fifo : exists done, written s = done ++ holding (at_ s) ++ buf s /\ concat (posts s) = models_of a done;
  ok_posts : Forall (fun ms => 0 < length ms <= ProcessLogsBatchSize)%nat (posts s) }.

Lemma consumer_init_ok a : sys_ok a sys_init.
Proof. split; simpl; [done|by exists []|constructor]. Qed.

Lemma models_app a l l' : models_of a (l ++ l') = models_of a l ++ models_of a l'.
Proof. apply omap_app. Qed.
Lemma models_length a l : (length (models_of a l) <= length l)%nat.
Proof.
  induction l as [|e l IH]; [done|]. change (e :: l) with ([e] ++ l). rewrite models_app, !length_app.
  apply Nat.add_le_mono; [|done]. unfold models_of. simpl. destruct (extractLogscribeEntry a e) as [[]|]; simpl; lia.
Qed.

Lemma consumer_step_ok a own global s s' : sys_ok a s -> sys_step a own global s s' -> sys_ok a s'.
Proof.
  intros [Hp (dn & Hw & Hc) Hq] Hstep.
  destruct Hstep; repeat match goal with H : at_ _ = _ |- _ => rewrite H in *; clear H end;
    repeat match goal with H : buf _ = _ |- _ => rewrite H in *; clear H end; simpl in *.
  all: try match goal with H : extract_all _ _ = Some _ |- _ => apply extract_all_models in H as [-> _] end.
  all: split; simpl; try done.
  all: try (split; [done|rewrite length_take; lia]).
  all: try (apply Forall_app; split; [done|]; apply Forall_singleton; destruct Hp as [-> Hl];
            pose proof (models_length a sl); destruct (models_of a sl); simpl in *; [done|lia]).
  all: try (exists dn; rewrite Hw, ?app_nil_r, ?app_assoc, ?take_drop; simpl; rewrite <-?app_assoc; done).
  { exists dn. by rewrite take_drop. }
  all: destruct Hp as [Hms _]; exists (dn ++ sl); split; [rewrite Hw, <-!app_assoc; done|].
  all: rewrite ?concat_app, models_app, Hc, <-Hms; simpl; by rewrite ?app_nil_r.
Qed.

Lemma consumer_reachable_ok a own global s : rtc (sys_step a own global) sys_init s -> sys_ok a s.
Proof. intros Hr. eapply rtc_ind_r with (P := sys_ok a); eauto using consumer_init_ok, consumer_step_ok. Qed.

(** The entries written so far are, in order, those whose slice has been
    sent, those in the hands of the goroutine and those in the buffer: each
    entry is sent once or not at all, and what is sent is exactly what the
    entries stand for, in requests of at most 1000. *)
Theorem logs_sent_once a own global s :
  rtc (sys_step a own global) sys_init s ->
  exists done, written s = done ++ holding (at_ s) ++ buf s /\ concat (posts s) = models_of a done /\
    Forall (fun ms => 0 < length ms <= ProcessLogsBatchSize)%nat (posts s).
Proof. intros [_ (done & Hw & Hc) Hq]%consumer_reachable_ok. eauto. Qed.

(** A full buffer while the goroutine logs a line of its own: neither it nor any
    logger of the service moves again. *)
Lemma own_line_stuck a own global s n k :
  at_ s = Logging (S n) k -> global && isLogLevelValid own (a_Level a) = true ->
  Z.of_nat (length (buf s)) = capacity a -> forall s', ~ sys_step a own global s s'.
Proof. intros Hat Hv Hb s' Hs. inversion Hs; subst; try congruence; lia. Qed.

Lemma fill_buffer a own global e p w po : isLogLevelValid e (a_Level a) = true -> forall n b,
  Z.of_nat (length b + n) <= capacity a ->
  rtc (sys_step a own global) (mkSys p b w po) (mkSys p (b ++ replicate n e) (w ++ replicate n e) po).
Proof.
  intros He n. revert w. induction n as [|n IH]; intros w b Hn; simpl; [by rewrite !app_nil_r|].
  eapply rtc_l; [apply step_write; simpl; [exact He|lia]|]. simpl.
  replace (b ++ e :: replicate n e) with ((b ++ [e]) ++ replicate n e) by (by rewrite <-app_assoc).
  replace (w ++ e :: replicate n e) with ((w ++ [e]) ++ replicate n e) by (by rewrite <-app_assoc). apply IH. rewrite length_app. simpl. lia.
Qed.

(** C37: the consumer can stop every logger of its service for ever.  When a
    request fails, its own error goes through [Write]; if the loggers have
    filled the buffer meanwhile, the only reader of the buffer waits to write
    into it.  From the start, with a buffer of any size and a level that stores
    errors, a run leads to a state without any step. *)
Theorem consumer_deadlock a own e m :
  0 < capacity a -> isLogLevelValid own (a_Level a) = true -> isLogLevelValid e (a_Level a) = true ->
  extractLogscribeEntry a e = Some (Ok m) ->
  exists s, rtc (sys_step a own true) sys_init s /\ (forall s', ~ sys_step a own true s s') /\
    length (buf s) = Z.to_nat (capacity a).
Proof.
  intros Hc Hown He Hm. set (n := Z.to_nat (capacity a)).
  exists (mkSys (Logging 1 Ticking) (replicate n e) ([e] ++ replicate n e) [[m]]). split_and!.
  - eapply rtc_l; [apply (step_write _ _ _ _ e); simpl; [exact He|lia]|].
    eapply rtc_l; [by apply step_first|]. eapply rtc_l; [by eapply step_drained|].
    eapply rtc_l; [eapply (step_slice _ _ _ _ [e] 0 [m] 0); [done|done|simpl; rewrite Hm; done]|].
    eapply rtc_l; [by eapply step_no_line|].
    etrans; [apply (fill_buffer a own true e _ _ _ He n); simpl; lia|]. simpl.
    eapply rtc_l; [by eapply step_unreachable|]. eapply rtc_l; [by eapply step_end|]. reflexivity.
  - eapply own_line_stuck; [done|by rewrite Hown|simpl; rewrite length_replicate; lia].
  - simpl. by rewrite length_replicate.
Qed.
End consumer.

Definition w_levels (s : string) : res Z :=
  if bool_decide (s = "error"%string) then Ok ErrorLevel else Err (External "unknown level").
Definition w_app : App := mkApp DefaultLogStoreInterval DefaultBufferSize DefaultLogscribeEndpoint "node" ErrorLevel true.
Definition w_entry : entry :=
  list_to_map [("level", JStr "error"); ("time", JNum (of_int 1700000000)); ("message", JStr "failed")]%string.

Lemma consumer_deadlock_witness : exists s,
  rtc (sys_step w_levels w_app w_entry true) sys_init s /\ length (buf s) = 3000%nat.
Proof.
  destruct (consumer_deadlock w_levels w_app w_entry w_entry
    (mkLog "node" (1700000000 * Second) ErrorLevel "failed" ∅)) as (s & Hs & _ & Hl);
    [done|by vm_compute|by vm_compute|by vm_compute|].
  exists s. split; [exact Hs|exact Hl].
Defined.

Lemma logs_sent_once_witness : exists dn, [w_entry] = dn ++ [] ++ [w_entry] /\ [] = models_of w_levels w_app dn.
Proof.
  destruct (logs_sent_once w_levels w_app w_entry true (mkSys Ticking [w_entry] [w_entry] [])) as (dn & Hw & Hc & _).
  { apply rtc_once. apply (step_write _ _ _ _ sys_init w_entry); by vm_compute. }
  exists dn. split; [exact Hw|exact Hc].
Defined.

End Consumer.

(** ** The server: counting logs and reporting them *)
Module Processor.
Import Consumer.

Definition maxGithubIssuesPerService : nat := 5.
Definition DefaultBulkLogsCopyInterval : Z := 60 * Second.

Record LogInsertModelWithCount : Type := mkWithCount { w_log : LogInsertModel; OccurrenceCount : Z }.
Record LogsWithCount : Type := mkLogsWithCount { count : Z; log_ : LogInsertModel }.

(** [c_cron]: the scheduler given to [New], if any. *)
Record LogProcessorConfig : Type := mkProcessorConfig { c_cron : option nat; c_bulkLogsCopyInterval : Z }.
Definition WithBulkLogsCopyInterval (interval : Z) (c : LogProcessorConfig) : LogProcessorConfig :=
  mkProcessorConfig (c_cron c) interval.
Definition WithCron (cron : nat) (c : LogProcessorConfig) : LogProcessorConfig :=
  mkProcessorConfig (Some cron) (c_bulkLogsCopyInterval c).
Record LogProcessor : Type := mkProcessor {
  githubOwner : string; githubRepo : string; chain : string; cron : option nat; bulkLogsCopyInterval : Z }.

Definition New (GetSecret Getenv : string -> string) (options : list (LogProcessorConfig -> LogProcessorConfig))
    : res LogProcessor :=
  let githubToken := GetSecret "GITHUB_TOKEN"%string in
  let githubOwner := GetSecret "GITHUB_OWNER"%string in
  let githubRepo := GetSecret "GITHUB_REPO"%string in
  if bool_decide (githubToken = ""%string) || bool_decide (githubOwner = ""%string) || bool_decide (githubRepo = ""%string)
  then Err ErrLogscribeGithubCredentialsNotFound
  else
    let c := fold_left (fun c opt => opt c) options (mkProcessorConfig None DefaultBulkLogsCopyInterval) in
    let chain := if bool_decide (Getenv "CHAIN" = ""%string) then "baobab"%string else Getenv "CHAIN"%string in
    Ok (mkProcessor githubOwner githubRepo chain (c_cron c) (c_bulkLogsCopyInterval c)).

(** *** Titles of issues *)

(** [regexp.MustCompile(`\[[^\]]*\]`).ReplaceAllString(s, "")]: [pending] holds
    what follows a bracket that may still be closed. *)
Fixpoint strip_brackets (pending : option (list ascii)) (l : list ascii) : list ascii :=
  match l, pending with
  | [], None => []
  | [], Some acc => "["%char :: acc
  | c :: l, None => if bool_decide (c = "["%char) then strip_brackets (Some []) l else c :: strip_brackets None l
  | c :: l, Some acc =>
      if bool_decide (c = "]"%char) then strip_brackets None l else strip_brackets (Some (acc ++ [c])) l
  end.
Definition processedTitle (title : string) : string := TrimSpace (text (strip_brackets None (chars title))).
Definition issueTitle (service chain message : string) : string :=
  ("[" +:+ service +:+ "][" +:+ chain +:+ "] " +:+ message)%string.

(** An issue of the tracker: its title, and whether it is a pull request. *)
Record Issue : Type := mkIssue { title : string; isPullRequest : bool }.

(** The pages the tracker gives, up to an error. *)
Fixpoint fetchCurrentIssues (pages : list (res (list Issue))) : res (list string) :=
  match pages with
  | [] => Ok []
  | Err err :: _ => Err err
  | Ok batch :: pages =>
      let? rest := fetchCurrentIssues pages in
      Ok (processedTitle <$> (title <$> filter (fun i => isPullRequest i = false) batch) ++ rest)
  end.

Section processor.
(** [hex (sha256 bytes)], and the bytes of the JSON that the database returns. *)
Variable hash_ : string -> string.
Variable raw : gmap string json -> string.
(** [sort.Slice] with the counts decreasing, after the iteration over a map. *)
Variable sort_ : list LogsWithCount -> list LogsWithCount.

Definition hashLog (l : LogInsertModel) : string :=
  hash_ (Service l +:+ Itoa (Level l) +:+ Message l +:+ raw (Fields l))%string.

Definition add_log (logMap : gmap string LogsWithCount) (l : LogInsertModel) : gmap string LogsWithCount :=
  let h := hashLog l in
  let e := default (mkLogsWithCount 0 l) (logMap !! h) in
  <[h := mkLogsWithCount (count e + 1) (log_ e)]> logMap.
Definition buildLogMap (logs : list LogInsertModel) : gmap string LogsWithCount := fold_left add_log logs ∅.

Definition sortLogsWithCount (hashLogPairs : gmap string LogsWithCount) : list LogsWithCount :=
  sort_ ((map_to_list hashLogPairs).*2).

(** [fetched]: the rows that the query deletes and returns. *)
Definition ProcessLogs (fetched : res (list LogInsertModel)) : list LogInsertModelWithCount :=
  match fetched with
  | Err _ => []
  | Ok logs =>
      match logs with
      | [] => []
      | _ =>
          let topOccurrences := sortLogsWithCount (buildLogMap logs) in
          (fun p => mkWithCount (log_ p) (count p)) <$> take maxGithubIssuesPerService topOccurrences
      end
  end.

(** *** Issues *)

(** A call of [CreateGithubIssue]: the entries that are left, and, while the issue
    of the first one is being created, how many attempts [Retry] has left. *)
Record Pass : Type := mkPass {
  p_service : string; todo : list LogInsertModelWithCount; currentIssues : list string; attempts : option nat;
  processedLogHashes : list string; excludedLogs : list LogInsertModelWithCount }.
(** A run of the weekly job, or of the request [/process]: the services that are
    left, the call that is in progress, and the logs of its report. *)
Record Job : Type := mkJob { services : list string; pass : option Pass; duplicateOrLogsWithIssues : list LogInsertModelWithCount }.
(** The tables of logs and of processed hashes, the issues of the tracker with the
    hash of their log, the runs, and, for the theorems, the hashes whose issue a
    run has started to create. *)
Record State : Type := mkState {
  stored : list LogInsertModel; processed : gset string; created : list (string * string); jobs : list Job; tried : list string }.
Definition initial : State := mkState [] ∅ [] [] [].

Definition retries : nat := 3.

(** What the tracker makes of a request: it creates the issue and says so, it
    creates it and the answer is an error, is lost or has another status, or it
    does not create it. *)
Inductive answer : Type := Confirmed | Lost | Refused.

(** What happens: rows are copied to the table, a run starts with the services of
    its query, and the statements of a run, with what the database, the tracker
    and the encoder answer. *)
Inductive event : Type :=
| Copy (rows : list LogInsertModel)
| StartJob (l : list string)
| Fetch (j : nat) (ok : bool) (pages : list (res (list Issue)))
| Look (j : nat) (ok marshals : bool)
| Create (j : nat) (a : answer)
| Store (j : nat) (ok : bool).

Definition CreateGithubIssue (p : LogProcessor) (pages : list (res (list Issue))) (processedLogs : list LogInsertModelWithCount)
    (service : string) : option Pass :=
  if bool_decide (githubOwner p = "test"%string) then None
  else Some (mkPass service processedLogs (match fetchCurrentIssues pages with Ok l => l | Err _ => [] end) None [] []).

Definition exclude (ps : Pass) : Pass :=
  mkPass (p_service ps) (tail (todo ps)) (currentIssues ps) None (processedLogHashes ps) (excludedLogs ps ++ take 1 (todo ps)).
Definition record_hash (h : string) (ps : Pass) : Pass :=
  mkPass (p_service ps) (tail (todo ps)) (currentIssues ps) None (processedLogHashes ps ++ [h]) (excludedLogs ps).
Definition retrying (k : nat) (ps : Pass) : Pass :=
  mkPass (p_service ps) (todo ps) (currentIssues ps) (Some k) (processedLogHashes ps) (excludedLogs ps).

Definition set_pass (j : nat) (ps : Pass) (job : Job) (l : list Job) : list Job :=
  <[j := mkJob (services job) (Some ps) (duplicateOrLogsWithIssues job)]> l.

(** One step; [None]: the run is not there. *)
Definition issue_step (p : LogProcessor) (e : event) (s : State) : option State :=
  match e with
  | Copy rows => Some (mkState (stored s ++ rows) (processed s) (created s) (jobs s) (tried s))
  | StartJob l => Some (mkState (stored s) (processed s) (created s) (jobs s ++ [mkJob l None []]) (tried s))
  | Fetch j ok pages =>
      job ← jobs s !! j;
      match pass job, services job with
      | None, service :: rest =>
          let processedLogs := ProcessLogs (if ok then Ok (filter (fun l => Service l = service) (stored s)) else Err (External "query")) in
          let ps := match processedLogs with [] => None | _ => CreateGithubIssue p pages processedLogs service end in
          Some (mkState (if ok then filter (fun l => Service l <> service) (stored s) else stored s) (processed s) (created s)
                  (<[j := mkJob rest ps (duplicateOrLogsWithIssues job)]> (jobs s)) (tried s))
      | _, _ => None
      end
  | Look j ok marshals =>
      job ← jobs s !! j;
      ps ← pass job;
      match attempts ps, todo ps with
      | None, entry :: _ =>
          let h := hashLog (w_log entry) in
          if negb ok || bool_decide (h ∈ processed s) || bool_decide (Message (w_log entry) ∈ currentIssues ps) || negb marshals
          then Some (mkState (stored s) (processed s) (created s) (set_pass j (exclude ps) job (jobs s)) (tried s))
          else Some (mkState (stored s) (processed s) (created s) (set_pass j (retrying retries ps) job (jobs s)) (tried s ++ [h]))
      | _, _ => None
      end
  | Create j a =>
      job ← jobs s !! j;
      ps ← pass job;
      match attempts ps, todo ps with
      | Some (S k), entry :: _ =>
          let h := hashLog (w_log entry) in
          let created := match a with
                         | Refused => created s
                         | _ => created s ++ [(h, issueTitle (p_service ps) (chain p) (Message (w_log entry)))]
                         end in
          let ps := match a, k with
                    | Confirmed, _ => record_hash h ps
                    | _, O => exclude ps
                    | _, _ => retrying k ps
                    end in
          Some (mkState (stored s) (processed s) created (set_pass j ps job (jobs s)) (tried s))
      | _, _ => None
      end
  | Store j ok =>
      job ← jobs s !! j;
      ps ← pass job;
      match todo ps with
      | [] =>
          Some (mkState (stored s)
                  (if ok then processed s ∪ list_to_set (processedLogHashes ps) else processed s) (created s)
                  (<[j := mkJob (services job) None (duplicateOrLogsWithIssues job ++ excludedLogs ps)]> (jobs s)) (tried s))
      | _ => None
      end
  end.

(** Runs in which every event is allowed by [ok]. *)
Inductive issues_run (p : LogProcessor) (ok : State -> event -> Prop) : State -> Prop :=
| run_initial : issues_run p ok initial
| run_event s e s' : issues_run p ok s -> ok s e -> issue_step p e s = Some s' -> issues_run p ok s'.
Fixpoint issue_steps (p : LogProcessor) (l : list event) (s : State) : option State :=
  match l with [] => Some s | e :: l => issue_step p e s ≫= issue_steps p l end.

(** *** Storing *)

(** One tick of [BulkCopyLogs]: the rows copied to the database, from the
    batches that wait in the channel; the channel is empty afterwards. *)
Definition bulk_copy_tick (logsChannel : list (list LogInsertModel)) : list LogInsertModel := concat logsChannel.
(** [body]: what the parser leaves in the list, with an error or without. *)
Definition insertLogs (body : list LogInsertModel) (logsChannel : list (list LogInsertModel))
    : list (list LogInsertModel) := logsChannel ++ [body].

(** *** Properties *)

(** How many logs of a list have a hash. *)
Definition occurrences (h : string) (logs : list LogInsertModel) : nat :=
  length (filter (fun l => hashLog l = h) logs).

Lemma occurrences_app h l1 l2 : occurrences h (l1 ++ l2) = (occurrences h l1 + occurrences h l2)%nat.
Proof. unfold occurrences. by rewrite filter_app, length_app. Qed.

Lemma occurrences_one h l : occurrences h [l] = if decide (hashLog l = h) then 1%nat else 0%nat.
Proof. unfold occurrences. rewrite filter_cons. by destruct (decide _). Qed.

Lemma occurrences_pos h logs : (0 < occurrences h logs)%nat <-> exists l, l ∈ logs /\ hashLog l = h.
Proof.
  unfold occurrences. split.
  - destruct (filter _ logs) as [|l k] eqn:Hf; simpl; [lia|]. intros _. exists l.
    assert (Hin : l ∈ filter (fun l => hashLog l = h) logs) by (rewrite Hf; apply list_elem_of_here).
    apply list_elem_of_filter in Hin. naive_solver.
  - intros (l & Hl & Hh). assert (Hin : l ∈ filter (fun l => hashLog l = h) logs) by (by apply list_elem_of_filter).
    destruct (filter _ logs); [by apply not_elem_of_nil in Hin|simpl; lia].
Qed.

(** The map holds each hash with a log and its count. *)
Lemma buildLogMap_spec logs h :
  match buildLogMap logs !! h with
  | Some e => count e = Z.of_nat (occurrences h logs) /\ hashLog (log_ e) = h /\ log_ e ∈ logs
  | None => occurrences h logs = 0%nat
  end.
Proof.
  unfold buildLogMap. induction logs as [|l logs IH] using rev_ind; [simpl; by rewrite lookup_empty|].
  rewrite fold_left_app, occurrences_app, occurrences_one. simpl. set (m := fold_left add_log logs ∅) in *. unfold add_log.
  destruct (decide (hashLog l = h)) as [Hh|Hh].
  - rewrite Hh, lookup_insert_eq. simpl.
    destruct (m !! h) as [e|]; simpl in *.
    + destruct IH as (Hc & He & Hin). split_and!; [lia|done|set_solver].
    + split_and!; [lia|done|set_solver].
  - rewrite lookup_insert_ne by done. simpl.
    rewrite Nat.add_0_r. revert IH. destruct (m !! h) as [e|]; [|done]. intros (Hc & He & Hin).
    split_and!; [done|done|set_solver].
Qed.

(** [sort.Slice] permutes, and puts larger counts first. *)
Definition sorts : Prop := forall l, sort_ l ≡ₚ l /\ StronglySorted (fun a b => count b <= count a) (sort_ l).

Section sorted.
Hypothesis Hsort : sorts.

Lemma ProcessLogs_top logs : logs <> [] ->
  exists pairs, ProcessLogs (Ok logs) = (fun p => mkWithCount (log_ p) (count p)) <$> take maxGithubIssuesPerService pairs /\
    pairs ≡ₚ (map_to_list (buildLogMap logs)).*2 /\ StronglySorted (fun a b => count b <= count a) pairs.
Proof.
  intros Hne. destruct (Hsort ((map_to_list (buildLogMap logs)).*2)) as [Hp Hs].
  eexists. split_and!; [destruct logs; done|exact Hp|exact Hs].
Qed.

Lemma pairs_hashes logs : (fun p => hashLog (log_ p)) <$> (map_to_list (buildLogMap logs)).*2 = (map_to_list (buildLogMap logs)).*1.
Proof.
  rewrite <-list_fmap_compose. apply list_fmap_ext. intros i [h e] Hl. simpl.
  apply list_elem_of_lookup_2, elem_of_map_to_list in Hl. pose proof (buildLogMap_spec logs h) as Hs. rewrite Hl in Hs.
  naive_solver.
Qed.

Lemma sorted_take n (pairs : list LogsWithCount) a b :
  StronglySorted (fun a b => count b <= count a) pairs -> a ∈ take n pairs -> b ∈ pairs -> b ∉ take n pairs ->
  count b <= count a.
Proof.
  intros Hs Ha Hb Hnb. rewrite <-(take_drop n pairs) in Hs, Hb.
  apply elem_of_app in Hb as [Hb|Hb]; [done|].
  revert Hs Ha. clear Hnb.
  induction (take n pairs) as [|x l IH]; [by intros _ ?%not_elem_of_nil|]. simpl. intros Hs Ha.
  apply StronglySorted_inv in Hs as [Hs Hx]. apply elem_of_cons in Ha as [->|Ha]; [|by apply IH].
  rewrite Forall_forall in Hx. apply Hx. set_solver.
Qed.

Lemma top_logs_NoDup logs : NoDup ((fun e => hashLog (w_log e)) <$> ProcessLogs (Ok logs)).
Proof.
  destruct (decide (logs = [])) as [->|Hne]; [constructor|].
  destruct (ProcessLogs_top logs Hne) as (pairs & -> & Hp & Hs). rewrite <-list_fmap_compose.
  eapply sublist_NoDup; [|rewrite fmap_take; apply sublist_take].
  change (NoDup ((fun p => hashLog (log_ p)) <$> pairs)). rewrite Hp, pairs_hashes. apply NoDup_fst_map_to_list.
Qed.

(** Of the logs of a service, at most five are reported, of different
    hashes, each a log that was stored, with the exact number of logs of its
    hash; and a log whose hash is not reported occurs no more often than any
    that is. *)
Theorem top_logs_exact logs :
  let out := ProcessLogs (Ok logs) in
  (length out <= maxGithubIssuesPerService)%nat /\
  NoDup ((fun e => hashLog (w_log e)) <$> out) /\
  (forall e, e ∈ out -> w_log e ∈ logs /\ OccurrenceCount e = Z.of_nat (occurrences (hashLog (w_log e)) logs)) /\
  (forall e l, e ∈ out -> l ∈ logs -> hashLog l ∉ ((fun e => hashLog (w_log e)) <$> out) ->
     Z.of_nat (occurrences (hashLog l) logs) <= OccurrenceCount e).
Proof.
  destruct (decide (logs = [])) as [->|Hne].
  { simpl. split_and!; [lia|constructor|by intros e ?%not_elem_of_nil|by intros e l ?%not_elem_of_nil]. }
  destruct (ProcessLogs_top logs Hne) as (pairs & Htop & Hp & Hs). cbn zeta. rewrite Htop.
  assert (Hpair : forall p, p ∈ pairs -> log_ p ∈ logs /\ count p = Z.of_nat (occurrences (hashLog (log_ p)) logs)).
  { intros p Hin. rewrite Hp in Hin. apply list_elem_of_fmap in Hin as ([h p'] & -> & Hin). simpl.
    apply elem_of_map_to_list in Hin. pose proof (buildLogMap_spec logs h) as Hspec. rewrite Hin in Hspec.
    destruct Hspec as (Hc & <- & Hl). done. }
  assert (Hhash : (fun e => hashLog (w_log e)) <$> ((fun p => mkWithCount (log_ p) (count p)) <$> take maxGithubIssuesPerService pairs)
            = take maxGithubIssuesPerService ((fun p => hashLog (log_ p)) <$> pairs)).
  { rewrite <-list_fmap_compose, <-fmap_take. done. }
  rewrite Hhash. split_and!.
  - rewrite length_fmap, length_take. lia.
  - rewrite <-Hhash. pose proof (top_logs_NoDup logs) as Hnd. by rewrite Htop in Hnd.
  - intros e Hin. apply list_elem_of_fmap in Hin as (p & -> & Hin). simpl. apply Hpair.
    eapply elem_of_take in Hin as (i & Hi & _). by eapply list_elem_of_lookup_2.
  - intros e l Hin Hl Hnot. apply list_elem_of_fmap in Hin as (p & -> & Hin). simpl.
    pose proof (buildLogMap_spec logs (hashLog l)) as Hspec.
    destruct (buildLogMap logs !! hashLog l) as [e|] eqn:He.
    + destruct Hspec as (<- & Hh & _). eapply sorted_take; [exact Hs|exact Hin| |].
      * rewrite Hp. apply list_elem_of_fmap. exists (hashLog l, e). split; [done|]. by apply elem_of_map_to_list.
      * intros Hin'. apply Hnot. rewrite <-fmap_take, <-Hh. by apply (list_elem_of_fmap_2 (fun p => hashLog (log_ p))).
    + rewrite Hspec. pose proof (Hpair p) as [_ ->]; [|lia]. eapply elem_of_take in Hin as (i & Hi & _). by eapply list_elem_of_lookup_2.
Qed.

(** *** Issues of a hash *)
Definition issues_of (h : string) (s : State) : nat := length (filter (fun i => i.1 = h) (created s)).
Definition tries_of (h : string) (s : State) : nat := length (filter (fun h' => h' = h) (tried s)).
(** What a run may still create for a hash, [c k] for [k] attempts. *)
Definition left_of (c : nat -> nat) (h : string) (job : Job) : nat :=
  match pass job with
  | Some ps => match attempts ps, todo ps with
               | Some k, entry :: _ => if decide (hashLog (w_log entry) = h) then c k else 0
               | _, _ => 0
               end
  | None => 0
  end.

Lemma sum_insert {A} (f : A -> nat) (l : list A) j x y : l !! j = Some x ->
  (sum_list_with f (<[j := y]> l) + f x = sum_list_with f l + f y)%nat.
Proof. revert j. induction l as [|z l IH]; intros [|j] Hj; simplify_eq/=; [lia|]. specialize (IH _ Hj). lia. Qed.
Lemma issues_snoc h s st pr h' t js tr :
  issues_of h (mkState st pr (created s ++ [(h', t)]) js tr) = (issues_of h s + if decide (h' = h) then 1 else 0)%nat.
Proof. unfold issues_of. simpl. rewrite filter_app, length_app, filter_cons, filter_nil. simpl. by case_decide. Qed.
Lemma tries_snoc h s st pr cr js h' :
  tries_of h (mkState st pr cr js (tried s ++ [h'])) = (tries_of h s + if decide (h' = h) then 1 else 0)%nat.
Proof. unfold tries_of. simpl. rewrite filter_app, length_app, filter_cons, filter_nil. by case_decide. Qed.

(** A step makes an issue from an attempt, and attempts from a try. *)
Lemma issue_step_count p c e s s' h :
  (forall k, c k <= c (S k) /\ 1 <= c (S k))%nat -> (forall j, e = Create j Lost -> forall k, 1 + c k <= c (S k))%nat ->
  issue_step p e s = Some s' ->
  (issues_of h s' + sum_list_with (left_of c h) (jobs s') + c retries * tries_of h s <=
   issues_of h s + sum_list_with (left_of c h) (jobs s) + c retries * tries_of h s')%nat.
Proof.
  intros Hc Hl. destruct e as [rows|l|j ok pages|j ok marshals|j a|j ok]; simpl.
  - intros [= <-]. reflexivity.
  - intros [= <-]. unfold issues_of, tries_of. simpl. rewrite sum_list_with_app. simpl. lia.
  - destruct (jobs s !! j) as [job|] eqn:Hj; simpl; [|done]. destruct (pass job) eqn:Hp; [done|].
    destruct (services job) as [|service rest]; [done|]. intros [= <-]. unfold issues_of, tries_of. simpl.
    match goal with |- context [<[j := ?x]> (jobs s)] => pose proof (sum_insert (left_of c h) _ _ _ x Hj) as Hs; assert (left_of c h x = 0%nat) as H0 end.
    { unfold left_of, CreateGithubIssue. simpl. repeat case_match; simplify_eq/=; done. }
    lia.
  - destruct (jobs s !! j) as [job|] eqn:Hj; simpl; [|done]. destruct (pass job) as [ps|] eqn:Hp; simpl; [|done].
    destruct (attempts ps) eqn:Ha; [done|]. destruct (todo ps) as [|entry l] eqn:Ht; [done|].
    assert (left_of c h job = 0%nat) as H0 by (unfold left_of; by rewrite Hp, Ha).
    destruct (negb ok || _ || _ || _); intros [= <-].
    + pose proof (sum_insert (left_of c h) _ _ _ (mkJob (services job) (Some (exclude ps)) (duplicateOrLogsWithIssues job)) Hj) as Hs.
      unfold left_of in Hs at 4. simpl in Hs. unfold set_pass, issues_of, tries_of. simpl. lia.
    + pose proof (sum_insert (left_of c h) _ _ _ (mkJob (services job) (Some (retrying retries ps)) (duplicateOrLogsWithIssues job)) Hj) as Hs.
      unfold left_of in Hs at 4. simpl in Hs. rewrite Ht in Hs. rewrite tries_snoc. unfold set_pass, issues_of. simpl.
      destruct (decide _); lia.
  - destruct (jobs s !! j) as [job|] eqn:Hj; simpl; [|done]. destruct (pass job) as [ps|] eqn:Hp; simpl; [|done].
    destruct (attempts ps) as [[|k]|] eqn:Ha; [done| |done]. destruct (todo ps) as [|entry l] eqn:Ht; [done|].
    assert (left_of c h job = if decide (hashLog (w_log entry) = h) then c (S k) else 0%nat) as H0 by (unfold left_of; by rewrite Hp, Ha, Ht).
    set (ps' := match a, k with Confirmed, _ => _ | _, O => _ | _, _ => _ end). intros [= <-].
    pose proof (sum_insert (left_of c h) _ _ _ (mkJob (services job) (Some ps') (duplicateOrLogsWithIssues job)) Hj) as Hs.
    assert (left_of c h (mkJob (services job) (Some ps') (duplicateOrLogsWithIssues job)) <=
      if decide (hashLog (w_log entry) = h) then match a with Confirmed => 0 | _ => c k end else 0)%nat as H1.
    { unfold left_of, ps'. simpl. destruct a, k; simpl; rewrite ?Ht; try case_decide; lia. }
    destruct (Hc k) as [Hck1 Hck2]. destruct a; rewrite ?issues_snoc; unfold set_pass, tries_of; simpl.
    + destruct (decide _); lia.
    + specialize (Hl j eq_refl k). destruct (decide _); lia.
    + unfold issues_of. simpl. destruct (decide _); lia.
  - destruct (jobs s !! j) as [job|] eqn:Hj; simpl; [|done]. destruct (pass job) as [ps|] eqn:Hp; simpl; [|done].
    destruct (todo ps) eqn:Ht; [|done]. intros [= <-]. unfold issues_of, tries_of. simpl.
    pose proof (sum_insert (left_of c h) _ _ _ (mkJob (services job) None (duplicateOrLogsWithIssues job ++ excludedLogs ps)) Hj) as Hs.
    unfold left_of in Hs at 4. simpl in Hs. lia.
Qed.

Lemma issues_bounded p c (ok : State -> event -> Prop) s h :
  (forall k, c k <= c (S k) /\ 1 <= c (S k))%nat -> (forall s j, ok s (Create j Lost) -> forall k, 1 + c k <= c (S k))%nat ->
  issues_run p ok s -> (issues_of h s <= c retries * tries_of h s)%nat.
Proof.
  intros Hc Hl Hr. enough (issues_of h s + sum_list_with (left_of c h) (jobs s) <= c retries * tries_of h s)%nat by lia.
  induction Hr as [|s e s' _ IH Hok Hst]; [unfold issues_of; simpl; lia|].
  pose proof (issue_step_count p c e s s' h Hc) as H. specialize (H ltac:(intros j ->; by eapply Hl) Hst). lia.
Qed.

(** A stored hash stays stored, and is not tried again. *)
Lemma stored_not_tried p e s s' h : issue_step p e s = Some s' -> h ∈ processed s ->
  h ∈ processed s' /\ tries_of h s' = tries_of h s.
Proof.
  intros Hst Hh. destruct e as [rows|l|j ok pages|j ok marshals|j a|j ok]; simpl in Hst.
  1,2: by simplify_eq.
  all: apply bind_Some in Hst as (job & Hj & Hst).
  - destruct (pass job); [done|]. destruct (services job); [done|]. by simplify_eq.
  - apply bind_Some in Hst as (ps & Hp & Hst). destruct (attempts ps); [done|]. destruct (todo ps) as [|entry l]; [done|].
    destruct (bool_decide (hashLog (w_log entry) ∈ processed s)) eqn:Hb.
    { rewrite orb_true_r in Hst. simpl in Hst. by simplify_eq. }
    apply bool_decide_eq_false in Hb. destruct (negb ok || _ || _ || _); injection Hst as <-; [done|].
    rewrite tries_snoc. simpl. split; [done|]. rewrite decide_False; [lia|]. intros Heq. by rewrite Heq in Hb.
  - apply bind_Some in Hst as (ps & Hp & Hst). destruct (attempts ps) as [[|k]|]; [done| |done].
    destruct (todo ps); [done|]. by simplify_eq.
  - apply bind_Some in Hst as (ps & Hp & Hst). destruct (todo ps); [|done]. injection Hst as <-. simpl. split; [|done].
    destruct ok; [|done]. apply elem_of_union. by left.
Qed.

(** *** Runs one at a time *)
(** One call of [CreateGithubIssue] after the other, with answers that arrive and
    hashes that are stored. *)
Definition orderly (s : State) (e : event) : Prop :=
  match e with
  | Fetch j ok pages => Forall (fun job => pass job = None) (jobs s)
  | Create j a => a <> Lost
  | Store j ok => ok = true
  | _ => True
  end.

Definition hashes (l : list LogInsertModelWithCount) : list string := (fun e => hashLog (w_log e)) <$> l.

Record orderly_inv (s : State) : Prop := mkOrderly {
  oi_one : forall i j job job', jobs s !! i = Some job -> jobs s !! j = Some job' -> is_Some (pass job) -> is_Some (pass job') -> i = j;
  oi_pass : forall j job ps, jobs s !! j = Some job -> pass job = Some ps ->
    NoDup (hashes (todo ps)) /\ (forall h, h ∈ hashes (todo ps) -> h ∉ processedLogHashes ps) /\
    (is_Some (attempts ps) -> forall entry l, todo ps = entry :: l -> hashLog (w_log entry) ∉ processed s);
  oi_made : forall h, h ∈ (created s).*1 -> h ∈ processed s \/ exists j job ps, jobs s !! j = Some job /\ pass job = Some ps /\ h ∈ processedLogHashes ps;
  oi_nodup : NoDup ((created s).*1) }.

Lemma orderly_start : orderly_inv initial.
Proof. split; simpl; try done; [by intros h ?%not_elem_of_nil|constructor]. Qed.

Lemma set_pass_lookup j ps job l i job' : l !! j = Some job -> set_pass j ps job l !! i = Some job' ->
  i = j /\ pass job' = Some ps \/ i <> j /\ l !! i = Some job'.
Proof.
  intros Hj. unfold set_pass. destruct (decide (i = j)) as [->|Hij].
  - rewrite list_lookup_insert_eq by (by eapply lookup_lt_Some). intros [= <-]. by left.
  - rewrite list_lookup_insert_ne by done. by right.
Qed.

(** The call in progress goes on from [ps] to [ps'], with the issues [more]. *)
Lemma orderly_pass s j job ps ps' more tr :
  orderly_inv s -> jobs s !! j = Some job -> pass job = Some ps ->
  NoDup (hashes (todo ps')) -> (forall h, h ∈ hashes (todo ps') -> h ∉ processedLogHashes ps') ->
  (is_Some (attempts ps') -> forall entry l, todo ps' = entry :: l -> hashLog (w_log entry) ∉ processed s) ->
  (forall h, h ∈ processedLogHashes ps -> h ∈ processedLogHashes ps') ->
  (forall h, h ∈ more.*1 -> h ∈ processedLogHashes ps') -> NoDup ((created s ++ more).*1) ->
  orderly_inv (mkState (stored s) (processed s) (created s ++ more) (set_pass j ps' job (jobs s)) tr).
Proof.
  intros [H1 H2 H3 H4] Hj Hp Hnd Hdis Hatt Hsub Hmore Hnd'. split; simpl; [| | |exact Hnd'].
  - intros i i' job1 job2 [[-> _]|[_ Hi]]%(set_pass_lookup _ _ _ _ _ _ Hj) [[-> _]|[_ Hi']]%(set_pass_lookup _ _ _ _ _ _ Hj) Hs1 Hs2;
      [done| | |by eapply H1].
    + eapply (H1 j i'); [exact Hj|exact Hi'|by rewrite Hp|done].
    + eapply (H1 i j); [exact Hi|exact Hj|done|by rewrite Hp].
  - intros i job1 ps1 [[-> Hps]|[_ Hi]]%(set_pass_lookup _ _ _ _ _ _ Hj) Hq; [|by eapply H2]. rewrite Hps in Hq. by injection Hq as <-.
  - intros h. rewrite fmap_app, elem_of_app. intros [Hh|Hh].
    + destruct (H3 h Hh) as [?|(i & job1 & ps1 & Hi & Hp1 & Hin)]; [by left|right].
      assert (i = j) as -> by (eapply H1; [exact Hi|exact Hj|by rewrite Hp1|by rewrite Hp]). simplify_eq.
      eexists j, _, ps'. split_and!; [unfold set_pass; apply list_lookup_insert_eq; by eapply lookup_lt_Some|done|by apply Hsub].
    + right. eexists j, _, ps'. split_and!; [unfold set_pass; apply list_lookup_insert_eq; by eapply lookup_lt_Some|done|by apply Hmore].
Qed.

Lemma hashes_tail l : NoDup (hashes l) -> NoDup (hashes (tail l)) /\ (forall h, h ∈ hashes (tail l) -> h ∈ hashes l).
Proof. destruct l as [|x l]; [done|]. unfold hashes. simpl. intros [_ ?]%NoDup_cons. split; [done|]. intros h ?. by right. Qed.

Lemma orderly_look s j job ps tr (goes : bool) :
  orderly_inv s -> jobs s !! j = Some job -> pass job = Some ps ->
  (goes = true -> forall entry l, todo ps = entry :: l -> hashLog (w_log entry) ∉ processed s) ->
  forall k, orderly_inv (mkState (stored s) (processed s) (created s) (set_pass j (if goes then retrying k ps else exclude ps) job (jobs s)) tr).
Proof.
  intros Hinv Hj Hp Hg k. destruct (oi_pass _ Hinv j job ps Hj Hp) as (Hnd & Hdis & Hatt).
  rewrite <- (app_nil_r (created s)) at 1. destruct goes.
  - eapply orderly_pass; try done; simpl; [intros _; by apply Hg|by intros h ?%not_elem_of_nil|rewrite app_nil_r; apply Hinv].
  - destruct (hashes_tail _ Hnd) as [Ht1 Ht2].
    eapply orderly_pass; try done; simpl; [by intros h ?%Ht2%Hdis|by intros []|by intros h ?%not_elem_of_nil|rewrite app_nil_r; apply Hinv].
Qed.

Lemma orderly_create s j job ps entry l t tr :
  orderly_inv s -> jobs s !! j = Some job -> pass job = Some ps -> is_Some (attempts ps) -> todo ps = entry :: l ->
  let h := hashLog (w_log entry) in
  orderly_inv (mkState (stored s) (processed s) (created s ++ [(h, t)]) (set_pass j (record_hash h ps) job (jobs s)) tr).
Proof.
  intros Hinv Hj Hp Ha Ht h. destruct (oi_pass _ Hinv j job ps Hj Hp) as (Hnd & Hdis & Hatt). specialize (Hatt Ha _ _ Ht).
  assert (h ∈ hashes (todo ps)) as Hh by (rewrite Ht; by left).
  assert (h ∉ (created s).*1) as Hfresh.
  { intros Hin. destruct (oi_made _ Hinv h Hin) as [?|(i & job1 & ps1 & Hi & Hp1 & Hin1)]; [done|].
    assert (i = j) as -> by (eapply (oi_one _ Hinv); [exact Hi|exact Hj|by rewrite Hp1|by rewrite Hp]). simplify_eq. by apply (Hdis h). }
  rewrite Ht in Hnd, Hdis. unfold hashes in Hnd, Hdis. simpl in Hnd, Hdis. apply NoDup_cons in Hnd as [Hn1 Hn2].
  eapply orderly_pass; try done; simpl; rewrite ?Ht; simpl; [done| |by intros []| | |].
  - intros h' Hin. rewrite elem_of_app, list_elem_of_singleton. intros [?| ->]; [|done]. apply (Hdis h'); [by right|done].
  - intros h' ?. apply elem_of_app. by left.
  - intros h' ->%list_elem_of_singleton. apply elem_of_app. right. by apply list_elem_of_singleton.
  - rewrite fmap_app. apply NoDup_app. split_and!; [apply Hinv| |apply NoDup_singleton]. intros h' Hin ->%list_elem_of_singleton. done.
Qed.

Lemma orderly_fetch s j job rest ps st tr :
  orderly_inv s -> Forall (fun job => pass job = None) (jobs s) -> jobs s !! j = Some job ->
  (forall q, ps = Some q -> NoDup (hashes (todo q)) /\ attempts q = None /\ processedLogHashes q = []) ->
  orderly_inv (mkState st (processed s) (created s) (<[j := mkJob rest ps (duplicateOrLogsWithIssues job)]> (jobs s)) tr).
Proof.
  intros Hinv Hall Hj Hps. rewrite Forall_lookup in Hall.
  assert (forall i job' q, <[j := mkJob rest ps (duplicateOrLogsWithIssues job)]> (jobs s) !! i = Some job' -> pass job' = Some q -> i = j /\ ps = Some q) as Hl.
  { intros i job' q Hi Hq. destruct (decide (i = j)) as [->|Hij].
    - rewrite list_lookup_insert_eq in Hi by (by eapply lookup_lt_Some). by simplify_eq/=.
    - rewrite list_lookup_insert_ne in Hi by done. by rewrite (Hall _ _ Hi) in Hq. }
  split; simpl; [| | |apply Hinv].
  - intros i i' job1 job2 Hi Hi' [q1 Hq1] [q2 Hq2]. by destruct (Hl _ _ _ Hi Hq1) as [-> _], (Hl _ _ _ Hi' Hq2) as [-> _].
  - intros i job1 q Hi Hq. destruct (Hl _ _ _ Hi Hq) as [-> Hpq]. destruct (Hps q Hpq) as (Hnd & Ha & Hh). rewrite Ha, Hh.
    split_and!; [done|by intros h _ ?%not_elem_of_nil|by intros []].
  - intros h Hh. destruct (oi_made _ Hinv h Hh) as [?|(i & job1 & q & Hi & Hq & _)]; [by left|]. by rewrite (Hall _ _ Hi) in Hq.
Qed.

Lemma orderly_store s j job ps ex :
  orderly_inv s -> jobs s !! j = Some job -> pass job = Some ps ->
  orderly_inv (mkState (stored s) (processed s ∪ list_to_set (processedLogHashes ps)) (created s)
    (<[j := mkJob (services job) None ex]> (jobs s)) (tried s)).
Proof.
  intros Hinv Hj Hp.
  assert (forall i job' q, <[j := mkJob (services job) None ex]> (jobs s) !! i = Some job' -> pass job' = Some q -> False) as Hl.
  { intros i job' q Hi Hq. destruct (decide (i = j)) as [->|Hij].
    - rewrite list_lookup_insert_eq in Hi by (by eapply lookup_lt_Some). by simplify_eq/=.
    - rewrite list_lookup_insert_ne in Hi by done. apply Hij. eapply (oi_one _ Hinv); [exact Hi|exact Hj|by rewrite Hq|by rewrite Hp]. }
  split; simpl; [| | |apply Hinv].
  - intros i i' job1 job2 Hi _ [q Hq]. by destruct (Hl _ _ _ Hi Hq).
  - intros i job1 q Hi Hq. by destruct (Hl _ _ _ Hi Hq).
  - intros h Hh. left. rewrite elem_of_union, elem_of_list_to_set.
    destruct (oi_made _ Hinv h Hh) as [?|(i & job1 & q & Hi & Hq & Hin)]; [by left|right].
    assert (i = j) as -> by (eapply (oi_one _ Hinv); [exact Hi|exact Hj|by rewrite Hq|by rewrite Hp]). by simplify_eq.
Qed.

Lemma orderly_step p e s s' : orderly_inv s -> orderly s e -> issue_step p e s = Some s' -> orderly_inv s'.
Proof.
  intros Hinv Hok Hst. destruct e as [rows|l|j ok pages|j ok marshals|j a|j ok]; simpl in Hst.
  1: { injection Hst as <-. by destruct Hinv. }
  1: { injection Hst as <-. destruct Hinv as [H1 H2 H3 H4]. split; simpl; [| | |done].
    - intros i i' job1 job2 [[_ Hi]|[_ <-]]%lookup_snoc_Some [[_ Hi']|[_ <-]]%lookup_snoc_Some Hs1 Hs2; simpl in *;
        try (by destruct Hs1); try (by destruct Hs2); by eapply H1.
    - intros i job1 q [[_ Hi]|[_ <-]]%lookup_snoc_Some; [by eapply H2|done].
    - intros h Hh. destruct (H3 h Hh) as [?|(i & job1 & q & Hi & ?)]; [by left|right]. exists i, job1, q. split; [|done].
      by apply lookup_app_l_Some. }
  all: apply bind_Some in Hst as (job & Hj & Hst).
  - destruct (pass job) eqn:Hp; [done|]. destruct (services job); [done|]. injection Hst as <-. eapply orderly_fetch; [done|exact Hok|done|].
    intros q Hq. unfold CreateGithubIssue in Hq. set (pl := ProcessLogs _) in Hq.
    assert (q = mkPass s0 pl (match fetchCurrentIssues pages with Ok l => l | Err _ => [] end) None [] []) as -> by (repeat case_match; by simplify_eq).
    split_and!; [|done|done]. simpl. subst pl. destruct ok; [apply top_logs_NoDup|constructor].
  - apply bind_Some in Hst as (ps & Hp & Hst). destruct (attempts ps); [done|]. destruct (todo ps) as [|entry l] eqn:Ht; [done|].
    destruct (negb ok || bool_decide (hashLog (w_log entry) ∈ processed s) || _ || _) eqn:Hb; injection Hst as <-.
    + by apply (orderly_look s j job ps _ false Hinv Hj Hp ltac:(done) 0).
    + apply (orderly_look s j job ps _ true Hinv Hj Hp). intros _ e' l' Hl'. rewrite Ht in Hl'. injection Hl' as <- _.
      apply orb_false_iff in Hb as [Hb _]. apply orb_false_iff in Hb as [Hb _]. apply orb_false_iff in Hb as [_ Hb]. by apply bool_decide_eq_false in Hb.
  - apply bind_Some in Hst as (ps & Hp & Hst). destruct (attempts ps) as [[|k]|] eqn:Ha; [done| |done].
    destruct (todo ps) as [|entry l] eqn:Ht; [done|]. injection Hst as <-. destruct a; [| by destruct Hok|].
    + eapply orderly_create; [done|done|done|by rewrite Ha|done].
    + destruct k as [|k].
      * by apply (orderly_look s j job ps _ false Hinv Hj Hp ltac:(done) 0).
      * apply (orderly_look s j job ps _ true Hinv Hj Hp). intros _. apply (oi_pass _ Hinv j job ps Hj Hp). by rewrite Ha.
  - apply bind_Some in Hst as (ps & Hp & Hst). destruct (todo ps); [|done]. simpl in Hok. subst ok. injection Hst as <-. by apply orderly_store.
Qed.

(** Runs by their events. *)
Fixpoint allowed (p : LogProcessor) (ok : State -> event -> Prop) (l : list event) (s : State) : Prop :=
  match l with
  | [] => True
  | e :: l => ok s e /\ match issue_step p e s with Some s' => allowed p ok l s' | None => True end
  end.
Lemma issue_steps_run p ok l s s' : issues_run p ok s -> allowed p ok l s -> issue_steps p l s = Some s' -> issues_run p ok s'.
Proof.
  revert s. induction l as [|e l IH]; simpl; intros s Hr Ha Hs; [by simplify_eq|]. destruct Ha as [Hok Ha].
  destruct (issue_step p e s) as [s1|] eqn:Hst; [|done]. eapply IH; [|exact Ha|exact Hs]. by eapply run_event.
Qed.

Definition anything (s : State) (e : event) : Prop := True.
Definition answered (s : State) (e : event) : Prop := forall j, e <> Create j Lost.

End sorted.
End processor.

(** *** A title and its message *)

Lemma strip_close acc a l : "]"%char ∉ a ->
  strip_brackets (Some acc) (a ++ "]"%char :: l) = strip_brackets None l.
Proof.
  revert acc. induction a as [|c a IH]; intros acc Ha; simpl; [done|].
  apply not_elem_of_cons in Ha as [Hc Ha]. rewrite bool_decide_false by done. by apply IH.
Qed.

Lemma strip_plain l : "["%char ∉ l -> strip_brackets None l = l.
Proof.
  induction l as [|c l IH]; [done|]. intros [Hc Hl]%not_elem_of_cons. simpl. rewrite bool_decide_false by done.
  by rewrite IH.
Qed.

Lemma issueTitle_chars service chain message :
  chars (issueTitle service chain message) =
  "["%char :: chars service ++ "]"%char :: "["%char :: chars chain ++ "]"%char :: " "%char :: chars message.
Proof. unfold issueTitle. rewrite !chars_app. done. Qed.

(** What is left of the title of an issue is what is left of the message of its
    log. *)
Lemma processedTitle_issue service chain message :
  "]"%char ∉ chars service -> "]"%char ∉ chars chain ->
  processedTitle (issueTitle service chain message) = processedTitle message.
Proof.
  intros Hs Hc. unfold processedTitle. rewrite issueTitle_chars. simpl.
  rewrite strip_close by done. simpl. rewrite strip_close by done. simpl.
  unfold TrimSpace. rewrite !chars_text.
  change (chars (String " " (text ?l))) with (" "%char :: chars (text l)). by rewrite chars_text.
Qed.

(** An issue is recognised by its title exactly when stripping the log's
    message of brackets and outer spaces leaves it as it is; so messages
    without brackets and outer spaces are, and a message with a part in brackets
    never is, and gets a new issue whenever its hash was not stored. *)
Theorem title_recognised service chain message :
  "]"%char ∉ chars service -> "]"%char ∉ chars chain ->
  (processedTitle (issueTitle service chain message) = message <->
   TrimSpace (text (strip_brackets None (chars message))) = message) /\
  ("["%char ∉ chars message -> TrimSpace message = message ->
   processedTitle (issueTitle service chain message) = message).
Proof.
  intros Hs Hc. rewrite processedTitle_issue by done. split; [done|]. intros Hm Ht. unfold processedTitle.
  by rewrite strip_plain, text_chars.
Qed.
Local Ltac decide_now := match goal with |- ?P => apply (bool_decide_unpack P); vm_compute; exact I end.
Lemma title_recognised_witness :
  processedTitle (issueTitle "node" "baobab" "failed to fetch") = "failed to fetch"%string /\
  processedTitle (issueTitle "node" "baobab" "failed [code 3]") <> "failed [code 3]"%string.
Proof.
  split.
  - apply (title_recognised "node" "baobab" "failed to fetch"); [decide_now|decide_now|decide_now|by vm_compute].
  - intros H. apply (title_recognised "node" "baobab" "failed [code 3]") in H;
      [|decide_now|decide_now]. by vm_compute in H.
Defined.

Definition count_ge (a b : LogsWithCount) : Prop := count b <= count a.
#[local] Instance count_ge_dec a b : Decision (count_ge a b) := Z_le_dec _ _.
#[local] Instance count_ge_total : Total count_ge.
Proof. intros a b. unfold count_ge. lia. Qed.
#[local] Instance count_ge_trans : Transitive count_ge.
Proof. intros a b c. unfold count_ge. lia. Qed.
Definition w_sort (l : list LogsWithCount) : list LogsWithCount := merge_sort count_ge l.
Lemma w_sorts : sorts w_sort.
Proof.
  intros l. split; [apply merge_sort_Permutation|]. apply (StronglySorted_merge_sort count_ge).
Qed.
Definition w_logs : list LogInsertModel :=
  [mkLog "node" 1 3 "a" ∅; mkLog "node" 2 3 "b" ∅; mkLog "node" 3 3 "a" ∅].
Lemma top_logs_exact_witness :
  ProcessLogs id (fun _ => ""%string) w_sort (Ok w_logs) =
    [mkWithCount (mkLog "node" 1 3 "a" ∅) 2; mkWithCount (mkLog "node" 2 3 "b" ∅) 1] /\
  NoDup ((fun e => hashLog id (fun _ => ""%string) (w_log e)) <$> ProcessLogs id (fun _ => ""%string) w_sort (Ok w_logs)).
Proof.
  split; [by vm_compute|]. apply (top_logs_exact id (fun _ => ""%string) w_sort w_sorts w_logs).
Defined.
Definition w_processor : LogProcessor := mkProcessor "owner" "repo" "baobab" None 0.
Abbreviation w_steps := (issue_steps id (fun _ => ""%string) w_sort w_processor).
(** Two runs after each other on the same logs; the tracker refuses one request. *)
Definition w_run : list event :=
  [Copy w_logs; StartJob ["node"%string]; Fetch 0 true []; Look 0 true true; Create 0 Refused; Create 0 Confirmed;
   Look 0 true true; Create 0 Confirmed; Store 0 true;
   Copy w_logs; StartJob ["node"%string]; Fetch 1 true []; Look 1 true true; Look 1 true true; Store 1 true].


(** An answer that is lost makes a second issue of the same log; so do two runs
    that overlap, even if all answers arrive. *)
Example lost_answer_reported_again :
  issues_of "node3a" <$> w_steps [Copy w_logs; StartJob ["node"%string]; Fetch 0 true []; Look 0 true true; Create 0 Lost; Create 0 Confirmed] initial
  = Some 2%nat.
Proof. vm_compute. reflexivity. Qed.
Example overlapping_runs_report_twice :
  issues_of "node3a" <$> w_steps [Copy w_logs; StartJob ["node"%string]; Fetch 0 true []; Look 0 true true;
    Copy w_logs; StartJob ["node"%string]; Fetch 1 true []; Look 1 true true; Create 0 Confirmed; Create 1 Confirmed] initial
  = Some 2%nat.
Proof. vm_compute. reflexivity. Qed.

End Processor.
