(* ===== verification/Db.v ===== *)
(** * Database access

    [node/pkg/db]: the pool and the query builders of [pgsql.go], the client and
    the retries of [redis.go] (its operations are in [RedisStore.v]), and the subscriber of [rediscribe.go].  The
    database clients are third-party: their answers are arguments, and a row is
    what a query collects. *)

From S2P Require Import Prelude Errors Text Strings Util.
From Stdlib Require Import Ascii.
Import Text Strings.

Local Open Scope Z_scope.
Local Open Scope go_scope.

(** ** [pgsql.go] *)
Module Pgsql.

Section pool.
Context {P : Type}.

(** The package's variables: [sync.Once], [pool] and [poolErr]. *)
Record PoolState : Type := mkPoolState { once : bool; pool : option P; poolErr : option error }.
Definition pool0 : PoolState := mkPoolState false None None.

(** [pgxpool.New] and [Ping]. *)
Record PgEnv : Type := mkPgEnv { DATABASE_URL : string; pg_New : string -> res P; pg_Ping : P -> option error }.

Definition connectToPgsql (E : PgEnv) (connectionString : string) : res P :=
  let? result := pg_New E connectionString in
  match pg_Ping E result with Some err => Err err | None => Ok result end.

(** The state after [getPool]; [None]: [Close] of the nil pool panics. *)
Definition getPool (E : PgEnv) (s : PoolState) : option PoolState :=
  if once s then Some s
  else if bool_decide (DATABASE_URL E = ""%string)
  then Some (mkPoolState true (pool s) (Some (Sentinel ErrDbDatabaseUrlNotFound)))
  else match connectToPgsql E (DATABASE_URL E) with
  | Err _ => None
  | Ok p => Some (mkPoolState true (Some p) None)
  end.
Definition result_of (s : PoolState) : option P * option error := (pool s, poolErr s).
Definition ClosePool (s : PoolState) : PoolState := mkPoolState (once s) None (poolErr s).

(** A pool that cannot be reached ends the process instead of giving its error. *)
Lemma unreachable_panics E s err : once s = false -> DATABASE_URL E <> ""%string ->
  connectToPgsql E (DATABASE_URL E) = Err err -> getPool E s = None.
Proof. intros Ho Hu Hc. unfold getPool. rewrite Ho, bool_decide_false by done. by rewrite Hc. Qed.

(** The pool is made once: later calls answer what the first did, until it is
    closed; then they answer no pool and no error. *)
Lemma getPool_once E s s' : getPool E s = Some s' -> once s' = true.
Proof.
  unfold getPool. destruct (once s) eqn:Ho; [by intros [= <-]|].
  case_bool_decide; [by intros [= <-]|]. destruct (connectToPgsql _ _); [by intros [= <-]|done].
Qed.
Lemma pool_made_once E E' s s' : getPool E s = Some s' -> getPool E' s' = Some s'.
Proof. intros Ho%getPool_once. unfold getPool. by rewrite Ho. Qed.
Lemma closed_pool_stays_nil E E' s s' p : getPool E s = Some s' -> result_of s' = (Some p, None) ->
  exists s'', getPool E' (ClosePool s') = Some s'' /\ result_of s'' = (None, None).
Proof.
  intros Ho%getPool_once [= _ He]. exists (ClosePool s'). unfold getPool, result_of. simpl. by rewrite Ho, He.
Qed.
End pool.

(** *** Queries *)

(** A query: text and numbered arguments. *)
Inductive token : Type := Txt (s : string) | Arg (n : Z).
Definition render_token (t : token) : string := match t with Txt s => s | Arg n => ("$" +:+ Itoa n)%string end.
Definition render (q : list token) : string := Join "" (render_token <$> q).
Definition numbers (q : list token) : list Z := omap (fun t => match t with Arg n => Some n | Txt _ => None end) q.

(** Pieces with a separator between them, as the loops write them. *)
Fixpoint separated {A} (sep : string) (piece : Z -> A -> list token) (i : Z) (l : list A) : list token :=
  match l with
  | [] => []
  | x :: l' => (if i =? 0 then [] else [Txt sep]) ++ piece i x ++ separated sep piece (i + 1) l'
  end.

Section queries.
Context {V : Type}.

(** Row [i] of an insertion. *)
Definition row_tokens (i : Z) (row : list V) : list token :=
  Txt "(" :: separated ", " (fun j _ => [Arg (i * Z.of_nat (length row) + j + 1)]) 0 row ++ [Txt ")"].
Definition insert_tokens (tableName : string) (columnNames : list string) (rows : list (list V)) : list token :=
  Txt ("INSERT INTO " +:+ tableName +:+ " (" +:+ Join ", " columnNames +:+ ") VALUES ")%string
    :: separated ", " row_tokens 0 rows.

Context {P : Type}.
(** What [GetPool] answers, and a statement executed by the pool with its
    arguments. *)
Variable currentPool : res P.
Variable Exec : P -> string -> list V -> option error.
Definition exec_query (text : string) (values : list V) : option error :=
  match currentPool with Err err => Some err | Ok pool => Exec pool text values end.

Definition BulkInsert (tableName : string) (columnNames : list string) (rows : list (list V)) : option error :=
  exec_query (render (insert_tokens tableName columnNames rows)) (concat rows).

Definition upsert_tokens (tableName : string) (columnNames : list string) (rows : list (list V))
    (conflictColumns updateColumns : list string) : list token :=
  insert_tokens tableName columnNames rows ++
  [Txt " ON CONFLICT ("; Txt (Join ", " conflictColumns); Txt ") DO UPDATE SET "] ++
  separated ", " (fun _ col => [Txt (col +:+ " = EXCLUDED." +:+ col)%string]) 0 updateColumns.
Definition BulkUpsert (tableName : string) (columnNames : list string) (rows : list (list V))
    (conflictColumns updateColumns : list string) : option error :=
  exec_query (render (upsert_tokens tableName columnNames rows conflictColumns updateColumns)) (concat rows).

(** One statement per row. *)
Definition update_tokens (tableName : string) (columnNames whereColumns : list string) : list token :=
  Txt ("UPDATE " +:+ tableName +:+ " SET ")%string
    :: separated ", " (fun i col => [Txt (col +:+ " = ")%string; Arg (i + 1)]) 0 columnNames ++
  Txt " WHERE "
    :: separated " AND " (fun i col => [Txt (col +:+ " = ")%string; Arg (i + Z.of_nat (length columnNames) + 1)]) 0 whereColumns.
(** The batch is executed up to the first error. *)
Fixpoint exec_batch (pool : P) (text : string) (rows : list (list V)) : option error :=
  match rows with
  | [] => None
  | row :: rows => match Exec pool text row with Some err => Some err | None => exec_batch pool text rows end
  end.
Definition BulkUpdate (tableName : string) (columnNames : list string) (rows : list (list V)) (whereColumns : list string)
    : option error :=
  match currentPool with
  | Err err => Some err
  | Ok pool => exec_batch pool (render (update_tokens tableName columnNames whereColumns)) rows
  end.
Definition BulkCopy (CopyFrom : P -> string -> list string -> list (list V) -> res Z) (tableName : string)
    (columnNames : list string) (rows : list (list V)) : res Z :=
  let? pool := currentPool in CopyFrom pool tableName columnNames rows.

(** The conditions of a selection, from the column [i] and the argument
    [argIndex] on. *)
Fixpoint where_tokens (i argIndex : Z) (l : list (string * list V)) : list token :=
  match l with
  | [] => []
  | (col, values) :: l =>
      (if i =? 0 then [] else [Txt " AND "]) ++
      Txt (col +:+ " IN (")%string :: separated "," (fun j _ => [Arg (argIndex + j)]) 0 values ++ Txt ")"
      :: where_tokens (i + 1) (argIndex + Z.of_nat (length values)) l
  end.
Definition select_tokens (tableName : string) (columnNames whereColumns : list string) (whereValues : list (list V)) : list token :=
  Txt ("SELECT " +:+ Join ", " columnNames +:+ " FROM " +:+ tableName +:+ " WHERE ")%string
    :: where_tokens 0 1 (zip whereColumns whereValues).

(** [queryRow] and [queryRows]: no rows is no error. *)
Definition ErrNoRows : error := External "no rows in result set".
Definition no_rows {T} (dflt : T) (r : res T) : res T :=
  match r with
  | Err err => if bool_decide (err = ErrNoRows) then Ok dflt else Err err
  | Ok t => Ok t
  end.
Definition queryRow {T Rows} (zero : T) (query : res Rows) (CollectOneRow : Rows -> res T) : res T :=
  let? rows := query in no_rows zero (CollectOneRow rows).
Definition queryRows {T Rows} (query : res Rows) (CollectRows : Rows -> res (list T)) : res (list T) :=
  let? rows := query in no_rows [] (CollectRows rows).
Definition QueryWithoutResult {Rows} (query : P -> res Rows) : option error :=
  match currentPool with
  | Err err => Some err
  | Ok pool => match query pool with Err err => Some err | Ok _ => None end
  end.
Definition QueryRow {T Rows} (zero : T) (query : P -> res Rows) (CollectOneRow : Rows -> res T) : res T :=
  let? pool := currentPool in queryRow zero (query pool) CollectOneRow.
Definition QueryRows {T Rows} (query : P -> res Rows) (CollectRows : Rows -> res (list T)) : res (list T) :=
  let? pool := currentPool in queryRows (query pool) CollectRows.

Definition BulkSelect {T Rows} (query : P -> string -> list V -> res Rows) (CollectRows : Rows -> res (list T))
    (tableName : string) (columnNames whereColumns : list string) (whereValues : list (list V)) : res (list T) :=
  if bool_decide (tableName = ""%string) then Err ErrDbEmptyTableNameParam
  else if bool_decide (columnNames = []) then Err ErrDbEmptyColumnNamesParam
  else if bool_decide (whereColumns = []) then Err ErrDbEmptyWhereColumnsParam
  else if negb (bool_decide (length whereColumns = length whereValues)) then Err ErrDbWhereColumnValueLengthMismatch
  else
    let? pool := currentPool in
    queryRows (query pool (render (select_tokens tableName columnNames whereColumns whereValues)) (concat whereValues)) CollectRows.
End queries.

(** *** The arguments of the queries are numbered as they are passed *)

Lemma numbers_app q q' : numbers (q ++ q') = numbers q ++ numbers q'.
Proof. apply omap_app. Qed.

Lemma shift_seqZ (f : Z -> Z) m a n : (forall j, f j = m + j) -> f <$> seqZ a n = seqZ (m + a) n.
Proof. intros Hf. rewrite <-fmap_add_seqZ. apply list_fmap_ext. intros i x _. apply Hf. Qed.

(** Pieces with one argument each. *)
Lemma separated_args {A} sep (pre : A -> list token) (f : Z -> Z) (l : list A) : (forall x, numbers (pre x) = []) ->
  forall i, numbers (separated sep (fun j x => pre x ++ [Arg (f j)]) i l) = f <$> seqZ i (Z.of_nat (length l)).
Proof.
  intros Hpre. induction l as [|x l IH]; intros i; [done|]. cbn [separated].
  rewrite !numbers_app, IH, Hpre. simpl length. rewrite (seqZ_cons i) by lia.
  replace (Z.pred (Z.of_nat (S (length l)))) with (Z.of_nat (length l)) by lia.
  by destruct (i =? 0).
Qed.

Lemma separated_texts {A} sep (g : A -> string) l : forall i, numbers (separated sep (fun _ x => [Txt (g x)]) i l) = [].
Proof.
  induction l as [|x l IH]; intros i; [done|]. cbn [separated]. rewrite !numbers_app, IH. by destruct (i =? 0).
Qed.

Lemma row_numbers {V} i (row : list V) : numbers (row_tokens i row) = seqZ (i * Z.of_nat (length row) + 1) (Z.of_nat (length row)).
Proof.
  unfold row_tokens. change (Txt "(" :: ?q) with ([Txt "("] ++ q). rewrite !numbers_app.
  pose proof (separated_args ", " (fun _ => []) (fun j => i * Z.of_nat (length row) + j + 1) row (fun _ => eq_refl) 0) as H.
  simpl app in H. rewrite H. simpl. rewrite app_nil_r.
  rewrite (shift_seqZ _ (i * Z.of_nat (length row) + 1)) by lia. f_equal; lia.
Qed.

Lemma rows_numbers {V} c (rows : list (list V)) : Forall (fun r => length r = c) rows -> forall i,
  numbers (separated ", " row_tokens i rows) = seqZ (i * Z.of_nat c + 1) (Z.of_nat (length (concat rows))).
Proof.
  induction 1 as [|r rows Hr _ IH]; intros i; [done|]. cbn [separated]. rewrite !numbers_app, row_numbers, IH, Hr.
  simpl concat. rewrite length_app, Hr, Nat2Z.inj_add, seqZ_app by lia.
  replace (numbers (if i =? 0 then [] else [Txt ", "])) with (@nil Z) by (by destruct (i =? 0)).
  simpl. do 2 f_equal; lia.
Qed.

Lemma where_numbers {V} (l : list (string * list V)) : forall i a,
  numbers (where_tokens i a l) = seqZ a (Z.of_nat (length (concat l.*2))).
Proof.
  induction l as [|[col values] l IH]; intros i a; [done|]. cbn [where_tokens].
  change (Txt ?t :: ?q) with ([Txt t] ++ q). rewrite !numbers_app.
  pose proof (separated_args "," (fun _ : V => []) (fun j => a + j) values (fun _ => eq_refl) 0) as H. simpl app in H.
  change (Txt ?t :: ?q) with ([Txt t] ++ q). rewrite H, !numbers_app, IH, (shift_seqZ _ a) by lia. simpl.
  rewrite length_app, Nat2Z.inj_add, seqZ_app by lia.
  replace (numbers (if i =? 0 then [] else [Txt " AND "])) with (@nil Z) by (by destruct (i =? 0)).
  simpl. f_equal. f_equal. lia.
Qed.

(** the placeholders of an insertion (or an upsert) of rows of one width,
    read from left to right, are 1, 2, ... up to the number of arguments, so
    each stands for the argument at its place; an update numbers the columns it
    sets and then those of its condition, a selection the values of its
    conditions, whatever their numbers. *)
Theorem placeholders_in_order {V} tableName columnNames (rows : list (list V)) c conflictColumns updateColumns whereColumns whereValues :
  Forall (fun r => length r = c) rows -> length whereColumns = length whereValues ->
  numbers (insert_tokens tableName columnNames rows) = seqZ 1 (Z.of_nat (length (concat rows))) /\
  numbers (upsert_tokens tableName columnNames rows conflictColumns updateColumns) =
    seqZ 1 (Z.of_nat (length (concat rows))) /\
  numbers (update_tokens tableName columnNames whereColumns) = seqZ 1 (Z.of_nat (length columnNames + length whereColumns)) /\
  numbers (select_tokens (V := V) tableName columnNames whereColumns whereValues) = seqZ 1 (Z.of_nat (length (concat whereValues))).
Proof.
  intros Hrows Hwhere.
  assert (Hins : numbers (insert_tokens tableName columnNames rows) = seqZ 1 (Z.of_nat (length (concat rows)))).
  { unfold insert_tokens. change (Txt ?t :: ?q) with ([Txt t] ++ q). rewrite numbers_app, (rows_numbers c) by done. done. }
  split_and!; [exact Hins|..].
  - unfold upsert_tokens. rewrite !numbers_app, Hins. simpl.
    rewrite separated_texts, app_nil_r. done.
  - unfold update_tokens. change (Txt ?t :: ?q) with ([Txt t] ++ q). rewrite !numbers_app. simpl numbers at 1 3.
    rewrite (separated_args ", " (fun col => [Txt (col +:+ " = ")%string]) (fun i => i + 1)) by done.
    rewrite (separated_args " AND " (fun col => [Txt (col +:+ " = ")%string]) (fun i => i + Z.of_nat (length columnNames) + 1)) by done.
    rewrite (shift_seqZ (fun i => i + 1) 1), (shift_seqZ _ (1 + Z.of_nat (length columnNames))) by lia.
    rewrite Nat2Z.inj_add, seqZ_app by lia. simpl. f_equal; f_equal; lia.
  - unfold select_tokens. change (Txt ?t :: ?q) with ([Txt t] ++ q). rewrite numbers_app. simpl numbers at 1.
    rewrite where_numbers. by rewrite snd_zip by lia.
Qed.
Lemma placeholders_in_order_witness :
  render (insert_tokens "feeds" ["id"; "name"]%string [[1; 2]; [3; 4]]) = "INSERT INTO feeds (id, name) VALUES ($1, $2), ($3, $4)"%string /\
  numbers (insert_tokens "feeds" ["id"; "name"]%string [[1; 2]; [3; 4]]) = [1; 2; 3; 4].
Proof.
  split; [by vm_compute|].
  apply (placeholders_in_order "feeds" ["id"; "name"]%string [[1; 2]; [3; 4]] 2 [] [] [] []); [by repeat constructor|done].
Defined.

(** Rows of different widths are numbered wrongly. *)
Example ragged_rows : numbers (insert_tokens "t" ["a"; "b"]%string [[1; 2]; [3]; [4; 5]]) = [1; 2; 2; 5; 6].
Proof. by vm_compute. Qed.
(** A column without values makes a condition that is no SQL. *)
Example empty_values : BulkSelect (V := Z) (Ok ()) (fun _ text _ => Ok text) (fun text => Ok [text]) "t" ["a"]%string ["b"]%string [[]]
  = Ok ["SELECT a FROM t WHERE b IN ()"%string].
Proof. by vm_compute. Qed.
End Pgsql.

(** ** [redis.go] *)
Module Redis.

Record RedisConnectionInfo : Type := mkInfo { Host : string; Port : string }.
Definition loadRedisConnectionString (Getenv : string -> string) : res RedisConnectionInfo :=
  if bool_decide (Getenv "REDIS_HOST" = ""%string) then Err ErrRdbHostNotFound
  else if bool_decide (Getenv "REDIS_PORT" = ""%string) then Err ErrRdbPortNotFound
  else Ok (mkInfo (Getenv "REDIS_HOST") (Getenv "REDIS_PORT"))%string.

Definition error_text (err : error) : string :=
  match err with
  | Sentinel e => CustomError_Error e
  | DeadlineExceeded => "context deadline exceeded"
  | External m => m
  end.
(** The errors of the client library. *)
Definition redis_Nil : error := External "redis: nil".
Definition redis_ErrClosed : error := External "redis: client is closed".
Definition redis_TxFailedErr : error := External "redis: transaction failed".
Definition isConnectionError (err : option error) : bool :=
  match err with
  | None => false
  | Some err =>
      if bool_decide (err = redis_Nil) then false
      else if bool_decide (err = redis_ErrClosed) then true
      else if Contains (error_text err) "i/o timeout" || Contains (error_text err) "connect: connection refused" then true
      else bool_decide (err = redis_TxFailedErr) || bool_decide (error_text err = "redis: connection closed"%string)
  end.

Section redis.
Context {Client W : Type}.
Variable Getenv : string -> string.
(** The client library; the world is the server and the network. *)
Variable NewClient : string -> Client.
Variable Ping : Client -> W -> W * option error.
(** The random draws of the retrier. *)
Variable rand : nat -> option Z.

(** The package's client; [runs] counts the runs of an operation. *)
Record Rdb : Type := mkRdb { rdb : option Client; world : W; runs : nat }.

Definition connectToRedis (connectionInfo : RedisConnectionInfo) (w : W) : W * res Client :=
  let rdbClient := NewClient (Host connectionInfo +:+ ":" +:+ Port connectionInfo)%string in
  match Ping rdbClient w with
  | (w, Some rdbErr) => (w, Err rdbErr)
  | (w, None) => (w, Ok rdbClient)
  end.
Definition reconnectRedis (s : Rdb) : Rdb * option error :=
  match loadRedisConnectionString Getenv with
  | Err err => (s, Some err)
  | Ok info =>
      match connectToRedis info (world s) with
      | (w, Err err) => (mkRdb None w (runs s), Some err)
      | (w, Ok c) => (mkRdb (Some c) w (runs s), None)
      end
  end.
Definition GetRedisClient (s : Rdb) : Rdb * res Client :=
  match rdb s with
  | Some c => (s, Ok c)
  | None =>
      match reconnectRedis s with
      | (s, Some err) => (s, Err err)
      | (s, None) => (s, match rdb s with Some c => Ok c | None => Err redis_ErrClosed end)
      end
  end.

Section operation.
Context {R : Type}.
(** What an operation does and its result. *)
Variable operation : Client -> W -> W * res R.

(** The result is kept in a variable of the caller. *)
Definition retryOperation (s : Rdb * option R) : (Rdb * option R) * option error :=
  let '(r, result) := s in
  match GetRedisClient r with
  | (r, Err err) => (mkRdb (rdb r) (world r) (S (runs r)), result, Some err)
  | (r, Ok c) =>
      match operation c (world r) with
      | (w, Ok x) => (mkRdb (rdb r) w (S (runs r)), Some x, None)
      | (w, Err err) =>
          let r := mkRdb (rdb r) w (S (runs r)) in
          (if isConnectionError (Some err) then (reconnectRedis r).1 else r, result, Some err)
      end
  end.

Definition executeWithRetry (s : Rdb) : (Rdb * option R) * option error :=
  let '(s, err) := retryOperation (s, None) in
  if isConnectionError err
  then (Retrier.Retry retryOperation rand 2 (150 * Millisecond) (2 * Second) s).1
  else (s, err).

Lemma reconnect_runs s : runs (reconnectRedis s).1 = runs s.
Proof. unfold reconnectRedis. destruct (loadRedisConnectionString _); [|done]. by destruct (connectToRedis _ _) as [? []]. Qed.
Lemma retryOperation_runs s s' err : retryOperation s = (s', err) ->
  runs s'.1 = S (runs s.1) /\ (err = None -> is_Some s'.2).
Proof.
  destruct s as [r result]. unfold retryOperation. cbn [fst snd].
  assert (Hg : runs (GetRedisClient r).1 = runs r).
  { unfold GetRedisClient. destruct (rdb r); [done|]. pose proof (reconnect_runs r) as H.
    destruct (reconnectRedis r) as [r' []]; simpl in *; done. }
  destruct (GetRedisClient r) as [r' [c|e]]; simpl in Hg; [|intros [= <- <-]; simpl; split; [lia|done]].
  destruct (operation c (world r')) as [w [x|e]]; [|destruct (isConnectionError (Some e))]; intros [= <- <-]; cbn [fst snd].
  - simpl. split; [lia|by eexists].
  - rewrite reconnect_runs. simpl. split; [lia|done].
  - simpl. split; [lia|done].
Qed.

(** An operation is tried at most three times, and more than once only after
    a connection error of the first try; no error is returned exactly when the
    last try succeeded, and then there is a result. *)
Theorem retry_bounded s s' result err :
  executeWithRetry s = ((s', result), err) ->
  (S (runs s) <= runs s' <= runs s + 3)%nat /\
  ((S (runs s) < runs s')%nat -> isConnectionError (retryOperation (s, None)).2 = true) /\
  (exists s0, retryOperation s0 = ((s', result), err)) /\
  (err = None -> is_Some result).
Proof.
  unfold executeWithRetry. destruct (retryOperation (s, None)) as [s1 err1] eqn:H1.
  destruct (retryOperation_runs _ _ _ H1) as [Hr1 Hx1]. simpl in Hr1.
  destruct (isConnectionError err1) eqn:Hc.
  2: { intros [= -> ->]. simpl in *. split_and!; [lia|lia|lia|by exists (s, None)|done]. }
  unfold Retrier.Retry. change (Z.to_nat 2) with 2%nat. cbn [Retrier.retry_loop].
  destruct (retryOperation s1) as [s2 [err2|]] eqn:H2; destruct (retryOperation_runs _ _ _ H2) as [Hr2 Hx2].
  2: { cbn [fst]. intros [= -> <-]. simpl in *. split_and!; [lia|lia|done|by exists s1|done]. }
  destruct (retryOperation s2) as [s3 [err3|]] eqn:H3; destruct (retryOperation_runs _ _ _ H3) as [Hr3 Hx3];
    cbn [fst]; intros [= -> <-]; simpl in *; (split_and!; [lia|lia|done|by exists s2|done]).
Qed.
End operation.

Definition CloseRedis (s : Rdb) : Rdb := mkRdb None (world s) (runs s).
End redis.

(** A server that refuses the first connection and the first command. *)
Definition w_ping (_ : unit) (w : nat) : nat * option error :=
  (S w, if (w =? 0)%nat then Some (External "connect: connection refused") else None).
Definition w_op (_ : unit) (w : nat) : nat * res Z := (S w, if (w <? 3)%nat then Err (External "i/o timeout") else Ok 7).
Lemma retry_bounded_witness :
  executeWithRetry (fun _ => "x"%string) (fun _ => ()) w_ping (fun _ => None) w_op (mkRdb None 0%nat 0) = ((mkRdb (Some ()) 5%nat 3, Some 7), None) /\
  is_Some (Some 7) /\ (1 <= 3 <= 3)%nat.
Proof.
  assert (H : executeWithRetry (fun _ => "x"%string) (fun _ => ()) w_ping (fun _ => None) w_op (mkRdb None 0%nat 0)
    = ((mkRdb (Some ()) 5%nat 3, Some 7), None)) by (vm_compute; reflexivity).
  destruct (retry_bounded (fun _ => "x"%string) (fun _ => ()) w_ping (fun _ => None) w_op _ _ _ _ H) as (Hn & _ & _ & Hs).
  split; [exact H|]. split; [by apply Hs|exact Hn].
Defined.
End Redis.

(** ** [rediscribe.go] *)
Module Rediscribe.

Section rediscribe.
Context {Client Msg : Type}.

Record RediscribeConfig : Type := mkConfig {
  RedisHost : string; RedisPort : string; RedisTopics : list string; Router : option nat; ReconnectInterval : Z }.
Definition DefaultReconnectInterval : Z := 5 * Second.
Definition WithRedisHost (host : string) (c : RediscribeConfig) : RediscribeConfig :=
  mkConfig host (RedisPort c) (RedisTopics c) (Router c) (ReconnectInterval c).
Definition WithRedisPort (port : string) (c : RediscribeConfig) : RediscribeConfig :=
  mkConfig (RedisHost c) port (RedisTopics c) (Router c) (ReconnectInterval c).
Definition WithRedisTopics (topics : list string) (c : RediscribeConfig) : RediscribeConfig :=
  mkConfig (RedisHost c) (RedisPort c) topics (Router c) (ReconnectInterval c).
(** [router]: the function, by its identity. *)
Definition WithRedisRouter (router : nat) (c : RediscribeConfig) : RediscribeConfig :=
  mkConfig (RedisHost c) (RedisPort c) (RedisTopics c) (Some router) (ReconnectInterval c).
Definition WithReconnectInterval (interval : Z) (c : RediscribeConfig) : RediscribeConfig :=
  mkConfig (RedisHost c) (RedisPort c) (RedisTopics c) (Router c) interval.

Record Rediscribe : Type := mkRediscribe {
  router : nat; topics : list string; host : string; port : string; reconnectInterval : Z }.
Definition NewRediscribe (opts : list (RediscribeConfig -> RediscribeConfig)) : res Rediscribe :=
  let config := fold_left (fun c opt => opt c) opts (mkConfig "" "" [] None DefaultReconnectInterval) in
  match Router config with
  | None => Err ErrRediscriberRouterNotFound
  | Some router => Ok (mkRediscribe router (RedisTopics config) (RedisHost config) (RedisPort config) (ReconnectInterval config))
  end.

(** [Start]: connecting, with its goroutines (one per topic that has not
    returned), or at its end.  A goroutine reads [client] when it subscribes. *)
Inductive phase : Type := Connecting | Serving | Stopped.
Inductive goroutine : Type := Spawned (topic : string) | Reading (topic : string) (c : Client) | Crashed.

Record Sys : Type := mkSys {
  at_ : phase;
  client : option Client;
  subs : list goroutine;
  closed : list Client;
  routed : list (string * Msg) }.

(** [routed]: the calls of the router; a goroutine goes on whatever it returns.  Steps of cancellation are those with
    [done]. *)
Inductive sys_step (r : Rediscribe) (done : bool) : Sys -> Sys -> Prop :=
| step_connect_failed s : at_ s = Connecting ->
    sys_step r done s (mkSys Connecting (client s) (subs s)
      (closed s ++ match client s with Some c => [c] | None => [] end) (routed s))
| step_connected s c : at_ s = Connecting ->
    sys_step r done s (mkSys Serving (Some c) (Spawned <$> topics r)
      (closed s ++ match client s with Some c => [c] | None => [] end) (routed s))
| step_stop s : at_ s = Connecting -> done = true ->
    sys_step r done s (mkSys Stopped (client s) (subs s) (closed s) (routed s))
| step_subscribe s l l' t : subs s = l ++ Spawned t :: l' ->
    sys_step r done s (mkSys (at_ s) (client s)
      (l ++ match client s with Some c => Reading t c | None => Crashed end :: l') (closed s) (routed s))
| step_message s l l' t c m : subs s = l ++ Reading t c :: l' ->
    sys_step r done s (mkSys (at_ s) (client s) (subs s) (closed s) (routed s ++ [(t, m)]))
| step_return s l l' t c : subs s = l ++ Reading t c :: l' ->
    sys_step r done s (mkSys (at_ s) (client s) (l ++ l') (closed s) (routed s))
| step_all_returned s : at_ s = Serving -> subs s = [] ->
    sys_step r done s (mkSys Connecting None [] (closed s ++ match client s with Some c => [c] | None => [] end)
      (routed s)).

Definition sys_init : Sys := mkSys Connecting None [] [] [].

Definition topic_of (g : goroutine) : list string :=
  match g with Spawned t | Reading t _ => [t] | Crashed => [] end.

(** No goroutine outlives the client it reads from. *)
Record sys_ok (r : Rediscribe) (s : Sys) : Prop := {
  ok_serving : subs s <> [] -> at_ s = Serving;
  ok_client : at_ s = Serving -> is_Some (client s);
  ok_reading : Forall (fun g => g <> Crashed /\ forall t c, g = Reading t c -> client s = Some c) (subs s);
  ok_topics : sublist (subs s ≫= topic_of) (topics r) }.

Lemma subscriber_init_ok r : sys_ok r sys_init.
Proof. split; simpl; try done. apply sublist_nil_l. Qed.

Lemma spawned_topics l : (Spawned <$> l) ≫= topic_of = l.
Proof. induction l as [|t l IH]; [done|]. simpl. f_equal. exact IH. Qed.

Lemma no_goroutine r s : sys_ok r s -> at_ s <> Serving -> subs s = [].
Proof. intros Hok Hat. destruct (subs s) as [|g l] eqn:Hs; [done|]. exfalso. apply Hat, (ok_serving r s Hok). by rewrite Hs. Qed.

Lemma subscriber_step_ok r done s s' : sys_ok r s -> sys_step r done s s' -> sys_ok r s'.
Proof.
  intros Hok Hstep. pose proof (no_goroutine r s Hok) as Hno. destruct Hok as [Hs Hc Hr Ht].
  destruct Hstep as [s Hat|s c Hat|s Hat _|s l l' t Hl|s l l' t c m Hl|s l l' t c Hl|s Hat Hl].
  - specialize (Hno ltac:(by rewrite Hat)). split; simpl; rewrite ?Hno; try done; rewrite Hno in *; done.
  - split; simpl; try done.
    + apply Forall_fmap, Forall_forall. by intros t _.
    + by rewrite spawned_topics.
  - specialize (Hno ltac:(by rewrite Hat)). split; simpl; rewrite ?Hno; try done; rewrite Hno in *; done.
  - rewrite Hl in *. assert (Hat : at_ s = Serving) by (apply Hs; by destruct l).
    destruct (Hc Hat) as [c Hcl]. rewrite Hcl in *. split; simpl; try done.
    + apply Forall_app in Hr as [Hr1 Hr2]. apply Forall_cons in Hr2 as [_ Hr2].
      apply Forall_app. split; [done|]. apply Forall_cons. split; [|done]. split; [done|]. by intros t' c' [= _ <-].
    + rewrite bind_app, bind_cons in *. exact Ht.
  - rewrite Hl in *. by split.
  - rewrite Hl in *. split; simpl; try done.
    + intros _. apply Hs. by destruct l.
    + apply Forall_app in Hr as [Hr1 Hr2]. apply Forall_cons in Hr2 as [_ Hr2]. by apply Forall_app.
    + etrans; [|exact Ht]. rewrite !bind_app, bind_cons. apply sublist_app; [done|]. by apply sublist_inserts_l.
  - split; simpl; try done. apply sublist_nil_l.
Qed.

Lemma subscriber_reachable_ok r done s : rtc (sys_step r done) sys_init s -> sys_ok r s.
Proof. intros Hr. eapply rtc_ind_r with (P := sys_ok r); eauto using subscriber_init_ok, subscriber_step_ok. Qed.

(** At any time every goroutine reads from the subscriber's present client
    (none has been closed under it, none meets a nil client), and the goroutines
    are of different topics when the topics are; while it connects there is
    none. *)
Theorem subscriber_safe r done s :
  rtc (sys_step r done) sys_init s ->
  Forall (fun g => g <> Crashed /\ forall t c, g = Reading t c -> client s = Some c) (subs s) /\
  (NoDup (topics r) -> NoDup (subs s ≫= topic_of)) /\ (at_ s <> Serving -> subs s = []).
Proof.
  intros Hok%subscriber_reachable_ok. split_and!; [apply Hok| |by apply (no_goroutine r)].
  intros Hnd. eapply sublist_NoDup; [exact Hnd|apply Hok].
Qed.

(** A topic whose channel was closed gets no new goroutine before all others
    have returned. *)
Lemma topic_not_renewed r done s s' : at_ s = Serving -> subs s <> [] -> sys_step r done s s' ->
  (length (subs s') <= length (subs s))%nat /\ at_ s' = Serving.
Proof.
  intros Hat Hne Hstep. inversion Hstep; subst; simpl in *; try congruence;
    repeat match goal with H : subs _ = _ |- _ => rewrite H in * end; rewrite ?length_app; simpl; split; try done; lia.
Qed.
End rediscribe.
Arguments Sys : clear implicits.

Definition w_sub : Rediscribe := mkRediscribe 0 ["a"; "b"]%string "h" "p" 5.
Lemma subscriber_safe_witness : exists s : Sys unit Z,
  rtc (sys_step w_sub false) sys_init s /\ routed s = [("a"%string, 7)] /\ NoDup (subs s ≫= topic_of).
Proof.
  set (s := mkSys Serving (Some ()) [Reading "a" (); Spawned "b"]%string [] [("a"%string, 7)]).
  assert (H : rtc (sys_step w_sub false) sys_init s).
  { eapply rtc_l; [by apply (step_connected _ _ _ ())|].
    eapply rtc_l; [by eapply (step_subscribe _ _ _ [] [Spawned "b"%string] "a"%string)|].
    eapply rtc_l; [by eapply (step_message _ _ _ [] [Spawned "b"%string] "a"%string () 7)|]. reflexivity. }
  exists s. split; [exact H|]. split; [reflexivity|]. apply (subscriber_safe w_sub false s H).
  apply (bool_decide_unpack (NoDup ["a"; "b"]%string)). by vm_compute.
Defined.

End Rediscribe.
