(* ===== verification/RedisStore.v ===== *)
(** * The operations of redis

    [node/pkg/db/redis.go], the rest of it: the commands that each operation
    sends through the retries of [Db.Redis], the objects they encode and decode,
    and the goroutine of a subscription.

    The client is third-party: the class [RedisClient] sends a command, or a
    transaction, and gives its reply.  What a command does to the keys of the
    server is [apply], the documented behaviour of redis, and [ServerLaws] says
    that a client's answers agree with it: a command that fails may or may not
    have run.  No key expires while an operation runs. *)

From S2P Require Import Prelude Errors Text Strings Util Db.
From stdpp Require Import gmap.
Import Text Strings Db.Redis.

Local Open Scope Z_scope.
Local Open Scope go_scope.

Module RedisStore.

(** ** Commands *)

Inductive Command : Type :=
| SET (key value : string) (exp : Z)
| MSET (pairs : list string)
| GET (key : string)
| MGET (keys : list string)
| DEL (key : string)
| LRANGE (key : string) (start stop : Z)
| LPUSH (key : string) (values : list string)
| EXPIRE (key : string) (exp : Z)
| PUBLISH (channel data : string).

Inductive Reply : Type :=
| RDone
| RText (text : string)
| RValues (values : list (option string))
| RList (items : list string).

Class RedisClient (Client W : Type) := {
  NewClient : string -> Client;
  Ping : Client -> W -> W * option error;
  Do : Command -> Client -> W -> W * res Reply;
  (** [TxPipeline] and [Exec]: one reply per command. *)
  Exec : list Command -> Client -> W -> W * res (list Reply);
  (** [Subscribe]: the connection is made later, by the library. *)
  SubscribeTo : string -> Client -> W -> W
}.

Section operations.
Context {Client W : Type} `{RedisClient Client W}.
Variable Getenv : string -> string.
Variable rand : nat -> option Z.

Local Notation State := (@Rdb Client W).
Local Notation execute op := (executeWithRetry Getenv NewClient Ping rand op).

(** The readings of a reply: [Err], [Result] of a text, of values, of a list. *)
Definition UnexpectedReply : error := External "redis: unexpected reply".
Definition read_err (r : res Reply) : res unit := let? _ := r in Ok ().
Definition read_text (r : res Reply) : res string :=
  let? x := r in match x with RText s => Ok s | _ => Err UnexpectedReply end.
Definition read_values (r : res Reply) : res (list (option string)) :=
  let? x := r in match x with RValues l => Ok l | _ => Err UnexpectedReply end.
Definition read_list (r : res Reply) : res (list string) :=
  let? x := r in match x with RList l => Ok l | _ => Err UnexpectedReply end.
Definition send {R} (read : res Reply -> res R) (cmd : Command) (c : Client) (w : W) : W * res R :=
  let '(w, r) := Do cmd c w in (w, read r).

(** The result variable of the caller keeps its zero value when there is none. *)
Definition returning {R} (zero : R) (x : (State * option R) * option error) : State * res R :=
  match x with
  | ((s, _), Some err) => (s, Err err)
  | ((s, result), None) => (s, Ok (default zero result))
  end.
Definition failing {R} (x : (State * option R) * option error) : State * option error :=
  let '((s, _), err) := x in (s, err).

Definition MSet_pairs (values : list (string * string)) : list string := values ≫= (fun '(k, v) => [k; v]).
Definition MSet (values : list (string * string)) (s : State) : State * option error :=
  failing (execute (send read_err (MSET (MSet_pairs values))) s).
Definition Set_ (key value : string) (exp : Z) (s : State) : State * option error :=
  failing (execute (send read_err (SET key value exp)) s).
Definition MGet (keys : list string) (s : State) : State * res (list (option string)) :=
  returning [] (execute (send read_values (MGET keys)) s).
Definition Get (key : string) (s : State) : State * res string :=
  returning ""%string (execute (send read_text (GET key)) s).
Definition LRange (key : string) (start stop : Z) (s : State) : State * res (list string) :=
  returning [] (execute (send read_list (LRANGE key start stop)) s).
Definition LPush (key : string) (values : list string) (s : State) : State * option error :=
  failing (execute (send read_err (LPUSH key values)) s).
(** The list is read and deleted in one transaction. *)
Definition pop_all (key : string) (c : Client) (w : W) : W * res (list string) :=
  match Exec [LRANGE key 0 (-1); DEL key] c w with
  | (w, Err err) => (w, Err err)
  | (w, Ok (RList l :: _)) => (w, Ok l)
  | (w, Ok _) => (w, Ok [])
  end.
Definition PopAll (key : string) (s : State) : State * res (list string) :=
  returning [] (execute (pop_all key) s).
(** Deletion is not retried. *)
Definition Del (key : string) (s : State) : State * option error :=
  match GetRedisClient Getenv NewClient Ping s with
  | (s, Err err) => (s, Some err)
  | (s, Ok c) => let '(w, r) := Do (DEL key) c (world s) in (mkRdb (rdb s) w (runs s), match r with Ok _ => None | Err err => Some err end)
  end.

(** ** Objects *)
Section objects.
Context {T : Type}.
Variable Marshal : T -> res string.
(** What is decoded, and the error: a failed decoding leaves some value. *)
Variable Unmarshal : string -> T * option error.

Definition Publish (channel : string) (value : option T) (s : State) : State * option error :=
  if bool_decide (channel = ""%string) then (s, Some (External "channel cannot be empty"))
  else match value with
  | None => (s, Some (External "value cannot be nil"))
  | Some value =>
      match Marshal value with
      | Err err => (s, Some err)
      | Ok data => failing (execute (send read_err (PUBLISH channel data)) s)
      end
  end.

(** The keys and encoded values, in the order of the iteration. *)
Fixpoint object_pairs (values : list (string * T)) : res (list string) :=
  match values with
  | [] => Ok []
  | (key, value) :: values => let? data := Marshal value in let? l := object_pairs values in Ok (key :: data :: l)
  end.
Definition MSetObject (values : list (string * T)) (s : State) : State * option error :=
  failing (execute (fun c w =>
    match object_pairs values with Err err => (w, Err err) | Ok pairs => send read_err (MSET pairs) c w end) s).
(** [keys] are the keys in the order of the second iteration. *)
Definition MSetObjectWithExp (values : list (string * T)) (keys : list string) (exp : Z) (s : State) : State * option error :=
  failing (execute (fun c w =>
    match object_pairs values with
    | Err err => (w, Err err)
    | Ok pairs => let '(w, r) := Exec (MSET pairs :: ((fun key => EXPIRE key exp) <$> keys)) c w in (w, let? _ := r in Ok ())
    end) s).
Definition SetObject (key : string) (value : T) (exp : Z) (s : State) : State * option error :=
  match Marshal value with Err err => (s, Some err) | Ok data => Set_ key data exp s end.

(** Missing keys and values that cannot be decoded are left out. *)
Definition decode_present (data : list (option string)) : list T :=
  omap (fun d => match d with
                 | None => None
                 | Some d => match Unmarshal d with (t, None) => Some t | _ => None end
                 end) data.
Definition MGetObject (keys : list string) (s : State) : State * res (list T) :=
  match keys with
  | [] => (s, Ok [])
  | _ => match MGet keys s with (s, Err err) => (s, Err err) | (s, Ok data) => (s, Ok (decode_present data)) end
  end.
Definition GetObject (key : string) (s : State) : State * res T :=
  match Get key s with
  | (s, Err err) => (s, Err err)
  | (s, Ok data) => (s, match Unmarshal data with (t, None) => Ok t | (_, Some err) => Err err end)
  end.
(** Of a list every element must decode. *)
Fixpoint decode_all (data : list string) : res (list T) :=
  match data with
  | [] => Ok []
  | d :: data =>
      match Unmarshal d with
      | (_, Some err) => Err err
      | (t, None) => let? l := decode_all data in Ok (t :: l)
      end
  end.
Definition LRangeObject (key : string) (start stop : Z) (s : State) : State * res (list T) :=
  match LRange key start stop s with (s, Err err) => (s, Err err) | (s, Ok data) => (s, decode_all data) end.
Definition PopAllObject (key : string) (s : State) : State * res (list T) :=
  match PopAll key s with (s, Err err) => (s, Err err) | (s, Ok data) => (s, decode_all data) end.
Fixpoint marshal_all (values : list T) : res (list string) :=
  match values with [] => Ok [] | v :: values => let? d := Marshal v in let? l := marshal_all values in Ok (d :: l) end.
Definition LPushObject (key : string) (values : list T) (s : State) : State * option error :=
  match marshal_all values with Err err => (s, Some err) | Ok l => LPush key l s end.
End objects.

(** The operation itself never fails; it starts the goroutine below. *)
Definition Subscribe (channel : string) (s : State) : State * option error :=
  if bool_decide (channel = ""%string) then (s, Some (External "channel cannot be empty"))
  else failing (execute (fun c w => (SubscribeTo channel c w, Ok ())) s).
End operations.

(** ** The goroutine of a subscription *)
Section subscription.
Context {T : Type}.
Variable Unmarshal : string -> T * option error.
(** The capacity of the caller's channel. *)
Variable cap : nat.

Inductive Loop : Type := Waiting | Sending (data : T) | Closed.
(** [got] and [taken] record the payloads received and the data the caller took. *)
Record Sub : Type := mkSub { loop : Loop; ch : list T; cancelled : bool; got : list string; taken : list T }.
Definition sub_init : Sub := mkSub Waiting [] false [] [].

Inductive sub_step : Sub -> Sub -> Prop :=
| sub_message payload b c g t :
    sub_step (mkSub Waiting b c g t) (mkSub (Sending (Unmarshal payload).1) b c (g ++ [payload]) t)
| sub_send d b c g t : (length b < cap)%nat ->
    sub_step (mkSub (Sending d) b c g t) (mkSub Waiting (b ++ [d]) c g t)
| sub_hand_over d c g t :
    sub_step (mkSub (Sending d) [] c g t) (mkSub Waiting [] c g (t ++ [d]))
| sub_take l d b c g t :
    sub_step (mkSub l (d :: b) c g t) (mkSub l b c g (t ++ [d]))
| sub_cancel l b c g t :
    sub_step (mkSub l b c g t) (mkSub l b true g t)
| sub_stop b g t :
    sub_step (mkSub Waiting b true g t) (mkSub Closed b true g t).

Definition in_hand (l : Loop) : list T := match l with Sending d => [d] | _ => [] end.

(** The caller is given one value for every message, in order: also for the
    messages that cannot be decoded, whatever the decoding left. *)
Theorem subscription_complete s :
  rtc sub_step sub_init s ->
  taken s ++ ch s ++ in_hand (loop s) = (fun p => (Unmarshal p).1) <$> got s.
Proof.
  intros Hr. remember sub_init as s0 eqn:E.
  assert (H0 : taken s0 ++ ch s0 ++ in_hand (loop s0) = (fun p => (Unmarshal p).1) <$> got s0) by by subst.
  clear E. induction Hr as [|a b c Hs _ IH]; [done|]. apply IH. clear IH.
  destruct Hs; simpl in *; rewrite ?fmap_app, ?app_nil_r, <-?app_assoc in *; simpl in *; try done.
  by rewrite <- H0, <- app_assoc.
Qed.
End subscription.

(** ** What the commands do *)

Inductive Value : Type := Text (text : string) | Items (items : list string).
Notation Keys := (gmap string Value).
Definition WrongType : error := External "WRONGTYPE Operation against a key holding the wrong kind of value".
Definition WrongArgs : error := External "ERR wrong number of arguments".

Fixpoint set_pairs (pairs : list string) (m : Keys) : option Keys :=
  match pairs with
  | [] => Some m
  | [_] => None
  | k :: v :: pairs => set_pairs pairs (<[k := Text v]> m)
  end.
(** Negative indices count from the end; both ends are included. *)
Definition lrange (l : list string) (start stop : Z) : list string :=
  let n := Z.of_nat (length l) in
  let first := if start <? 0 then Z.max 0 (n + start) else start in
  let last := if stop <? 0 then n + stop else Z.min stop (n - 1) in
  if last <? first then [] else take (Z.to_nat (last - first + 1)) (drop (Z.to_nat first) l).
Definition apply (cmd : Command) (m : Keys) : Keys * res Reply :=
  match cmd with
  | SET key value _ => (<[key := Text value]> m, Ok RDone)
  | MSET [] => (m, Err WrongArgs)
  | MSET pairs => match set_pairs pairs m with Some m' => (m', Ok RDone) | None => (m, Err WrongArgs) end
  | GET key =>
      (m, match m !! key with Some (Text v) => Ok (RText v) | Some (Items _) => Err WrongType | None => Err redis_Nil end)
  | MGET keys =>
      (m, Ok (RValues ((fun k => match m !! k with Some (Text v) => Some v | _ => None end) <$> keys)))
  | DEL key => (delete key m, Ok RDone)
  | LRANGE key start stop =>
      (m, match m !! key with
          | Some (Items l) => Ok (RList (lrange l start stop))
          | Some (Text _) => Err WrongType
          | None => Ok (RList [])
          end)
  | LPUSH _ [] => (m, Err WrongArgs)
  | LPUSH key values =>
      match m !! key with
      | Some (Text _) => (m, Err WrongType)
      | Some (Items l) => (<[key := Items (reverse values ++ l)]> m, Ok RDone)
      | None => (<[key := Items (reverse values)]> m, Ok RDone)
      end
  | EXPIRE key exp => (if exp <=? 0 then delete key m else m, Ok RDone)
  | PUBLISH _ _ => (m, Ok RDone)
  end.
(** All commands of a transaction run, also after one that fails. *)
Fixpoint apply_all (cmds : list Command) (m : Keys) : Keys * list (res Reply) :=
  match cmds with
  | [] => (m, [])
  | cmd :: cmds => let '(m, r) := apply cmd m in let '(m, rs) := apply_all cmds m in (m, r :: rs)
  end.

(** [keys]: the keys of the server as the world has them. *)
Class ServerLaws (Client W : Type) `{RedisClient Client W} (keys : W -> Keys) : Prop := {
  ping_keys c w : keys (Ping c w).1 = keys w;
  do_ok cmd c w w' r : Do cmd c w = (w', Ok r) -> apply cmd (keys w) = (keys w', Ok r);
  do_err cmd c w w' err : Do cmd c w = (w', Err err) -> keys w' = keys w \/ keys w' = (apply cmd (keys w)).1;
  exec_ok cmds c w w' rs : Exec cmds c w = (w', Ok rs) -> apply_all cmds (keys w) = (keys w', Ok <$> rs);
  exec_err cmds c w w' err : Exec cmds c w = (w', Err err) -> keys w' = keys w \/ keys w' = (apply_all cmds (keys w)).1
}.

Lemma lrange_all l : lrange l 0 (-1) = l.
Proof.
  unfold lrange. simpl. case (Z.ltb_spec (Z.of_nat (length l) + -1) 0); intros H; simpl.
  - destruct l; [done|simpl in H; lia].
  - by apply take_ge; lia.
Qed.

Section laws.
Context {Client W : Type} `{RedisClient Client W} (keys : W -> Keys) `{!ServerLaws Client W keys}.
Variable Getenv : string -> string.
Variable rand : nat -> option Z.
Local Notation State := (@Rdb Client W).
Local Notation execute op := (executeWithRetry Getenv NewClient Ping rand op).
Local Notation attempt op := (retryOperation Getenv NewClient Ping op).
Local Notation at_ s := (keys (world s)).

Lemma reconnect_keys (s : State) : at_ (reconnectRedis Getenv NewClient Ping s).1 = at_ s.
Proof.
  unfold reconnectRedis, connectToRedis. destruct (loadRedisConnectionString Getenv) as [info|]; [|done].
  pose proof (ping_keys (NewClient (Host info +:+ ":" +:+ Port info)%string) (world s)) as Hp.
  by destruct (Ping _ _) as [w []].
Qed.
Lemma client_keys (s : State) : at_ (GetRedisClient Getenv NewClient Ping s).1 = at_ s.
Proof.
  unfold GetRedisClient. destruct (rdb s); [done|]. pose proof (reconnect_keys s) as Hr.
  by destruct (reconnectRedis Getenv NewClient Ping s) as [s' []].
Qed.

Section operation.
Context {R : Type} (op : Client -> W -> W * res R).

(** One try: without a client, or with a run of the operation. *)
Lemma attempt_cases (s : State) r s' r' err :
  attempt op (s, r) = ((s', r'), err) ->
  runs s' = S (runs s) /\
  ((is_Some err /\ at_ s' = at_ s) \/
   exists c w x, keys w = at_ s /\ keys (op c w).1 = at_ s' /\ (op c w).2 = x /\
     match x with Ok y => err = None /\ r' = Some y | Err e => err = Some e end).
Proof.
  intros Ha. destruct (retryOperation_runs _ _ _ _ _ _ _ Ha) as [Hruns _]. simpl in Hruns. split; [done|].
  revert Ha. unfold retryOperation. pose proof (client_keys s) as Hk.
  destruct (GetRedisClient Getenv NewClient Ping s) as [s1 [c|e]]; simpl in Hk.
  2: { intros [= <- <- <-]. left. by split; [eexists|]. }
  destruct (op c (world s1)) as [w x] eqn:Ho. intros Ha. right. exists c, (world s1), x. rewrite Ho. cbn [fst snd].
  destruct x as [y|e]; [by injection Ha as <- <- <-|].
  revert Ha. case (isConnectionError (Some e)); intros [= <- _ <-]; split_and!; try done. by rewrite reconnect_keys.
Qed.

(** What failed tries keep holds when the last one runs; [n] counts them. *)
Lemma execute_ind (P : nat -> Keys -> Prop) (s s' : State) r err :
  (forall n m, P n m -> P (S n) m) ->
  (forall n c w w' e, P n (keys w) -> op c w = (w', Err e) -> P (S n) (keys w')) ->
  P 0%nat (at_ s) -> execute op s = ((s', r), err) ->
  match err with
  | None => exists n c w w' y, (n <= 2)%nat /\ runs s' = (runs s + S n)%nat /\ P n (keys w) /\ op c w = (w', Ok y) /\ r = Some y /\ at_ s' = keys w'
  | Some _ => exists n, (1 <= n <= 3)%nat /\ P n (at_ s')
  end.
Proof.
  intros Hidle Hfail H0.
  assert (Htry : forall n (s : State) r s' r' err, attempt op (s, r) = ((s', r'), err) -> P n (at_ s) ->
    runs s' = S (runs s) /\
    match err with
    | None => exists c w w' y, P n (keys w) /\ op c w = (w', Ok y) /\ r' = Some y /\ at_ s' = keys w'
    | Some _ => P (S n) (at_ s')
    end).
  { clear -Hidle Hfail ServerLaws0. intros n s r s' r' err Ha HP.
    destruct (attempt_cases _ _ _ _ _ Ha) as [Hn [[[e ->] Hk]|(c & w & x & Hw & Hs & Hx & Hm)]]; (split; [done|]).
    - rewrite Hk. by apply Hidle.
    - destruct (op c w) as [w' x'] eqn:Ho. simpl in *. subst x'. destruct x as [y|e].
      + destruct Hm as [-> ->]. exists c, w, w', y. by rewrite Hw.
      + subst err. rewrite <- Hs. eapply Hfail; [|done]. by rewrite Hw. }
  unfold executeWithRetry. destruct (attempt op (s, None)) as [[s1 r1] err1] eqn:H1.
  destruct (Htry 0%nat _ _ _ _ _ H1 H0) as [Hn1 Hm1].
  destruct (isConnectionError err1) eqn:Hc.
  2: { intros [= -> -> ->]. destruct err; [by exists 1%nat; split; [lia|]|].
       destruct Hm1 as (c & w & w' & y & ?). exists 0%nat, c, w, w', y. split; [lia|]. by split; [lia|]. }
  destruct err1 as [err1|]; [|done].
  unfold Retrier.Retry. change (Z.to_nat 2) with 2%nat. cbn [Retrier.retry_loop].
  destruct (attempt op (s1, r1)) as [[s2 r2] err2] eqn:H2. destruct (Htry 1%nat _ _ _ _ _ H2 Hm1) as [Hn2 Hm2].
  destruct err2 as [err2|]; cbn [fst].
  2: { intros [= -> -> <-]. destruct Hm2 as (c & w & w' & y & ?). exists 1%nat, c, w, w', y. split; [lia|]. by split; [lia|]. }
  destruct (attempt op (s2, r2)) as [[s3 r3] err3] eqn:H3. destruct (Htry 2%nat _ _ _ _ _ H3 Hm2) as [Hn3 Hm3].
  destruct err3 as [err3|]; cbn [fst]; intros [= -> -> <-]; [by exists 3%nat; split; [lia|]|].
  destruct Hm3 as (c & w & w' & y & ?). exists 2%nat, c, w, w', y. split; [lia|]. by split; [lia|].
Qed.
End operation.

(** *** Values *)

Lemma set_stored key value exp (s s1 : State) :
  Set_ Getenv rand key value exp s = (s1, None) -> at_ s1 = <[key := Text value]> (at_ s).
Proof.
  unfold Set_. destruct (execute _ s) as [[s' r] err] eqn:He. intros [= <- ->].
  pose proof (fun a b c => execute_ind _ (fun _ m => m = at_ s \/ m = <[key := Text value]> (at_ s)) _ _ _ _ a b c He) as Hx.
  simpl in Hx. destruct Hx as (n & c & w & w' & y & _ & _ & Hw & Hop & _ & ->); [done| |by left|].
  - intros _ c w w' e Hw. unfold send. destruct (Do _ _ _) as [w1 [x1|e1]] eqn:Hd; intros [= <- ?].
    destruct (do_err _ _ _ _ _ Hd) as [->| ->]; [done|right]. simpl. destruct Hw as [->| ->]; [done|apply insert_insert_eq].
  - unfold send in Hop. destruct (Do _ _ _) as [w1 [x1|e1]] eqn:Hd; [|done]. injection Hop as <- _.
    apply do_ok in Hd. injection Hd as <- _. destruct Hw as [->| ->]; [done|apply insert_insert_eq].
Qed.

(** A read leaves the keys alone, and a text that is returned is the key's. *)
Lemma get_reads key (s s1 : State) r :
  Get Getenv rand key s = (s1, r) ->
  at_ s1 = at_ s /\ (forall text, r = Ok text -> at_ s !! key = Some (Text text)).
Proof.
  unfold Get, returning. destruct (execute _ s) as [[s' x] err] eqn:He.
  pose proof (fun a b c => execute_ind _ (fun _ m => m = at_ s) _ _ _ _ a b c He) as Hx.
  ospecialize (Hx _ _ _); [done| |done|].
  { intros _ c w w' e Hw. unfold send. destruct (Do _ _ _) as [w1 x1] eqn:Hd. intros [= <- ?].
    destruct x1 as [x1|e1]; [by apply do_ok in Hd; injection Hd as <- _|]. by destruct (do_err _ _ _ _ _ Hd) as [->| ->]. }
  destruct err as [err|]; intros [= <- <-].
  { destruct Hx as (n & _ & ->). done. }
  destruct Hx as (n & c & w & w' & y & _ & _ & Hw & Hop & -> & ->).
  unfold send, read_text in Hop. destruct (Do _ _ _) as [w1 [x1|e1]] eqn:Hd; [|done]. simpl in Hop.
  destruct x1; try done. injection Hop as <- <-. apply do_ok in Hd. rewrite Hw in Hd. simpl in Hd.
  injection Hd as <- Hd. split; [done|]. intros t [= <-]. destruct (at_ s !! key) as [[]|]; by simplify_eq/=.
Qed.

(** An object that was stored is the one that is read, however often the
    command had to be sent, when its text decodes to it. *)
Theorem object_roundtrip {T} (Marshal : T -> res string) Unmarshal key (value : T) data exp (s s1 s2 : State) r :
  Marshal value = Ok data -> Unmarshal data = (value, None) ->
  SetObject Getenv rand Marshal key value exp s = (s1, None) ->
  GetObject Getenv rand Unmarshal key s1 = (s2, r) ->
  at_ s2 = <[key := Text data]> (at_ s) /\ (r = Ok value \/ exists err, r = Err err /\ Get Getenv rand key s1 = (s2, Err err)).
Proof.
  unfold SetObject, GetObject. intros -> Hu Hset. apply set_stored in Hset.
  destruct (Get Getenv rand key s1) as [s' r'] eqn:Hg. destruct (get_reads _ _ _ _ Hg) as [Hk Ht].
  destruct r' as [text|err]; intros [= <- <-]; (split; [congruence|]); [left|by right; eexists].
  specialize (Ht _ eq_refl). rewrite Hset, lookup_insert_eq in Ht. injection Ht as <-. by rewrite Hu.
Qed.

(** *** Lists *)

Definition items (m : Keys) (key : string) : list string := match m !! key with Some (Items l) => l | _ => [] end.
Definition pushed (values : list string) (n : nat) (l : list string) : list string := concat (replicate n (reverse values)) ++ l.

Lemma push_applied key values m m' r :
  apply (LPUSH key values) m = (m', r) ->
  match r with
  | Ok _ => m' = <[key := Items (reverse values ++ items m key)]> m
  | Err _ => m' = m
  end.
Proof.
  unfold items. simpl. destruct values as [|v values]; [by intros [= <- <-]|].
  destruct (m !! key) as [[]|]; intros [= <- <-]; by rewrite ?app_nil_r.
Qed.
Definition some_pushes (key : string) (values : list string) (m0 : Keys) (n : nat) (m : Keys) : Prop :=
  m = m0 \/ exists j, (1 <= j <= n)%nat /\ m = <[key := Items (pushed values j (items m0 key))]> m0.
Lemma some_pushes_next key values m0 n m m' r :
  some_pushes key values m0 n m -> apply (LPUSH key values) m = (m', r) ->
  some_pushes key values m0 (S n) m' /\ (r = Ok RDone -> exists j, (1 <= j <= S n)%nat /\ m' = <[key := Items (pushed values j (items m0 key))]> m0).
Proof.
  intros Hm Ha. apply push_applied in Ha. destruct r as [r|e].
  2: { subst m'. split; [|done]. destruct Hm as [->|(j & ? & ->)]; [by left|right]. exists j. split; [lia|done]. }
  assert (Hj : exists j, (1 <= j <= S n)%nat /\ m' = <[key := Items (pushed values j (items m0 key))]> m0); [|by split; [right|]].
  subst m'. destruct Hm as [->|(j & ? & ->)].
  - exists 1%nat. unfold pushed. simpl. rewrite app_nil_r. split; [lia|done].
  - exists (S j). unfold items at 1. rewrite lookup_insert_eq, insert_insert_eq. unfold pushed. simpl.
    rewrite app_assoc. split; [lia|done].
Qed.

(** A push that returns no error has pushed the values once or, when tries
    failed before, up to three times; nothing else changes.  With one try it is
    once. *)
Theorem push_at_least_once key values (s s1 : State) :
  LPush Getenv rand key values s = (s1, None) ->
  exists j, (1 <= j <= runs s1 - runs s)%nat /\ (runs s1 - runs s <= 3)%nat /\
    at_ s1 = <[key := Items (pushed values j (items (at_ s) key))]> (at_ s).
Proof.
  unfold LPush. destruct (execute _ s) as [[s' r] err] eqn:He. intros [= <- ->].
  pose proof (fun a b c => execute_ind _ (some_pushes key values (at_ s)) _ _ _ _ a b c He) as Hx.
  simpl in Hx. destruct Hx as (n & c & w & w' & y & Hn & Hr & Hw & Hop & _ & ->); [| |by left|].
  - intros n m [->|(j & ? & ->)]; [by left|right]. exists j. split; [lia|done].
  - intros n c w w' e Hw. unfold send. destruct (Do _ _ _) as [w1 [x1|e1]] eqn:Hd; intros [= <- ?].
    destruct (do_err _ _ _ _ _ Hd) as [->| ->].
    + destruct Hw as [->|(j & ? & ->)]; [by left|right]. exists j. split; [lia|done].
    + destruct (apply _ (keys w)) as [m' r'] eqn:Ha. by apply (some_pushes_next _ _ _ _ _ _ _ Hw) in Ha as [? _].
  - unfold send in Hop. destruct (Do _ _ _) as [w1 [x1|e1]] eqn:Hd; [|done]. injection Hop as <- _.
    apply do_ok in Hd. pose proof Hd as Ha. apply (some_pushes_next _ _ _ _ _ _ _ Hw) in Ha as [_ Hj].
    destruct Hj as (j & ? & ?).
    { simpl in Hd. destruct values; [done|]. destruct (keys w !! key) as [[]|]; by simplify_eq/=. }
    exists j. split_and!; [lia|lia|lia|done].
Qed.

(** A pop without error leaves no list, and returns it whole, or nothing when an
    earlier try failed. *)
Theorem pop_at_most_once key (s s1 : State) l :
  PopAll Getenv rand key s = (s1, Ok l) ->
  at_ s1 = delete key (at_ s) /\ (l = items (at_ s) key \/ (l = [] /\ (1 < runs s1 - runs s)%nat)).
Proof.
  unfold PopAll, returning. destruct (execute _ s) as [[s' x] [err|]] eqn:He; [done|]. intros [= <- <-].
  pose proof (fun a b c => execute_ind _ (fun n m => m = at_ s \/ (m = delete key (at_ s) /\ (0 < n)%nat)) _ _ _ _ a b c He) as Hx.
  simpl in Hx. destruct Hx as (n & c & w & w' & y & _ & Hr & Hw & Hop & -> & ->); [| |by left|].
  - intros n m [->|[-> ?]]; [by left|right; split; [done|lia]].
  - intros n c w w' e Hw. unfold pop_all. destruct (Exec _ _ _) as [w1 [rs|e1]] eqn:Hd.
    { by destruct rs as [|[] ?]. }
    intros [= <- <-]. destruct (exec_err _ _ _ _ _ Hd) as [->| ->].
    { destruct Hw as [->|[-> ?]]; [by left|right; split; [done|lia]]. }
    right. split; [|lia]. simpl. destruct Hw as [->|[-> ?]]; [done|apply delete_delete_eq].
  - simpl. unfold pop_all in Hop. destruct (Exec _ _ _) as [w1 [rs|e1]] eqn:Hd; [|done].
    apply exec_ok in Hd. simpl in Hd. injection Hd as Hk Hrs.
    assert (Hl : w1 = w' /\ y = items (keys w) key).
    { unfold items. destruct rs as [|r1 [|r2 [|]]]; try done. simpl in Hrs.
      destruct (keys w !! key) as [[]|]; try done; rewrite ?lrange_all in Hrs; injection Hrs as <- <-; by injection Hop as <- <-. }
    destruct Hl as [<- ->]. rewrite <- Hk.
    destruct Hw as [->|[-> ?]]; [by split; [|left]|]. split; [apply delete_delete_eq|right].
    unfold items. rewrite lookup_delete_eq. split; [done|lia].
Qed.

(** Objects that are pushed and popped without retries come out in the reverse
    order, before the older ones, and are gone. *)
Theorem pushed_objects_popped {T} (Marshal : T -> res string) Unmarshal key (values : list T) old (s s1 s2 : State) r :
  (forall v, exists d, Marshal v = Ok d /\ Unmarshal d = (v, None)) ->
  decode_all Unmarshal (items (at_ s) key) = Ok old ->
  LPushObject Getenv rand Marshal key values s = (s1, None) -> runs s1 = S (runs s) ->
  PopAllObject Getenv rand Unmarshal key s1 = (s2, Ok r) -> runs s2 = S (runs s1) ->
  r = reverse values ++ old /\ at_ s2 = delete key (at_ s).
Proof.
  intros Hj Hold Hpush Hn1 Hpop Hn2.
  assert (Hm : forall vs, exists ds, marshal_all Marshal vs = Ok ds /\ forall rest l, decode_all Unmarshal rest = Ok l ->
    decode_all Unmarshal (reverse ds ++ rest) = Ok (reverse vs ++ l)).
  { induction vs as [|v vs (ds & Hds & IH)]; [by exists []|]. destruct (Hj v) as (d & Hd & Hu). exists (d :: ds).
    simpl. rewrite Hd. simpl. rewrite Hds. simpl. split; [done|]. intros rest l Hl.
    rewrite !reverse_cons, <- !app_assoc. apply IH. simpl. rewrite Hu, Hl. done. }
  destruct (Hm values) as (ds & Hds & Hdec). unfold LPushObject in Hpush. rewrite Hds in Hpush.
  apply push_at_least_once in Hpush as (j & Hj1 & _ & Hk1). replace j with 1%nat in Hk1 by lia.
  unfold PopAllObject in Hpop. destruct (PopAll Getenv rand key s1) as [s' [l|e]] eqn:Hp; [|done].
  injection Hpop as -> Hr. apply pop_at_most_once in Hp as [Hk2 [->|[_ ?]]]; [|lia].
  rewrite Hk2, Hk1. split; [|apply delete_insert_eq]. revert Hr. unfold items at 1. rewrite Hk1, lookup_insert_eq.
  unfold pushed. simpl. rewrite app_nil_r, (Hdec _ _ Hold). congruence.
Qed.
End laws.

(** ** A server with faults *)
Module Faulty.

Inductive Fault : Type := Answer | LoseCommand | LoseReply.
(** The keys, and what happens to the commands to come. *)
Record World : Type := mkWorld { stored : Keys; faults : list Fault }.
Definition timeout : error := External "read tcp: i/o timeout".
Definition meet {R} (w : World) (applied : Keys * res R) : World * res R :=
  match faults w with
  | LoseCommand :: fs => (mkWorld (stored w) fs, Err timeout)
  | LoseReply :: fs => (mkWorld applied.1 fs, Err timeout)
  | fs => (mkWorld applied.1 (tail fs), applied.2)
  end.
Fixpoint all_replies (rs : list (res Reply)) : res (list Reply) :=
  match rs with [] => Ok [] | r :: rs => let? x := r in let? l := all_replies rs in Ok (x :: l) end.

#[export] Instance client : RedisClient unit World := {
  NewClient := fun _ => ();
  Ping := fun _ w => (w, None);
  Do := fun cmd _ w => meet w (apply cmd (stored w));
  Exec := fun cmds _ w => meet w (let '(m, rs) := apply_all cmds (stored w) in (m, all_replies rs));
  SubscribeTo := fun _ _ w => w
}.
Lemma all_replies_ok rs l : all_replies rs = Ok l -> rs = Ok <$> l.
Proof.
  revert l. induction rs as [|[r|e] rs IH]; intros l; simpl; [by intros [= <-]| |done].
  destruct (all_replies rs) as [l'|] eqn:E; [|done]. simpl. intros [= <-]. by rewrite (IH l').
Qed.
#[export] Instance laws : ServerLaws unit World stored.
Proof.
  split.
  - done.
  - intros cmd c w w' r. simpl. unfold meet. destruct (apply cmd (stored w)) as [m x].
    destruct (faults w) as [|[] fs]; by intros [= <- <-].
  - intros cmd c w w' e. simpl. unfold meet. destruct (apply cmd (stored w)) as [m x].
    destruct (faults w) as [|[] fs]; intros [= <- _]; auto.
  - intros cmds c w w' rs. simpl. unfold meet. destruct (apply_all cmds (stored w)) as [m x].
    destruct (faults w) as [|[] fs]; try done; intros [= <- Hr]; by rewrite (all_replies_ok _ _ Hr).
  - intros cmds c w w' e. simpl. unfold meet. destruct (apply_all cmds (stored w)) as [m x].
    destruct (faults w) as [|[] fs]; intros [= <- _]; auto.
Qed.

Definition env (_ : string) : string := "x".
Definition start (m : Keys) (fs : list Fault) : @Rdb unit World := mkRdb None (mkWorld m fs) 0.
Notation no_rand := (fun _ : nat => @None Z).

(** Two replies of a push are lost: each value is in the list three times. *)
Example push_repeats :
  (LPush env no_rand "k" ["a"; "b"] (start ∅ [LoseReply; LoseReply])).2 = None /\
  items (stored (world (LPush env no_rand "k" ["a"; "b"] (start ∅ [LoseReply; LoseReply])).1)) "k"
  = ["b"; "a"; "b"; "a"; "b"; "a"]%string.
Proof. by vm_compute. Qed.

(** The reply of a pop is lost: the second try finds nothing, and what was in the
    list is gone although no error is returned. *)
Example pop_loses :
  let s := start {[ "k"%string := Items ["a"; "b"]%string ]} [LoseReply] in
  (PopAll env no_rand "k" s).2 = Ok [] /\ stored (world (PopAll env no_rand "k" s).1) !! "k"%string = None.
Proof. by vm_compute. Qed.

(** An empty list of objects cannot be pushed, an empty map not stored. *)
Example empty_pushes :
  (LPush env no_rand "k" [] (start ∅ [])).2 = Some WrongArgs /\ (MSet env no_rand [] (start ∅ [])).2 = Some WrongArgs.
Proof. by vm_compute. Qed.

Lemma object_roundtrip_witness :
  (SetObject env no_rand (fun v : string => Ok v) "k" "v" 0 (start ∅ [LoseReply; LoseCommand])).2 = None /\
  stored (world (GetObject env no_rand (fun d => (d, None)) "k"
    (SetObject env no_rand (fun v : string => Ok v) "k" "v" 0 (start ∅ [LoseReply; LoseCommand])).1).1)
  = <["k"%string := Text "v"]> ∅.
Proof.
  split; [by vm_compute|].
  destruct (SetObject env no_rand (fun v : string => Ok v) "k" "v" 0 (start ∅ [LoseReply; LoseCommand])) as [s1 e1] eqn:H1.
  assert (e1 = None) as -> by (vm_compute in H1; congruence).
  destruct (GetObject env no_rand (fun d => (d, None)) "k" s1) as [s2 r] eqn:H2.
  cbn [fst]. rewrite H2.
  exact (proj1 (object_roundtrip stored env no_rand (fun v : string => Ok v) (fun d => (d, None)) "k" "v" "v" 0 _ s1 s2 r eq_refl eq_refl H1 H2)).
Defined.

Lemma push_at_least_once_witness :
  exists j, (1 <= j <= 2)%nat /\
    stored (world (LPush env no_rand "k" ["a"] (start ∅ [LoseCommand])).1) = <["k"%string := Items (pushed ["a"%string] j [])]> ∅.
Proof.
  destruct (LPush env no_rand "k" ["a"] (start ∅ [LoseCommand])) as [s1 e1] eqn:H1.
  assert (e1 = None /\ runs s1 = 2%nat) as [-> Hr] by (vm_compute in H1; injection H1 as <- <-; done).
  destruct (push_at_least_once stored env no_rand "k" ["a"%string] _ s1 H1) as (j & Hj & _ & Hk).
  exists j. rewrite Hr in Hj. split; [simpl in Hj; lia|exact Hk].
Defined.

Lemma pop_at_most_once_witness :
  let s := start {[ "k"%string := Items ["a"; "b"]%string ]} [] in
  (PopAll env no_rand "k" s).2 = Ok ["a"; "b"]%string /\ stored (world (PopAll env no_rand "k" s).1) = ∅.
Proof.
  intros s. split; [by vm_compute|].
  destruct (PopAll env no_rand "k" s) as [s1 r] eqn:H1.
  assert (r = Ok ["a"; "b"]%string) as -> by (vm_compute in H1; congruence).
  cbn [fst]. rewrite (proj1 (pop_at_most_once stored env no_rand "k" s s1 _ H1)). by vm_compute.
Defined.
End Faulty.
End RedisStore.
