(* ===== verification/Checkers.v ===== *)
(** * The checkers of delays

    The monitors of [node/pkg/checker] that count delays per symbol and report
    them: [checker/dal] (the REST and websocket sides of the DAL and its traffic),
    [checker/event] (submissions, proof of reserve and VRF events in the
    subgraphs) and [checker/offset] (local and global aggregates).

    A message is a constructor that carries the arguments of its [fmt.Sprintf];
    the text [msg] is the list of the messages added to it, which is empty exactly
    when the text is.  [alert.SlackAlert] is the output of a check.  Requests,
    queries and the clock are the environment of a check.

    Module [Alarm] states what all three count: a symbol is reported by itself at
    every eleventh delay in a row, and in the total from the fourth to the tenth.
    The theorems show that each checker does exactly this over any run, and where
    alarms are lost. *)

From S2P Require Import Prelude Errors Wire Text Strings Float Reducer Wss Decode.
From Stdlib Require Import Ascii Floats.SpecFloat.
Import Text Strings Float Reducer Decode.

Local Open Scope Z_scope.
Local Open Scope go_scope.

(** ** [time.ParseDuration] *)
Module GoDuration.

Definition limit : Z := 2 ^ 63.
Definition dec (c : ascii) : option Z :=
  let n := Z.of_N (N_of_ascii c) in if (48 <=? n) && (n <=? 57) then Some (n - 48) else None.

(** [leadingInt]: [None] on overflow. *)
Fixpoint leadingInt (x : Z) (l : list ascii) : option (Z * list ascii) :=
  match l with
  | c :: l' =>
      match dec c with
      | Some d => if limit / 10 <? x then None else
                  if limit <? x * 10 + d then None else leadingInt (x * 10 + d) l'
      | None => Some (x, l)
      end
  | [] => Some (x, [])
  end.

(** [leadingFraction]: digits that do not fit are skipped. *)
Fixpoint leadingFraction (x : Z) (scale : float64) (overflow : bool) (l : list ascii)
    : Z * float64 * list ascii :=
  match l with
  | c :: l' =>
      match dec c with
      | Some d =>
          if overflow || (max_int64 / 10 <? x) || (limit <? x * 10 + d)
          then leadingFraction x scale true l'
          else leadingFraction (x * 10 + d) (fmul scale (of_int 10)) false l'
      | None => (x, scale, l)
      end
  | [] => (x, scale, [])
  end.

Fixpoint unit_text (l : list ascii) : list ascii * list ascii :=
  match l with
  | c :: l' => if bool_decide (c = "."%char) || bool_decide (is_Some (dec c)) then ([], l)
               else let '(u, r) := unit_text l' in (c :: u, r)
  | [] => ([], [])
  end.
Definition micro_sign (second_byte : ascii) (first_byte : ascii) : list ascii := [first_byte; second_byte; "s"%char].
Definition unitMap (u : list ascii) : option Z :=
  if bool_decide (u = chars "ns") then Some 1
  else if bool_decide (u = chars "us") || bool_decide (u = micro_sign (ascii_of_N 181) (ascii_of_N 194))
          || bool_decide (u = micro_sign (ascii_of_N 188) (ascii_of_N 206)) then Some 1000
  else if bool_decide (u = chars "ms") then Some millisecond
  else if bool_decide (u = chars "s") then Some second
  else if bool_decide (u = chars "m") then Some (60 * second)
  else if bool_decide (u = chars "h") then Some (3600 * second)
  else None.

(** One number with its unit. *)
Definition part (l : list ascii) : option (Z * list ascii) :=
  '(v, l1) ← leadingInt 0 l;
  let pre := negb (length l =? length l1)%nat in
  let '(f, scale, post, l2) :=
    match l1 with
    | "."%char :: l1' => let '(f, scale, l2) := leadingFraction 0 (of_int 1) false l1' in
                         (f, scale, negb (length l1' =? length l2)%nat, l2)
    | _ => (0, of_int 1, false, l1)
    end in
  if negb pre && negb post then None else
  let '(u, l3) := unit_text l2 in
  unit ← unitMap u;
  if limit / unit <? v then None else
  let v := v * unit in
  if 0 <? f then
    let v := v + to_int64 (fmul (of_int f) (fdiv (of_int unit) scale)) in
    if limit <? v then None else Some (v, l3)
  else Some (v, l3).

(** The loop; every part takes at least one character, so the length is enough fuel. *)
Fixpoint parts (fuel : nat) (d : Z) (l : list ascii) : option Z :=
  match l, fuel with
  | [], _ => Some d
  | _, O => None
  | _, S fuel =>
      '(v, l') ← part l;
      if limit <? d + v then None else parts fuel (d + v) l'
  end.

Definition sign (l : list ascii) : bool * list ascii :=
  match l with
  | "-"%char :: l' => (true, l')
  | "+"%char :: l' => (false, l')
  | _ => (false, l)
  end.
Definition ParseDuration (s : string) : option Duration :=
  let '(neg, l) := sign (chars s) in
  if bool_decide (l = ["0"%char]) then Some 0
  else match l with
  | [] => None
  | _ => d ← parts (length l) 0 l;
         if neg then Some (- d) else if max_int64 <? d then None else Some d
  end.

Example ParseDuration_examples :
  ParseDuration "1h15m30.5s" = Some (4530 * second + 500 * millisecond) /\
  ParseDuration "-1.5ms" = Some (-1500000) /\ ParseDuration "10" = None /\ ParseDuration "" = None /\
  ParseDuration ".s" = None /\ ParseDuration "0" = Some 0 /\ ParseDuration "3000000h" = None.
Proof. vm_compute. repeat split. Qed.

(** An interval of the environment, or the default. *)
Definition interval_or (s : string) (default : Duration) : Duration :=
  match ParseDuration s with Some d => d | None => default end.

End GoDuration.

(** ** Counting of delays *)
Module Alarm.

Definition AlarmOffsetPerPair : Z := 10.
Definition AlarmOffsetInTotal : Z := 3.
Definition SymbolsToBeDelisted : list string := ["JOY-USDT"]%string.
Definition delisted (name : string) : bool := bool_decide (name ∈ SymbolsToBeDelisted).

(** What one look at a counter leads to: nothing, a message of its own, or one more in the total. *)
Inductive verdict : Type := Silent | Reported | Totalled.
#[export] Instance verdict_eq_dec : EqDecision verdict.
Proof. solve_decision. Defined.

Definition alarm_step (count : Z) (delayed : bool) : Z * verdict :=
  if delayed then
    let count := wrap64 (count + 1) in
    if AlarmOffsetPerPair <? count then (0, Reported)
    else if AlarmOffsetInTotal <? count then (count, Totalled)
    else (count, Silent)
  else (0, Silent).

(** The counters of a map: a missing key counts from 0. *)
Section counts.
Context {K : Type} `{Countable K}.

Definition bump (counts : gmap K Z) (k : K) (delayed : bool) : gmap K Z * verdict :=
  let '(c, v) := alarm_step (default 0 (counts !! k)) delayed in (<[k := c]> counts, v).

End counts.

(** *** Reference: the delays in a row at the end of a history *)
Fixpoint leading (l : list bool) : nat :=
  match l with true :: l' => S (leading l') | _ => O end.
Definition streak (history : list bool) : nat := leading (rev history).
Definition verdict_at (n : nat) : verdict :=
  if (n =? 0)%nat then Silent
  else if (n mod 11 =? 0)%nat then Reported
  else if (3 <? n mod 11)%nat then Totalled else Silent.

(** The counter after a history, and the verdicts of its looks. *)
Fixpoint looks (c : Z) (history : list bool) : Z * list verdict :=
  match history with
  | [] => (c, [])
  | d :: h => let '(c1, v) := alarm_step c d in let '(c2, vs) := looks c1 h in (c2, v :: vs)
  end.

Lemma streak_snoc h d : streak (h ++ [d]) = if d then S (streak h) else O.
Proof. unfold streak. rewrite rev_app_distr. by destruct d. Qed.

Lemma looks_app c h1 h2 :
  looks c (h1 ++ h2) = ((looks (looks c h1).1 h2).1, (looks c h1).2 ++ (looks (looks c h1).1 h2).2).
Proof.
  revert c. induction h1 as [|d h1 IH]; intros c; simpl; [by destruct (looks c h2)|].
  destruct (alarm_step c d) as [c1 v]. rewrite IH. by destruct (looks c1 h1).
Qed.

Lemma alarm_step_streak n d :
  alarm_step (Z.of_nat (n mod 11)) d =
  (Z.of_nat ((if d then S n else O) mod 11), verdict_at (if d then S n else O)).
Proof.
  unfold alarm_step, verdict_at, AlarmOffsetPerPair, AlarmOffsetInTotal. destruct d; [|done].
  pose proof (Nat.mod_upper_bound n 11 ltac:(lia)) as Hb.
  pose proof (Nat.div_mod_eq n 11) as Hn. pose proof (Nat.div_mod_eq (S n) 11) as Hs.
  pose proof (Nat.mod_upper_bound (S n) 11 ltac:(lia)) as Hb'.
  rewrite wrap64_id by (unfold in_int64; int_lia).
  destruct (decide (n mod 11 = 10)%nat) as [He|He].
  - assert (S n mod 11 = 0)%nat as -> by lia. rewrite He. done.
  - assert (S n mod 11 = S (n mod 11))%nat as -> by lia.
    destruct (10 <? Z.of_nat (n mod 11) + 1) eqn:E1; breflect; [lia|].
    replace (S n =? 0)%nat with false by done. replace (S (n mod 11) =? 0)%nat with false by done.
    destruct (3 <? Z.of_nat (n mod 11) + 1) eqn:E2; breflect.
    + replace (3 <? S (n mod 11))%nat with true by (symmetry; apply Nat.ltb_lt; lia). f_equal. lia.
    + replace (3 <? S (n mod 11))%nat with false by (symmetry; apply Nat.ltb_ge; lia). f_equal. lia.
Qed.

(** The counter is the length of the current run of delays modulo eleven, and the
    verdict of every look depends on that length only. *)
Lemma looks_streak h :
  looks 0 h = (Z.of_nat (streak h mod 11), (fun k => verdict_at (streak (take (S k) h))) <$> seq 0 (length h)).
Proof.
  induction h as [|d h IH] using rev_ind; [done|].
  rewrite looks_app, IH. cbn [fst snd]. cbn [looks]. rewrite alarm_step_streak, streak_snoc. cbn [fst snd].
  f_equal. rewrite length_app. cbn [length]. rewrite Nat.add_1_r, seq_S, fmap_app. cbn [fmap list_fmap].
  f_equal.
  - apply list_fmap_ext. intros i k Hk%lookup_seq. rewrite take_app_le by lia. done.
  - rewrite take_ge by (rewrite length_app; simpl; lia). by rewrite streak_snoc.
Qed.

(** *** Looks that carry what is reported *)
Section reports.
Context {A : Type}.

(** Looks at one counter with what each would report. *)
Fixpoint told (c : Z) (obs : list (A * bool)) : Z * list (A * verdict) :=
  match obs with
  | [] => (c, [])
  | (a, d) :: obs => let '(c1, v) := alarm_step c d in let '(c2, vs) := told c1 obs in (c2, (a, v) :: vs)
  end.
Definition is_report (av : A * verdict) : option A :=
  match av.2 with Reported => Some av.1 | _ => None end.

(** Reference: what is reported are the looks that end a run of 11, 22, 33, ... delays. *)
Definition reported (obs : list (A * bool)) : list A :=
  omap (fun k => x ← obs !! k; is_report (x.1, verdict_at (streak (take (S k) (snd <$> obs))))) (seq 0 (length obs)).

Lemma told_looks c obs :
  told c obs = ((looks c (snd <$> obs)).1, zip (fst <$> obs) (looks c (snd <$> obs)).2).
Proof.
  revert c. induction obs as [|[a d] obs IH]; intros c; [done|]. simpl.
  destruct (alarm_step c d) as [c1 v]. rewrite IH. by destruct (looks c1 _).
Qed.

Lemma omap_of_fmap {B C D} (f : C -> option D) (g : B -> C) (l : list B) : omap f (g <$> l) = omap (fun x => f (g x)) l.
Proof. induction l as [|x l IH]; [done|]. cbn. rewrite IH. done. Qed.

Lemma omap_same {B C} (f g : B -> option C) (l : list B) : (forall x, f x = g x) -> omap f l = omap g l.
Proof. intros Hfg. induction l as [|x l IH]; [done|]. cbn. by rewrite Hfg, IH. Qed.

Lemma omap_zip_seq {B C D} (f : B * C -> option D) (h : nat -> C) (l : list B) :
  omap f (zip l (h <$> seq 0 (length l))) = omap (fun k => x ← l !! k; f (x, h k)) (seq 0 (length l)).
Proof.
  revert h. induction l as [|b l IH]; intros h; [done|]. cbn [length seq fmap list_fmap zip omap list_omap lookup list_lookup].
  rewrite <- fmap_S_seq, <- list_fmap_compose, (IH (h ∘ S)), omap_of_fmap. cbn. by destruct (f (b, h 0%nat)).
Qed.

Lemma told_reported obs :
  (told 0 obs).1 = Z.of_nat (streak (snd <$> obs) mod 11) /\ omap is_report (told 0 obs).2 = reported obs.
Proof.
  rewrite told_looks, looks_streak. split; [done|]. cbn [snd].
  rewrite length_fmap, <- (length_fmap fst obs), omap_zip_seq, length_fmap. unfold reported.
  apply omap_same. intros k. rewrite list_lookup_fmap. by destruct (obs !! k).
Qed.

Context {K : Type} `{Countable K}.

(** Looks at the counters of a map. *)
Fixpoint tell (counts : gmap K Z) (obs : list (K * (A * bool))) : gmap K Z * list (K * (A * verdict)) :=
  match obs with
  | [] => (counts, [])
  | (k, (a, d)) :: obs =>
      let '(counts, v) := bump counts k d in let '(counts, vs) := tell counts obs in (counts, (k, (a, v)) :: vs)
  end.
Definition of_key {B} (k : K) (l : list (K * B)) : list B := snd <$> filter (fun kb => kb.1 = k) l.

Lemma of_key_app {B} k (l1 l2 : list (K * B)) : of_key k (l1 ++ l2) = of_key k l1 ++ of_key k l2.
Proof. unfold of_key. by rewrite filter_app, fmap_app. Qed.

Lemma tell_app counts o1 o2 :
  tell counts (o1 ++ o2) = ((tell (tell counts o1).1 o2).1, (tell counts o1).2 ++ (tell (tell counts o1).1 o2).2).
Proof.
  revert counts. induction o1 as [|[k [a d]] o1 IH]; intros counts; simpl; [by destruct (tell counts o2)|].
  destruct (bump counts k d) as [c1 v]. rewrite IH. by destruct (tell c1 o1).
Qed.

(** Looks at many keys are, for every key, the looks at it. *)
Lemma tell_key counts obs k :
  (default 0 ((tell counts obs).1 !! k), of_key k (tell counts obs).2) = told (default 0 (counts !! k)) (of_key k obs).
Proof.
  revert counts. induction obs as [|[k' [a d]] obs IH]; intros counts; [done|].
  unfold of_key in *. simpl. unfold bump.
  destruct (alarm_step (default 0 (counts !! k')) d) as [c v] eqn:Hs.
  specialize (IH (<[k' := c]> counts)). destruct (tell (<[k' := c]> counts) obs) as [counts' vs]. cbn [fst snd] in *.
  destruct (decide (k' = k)) as [->|Hne].
  - rewrite !filter_cons_True by done. cbn [fmap list_fmap fst snd told]. rewrite Hs.
    rewrite lookup_insert_eq in IH. simpl in IH. by rewrite <- IH.
  - rewrite !filter_cons_False by done. by rewrite lookup_insert_ne in IH by done.
Qed.

Lemma tell_reported obs k :
  default 0 ((tell ∅ obs).1 !! k) = Z.of_nat (streak (snd <$> of_key k obs) mod 11) /\
  omap is_report (of_key k (tell ∅ obs).2) = reported (of_key k obs).
Proof.
  pose proof (tell_key ∅ obs k) as Ht. rewrite lookup_empty in Ht. simpl in Ht.
  destruct (told_reported (of_key k obs)) as [H1 H2]. rewrite <- Ht in H1, H2. done.
Qed.

End reports.

End Alarm.

(** ** [checker/dal] *)
Module DalChecker.
Import Alarm GoDuration.

Definition DefaultDalCheckInterval : Duration := 10 * second.
Definition DelayOffset : Duration := 5 * second.
Definition WsPushThreshold : Duration := 5 * second.
Definition NetworkDelayThreshold : Duration := 6 * second.
Definition RestTimeout : Duration := 10 * second.
Definition IgnoreKeys : string := "test,sentinel,orakl_reporter".
Definition TrafficOldOffset : Z := 600.
Definition TrafficRecentOffset : Z := 10.

Record OutgoingSubmissionData : Type := mkOutgoing {
  Symbol : string; Value : string; AggregateTime : string; Proof_ : string; FeedHash : string; Decimals : string }.

Inductive Message : Type :=
| NetworkDelayed (delay : Duration)
| EmptyData (data : OutgoingSubmissionData)
| Delayed (symbol : string) (offset : Duration)
| DelayedTotal (symbols : Z)
| NotPushed (symbol : string) (elapsed : Duration)
| NotPushedTotal (symbols : Z)
| Traffic (recent prev : Z).

(** [alert.SlackAlert(msg)] unless [msg] is empty. *)
Definition alert (msg : list Message) : option (list Message) :=
  match msg with [] => None | _ => Some msg end.

Definition isDataEmpty (data : OutgoingSubmissionData) : bool :=
  bool_decide (Symbol data = "")%string || bool_decide (Value data = "")%string
  || bool_decide (AggregateTime data = "")%string || bool_decide (Proof_ data = "")%string
  || bool_decide (FeedHash data = "")%string || bool_decide (Decimals data = "")%string.

(** *** The REST side *)
(** A check: the delay of the request, and the answer with the time at which each entry is looked at. *)
Record Check : Type := mkCheck { networkDelay : Duration; resp : res (list (OutgoingSubmissionData * Time)) }.
Record DalState : Type := mkDal { alarmCount : gmap string Z; networkDelayAlarmCount : Z }.

Fixpoint data_loop (networkDelay : Duration) (counts : gmap string Z) (l : list (OutgoingSubmissionData * Time))
    : gmap string Z * list Message * Z :=
  match l with
  | [] => (counts, [], 0)
  | (data, now) :: l =>
      if delisted (Symbol data) then data_loop networkDelay counts l else
      match ParseInt 64 (AggregateTime data) with
      | None => data_loop networkDelay counts l
      | Some rawTimestamp =>
          let offset := time_Sub now (rawTimestamp * millisecond) in
          let msg := if isDataEmpty data then [EmptyData data] else [] in
          let '(counts, v) := bump counts (Symbol data) (wrap64 (DelayOffset + networkDelay) <? offset) in
          let msg := match v with Reported => msg ++ [Delayed (Symbol data) offset] | _ => msg end in
          let '(counts, msgs, total) := data_loop networkDelay counts l in
          (counts, msg ++ msgs, match v with Totalled => total + 1 | _ => total end)
      end
  end.

Definition network_step (networkDelay : Duration) (count : Z) : Z * list Message :=
  if NetworkDelayThreshold <? networkDelay then
    let count := wrap64 (count + 1) in
    if AlarmOffsetInTotal <? count then (0, [NetworkDelayed networkDelay]) else (count, [])
  else (0, []).

(** The new counters, the alert if there is one, and the error. *)
Definition checkDal (c : Check) (s : DalState) : DalState * option (list Message) * option error :=
  let '(count, msg) := network_step (networkDelay c) (networkDelayAlarmCount s) in
  match resp c with
  | Err err => (mkDal (alarmCount s) count, None, Some err)
  | Ok resp =>
      let '(counts, msgs, totalDelayed) := data_loop (networkDelay c) (alarmCount s) resp in
      let msg := msg ++ msgs ++ (if 0 <? totalDelayed then [DelayedTotal totalDelayed] else []) in
      (mkDal counts count, alert msg, None)
  end.

Fixpoint checks (s : DalState) (cs : list Check) : DalState * list (list Message) :=
  match cs with
  | [] => (s, [])
  | c :: cs =>
      let '(s, a, _) := checkDal c s in
      let '(s, alerts) := checks s cs in (s, match a with Some msg => msg :: alerts | None => alerts end)
  end.

Definition dal_start : DalState := mkDal ∅ 0.

(** Reference: the looks at the symbols of an answer, with their offsets. *)
Definition look (networkDelay : Duration) (e : OutgoingSubmissionData * Time) : option (string * (Duration * bool)) :=
  if delisted (Symbol e.1) then None else
  t ← ParseInt 64 (AggregateTime e.1);
  let offset := time_Sub e.2 (t * millisecond) in
  Some (Symbol e.1, (offset, wrap64 (DelayOffset + networkDelay) <? offset)).
Definition looks_of (c : Check) : list (string * (Duration * bool)) :=
  match resp c with Ok l => omap (look (networkDelay c)) l | Err _ => [] end.
Definition reports (symbol : string) (msg : list Message) : list Duration :=
  omap (fun m => match m with Delayed s o => if decide (s = symbol) then Some o else None | _ => None end) msg.

Lemma reports_app s a b : reports s (a ++ b) = reports s a ++ reports s b.
Proof. apply omap_app. Qed.

Lemma of_key_cons {B} (k k' : string) (b : B) l :
  of_key k ((k', b) :: l) = if decide (k' = k) then b :: of_key k l else of_key k l.
Proof. unfold of_key. destruct (decide (k' = k)); [by rewrite filter_cons_True|by rewrite filter_cons_False]. Qed.

(** The loop is the looks at the symbols. *)
Lemma data_loop_tell nd counts l s :
  (data_loop nd counts l).1.1 = (tell counts (omap (look nd) l)).1 /\
  reports s (data_loop nd counts l).1.2 = omap is_report (of_key s (tell counts (omap (look nd) l)).2).
Proof.
  revert counts. induction l as [|[data now] l IH]; intros counts; [done|].
  cbn [omap list_omap data_loop]. remember (look nd (data, now)) as o eqn:Ho. unfold look in Ho. cbn [fst snd] in Ho.
  destruct (delisted (Symbol data)); [subst; apply IH|].
  destruct (ParseInt 64 (AggregateTime data)) as [t|]; [|subst; apply IH]. cbn in Ho. subst. cbn [tell].
  set (offset := time_Sub now (t * millisecond)).
  destruct (bump counts _ _) as [counts' v]. specialize (IH counts').
  destruct (data_loop nd counts' l) as [[counts2 msgs] total]. destruct (tell counts' _) as [counts3 vs].
  cbn [fst snd] in *. destruct IH as [-> IH]. split; [done|].
  rewrite of_key_cons, reports_app, IH.
  assert (reports s (if isDataEmpty data then [EmptyData data] else []) = []) as He by by destruct (isDataEmpty data).
  destruct v; rewrite ?reports_app, He; destruct (decide (Symbol data = s)) as [Hs|Hne]; try done;
    unfold reports; cbn; [by rewrite decide_True|by rewrite decide_False].
Qed.

Lemma checkDal_tell c st s :
  let '(st', a, _) := checkDal c st in
  alarmCount st' = (tell (alarmCount st) (looks_of c)).1 /\
  reports s (default [] a) = omap is_report (of_key s (tell (alarmCount st) (looks_of c)).2).
Proof.
  unfold checkDal, looks_of. destruct (network_step _ _) as [n msg] eqn:Hn.
  assert (reports s msg = []) as Hr.
  { revert Hn. unfold network_step. go_cases; intros; simplify_eq/=; done. }
  destruct (resp c) as [l|e]; [|done].
  pose proof (data_loop_tell (networkDelay c) (alarmCount st) l s) as [H1 H2].
  destruct (data_loop _ _ _) as [[counts msgs] total]. cbn [fst snd] in *. split; [done|].
  assert (default [] (alert (msg ++ msgs ++ (if 0 <? total then [DelayedTotal total] else []))) =
    msg ++ msgs ++ (if 0 <? total then [DelayedTotal total] else [])) as -> by by destruct (msg ++ _).
  rewrite !reports_app, Hr, H2. destruct (0 <? total); by rewrite app_nil_r.
Qed.

Lemma checks_tell st cs s :
  alarmCount (checks st cs).1 = (tell (alarmCount st) (cs ≫= looks_of)).1 /\
  reports s (concat (checks st cs).2) = omap is_report (of_key s (tell (alarmCount st) (cs ≫= looks_of)).2).
Proof.
  revert st. induction cs as [|c cs IH]; intros st; [done|]. cbn [checks mbind list_bind].
  pose proof (checkDal_tell c st s) as Hc. destruct (checkDal c st) as [[st' a] e]. destruct Hc as [H1 H2].
  destruct (IH st') as [I1 I2]. destruct (checks st' cs) as [st2 alerts]. cbn [fst snd] in *.
  rewrite tell_app. cbn [fst snd]. rewrite <- H1. split; [done|].
  rewrite of_key_app, omap_app, <- H2, <- I2. destruct a; [|done]. cbn [concat default]. by rewrite reports_app.
Qed.

(** C38: Over any run of checks, with any answers of the DAL, the counter of a symbol is
    the number of delayed looks in a row modulo eleven, and the symbol is reported
    exactly at the looks that complete 11, 22, 33, ... delays in a row, each time
    with the offset of that look. *)
Theorem dal_alarms_exact (cs : list Check) (s : string) :
  default 0 (alarmCount (checks dal_start cs).1 !! s) = Z.of_nat (streak (snd <$> of_key s (cs ≫= looks_of)) mod 11) /\
  reports s (concat (checks dal_start cs).2) = reported (of_key s (cs ≫= looks_of)).
Proof.
  destruct (checks_tell dal_start cs s) as [-> ->]. apply tell_reported.
Qed.

(** A DAL that does not answer is never reported: the message about the delay of
    the network is dropped with the error, and its counter starts again. *)
Theorem unreachable_dal_silent (st : DalState) (cs : list Check) :
  Forall (fun c => exists e, resp c = Err e) cs -> (checks st cs).2 = [].
Proof.
  intros Hcs. revert st. induction Hcs as [|c cs [e He] _ IH]; intros st; [done|].
  cbn [checks]. unfold checkDal. destruct (network_step _ _). rewrite He.
  specialize (IH (mkDal (alarmCount st) z)). by destruct (checks _ cs).
Qed.

(** *** The websocket side *)
(** [updateTimes.lastUpdates] and [wsDelayAlarmCount]. *)
Record WsState : Type := mkWs { lastUpdates : gmap string Time; wsDelayAlarmCount : gmap string Z }.

Definition Store (symbol : string) (time : Time) (s : WsState) : WsState :=
  mkWs (<[symbol := time]> (lastUpdates s)) (wsDelayAlarmCount s).

Definition WsResponse : ty :=
  TStruct [("Symbol", "symbol", TString); ("AggregateTime", "aggregateTime", TString)]%string.
Definition symbol_of (v : value) : string :=
  match v with VStruct ((_, VString s) :: _) => s | _ => "" end.
Definition handleWsMessage (now : Time) (data : list (string * json)) (s : WsState) : WsState * option error :=
  match MessageToStruct WsResponse data with
  | Err err => (s, Some err)
  | Ok wsData => (Store (symbol_of wsData) now s, None)
  end.

(** The keys of the map come in any [order]; [now] is the clock when a symbol is looked at. *)
Fixpoint ws_loop (lastUpdates : gmap string Time) (now : string -> Time) (counts : gmap string Z) (order : list string)
    : gmap string Z * list Message * Z :=
  match order with
  | [] => (counts, [], 0)
  | symbol :: order =>
      match lastUpdates !! symbol with
      | None => ws_loop lastUpdates now counts order
      | Some updateTime =>
          if delisted symbol then ws_loop lastUpdates now counts order else
          let elapsedTime := time_Sub (now symbol) updateTime in
          let '(counts, v) := bump counts symbol (WsPushThreshold <? elapsedTime) in
          let '(counts, messages, n) := ws_loop lastUpdates now counts order in
          (counts, match v with Reported => NotPushed symbol elapsedTime :: messages | _ => messages end,
           match v with Totalled => n + 1 | _ => n end)
      end
  end.
Definition CheckLastUpdateOffsets (now : string -> Time) (order : list string) (s : WsState) : WsState * list Message :=
  let '(counts, messages, websocketNotPushedCount) := ws_loop (lastUpdates s) now (wsDelayAlarmCount s) order in
  (mkWs (lastUpdates s) counts,
   messages ++ (if 0 <? websocketNotPushedCount then [NotPushedTotal websocketNotPushedCount] else [])).
Definition checkDalWs (now : string -> Time) (order : list string) (s : WsState) : WsState * option (list Message) :=
  let '(s, msgs) := CheckLastUpdateOffsets now order s in (s, alert msgs).

(** Messages of the DAL and ticks of the checker, in any order. *)
Inductive WsEvent : Type := Pushed (now : Time) (data : list (string * json)) | Tick (now : string -> Time) (order : list string).
Definition ws_event (e : WsEvent) (s : WsState) : WsState * option (list Message) :=
  match e with
  | Pushed now data => ((handleWsMessage now data s).1, None)
  | Tick now order => checkDalWs now order s
  end.
Fixpoint ws_run (s : WsState) (es : list WsEvent) : WsState * list (list Message) :=
  match es with
  | [] => (s, [])
  | e :: es => let '(s, a) := ws_event e s in let '(s, alerts) := ws_run s es in
               (s, match a with Some msg => msg :: alerts | None => alerts end)
  end.
Definition ws_start : WsState := mkWs ∅ ∅.

(** Reference: the looks of a run, each with the last update before it. *)
Definition ws_look (m : gmap string Time) (now : string -> Time) (symbol : string) : option (string * (Duration * bool)) :=
  t ← m !! symbol;
  if delisted symbol then None else
  let elapsed := time_Sub (now symbol) t in Some (symbol, (elapsed, WsPushThreshold <? elapsed)).
Fixpoint ws_looks (m : gmap string Time) (es : list WsEvent) : list (string * (Duration * bool)) :=
  match es with
  | [] => []
  | Pushed now data :: es =>
      ws_looks match MessageToStruct WsResponse data with Ok v => <[symbol_of v := now]> m | Err _ => m end es
  | Tick now order :: es => omap (ws_look m now) order ++ ws_looks m es
  end.
Definition ws_reports (symbol : string) (msg : list Message) : list Duration :=
  omap (fun m => match m with NotPushed s o => if decide (s = symbol) then Some o else None | _ => None end) msg.

Lemma ws_reports_app s a b : ws_reports s (a ++ b) = ws_reports s a ++ ws_reports s b.
Proof. apply omap_app. Qed.

Lemma ws_loop_tell m now counts order s :
  (ws_loop m now counts order).1.1 = (tell counts (omap (ws_look m now) order)).1 /\
  ws_reports s (ws_loop m now counts order).1.2 = omap is_report (of_key s (tell counts (omap (ws_look m now) order)).2).
Proof.
  revert counts. induction order as [|k order IH]; intros counts; [done|].
  cbn [omap list_omap ws_loop]. remember (ws_look m now k) as o eqn:Ho. unfold ws_look in Ho.
  destruct (m !! k) as [t|]; [|subst; apply IH]. cbn in Ho.
  destruct (delisted k); subst; [apply IH|]. cbn [tell].
  destruct (bump counts _ _) as [counts' v]. specialize (IH counts').
  destruct (ws_loop m now counts' order) as [[counts2 msgs] total]. destruct (tell counts' _) as [counts3 vs].
  cbn [fst snd] in *. destruct IH as [-> IH]. split; [done|]. rewrite of_key_cons.
  destruct v; rewrite ?IH; destruct (decide (k = s)) as [Hs|Hne]; try done;
    unfold ws_reports in *; cbn; rewrite IH; [by rewrite decide_True|by rewrite decide_False].
Qed.

Lemma ws_run_tell st es s :
  wsDelayAlarmCount (ws_run st es).1 = (tell (wsDelayAlarmCount st) (ws_looks (lastUpdates st) es)).1 /\
  ws_reports s (concat (ws_run st es).2) =
    omap is_report (of_key s (tell (wsDelayAlarmCount st) (ws_looks (lastUpdates st) es)).2).
Proof.
  revert st. induction es as [|e es IH]; intros st; [done|]. cbn [ws_run]. destruct e as [now data|now order]; cbn [ws_event ws_looks].
  - unfold handleWsMessage. destruct (MessageToStruct WsResponse data) as [v|e].
    + specialize (IH (Store (symbol_of v) now st)). cbn [fst] in *. by destruct (ws_run (Store _ now st) es).
    + specialize (IH st). cbn [fst] in *. by destruct (ws_run st es).
  - unfold checkDalWs, CheckLastUpdateOffsets.
    pose proof (ws_loop_tell (lastUpdates st) now (wsDelayAlarmCount st) order s) as [H1 H2].
    destruct (ws_loop _ _ _ _) as [[counts msgs] total]. cbn [fst snd] in *.
    specialize (IH (mkWs (lastUpdates st) counts)). cbn [lastUpdates wsDelayAlarmCount] in IH.
    destruct (ws_run (mkWs (lastUpdates st) counts) es) as [st2 alerts]. cbn [fst snd] in *.
    rewrite tell_app, <- H1. cbn [fst snd]. destruct IH as [-> IH]. split; [done|].
    rewrite of_key_app, omap_app, <- H2, <- IH.
    assert (forall l : list Message, concat (match alert l with Some m => m :: alerts | None => alerts end) = l ++ concat alerts)
      as -> by by intros [].
    rewrite !ws_reports_app. destruct (0 <? total); by rewrite app_nil_r.
Qed.

(** Over any run of pushes and ticks a symbol is reported as not pushed exactly at
    the ticks that complete 11, 22, 33, ... looks in a row at which its last push
    was more than five seconds ago. *)
Theorem ws_alarms_exact (es : list WsEvent) (s : string) :
  default 0 (wsDelayAlarmCount (ws_run ws_start es).1 !! s) = Z.of_nat (streak (snd <$> of_key s (ws_looks ∅ es)) mod 11) /\
  ws_reports s (concat (ws_run ws_start es).2) = reported (of_key s (ws_looks ∅ es)).
Proof. destruct (ws_run_tell ws_start es s) as [-> ->]. apply tell_reported. Qed.

(** The symbols that a run pushes. *)
Fixpoint pushed (es : list WsEvent) : list string :=
  match es with
  | [] => []
  | Pushed _ data :: es => match MessageToStruct WsResponse data with Ok v => [symbol_of v] | Err _ => [] end ++ pushed es
  | Tick _ _ :: es => pushed es
  end.

Lemma ws_looks_none m es s : m !! s = None -> s ∉ pushed es -> of_key s (ws_looks m es) = [].
Proof.
  revert m. induction es as [|[now data|now order] es IH]; intros m Hm Hs; [done| |]; cbn [ws_looks pushed] in *.
  - destruct (MessageToStruct WsResponse data) as [v|e]; [|by apply IH].
    apply not_elem_of_cons in Hs as [Hne Hs]. apply IH; [by rewrite lookup_insert_ne by done|done].
  - rewrite of_key_app, (IH m) by done. rewrite app_nil_r.
    induction order as [|k order IHo]; [done|]. cbn [omap list_omap]. unfold ws_look at 1.
    destruct (m !! k) as [t|] eqn:Hk; [|done]. cbn [mbind option_bind]. destruct (delisted k); [done|].
    rewrite of_key_cons, decide_False by congruence. done.
Qed.

(** A symbol that the DAL never pushed is never reported, however long the checker
    waits: only symbols with an entry are looked at. *)
Lemma never_pushed_never_reported es s :
  s ∉ pushed es -> ws_reports s (concat (ws_run ws_start es).2) = [].
Proof. 
  intros Hs.
  destruct (ws_run_tell ws_start es s) as [_ ->]. etrans; [apply tell_reported|].
  by rewrite ws_looks_none.
Qed.

(** *** Traffic *)
Definition getTrafficCheckQuery (offset : Z) : string :=
  let modified := (fun desc => "'" +:+ desc +:+ "'")%string <$> Split IgnoreKeys ","%char in
  ("select count(1) from rest_calls where
timestamp > current_timestamp - INTERVAL '" +:+ Itoa offset +:+ " seconds' AND
api_key NOT IN (SELECT key from keys WHERE description IN (" +:+ Join ", " modified +:+ "))")%string.

(** [query k] answers the [k]-th query of a check. *)
Definition checkDalTraffic (done : bool) (query : nat -> string -> res Z) : option (list Message) * option error :=
  if done then (None, None) else
  match query 0%nat (getTrafficCheckQuery TrafficOldOffset) with
  | Err err => (None, Some err)
  | Ok prev =>
      match query 1%nat (getTrafficCheckQuery TrafficRecentOffset) with
      | Err err => (None, Some err)
      | Ok recent => (if prev <? recent then Some [Traffic recent prev] else None, None)
      end
  end.

(** What the query counts in a table of calls (those of the keys that are not ignored). *)
Definition calls_since (calls : list Time) (now : Time) (offset : Z) : Z :=
  Z.of_nat (length (filter (fun t => now - offset * second < t) calls)).

(** The calls of the last ten seconds are among those of the last ten minutes: the
    alert needs more new calls between the two queries than there were in the 590
    seconds before. *)
Lemma traffic_alert_needs calls added t1 t2 prev recent query err :
  t1 <= t2 ->
  query 0%nat (getTrafficCheckQuery TrafficOldOffset) = Ok (calls_since calls t1 600) ->
  query 1%nat (getTrafficCheckQuery TrafficRecentOffset) = Ok (calls_since (calls ++ added) t2 10) ->
  checkDalTraffic false query = (Some [Traffic recent prev], err) ->
  (length (filter (fun t => t1 - 600 * second < t <= t2 - 10 * second)%Z calls) < length added)%nat.
Proof.
  intros Ht H1 H2. unfold checkDalTraffic. rewrite H1, H2. destruct (_ <? _) eqn:Hlt; [|done]. intros _. breflect.
  unfold calls_since in Hlt. rewrite filter_app, length_app in Hlt.
  pose proof (length_filter (fun t => t2 - 10 * second < t) added) as Ha.
  cut (length (filter (fun t => t1 - 600 * second < t <= t2 - 10 * second)%Z calls) +
       length (filter (fun t => t2 - 10 * second < t)%Z calls) <= length (filter (fun t => t1 - 600 * second < t)%Z calls))%nat; [lia|].
  clear -Ht. induction calls as [|t calls IH]; [done|]. rewrite !filter_cons. unfold second in *.
  repeat case_decide; simpl; lia.
Qed.

(** *** Start-up *)
Record Config : Type := mkConfig { Name : string }.
Definition buildSubscriptionParams (configs : list Config) : list string :=
  (fun config => "submission@" +:+ Name config)%string <$> configs.
Definition subscription (configs : list Config) : json :=
  JObj [("method", JStr "SUBSCRIBE"); ("params", JArr (JStr <$> buildSubscriptionParams configs))]%string.
Definition configs_url (Getenv : string -> string) : string :=
  let chain := if bool_decide (Getenv "CHAIN" = "")%string then "baobab"%string else Getenv "CHAIN"%string in
  ("https://config.orakl.network/" +:+ chain +:+ "_configs.json")%string.
Definition fetchConfigs (Getenv : string -> string) (Request : string -> res (list Config)) : res (list Config) :=
  Request (configs_url Getenv).

(** The interval, the endpoint, the key and the websocket client with which the loop runs.  The client is
    started before the address of the database is known: [snd] is the client that runs, also after an error. *)
Definition Start (Getenv GetSecret : string -> string) (Request : string -> res (list Config))
    (GetTransientPool : string -> option error) : res (Duration * string * string) * option Wss.WebsocketHelper :=
  let interval := interval_or (Getenv "DAL_CHECK_INTERVAL"%string) DefaultDalCheckInterval in
  let chain := Getenv "CHAIN"%string in
  if bool_decide (chain = "")%string then (Err (External "CHAIN not found"), None) else
  let key := GetSecret "DAL_API_KEY"%string in
  if bool_decide (key = "")%string then (Err (External "DAL_API_KEY not found"), None) else
  let endpoint := ("https://dal." +:+ chain +:+ ".orakl.network")%string in
  let wsEndpoint := ("ws://dal." +:+ chain +:+ ".orakl.network/ws")%string in
  match fetchConfigs Getenv Request with
  | Err err => (Err err, None)
  | Ok configs =>
      match Wss.NewWebsocketHelper time_zero [Wss.WithEndpoint wsEndpoint; Wss.WithSubscriptions [Wss.Value (subscription configs)];
              Wss.WithRequestHeaders [("X-API-Key", key)]]%string with
      | Err err => (Err err, None)
      | Ok wsHelper =>
          let url := GetSecret "DAL_DB_CONNECTION_URL"%string in
          if bool_decide (url = "")%string then (Err (External "DAL_DB_CONNECTION_URL not found"), Some wsHelper) else
          match GetTransientPool url with
          | Some err => (Err err, Some wsHelper)
          | None => (Ok (interval, endpoint, key), Some wsHelper)
          end
      end
  end.

(** *** Concrete runs *)
(** Twelve checks of a symbol that is one minute late. *)
Definition w_data : OutgoingSubmissionData := mkOutgoing "BTC-USDT" "1" "1700000000000" "0x" "0x" "8".
Definition w_late : Check := mkCheck second (Ok [(w_data, (1700000000 + 60) * second)]).
Example w_reported : (checks dal_start (replicate 12 w_late)).2 =
  replicate 7 [DelayedTotal 1] ++ [[Delayed "BTC-USDT" (60 * second)]].
Proof. vm_compute. reflexivity. Qed.

Lemma unreachable_dal_silent_witness :
  (checks dal_start (replicate 20 (mkCheck RestTimeout (Err (External "timeout"))))).2 = [].
Proof.
  apply (unreachable_dal_silent dal_start). apply Forall_replicate. by exists (External "timeout").
Defined.

End DalChecker.

(** ** [checker/event] *)
Module EventChecker.
Import Alarm GoDuration.

Definition VRF_EVENT : string := "vrf_random_words_fulfilled".
Definition POR_BUFFER : Duration := 60 * second.
Definition VRF_ALARM_WINDOW : Duration := 180 * second.

Record SubgraphInfo : Type := mkSubgraph {
  SchemaId : Z; si_SchemaName : string; Subgraph : string; Version : Z; si_Name : string; Status : string;
  Failed : bool; Synced : bool }.
Record Config : Type := mkConfig { c_Name : string; SubmitInterval : Z }.
Record PegPorConfig : Type := mkPegPor { p_Name : string; Heartbeat : Z }.
Record FeedToCheck : Type := mkFeed {
  SchemaName : string; FeedName : string; ExpectedInterval : Z; LatencyChecked : Z; OversubmissionCount : Z }.
Record FullfillEventToCheck : Type := mkFullfill { f_SchemaName : string; f_Name : string; EventName : string }.
Record CheckList : Type := mkCheckList { Feeds : list FeedToCheck; Por : FeedToCheck; VRF : FullfillEventToCheck }.

Local Open Scope string_scope.
Definition feedEventQuery (schemaName : string) : string :=
  "SELECT time FROM " +:+ schemaName +:+ ".feed_feed_updated ORDER BY time DESC LIMIT 1;".
Definition aggregatorEventQuery (schemaName : string) : string :=
  "SELECT time FROM " +:+ schemaName +:+ ".aggregator_submission_received ORDER BY time DESC LIMIT 1;".
Definition feedLastIntervalEventQuery (schemaName : string) (interval : Z) : string :=
  "SELECT COUNT(*) FROM " +:+ schemaName +:+ ".feed_feed_updated WHERE time >= EXTRACT(EPOCH FROM NOW()) - "
    +:+ Itoa (Z.quot interval 1000) +:+ ";".
Definition loadUnfullfilledVRFEventQuery (schemaName eventName : string) : string :=
  "SELECT block$, id, time FROM " +:+ schemaName +:+ "." +:+ eventName +:+ " WHERE success = false ORDER BY time DESC;".
Definition loadMikoConfigUrl (chain : string) : string :=
  "https://config.orakl.network/" +:+ chain +:+ "_configs.json".
Definition loadPegPorConfigUrl (chain : string) : string :=
  "https://config.orakl.network/aggregator/" +:+ chain +:+ "/peg.por.json".

(** *** Set-up *)
Definition add_subgraph (m : gmap string SubgraphInfo) (s : SubgraphInfo) : gmap string SubgraphInfo :=
  let m := if HasPrefix (si_Name s) "Feed-" then <[TrimPrefix (si_Name s) "Feed-" := s]> m else m in
  let m := if HasPrefix (si_Name s) "Aggregator-" && HasSuffix (si_Name s) "-POR"
           then <[TrimPrefix (si_Name s) "Aggregator-" := s]> m else m in
  if bool_decide (si_Name s = "VRFCoordinator") then <["VRF" := s]> m else m.
Definition loadSubgraphInfoMap (rows : res (list SubgraphInfo)) : res (gmap string SubgraphInfo) :=
  res_map (foldl add_subgraph ∅) rows.

Definition feed_of (m : gmap string SubgraphInfo) (config : Config) : option FeedToCheck :=
  if delisted (c_Name config) then None else
  s ← m !! c_Name config;
  if bool_decide (Status s <> "current") then None
  else Some (mkFeed (si_SchemaName s) (c_Name config) (SubmitInterval config) 0 0).

(** The list and the interval of the checks. *)
Definition setUp (Getenv : string -> string) (configs : string -> res (list Config))
    (pegPor : string -> res PegPorConfig) (rows : res (list SubgraphInfo)) : res (CheckList * Duration) :=
  let interval := interval_or (Getenv "EVENT_CHECK_INTERVAL") (60 * second) in
  let chain := Getenv "CHAIN" in
  let? configs := configs (loadMikoConfigUrl chain) in
  let? pegPorConfig := pegPor (loadPegPorConfigUrl chain) in
  let? m := loadSubgraphInfoMap rows in
  match m !! p_Name pegPorConfig with
  | None => Err (External "por subgraph info not found")
  | Some s =>
      Ok (mkCheckList (omap (feed_of m) configs)
            (mkFeed (si_SchemaName s) (p_Name pegPorConfig) (Heartbeat pegPorConfig) 0 0)
            (mkFullfill (default "" (si_SchemaName <$> m !! "VRF")) "VRF Fullfillment" VRF_EVENT), interval)
  end.
Local Close Scope string_scope.

Definition add_to_group (result : gmap Z (list FeedToCheck)) (feed : FeedToCheck) : gmap Z (list FeedToCheck) :=
  <[ExpectedInterval feed := default [] (result !! ExpectedInterval feed) ++ [feed]]> result.
Definition groupFeedsByInterval (FeedsToCheck : list FeedToCheck) : gmap Z (list FeedToCheck) :=
  foldl add_to_group ∅ FeedsToCheck.

(** *** Checks *)
Inductive Message : Type :=
| FeedDelayed (name : string) (by_ : Duration)
| FeedsDelayed (n : Z)
| PorDelayed (name : string) (by_ : Duration)
| VrfDelayed (name : string) (by_ : Duration) (id : string) (time : Time).
Definition alert (msg : list Message) : option (list Message) :=
  match msg with [] => None | _ => Some msg end.

(** The environment of a check: the [i]-th query for a time, in seconds, and the clock after it. *)
Record Env : Type := mkEnv { QueryTime : nat -> string -> res int64; Now : nat -> Time }.

Definition set_latency (c : Z) (f : FeedToCheck) : FeedToCheck :=
  mkFeed (SchemaName f) (FeedName f) (ExpectedInterval f) c (OversubmissionCount f).
Definition timeSinceLastFeedEvent (E : Env) (i : nat) (feed : FeedToCheck) : res Duration :=
  res_map (fun t => time_Sub (Now E i) (t * second)) (QueryTime E i (feedEventQuery (SchemaName feed))).
Definition timeSinceLastPorEvent (E : Env) (feed : FeedToCheck) : res Duration :=
  res_map (fun t => time_Sub (Now E 0) (t * second)) (QueryTime E 0%nat (aggregatorEventQuery (SchemaName feed))).

Definition expected (feed : FeedToCheck) : Duration := wrap64 (ExpectedInterval feed * millisecond).

Fixpoint feeds_loop (E : Env) (i : nat) (feeds : list FeedToCheck) : list FeedToCheck * list Message * Z :=
  match feeds with
  | [] => ([], [], 0)
  | feed :: feeds =>
      let '(feed', msg, n) :=
        match timeSinceLastFeedEvent E i feed with
        | Err _ => (feed, [], 0)
        | Ok offset =>
            let '(c, v) := alarm_step (LatencyChecked feed) (wrap64 (expected feed * 2) <? offset) in
            (set_latency c feed,
             match v with Reported => [FeedDelayed (FeedName feed) (wrap64 (offset - expected feed))] | _ => [] end,
             match v with Totalled => 1 | _ => 0 end)
        end in
      let '(feeds, msgs, totalDelayed) := feeds_loop E (S i) feeds in
      (feed' :: feeds, msg ++ msgs, n + totalDelayed)
  end.
Definition checkFeeds (E : Env) (feeds : list FeedToCheck) : list FeedToCheck * option (list Message) :=
  let '(feeds, msg, totalDelayed) := feeds_loop E 0 feeds in
  (feeds, alert (msg ++ (if 0 <? totalDelayed then [FeedsDelayed totalDelayed] else []))).

Definition checkPors (E : Env) (por : FeedToCheck) : option (list Message) :=
  match timeSinceLastPorEvent E por with
  | Err _ => None
  | Ok porOffset =>
      if wrap64 (expected por + POR_BUFFER) <? porOffset
      then Some [PorDelayed (FeedName por) (wrap64 (porOffset - expected por))] else None
  end.

Record Fullfillment : Type := mkFullfillment { Block : Z; ID : string; Time_ : Z }.
(** Each row with the clock when it is looked at. *)
Definition vrf_row (vrf : FullfillEventToCheck) (e : Fullfillment * Time) : option Message :=
  let offset := time_Sub e.2 (Time_ e.1 * second) in
  if (VRF_ALARM_WINDOW <? offset) || (offset <? 3 * second) then None
  else Some (VrfDelayed (f_Name vrf) offset (ID e.1) (Time_ e.1 * second)).
Definition checkVRF (vrf : FullfillEventToCheck) (query : string -> res (list (Fullfillment * Time))) : option (list Message) :=
  match query (loadUnfullfilledVRFEventQuery (f_SchemaName vrf) (EventName vrf)) with
  | Err _ => None
  | Ok rows => alert (omap (vrf_row vrf) rows)
  end.
Definition checkPorAndVrf (E : Env) (query : string -> res (list (Fullfillment * Time))) (l : CheckList)
    : list (list Message) :=
  omap id [checkPors E (Por l); checkVRF (VRF l) query].

(** The goroutine of one group: a check at every tick. *)
Fixpoint ticks (feeds : list FeedToCheck) (Es : list Env) : list FeedToCheck * list (list Message) :=
  match Es with
  | [] => (feeds, [])
  | E :: Es => let '(feeds, a) := checkFeeds E feeds in let '(feeds, alerts) := ticks feeds Es in
               (feeds, match a with Some msg => msg :: alerts | None => alerts end)
  end.

(** *** Groups *)
Lemma groups_spec feeds m i :
  default [] (foldl add_to_group m feeds !! i) = default [] (m !! i) ++ filter (fun f => ExpectedInterval f = i) feeds.
Proof.
  revert m. induction feeds as [|f feeds IH]; intros m; simpl; [by rewrite app_nil_r|].
  rewrite IH. unfold add_to_group at 1. destruct (decide (ExpectedInterval f = i)) as [<-|Hne].
  - rewrite lookup_insert_eq, filter_cons_True by done. simpl. by rewrite <- app_assoc.
  - by rewrite lookup_insert_ne, filter_cons_False by done.
Qed.

Lemma groups_nonempty feeds m i :
  (forall l, m !! i = Some l -> l <> []) -> foldl add_to_group m feeds !! i <> Some [].
Proof.
  revert m. induction feeds as [|f feeds IH]; intros m Hm; simpl; [intros He; by apply (Hm [])|].
  apply IH. intros l. unfold add_to_group. destruct (decide (ExpectedInterval f = i)) as [<-|Hne].
  - rewrite lookup_insert_eq. intros [= <-]. by destruct (default [] _).
  - rewrite lookup_insert_ne by done. apply Hm.
Qed.

(** There is a group for exactly the intervals of the feeds, and it holds the feeds
    of that interval in their order. *)
Lemma groups_exact feeds i :
  groupFeedsByInterval feeds !! i =
  match filter (fun f => ExpectedInterval f = i) feeds with [] => None | l => Some l end.
Proof.
  unfold groupFeedsByInterval. pose proof (groups_spec feeds ∅ i) as Hs. pose proof (groups_nonempty feeds ∅ i) as Hn.
  rewrite lookup_empty in Hs, Hn. simpl in Hs. specialize (Hn ltac:(by intros)).
  destruct (foldl add_to_group ∅ feeds !! i) as [[|]|]; simpl in Hs; rewrite <- Hs; done.
Qed.

(** *** Alarms *)
Definition feed_look (E : Env) (i : nat) (f : FeedToCheck) : list (Duration * bool) :=
  match timeSinceLastFeedEvent E i f with
  | Ok offset => [(wrap64 (offset - expected f), wrap64 (expected f * 2) <? offset)]
  | Err _ => []
  end.
Definition feed_reports (name : string) (msg : list Message) : list Duration :=
  omap (fun m => match m with FeedDelayed n d => if decide (n = name) then Some d else None | _ => None end) msg.

Lemma feed_reports_app n a b : feed_reports n (a ++ b) = feed_reports n a ++ feed_reports n b.
Proof. apply omap_app. Qed.

(** One feed of the loop. *)
Definition feed_step (E : Env) (i : nat) (f : FeedToCheck) : FeedToCheck * list Message :=
  match timeSinceLastFeedEvent E i f with
  | Err _ => (f, [])
  | Ok offset =>
      let '(c, v) := alarm_step (LatencyChecked f) (wrap64 (expected f * 2) <? offset) in
      (set_latency c f, match v with Reported => [FeedDelayed (FeedName f) (wrap64 (offset - expected f))] | _ => [] end)
  end.

Lemma feeds_loop_cons E i f feeds :
  (feeds_loop E i (f :: feeds)).1 =
  ((feed_step E i f).1 :: (feeds_loop E (S i) feeds).1.1, (feed_step E i f).2 ++ (feeds_loop E (S i) feeds).1.2).
Proof.
  cbn [feeds_loop]. unfold feed_step. destruct (feeds_loop E (S i) feeds) as [[fs msgs] n].
  destruct (timeSinceLastFeedEvent E i f); [|done]. by destruct (alarm_step _ _).
Qed.

Lemma feed_step_told E i f name :
  let t := told (LatencyChecked f) (feed_look E i f) in
  (feed_step E i f).1 = set_latency t.1 f /\
  feed_reports name (feed_step E i f).2 = if decide (FeedName f = name) then omap is_report t.2 else [].
Proof.
  unfold feed_step, feed_look. destruct (timeSinceLastFeedEvent E i f) as [o|]; cbn [told].
  - destruct (alarm_step _ _) as [c v]. cbn [fst snd]. split; [done|].
    destruct v; unfold feed_reports; cbn; by case_decide.
  - split; [by destruct f|]. by case_decide.
Qed.

Lemma feeds_loop_names E i feeds : FeedName <$> (feeds_loop E i feeds).1.1 = FeedName <$> feeds.
Proof.
  revert i. induction feeds as [|f feeds IH]; intros i; [done|]. rewrite feeds_loop_cons. cbn [fst fmap list_fmap].
  rewrite IH. destruct (feed_step_told E i f "") as [-> _]. done.
Qed.

Lemma feeds_loop_others E i feeds name : name ∉ FeedName <$> feeds -> feed_reports name (feeds_loop E i feeds).1.2 = [].
Proof.
  revert i. induction feeds as [|f feeds IH]; intros i; [done|]. cbn [fmap list_fmap]. intros [Hne Hn]%not_elem_of_cons.
  rewrite feeds_loop_cons. cbn [snd]. rewrite feed_reports_app, IH by done.
  destruct (feed_step_told E i f name) as [_ ->]. by rewrite decide_False.
Qed.

Lemma feeds_loop_at E i feeds k f :
  NoDup (FeedName <$> feeds) -> feeds !! k = Some f ->
  let t := told (LatencyChecked f) (feed_look E (i + k) f) in
  (feeds_loop E i feeds).1.1 !! k = Some (set_latency t.1 f) /\
  feed_reports (FeedName f) (feeds_loop E i feeds).1.2 = omap is_report t.2.
Proof.
  revert i k. induction feeds as [|g feeds IH]; intros i k Hnd Hk; [done|].
  cbn [fmap list_fmap] in Hnd. apply NoDup_cons in Hnd as [Hg Hnd].
  rewrite feeds_loop_cons. cbn [fst snd]. rewrite feed_reports_app.
  destruct (feed_step_told E i g (FeedName f)) as [H1 H2]. rewrite H2. destruct k as [|k].
  - cbn in Hk. simplify_eq. rewrite Nat.add_0_r, H1. split; [done|]. rewrite decide_True by done.
    rewrite feeds_loop_others by done. by rewrite app_nil_r.
  - cbn in Hk. destruct (IH (S i) k Hnd Hk) as [I1 I2]. rewrite <- Nat.add_succ_comm. cbn [lookup list_lookup].
    split; [done|]. rewrite decide_False, I2; [done|]. intros Hgf. apply Hg, list_elem_of_fmap. exists f.
    split; [done|]. by apply list_elem_of_lookup_2 in Hk.
Qed.

Lemma told_app {A} c (o1 o2 : list (A * bool)) :
  told c (o1 ++ o2) = ((told (told c o1).1 o2).1, (told c o1).2 ++ (told (told c o1).1 o2).2).
Proof.
  revert c. induction o1 as [|[a d] o1 IH]; intros c; simpl; [by destruct (told c o2)|].
  destruct (alarm_step c d) as [c1 v]. rewrite IH. by destruct (told c1 o1).
Qed.

Lemma ticks_told feeds Es k f :
  NoDup (FeedName <$> feeds) -> feeds !! k = Some f ->
  let t := told (LatencyChecked f) (Es ≫= fun E => feed_look E k f) in
  (ticks feeds Es).1 !! k = Some (set_latency t.1 f) /\
  feed_reports (FeedName f) (concat (ticks feeds Es).2) = omap is_report t.2.
Proof.
  revert feeds f. induction Es as [|E Es IH]; intros feeds f Hnd Hk; [by destruct f|].
  cbn [ticks mbind list_bind]. unfold checkFeeds. destruct (feeds_loop_at E 0 feeds k f Hnd Hk) as [H1 H2].
  pose proof (feeds_loop_names E 0 feeds) as Hn. destruct (feeds_loop E 0 feeds) as [[fs msgs] n]. cbn [fst snd] in *.
  rewrite Nat.add_0_l in *. rewrite told_app. cbn [fst snd].
  set (g := set_latency _ f) in H1. destruct (IH fs g) as [I1 I2]; [by rewrite Hn|done|].
  destruct (ticks fs Es) as [fs2 alerts]. cbn [fst snd] in *.
  change (Es ≫= λ E, feed_look E k g) with (Es ≫= λ E, feed_look E k f) in *.
  change (LatencyChecked g) with (told (LatencyChecked f) (feed_look E k f)).1 in *. split; [done|].
  change (FeedName g) with (FeedName f) in I2. rewrite omap_app, <- H2, <- I2.
  assert (forall l : list Message, concat (match alert l with Some m => m :: alerts | None => alerts end) = l ++ concat alerts)
    as -> by by intros [].
  rewrite !feed_reports_app. destruct (0 <? n); by rewrite app_nil_r.
Qed.

(** Over any run of the goroutine of a group, with any answers of the subgraph, a
    feed is reported exactly at the checks that complete 11, 22, 33, ... delays of
    more than twice its interval in a row; queries that fail count neither way. *)
Theorem feed_alarms_exact (feeds : list FeedToCheck) (Es : list Env) (k : nat) (f : FeedToCheck) :
  NoDup (FeedName <$> feeds) -> feeds !! k = Some f -> LatencyChecked f = 0 ->
  let obs := Es ≫= fun E => feed_look E k f in
  (ticks feeds Es).1 !! k = Some (set_latency (Z.of_nat (streak (snd <$> obs) mod 11)) f) /\
  feed_reports (FeedName f) (concat (ticks feeds Es).2) = reported obs.
Proof.
  intros Hnd Hk Hf obs. destruct (ticks_told feeds Es k f Hnd Hk) as [-> ->]. fold obs. rewrite Hf.
  destruct (told_reported obs) as [-> ->]. done.
Qed.

Definition w_feeds : list FeedToCheck := [mkFeed "sgd1" "BTC-USDT" 15000 0 0; mkFeed "sgd2" "ETH-USDT" 15000 0 0]%string.
Definition w_env : Env := mkEnv (fun i _ => if (i =? 0)%nat then Ok 1700000000 else Ok 1700000050) (fun _ => 1700000060 * second).
Lemma feed_alarms_exact_witness :
  feed_reports "BTC-USDT" (concat (ticks w_feeds (replicate 23 w_env)).2) = [45 * second; 45 * second] /\
  feed_reports "BTC-USDT" (concat (ticks w_feeds (replicate 23 w_env)).2) =
    reported (replicate 23 w_env ≫= fun E => feed_look E 0 (mkFeed "sgd1" "BTC-USDT" 15000 0 0)).
Proof.
  split; [vm_compute; reflexivity|].
  apply (feed_alarms_exact w_feeds (replicate 23 w_env) 0 (mkFeed "sgd1" "BTC-USDT" 15000 0 0)); [|reflexivity|reflexivity].
  apply (bool_decide_eq_true_1 (NoDup (FeedName <$> w_feeds))). vm_compute. reflexivity.
Defined.

(** With a check at every minute, the row of an event that is not fulfilled is reported by two checks in a row. *)
Lemma vrf_reported_twice vrf e start :
  start - Time_ e * second <= 3 * second ->
  (forall k, 0 <= k -> time_Sub (start + k * 60 * second) (Time_ e * second) = start + k * 60 * second - Time_ e * second) ->
  exists k, 0 <= k /\ is_Some (vrf_row vrf (e, start + k * 60 * second)) /\ is_Some (vrf_row vrf (e, start + (k + 1) * 60 * second)).
Proof.
  intros Hs Ht. set (d := start - Time_ e * second). unfold second in *.
  set (k := (3 * 1000000000 - d + 59999999999) / 60000000000).
  pose proof (Z.div_mod (3 * 1000000000 - d + 59999999999) 60000000000 ltac:(lia)) as Hd. fold k in Hd.
  pose proof (Z.mod_pos_bound (3 * 1000000000 - d + 59999999999) 60000000000 ltac:(lia)) as Hb.
  exists k. assert (0 <= k) as Hk by (apply Z.div_pos; lia). split; [done|].
  unfold vrf_row, VRF_ALARM_WINDOW. cbn [fst snd]. unfold second in *. rewrite !Ht by lia.
  split; (destruct (_ || _) eqn:Hor; [breflect; destruct Hor; breflect; lia|by eexists]).
Qed.

End EventChecker.

(** ** [checker/offset] *)
Module OffsetChecker.
Import Alarm.

Definition PriceDifferenceThreshold : float64 := const 1 10.
(** [DelayThreshold.Seconds()]. *)
Definition DelayThreshold_Seconds : float64 := of_int 5.

Record Config : Type := mkConfig { ID : int32; Name : string }.
(** The answers for one config: [None] when there is no row, which is read as zeros. *)
Record Answers : Type := mkAnswers {
  localOffset : res (option float64); globalOffset : res (option float64); latest : res (option (float64 * float64)) }.
Record Counts : Type := mkCounts { localAggregateAlarmCount : gmap Z Z; globalAggregateAlarmCount : gmap Z Z }.

Inductive Message : Type :=
| LocalDelayed (name : string) (delay : float64)
| GlobalDelayed (name : string) (delay : float64)
| PriceDifference (name : string) (difference globalAggregate localAggregate : float64)
| LocalTotal (n : Z)
| GlobalTotal (n : Z).

Definition delayed (delay : float64) : bool := fltb DelayThreshold_Seconds delay.
Definition difference (l g : float64) : float64 := fdiv (fabs (fsub l g)) l.

(** What one config does to the counters, its messages and the two totals; [None]: a query fails and the check returns. *)
Definition check_config (s : Counts) (config : Config) (a : Answers) : Counts * option (list Message * Z * Z) :=
  match localOffset a with
  | Err _ => (s, None)
  | Ok lo =>
      let lo := default fzero lo in
      let '(lc, lv) := bump (localAggregateAlarmCount s) (ID config) (delayed lo) in
      let lmsg := match lv with Reported => [LocalDelayed (Name config) lo] | _ => [] end in
      match globalOffset a with
      | Err _ => (mkCounts lc (globalAggregateAlarmCount s), None)
      | Ok go =>
          let go := default fzero go in
          let '(gc, gv) := bump (globalAggregateAlarmCount s) (ID config) (delayed go) in
          let gmsg := match gv with Reported => [GlobalDelayed (Name config) go] | _ => [] end in
          match latest a with
          | Err _ => (mkCounts lc gc, None)
          | Ok r =>
              let '(l, g) := default (fzero, fzero) r in
              let pmsg := if fltb PriceDifferenceThreshold (difference l g)
                          then [PriceDifference (Name config) (fsub l g) g l] else [] in
              (mkCounts lc gc, Some (lmsg ++ gmsg ++ pmsg, match lv with Totalled => 1 | _ => 0 end,
                                     match gv with Totalled => 1 | _ => 0 end))
          end
      end
  end.

Fixpoint configs_loop (s : Counts) (configs : list (Config * Answers)) : Counts * option (list Message * Z * Z) :=
  match configs with
  | [] => (s, Some ([], 0, 0))
  | (config, a) :: configs =>
      if delisted (Name config) then configs_loop s configs else
      match check_config s config a with
      | (s, None) => (s, None)
      | (s, Some (msg, l, g)) =>
          match configs_loop s configs with
          | (s, None) => (s, None)
          | (s, Some (msgs, ls, gs)) => (s, Some (msg ++ msgs, l + ls, g + gs))
          end
      end
  end.

Definition alert (msg : list Message) : option (list Message) := match msg with [] => None | _ => Some msg end.
Definition checkOffsets (loadedConfigs : res (list (Config * Answers))) (s : Counts) : Counts * option (list Message) :=
  match loadedConfigs with
  | Err _ => (s, None)
  | Ok configs =>
      match configs_loop s configs with
      | (s, None) => (s, None)
      | (s, Some (msg, locals, globals)) =>
          (s, alert (msg ++ (if 0 <? locals then [LocalTotal locals] else []) ++ (if 0 <? globals then [GlobalTotal globals] else [])))
      end
  end.
Definition counts_start : Counts := mkCounts ∅ ∅.

Fixpoint checks (s : Counts) (cs : list (res (list (Config * Answers)))) : Counts * list (list Message) :=
  match cs with
  | [] => (s, [])
  | c :: cs => let '(s, a) := checkOffsets c s in let '(s, alerts) := checks s cs in
               (s, match a with Some msg => msg :: alerts | None => alerts end)
  end.

(** *** Complete checks *)
(** Every query of the check is answered. *)
Definition answered (e : Config * Answers) : bool :=
  match localOffset e.2, globalOffset e.2, latest e.2 with Ok _, Ok _, Ok _ => true | _, _, _ => false end.
Definition complete (c : res (list (Config * Answers))) : bool :=
  match c with Ok l => forallb answered l | Err _ => true end.

Definition look (pick : Answers -> res (option float64)) (e : Config * Answers) : option (Z * (string * float64 * bool)) :=
  if delisted (Name e.1) then None else
  match pick e.2 with Ok d => Some (ID e.1, (Name e.1, default fzero d, delayed (default fzero d))) | Err _ => None end.
Definition looks_of (pick : Answers -> res (option float64)) (c : res (list (Config * Answers))) :=
  match c with Ok l => omap (look pick) l | Err _ => [] end.

Definition local_reports (msg : list Message) : list (string * float64) :=
  omap (fun m => match m with LocalDelayed n d => Some (n, d) | _ => None end) msg.
Definition global_reports (msg : list Message) : list (string * float64) :=
  omap (fun m => match m with GlobalDelayed n d => Some (n, d) | _ => None end) msg.

Definition all_reports {A} (l : list (Z * (A * verdict))) : list A := omap (fun ka => is_report ka.2) l.

(** What a complete check does on both sides. *)
Definition agree (s s' : Counts) (msg : list Message) (ls gs : list (Z * (string * float64 * bool))) : Prop :=
  localAggregateAlarmCount s' = (tell (localAggregateAlarmCount s) ls).1 /\
  globalAggregateAlarmCount s' = (tell (globalAggregateAlarmCount s) gs).1 /\
  local_reports msg = all_reports (tell (localAggregateAlarmCount s) ls).2 /\
  global_reports msg = all_reports (tell (globalAggregateAlarmCount s) gs).2.

Lemma agree_app s s1 s2 m1 m2 l1 l2 g1 g2 :
  agree s s1 m1 l1 g1 -> agree s1 s2 m2 l2 g2 -> agree s s2 (m1 ++ m2) (l1 ++ l2) (g1 ++ g2).
Proof.
  intros (A1 & A2 & A3 & A4) (B1 & B2 & B3 & B4). unfold agree, local_reports, global_reports, all_reports in *.
  rewrite !tell_app. cbn [fst snd]. rewrite <- A1, <- A2, !omap_app, A3, A4, B3, B4. done.
Qed.

Lemma agree_none s msg : local_reports msg = [] -> global_reports msg = [] -> agree s s msg [] [].
Proof. unfold agree. intros -> ->. done. Qed.

Lemma look_delisted pick e : delisted (Name e.1) = true -> look pick e = None.
Proof. unfold look. by intros ->. Qed.

Lemma check_config_agree s e :
  answered e = true -> delisted (Name e.1) = false ->
  exists s' msg l g, check_config s e.1 e.2 = (s', Some (msg, l, g)) /\
    agree s s' msg (omap (look localOffset) [e]) (omap (look globalOffset) [e]).
Proof.
  destruct e as [config [lo go r]]. unfold answered, check_config. cbn [fst snd localOffset globalOffset latest].
  destruct lo as [lo|], go as [go|], r as [r|]; try done. intros _ Hd.
  set (ld := default fzero lo). set (gd := default fzero go). unfold agree. cbn [omap list_omap]. unfold look. cbn [fst snd localOffset globalOffset].
  rewrite Hd. cbn [tell]. fold ld gd.
  destruct (bump (localAggregateAlarmCount s) _ _) as [lc lv]. destruct (bump (globalAggregateAlarmCount s) _ _) as [gc gv].
  destruct (default (fzero, fzero) r) as [l g]. do 4 eexists. split; [done|].
  unfold local_reports, global_reports, all_reports. rewrite !omap_app.
  destruct lv, gv, (fltb _ _); done.
Qed.

Lemma configs_loop_agree s l :
  forallb answered l = true ->
  exists s' msg ls gs, configs_loop s l = (s', Some (msg, ls, gs)) /\
    agree s s' msg (omap (look localOffset) l) (omap (look globalOffset) l).
Proof.
  revert s. induction l as [|[config a] l IH]; intros s Hl.
  { exists s, [], 0, 0. split; [done|]. by apply agree_none. }
  cbn [forallb] in Hl. apply andb_true_iff in Hl as [Ha Hl]. cbn [configs_loop].
  destruct (delisted (Name config)) eqn:Hd.
  - destruct (IH s Hl) as (s' & msg & ls & gs & -> & H). do 4 eexists. split; [done|].
    cbn [omap list_omap]. by rewrite !look_delisted.
  - destruct (check_config_agree s (config, a) Ha Hd) as (s1 & m1 & l1 & g1 & Hc & H1). cbn [fst snd] in Hc. rewrite Hc.
    destruct (IH s1 Hl) as (s2 & m2 & l2 & g2 & -> & H2). do 4 eexists. split; [done|].
    change ((config, a) :: l) with ([(config, a)] ++ l). rewrite !omap_app. by eapply agree_app.
Qed.

Lemma checks_agree s cs :
  forallb complete cs = true ->
  agree s (checks s cs).1 (concat (checks s cs).2) (cs ≫= looks_of localOffset) (cs ≫= looks_of globalOffset).
Proof.
  revert s. induction cs as [|c cs IH]; intros s Hc; [by apply agree_none|].
  cbn [forallb] in Hc. apply andb_true_iff in Hc as [H Hc]. cbn [checks mbind list_bind].
  assert (exists s1 a, checkOffsets c s = (s1, a) /\
    agree s s1 (default [] a) (looks_of localOffset c) (looks_of globalOffset c)) as (s1 & a & -> & H1).
  { destruct c as [l|]; [|exists s, None; split; [done|by apply agree_none]]. cbn [complete checkOffsets looks_of] in *.
    destruct (configs_loop_agree s l H) as (s1 & msg & ls & gs & -> & H1). do 2 eexists. split; [done|].
    assert (forall m, default [] (alert m) = m) as -> by by intros [].
    destruct (H1) as (A1 & A2 & A3 & A4). unfold agree, local_reports, global_reports in *. rewrite !omap_app, A3, A4.
    destruct (0 <? ls), (0 <? gs); simpl; by rewrite !app_nil_r. }
  specialize (IH s1 Hc). destruct (checks s1 cs) as [s2 alerts]. cbn [fst snd] in *.
  replace (concat (match a with Some msg => msg :: alerts | None => alerts end)) with (default [] a ++ concat alerts)
    by by destruct a. by eapply agree_app.
Qed.

(** Looks at names that stand for ids. *)
Lemma tell_same {A} (counts : gmap Z Z) (obs : list (Z * (A * bool))) :
  (fun x => (x.1, x.2.1)) <$> (tell counts obs).2 = (fun x => (x.1, x.2.1)) <$> obs.
Proof.
  revert counts. induction obs as [|[k [a d]] obs IH]; intros counts; [done|]. cbn [tell].
  destruct (bump counts k d) as [c v]. specialize (IH c). destruct (tell c obs). cbn [snd fmap list_fmap fst] in *. by rewrite IH.
Qed.

Lemma named_reports (l : list (Z * (string * float64 * verdict))) id n :
  Forall (fun x => x.1 = id <-> x.2.1.1 = n) l ->
  filter (fun nd => nd.1 = n) (all_reports l) = omap is_report (of_key id l).
Proof.
  induction l as [|[k [[m d] v]] l IH]; [done|]. intros [Hx Hl]%Forall_cons. cbn [fst snd] in Hx.
  specialize (IH Hl). unfold of_key, all_reports in *. cbn [omap list_omap fst snd].
  destruct (decide (k = id)) as [Hk|Hk].
  - rewrite (filter_cons_True _ (k, _)) by done. cbn [fmap list_fmap omap list_omap snd]. unfold is_report at 1 3. cbn [snd fst].
    destruct v; [done| |done]. rewrite filter_cons_True by (cbn; tauto). by rewrite IH.
  - rewrite (filter_cons_False _ (k, _)) by done. unfold is_report at 1. cbn [snd fst].
    destruct v; [done| |done]. rewrite filter_cons_False by (cbn; tauto). done.
Qed.

(** While every query is answered, over any run of checks and for a config whose
    name is its own, the delays of the local and of the global aggregates are each
    reported exactly at the checks that complete 11, 22, 33, ... delays of more than
    five seconds in a row. *)
Theorem offset_alarms_exact (cs : list (res (list (Config * Answers)))) (id : int32) (n : string)
    (pick := fun side : bool => if side then globalOffset else localOffset) (side : bool) :
  forallb complete cs = true ->
  Forall (fun x => x.1 = id <-> x.2.1.1 = n) (cs ≫= looks_of (pick side)) ->
  let counts := (if side then globalAggregateAlarmCount else localAggregateAlarmCount) (checks counts_start cs).1 in
  let sent := (if side then global_reports else local_reports) (concat (checks counts_start cs).2) in
  let obs := of_key id (cs ≫= looks_of (pick side)) in
  default 0 (counts !! id) = Z.of_nat (streak (snd <$> obs) mod 11) /\
  filter (fun nd => nd.1 = n) sent = reported obs.
Proof.
  intros Hc Hn. cbv zeta. destruct (checks_agree counts_start cs Hc) as (A1 & A2 & A3 & A4).
  assert (forall counts (l : list (Z * (string * float64 * bool))), Forall (fun x => x.1 = id <-> x.2.1.1 = n) l ->
    filter (fun nd => nd.1 = n) (all_reports (tell counts l).2) = omap is_report (of_key id (tell counts l).2)) as Hr.
  { intros counts l Hl. apply named_reports.
    assert (Forall (fun x : Z * (string * float64) => x.1 = id <-> x.2.1 = n) ((fun x => (x.1, x.2.1)) <$> (tell counts l).2)) as Hp
      by (rewrite tell_same; by apply Forall_fmap).
    by apply Forall_fmap in Hp. }
  destruct side; [rewrite A2, A4|rewrite A1, A3]; (rewrite Hr; [apply tell_reported|exact Hn]).
Qed.

Definition w_config : Config := mkConfig 1 "BTC-USDT".
Definition w_answers (lo : Z) : Answers :=
  mkAnswers (Ok (Some (of_int lo))) (Ok (Some (of_int 1))) (Ok (Some (of_int 100, of_int 101))).
Lemma offset_alarms_exact_witness :
  local_reports (concat (checks counts_start (replicate 11 (Ok [(w_config, w_answers 60)]))).2) = [("BTC-USDT"%string, of_int 60)] /\
  filter (fun nd => nd.1 = "BTC-USDT"%string) (local_reports (concat (checks counts_start (replicate 11 (Ok [(w_config, w_answers 60)]))).2)) =
    reported (of_key 1 (replicate 11 (Ok [(w_config, w_answers 60)]) ≫= looks_of localOffset)).
Proof.
  split; [vm_compute; reflexivity|].
  apply (offset_alarms_exact (replicate 11 (Ok [(w_config, w_answers 60)])) 1 "BTC-USDT" false); [reflexivity|].
  cbn. repeat constructor.
Defined.

(** A query that fails ends the check without sending what it had to report; the
    counters are already reset, so that a delay stays unreported for eleven more checks. *)
Example offset_alarm_lost :
  let late := Ok [(w_config, w_answers 60)] in
  let broken := Ok [(w_config, w_answers 60); (mkConfig 2 "ETH-USDT", mkAnswers (Err (External "timeout")) (Ok None) (Ok None))] in
  (checks counts_start (replicate 10 late ++ [broken] ++ replicate 3 late)).2 = replicate 7 [LocalTotal 1].
Proof. vm_compute. reflexivity. Qed.

(** A config without aggregates is never reported: no row is read as a delay of zero. *)
Example no_rows_silent :
  (checks counts_start (replicate 30 (Ok [(w_config, mkAnswers (Ok None) (Ok None) (Ok None))]))).2 = [].
Proof. vm_compute. reflexivity. Qed.

End OffsetChecker.
