(* ===== verification/Monitors.v ===== *)
(** * The other monitors

    The rest of [node/pkg/checker]: balances of wallets, pings, health of
    services, number of peers, expiration of signers, statistics of the DAL, cron
    jobs and the inspector of VRF and request-response, with [node/pkg/alert] and
    [node/pkg/secrets], which they use.

    As in [Checkers.v] a message is a constructor with the arguments of its
    [fmt.Sprintf], and what is sent to Slack is the output of a check; requests,
    queries, contract reads and the clock are its environment. *)

From S2P Require Import Prelude Errors Wire Text Strings Float Rounding Reducer Signing Util Abi Chain Uniswap Checkers.
From Stdlib Require Import Ascii QArith Qpower Lqa Floats.SpecFloat.
Import Text Strings Float.

Local Open Scope Z_scope.
Local Open Scope go_scope.

(** ** [secrets.go] *)
Module Secrets.

(** What [init] needs: the client, the authentication, the login with its answer, and the stored secret.  A stored
    value is a string or something else. *)
Record Vault : Type := mkVault {
  NewClient : option error; NewKubernetesAuth : option error; Login : res (option unit);
  KVv2_Get : string -> string -> res (gmap string (option string)) }.
Record State : Type := mkState { secretData : gmap string (option string); initialized : bool }.

Definition init (Getenv : string -> string) (V : Vault) : State :=
  let none := mkState ∅ false in
  if bool_decide (Getenv "VAULT_ROLE" = "")%string || bool_decide (Getenv "JWT_PATH" = "")%string
     || bool_decide (Getenv "VAULT_SECRET_PATH" = "")%string || bool_decide (Getenv "VAULT_KEY_NAME" = "")%string then none else
  match NewClient V with Some _ => none | None =>
  match NewKubernetesAuth V with Some _ => none | None =>
  match Login V with Err _ | Ok None => none | Ok (Some _) =>
  match KVv2_Get V (Getenv "VAULT_SECRET_PATH"%string) (Getenv "VAULT_KEY_NAME"%string) with
  | Err _ => none
  | Ok data => mkState data true
  end end end end.

Definition GetSecret (Getenv : string -> string) (s : State) (key : string) : string :=
  if negb (initialized s) then Getenv key else
  match secretData s !! key with
  | None => Getenv key
  | Some None => Getenv key
  | Some (Some result) => if bool_decide (result = "")%string then Getenv key else result
  end.

(** A secret is empty only if the environment has none and the vault has no text for it. *)
Lemma GetSecret_empty Getenv s key :
  GetSecret Getenv s key = ""%string <->
  Getenv key = ""%string /\ (initialized s = false \/ forall v, secretData s !! key = Some (Some v) -> v = ""%string).
Proof.
  unfold GetSecret. destruct (initialized s) eqn:Hi; simpl; [|tauto].
  destruct (secretData s !! key) as [[v|]|]; [|naive_solver..].
  case_bool_decide; naive_solver.
Qed.

End Secrets.

(** ** [checker/balance] *)
Module Balance.
Import GoDuration.

Definition BalanceHistoryTTL : Duration := 3600 * second.
Definition ChunkSize : nat := 10.
Definition MinimalIncreaseThreshold : float64 := const 1 2.
Definition DefaultRRMinimum : float64 := of_int 1.

Record BalanceHistoryEntry : Type := mkEntry { Timestamp : Time; e_Balance : float64 }.
Record Wallet : Type := mkWallet {
  Tag : string; w_Address : Address; w_Balance : float64; Minimum : float64; BalanceHistory : list BalanceHistoryEntry }.

(** *** Set-up *)
Record Envs : Type := mkEnvs {
  SubmitterAlarmAmount : float64; DelegatorAlarmAmount : float64;
  BalanceCheckInterval : Duration; BalanceAlarmInterval : Duration }.

Definition isNumber (s : string) : bool := match ParseFloat s with Some _ => true | None => false end.
Definition amount_or (raw : string) (default : float64) : float64 :=
  if negb (bool_decide (raw = "")%string) && isNumber raw
  then match ParseFloat raw with Some f => f | None => default end else default.
Definition loadEnvs (Getenv : string -> string) : Envs :=
  mkEnvs (amount_or (Getenv "SUBMITTER_ALARM_AMOUNT"%string) (of_int 25))
    (amount_or (Getenv "DELEGATOR_ALARM_AMOUNT"%string)
       (of_int (if bool_decide (Getenv "CHAIN" = "cypress")%string then 50000 else 10000)))
    (interval_or (Getenv "BALANCE_CHECK_INTERVAL"%string) (60 * second))
    (interval_or (Getenv "BALANCE_ALARM_INTERVAL"%string) (1800 * second)).

Record Urls : Type := mkUrls {
  JsonRpcUrl : string; MikoApiUrl : string; MikoNodeAdminUrl : string; MikoDelegatorUrl : string; PorUrl : string }.
Definition required (Getenv : string -> string) (name : string) : res string :=
  if bool_decide (Getenv name = "")%string then Err (External (name +:+ " not found")) else Ok (Getenv name).
Definition getUrls (Getenv : string -> string) : res Urls :=
  let? mikoApiUrl := required Getenv "ORAKL_API_URL" in
  let? mikoNodeAdminUrl := required Getenv "ORAKL_NODE_ADMIN_URL" in
  let? mikoDelegatorUrl := required Getenv "ORAKL_DELEGATOR_URL" in
  let? porUrl := required Getenv "POR_URL" in
  let? jsonRpcUrl := required Getenv "JSON_RPC_URL" in
  Ok (mkUrls jsonRpcUrl mikoApiUrl mikoNodeAdminUrl mikoDelegatorUrl porUrl).

Record ReporterModel : Type := mkReporter { r_Address : string; Service : string }.

Section wallets.
Variable HexToAddress : string -> Address.
(** The answers to the three requests; the second is the status and the body. *)
Variables (reporters : string -> res (list ReporterModel)) (por : string -> res (Z * res string)) (feePayer : string -> res string).

Definition fresh (address : string) (minimum : float64) (tag : string) : Wallet :=
  mkWallet tag (HexToAddress address) fzero minimum [].

Definition loadWalletFromMikoApi (E : Envs) (url : string) : res (list Wallet) :=
  let? reporters := reporters (url +:+ "/reporter")%string in
  Ok (omap (fun reporter =>
        if bool_decide (Service reporter = "DATA_FEED")%string then None
        else Some (fresh (r_Address reporter)
                     (if bool_decide (Service reporter = "REQUEST_RESPONSE")%string then DefaultRRMinimum else SubmitterAlarmAmount E)
                     "reporter loaded from miko api")) reporters).
Definition loadWalletFromPor (E : Envs) (url : string) : res Wallet :=
  let? (status, body) := por (url +:+ "/address")%string in
  if negb (status =? 200) then Err (External "status not okay from por wallet request") else
  let? reporter := body in Ok (fresh reporter (SubmitterAlarmAmount E) "reporter loaded from por").
Definition loadWalletFromDelegator (E : Envs) (url : string) : res Wallet :=
  let? payer := feePayer (url +:+ "/sign/feePayer")%string in
  Ok (fresh payer (DelegatorAlarmAmount E) "reporter loaded from delegator").
Definition loadWallets (E : Envs) (urls : Urls) : res (list Wallet) :=
  let? apiWallets := loadWalletFromMikoApi E (MikoApiUrl urls) in
  let? porWallet := loadWalletFromPor E (PorUrl urls) in
  let? delegatorWallet := loadWalletFromDelegator E (MikoDelegatorUrl urls) in
  Ok (apiWallets ++ [porWallet] ++ [delegatorWallet]).

Definition setUp (Getenv : string -> string) (Dial : string -> option error) (E : Envs) : res (list Wallet) :=
  let? urls := getUrls Getenv in
  match Dial (JsonRpcUrl urls) with Some err => Err err | None => loadWallets E urls end.
End wallets.

(** *** Balances *)
(** [None]: a quotient that is not a number panics. *)
Definition toEth (balance : Z) : option float64 :=
  let '(prec, fbalance) := BigFloat.SetInt balance in
  ten18 ← BigFloat.SetFloat64 (Pow10 18);
  ethValue ← BigFloat.Quo prec fbalance ten18;
  Some (BigFloat.Float64 ethValue).
Definition getBalance (BalanceAt : Address -> res Z) (address : Address) : option (res float64) :=
  match BalanceAt address with
  | Err err => Some (Err err)
  | Ok balance => f ← toEth balance; Some (Ok f)
  end.

Definition IsRecent (cutoff : Time) (b : BalanceHistoryEntry) : bool := cutoff <? Timestamp b.

(** One wallet: the answer of the chain and the time at which the entry is made. *)
Definition update_wallet (cutoff : Time) (BalanceAt : Address -> res Z) (now : Time) (w : Wallet) : option Wallet :=
  r ← getBalance BalanceAt (w_Address w);
  match r with
  | Err _ => Some w
  | Ok balance =>
      let history := BalanceHistory w ++ [mkEntry now balance] in
      Some (mkWallet (Tag w) (w_Address w) balance (Minimum w) (filter (fun e => IsRecent cutoff e = true) history))
  end.
(** [start] is the clock at the beginning, [env i] what the [i]-th wallet sees. *)
Definition updateBalances (start : Time) (env : nat -> (Address -> res Z) * Time) (wallets : list Wallet)
    : option (list Wallet) :=
  mapM id (imap (fun i w => update_wallet (start - BalanceHistoryTTL) (env i).1 (env i).2 w) wallets).

(** *** Alarms *)
Inductive Message : Type :=
| BelowMinimum (address : Address) (balance minimum : float64) (tag : string)
| DrainedFaster (address : Address) (percent : float64) (tag : string).

(** The loop over [i := 0, ChunkSize, ...]; its fuel is the length of the history. *)
Fixpoint drainage_loop (fuel : nat) (i : nat) (history : list BalanceHistoryEntry) : option (list float64) :=
  match fuel with
  | O => Some []
  | S fuel =>
      if (i <? length history)%nat then
        if (length history <=? i + ChunkSize - 1)%nat then Some [] else
        last ← history !! (i + ChunkSize - 1)%nat;
        first ← history !! i;
        let drainage := fsub (e_Balance last) (e_Balance first) in
        l ← drainage_loop fuel (i + ChunkSize) history;
        Some (if fltb drainage fzero then drainage :: l else l)
      else Some []
  end.
Definition getAverageDrainage (history : list BalanceHistoryEntry) : option float64 :=
  drainageList ← drainage_loop (length history) 0 history;
  match drainageList with
  | [] => Some fzero
  | _ => Some (fdiv (fold_left fadd drainageList fzero) (of_int (Z.of_nat (length drainageList))))
  end.

(** [None]: an index is out of range. *)
Definition alarm_wallet (w : Wallet) : option (list Message) :=
  let low := if fltb (w_Balance w) (Minimum w) then [BelowMinimum (w_Address w) (w_Balance w) (Minimum w) (Tag w)] else [] in
  let history := BalanceHistory w in
  if (length history <? 30)%nat then Some low else
  newest ← history !! (length history - 1)%nat;
  oldest ← history !! (length history - ChunkSize)%nat;
  let latestDrainage := fsub (e_Balance newest) (e_Balance oldest) in
  averageDrainage ← getAverageDrainage history;
  if fltb averageDrainage latestDrainage || feqb averageDrainage fzero then Some low else
  let drainageChangeRatio := fdiv (fsub averageDrainage latestDrainage) (fabs averageDrainage) in
  Some (if fltb MinimalIncreaseThreshold drainageChangeRatio
        then low ++ [DrainedFaster (w_Address w) (fmul drainageChangeRatio (of_int 100)) (Tag w)] else low).
Definition alarm (wallets : list Wallet) : option (option (list Message)) :=
  l ← mapM alarm_wallet wallets;
  Some (match concat l with [] => None | msg => Some msg end).

(** *** Drainage by chunks *)
(** Reference: cut the history into full chunks of ten and take the negative differences of their ends. *)
Fixpoint chunks (fuel : nat) (l : list BalanceHistoryEntry) : list (list BalanceHistoryEntry) :=
  match fuel with
  | O => []
  | S fuel => if (length l <? ChunkSize)%nat then [] else take ChunkSize l :: chunks fuel (drop ChunkSize l)
  end.
Definition drainage_of (chunk : list BalanceHistoryEntry) : option float64 :=
  first ← head chunk; last ← last chunk;
  let d := fsub (e_Balance last) (e_Balance first) in if fltb d fzero then Some d else None.

Lemma drainage_of_ends chunk e1 e2 :
  head chunk = Some e1 -> last chunk = Some e2 ->
  drainage_of chunk = let d := fsub (e_Balance e2) (e_Balance e1) in if fltb d fzero then Some d else None.
Proof. unfold drainage_of. by intros -> ->. Qed.

Lemma drainage_loop_chunks fuel history i :
  drainage_loop fuel i history = Some (omap drainage_of (chunks fuel (drop i history))).
Proof.
  revert i. induction fuel as [|fuel IH]; intros i; [done|]. cbn [drainage_loop chunks].
  rewrite length_drop. unfold ChunkSize in *.
  destruct (Nat.ltb_spec i (length history)) as [Hi|Hi].
  2: { destruct (Nat.ltb_spec (length history - i) 10); [done|lia]. }
  destruct (Nat.leb_spec (length history) (i + 10 - 1)) as [Hl|Hl].
  { destruct (Nat.ltb_spec (length history - i) 10); [done|lia]. }
  destruct (Nat.ltb_spec (length history - i) 10); [lia|].
  destruct (lookup_lt_is_Some_2 history (i + 10 - 1) ltac:(lia)) as [e2 He2].
  destruct (lookup_lt_is_Some_2 history i ltac:(lia)) as [e1 He1]. rewrite He2, He1. cbn [mbind option_bind].
  rewrite IH, drop_drop. cbn [mbind option_bind omap list_omap].
  rewrite (drainage_of_ends _ e1 e2); [cbv zeta; by destruct (fltb (fsub _ _) _)| |].
  - rewrite <- He1, head_lookup, lookup_take_lt, lookup_drop by lia. by rewrite Nat.add_0_r.
  - rewrite <- He2, last_lookup, length_take, length_drop.
    replace (Nat.pred (10 `min` (length history - i))) with 9%nat by lia.
    rewrite lookup_take_lt, lookup_drop by lia. f_equal. lia.
Qed.

(** The loop never runs out of range or of fuel: the average is that of the full chunks. *)
Lemma getAverageDrainage_chunks history :
  getAverageDrainage history =
  Some (match omap drainage_of (chunks (length history) history) with
        | [] => fzero
        | l => fdiv (fold_left fadd l fzero) (of_int (Z.of_nat (length l)))
        end).
Proof. unfold getAverageDrainage. rewrite drainage_loop_chunks. cbn [mbind option_bind drop]. by destruct (omap _ _). Qed.

Lemma alarm_wallet_total w : is_Some (alarm_wallet w).
Proof.
  unfold alarm_wallet. destruct (Nat.ltb_spec (length (BalanceHistory w)) 30) as [|Hl]; [by eexists|].
  unfold ChunkSize.
  destruct (lookup_lt_is_Some_2 (BalanceHistory w) (length (BalanceHistory w) - 1) ltac:(lia)) as [e1 ->].
  destruct (lookup_lt_is_Some_2 (BalanceHistory w) (length (BalanceHistory w) - 10) ltac:(lia)) as [e2 ->].
  cbn [mbind option_bind]. rewrite getAverageDrainage_chunks. cbn [mbind option_bind].
  destruct (_ || _); by eexists.
Qed.

(** No set of wallets makes the alarm panic, whatever their histories. *)
Lemma alarm_total wallets : is_Some (alarm wallets).
Proof.
  unfold alarm. destruct (mapM alarm_wallet wallets) as [l|] eqn:Hm; [by eexists|].
  apply mapM_None_1, Exists_exists in Hm as (w & _ & Hw). destruct (alarm_wallet_total w). congruence.
Qed.

(** *** Histories *)
(** The entries of a wallet are in order of time, all newer than [cutoff] and none newer than [now]. *)
Definition history_ok (cutoff now : Time) (w : Wallet) : Prop :=
  StronglySorted Z.le (Timestamp <$> BalanceHistory w) /\
  Forall (fun e => cutoff < Timestamp e <= now) (BalanceHistory w).

Lemma Forall_filtered {A} (P Q : A -> Prop) `{forall x, Decision (P x)} (l : list A) :
  Forall (fun x => P x -> Q x) l -> Forall Q (filter P l).
Proof. rewrite !Forall_forall. intros Hl x [HP Hx]%list_elem_of_filter. by apply Hl. Qed.

Lemma sorted_filter (P : BalanceHistoryEntry -> Prop) `{forall x, Decision (P x)} (l : list BalanceHistoryEntry) :
  StronglySorted Z.le (Timestamp <$> l) -> StronglySorted Z.le (Timestamp <$> filter P l).
Proof.
  induction l as [|e l IH]; [done|]. cbn [fmap list_fmap]. intros [Hs Hf]%StronglySorted_inv. rewrite filter_cons.
  case_decide; [|by apply IH]. cbn [fmap list_fmap]. constructor; [by apply IH|].
  apply Forall_fmap, Forall_filtered. apply (Forall_fmap Timestamp) in Hf. eapply Forall_impl; [exact Hf|done].
Qed.

Lemma sorted_snoc (l : list BalanceHistoryEntry) e :
  StronglySorted Z.le (Timestamp <$> l) -> Forall (fun x => Timestamp x <= Timestamp e) l ->
  StronglySorted Z.le (Timestamp <$> l ++ [e]).
Proof.
  induction l as [|x l IH]; intros Hs Hf; [repeat constructor|]. cbn in *. apply StronglySorted_inv in Hs as [Hs Hx].
  apply Forall_cons in Hf as [He Hf]. constructor; [by apply IH|].
  rewrite fmap_app. apply Forall_app. split; [done|]. by repeat constructor.
Qed.

(** An update of a wallet keeps its history in order, and within the last hour if it adds to it. *)
Lemma update_wallet_ok cutoff0 now0 cutoff BalanceAt now w w' :
  history_ok cutoff0 now0 w -> now0 <= now -> cutoff < now -> update_wallet cutoff BalanceAt now w = Some w' ->
  w' = w \/ (history_ok cutoff now w' /\ last (BalanceHistory w') = Some (mkEntry now (w_Balance w'))).
Proof.
  intros [Hs Hf] Hn Hc. unfold update_wallet. destruct (getBalance _ _) as [[b|e]|]; [|intros [= <-]; by left|done].
  cbn [mbind option_bind]. intros [= <-]. right. cbn [BalanceHistory w_Balance].
  assert (Forall (fun x => Timestamp x <= now) (BalanceHistory w)) as Hle.
  { eapply Forall_impl; [exact Hf|]. intros x Hx. cbn in Hx. lia. }
  split; [split|].
  - apply sorted_filter, sorted_snoc; done.
  - apply Forall_filtered. apply Forall_app. split.
    + eapply Forall_impl; [exact Hle|]. intros x Hx. cbn in Hx. unfold IsRecent. rewrite Z.ltb_lt. lia.
    + constructor; [|done]. unfold IsRecent. cbn. rewrite Z.ltb_lt. lia.
  - rewrite filter_app, filter_cons_True by (unfold IsRecent; cbn; by apply Z.ltb_lt).
    by rewrite filter_nil, last_snoc.
Qed.

(** *** Accuracy *)
Section accuracy.
Import Rounding Uniswap.Uniswap.
Local Open Scope Q_scope.

(** A balance of at most 160 bits is shown in whole coins up to a relative error of [2 ^ -51]. *)
Theorem balance_accurate (BalanceAt : Address -> res Z) (address : Address) (balance : Z) :
  BalanceAt address = Ok balance -> (0 < balance < 2 ^ 160)%Z ->
  exists f, getBalance BalanceAt address = Some (Ok f) /\ finite f = true /\
    approx (pow2 (- 51)) (value f) (inject_Z balance / inject_Z (10 ^ 18)).
Proof.
  intros HB Hb. unfold getBalance. rewrite HB. unfold toEth.
  destruct (SetInt_near balance Hb) as [Hp Hf]. destruct (BigFloat.SetInt balance) as [p f]. cbn [fst snd] in *.
  assert (H18 : near 100 0 (Pow10 18) (inject_Z (10 ^ 18))).
  { split; [|split; [|split; [done|split; [done|by vm_compute]]]].
    - exists 7812500000000000%positive, 7%Z. split; [vm_compute; done|lia].
    - split; vm_compute; done. }
  pose proof (near_div p Hp _ _ _ _ (2 * pow2 (- 64)) _ _ _ _ Hf H18 ltac:(unfold BigFloat.big_emax; lia)
    ltac:(by vm_compute) ltac:(by vm_compute)) as Hq.
  unfold BigFloat.SetFloat64, BigFloat.Quo.
  rewrite (near_number _ _ _ _ H18). cbn [mbind option_bind]. rewrite (near_number _ _ _ _ Hq). cbn [mbind option_bind].
  set (x := SFdiv p _ f _) in *. clearbody x. destruct Hq as (Hfin & Ha & Hy & _). set (y := inject_Z balance / inject_Z (10 ^ 18)) in *.
  destruct Hfin as (m & e & -> & _). unfold approx in Ha. rewrite value_finite in Ha.
  assert (Hlo : pow2 (- 60) <= y /\ y <= pow2 160).
  { assert (1 <= inject_Z balance) by (change 1 with (inject_Z 1); rewrite <- Zle_Qle; lia).
    assert (inject_Z balance <= inject_Z (2 ^ 160)) by (rewrite <- Zle_Qle; lia).
    assert (pow2 (- 60) <= 1 / inject_Z (10 ^ 18)) by (by vm_compute).
    assert (inject_Z (2 ^ 160) / inject_Z (10 ^ 18) <= pow2 160) by (by vm_compute).
    assert (0 < / inject_Z (10 ^ 18)) by (by vm_compute). unfold y, Qdiv in *. nra. }
  clearbody y.
  assert (H64 : 0 < 2 * pow2 (- 64) /\ 2 * pow2 (- 64) <= 1#2) by (split; by vm_compute).
  assert (Hu : pow2 (- 60) * (1#2) >= pow2 (- 700) /\ pow2 160 * 2 <= pow2 700) by (split; by vm_compute).
  cbn [BigFloat.Float64].
  destruct (to_float64_near m e) as (m' & e' & -> & Ha' & Hm' & He'); [nra|nra|].
  eexists. split; [reflexivity|]. split; [done|].
  apply (approx_le (2 * pow2 (- 64) + 2 * pow2 (- 53))); [lra|by vm_compute|].
  eapply approx_trans; [lra|lra|split; by vm_compute|lra|exact Ha'|exact Ha].
Qed.

End accuracy.

End Balance.

(** ** [checker/ping] *)
Module Ping.
Import Alarm.

Definition DefaultAlpha : float64 := const 3 10.
Definition DefaultThresholdFactor : float64 := const 13 10.
Definition DefaultMaxFails : Z := 2.
Definition DefaultBufferSize : Z := 500.
Definition GlobalEndpoints : list string := ["8.8.8.8"; "1.1.1.1"; "208.67.222.222"]%string.

Record PingResult : Type := mkResult { p_Address : string; Success : bool; Delay : Duration }.
Record AppConfig : Type := mkAppConfig {
  c_Endpoints : list string; c_BufferSize : Z; c_Alpha : float64; c_ThresholdFactor : float64 }.
Definition WithEndpoints (endpoints : list string) (c : AppConfig) : AppConfig :=
  mkAppConfig endpoints (c_BufferSize c) (c_Alpha c) (c_ThresholdFactor c).
Definition WithResultBuffer (size : Z) (c : AppConfig) : AppConfig :=
  mkAppConfig (c_Endpoints c) size (c_Alpha c) (c_ThresholdFactor c).
Definition WithAlpha (alpha : float64) (c : AppConfig) : AppConfig :=
  mkAppConfig (c_Endpoints c) (c_BufferSize c) alpha (c_ThresholdFactor c).
Definition WithThresholdFactor (factor : float64) (c : AppConfig) : AppConfig :=
  mkAppConfig (c_Endpoints c) (c_BufferSize c) (c_Alpha c) factor.

Record App : Type := mkApp {
  RTTAvg : gmap string float64; Alpha : float64; ThresholdFactor : float64; Endpoints : list string;
  FailCount : gmap string Z }.

(** [None]: a buffer of negative size panics. *)
Definition New (NewPinger : string -> option error) (opts : list (AppConfig -> AppConfig)) : option (res App) :=
  let c := fold_left (fun c opt => opt c) opts
    (mkAppConfig GlobalEndpoints DefaultBufferSize DefaultAlpha DefaultThresholdFactor) in
  if c_BufferSize c <? 0 then None else
  match first_some NewPinger (c_Endpoints c) with
  | Some err => Some (Err err)
  | None => Some (Ok (mkApp ∅ (c_Alpha c) (c_ThresholdFactor c) (c_Endpoints c) ∅))
  end.

Definition next_avg (alpha : float64) (avg : option float64) (delay : Duration) : float64 :=
  match avg with
  | None => of_int delay
  | Some a => fadd (fmul alpha (of_int delay)) (fmul (fsub (of_int 1) alpha) a)
  end.

(** One result: the new averages and counters. *)
Definition handle_result (app : App) (result : PingResult) : App :=
  let a := p_Address result in
  let '(avgs, failed) :=
    if Success result then
      let avg := next_avg (Alpha app) (RTTAvg app !! a) (Delay result) in
      (<[a := avg]> (RTTAvg app), to_int64 (fmul (ThresholdFactor app) avg) <? Delay result)
    else (RTTAvg app, true) in
  let count := if failed then wrap64 (default 0 (FailCount app !! a) + 1) else 0 in
  mkApp avgs (Alpha app) (ThresholdFactor app) (Endpoints app) (<[a := count]> (FailCount app)).

(** All endpoints failed: the loop returns. *)
Definition shuts_down (app : App) : bool :=
  Z.of_nat (size (filter (fun kv : string * Z => DefaultMaxFails <= kv.2) (FailCount app))) =? Z.of_nat (length (Endpoints app)).

(** The loop over the results of the buffer: the state, and the number of the result after which it returns. *)
Fixpoint loop (app : App) (results : list PingResult) : App * option nat :=
  match results with
  | [] => (app, None)
  | r :: results =>
      let app := handle_result app r in
      if shuts_down app then (app, Some 1%nat) else
      let '(app, n) := loop app results in (app, S <$> n)
  end.

(** *** Reference: the failures in a row of one endpoint *)
Definition results_of (a : string) (l : list PingResult) : list PingResult := filter (fun r => p_Address r = a) l.
Fixpoint failures (alpha factor : float64) (avg : option float64) (l : list PingResult) : list bool :=
  match l with
  | [] => []
  | r :: l =>
      if Success r then
        let avg := next_avg alpha avg (Delay r) in
        (to_int64 (fmul factor avg) <? Delay r) :: failures alpha factor (Some avg) l
      else true :: failures alpha factor avg l
  end.
Fixpoint average (alpha : float64) (avg : option float64) (l : list PingResult) : option float64 :=
  match l with
  | [] => avg
  | r :: l => average alpha (if Success r then Some (next_avg alpha avg (Delay r)) else avg) l
  end.

Lemma average_snoc alpha avg l r :
  average alpha avg (l ++ [r]) =
  if Success r then Some (next_avg alpha (average alpha avg l) (Delay r)) else average alpha avg l.
Proof. revert avg. induction l as [|x l IH]; intros avg; simpl; [done|apply IH]. Qed.
Lemma failures_snoc alpha factor avg l r :
  failures alpha factor avg (l ++ [r]) = failures alpha factor avg l ++
  [if Success r then to_int64 (fmul factor (next_avg alpha (average alpha avg l) (Delay r))) <? Delay r else true].
Proof.
  revert avg. induction l as [|x l IH]; intros avg; simpl; [by destruct (Success r)|].
  destruct (Success x); by rewrite IH.
Qed.
Lemma failures_length alpha factor avg l : length (failures alpha factor avg l) = length l.
Proof. revert avg. induction l as [|x l IH]; intros avg; simpl; [done|]. destruct (Success x); simpl; by rewrite IH. Qed.
Lemma streak_length h : (streak h <= length h)%nat.
Proof. unfold streak. rewrite <- length_rev. induction (rev h) as [|[] l IH]; simpl; lia. Qed.

Section run.
Variable start : App.
Hypothesis fresh : RTTAvg start = ∅ /\ FailCount start = ∅.
Hypothesis distinct : NoDup (Endpoints start).

Definition fails (a : string) (results : list PingResult) : nat :=
  streak (failures (Alpha start) (ThresholdFactor start) None (results_of a results)).

(** The tables after any results. *)
Definition tables (results : list PingResult) (app : App) : Prop :=
  Alpha app = Alpha start /\ ThresholdFactor app = ThresholdFactor start /\ Endpoints app = Endpoints start /\
  (forall a, RTTAvg app !! a = average (Alpha start) None (results_of a results)) /\
  (forall a, FailCount app !! a = if decide (results_of a results = []) then None else Some (Z.of_nat (fails a results))).

Lemma results_of_snoc a l r :
  results_of a (l ++ [r]) = if decide (p_Address r = a) then results_of a l ++ [r] else results_of a l.
Proof.
  unfold results_of. rewrite filter_app. destruct (decide (p_Address r = a)).
  - by rewrite filter_cons_True.
  - rewrite filter_cons_False by done. apply app_nil_r.
Qed.

Lemma tables_start : tables [] start.
Proof.
  destruct fresh as [Hr Hf]. unfold tables. rewrite Hr, Hf. split_and!; try done; intros a; by rewrite lookup_empty.
Qed.

Lemma tables_step results r app :
  Z.of_nat (length results) < max_int64 -> tables results app -> tables (results ++ [r]) (handle_result app r).
Proof.
  intros Hl (Ha & Ht & He & Hr & Hf). unfold handle_result. destruct r as [addr ok d]. cbn [p_Address Success Delay].
  assert (Hb : Z.of_nat (fails addr results) < max_int64).
  { unfold fails. pose proof (streak_length (failures (Alpha start) (ThresholdFactor start) None (results_of addr results))) as Hs.
    rewrite failures_length in Hs. unfold results_of in Hs at 2.
    pose proof (length_filter (fun r => p_Address r = addr) results). lia. }
  assert (Hc : default 0 (FailCount app !! addr) = Z.of_nat (fails addr results)).
  { rewrite Hf. case_decide as Hd; [|done]. unfold fails. by rewrite Hd. }
  assert (Hw : wrap64 (Z.of_nat (fails addr results) + 1) = Z.of_nat (S (fails addr results)))
    by (rewrite wrap64_id; unfold in_int64, min_int64 in *; lia).
  rewrite Hc, Hr, Ha, Ht, Hw.
  set (flag := if ok then to_int64 (fmul (ThresholdFactor start) (next_avg (Alpha start) (average (Alpha start) None (results_of addr results)) d)) <? d else true).
  assert (Hs : fails addr (results ++ [mkResult addr ok d]) = if flag then S (fails addr results) else 0%nat).
  { unfold fails. rewrite results_of_snoc. cbn [p_Address]. rewrite decide_True by done.
    rewrite failures_snoc, streak_snoc. cbn [Success Delay]. by destruct ok. }
  assert (Hne : forall a, a <> addr -> fails a (results ++ [mkResult addr ok d]) = fails a results).
  { intros a Hna. unfold fails. rewrite results_of_snoc. cbn. by rewrite decide_False. }
  unfold tables. destruct ok; cbn [RTTAvg FailCount Alpha ThresholdFactor Endpoints]; split_and!; try done; intros a;
    rewrite results_of_snoc; cbn [p_Address]; (destruct (decide (addr = a)) as [<-|Hna];
      [rewrite ?lookup_insert_eq|rewrite ?lookup_insert_ne by done; rewrite ?Hne by done; auto]).
  - by rewrite average_snoc.
  - rewrite decide_False by (by destruct (results_of addr results)). rewrite Hs. unfold flag. by destruct (_ <? d).
  - rewrite average_snoc. apply Hr.
  - rewrite decide_False by (by destruct (results_of addr results)). rewrite Hs. done.
Qed.

Lemma shuts_down_iff results app :
  tables results app -> Forall (fun r => p_Address r ∈ Endpoints start) results ->
  shuts_down app = true <-> (forall a, a ∈ Endpoints start -> (2 <= fails a results)%nat).
Proof.
  intros (Ha & Ht & He & Hr & Hf) Hall. unfold shuts_down, DefaultMaxFails. rewrite He, Z.eqb_eq, Nat2Z.inj_iff.
  set (m := filter (fun kv : string * Z => 2 <= kv.2) (FailCount app)).
  assert (Hm : forall a, is_Some (m !! a) <-> (2 <= fails a results)%nat).
  { intros a. unfold is_Some, m. setoid_rewrite map_lookup_filter_Some. rewrite Hf. cbn [snd]. split.
    - intros (c & Hc & H2). case_decide; [done|]. simplify_eq. lia.
    - intros H2. exists (Z.of_nat (fails a results)). split; [|lia]. rewrite decide_False; [done|].
      intros Hn. unfold fails in H2. rewrite Hn in H2. cbn in H2. lia. }
  assert (Hsub : dom m ⊆ list_to_set (C := gset string) (Endpoints start)).
  { intros a [c Hc]%elem_of_dom. rewrite elem_of_list_to_set. assert (is_Some (m !! a)) as H2%Hm by by eexists.
    destruct (results_of a results) as [|r l] eqn:Hres; [unfold fails in H2; rewrite Hres in H2; cbn in H2; lia|].
    assert (r ∈ results_of a results) as Hin by (rewrite Hres; constructor).
    apply list_elem_of_filter in Hin as [<- Hin]. rewrite Forall_forall in Hall. by apply Hall. }
  assert (Hsize : size (list_to_set (C := gset string) (Endpoints start)) = length (Endpoints start)) by by apply size_list_to_set.
  rewrite <- size_dom, <- Hsize. split.
  - intros Heq a Hin. apply Hm, elem_of_dom. rewrite (set_subseteq_size_eq _ _ Hsub) by lia. by apply elem_of_list_to_set.
  - intros Hge. f_equal. apply set_eq. intros a. split; [by apply Hsub|]. rewrite elem_of_list_to_set.
    intros Hin. by apply elem_of_dom, Hm, Hge.
Qed.

End run.

Lemma loop_stops start app pre results :
  RTTAvg start = ∅ -> FailCount start = ∅ -> NoDup (Endpoints start) -> tables start pre app ->
  Forall (fun r => p_Address r ∈ Endpoints start) (pre ++ results) -> Z.of_nat (length (pre ++ results)) < max_int64 ->
  match (loop app results).2 with
  | Some n => (0 < n <= length results)%nat /\
      (forall a, a ∈ Endpoints start -> (2 <= fails start a (pre ++ take n results))%nat) /\
      (forall k, (0 < k < n)%nat -> exists a, a ∈ Endpoints start /\ (fails start a (pre ++ take k results) < 2)%nat)
  | None => forall k, (0 < k <= length results)%nat -> exists a, a ∈ Endpoints start /\ (fails start a (pre ++ take k results) < 2)%nat
  end.
Proof.
  intros Hr Hf Hd. revert app pre. induction results as [|r results IH]; intros app pre Ht Hall Hlen; [simpl; lia|].
  rewrite length_app in Hlen. cbn [length] in Hlen.
  pose proof (tables_step start pre r app ltac:(lia) Ht) as Ht'.
  assert (Hcons : pre ++ r :: results = (pre ++ [r]) ++ results) by (by rewrite <- app_assoc).
  rewrite Hcons in Hall. pose proof Hall as Hall'. apply Forall_app in Hall' as [Hpre _].
  pose proof (shuts_down_iff start Hd _ _ Ht' Hpre) as Hiff.
  specialize (IH _ _ Ht' Hall ltac:(rewrite !length_app; cbn; lia)). cbn [loop].
  destruct (shuts_down (handle_result app r)) eqn:Hs.
  - cbn [snd]. split; [simpl; lia|]. split; [by apply Hiff|lia].
  - assert (Hex : exists a, a ∈ Endpoints start /\ (fails start a (pre ++ [r]) < 2)%nat).
    { destruct (decide (Forall (fun a => (2 <= fails start a (pre ++ [r]))%nat) (Endpoints start))) as [HF|HF].
      - rewrite Forall_forall in HF. apply Hiff in HF. congruence.
      - apply not_Forall_Exists in HF; [|apply _]. apply Exists_exists in HF as (a & Hin & Ha). exists a. split; [done|cbn in Ha; lia]. }
    assert (Htake : forall k, (0 < k)%nat -> pre ++ take (S k) (r :: results) = (pre ++ [r]) ++ take k results)
      by (intros k Hk; cbn; by rewrite <- app_assoc).
    destruct (loop (handle_result app r) results) as [app' [n|]]; cbn [snd fmap option_fmap option_map] in *.
    + destruct IH as (Hn & Hge & Hlt). split; [simpl; lia|]. split.
      { rewrite Htake by lia. exact Hge. }
      intros [|k] Hk; [lia|]. destruct k as [|k]; [exact Hex|]. rewrite Htake by lia. apply Hlt. lia.
    + intros [|k] Hk; [lia|]. destruct k as [|k]; [exact Hex|]. rewrite Htake by lia. apply IH. simpl in Hk. lia.
Qed.

(** C39: The ping application returns exactly after the first result at which every
    endpoint has failed at least twice in a row, where a ping that is slower than the
    threshold counts as a failure; otherwise it goes on. *)
Theorem ping_stops_exactly NewPinger opts (app : App) (results : list PingResult) :
  New NewPinger opts = Some (Ok app) -> NoDup (Endpoints app) ->
  Forall (fun r => p_Address r ∈ Endpoints app) results -> Z.of_nat (length results) < max_int64 ->
  let all_failed k := forall a, a ∈ Endpoints app -> (2 <= fails app a (take k results))%nat in
  match (loop app results).2 with
  | Some n => (0 < n <= length results)%nat /\ all_failed n /\ forall k, (0 < k < n)%nat -> ~ all_failed k
  | None => forall k, (0 < k <= length results)%nat -> ~ all_failed k
  end.
Proof.
  unfold New. intros Hnew Hd Hall Hlen. destruct (_ <? 0); [done|]. destruct (first_some _ _); [done|].
  set (c := fold_left _ _ _) in Hnew. simplify_eq/=.
  match goal with |- context [loop ?a _] => set (app := a) end.
  pose proof (loop_stops app app [] results eq_refl eq_refl Hd (tables_start app (conj eq_refl eq_refl)) Hall Hlen) as Hl.
  assert (Hneg : forall k, (exists a, a ∈ Endpoints app /\ (fails app a (take k results) < 2)%nat) ->
    ~ forall a, a ∈ Endpoints app -> (2 <= fails app a (take k results))%nat).
  { intros k (a & Hin & Ha) Hge. specialize (Hge a Hin). lia. }
  destruct (loop app results) as [app' [n|]]; cbn [snd] in *.
  - destruct Hl as (Hn & Hge & Hlt). split_and!; [lia|lia|exact Hge|]. intros k Hk. by apply Hneg, Hlt.
  - intros k Hk. by apply Hneg, Hl.
Qed.

Definition w_app : App := mkApp ∅ DefaultAlpha DefaultThresholdFactor ["8.8.8.8"; "1.1.1.1"]%string ∅.
Definition w_lost (a : string) : PingResult := mkResult a false 0.
Definition w_pong (a : string) (ms : Z) : PingResult := mkResult a true (ms * millisecond).
(** A slow answer is a failure: the loop returns after the sixth result. *)
Definition w_results : list PingResult :=
  [w_pong "8.8.8.8" 10; w_lost "1.1.1.1"; w_pong "8.8.8.8" 30; w_lost "1.1.1.1"; w_pong "8.8.8.8" 10; w_pong "8.8.8.8" 40; w_pong "8.8.8.8" 60]%string.
Lemma ping_stops_exactly_witness :
  (loop w_app w_results).2 = Some 7%nat /\
  forall a, a ∈ Endpoints w_app -> (2 <= fails w_app a (take 7 w_results))%nat.
Proof.
  pose proof (ping_stops_exactly (fun _ => None) [WithEndpoints ["8.8.8.8"; "1.1.1.1"]%string] w_app w_results) as H.
  cbv zeta in H. assert (Hs : (loop w_app w_results).2 = Some 7%nat) by (vm_compute; reflexivity).
  rewrite Hs in H. split; [reflexivity|]. apply H.
  - reflexivity.
  - apply (bool_decide_eq_true_1 (NoDup (Endpoints w_app))). vm_compute. reflexivity.
  - apply (bool_decide_eq_true_1 (Forall (fun r => p_Address r ∈ Endpoints w_app) w_results)). vm_compute. reflexivity.
  - vm_compute. reflexivity.
Defined.

End Ping.

(** ** [checker/health] *)
Module Health.
Import GoDuration.

Record HealthCheckUrl : Type := mkUrl { h_Name : string; h_Url : string }.

(** [embedded] reads one of the two files compiled into the program. *)
Definition setUp (Getenv GetSecret : string -> string) (embedded : string -> res (list HealthCheckUrl))
    : res (list HealthCheckUrl * Duration) :=
  let chain := if bool_decide (Getenv "CHAIN" = "")%string then "baobab"%string else Getenv "CHAIN"%string in
  let interval := ParseDuration (Getenv "HEALTH_CHECK_INTERVAL"%string) in
  let with_databases urls :=
    let urls := if bool_decide (GetSecret "DATABASE_URL" = "")%string then urls
                else urls ++ [mkUrl "graphnode" (GetSecret "DATABASE_URL")] in
    let urls := if bool_decide (GetSecret "SERVICE_DB_URL" = "")%string then urls
                else urls ++ [mkUrl "service" (GetSecret "SERVICE_DB_URL")] in
    Ok (urls, default (10 * second) interval) in
  if bool_decide (chain = "baobab")%string then let? urls := embedded "baobab_healthcheck.json"%string in with_databases urls
  else if bool_decide (chain = "cypress")%string then let? urls := embedded "cypress_healthcheck.json"%string in with_databases urls
  else match interval with
       | None => Err (External "invalid duration")
       | Some d => Ok ([], d)
       end.

(** What the outside answers to a look at one service. *)
Record Probe : Type := mkProbe {
  http_Get : string -> res Z; redis_Ping : string -> option error;
  pgxpool_New : string -> option error; pool_Ping : string -> option error }.
Definition checkHttp (P : Probe) (url : string) : bool :=
  match http_Get P url with Err _ => false | Ok StatusCode => StatusCode =? 200 end.
Definition checkRedis (P : Probe) (url : string) : bool :=
  match redis_Ping P (TrimPrefix url "redis://") with Some _ => false | None => true end.
Definition checkPgs (P : Probe) (url : string) : bool :=
  match pgxpool_New P url with
  | Some _ => false
  | None => match pool_Ping P url with Some _ => false | None => true end
  end.
Definition checkUrl (P : Probe) (u : HealthCheckUrl) : bool :=
  if HasPrefix (h_Url u) "http" then checkHttp P (h_Url u)
  else if HasPrefix (h_Url u) "redis" then checkRedis P (h_Url u)
  else if HasPrefix (h_Url u) "postgresql" then checkPgs P (h_Url u)
  else false.

Inductive Message : Type := IsDown (name : string) | IsBackUp (name : string).

(** One tick of [Start]; each service with what is answered when it is looked at. *)
Fixpoint urls_loop (down : gmap string bool) (urls : list (HealthCheckUrl * Probe)) : gmap string bool * list Message :=
  match urls with
  | [] => (down, [])
  | (u, P) :: urls =>
      let '(down, msg) :=
        if negb (checkUrl P u) then (<[h_Name u := true]> down, [IsDown (h_Name u)])
        else match down !! h_Name u with
             | Some true => (<[h_Name u := false]> down, [IsBackUp (h_Name u)])
             | _ => (down, [])
             end in
      let '(down, msgs) := urls_loop down urls in (down, msg ++ msgs)
  end.
Definition tick (down : gmap string bool) (urls : list (HealthCheckUrl * Probe)) : gmap string bool * option (list Message) :=
  let '(down, msg) := urls_loop down urls in (down, match msg with [] => None | _ => Some msg end).
Fixpoint run (down : gmap string bool) (ticks : list (list (HealthCheckUrl * Probe))) : gmap string bool * list (list Message) :=
  match ticks with
  | [] => (down, [])
  | t :: ticks => let '(down, a) := tick down t in let '(down, alerts) := run down ticks in
                  (down, match a with Some msg => msg :: alerts | None => alerts end)
  end.

(** Reference: what is said about one service depends on this look and the one before. *)
Inductive Word : Type := Down | BackUp.
Fixpoint said (was_alive : bool) (looks : list bool) : list Word :=
  match looks with
  | [] => []
  | alive :: looks =>
      (if negb alive then [Down] else if negb was_alive then [BackUp] else []) ++ said alive looks
  end.
Definition about (name : string) (msg : list Message) : list Word :=
  omap (fun m => match m with
                 | IsDown n => if decide (n = name) then Some Down else None
                 | IsBackUp n => if decide (n = name) then Some BackUp else None
                 end) msg.
Definition looks_at (name : string) (urls : list (HealthCheckUrl * Probe)) : list bool :=
  omap (fun e => if decide (h_Name e.1 = name) then Some (checkUrl e.2 e.1) else None) urls.
Definition alive_before (down : gmap string bool) (name : string) : bool := negb (default false (down !! name)).

Lemma about_app n a b : about n (a ++ b) = about n a ++ about n b.
Proof. apply omap_app. Qed.
Lemma urls_loop_app down l1 l2 :
  urls_loop down (l1 ++ l2) = ((urls_loop (urls_loop down l1).1 l2).1, (urls_loop down l1).2 ++ (urls_loop (urls_loop down l1).1 l2).2).
Proof.
  revert down. induction l1 as [|[u P] l1 IH]; intros down; simpl; [by destruct (urls_loop down l2)|].
  destruct (if negb (checkUrl P u) then _ else _) as [down' msg]. rewrite IH. destruct (urls_loop down' l1). simpl. by rewrite app_assoc.
Qed.

(** Ticks are one loop after the other. *)
Lemma run_concat down ticks :
  (run down ticks).1 = (urls_loop down (concat ticks)).1 /\ concat (run down ticks).2 = (urls_loop down (concat ticks)).2.
Proof.
  revert down. induction ticks as [|t ticks IH]; intros down; [done|]. cbn [run concat]. unfold tick. rewrite urls_loop_app.
  destruct (urls_loop down t) as [down' msg]. destruct (IH down') as [H1 H2]. destruct (run down' ticks) as [down2 alerts].
  cbn [fst snd] in *. split; [done|]. rewrite <- H2. by destruct msg.
Qed.

Lemma urls_loop_said down urls name :
  about name (urls_loop down urls).2 = said (alive_before down name) (looks_at name urls).
Proof.
  revert down. induction urls as [|[u P] urls IH]; intros down; [done|]. cbn [urls_loop looks_at omap list_omap fst snd].
  unfold looks_at in IH. destruct (checkUrl P u) eqn:Ha; cbn [negb].
  - destruct (down !! h_Name u) as [[]|] eqn:Hl.
    + specialize (IH (<[h_Name u := false]> down)). destruct (urls_loop _ urls) as [down2 msgs]. cbn [snd] in *.
      rewrite about_app, IH. unfold about. cbn. unfold alive_before.
      destruct (decide (h_Name u = name)) as [<-|Hne]; [by rewrite lookup_insert_eq, Hl|by rewrite lookup_insert_ne].
    + specialize (IH down). destruct (urls_loop _ urls) as [down2 msgs]. cbn [snd app] in *. rewrite IH.
      destruct (decide (h_Name u = name)) as [<-|Hne]; [|done]. unfold alive_before. by rewrite Hl.
    + specialize (IH down). destruct (urls_loop _ urls) as [down2 msgs]. cbn [snd app] in *. rewrite IH.
      destruct (decide (h_Name u = name)) as [<-|Hne]; [|done]. unfold alive_before. by rewrite Hl.
  - specialize (IH (<[h_Name u := true]> down)). destruct (urls_loop _ urls) as [down2 msgs]. cbn [snd] in *.
    rewrite about_app, IH. unfold about. cbn. unfold alive_before.
    destruct (decide (h_Name u = name)) as [<-|Hne]; [by rewrite lookup_insert_eq|by rewrite lookup_insert_ne].
Qed.

(** Over any run of ticks a service is said to be down at every look that finds it
    down, and to be back up exactly at the first look that finds it alive again. *)
Theorem health_messages_exact (ticks : list (list (HealthCheckUrl * Probe))) (name : string) :
  about name (concat (run ∅ ticks).2) = said true (looks_at name (concat ticks)).
Proof. destruct (run_concat ∅ ticks) as [_ ->]. apply urls_loop_said. Qed.

(** With an interval that is readable and a chain that is neither of the two, the
    checker starts without services and never reports. *)
Lemma unknown_chain_checks_nothing Getenv GetSecret embedded d :
  Getenv "CHAIN"%string ∉ [""; "baobab"; "cypress"]%string -> ParseDuration (Getenv "HEALTH_CHECK_INTERVAL"%string) = Some d ->
  setUp Getenv GetSecret embedded = Ok ([], d).
Proof.
  intros Hc Hd. unfold setUp. rewrite Hd. rewrite (bool_decide_eq_false_2 (Getenv "CHAIN" = "")%string) by set_solver.
  rewrite (bool_decide_eq_false_2 (Getenv "CHAIN" = "baobab")%string) by set_solver.
  by rewrite (bool_decide_eq_false_2 (Getenv "CHAIN" = "cypress")%string) by set_solver.
Qed.

End Health.

(** ** [checker/peers] *)
Module Peers.
Import Alarm GoDuration.

Definition DEFAULT_PEER_CHECK_INTERVAL : Duration := 10 * second.
Record State : Type := mkState { peerCount : Z; failCount : Z }.
Inductive Message : Type := CheckFailed (times : Z) | Increased (old new : Z) | Decreased (old new : Z).

Definition checkPeerCounts (Getenv : string -> string) (Request : string -> res Z) : res Z :=
  if bool_decide (Getenv "ORAKL_NODE_ADMIN_URL" = "")%string then Err (External "ORAKL_NODE_ADMIN_URL not found")
  else Request (Getenv "ORAKL_NODE_ADMIN_URL" +:+ "/host/peercount")%string.
Definition setUp (Getenv : string -> string) (Request : string -> res Z) : res (State * Duration) :=
  let interval := interval_or (Getenv "PEER_CHECK_INTERVAL"%string) DEFAULT_PEER_CHECK_INTERVAL in
  let? initialCount := checkPeerCounts Getenv Request in Ok (mkState initialCount 0, interval).
Definition alarm (newCount oldCount : Z) : Message :=
  if oldCount <? newCount then Increased oldCount newCount else Decreased oldCount newCount.
Definition tick (count : res Z) (s : State) : State * option Message :=
  match count with
  | Err _ =>
      let failCount := wrap64 (failCount s + 1) in
      if 10 <? failCount then (mkState (peerCount s) 0, Some (CheckFailed failCount))
      else (mkState (peerCount s) failCount, None)
  | Ok newPeerCount =>
      if negb (newPeerCount =? peerCount s) then (mkState newPeerCount 0, Some (alarm newPeerCount (peerCount s)))
      else (mkState (peerCount s) 0, None)
  end.
Fixpoint run (s : State) (counts : list (res Z)) : State * list Message :=
  match counts with
  | [] => (s, [])
  | c :: counts => let '(s, a) := tick c s in let '(s, alerts) := run s counts in
                   (s, match a with Some m => m :: alerts | None => alerts end)
  end.

(** Reference: the changes between successive answers. *)
Definition answers (counts : list (res Z)) : list Z := omap (fun c => match c with Ok n => Some n | Err _ => None end) counts.
Fixpoint changes (old : Z) (l : list Z) : list (Z * Z) :=
  match l with [] => [] | n :: l => if n =? old then changes old l else (old, n) :: changes n l end.
Definition failed (counts : list (res Z)) : list bool := (fun c => match c with Ok _ => false | Err _ => true end) <$> counts.
Definition reported_changes (alerts : list Message) : list (Z * Z) :=
  omap (fun m => match m with CheckFailed _ => None | Increased o n | Decreased o n => Some (o, n) end) alerts.
Definition failure_alerts (alerts : list Message) : list Z :=
  omap (fun m => match m with CheckFailed k => Some k | _ => None end) alerts.

Lemma run_spec s counts :
  reported_changes (run s counts).2 = changes (peerCount s) (answers counts) /\
  failCount (run s counts).1 = (looks (failCount s) (failed counts)).1 /\
  length (failure_alerts (run s counts).2) = length (filter (fun v => v = Reported) (looks (failCount s) (failed counts)).2).
Proof.
  revert s. induction counts as [|c counts IH]; intros s; [done|]. cbn [run failed fmap list_fmap looks answers omap list_omap].
  fold (failed counts). fold (answers counts).
  destruct c as [n|e]; unfold tick.
  - cbn [alarm_step]. destruct (n =? peerCount s) eqn:Hn; cbn [negb changes]; breflect; subst.
    + rewrite Z.eqb_refl. destruct (IH (mkState (peerCount s) 0)) as (I1 & I2 & I3).
      destruct (run _ counts) as [s' alerts]. destruct (looks 0 (failed counts)) as [c' vs] eqn:Hl.
      cbn [fst snd peerCount failCount] in *. rewrite Hl in I2, I3. rewrite filter_cons_False by done. done.
    + rewrite (proj2 (Z.eqb_neq _ _) Hn). destruct (IH (mkState n 0)) as (I1 & I2 & I3).
      destruct (run _ counts) as [s' alerts]. destruct (looks 0 (failed counts)) as [c' vs] eqn:Hl.
      cbn [fst snd peerCount failCount] in *. rewrite Hl in I2, I3. rewrite filter_cons_False by done.
      unfold alarm, reported_changes, failure_alerts in *.
      destruct (peerCount s <? n); cbn; rewrite I1; done.
  - unfold alarm_step, AlarmOffsetPerPair, AlarmOffsetInTotal. set (k := wrap64 (failCount s + 1)).
    destruct (10 <? k) eqn:Hk; [|set (v := if 3 <? k then Totalled else Silent);
      replace (if 3 <? k then (k, Totalled) else (k, Silent)) with (k, v) by (unfold v; by destruct (3 <? k))].
    + destruct (IH (mkState (peerCount s) 0)) as (I1 & I2 & I3). cbn [failCount peerCount] in *.
      destruct (run _ counts) as [s' alerts]. destruct (looks 0 (failed counts)) as [c' vs].
      cbn [fst snd] in *. rewrite filter_cons_True by done. unfold reported_changes, failure_alerts in *. cbn. by rewrite I3.
    + destruct (IH (mkState (peerCount s) k)) as (I1 & I2 & I3). cbn [failCount peerCount] in *.
      destruct (run _ counts) as [s' alerts]. destruct (looks k (failed counts)) as [c' vs].
      cbn [fst snd] in *. rewrite filter_cons_False by (unfold v; by destruct (3 <? k)). done.
Qed.

(** Every change between successive answers is reported once, with both counts;
    failures to answer are reported at every eleventh in a row. *)
Theorem peer_alerts_exact (start : Z) (counts : list (res Z)) :
  reported_changes (run (mkState start 0) counts).2 = changes start (answers counts) /\
  failCount (run (mkState start 0) counts).1 = Z.of_nat (streak (failed counts) mod 11) /\
  length (failure_alerts (run (mkState start 0) counts).2) =
    length (filter (fun k => verdict_at (streak (take (S k) (failed counts))) = Reported) (seq 0 (length counts))).
Proof.
  destruct (run_spec (mkState start 0) counts) as (H1 & H2 & H3). rewrite H1, H2, H3. cbn [peerCount failCount].
  rewrite looks_streak. split; [done|]. split; [done|]. cbn [snd].
  unfold failed at 2. rewrite length_fmap. generalize (seq 0 (length counts)). intros l.
  induction l as [|k l IH]; [done|]. cbn [fmap list_fmap]. rewrite !filter_cons. repeat case_decide; cbn; by rewrite ?IH.
Qed.

End Peers.

(** ** [checker/signer] *)
Module SignerCheck.
Import Abi GoDuration.

(** *** [utils.go]: a copy of the contract reads of [chain/utils] with other errors and without a cache *)
Definition empty_name : error := External "empty name param for method signature".
Definition no_match : error := External "failed to find method signature match".

Definition ParseMethodSignature (name : string) : res (string * string * string) :=
  if bool_decide (name = ""%string) then Err empty_name else
  let name := ReplaceAll name newline " " in
  let name := ReplaceAll name tab " " in
  let name := TrimPrefix name "function " in
  let name := TrimSpace name in
  if Contains name "returns" then
    match find funcRegexpWithReturn (chars name) with
    | Some [m1; m2; m3; m4] => Ok (TrimSpace (text m1), TrimSpace (text m2), TrimSpace (text m4))
    | _ => Err no_match
    end
  else
    match find funcRegexpWithoutReturn (chars name) with
    | Some [m1; m2; m3] => Ok (TrimSpace (text m1), TrimSpace (text m2), ""%string)
    | _ => Err no_match
    end.

Definition arg_attribute (arg : string) : string :=
  let part := Split (TrimSpace arg) " "%char in
  let first := default ""%string (head part) in
  let last_ := default ""%string (last part) in
  if (length part <? 2)%nat then ("{" +:+ quoted "type" +:+ ":" +:+ quoted first +:+ "}")%string
  else ("{" +:+ quoted "type" +:+ ":" +:+ quoted first +:+ "," +:+ quoted "name" +:+ ":" +:+ quoted last_ +:+ "}")%string.
Definition MakeAbiFuncAttribute (args : string) : string :=
  let splittedArgs := Split args ","%char in
  if bool_decide (head splittedArgs = Some ""%string) then ""%string
  else Join ("," +:+ nl)%string (arg_attribute <$> splittedArgs).

Section package.
Context {CR : Crypto} {TP : TxPackage} {AP : AbiPackage}.
(** The dynamic types of the results; the argument that an address is. *)
Inductive unpacked : Type := UBig (z : Z) | UAddresses (l : list Address) | UOther.
Variable as_slice : Output -> option (list unpacked).
Variable addr_arg : Address -> Arg.

Definition generateABI (functionName inputs outputs stateMutability : string) (payable : bool) : res ABI :=
  if bool_decide (functionName = ""%string) then Err empty_name else
  abi_JSON (functionJson functionName (MakeAbiFuncAttribute inputs) (MakeAbiFuncAttribute outputs) stateMutability payable).
Definition GenerateViewABI (functionName inputs outputs : string) : res ABI :=
  generateABI functionName inputs outputs "view" false.
Definition ReadContract (CallContract : Address -> list Z -> res (list Z)) (functionString contractAddress : string)
    (args : list Arg) : res Output :=
  let? (functionName, inputs, outputs) := ParseMethodSignature functionString in
  let? abi := GenerateViewABI functionName inputs outputs in
  let? callData := Pack abi functionName args in
  let? result := CallContract (HexToAddress contractAddress) callData in
  Unpack abi functionName result.

(** [Dial] gives a client or fails.  [None]: a type assertion or an index panics. *)
Definition ExtractExpirationFromContract (Dial : string -> res (Address -> list Z -> res (list Z)))
    (jsonrpc submissionProxy signer : string) : option (res Time) :=
  match (let? client := Dial jsonrpc in
         ReadContract client "whitelist(address) returns ((uint256, uint256))" submissionProxy [addr_arg (HexToAddress signer)]) with
  | Err err => Some (Err err)
  | Ok readResult =>
      values ← as_slice readResult;
      v ← values !! 1%nat;
      match v with UBig rawTimestamp => Some (Ok (wrap64 rawTimestamp * second)) | _ => None end
  end.
Definition GetSignerAddresses (Dial : string -> res (Address -> list Z -> res (list Z)))
    (jsonrpc submissionProxy : string) : option (res (list string)) :=
  match (let? client := Dial jsonrpc in
         ReadContract client "function getAllOracles() public view returns (address[] memory)" submissionProxy []) with
  | Err err => Some (Err err)
  | Ok rawData =>
      hexData ← as_slice rawData;
      v ← hexData !! 0%nat;
      match v with UAddresses hexAddress => Some (Ok (Hex <$> hexAddress)) | _ => None end
  end.
End package.

(** *** [app.go] *)
Definition setUp (Getenv : string -> string) : res (Duration * string * string) :=
  let interval := interval_or (Getenv "SIGNER_CHECK_INTERVAL"%string) (24 * 3600 * second) in
  let? jsonRpcUrl := Balance.required Getenv "JSON_RPC_URL" in
  let? submissionProxy := Balance.required Getenv "SUBMISSION_PROXY_CONTRACT" in
  Ok (interval, jsonRpcUrl, submissionProxy).

Inductive Message : Type := NotRenewed (signer : string) (expiryDate : Time).
Definition six_days : Duration := 6 * 24 * 3600 * second.

(** Each signer with the expiration that was read and the clock after it.  The date
    is printed before the error is looked at: without a date the check panics. *)
Fixpoint signers_loop (signers : list (string * option (res Time) * Time)) : option (list Message) :=
  match signers with
  | [] => Some []
  | (signer, exp, now) :: signers =>
      match exp with
      | Some (Ok expiryDate) =>
          msgs ← signers_loop signers;
          Some (if (now <? expiryDate) && (expiryDate <? now + six_days) then NotRenewed signer expiryDate :: msgs else msgs)
      | _ => None
      end
  end.
Definition check (addresses : option (res (list string))) (read : string -> option (res Time)) (now : string -> Time)
    : option (option (list Message) * option error) :=
  r ← addresses;
  match r with
  | Err err => Some (None, Some err)
  | Ok signerAddresses =>
      msg ← signers_loop ((fun s => (s, read s, now s)) <$> signerAddresses);
      Some (match msg with [] => None | _ => Some msg end, None)
  end.

(** A check panics exactly when the expiration of some signer cannot be read; else it
    reports exactly the signers that expire within six days, in order. *)
Lemma signers_loop_spec l :
  match signers_loop l with
  | None => exists s e now, (s, e, now) ∈ l /\ forall t, e <> Some (Ok t)
  | Some msgs => (forall s e now, (s, e, now) ∈ l -> exists t, e = Some (Ok t)) /\
      msgs = omap (fun '(s, e, now) => match e with
        | Some (Ok t) => if decide (now < t < now + six_days) then Some (NotRenewed s t) else None | _ => None end) l
  end.
Proof.
  induction l as [|[[s e] now] l IH]; [split; [set_solver|done]|]. cbn [signers_loop].
  destruct e as [[t|err]|].
  2-3: (eexists s, _, now; split; [left|naive_solver]).
  destruct (signers_loop l) as [msgs|]; cbn [mbind option_bind].
  - destruct IH as [H1 ->]. split.
    { intros s' e' now' [Heq|Hin]%elem_of_cons; [simplify_eq; by eexists|by eapply H1]. }
    cbn [omap list_omap]. unfold six_days in *.
    destruct ((now <? t) && _) eqn:Hb; breflect; case_decide as Hd; try done; [lia|]. destruct Hb; breflect; lia.
  - destruct IH as (s' & e' & now' & Hin & He). exists s', e', now'. split; [by right|done].
Qed.

Theorem signer_check_exact (signers : list string) (read : string -> option (res Time)) (now : string -> Time) :
  match check (Some (Ok signers)) read now with
  | None => exists s, s ∈ signers /\ forall t, read s <> Some (Ok t)
  | Some (alert, err) => err = None /\ (forall s, s ∈ signers -> exists t, read s = Some (Ok t)) /\
      default [] alert = omap (fun s => match read s with
        | Some (Ok t) => if decide (now s < t < now s + six_days) then Some (NotRenewed s t) else None | _ => None end) signers
  end.
Proof.
  unfold check. cbn [mbind option_bind]. pose proof (signers_loop_spec ((fun s => (s, read s, now s)) <$> signers)) as H.
  destruct (signers_loop _) as [msgs|]; cbn [mbind option_bind].
  - destruct H as [H1 H2]. split; [done|]. split.
    + intros s Hs. apply (H1 s (read s) (now s)). apply list_elem_of_fmap. by exists s.
    + replace (default [] (match msgs with [] => None | _ => Some msgs end)) with msgs by by destruct msgs.
      rewrite H2. apply Alarm.omap_of_fmap.
  - destruct H as (s & e & n & (s' & Heq & Hin)%list_elem_of_fmap & He). simplify_eq. by exists s'.
Qed.

End SignerCheck.

(** ** [checker/dalstats] *)
Module DalStats.

Record DBKey : Type := mkKey { Key : string; Description : option string }.
Definition skippingKeys : list string := ["test"; "sentinel"; "orakl_reporter"]%string.
Inductive Message : Type := Calls (client : string) (rest connections subscriptions : Z).
(** The counts of the three queries for a key. *)
Record Queries : Type := mkQueries { restCalls : string -> res Z; websocketConnections : string -> res Z; websocketSubscriptions : string -> res Z }.

(** [None]: a key without a description panics. *)
Fixpoint keys_loop (Q : Queries) (keys : list DBKey) : option (res (list Message)) :=
  match keys with
  | [] => Some (Ok [])
  | key :: keys =>
      description ← Description key;
      if bool_decide (description ∈ skippingKeys) then keys_loop Q keys else
      match (let? r := restCalls Q (Key key) in let? c := websocketConnections Q (Key key) in
             let? s := websocketSubscriptions Q (Key key) in Ok (Calls description r c s)) with
      | Err err => Some (Err err)
      | Ok m => rest ← keys_loop Q keys; Some (let? msgs := rest in Ok (m :: msgs))
      end
  end.
Definition dalDBStats (Q : Queries) (keys : res (list DBKey)) : option (option (list Message) * option error) :=
  match keys with
  | Err err => Some (None, Some err)
  | Ok keys =>
      r ← keys_loop Q keys;
      match r with
      | Err err => Some (None, Some err)
      | Ok [] => Some (None, None)
      | Ok msg => Some (Some msg, None)
      end
  end.

(** With descriptions for all keys and answers to all queries the report names
    exactly the clients that are not skipped; a key without a description that is
    reached panics. *)
Lemma keys_loop_spec Q keys :
  (forall k, exists r c s, restCalls Q k = Ok r /\ websocketConnections Q k = Ok c /\ websocketSubscriptions Q k = Ok s) ->
  match keys_loop Q keys with
  | Some (Ok msgs) => (fun m => match m with Calls d _ _ _ => d end) <$> msgs =
                      filter (fun d => d ∉ skippingKeys) (omap Description keys) /\ Forall (fun k => is_Some (Description k)) keys
  | Some (Err _) => False
  | None => exists k, k ∈ keys /\ Description k = None
  end.
Proof.
  intros HQ. induction keys as [|[key d] keys IH]; [done|]. cbn [keys_loop Description Key].
  destruct d as [d|]; cbn [mbind option_bind]; [|exists (mkKey key None); split; [left|done]].
  cbn [omap list_omap Description]. case_bool_decide as Hd.
  - rewrite filter_cons_False by tauto. destruct (keys_loop Q keys) as [[msgs|]|]; [|done|].
    + destruct IH as [-> Hk]. split; [done|]. by constructor.
    + destruct IH as (k & Hin & Hk). exists k. split; [by right|done].
  - rewrite filter_cons_True by done. destruct (HQ key) as (r & c & s & -> & -> & ->). cbn [res_bind].
    destruct (keys_loop Q keys) as [[msgs|]|]; cbn [mbind option_bind res_bind]; [|done|].
    + destruct IH as [IH Hk]. cbn [fmap list_fmap]. rewrite IH. split; [done|]. by constructor.
    + destruct IH as (k & Hin & Hk). exists k. split; [by right|done].
Qed.

End DalStats.

(** ** [checker/dbcronjob] *)
Module CronJob.
Record CronJobResult : Type := mkResult { Database : string; Command : string; Status : string; StartTime : Time }.
Definition GetLast6hrsCronjobRuns : string :=
  "SELECT database, command, status, start_time FROM cron.job_run_details WHERE start_time >= NOW() - interval '6 hour' AND status = 'failed'".
(** The message lists the rows. *)
Definition cronDBResult (query : string -> res (list CronJobResult)) : option (list CronJobResult) * option error :=
  match query GetLast6hrsCronjobRuns with
  | Err err => (None, Some err)
  | Ok [] => (None, None)
  | Ok result => (Some result, None)
  end.
End CronJob.

(** ** [alert.go] *)
Module Alert.
Import Reducer.

Definition DefaultSlackTimeout : Duration := 5 * second.
Record SlackClient : Type := mkSlackClient { WebHookUrl : string; UserName : string; Channel : string; TimeOut : Duration }.
Record SimpleSlackRequest : Type := mkSimple { s_Text : string; s_IconEmoji : string }.
Record SlackJobNotification : Type := mkJob { j_Color : string; j_IconEmoji : string; Details : string; j_Text : string }.
(** The fields of an attachment that are ever set; [Ts] is a number written as text. *)
Record Attachment : Type := mkAttachment { a_Color : string; a_Text : string; Ts : Z }.
Record SlackMessage : Type := mkMessage {
  m_Username : string; m_IconEmoji : string; m_Channel : string; m_Text : string; Attachments : list Attachment }.

(** A POST: the address, the body, and the timeout of the client, zero for none. *)
Record Post : Type := mkPost { p_url : string; p_body : json; p_timeout : Duration }.

(** Empty fields are left out of the body. *)
Definition omitempty (key v : string) : list (string * json) :=
  if bool_decide (v = "")%string then [] else [(key, JStr v)].
Definition attachment_json (a : Attachment) : json :=
  JObj (omitempty "color" (a_Color a) ++ omitempty "text" (a_Text a) ++ [("ts"%string, JNum (of_int (Ts a)))]).
Definition message_json (m : SlackMessage) : json :=
  JObj (omitempty "username" (m_Username m) ++ omitempty "icon_emoji" (m_IconEmoji m) ++ omitempty "channel" (m_Channel m)
        ++ omitempty "text" (m_Text m)
        ++ match Attachments m with [] => [] | l => [("attachments"%string, JArr (attachment_json <$> l))] end).

(** [SlackAlert] posts with the default client, which has no timeout; what comes back is only logged. *)
Definition SlackAlert (WEBHOOK_ENDPOINT text : string) : Post :=
  mkPost WEBHOOK_ENDPOINT (JObj [("text"%string, JStr text)]) 0.

Section client.
(** Parsing of the address, and the answer to a post: the status. *)
Variables (NewRequest : string -> option error) (Do_ : Post -> res Z).

Definition sendHttpRequest (sc : SlackClient) (slackRequest : SlackMessage) : list Post * option error :=
  match NewRequest (WebHookUrl sc) with
  | Some err => ([], Some err)
  | None =>
      let timeout := if TimeOut sc =? 0 then DefaultSlackTimeout else TimeOut sc in
      let req := mkPost (WebHookUrl sc) (message_json slackRequest) timeout in
      match Do_ req with
      | Err err => ([req], Some err)
      | Ok status => ([req], if negb (status =? 200) then Some (External "non-ok response returned from slack") else None)
      end
  end.
Definition SendSlackNotification (sc : SlackClient) (sr : SimpleSlackRequest) : list Post * option error :=
  sendHttpRequest sc (mkMessage (UserName sc) (s_IconEmoji sr) (Channel sc) (s_Text sr) []).
Definition SendJobNotification (now : Z) (sc : SlackClient) (job : SlackJobNotification) : list Post * option error :=
  sendHttpRequest sc (mkMessage (UserName sc) (j_IconEmoji job) (Channel sc) (j_Text job)
    [mkAttachment (j_Color job) (Details job) now]).
Definition funcName (now : Z) (sc : SlackClient) (color message : string) (options : list string) : list Post * option error :=
  let emoji := match options with [] => ":hammer_and_wrench"%string | o :: _ => o end in
  SendJobNotification now sc (mkJob color emoji message "").
Definition SendError (now : Z) (sc : SlackClient) (message : string) (options : list string) := funcName now sc "danger" message options.
Definition SendInfo (now : Z) (sc : SlackClient) (message : string) (options : list string) := funcName now sc "good" message options.
Definition SendWarning (now : Z) (sc : SlackClient) (message : string) (options : list string) := funcName now sc "warning" message options.

(** At most one request, always with a timeout; no error exactly when it is answered with status 200. *)
Lemma sendHttpRequest_spec sc m :
  let '(sent, err) := sendHttpRequest sc m in
  (length sent <= 1)%nat /\ Forall (fun p => p_timeout p <> 0) sent /\
  (err = None <-> exists p, sent = [p] /\ Do_ p = Ok 200).
Proof.
  unfold sendHttpRequest. destruct (NewRequest _); [|].
  { split; [simpl; lia|]. split; [done|]. split; [done|]. by intros (p & ? & _). }
  set (req := mkPost _ _ _).
  assert (p_timeout req <> 0) as Ht by (cbn; destruct (TimeOut sc =? 0) eqn:E; [done|by apply Z.eqb_neq in E]).
  destruct (Do_ req) as [status|] eqn:Hd; (split; [simpl; lia|split; [by repeat constructor|]]).
  - destruct (status =? 200) eqn:Hs; breflect; cbn [negb]; split; try done; [intros _; exists req; naive_solver|].
    intros (p & [= <-] & Hp). congruence.
  - split; [done|]. intros (p & [= <-] & Hp). congruence.
Qed.
End client.

End Alert.

(** ** [checker/inspect] *)
Module Inspect.
Import Abi Chain.

Definition CallbackGasLimit : Z := 500000.
Definition RequestVRFSignature : string := "requestVRF(
        bytes32 keyHash,
        uint64 accId,
        uint32 callbackGasLimit,
        uint32 numWords
    ) public returns (uint256)".
Definition RequestRRSignature : string := "requestRR(
        uint64 accId,
        uint32 callbackGasLimit
    ) public returns (uint256)".
Definition ReadRandomWordSignature : string := "sRandomWord() public view returns (uint256)".
Definition ReadResponseSignature : string := "sResponse() public view returns (uint128)".
Definition VRFRequestIdSignature : string := "vrfRequestId() public view returns (uint256)".
Definition RRRequestIdSignature : string := "rrRequestId() public view returns (uint256)".

Section inspect.
Context {CR : Crypto} {TP : TxPackage} {AP : AbiPackage}.
(** The dynamic types of arguments and results; [Hex2Bytes] of the chain library. *)
Variables (bytes32_arg : list Z -> Arg) (uint64_arg uint32_arg : Z -> Arg).
Variable as_slice : Output -> option (list (option Z)).
Variable Hex2Bytes : string -> list Z.

Record Inspector : Type := mkInspector { chainHelper : ChainHelper; address : string; accountID : string; keyHash : string }.

Definition Setup (GetSecret : string -> string) (Getenv : string -> string) (H : HelperEnv) : option (res Inspector) :=
  let pk := GetSecret "INSPECTOR_PK"%string in
  if bool_decide (pk = "")%string then Some (Err (External "missing INSPECTOR_PK")) else
  if bool_decide (Getenv "ACC_ID" = "")%string then Some (Err (External "missing ACC_ID")) else
  if bool_decide (Getenv "VRF_KEYHASH" = "")%string then Some (Err (External "missing VRF_KEYHASH")) else
  if bool_decide (Getenv "INSPECT_CONSUMER_ADDRESS" = "")%string then Some (Err (External "missing INSPECT_CONSUMER_ADDRESS")) else
  r ← NewChainHelper H [WithReporterPk pk];
  Some (let? h := r in Ok (mkInspector h (Getenv "INSPECT_CONSUMER_ADDRESS"%string) (Getenv "ACC_ID"%string) (Getenv "VRF_KEYHASH"%string))).

(** What the chain answers to one half of an inspection: the reads in order, and the request. *)
Record Half : Type := mkHalf {
  call : nat -> Address -> list Z -> res (list Z); pending : Address -> res uint64; client : ClientAnswers; submit : SubmitAnswers }.

(** [strconv.ParseUint(s, 10, 64)]. *)
Definition ParseUint (s : string) : option Z := n ← Text.value 10 (chars s); if n <? 2 ^ 64 then Some n else None.
Definition syntax_error : error := External "invalid syntax".
(** [copy(keyHash[:], bytes)]. *)
Definition to32 (bs : list Z) : list Z := take 32 (bs ++ replicate 32 0).

(** The transactions that are sent, with the error. *)
Definition request (E : Half) (i : Inspector) (cache : AbiCache) (signature : string) (args : Z -> list Arg)
    : list Tx * option error * AbiCache :=
  match ParseUint (accountID i) with
  | None => ([], Some syntax_error, cache)
  | Some account =>
      match helper_MakeDirectTx cache (client E) (pending E) (chainHelper i) (address i) signature (args account) with
      | (Err err, cache) => ([], Some err, cache)
      | (Ok tx, cache) => (SubmitRawTx (submit E) tx, cache)
      end
  end.
Definition requestVRF (E : Half) (i : Inspector) (cache : AbiCache) : list Tx * option error * AbiCache :=
  let hash := to32 (Hex2Bytes (TrimPrefix (keyHash i) "0x")) in
  request E i cache RequestVRFSignature (fun account => [bytes32_arg hash; uint64_arg account; uint32_arg CallbackGasLimit; uint32_arg 1]).
Definition requestRR (E : Half) (i : Inspector) (cache : AbiCache) : list Tx * option error * AbiCache :=
  request E i cache RequestRRSignature (fun account => [uint64_arg account; uint32_arg CallbackGasLimit]).

(** [None]: the first result is missing or is not an integer. *)
Definition readBigIntValueFromContract (E : Half) (k : nat) (i : Inspector) (cache : AbiCache) (signature : string)
    : option (res Z * AbiCache) :=
  match ReadContract cache (Some (call E k)) signature (address i) [] with
  | (Err err, cache) => Some (Err err, cache)
  | (Ok rawResult, cache) =>
      match as_slice rawResult with
      | None => Some (Err (External "failed to parse result"), cache)
      | Some l => first ← l !! 0%nat; z ← first; Some (Ok z, cache)
      end
  end.

(** One half: two reads, the request, two reads; the verdict is that both values changed. *)
Definition inspect_half (E : Half) (i : Inspector) (cache : AbiCache) (valueSignature idSignature : string)
    (request : AbiCache -> list Tx * option error * AbiCache) : option (list Tx * res bool * AbiCache) :=
  '(before, cache) ← readBigIntValueFromContract E 0 i cache valueSignature;
  match before with Err err => Some ([], Err err, cache) | Ok before =>
  '(idBefore, cache) ← readBigIntValueFromContract E 1 i cache idSignature;
  match idBefore with Err err => Some ([], Err err, cache) | Ok idBefore =>
  let '(txs, err, cache) := request cache in
  match err with Some err => Some (txs, Err err, cache) | None =>
  '(after, cache) ← readBigIntValueFromContract E 2 i cache valueSignature;
  match after with Err err => Some (txs, Err err, cache) | Ok after =>
  '(idAfter, cache) ← readBigIntValueFromContract E 3 i cache idSignature;
  match idAfter with Err err => Some (txs, Err err, cache) | Ok idAfter =>
  Some (txs, Ok (negb ((before =? after) || (idBefore =? idAfter))), cache)
  end end end end end.
Definition inspectVRF (E : Half) (i : Inspector) (cache : AbiCache) : option (list Tx * res bool * AbiCache) :=
  inspect_half E i cache ReadRandomWordSignature VRFRequestIdSignature (requestVRF E i).
Definition inspectRR (E : Half) (i : Inspector) (cache : AbiCache) : option (list Tx * res bool * AbiCache) :=
  inspect_half E i cache ReadResponseSignature RRRequestIdSignature (requestRR E i).

(** The verdicts on VRF and on request-response, with all transactions. *)
Definition Inspect (E1 E2 : Half) (i : Inspector) (cache : AbiCache) : option (list Tx * res (bool * bool) * AbiCache) :=
  '(txs1, r1, cache) ← inspectVRF E1 i cache;
  match r1 with
  | Err err => Some (txs1, Err err, cache)
  | Ok vrf =>
      '(txs2, r2, cache) ← inspectRR E2 i cache;
      Some (txs1 ++ txs2, (let? rr := r2 in Ok (vrf, rr)), cache)
  end.

Lemma request_one E i cache signature args txs err cache' :
  request E i cache signature args = (txs, err, cache') -> (length txs <= 1)%nat /\ (err = None -> length txs = 1%nat).
Proof.
  unfold request, SubmitRawTx. destruct (ParseUint _); [destruct (helper_MakeDirectTx _ _ _ _ _ _ _) as [[tx|e] c]|];
    [destruct (SendTransaction _ tx); [|destruct (WaitMined _ tx)]|..]; intros [= <- <- <-]; simpl; split; (lia || done).
Qed.

Lemma inspect_half_one E i cache v d signature args txs r cache' :
  inspect_half E i cache v d (fun c => request E i c signature args) = Some (txs, r, cache') ->
  (length txs <= 1)%nat /\ (forall b, r = Ok b -> length txs = 1%nat).
Proof.
  unfold inspect_half. destruct (readBigIntValueFromContract E 0 _ _ _) as [[[b|] c0]|]; [|intros; simplify_eq/=; split; [lia|done]|done].
  cbn [mbind option_bind]. destruct (readBigIntValueFromContract E 1 _ _ _) as [[[ib|] c1]|]; [|intros; simplify_eq/=; split; [lia|done]|done].
  cbn [mbind option_bind]. destruct (request E i c1 signature args) as [[txs' err] c2] eqn:Hr.
  pose proof (request_one _ _ _ _ _ _ _ _ Hr) as [H1 H2]. destruct err as [err|]; [intros; simplify_eq/=; split; [lia|done]|].
  destruct (readBigIntValueFromContract E 2 _ _ _) as [[[a|] c3]|]; [|intros; simplify_eq/=; split; [lia|done]|done].
  cbn [mbind option_bind]. destruct (readBigIntValueFromContract E 3 _ _ _) as [[[ia|] c4]|]; [|intros; simplify_eq/=; split; [lia|done]|done].
  cbn [mbind option_bind]. intros. simplify_eq/=. split; [lia|]. intros _ _. by apply H2.
Qed.

(** An inspection sends at most two transactions, and exactly two when it gives verdicts. *)
Lemma inspect_transactions E1 E2 i cache txs r cache' :
  Inspect E1 E2 i cache = Some (txs, r, cache') ->
  (length txs <= 2)%nat /\ (forall vs, r = Ok vs -> length txs = 2%nat).
Proof.
  unfold Inspect, inspectVRF, inspectRR, requestVRF, requestRR.
  destruct (inspect_half E1 _ _ _ _ _) as [[[t1 r1] c1]|] eqn:H1; [|done]. apply inspect_half_one in H1 as [L1 L1'].
  cbn [mbind option_bind]. destruct r1 as [vrf|err]; [|intros; simplify_eq/=; split; [lia|done]].
  destruct (inspect_half E2 _ _ _ _ _) as [[[t2 r2] c2]|] eqn:H2; [|done]. apply inspect_half_one in H2 as [L2 L2'].
  cbn [mbind option_bind]. intros. simplify_eq/=. rewrite length_app. split; [lia|].
  intros vs Hvs. destruct r2 as [rr|]; [|done]. specialize (L1' _ eq_refl). specialize (L2' _ eq_refl). lia.
Qed.
End inspect.

End Inspect.
