(* ===== verification/Admin.v ===== *)
(** * The admin API

    [node/pkg/admin]: the synchronisation of configs and feeds with the published
    list, the handlers of configs, feeds, proxies and provider addresses, and the
    handlers that pass commands to the other parts of a node over the bus.

    The tables of the database are maps by their unique keys, as the migrations
    under [node/migrations/node] declare them: configs by name, feeds by name and
    config, with a foreign key that deletes the feeds of a deleted config.  A
    statement runs as a whole or fails and changes nothing; of a statement that
    [QueryWithoutResult] sends, only a failure to send is reported, and a failure
    while it runs is dropped. *)

From S2P Require Import Prelude Errors Wire Text Signing Bus.
Import Text Bus.

Local Open Scope Z_scope.
Local Open Scope go_scope.

(** ** [admin/config] *)
Module Config.

Section config.
(** The definition of a feed is JSON, kept as it is. *)
Context {D : Type}.

Record FeedInsertModel : Type := mkFeedInsert { fi_Name : string; fi_Definition : option D }.
Record ConfigInsertModel : Type := mkConfigInsert {
  ci_Name : string; ci_FetchInterval : option Z; ci_AggregateInterval : option Z; ci_SubmitInterval : option Z;
  ci_Feeds : list FeedInsertModel }.

(** Rows without the columns of their key. *)
Record ConfigModel : Type := mkConfig { c_ID : Z; FetchInterval : Z; AggregateInterval : Z; SubmitInterval : Z }.
Record FeedModel : Type := mkFeed { f_ID : Z; Definition_ : D }.
(** [next_config] and [next_feed] are the sequences of the ids. *)
Record Tables : Type := mkTables {
  configs : gmap string ConfigModel; feeds : gmap (string * Z) FeedModel; next_config : Z; next_feed : Z }.

(** *** Statements *)
Definition syntax_error : error := External "syntax error".
Definition null_violation : error := External "null value violates not-null constraint".
Definition twice : error := External "ON CONFLICT DO UPDATE command cannot affect row a second time".
Definition unique_violation : error := External "duplicate key value violates unique constraint".

(** [DELETE FROM configs WHERE id IN (...)], with the feeds of the configs. *)
Definition delete_configs (ids : list Z) (t : Tables) : Tables :=
  mkTables (filter (fun kv => c_ID kv.2 ∉ ids) (configs t)) (filter (fun kv => kv.1.2 ∉ ids) (feeds t))
    (next_config t) (next_feed t).
Definition delete_feeds (ids : list Z) (t : Tables) : Tables :=
  mkTables (configs t) (filter (fun kv => f_ID kv.2 ∉ ids) (feeds t)) (next_config t) (next_feed t).

(** A row of the bulk upsert: an id is drawn from the sequence in any case. *)
Definition upsert_config (t : Tables) (row : string * (Z * Z * Z)) : Tables :=
  let '(name, (f, a, s)) := row in
  let id := match configs t !! name with Some c => c_ID c | None => next_config t end in
  mkTables (<[name := mkConfig id f a s]> (configs t)) (feeds t) (next_config t + 1) (next_feed t).
Definition upsert_feed (t : Tables) (row : string * D * Z) : Tables :=
  let '(name, d, config) := row in
  let id := match feeds t !! (name, config) with Some f => f_ID f | None => next_feed t end in
  mkTables (configs t) (<[(name, config) := mkFeed id d]> (feeds t)) (next_config t) (next_feed t + 1).

(** [db.BulkUpsert] for both tables: without rows the text is not a statement. *)
Definition config_row (c : ConfigInsertModel) : option (string * (Z * Z * Z)) :=
  f ← ci_FetchInterval c; a ← ci_AggregateInterval c; s ← ci_SubmitInterval c; Some (ci_Name c, (f, a, s)).
Definition bulkUpsertConfigs (configs : list ConfigInsertModel) (t : Tables) : Tables * option error :=
  match configs with
  | [] => (t, Some syntax_error)
  | _ =>
      match mapM config_row configs with
      | None => (t, Some null_violation)
      | Some rows => if decide (NoDup rows.*1) then (foldl upsert_config t rows, None) else (t, Some twice)
      end
  end.
Definition feed_row (r : string * option D * Z) : option (string * D * Z) :=
  let '(name, d, config) := r in d ← d; Some (name, d, config).
Definition bulkUpsertFeeds (rows : list (string * option D * Z)) (t : Tables) : Tables * option error :=
  match rows with
  | [] => (t, Some syntax_error)
  | _ =>
      match mapM feed_row rows with
      | None => (t, Some null_violation)
      | Some rows => if decide (NoDup ((fun r => (r.1.1, r.2)) <$> rows)) then (foldl upsert_feed t rows, None)
                     else (t, Some twice)
      end
  end.

(** *** Synchronisation *)
Definition getConfigUrl (Getenv : string -> string) : string :=
  let chain := if bool_decide (Getenv "CHAIN" = "")%string then "baobab"%string else Getenv "CHAIN"%string in
  ("https://config.orakl.network/" +:+ chain +:+ "_configs.json")%string.

Definition feed_names (loaded : list ConfigInsertModel) : list string := loaded ≫= fun c => fi_Name <$> ci_Feeds c.
(** The ids of rows that the list does not name. *)
Definition removingConfigs (loaded : list ConfigInsertModel) (t : Tables) : list Z :=
  omap (fun kv => if decide (kv.1 ∈ ci_Name <$> loaded) then None else Some (c_ID kv.2)) (map_to_list (configs t)).
Definition removingFeeds (loaded : list ConfigInsertModel) (t : Tables) : list Z :=
  omap (fun kv => if decide (kv.1.1 ∈ feed_names loaded) then None else Some (f_ID kv.2)) (map_to_list (feeds t)).
Definition feed_rows (loaded : list ConfigInsertModel) (ids : gmap string Z) : list (string * option D * Z) :=
  loaded ≫= fun c => match ids !! ci_Name c with
                     | None => []
                     | Some id => (fun f => (fi_Name f, fi_Definition f, id)) <$> ci_Feeds c
                     end.

(** [fault k]: the error of the [k]-th statement, when the database fails.  The
    two deletions are sent with [QueryWithoutResult]: [fault] is then an error of
    sending them, and [lost k] says that the statement failed while it ran, which
    leaves the rows and reports nothing. *)
Definition sync (loaded : res (list ConfigInsertModel)) (fault : nat -> option error) (lost : nat -> bool) (t : Tables)
    : Tables * option error :=
  match loaded with Err err => (t, Some err) | Ok loaded =>
  match fault 0%nat with Some err => (t, Some err) | None =>
  let gone := removingConfigs loaded t in
  match (match gone with [] => None | _ => fault 1%nat end) with Some err => (t, Some err) | None =>
  let t := if lost 1%nat then t else delete_configs gone t in
  match fault 2%nat with Some err => (t, Some err) | None =>
  let gone := removingFeeds loaded t in
  match (match gone with [] => None | _ => fault 3%nat end) with Some err => (t, Some err) | None =>
  let t := if lost 3%nat then t else delete_feeds gone t in
  match fault 4%nat with Some err => (t, Some err) | None =>
  match bulkUpsertConfigs loaded t with (t, Some err) => (t, Some err) | (t, None) =>
  match fault 5%nat with Some err => (t, Some err) | None =>
  let ids := c_ID <$> filter (fun kv => kv.1 ∈ ci_Name <$> loaded) (configs t) in
  match fault 6%nat with Some err => (t, Some err) | None =>
  bulkUpsertFeeds (feed_rows loaded ids) t
  end end end end end end end end end.

(** *** Handlers *)
Definition setDefaultIntervals (c : ConfigInsertModel) : ConfigInsertModel :=
  let or_default x d := match x with None | Some 0 => Some d | Some v => Some v end in
  mkConfigInsert (ci_Name c) (or_default (ci_FetchInterval c) 2000) (or_default (ci_AggregateInterval c) 3000)
    (or_default (ci_SubmitInterval c) 15000) (ci_Feeds c).

(** The insertion of the feeds one by one, up to the first error that [QueryWithoutResult] reports: it does not read the
    outcome of the statement, so that a row that violates a constraint is left out without an error. *)
Fixpoint insert_feeds (fault : nat -> option error) (k : nat) (id : Z) (l : list FeedInsertModel) (t : Tables)
    : Tables * option error :=
  match l with
  | [] => (t, None)
  | f :: l =>
      match fault k with Some err => (t, Some err) | None =>
      insert_feeds fault (S k) id l
        match fi_Definition f, feeds t !! (fi_Name f, id) with
        | Some d, None => upsert_feed t (fi_Name f, d, id)
        | _, _ => mkTables (configs t) (feeds t) (next_config t) (next_feed t + 1)
        end
      end
  end.
Definition Insert (body : res ConfigInsertModel) (fault : nat -> option error) (t : Tables)
    : Tables * res (string * ConfigModel) :=
  match body with
  | Err err => (t, Err err)
  | Ok config =>
      let config := setDefaultIntervals config in
      match fault 0%nat with Some err => (t, Err err) | None =>
      match configs t !! ci_Name config, config_row config with
      | Some _, _ => (mkTables (configs t) (feeds t) (next_config t + 1) (next_feed t), Err unique_violation)
      | None, None => (t, Err null_violation)
      | None, Some row =>
          let id := next_config t in
          let '(t, err) := insert_feeds fault 1 id (ci_Feeds config) (upsert_config t row) in
          match err with
          | Some err => (t, Err err)
          | None => (t, let '(name, (f, a, s)) := row in Ok (name, mkConfig id f a s))
          end
      end
      end
  end.
Definition Get (fault : option error) (t : Tables) : res (list (string * ConfigModel)) :=
  match fault with Some err => Err err | None => Ok (map_to_list (configs t)) end.
(** No row is read as a row of zeros, which is [None] here. *)
Definition GetById (id : Z) (fault : option error) (t : Tables) : res (option (string * ConfigModel)) :=
  match fault with
  | Some err => Err err
  | None => Ok (head (filter (fun kv => c_ID kv.2 = id) (map_to_list (configs t))))
  end.
Definition DeleteById (id : Z) (fault : option error) (t : Tables) : Tables * res (option (string * ConfigModel)) :=
  match GetById id fault t with
  | Err err => (t, Err err)
  | Ok r => (delete_configs [id] t, Ok r)
  end.

(** [admin/feed]: the rows of the feeds, by id and by config. *)
Definition feed_get (fault : option error) (t : Tables) : res (list (string * Z * FeedModel)) :=
  match fault with Some err => Err err | None => Ok (map_to_list (feeds t)) end.
Definition feed_getById (id : Z) (fault : option error) (t : Tables) : res (option (string * Z * FeedModel)) :=
  match fault with
  | Some err => Err err
  | None => Ok (head (filter (fun kv => f_ID kv.2 = id) (map_to_list (feeds t))))
  end.
Definition getByConfigId (id : Z) (fault : option error) (t : Tables) : res (list (string * Z * FeedModel)) :=
  match fault with
  | Some err => Err err
  | None => Ok (filter (fun kv => kv.1.2 = id) (map_to_list (feeds t)))
  end.

(** *** The invariant of the tables *)
Record wf (t : Tables) : Prop := mkWf {
  wf_configs : forall n1 n2 c1 c2, configs t !! n1 = Some c1 -> configs t !! n2 = Some c2 -> c_ID c1 = c_ID c2 -> n1 = n2;
  wf_next : forall n c, configs t !! n = Some c -> c_ID c < next_config t;
  wf_feeds : forall k1 k2 f1 f2, feeds t !! k1 = Some f1 -> feeds t !! k2 = Some f2 -> f_ID f1 = f_ID f2 -> k1 = k2;
  wf_next_feed : forall k f, feeds t !! k = Some f -> f_ID f < next_feed t;
  wf_foreign : forall n id f, feeds t !! (n, id) = Some f -> exists name c, configs t !! name = Some c /\ c_ID c = id }.

Lemma lookup_delete_configs ids t n c :
  configs (delete_configs ids t) !! n = Some c <-> configs t !! n = Some c /\ c_ID c ∉ ids.
Proof. unfold delete_configs. cbn [configs]. by rewrite map_lookup_filter_Some. Qed.
Lemma lookup_delete_configs_feeds ids t k f :
  feeds (delete_configs ids t) !! k = Some f <-> feeds t !! k = Some f /\ k.2 ∉ ids.
Proof. unfold delete_configs. cbn [feeds]. by rewrite map_lookup_filter_Some. Qed.
Lemma lookup_delete_feeds ids t k f :
  feeds (delete_feeds ids t) !! k = Some f <-> feeds t !! k = Some f /\ f_ID f ∉ ids.
Proof. unfold delete_feeds. cbn [feeds]. by rewrite map_lookup_filter_Some. Qed.

Lemma wf_delete_configs ids t : wf t -> wf (delete_configs ids t).
Proof.
  intros [H1 H2 H3 H4 H5]. constructor.
  - intros n1 n2 c1 c2 [? _]%lookup_delete_configs [? _]%lookup_delete_configs. by eapply H1.
  - intros n c [? _]%lookup_delete_configs. by eapply H2.
  - intros k1 k2 f1 f2 [? _]%lookup_delete_configs_feeds [? _]%lookup_delete_configs_feeds. by eapply H3.
  - intros k f [? _]%lookup_delete_configs_feeds. by eapply H4.
  - intros n id f [Hf Hid]%lookup_delete_configs_feeds. destruct (H5 _ _ _ Hf) as (name & c & Hc & <-).
    exists name, c. split; [|done]. by apply lookup_delete_configs.
Qed.

Lemma wf_delete_feeds ids t : wf t -> wf (delete_feeds ids t).
Proof.
  intros [H1 H2 H3 H4 H5]. constructor; [exact H1|exact H2|..].
  - intros k1 k2 f1 f2 [? _]%lookup_delete_feeds [? _]%lookup_delete_feeds. by eapply H3.
  - intros k f [? _]%lookup_delete_feeds. by eapply H4.
  - intros n id f [Hf _]%lookup_delete_feeds. by eapply H5.
Qed.

Lemma wf_upsert_config t row : wf t -> wf (upsert_config t row).
Proof.
  destruct row as [name [[f a] s]]. intros [H1 H2 H3 H4 H5]. unfold upsert_config.
  set (id := match configs t !! name with Some c => c_ID c | None => next_config t end).
  assert (Hid : forall n c, configs t !! n = Some c -> c_ID c = id -> n = name).
  { intros n c Hn Heq. unfold id in Heq. destruct (configs t !! name) as [c0|] eqn:H0; [by eapply H1|].
    apply H2 in Hn. lia. }
  constructor; cbn [configs feeds next_config next_feed]; [..|exact H3|exact H4|].
  - intros n1 n2 c1 c2. rewrite !lookup_insert_Some. intros [[<- <-]|[? Hn1]] [[<- <-]|[? Hn2]] Heq; [done|..].
    + symmetry. by eapply Hid.
    + by eapply Hid.
    + by eapply H1.
  - intros n c. rewrite lookup_insert_Some. intros [[<- <-]|[? Hn]]; [|apply H2 in Hn; lia].
    cbn. unfold id. destruct (configs t !! name) as [c0|] eqn:H0; [apply H2 in H0; lia|lia].
  - intros n i g Hg. destruct (H5 _ _ _ Hg) as (name' & c & Hc & Hi). destruct (decide (name' = name)) as [->|Hne].
    + exists name, (mkConfig id f a s). rewrite lookup_insert_eq. split; [done|]. cbn. unfold id. by rewrite Hc.
    + exists name', c. by rewrite lookup_insert_ne.
Qed.

Lemma wf_upsert_feed t name d id :
  wf t -> (exists n c, configs t !! n = Some c /\ c_ID c = id) -> wf (upsert_feed t (name, d, id)).
Proof.
  intros [H1 H2 H3 H4 H5] Hc. unfold upsert_feed.
  set (i := match feeds t !! (name, id) with Some f => f_ID f | None => next_feed t end).
  assert (Hid : forall k f, feeds t !! k = Some f -> f_ID f = i -> k = (name, id)).
  { intros k f Hk Heq. unfold i in Heq. destruct (feeds t !! (name, id)) as [f0|] eqn:H0; [by eapply H3|].
    apply H4 in Hk. lia. }
  constructor; cbn [configs feeds next_config next_feed]; [exact H1|exact H2|..].
  - intros k1 k2 f1 f2. rewrite !lookup_insert_Some. intros [[<- <-]|[? Hn1]] [[<- <-]|[? Hn2]] Heq; [done|..].
    + symmetry. by eapply Hid.
    + by eapply Hid.
    + by eapply H3.
  - intros k f. rewrite lookup_insert_Some. intros [[<- <-]|[? Hn]]; [|apply H4 in Hn; lia].
    cbn. unfold i. destruct (feeds t !! (name, id)) as [f0|] eqn:H0; [apply H4 in H0; lia|lia].
  - intros n j f. rewrite lookup_insert_Some. intros [[[= <- <-] <-]|[? Hn]]; [exact Hc|]. by eapply H5.
Qed.

(** *** Bulk upserts *)
Lemma upsert_configs_wf rows t : wf t -> wf (foldl upsert_config t rows).
Proof. revert t. induction rows as [|r rows IH]; intros t Ht; [done|]. simpl. by apply IH, wf_upsert_config. Qed.

Lemma upsert_configs_feeds rows t : feeds (foldl upsert_config t rows) = feeds t.
Proof. revert t. induction rows as [|[n [[f a] s]] rows IH]; intros t; [done|]. simpl. by rewrite IH. Qed.

(** Rows of distinct names: those are stored, with the id of a row of before; the others stay. *)
Lemma upsert_configs_lookup rows t n :
  NoDup rows.*1 ->
  match list_to_map (M := gmap string _) rows !! n with
  | Some (f, a, s) => exists id, configs (foldl upsert_config t rows) !! n = Some (mkConfig id f a s) /\
                      forall c, configs t !! n = Some c -> id = c_ID c
  | None => configs (foldl upsert_config t rows) !! n = configs t !! n
  end.
Proof.
  revert t. induction rows as [|[name [[f a] s]] rows IH]; intros t; [done|]. cbn [fmap list_fmap foldl list_to_map foldr].
  intros [Hn Hnd]%NoDup_cons. specialize (IH (upsert_config t (name, (f, a, s))) Hnd). cbn [uncurry].
  destruct (decide (n = name)) as [->|Hne].
  - rewrite lookup_insert_eq. cbn [fst snd].
    rewrite (not_elem_of_list_to_map_1 (M := gmap string) rows name) in IH by done. rewrite IH. cbn [upsert_config configs].
    rewrite lookup_insert_eq. eexists. split; [done|]. intros c ->. done.
  - rewrite lookup_insert_ne by done. cbn [fst snd].
    assert (configs (upsert_config t (name, (f, a, s))) !! n = configs t !! n) as Heq by (cbn; by rewrite lookup_insert_ne).
    rewrite Heq in IH. exact IH.
Qed.

Lemma upsert_feeds_configs rows t : configs (foldl upsert_feed t rows) = configs t.
Proof. revert t. induction rows as [|[[n d] i] rows IH]; intros t; [done|]. simpl. by rewrite IH. Qed.

Lemma upsert_feeds_wf rows t :
  wf t -> Forall (fun r => exists n c, configs t !! n = Some c /\ c_ID c = r.2) rows -> wf (foldl upsert_feed t rows).
Proof.
  revert t. induction rows as [|[[n d] i] rows IH]; intros t Ht; [done|]. intros [Hr Hrows]%Forall_cons. simpl.
  apply IH; [by apply wf_upsert_feed|exact Hrows].
Qed.

Lemma upsert_feeds_lookup rows t k :
  NoDup ((fun r => (r.1.1, r.2)) <$> rows) ->
  (forall d, (k.1, d, k.2) ∈ rows -> exists i, feeds (foldl upsert_feed t rows) !! k = Some (mkFeed i d)) /\
  (k ∉ (fun r => (r.1.1, r.2)) <$> rows -> feeds (foldl upsert_feed t rows) !! k = feeds t !! k).
Proof.
  revert t. induction rows as [|[[n d] id] rows IH]; intros t; [split; [by intros ? ?%not_elem_of_nil|done]|].
  cbn [fmap list_fmap foldl fst snd]. intros [Hn Hnd]%NoDup_cons. destruct (IH (upsert_feed t (n, d, id)) Hnd) as [I1 I2]. split.
  - intros d' [Heq|Hin]%elem_of_cons; [|by apply I1]. simplify_eq. destruct k as [k1 k2]. cbn in *.
    rewrite I2 by done. cbn. rewrite lookup_insert_eq. by eexists.
  - intros [Hne Hk]%not_elem_of_cons. rewrite I2 by done. cbn. by rewrite lookup_insert_ne.
Qed.

(** *** What a synchronisation achieves *)
Lemma removingConfigs_spec loaded t id :
  id ∈ removingConfigs loaded t <-> exists n c, configs t !! n = Some c /\ c_ID c = id /\ n ∉ ci_Name <$> loaded.
Proof.
  unfold removingConfigs. rewrite list_elem_of_omap. split.
  - intros ([n c] & Hin%elem_of_map_to_list & Hc). cbn in Hc. case_decide; simplify_eq. by exists n, c.
  - intros (n & c & Hc & <- & Hn). exists (n, c). rewrite elem_of_map_to_list. cbn. by rewrite decide_False.
Qed.
Lemma removingFeeds_spec loaded t id :
  id ∈ removingFeeds loaded t <-> exists k f, feeds t !! k = Some f /\ f_ID f = id /\ k.1 ∉ feed_names loaded.
Proof.
  unfold removingFeeds. rewrite list_elem_of_omap. split.
  - intros ([k f] & Hin%elem_of_map_to_list & Hc). cbn in Hc. case_decide; simplify_eq. by exists k, f.
  - intros (k & f & Hc & <- & Hn). exists (k, f). rewrite elem_of_map_to_list. cbn. by rewrite decide_False.
Qed.

(** The configs that stay are those of the list. *)
Lemma kept_configs loaded t n c :
  wf t -> configs (delete_configs (removingConfigs loaded t) t) !! n = Some c <->
          configs t !! n = Some c /\ n ∈ ci_Name <$> loaded.
Proof.
  intros Ht. rewrite lookup_delete_configs, removingConfigs_spec. split; intros [Hc Hn]; (split; [done|]).
  - destruct (decide (n ∈ ci_Name <$> loaded)); [done|]. exfalso. apply Hn. by exists n, c.
  - intros (n' & c' & Hc' & Hid & Hn'). apply Hn'. by rewrite (wf_configs t Ht _ _ _ _ Hc' Hc Hid).
Qed.

Lemma config_rows_names loaded rows : mapM config_row loaded = Some rows -> rows.*1 = ci_Name <$> loaded.
Proof.
  intros H%mapM_Some. induction H as [|l r loaded rows Hr _ IH]; [done|]. cbn [fmap list_fmap]. rewrite IH. f_equal.
  unfold config_row in Hr. destruct (ci_FetchInterval l), (ci_AggregateInterval l), (ci_SubmitInterval l); by simplify_eq/=.
Qed.

Definition stored_as (l : ConfigInsertModel) (c : ConfigModel) : Prop :=
  ci_FetchInterval l = Some (FetchInterval c) /\ ci_AggregateInterval l = Some (AggregateInterval c) /\
  ci_SubmitInterval l = Some (SubmitInterval c).

Lemma bulkUpsertConfigs_spec loaded t t' :
  bulkUpsertConfigs loaded t = (t', None) -> wf t ->
  wf t' /\ feeds t' = feeds t /\ NoDup (ci_Name <$> loaded) /\
  (forall l, l ∈ loaded -> exists c, configs t' !! ci_Name l = Some c /\ stored_as l c /\
     forall c0, configs t !! ci_Name l = Some c0 -> c_ID c = c_ID c0) /\
  (forall n, n ∉ ci_Name <$> loaded -> configs t' !! n = configs t !! n).
Proof.
  unfold bulkUpsertConfigs. destruct loaded as [|l0 loaded0]; [done|]. set (loaded := l0 :: loaded0).
  destruct (mapM config_row loaded) as [rows|] eqn:Hm; [|done]. case_decide as Hnd; [|done]. intros [= <-] Ht.
  pose proof (config_rows_names _ _ Hm) as Hnames.
  assert (Hl : forall n, configs (foldl upsert_config t rows) !! n = configs (foldl upsert_config t rows) !! n) by done.
  split_and!; [by apply upsert_configs_wf|apply upsert_configs_feeds|by rewrite <- Hnames| |].
  - intros l Hin. apply list_elem_of_lookup in Hin as [i Hi]. apply mapM_Some in Hm.
    destruct (Forall2_lookup_l _ _ _ _ _ Hm Hi) as (r & Hr & Hrow).
    unfold config_row in Hrow. destruct (ci_FetchInterval l) eqn:E1, (ci_AggregateInterval l) eqn:E2, (ci_SubmitInterval l) eqn:E3;
      simplify_eq/=. apply list_elem_of_lookup_2 in Hr.
    pose proof (upsert_configs_lookup rows t (ci_Name l) Hnd) as Hu.
    rewrite (elem_of_list_to_map_1 (M := gmap string) _ _ _ Hnd Hr) in Hu.
    destruct Hu as (id & Hc & Hid). eexists. split; [exact Hc|]. split; [done|]. cbn. exact Hid.
  - intros n Hn. pose proof (upsert_configs_lookup rows t n Hnd) as Hu.
    by rewrite not_elem_of_list_to_map_1 in Hu by (by rewrite Hnames).
Qed.

Lemma feed_rows_spec loaded ids n d id :
  (n, d, id) ∈ feed_rows loaded ids <->
  exists l f, l ∈ loaded /\ f ∈ ci_Feeds l /\ ids !! ci_Name l = Some id /\ fi_Name f = n /\ fi_Definition f = d.
Proof.
  unfold feed_rows. rewrite list_elem_of_bind. split.
  - intros (l & Hin & Hl). destruct (ids !! ci_Name l) as [i|] eqn:Hi; [|by apply not_elem_of_nil in Hin].
    apply list_elem_of_fmap in Hin as (f & Heq & Hf). simplify_eq. by exists l, f.
  - intros (l & f & Hl & Hf & Hi & <- & <-). exists l. split; [|done]. rewrite Hi. apply list_elem_of_fmap. by exists f.
Qed.

Lemma bulkUpsertFeeds_spec rows t t' :
  bulkUpsertFeeds rows t = (t', None) -> wf t ->
  (forall n d id, (n, d, id) ∈ rows -> exists name c, configs t !! name = Some c /\ c_ID c = id) ->
  wf t' /\ configs t' = configs t /\
  (forall n d id, (n, d, id) ∈ rows -> exists i d', d = Some d' /\ feeds t' !! (n, id) = Some (mkFeed i d')) /\
  (forall n id, (forall d, (n, d, id) ∉ rows) -> feeds t' !! (n, id) = feeds t !! (n, id)).
Proof.
  unfold bulkUpsertFeeds. destruct rows as [|r0 rows0]; [done|]. set (rows := r0 :: rows0).
  destruct (mapM feed_row rows) as [rows'|] eqn:Hm; [|done]. case_decide as Hnd; [|done]. intros [= <-] Ht Hfk.
  apply mapM_Some in Hm.
  assert (Hrow : forall n d id, (n, d, id) ∈ rows' -> (n, Some d, id) ∈ rows).
  { intros n d id Hin. apply list_elem_of_lookup in Hin as [i Hi]. destruct (Forall2_lookup_r _ _ _ _ _ Hm Hi) as ([[n' d'] id'] & Hr & Hf).
    cbn in Hf. destruct d'; simplify_eq/=. by eapply list_elem_of_lookup_2. }
  split_and!.
  - apply upsert_feeds_wf; [done|]. apply Forall_forall. intros [[n d] id] Hin. cbn. eapply Hfk, Hrow, Hin.
  - apply upsert_feeds_configs.
  - intros n d id Hin. apply list_elem_of_lookup in Hin as [i Hi]. destruct (Forall2_lookup_l _ _ _ _ _ Hm Hi) as (r' & Hr & Hf).
    cbn in Hf. destruct d as [d|]; simplify_eq/=. apply list_elem_of_lookup_2 in Hr.
    destruct (upsert_feeds_lookup rows' t (n, id) Hnd) as [H1 _]. destruct (H1 d Hr) as [j Hj]. by exists j, d.
  - intros n id Hn. destruct (upsert_feeds_lookup rows' t (n, id) Hnd) as [_ H2]. apply H2.
    intros ([[n' d'] id'] & Heq & Hin)%list_elem_of_fmap. simplify_eq/=. by eapply Hn, Hrow.
Qed.

(** What holds after a synchronisation that returns no error: a row that should be
    gone is an old one that a lost deletion left. *)
Record synced (loaded : list ConfigInsertModel) (lost : nat -> bool) (t t' : Tables) : Prop := mkSynced {
  synced_configs : forall l, l ∈ loaded -> exists c, configs t' !! ci_Name l = Some c /\ stored_as l c /\
    (forall c0, configs t !! ci_Name l = Some c0 -> c_ID c = c_ID c0) /\
    forall f, f ∈ ci_Feeds l -> exists i d, fi_Definition f = Some d /\ feeds t' !! (fi_Name f, c_ID c) = Some (mkFeed i d);
  synced_no_other : forall n c, configs t' !! n = Some c ->
    n ∈ ci_Name <$> loaded \/ lost 1%nat = true /\ configs t !! n = Some c;
  synced_feeds : forall n id g, feeds t' !! (n, id) = Some g ->
    (exists l c, l ∈ loaded /\ configs t' !! ci_Name l = Some c /\ c_ID c = id /\ n ∈ fi_Name <$> ci_Feeds l) \/
    (feeds t !! (n, id) = Some g /\ (n ∈ feed_names loaded \/ lost 3%nat = true) /\
     ((exists l c, l ∈ loaded /\ configs t' !! ci_Name l = Some c /\ c_ID c = id) \/ lost 1%nat = true)) }.

Lemma sync_last loaded t3 t' :
  let ids := c_ID <$> filter (fun kv => kv.1 ∈ ci_Name <$> loaded) (configs t3) in
  wf t3 -> bulkUpsertFeeds (feed_rows loaded ids) t3 = (t', None) ->
  wf t' /\ configs t' = configs t3 /\
  (forall l c f, l ∈ loaded -> configs t3 !! ci_Name l = Some c -> f ∈ ci_Feeds l ->
     exists i d, fi_Definition f = Some d /\ feeds t' !! (fi_Name f, c_ID c) = Some (mkFeed i d)) /\
  (forall n id g, feeds t' !! (n, id) = Some g ->
    (exists l c, l ∈ loaded /\ configs t3 !! ci_Name l = Some c /\ c_ID c = id /\ n ∈ fi_Name <$> ci_Feeds l) \/
    (feeds t3 !! (n, id) = Some g /\ exists name c, configs t3 !! name = Some c /\ c_ID c = id)).
Proof.
  intros ids Ht3 Hu.
  assert (Hids : forall n id, ids !! n = Some id <-> exists c, configs t3 !! n = Some c /\ c_ID c = id /\ n ∈ ci_Name <$> loaded).
  { intros n id. unfold ids. rewrite lookup_fmap, fmap_Some. setoid_rewrite map_lookup_filter_Some. cbn. naive_solver. }
  assert (Hfk : forall n d id, (n, d, id) ∈ feed_rows loaded ids -> exists name c, configs t3 !! name = Some c /\ c_ID c = id).
  { intros n d id (l & f & _ & _ & (c & Hc & <- & _)%Hids & _)%feed_rows_spec. by eexists _, c. }
  destruct (bulkUpsertFeeds_spec _ _ _ Hu Ht3 Hfk) as (Hwf & Hc & Hrows & Hrest).
  split_and!; [done|done| |].
  - intros l c f Hl Hcl Hf. apply (Hrows (fi_Name f) (fi_Definition f) (c_ID c)). apply feed_rows_spec. exists l, f.
    split_and!; try done. apply Hids. exists c. split_and!; [done..|]. apply list_elem_of_fmap. by exists l.
  - intros n id g Hg. destruct (decide ((n, id) ∈ (fun r => (r.1.1, r.2)) <$> feed_rows loaded ids)) as [Hr|Hr].
    + left. apply list_elem_of_fmap in Hr as ([[n' d] id'] & Heq & Hr). simplify_eq/=.
      apply feed_rows_spec in Hr as (l & f & Hl & Hf & (c & Hcl & <- & _)%Hids & <- & _).
      exists l, c. split_and!; [done..|]. apply list_elem_of_fmap. by exists f.
    + right. rewrite Hrest in Hg.
      2: { intros d Hd. apply Hr, list_elem_of_fmap. by exists (n, d, id). }
      split; [done|]. exact (wf_foreign t3 Ht3 _ _ _ Hg).
Qed.

(** The tables after the deletions, each of which may have been lost. *)
Lemma deletions loaded (lost : nat -> bool) t :
  wf t ->
  let t1 := if lost 1%nat then t else delete_configs (removingConfigs loaded t) t in
  let t2 := if lost 3%nat then t1 else delete_feeds (removingFeeds loaded t1) t1 in
  wf t2 /\
  (forall n c, configs t2 !! n = Some c <-> configs t !! n = Some c /\ (n ∈ ci_Name <$> loaded \/ lost 1%nat = true)) /\
  (forall n id g, feeds t2 !! (n, id) = Some g -> feeds t !! (n, id) = Some g /\ (n ∈ feed_names loaded \/ lost 3%nat = true)).
Proof.
  intros Ht t1 t2.
  assert (wf t1 /\ (forall n c, configs t1 !! n = Some c <-> configs t !! n = Some c /\ (n ∈ ci_Name <$> loaded \/ lost 1%nat = true)) /\
    (forall k g, feeds t1 !! k = Some g -> feeds t !! k = Some g)) as (Hwf1 & Hc1 & Hf1).
  { subst t1. destruct (lost 1%nat); [by split_and!; [|intros n c; naive_solver|]|]. split_and!; [by apply wf_delete_configs| |].
    - intros n c. rewrite kept_configs by done. naive_solver.
    - intros k g. by rewrite lookup_delete_configs_feeds; intros [? _]. }
  subst t2. destruct (lost 3%nat).
  - split_and!; [done|done|]. intros n id g Hg. split; [by apply Hf1|by right].
  - split_and!; [by apply wf_delete_feeds|exact Hc1|]. intros n id g [Hg Hid]%lookup_delete_feeds. split; [by apply Hf1|left].
    destruct (decide (n ∈ feed_names loaded)); [done|]. exfalso. apply Hid, removingFeeds_spec. by exists (n, id), g.
Qed.

(** C18: A synchronisation that runs alone and returns no error leaves every config
    of the published list, with its intervals and, where it existed, its old id,
    and every published feed under its config.  Any other config that is left is
    an old row, and only when the deletion of configs failed in the database,
    which the code does not notice; any other feed that is left is an old row,
    whose name the list still uses unless the deletion of feeds was lost, and
    whose config is one of the list unless the deletion of configs was lost. *)
Theorem sync_exact (loaded : list ConfigInsertModel) (fault : nat -> option error) (lost : nat -> bool) (t t' : Tables) :
  wf t -> sync (Ok loaded) fault lost t = (t', None) -> wf t' /\ synced loaded lost t t'.
Proof.
  intros Ht. pose proof (deletions loaded lost t Ht) as Hdel. revert Hdel. unfold sync. cbv zeta.
  destruct (fault 0%nat); [done|]. destruct (match removingConfigs loaded t with [] => None | _ => _ end); [done|].
  set (t1 := if lost 1%nat then t else _). destruct (fault 2%nat); [done|].
  destruct (match removingFeeds loaded t1 with [] => None | _ => _ end); [done|].
  set (t2 := if lost 3%nat then t1 else _). intros (Hwf2 & Hkeep & Hf2). destruct (fault 4%nat); [done|].
  destruct (bulkUpsertConfigs loaded t2) as [t3 [e|]] eqn:Hb; [done|]. destruct (fault 5%nat); [done|]. destruct (fault 6%nat); [done|].
  destruct (bulkUpsertConfigs_spec loaded t2 t3 Hb Hwf2) as (Hwf3 & Hf3 & Hnd & Hcs & Hout).
  intros Hlast. destruct (sync_last loaded t3 t' Hwf3 Hlast) as (Hwf' & Hc' & Hfl & Hfr).
  assert (Hother : forall n c, configs t3 !! n = Some c -> n ∈ ci_Name <$> loaded \/ lost 1%nat = true /\ configs t !! n = Some c).
  { intros n c Hc. destruct (decide (n ∈ ci_Name <$> loaded)) as [?|Hn]; [by left|right]. rewrite Hout in Hc by done.
    apply Hkeep in Hc. naive_solver. }
  split; [done|]. constructor; rewrite ?Hc'; [|exact Hother|].
  - intros l Hl. destruct (Hcs l Hl) as (c & Hc & Hst & Hid). exists c. split_and!; [done|done| |].
    + intros c0 Hc0. apply Hid, Hkeep. split; [done|]. left. apply list_elem_of_fmap. by exists l.
    + intros f Hf. by eapply Hfl.
  - intros n id g Hg. destruct (Hfr n id g Hg) as [?|(Hg3 & name & c & Hc & Hid)]; [by left|right].
    rewrite Hf3 in Hg3. destruct (Hf2 _ _ _ Hg3) as [? ?]. split_and!; [done|done|].
    destruct (Hother name c Hc) as [(l & -> & Hl)%list_elem_of_fmap|[? _]]; [left; by exists l, c|by right].
Qed.

(** *** When it succeeds *)
(** A list that can be stored: something to store, nothing twice, nothing missing. *)
Definition complete (loaded : list ConfigInsertModel) : Prop :=
  NoDup (ci_Name <$> loaded) /\ Forall (fun l => is_Some (config_row l)) loaded /\
  Forall (fun l => NoDup (fi_Name <$> ci_Feeds l) /\ Forall (fun f => is_Some (fi_Definition f)) (ci_Feeds l)) loaded /\
  feed_names loaded <> [].

Lemma wf_next_feed_succ t : wf t -> wf (mkTables (configs t) (feeds t) (next_config t) (next_feed t + 1)).
Proof. intros []. split; cbn; try done. intros k f Hf. specialize (wf_next_feed0 k f Hf). lia. Qed.
Lemma insert_feeds_wf fault id l : forall k t, (exists n c, configs t !! n = Some c /\ c_ID c = id) -> wf t -> wf (insert_feeds fault k id l t).1.
Proof.
  induction l as [|f l IH]; intros k t Hid Hwf; cbn [insert_feeds]; [done|]. destruct (fault k); [done|].
  destruct (fi_Definition f) as [d|]; [destruct (feeds t !! _)|]; apply IH; try done; auto using wf_next_feed_succ.
  by apply wf_upsert_feed.
Qed.
(** The handlers that change the tables keep the invariant. *)
Lemma Insert_wf body fault t : wf t -> wf (Insert body fault t).1.
Proof.
  intros Hwf. unfold Insert. destruct body as [c|]; [|done]. destruct (fault 0%nat); [done|].
  destruct (configs t !! _) eqn:Hc.
  { destruct Hwf. split; cbn; try done. intros n c1 Hn. specialize (wf_next0 n c1 Hn). lia. }
  destruct (config_row _) as [row|] eqn:Hr; [|done].
  destruct (insert_feeds _ _ _ _ _) as [t' err] eqn:Hi. apply (f_equal fst) in Hi. cbn in Hi.
  assert (Hw : wf t'); [|by destruct err]. rewrite <- Hi. apply insert_feeds_wf; [|by apply wf_upsert_config].
  destruct row as [n [[f a] s]]. assert (n = ci_Name (setDefaultIntervals c)) as ->.
  { unfold config_row in Hr. cbn in Hr. destruct (ci_FetchInterval c) as [[]|], (ci_AggregateInterval c) as [[]|], (ci_SubmitInterval c) as [[]|];
      cbn in Hr; by injection Hr. }
  exists (ci_Name c), (mkConfig (next_config t) f a s). cbn in *. by rewrite Hc, lookup_insert_eq.
Qed.
Lemma DeleteById_wf id fault t : wf t -> wf (DeleteById id fault t).1.
Proof. intros Hwf. unfold DeleteById. destruct (GetById id fault t); [by apply wf_delete_configs|done]. Qed.
Lemma feed_rows_NoDup loaded ids :
  NoDup (ci_Name <$> loaded) -> Forall (fun l => NoDup (fi_Name <$> ci_Feeds l)) loaded ->
  (forall n1 n2 i, ids !! n1 = Some i -> ids !! n2 = Some i -> n1 = n2) ->
  NoDup ((fun r => (r.1.1, r.2)) <$> feed_rows loaded ids).
Proof.
  intros Hnd Hf Hinj. induction loaded as [|l loaded IH]; [constructor|]. unfold feed_rows in *. cbn [mbind list_bind].
  cbn [fmap list_fmap] in Hnd. apply NoDup_cons in Hnd as [Hl Hnd]. apply Forall_cons in Hf as [Hf Hfs]. specialize (IH Hnd Hfs).
  rewrite fmap_app. destruct (ids !! ci_Name l) as [i|] eqn:Hi; [|exact IH].
  rewrite <- list_fmap_compose. apply NoDup_app. split_and!; [| |exact IH].
  - apply (NoDup_fmap_1 fst). rewrite <- list_fmap_compose. exact Hf.
  - intros [n j] (f & Heq & _)%list_elem_of_fmap ([[n' d] j'] & Heq' & Hr)%list_elem_of_fmap. cbn in *. simplify_eq.
    apply (feed_rows_spec loaded ids) in Hr as (l' & f' & Hl' & _ & Hi' & _). apply Hl. rewrite (Hinj _ _ _ Hi Hi').
    apply list_elem_of_fmap. by exists l'.
Qed.

Lemma mapM_total {A B} (f : A -> option B) (l : list A) : Forall (fun x => is_Some (f x)) l -> is_Some (mapM f l).
Proof. intros Hl. destruct (mapM f l) eqn:Hm; [by eexists|]. apply mapM_None_1 in Hm. exfalso. induction Hm; inversion Hl; subst; [|auto]. by apply eq_None_not_Some in H. Qed.

(** On tables that are in order and a database that reports no error, every complete list is stored. *)
Theorem sync_succeeds (loaded : list ConfigInsertModel) (lost : nat -> bool) (t : Tables) :
  wf t -> complete loaded -> (sync (Ok loaded) (fun _ => None) lost t).2 = None.
Proof.
  intros Ht (Hnd & Hrows & Hfeeds & Hne). destruct (deletions loaded lost t Ht) as [Hwf2 _]. revert Hwf2. unfold sync. cbv zeta.
  set (t1 := if lost 1%nat then t else _). set (t2 := if lost 3%nat then t1 else _). intros Hwf2.
  replace (match removingConfigs loaded t with [] => None | _ => None end) with (@None error) by by destruct (removingConfigs loaded t).
  replace (match removingFeeds loaded t1 with [] => None | _ => None end) with (@None error) by by destruct (removingFeeds loaded t1).
  destruct (bulkUpsertConfigs loaded t2) as [t3 e] eqn:Hb.
  assert (He : e = None).
  { unfold bulkUpsertConfigs in Hb. destruct loaded as [|l loaded]; [done|].
    destruct (mapM_total _ _ Hrows) as [rows Hm]. rewrite Hm in Hb. rewrite (config_rows_names _ _ Hm), decide_True in Hb by done. by simplify_eq. }
  subst. destruct (bulkUpsertConfigs_spec loaded t2 t3 Hb Hwf2) as (Hwf3 & _ & _ & Hcs & _).
  set (ids := c_ID <$> _). unfold bulkUpsertFeeds.
  assert (Hids : forall n1 n2 i, ids !! n1 = Some i -> ids !! n2 = Some i -> n1 = n2).
  { intros n1 n2 i. unfold ids. rewrite !lookup_fmap, !fmap_Some. setoid_rewrite map_lookup_filter_Some.
    intros (c1 & [H1 _] & ->) (c2 & [H2 _] & Hc). by eapply (wf_configs t3 Hwf3). }
  assert (Hrow : Forall (fun r => is_Some (feed_row r)) (feed_rows loaded ids)).
  { apply Forall_forall. intros [[n d] i] (l & f & Hl & Hf & _ & _ & <-)%feed_rows_spec. rewrite Forall_forall in Hfeeds.
    destruct (Hfeeds l Hl) as [_ Hd]. rewrite Forall_forall in Hd. destruct (Hd f Hf) as [d' Hd']. cbn. rewrite Hd'. by eexists. }
  assert (Hkeys : NoDup ((fun r => (r.1.1, r.2)) <$> feed_rows loaded ids)).
  { apply feed_rows_NoDup; [done| |done]. eapply Forall_impl; [exact Hfeeds|]. by intros l [? _]. }
  destruct (feed_rows loaded ids) as [|r rows] eqn:Hr.
  - exfalso. apply Hne. apply elem_of_nil_inv. intros n (l & Hn & Hl)%list_elem_of_bind.
    apply list_elem_of_fmap in Hn as (f & -> & Hf). destruct (Hcs l Hl) as (c & Hc & _).
    assert ((fi_Name f, fi_Definition f, c_ID c) ∈ feed_rows loaded ids) as Hin; [|rewrite Hr in Hin; by apply not_elem_of_nil in Hin].
    apply feed_rows_spec. exists l, f. split_and!; try done. unfold ids. rewrite lookup_fmap, fmap_Some. exists c.
    rewrite map_lookup_filter_Some. split_and!; [done| |done]. apply list_elem_of_fmap. by exists l.
  - rewrite <- Hr in *. destruct (mapM_total _ _ Hrow) as [rows' Hm]. rewrite Hm. rewrite decide_True; [done|].
    replace ((fun r => (r.1.1, r.2)) <$> rows') with ((fun r => (r.1.1, r.2)) <$> feed_rows loaded ids); [done|].
    apply mapM_Some in Hm. clear -Hm. induction Hm as [|[[n d] i] r' l l' Hrr _ IH]; [done|]. cbn [fmap list_fmap]. rewrite IH.
    cbn in Hrr. destruct d; by simplify_eq/=.
Qed.

End config.
Arguments ConfigInsertModel : clear implicits.
Arguments Tables : clear implicits.

(** *** Concrete lists *)
Definition w_feed (name : string) (d : Z) : FeedInsertModel := mkFeedInsert name (Some d).
Definition w_config (name : string) (feeds : list FeedInsertModel) : ConfigInsertModel Z :=
  mkConfigInsert name (Some 2000) (Some 400) (Some 15000) feeds.
Definition w_tables : Tables Z := mkTables
  {["A"%string := mkConfig 1 1000 400 15000; "OLD"%string := mkConfig 2 1000 400 15000]}
  {[("f"%string, 1) := mkFeed 1 7; ("g"%string, 2) := mkFeed 2 8]} 3 3.
Definition w_loaded : list (ConfigInsertModel Z) := [w_config "A" [w_feed "f" 9]; w_config "B" [w_feed "h" 5]].

Lemma w_wf : wf w_tables.
Proof.
  constructor; unfold w_tables; cbn [configs feeds next_config next_feed].
  - intros n1 n2 c1 c2. rewrite !lookup_insert_Some, !lookup_singleton_Some. naive_solver.
  - intros n c. rewrite !lookup_insert_Some, !lookup_singleton_Some. naive_solver lia.
  - intros n1 n2 c1 c2. rewrite !lookup_insert_Some, !lookup_singleton_Some. naive_solver.
  - intros n c. rewrite !lookup_insert_Some, !lookup_singleton_Some. naive_solver lia.
  - intros n id f. rewrite lookup_insert_Some, lookup_singleton_Some. intros [[[= <- <-] _]|[_ [[= <- <-] _]]].
    + by exists "A"%string, (mkConfig 1 1000 400 15000).
    + by exists "OLD"%string, (mkConfig 2 1000 400 15000).
Qed.

Definition none_lost (k : nat) : bool := false.

Lemma sync_exact_witness : exists t',
  sync (Ok w_loaded) (fun _ => None) none_lost w_tables = (t', None) /\ wf t' /\ synced w_loaded none_lost w_tables t' /\
  configs t' !! "OLD"%string = None.
Proof.
  destruct (sync (Ok w_loaded) (fun _ => None) none_lost w_tables) as [t' e] eqn:Hs.
  assert (e = None) as -> by (apply (f_equal snd) in Hs; vm_compute in Hs; by rewrite <- Hs).
  exists t'. split; [reflexivity|].
  destruct (sync_exact w_loaded (fun _ => None) none_lost w_tables t' w_wf Hs) as [Hwf Hsync]. split_and!; [exact Hwf|exact Hsync|].
  destruct (configs t' !! "OLD"%string) as [c|] eqn:Hc; [|reflexivity].
  destruct (synced_no_other _ _ _ _ Hsync _ _ Hc) as [Hin|[Hl _]]; [|discriminate].
  exfalso. revert Hin. apply (bool_decide_eq_false_1 _). vm_compute. reflexivity.
Defined.

(** A deletion that fails in the database is not noticed: the synchronisation
    succeeds, and the config that is no longer published stays with its feed. *)
Example lost_deletion_unnoticed :
  let '(t, e) := sync (Ok w_loaded) (fun _ => None) (fun k => bool_decide (k = 1 \/ k = 3)%nat) w_tables in
  e = None /\ configs t !! "OLD"%string = configs w_tables !! "OLD"%string /\
  feeds t !! ("g"%string, 2) = feeds w_tables !! ("g"%string, 2).
Proof. vm_compute. done. Qed.

(** A feed that moves from one config to another stays in both: feeds are compared by name only. *)
Example moved_feed_stays :
  let first := [w_config "A" [w_feed "f" 1]; w_config "B" [w_feed "g" 2]] in
  let second := [w_config "A" [w_feed "x" 3]; w_config "B" [w_feed "f" 1; w_feed "g" 2]] in
  let t := (sync (Ok first) (fun _ => None) none_lost w_tables).1 in
  let t' := (sync (Ok second) (fun _ => None) none_lost t).1 in
  exists id f, c_ID <$> configs t' !! "A"%string = Some id /\ feeds t' !! ("f"%string, id) = Some f.
Proof. vm_compute. by eexists _, _. Qed.

(** An empty list deletes everything and then fails; a config without an interval
    deletes what the list does not name and then fails. *)
Example empty_list_deletes_all :
  sync (Ok []) (fun _ => None) none_lost w_tables = (mkTables ∅ ∅ 3 3, Some syntax_error).
Proof. vm_compute. reflexivity. Qed.
Example missing_interval_fails :
  (sync (Ok [mkConfigInsert "A" (Some 2000) None (Some 15000) [w_feed "f" 9]]) (fun _ => None) none_lost w_tables).2 = Some null_violation.
Proof. vm_compute. reflexivity. Qed.


(** A handler answers with the inserted config although a feed of it was left out. *)
Example feed_left_out :
  let '(t, r) := Insert (Ok (w_config "Z" [w_feed "f" 1; mkFeedInsert "g" None; w_feed "f" 2])) (fun _ => None) w_tables in
  exists id c f, r = Ok ("Z"%string, c) /\ c_ID c = id /\ getByConfigId id None t = Ok [("f"%string, id, f)] /\ Definition_ f = 1.
Proof. vm_compute. by eexists _, _, _. Qed.

End Config.

(** ** [admin/utils] and the handlers that send commands *)
Module Commands.

(** What a handler answers: a status and a text, or a value as JSON. *)
Inductive Reply : Type :=
| Text_ (status : Z) (body : string)
| Json (resp : MessageResponse)
| JsonArgs (resp : MessageResponse)
| JsonSigner (addr : string).

(** How a request ends: it is answered; it waits for ever for a response that nobody sends; or it panics, which the
    framework turns into an answer. *)
Inductive Outcome : Type := Answered (r : Reply) | Waits | Panics.

(** [bus]: the bus of the request, if it was set up with one; [ch] is the channel of the response. *)
Definition SendMessage (bus : option MessageBus) (ch : nat) (to command : string) (args : gmap string any)
    : option MessageBus * res Message :=
  match bus with
  | None => (None, Err ErrAdminMessageBusNotFound)
  | Some mb =>
      let msg := mkMessage ADMIN to (mkContent command args) ch in
      match Publish msg mb with
      | (mb, None) => (Some mb, Ok msg)
      | (mb, Some err) => (Some mb, Err err)
      end
  end.

(** The part all handlers share: send, wait for the response, answer. *)
Definition ask (bus : option MessageBus) (ch : nat) (response : Message -> option MessageResponse)
    (to command : string) (args : gmap string any) (unsent failed : string) (answer : MessageResponse -> Reply)
    : option MessageBus * Outcome :=
  match SendMessage bus ch to command args with
  | (bus, Err err) => (bus, Answered (Text_ 500 (unsent +:+ Error err)%string))
  | (bus, Ok msg) =>
      match response msg with
      | None => (bus, Waits)
      | Some resp =>
          if Success resp then (bus, Answered (answer resp))
          else match r_error resp with
               | None => (bus, Panics)
               | Some e => (bus, Answered (Text_ 500 (failed +:+ e)%string))
               end
      end
  end.

Section handlers.
Variables (bus : option MessageBus) (ch : nat) (response : Message -> option MessageResponse).
Local Open Scope string_scope.

Definition aggregator_start := ask bus ch response AGGREGATOR START_AGGREGATOR_APP ∅
  "failed to start aggregator: " "failed to start aggregator: " (fun _ => Text_ 200 "aggregator started").
Definition aggregator_stop := ask bus ch response AGGREGATOR STOP_AGGREGATOR_APP ∅
  "failed to stop aggregator: " "failed to stop aggregator: " (fun _ => Text_ 200 "aggregator stopped").
Definition aggregator_refresh := ask bus ch response AGGREGATOR REFRESH_AGGREGATOR_APP ∅
  "failed to refresh aggregator: " "failed to refresh aggregator: " (fun _ => Text_ 200 "aggregator refreshed").
Definition activate (id : string) := ask bus ch response AGGREGATOR ACTIVATE_AGGREGATOR {["id" := AnyString id]}
  "failed to send message to aggregator: " "failed to activate aggregator: " Json.
Definition deactivate (id : string) := ask bus ch response AGGREGATOR DEACTIVATE_AGGREGATOR {["id" := AnyString id]}
  "failed to send message to aggregator: " "failed to deactivate aggregator: " Json.
Definition renewSigner := ask bus ch response AGGREGATOR RENEW_SIGNER ∅
  "failed to refresh signer: " "failed to refresh signer: " (fun _ => Text_ 200 "s refreshed: true").
Definition fetcher_start := ask bus ch response FETCHER START_FETCHER_APP ∅
  "failed to start fetcher: " "failed to start fetcher: " (fun _ => Text_ 200 "fetcher started: true").
Definition fetcher_stop := ask bus ch response FETCHER STOP_FETCHER_APP ∅
  "failed to stop fetcher: " "failed to stop fetcher: " (fun _ => Text_ 200 "fetcher stopped: true").
Definition fetcher_refresh := ask bus ch response FETCHER REFRESH_FETCHER_APP ∅
  "failed to refresh fetcher: " "failed to refresh fetcher: " (fun _ => Text_ 200 "fetcher refreshed: true").
Definition getPeerCount := ask bus ch response LIBP2P "get_peer_count" ∅
  "failed to get peer count: " "failed to get peer count: " JsonArgs.
Definition host_sync := ask bus ch response LIBP2P "libp2p_sync" ∅
  "failed to sync libp2p host: " "failed to sync libp2p host: " (fun _ => Text_ 200 "libp2p synced").
End handlers.

(** [loaded] is what [LoadSignerPk] returns; [StringPkToAddressHex] converts the key. *)
Definition getSigner (loaded : res string) (Getenv : string -> string) (StringPkToAddressHex : string -> res string) : Reply :=
  let address pk :=
    match StringPkToAddressHex pk with
    | Err err => Text_ 500 ("failed to get signer: " +:+ Error err)%string
    | Ok addr => JsonSigner addr
    end in
  let from_env :=
    if bool_decide (Getenv "SIGNER_PK" = "")%string then Text_ 500 "failed to get signer, no signer set"
    else address (Getenv "SIGNER_PK"%string) in
  match loaded with
  | Err err => if errors_Is err ErrChainSignerPKNotFound then from_env else Text_ 500 ("failed to get signer: " +:+ Error err)%string
  | Ok pk => if bool_decide (pk = "")%string then from_env else address pk
  end.

(** A command reaches its part exactly when it is subscribed and has room, behind
    the commands already sent; every other case is answered with status 500. *)
Lemma ask_delivers mb ch response to command args unsent failed answer :
  let msg := mkMessage ADMIN to (mkContent command args) ch in
  let '(bus', out) := ask (Some mb) ch response to command args unsent failed answer in
  (exists q, channels mb !! to = Some q /\ (length q < msgBuffer mb)%nat /\
     bus' = Some (mkBus (<[to := q ++ [msg]]> (channels mb)) (msgBuffer mb)) /\
     out = match response msg with
           | None => Waits
           | Some r => if Success r then Answered (answer r)
                       else match r_error r with None => Panics | Some e => Answered (Text_ 500 (failed +:+ e)%string) end
           end) \/
  (bus' = Some mb /\ exists body, out = Answered (Text_ 500 body)).
Proof.
  cbv zeta. unfold ask, SendMessage, Publish. cbn [To]. destruct (channels mb !! to) as [q|] eqn:Hq.
  - destruct (Nat.ltb_spec (length q) (msgBuffer mb)) as [Hl|Hl].
    + set (msg := mkMessage _ _ _ _). assert (HH : exists q0, Some q = Some q0 /\ (length q0 < msgBuffer mb)%nat /\ q0 = q) by by exists q.
      destruct (response msg) as [r|]; [destruct (Success r); [|destruct (r_error r)]|]; left; by exists q.
    + right. split; [done|]. by eexists.
  - right. split; [done|]. by eexists.
Qed.

End Commands.

(** ** [admin/proxy], [admin/providerUrl] and [admin/feed] *)
Module Rows.

Record ProxyModel : Type := mkProxy { p_ID : Z; Protocol : string; Host : string; Port : Z; Location : option string }.
Record ProxyInsertModel : Type := mkProxyInsert { i_Protocol : string; i_Host : string; i_Port : Z; i_Location : option string }.
Record Table (A : Type) : Type := mkTable { rows : list A; next : Z }.
Arguments mkTable {A} _ _.
Arguments rows {A} _.
Arguments next {A} _.

(** The row, a row of zeros with a null id for none ([NoRow]), the rows, or a status with the text of an error. *)
Inductive Answer (A : Type) : Type := Row (a : A) | NoRow | Rows (l : list A) | Failure (status : Z).
Arguments Row {A} _.
Arguments NoRow {A}.
Arguments Rows {A} _.
Arguments Failure {A} _.

(** [validate:"required"]: no zero values. *)
Definition valid_proxy (p : ProxyInsertModel) : bool :=
  negb (bool_decide (i_Protocol p = "")%string) && negb (bool_decide (i_Host p = "")%string) && negb (i_Port p =? 0).
Definition same_proxy (p : ProxyInsertModel) (r : ProxyModel) : bool :=
  bool_decide (i_Protocol p = Protocol r) && bool_decide (i_Host p = Host r) && (i_Port p =? Port r).
Definition row_of (id : Z) (p : ProxyInsertModel) : ProxyModel := mkProxy id (i_Protocol p) (i_Host p) (i_Port p) (i_Location p).

(** [fault]: the statement fails. *)
Definition proxy_insert (body : option ProxyInsertModel) (fault : bool) (t : Table ProxyModel) : Table ProxyModel * Answer ProxyModel :=
  match body with
  | None => (t, Failure 500)
  | Some payload =>
      if negb (valid_proxy payload) then (t, Failure 500) else
      let location := match i_Location payload with Some l => if bool_decide (l = "")%string then None else Some l | None => None end in
      let payload := mkProxyInsert (i_Protocol payload) (i_Host payload) (i_Port payload) location in
      if fault || existsb (same_proxy payload) (rows t) then (mkTable (rows t) (next t + 1), Failure 500)
      else (mkTable (rows t ++ [row_of (next t) payload]) (next t + 1), Row (row_of (next t) payload))
  end.
Definition proxy_get (fault : bool) (t : Table ProxyModel) : Answer ProxyModel := if fault then Failure 500 else Rows (rows t).
Definition first_row {A} (l : list A) : Answer A := match l with [] => NoRow | a :: _ => Row a end.
(** The id of the path is sent to the database as it is: [None] is not a number there. *)
Definition proxy_getById (id : option Z) (fault : bool) (t : Table ProxyModel) : Answer ProxyModel :=
  match id with
  | None => Failure 500
  | Some id => if fault then Failure 500 else first_row (filter (fun r => p_ID r = id) (rows t))
  end.
Definition proxy_updateById (id : option Z) (body : option ProxyInsertModel) (fault : bool) (t : Table ProxyModel)
    : Table ProxyModel * Answer ProxyModel :=
  match body with
  | None => (t, Failure 500)
  | Some payload =>
      if negb (valid_proxy payload) then (t, Failure 500) else
      match id with
      | None => (t, Failure 500)
      | Some id =>
          if fault || existsb (fun r => same_proxy payload r && negb (p_ID r =? id)) (rows t) && existsb (fun r => p_ID r =? id) (rows t)
          then (t, Failure 500)
          else (mkTable ((fun r => if p_ID r =? id then row_of id payload else r) <$> rows t) (next t),
                first_row ((fun _ => row_of id payload) <$> filter (fun r => p_ID r = id) (rows t)))
      end
  end.
Definition proxy_deleteById (id : option Z) (fault : bool) (t : Table ProxyModel) : Table ProxyModel * Answer ProxyModel :=
  match id with
  | None => (t, Failure 500)
  | Some id => if fault then (t, Failure 500)
               else (mkTable (filter (fun r => p_ID r <> id) (rows t)) (next t), first_row (filter (fun r => p_ID r = id) (rows t)))
  end.

Record ProviderUrlModel : Type := mkProviderUrl { u_ID : Z; ChainId : Z; Url : string; Priority : option Z }.
Record ProviderUrlInsertModel : Type := mkUrlInsert { ui_ChainId : option Z; ui_Url : string; ui_Priority : option Z }.
Definition url_insert (body : option ProviderUrlInsertModel) (fault : bool) (t : Table ProviderUrlModel)
    : Table ProviderUrlModel * Answer ProviderUrlModel :=
  match body with
  | None => (t, Failure 500)
  | Some payload =>
      match ui_ChainId payload with
      | None => (t, Failure 400)
      | Some chain =>
          if bool_decide (ui_Url payload = "")%string then (t, Failure 400) else
          if fault then (mkTable (rows t) (next t + 1), Failure 500) else
          let row := mkProviderUrl (next t) chain (ui_Url payload) (ui_Priority payload) in
          (mkTable (rows t ++ [row]) (next t + 1), Row row)
      end
  end.
Definition url_get (fault : bool) (t : Table ProviderUrlModel) : Answer ProviderUrlModel := if fault then Failure 500 else Rows (rows t).
Definition url_getById (id : option Z) (fault : bool) (t : Table ProviderUrlModel) : Answer ProviderUrlModel :=
  match id with
  | None => Failure 500
  | Some id => if fault then Failure 500 else first_row (filter (fun r => u_ID r = id) (rows t))
  end.
Definition url_deleteById (id : option Z) (fault : bool) (t : Table ProviderUrlModel) : Table ProviderUrlModel * Answer ProviderUrlModel :=
  match id with
  | None => (t, Failure 500)
  | Some id => if fault then (t, Failure 500)
               else (mkTable (filter (fun r => u_ID r <> id) (rows t)) (next t), first_row (filter (fun r => u_ID r = id) (rows t)))
  end.

(** *** The table of proxies *)
(** The constraints of the table: one row per id and per protocol, host and port. *)
Definition address_of (r : ProxyModel) : string * string * Z := (Protocol r, Host r, Port r).
Definition proxies_ok (t : Table ProxyModel) : Prop :=
  NoDup (p_ID <$> rows t) /\ NoDup (address_of <$> rows t) /\ Forall (fun r => p_ID r < next t) (rows t).

Lemma same_proxy_spec p r : same_proxy p r = true <-> (i_Protocol p, i_Host p, i_Port p) = address_of r.
Proof.
  unfold same_proxy, address_of. rewrite !andb_true_iff, !bool_decide_eq_true, Z.eqb_eq. split; [by intros [[-> ->] ->]|by intros [= -> -> ->]].
Qed.

Lemma proxy_insert_ok body fault t : proxies_ok t -> proxies_ok (proxy_insert body fault t).1.
Proof.
  intros (H1 & H2 & H3). unfold proxy_insert. destruct body as [p|]; [|done]. destruct (negb (valid_proxy p)); [done|].
  set (p' := mkProxyInsert _ _ _ _). destruct (fault || _) eqn:Hf.
  { split_and!; [done|done|]. eapply Forall_impl; [exact H3|]. cbn. lia. }
  apply orb_false_iff in Hf as [_ Hf]. cbn [fst]. unfold proxies_ok. cbn [rows next]. rewrite !fmap_app, !NoDup_app. split_and!.
  - done.
  - intros i (r & -> & Hr)%list_elem_of_fmap. rewrite Forall_forall in H3. specialize (H3 r Hr). cbn. rewrite list_elem_of_singleton. lia.
  - apply NoDup_singleton.
  - done.
  - intros a (r & -> & Hr)%list_elem_of_fmap. cbn. rewrite list_elem_of_singleton. intros Heq.
    assert (same_proxy p' r = true) as Hs by (apply same_proxy_spec; by rewrite Heq).
    rewrite <- not_true_iff_false, existsb_exists in Hf. apply Hf. exists r. split; [by apply list_elem_of_In|done].
  - apply NoDup_singleton.
  - apply Forall_app. split; [|by constructor; [cbn; lia|]]. eapply Forall_impl; [exact H3|]. cbn. lia.
Qed.

Lemma proxy_deleteById_ok id fault t : proxies_ok t -> proxies_ok (proxy_deleteById id fault t).1.
Proof.
  intros (H1 & H2 & H3). unfold proxy_deleteById. destruct id as [id|]; [|done]. destruct fault; [done|]. cbn [fst]. unfold proxies_ok. cbn [rows next].
  assert (Hs : sublist (filter (fun r => p_ID r <> id) (rows t)) (rows t)) by apply sublist_filter.
  split_and!.
  - exact (sublist_NoDup _ _ H1 (fmap_sublist _ _ _ Hs)).
  - exact (sublist_NoDup _ _ H2 (fmap_sublist _ _ _ Hs)).
  - apply Forall_forall. intros r [_ Hr]%list_elem_of_filter. rewrite Forall_forall in H3. by apply H3.
Qed.

Lemma replaced_addresses id p l :
  NoDup (p_ID <$> l) -> NoDup (address_of <$> l) -> (forall r, r ∈ l -> p_ID r <> id -> same_proxy p r = false) ->
  NoDup (address_of <$> ((fun r => if p_ID r =? id then row_of id p else r) <$> l)).
Proof.
  intros Hid Ha Hno. induction l as [|r l IH]; [constructor|]. cbn in *. apply NoDup_cons in Hid as [Hi1 Hi2], Ha as [Ha1 Ha2].
  constructor; [|apply IH; [done|done|intros r' Hr'; apply Hno; by right]].
  intros (r' & Heq & (r'' & -> & Hin)%list_elem_of_fmap)%list_elem_of_fmap.
  assert (p_ID r <> p_ID r'') by (intros E; apply Hi1; rewrite E; by apply list_elem_of_fmap_2).
  assert (address_of r <> address_of r'') by (intros E; apply Ha1; rewrite E; by apply list_elem_of_fmap_2).
  assert (Hs : forall x, x ∈ r :: l -> p_ID x <> id -> address_of (row_of id p) <> address_of x).
  { intros x Hx Hne E. assert (same_proxy p x = true) by (by apply same_proxy_spec). by rewrite (Hno x Hx Hne) in *. }
  destruct (Z.eqb_spec (p_ID r) id), (Z.eqb_spec (p_ID r'') id); try congruence.
  - eapply (Hs r''); [by right|done|done].
  - eapply (Hs r); [by left|done|done].
Qed.
Lemma proxy_updateById_ok id body fault t : proxies_ok t -> proxies_ok (proxy_updateById id body fault t).1.
Proof.
  intros Ht. unfold proxy_updateById. destruct body as [p|]; [|done]. destruct (negb (valid_proxy p)); [done|].
  destruct id as [id|]; [|done]. destruct (fault || _) eqn:Hf; [done|]. apply orb_false_iff in Hf as [_ Hf].
  destruct Ht as (H1 & H2 & H3). unfold proxies_ok. cbn [fst rows next].
  assert (Hg : forall r, p_ID (if p_ID r =? id then row_of id p else r) = p_ID r) by (intros r; by destruct (Z.eqb_spec (p_ID r) id)).
  split_and!.
  - rewrite <- list_fmap_compose. by rewrite (list_fmap_ext _ p_ID _ (fun _ r _ => Hg r)).
  - apply andb_false_iff in Hf as [Hf|Hf].
    + apply replaced_addresses; [done|done|]. intros r Hr Hne. apply not_true_iff_false. intros Hs.
      apply not_true_iff_false in Hf. apply Hf, existsb_exists. exists r. split; [by apply list_elem_of_In|].
      rewrite Hs. apply negb_true_iff. by apply Z.eqb_neq.
    + rewrite (list_fmap_ext _ (fun r => r)); [by rewrite list_fmap_id|].
      intros i r Hr. destruct (Z.eqb_spec (p_ID r) id) as [E|]; [|done]. apply not_true_iff_false in Hf. exfalso.
      apply Hf, existsb_exists. exists r. split; [apply list_elem_of_In; by eapply list_elem_of_lookup_2|by apply Z.eqb_eq].
  - apply Forall_fmap. eapply Forall_impl; [exact H3|]. intros r Hr. cbn. by rewrite Hg.
Qed.

(** After an insertion the row is found by its id, and after a deletion it is not. *)
Lemma proxy_roundtrip body t t' r :
  proxies_ok t -> proxy_insert body false t = (t', Row r) ->
  proxy_getById (Some (p_ID r)) false t' = Row r /\ proxy_getById (Some (p_ID r)) false (proxy_deleteById (Some (p_ID r)) false t').1 = NoRow.
Proof.
  intros (_ & _ & H3) Hi. unfold proxy_insert in Hi. destruct body as [p|]; [|done]. destruct (negb (valid_proxy p)); [done|].
  set (p' := mkProxyInsert _ _ _ _) in Hi. destruct (false || _); [done|]. injection Hi as <- <-.
  assert (Hold : filter (fun r => p_ID r = next t) (rows t) = []).
  { apply elem_of_nil_inv. intros x [Hx Hin]%list_elem_of_filter. rewrite Forall_forall in H3. specialize (H3 x Hin). lia. }
  unfold proxy_getById, proxy_deleteById. cbn [fst rows row_of p_ID]. split.
  - by rewrite filter_app, Hold, filter_cons_True.
  - replace (filter _ (filter _ _)) with (@nil ProxyModel); [done|]. symmetry. apply elem_of_nil_inv.
    intros x [Hx [Hn _]%list_elem_of_filter]%list_elem_of_filter. done.
Qed.

End Rows.
