(* ===== verification/Network.v ===== *)
(** * The network of nodes

    [node/pkg/libp2p] and [node/pkg/boot]: how a node makes its host, finds its
    address, and connects to the other nodes through the API of the boot node,
    which keeps the addresses of the nodes it can reach; and the shared handlers of
    errors of the HTTP servers.

    Hosts and their connections are those of libp2p: the state of the network is
    abstract, with [Connect] and [Peers] as the operations on it. *)

From S2P Require Import Prelude Errors Wire Text Strings Signing Bus Util.
From Stdlib Require Import Ascii.
Import Text Bus Strings.

Local Open Scope Z_scope.
Local Open Scope go_scope.

(** ** Errors of the HTTP servers ([admin/utils], [boot/utils], [api/utils]) *)
Module Fiber.

(** [code]: the status of the error, when the framework made it. *)
Definition CustomErrorHandler (code : option Z) (err : error) : Z * string := (default 500 code, Error err).

(** The place of a panic in the lines of its stack: the first one in a controller; [None]: the handler panics itself,
    which it does on a line without a slash. *)
Fixpoint failPoint (stackTrace : list string) : option string :=
  match stackTrace with
  | [] => Some ""%string
  | line :: stackTrace =>
      if Contains line "controller.go" then
        let path := default ""%string (head (Split (TrimSpace line) " "%char)) in
        match rev (Split path "/"%char) with
        | file :: dir :: _ => Some (dir +:+ "/" +:+ file)%string
        | _ => None
        end
      else failPoint stackTrace
  end.
Definition CustomStackTraceHandler (stack : string) : option string := failPoint (Split stack "010"%char).

(** [GetPool] and [GetRedisClient] are tried before the admin server is made, [GetPool] alone before the boot server. *)
Definition admin_Setup (Version : string) (pool redis : option error) : res string :=
  let version := if bool_decide (Version = "")%string then "test"%string else Version in
  match pool, redis with
  | Some _, _ => Err ErrAdminDbPoolNotFound
  | None, Some _ => Err ErrAdminRedisConnNotFound
  | None, None => Ok ("Node API " +:+ version)%string
  end.
Definition boot_Setup (pool : option error) : res string :=
  match pool with Some _ => Err ErrBootAPIDbPoolNotFound | None => Ok "Miko BootNode API 0.0.1"%string end.

Example failPoint_ok :
  failPoint ["goroutine 1"; "	/app/node/pkg/admin/config/controller.go:12 +0x1f"]%string = Some "config/controller.go:12"%string.
Proof. vm_compute. reflexivity. Qed.
(** A path without a directory makes the handler of panics panic. *)
Example failPoint_panics : failPoint ["controller.go:12 +0x1f"]%string = None.
Proof. vm_compute. reflexivity. Qed.

End Fiber.

(** ** [libp2p/setup/type.go] *)
Module HostSetup.

Section host.
Context {K H : Type}.
Record HostConfig : Type := mkHostConfig {
  Port : Z; PrivateKey : option K; SecretString : string; HolePunch : bool; Quic : bool }.
Definition WithPort (port : Z) (hc : HostConfig) : HostConfig :=
  mkHostConfig port (PrivateKey hc) (SecretString hc) (HolePunch hc) (Quic hc).
Definition WithPrivateKey (priv : option K) (hc : HostConfig) : HostConfig :=
  mkHostConfig (Port hc) priv (SecretString hc) (HolePunch hc) (Quic hc).
Definition WithSecretString (secretString : string) (hc : HostConfig) : HostConfig :=
  mkHostConfig (Port hc) (PrivateKey hc) secretString (HolePunch hc) (Quic hc).
Definition WithHolePunch (hc : HostConfig) : HostConfig :=
  mkHostConfig (Port hc) (PrivateKey hc) (SecretString hc) true (Quic hc).
Definition WithQuic (hc : HostConfig) : HostConfig :=
  mkHostConfig (Port hc) (PrivateKey hc) (SecretString hc) (HolePunch hc) true.

(** The options of libp2p that are used. *)
Inductive Libp2pOption : Type :=
| Identity (priv : K) | ListenAddrStrings (addr : string) | PrivateNetwork (psk : list Z) | EnableHolePunching.

Definition listenStr (c : HostConfig) : string :=
  if Quic c then ("/ip4/0.0.0.0/udp/" +:+ Itoa (Port c) +:+ "/quic-v1")%string
  else ("/ip4/0.0.0.0/tcp/" +:+ Itoa (Port c))%string.
Definition libp2pOpts (Sum256 : string -> list Z) (priv : K) (c : HostConfig) : list Libp2pOption :=
  [Identity priv; ListenAddrStrings (listenStr c)] ++
  (if bool_decide (SecretString c = "")%string then [] else [PrivateNetwork (Sum256 (SecretString c))]) ++
  (if HolePunch c then [EnableHolePunching] else []).
(** [secret] is the secret of the private network, [generated] a new key. *)
Definition NewHost (secret : string) (generated : res K) (Sum256 : string -> list Z) (libp2p_New : list Libp2pOption -> res H)
    (opts : list (HostConfig -> HostConfig)) : res H :=
  let config := foldl (fun c opt => opt c) (mkHostConfig 0 None secret false false) opts in
  let? priv := match PrivateKey config with Some k => Ok k | None => generated end in
  libp2p_New (libp2pOpts Sum256 priv config).

(** A host joins the private network of the secret, unless an option asks for an empty one. *)
Lemma NewHost_private secret generated Sum256 libp2p_New opts h :
  NewHost secret generated Sum256 libp2p_New opts = Ok h ->
  exists o c, libp2p_New o = Ok h /\ c = foldl (fun c opt => opt c) (mkHostConfig 0 None secret false false) opts /\
    ((exists psk, PrivateNetwork psk ∈ o) <-> SecretString c <> ""%string) /\
    (forall psk, PrivateNetwork psk ∈ o -> psk = Sum256 (SecretString c)).
Proof.
  unfold NewHost. set (c := foldl _ _ _). intros (priv & _ & Hn)%res_bind_Ok. exists (libp2pOpts Sum256 priv c), c.
  split_and!; [done|done| |]; unfold libp2pOpts; case_bool_decide as He; destruct (HolePunch c); set_solver.
Qed.
End host.
End HostSetup.

(** ** [libp2p/utils] *)
Module P2pUtils.

Record Host : Type := mkHost { h_ID : string; Addrs : list string }.
Record AddrInfo : Type := mkAddrInfo { ai_ID : string; ai_Addrs : list string }.

(** The first address that is not local. *)
Definition remote_addr (h : Host) : option string := head (filter (fun a => Contains a "127.0.0.1" = false) (Addrs h)).

(** [NewMultiaddr] parses an address, [Encapsulate] joins two and prints them. *)
Definition GetHostAddress {M} (NewMultiaddr : string -> res M) (Encapsulate : string -> M -> string) (h : Host) : res string :=
  let? hostAddr := NewMultiaddr ("/p2p/" +:+ h_ID h)%string in
  match remote_addr h with
  | None => Err ErrLibP2pEmptyNonLocalAddress
  | Some addr => Ok (Encapsulate addr hostAddr)
  end.
Definition ExtractConnectionUrl (h : Host) : res string :=
  match remote_addr h with
  | None => Err ErrLibP2pEmptyNonLocalAddress
  | Some addr => Ok (addr +:+ "/p2p/" +:+ h_ID h)%string
  end.
Definition ReplaceIpFromUrl (url ip : string) : res string :=
  let parts := Split url "/"%char in
  if (length parts <? 5)%nat || negb (bool_decide (parts !! 1%nat = Some "ip4"%string)) then Err (External "invalid URL format")
  else Ok (Join "/" (<[2%nat := ip]> parts)).

Section network.
Context {W M : Type}.
Variables (NewMultiaddr : string -> res M) (AddrInfoFromP2pAddr : M -> res AddrInfo).
(** [Connect h info]: the host named [h] dials the peer of [info]. *)
Variable Connect : string -> AddrInfo -> W -> W * option error.
(** [h.Network().Peers()] *)
Variable Peers : string -> W -> list string.
Variable rand : nat -> option Z.

Definition ConnectionUrl2AddrInfo (url : string) : res AddrInfo :=
  let? peerMultiAddr := NewMultiaddr url in AddrInfoFromP2pAddr peerMultiAddr.

Definition IsHostAlive (h addr : string) (w : W) : W * (bool * option error) :=
  match ConnectionUrl2AddrInfo addr with
  | Err err => (w, (false, Some err))
  | Ok info =>
      let '(w, lastErr, _) := Retrier.Retry (Connect h info) rand 3 (100 * Millisecond) (1 * Second) w in
      match lastErr with
      | Some _ => (w, (false, Some (Sentinel ErrLibP2pFailToConnectPeer)))
      | None => (w, (true, None))
      end
  end.

(** ** [libp2p/setup/setup.go] *)
Record BootPeerModel : Type := mkBootPeer { bp_ID : Z; Url : string }.

Definition own_url (Getenv : string -> string) (h : Host) : res string :=
  let? url := ExtractConnectionUrl h in
  let externalIp := Getenv "HOST_IP"%string in
  if bool_decide (externalIp = "")%string then Ok url else ReplaceIpFromUrl url externalIp.

Definition dial_to_self : string := "failed to dial: dial to self attempted".
Definition dial (h : string) (info : AddrInfo) (w : W) : W * option error :=
  let '(w, dialErr) := Connect h info w in
  match dialErr with
  | Some e => if bool_decide (Error e = dial_to_self) then (w, None) else (w, Some e)
  | None => (w, None)
  end.
Definition connect_peer (h : string) (w : W) (dbPeer : BootPeerModel) : W :=
  match ConnectionUrl2AddrInfo (Url dbPeer) with
  | Err _ => w
  | Ok info =>
      if bool_decide (ai_ID info ∈ Peers h w) then w
      else (Retrier.Retry (dial h info) rand 5 (1 * Second) (5 * Second) w).1.1
  end.
(** [request endpoint url]: the POST to the boot API. *)
Definition ConnectThroughBootApi (Getenv : string -> string) (request : string -> string -> W -> W * res (list BootPeerModel))
    (h : Host) (w : W) : W * option error :=
  match own_url Getenv h with
  | Err err => (w, Some err)
  | Ok url =>
      let apiEndpoint := if bool_decide (Getenv "BOOT_API_URL" = "")%string then "http://localhost:8089"%string else Getenv "BOOT_API_URL"%string in
      match request (apiEndpoint +:+ "/api/v1/peer/sync")%string url w with
      | (w, Err err) => (w, Some err)
      | (w, Ok dbPeers) => (foldl (connect_peer (h_ID h)) w dbPeers, None)
      end
  end.

(** ** [libp2p/helper] *)
Definition GET_PEER_COUNT : string := "get_peer_count".
Definition LIBP2P_SYNC : string := "libp2p_sync".
(** A response on the channel of a message, with the count it carries. *)
Definition send : Type := nat * MessageResponse * option Z.
Definition answer_error (err : error) (msg : Message) : list send := (fun r => (r, None)) <$> HandleMessageError err msg.
(** The responses are sent in order, each once somebody receives it. *)
Definition handleMessage (sync : W -> W * option error) (h : Host) (msg : Message) (w : W) : W * list send :=
  if negb (bool_decide (To msg = LIBP2P)) then (w, []) else
  let first := if negb (bool_decide (From msg = ADMIN)) then answer_error (Sentinel ErrBusNonAdmin) msg else [] in
  let '(w, rest) :=
    if bool_decide (Command (Content msg) = GET_PEER_COUNT) then
      (w, [(Response msg, mkResponse true None, Some (Z.of_nat (length (Peers (h_ID h) w))))])
    else if bool_decide (Command (Content msg) = LIBP2P_SYNC) then
      match sync w with
      | (w, Some err) => (w, answer_error err msg)
      | (w, None) => (w, [(Response msg, mkResponse true None, None)])
      end
    else (w, answer_error (Sentinel ErrBusUnknownCommand) msg) in
  (w, first ++ rest).

(** [notConnected]: the event says that a peer was lost.  The result has the sleeps. *)
Definition handleDisconnectEvent (sync : W -> W * option error) (notConnected : bool) (w : W) : W * list Z :=
  if notConnected then foldl (fun '(w, sleeps) i => ((sync w).1, sleeps ++ [i * 60 * Second])) (w, []) [1; 2; 3] else (w, []).

(** Exactly one response, unless the sender is not the admin API: then the command is run nevertheless and answered a
    second time. *)
Lemma helper_responses sync h msg w :
  To msg = LIBP2P -> length (handleMessage sync h msg w).2 = (if bool_decide (From msg = ADMIN) then 1%nat else 2%nat).
Proof.
  intros Hto. unfold handleMessage. rewrite bool_decide_true by done. cbn [negb].
  repeat case_bool_decide; try destruct (sync w) as [w' []]; reflexivity.
Qed.

(** *** Retries *)
Lemma retry_inv {St} (job : St -> St * option error) (P : St -> Prop) n a b s :
  (forall s, P s -> P (job s).1) -> P s -> P (Retrier.Retry job rand n a b s).1.1.
Proof.
  intros Hjob. unfold Retrier.Retry. generalize (Z.to_nat n) 0%nat (@None error). intros k.
  revert a s. induction k as [|k IH]; intros a s i err Hs; [done|]. cbn [Retrier.retry_loop].
  specialize (Hjob s Hs) as Hj. destruct (job s) as [s' [e|]]; [|done]. cbn in Hj.
  match goal with |- context [Retrier.retry_loop job rand k (S i) ?a' b (Some e) s'] => specialize (IH a' s' (S i) (Some e) Hj) end.
  by destruct (Retrier.retry_loop _ _ _ _ _ _ _ _) as [[]].
Qed.
Lemma retry_ok {St} (job : St -> St * option error) n a b s :
  0 < n -> (Retrier.Retry job rand n a b s).1.2 = None ->
  exists s1, job s1 = ((Retrier.Retry job rand n a b s).1.1, None).
Proof.
  intros Hn. unfold Retrier.Retry. destruct (Z.to_nat n) as [|k] eqn:Hk; [lia|]. clear Hk Hn.
  enough (H : forall i err, (Retrier.retry_loop job rand (S k) i a b err s).1.2 = None ->
    exists s1, job s1 = ((Retrier.retry_loop job rand (S k) i a b err s).1.1, None)) by apply H.
  revert a s. induction k as [|k IH]; intros a s i err; cbn [Retrier.retry_loop];
    destruct (job s) as [s' [e|]] eqn:Hj; cbn; try done; try (intros _; by exists s).
  match goal with |- context [Retrier.calculateJitter ?a' (rand (S i))] => specialize (IH a' s' (S i) (Some e)) end.
  cbn [Retrier.retry_loop] in IH |- *. revert IH. destruct (job s') as [s2 [e2|]]; [|done].
  by destruct (Retrier.retry_loop _ _ _ _ _ _ _ _) as [[]].
Qed.

End network.
End P2pUtils.

(** ** [node/pkg/boot] *)
Module Boot.
Import P2pUtils.

(** The table of peers: ids and addresses, an address at most once. *)
Record Table : Type := mkTable { peers : list BootPeerModel; next : Z }.
Definition urls (t : Table) : list string := Url <$> peers t.
(** [ON CONFLICT (url) DO NOTHING] *)
Definition InsertPeer (url : string) (t : Table) : Table :=
  if bool_decide (url ∈ urls t) then mkTable (peers t) (next t + 1)
  else mkTable (peers t ++ [mkBootPeer (next t) url]) (next t + 1).
Definition DeletePeerById (id : Z) (t : Table) : Table := mkTable (filter (fun p => bp_ID p <> id) (peers t)) (next t).

Inductive Reply : Type := Peers_ (l : list BootPeerModel) | Failed (status : Z) (body : string).

Section boot.
Context {W M : Type}.
Variables (NewMultiaddr : string -> res M) (AddrInfoFromP2pAddr : M -> res AddrInfo).
Variable Connect : string -> AddrInfo -> W -> W * option error.
Variable rand : nat -> option Z.
Notation IsHostAlive := (IsHostAlive NewMultiaddr AddrInfoFromP2pAddr Connect rand).

(** [payload]: the address of the body, or that it cannot be parsed; [h]: the host of the server, if it was set up with
    one; the faults are those of the two statements. *)
Definition sync (payload : res string) (h : option string) (fault_get fault_insert : bool) (s : W * Table)
    : (W * Table) * Reply :=
  let '(w, t) := s in
  match payload with
  | Err _ => (s, Failed 400 "Failed to parse request")
  | Ok url =>
      if bool_decide (url = "")%string then (s, Failed 400 "Failed to validate request") else
      match h with
      | None => (s, Failed 500 "Failed to get host")
      | Some h =>
          let '(w, (isAlive, err)) := IsHostAlive h url w in
          match err with
          | Some _ => ((w, t), Failed 500 "Failed to check peer")
          | None =>
              if negb isAlive then ((w, t), Failed 400 "invalid peer") else
              if fault_get then ((w, t), Failed 500 "Failed to execute get query") else
              if fault_insert then ((w, t), Failed 500 "Failed to execute insert query")
              else ((w, InsertPeer url t), Peers_ (peers t))
          end
      end
  end.

Fixpoint refresh_loop (h : string) (fault : nat -> bool) (l : list BootPeerModel) (k : nat) (s : W * Table) : W * Table :=
  match l with
  | [] => s
  | p :: l =>
      let '(w, t) := s in
      let '(w, (isAlive, liveCheckErr)) := IsHostAlive h (Url p) w in
      let skip := match liveCheckErr with
                  | Some err => negb (errors_Is err ErrLibP2pFailToConnectPeer)
                  | None => false
                  end in
      let t := if skip || isAlive || fault k then t else DeletePeerById (bp_ID p) t in
      refresh_loop h fault l (S k) (w, t)
  end.
Definition RefreshJob (h : string) (fault_get : option error) (fault : nat -> bool) (s : W * Table) : (W * Table) * option error :=
  match fault_get with
  | Some err => (s, Some err)
  | None => (refresh_loop h fault (peers s.2) 0 s, None)
  end.

(** *** The table *)
Definition table_ok (t : Table) : Prop :=
  NoDup (bp_ID <$> peers t) /\ NoDup (urls t) /\ Forall (fun p => bp_ID p < next t) (peers t).
Lemma InsertPeer_ok url t : table_ok t -> table_ok (InsertPeer url t).
Proof.
  intros (H1 & H2 & H3). assert (Forall (fun p => bp_ID p < next t + 1) (peers t)) by (eapply Forall_impl; [exact H3|]; cbn; lia).
  unfold InsertPeer. case_bool_decide as Hin; [by split_and!|]. unfold table_ok, urls. cbn [peers next]. rewrite !fmap_app, !NoDup_app.
  split_and!; try done; try apply NoDup_singleton.
  - intros i (p & -> & Hp)%list_elem_of_fmap. rewrite Forall_forall in H3. specialize (H3 p Hp). cbn. rewrite list_elem_of_singleton. lia.
  - intros u Hu. cbn. rewrite list_elem_of_singleton. by intros ->.
  - apply Forall_app. split; [done|]. by constructor; [cbn; lia|].
Qed.
Lemma DeletePeerById_ok id t : table_ok t -> table_ok (DeletePeerById id t).
Proof.
  intros (H1 & H2 & H3). assert (Hs : sublist (peers (DeletePeerById id t)) (peers t)) by apply sublist_filter.
  split_and!; [exact (sublist_NoDup _ _ H1 (fmap_sublist _ _ _ Hs))|exact (sublist_NoDup _ _ H2 (fmap_sublist _ _ _ Hs))|].
  apply Forall_forall. intros p [_ Hp]%list_elem_of_filter. rewrite Forall_forall in H3. by apply H3.
Qed.
Lemma sync_ok payload h f1 f2 s : table_ok s.2 -> table_ok (sync payload h f1 f2 s).1.2.
Proof.
  destruct s as [w t]. cbn. intros Ht. unfold sync. destruct payload as [url|]; [|done]. case_bool_decide; [done|].
  destruct h as [h|]; [|done]. destruct (IsHostAlive h url w) as [w' [[] []]]; try done.
  destruct f1; [done|]. destruct f2; [done|]. by apply InsertPeer_ok.
Qed.
Lemma refresh_loop_ok h fault l : forall k s, table_ok s.2 -> table_ok (refresh_loop h fault l k s).2.
Proof.
  induction l as [|p l IH]; intros k [w t] Ht; [done|]. cbn [refresh_loop].
  destruct (IsHostAlive h (Url p) w) as [w' [alive err]]. apply IH. cbn. destruct (_ || fault k); auto using DeletePeerById_ok.
Qed.

Lemma NoDup_fmap_key {A B} (f : A -> B) (l : list A) x y : NoDup (f <$> l) -> x ∈ l -> y ∈ l -> f x = f y -> x = y.
Proof.
  induction l as [|a l IH]; cbn; [set_solver|]. intros [Ha Hn]%NoDup_cons [->|Hx]%elem_of_cons [->|Hy]%elem_of_cons E; try done.
  - exfalso. apply Ha. rewrite E. by apply list_elem_of_fmap_2.
  - exfalso. apply Ha. rewrite <- E. by apply list_elem_of_fmap_2.
  - by apply IH.
Qed.

(** *** What a refresh removes *)
Definition lost : bool * option error := (false, Some (Sentinel ErrLibP2pFailToConnectPeer)).
Lemma IsHostAlive_cases h url w :
  (IsHostAlive h url w).2 = (true, None) \/ (IsHostAlive h url w).2 = lost \/
  (exists err, ConnectionUrl2AddrInfo NewMultiaddr AddrInfoFromP2pAddr url = Err err /\ (IsHostAlive h url w).2 = (false, Some err)).
Proof.
  unfold P2pUtils.IsHostAlive. destruct (ConnectionUrl2AddrInfo _ _ url) as [info|err]; [|right; right; by exists err].
  destruct (Retrier.Retry _ _ _ _ _ w) as [[w' [e|]] sl]; [right; by left|by left].
Qed.
(** A row is tried once, and a row that stands for another address is never deleted in its place. *)
Lemma refresh_loop_spec h fault p l : forall k s,
  table_ok s.2 -> p ∈ peers s.2 -> (forall q, q ∈ l -> bp_ID q = bp_ID p -> Url q = Url p) ->
  ((forall w, (IsHostAlive h (Url p) w).2 <> lost) ->
   (forall err, ConnectionUrl2AddrInfo NewMultiaddr AddrInfoFromP2pAddr (Url p) = Err err -> errors_Is err ErrLibP2pFailToConnectPeer = false) ->
   p ∈ peers (refresh_loop h fault l k s).2).
Proof.
  intros k s Ht Hp Hq Halive Hbad. revert k s Ht Hp. induction l as [|q l IH]; intros k [w t] Ht Hp; [done|]. cbn [refresh_loop].
  destruct (IsHostAlive h (Url q) w) as [w' [alive err]] eqn:Hq'. apply IH; [intros x Hx; apply Hq; by right| |]; cbn.
  { destruct (_ || fault k); [done|by apply DeletePeerById_ok]. }
  destruct (_ || fault k) eqn:Hf; [done|]. apply list_elem_of_filter. split; [|done]. intros Heq.
  rewrite (Hq q) in Hq' by (by left || done). destruct (IsHostAlive_cases h (Url p) w) as [Hc|[Hc|(e & He & Hc)]]; rewrite Hq' in Hc; cbn in Hc.
  - injection Hc as -> ->. done.
  - by apply (Halive w); rewrite Hq'.
  - injection Hc as -> ->. by rewrite (Hbad e He) in Hf.
Qed.
Lemma refresh_loop_subset h fault l : forall k s, peers (refresh_loop h fault l k s).2 ⊆ peers s.2.
Proof.
  induction l as [|q l IH]; intros k [w t]; [done|]. cbn [refresh_loop]. destruct (IsHostAlive h (Url q) w) as [w' [alive err]].
  etransitivity; [apply IH|]. cbn. destruct (_ || fault k); [done|]. intros x [_ Hx]%list_elem_of_filter. done.
Qed.
Lemma refresh_loop_next h fault l : forall k s, next (refresh_loop h fault l k s).2 = next s.2.
Proof.
  induction l as [|q l IH]; intros k [w t]; [done|]. cbn [refresh_loop]. destruct (IsHostAlive h (Url q) w) as [w' [alive err]].
  rewrite IH. cbn. by destruct (_ || fault k).
Qed.
Lemma refresh_loop_removes h p l : forall k s,
  p ∈ l -> (forall w, (IsHostAlive h (Url p) w).2 = lost) -> p ∉ peers (refresh_loop h (fun _ => false) l k s).2.
Proof.
  induction l as [|q l IH]; intros k [w t] Hin Hlost; [by apply not_elem_of_nil in Hin|]. cbn [refresh_loop].
  destruct (IsHostAlive h (Url q) w) as [w' [alive err]] eqn:Hq. apply elem_of_cons in Hin as [->|Hin]; [|by apply IH].
  specialize (Hlost w). rewrite Hq in Hlost. injection Hlost as -> ->. intros Hin%refresh_loop_subset. cbn in Hin.
  apply list_elem_of_filter in Hin as [Hne _]. done.
Qed.

(** One refresh without failures of the database removes exactly the peers that
    cannot be connected: those that can be parsed but not reached. *)
Theorem refresh_exact h s s' :
  table_ok s.2 -> RefreshJob h None (fun _ => false) s = (s', None) ->
  (forall err url, ConnectionUrl2AddrInfo NewMultiaddr AddrInfoFromP2pAddr url = Err err -> errors_Is err ErrLibP2pFailToConnectPeer = false) ->
  forall p, p ∈ peers s.2 ->
    ((forall w, (IsHostAlive h (Url p) w).2 = lost) -> p ∉ peers s'.2) /\
    ((forall w, (IsHostAlive h (Url p) w).2 <> lost) -> p ∈ peers s'.2).
Proof.
  unfold RefreshJob. intros Ht [= <-] Hbad p Hp. split; [by apply refresh_loop_removes|]. intros Hl.
  apply refresh_loop_spec; [done|done| |done|by intros err; apply Hbad].
  intros q Hq Heq. destruct Ht as (Hn & _ & _). f_equal. by apply (NoDup_fmap_key bp_ID (peers s.2)).
Qed.

End boot.
End Boot.

(** ** The nodes and the boot node together *)
Module Mesh.
Import P2pUtils Boot.

(** A job on one part of the state is retried as on the part alone. *)
Lemma retry_part {W T} (job : W -> W * option error) (job2 : W * T -> (W * T) * option error) rand n a b w t :
  (forall w t, job2 (w, t) = (((job w).1, t), (job w).2)) ->
  (Retrier.Retry job2 rand n a b (w, t)).1 =
    (((Retrier.Retry job rand n a b w).1.1, t), (Retrier.Retry job rand n a b w).1.2).
Proof.
  intros Hj. unfold Retrier.Retry. generalize (Z.to_nat n) 0%nat (@None error). intros k. revert a w.
  induction k as [|k IH]; intros a w i err; [done|]. cbn [Retrier.retry_loop]. rewrite Hj. destruct (job w) as [w' [e|]]; [|done]. cbn [fst snd].
  match goal with |- context [Retrier.retry_loop job2 rand k (S i) ?a' b _ _] => specialize (IH a' w' (S i) (Some e)) end.
  destruct (Retrier.retry_loop job2 _ _ _ _ _ _ _) as [[]], (Retrier.retry_loop job _ _ _ _ _ _ _) as [[]]. done.
Qed.

Lemma append_nonempty_r a b : b <> ""%string -> (a +:+ b)%string <> ""%string.
Proof. by destruct a. Qed.
Lemma own_url_nonempty Getenv h url : own_url Getenv h = Ok url -> url <> ""%string.
Proof.
  unfold own_url. intros (u & Hu & Hr)%res_bind_Ok. assert (u <> ""%string) as Hne.
  { unfold ExtractConnectionUrl in Hu. destruct (remote_addr h); [|done]. injection Hu as <-. by apply append_nonempty_r. }
  case_bool_decide; [by injection Hr as <-|]. unfold ReplaceIpFromUrl in Hr. destruct (Split u _) as [|x [|y [|z l]]]; try done.
  destruct (_ || _); [done|]. injection Hr as <-. cbn -[String.append]. by apply append_nonempty_r.
Qed.

Record Node : Type := mkNode { host : Host; env : string -> string }.
Definition name (n : Node) : string := h_ID (host n).

Section mesh.
Context {W M : Type}.
Variables (NewMultiaddr : string -> res M) (AddrInfoFromP2pAddr : M -> res AddrInfo).
Variable Connect : string -> AddrInfo -> W -> W * option error.
Variable Peers : string -> W -> list string.
Variable rand : nat -> option Z.
(** The host of the boot node. *)
Variable boot : string.

Notation ConnectionUrl2AddrInfo := (ConnectionUrl2AddrInfo NewMultiaddr AddrInfoFromP2pAddr).
Notation Sys := (W * Table)%type.
(** The same operations on the network beside the table of the boot node. *)
Definition sys_Connect (h : string) (info : AddrInfo) (s : Sys) : Sys * option error :=
  (((Connect h info s.1).1, s.2), (Connect h info s.1).2).
Definition sys_Peers (h : string) (s : Sys) : list string := Peers h s.1.
(** The request of a node is handled by the boot node. *)
Definition request (f1 f2 : bool) (endpoint url : string) (s : Sys) : Sys * res (list BootPeerModel) :=
  match Boot.sync NewMultiaddr AddrInfoFromP2pAddr Connect rand (Ok url) (Some boot) f1 f2 s with
  | (s, Peers_ l) => (s, Ok l)
  | (s, Failed _ _) => (s, Err ErrRequestStatusNotOk)
  end.

(** A synchronisation that nothing interrupts. *)
Definition connect (n : Node) (f1 f2 : bool) (s : Sys) : Sys * option error :=
  ConnectThroughBootApi NewMultiaddr AddrInfoFromP2pAddr sys_Connect sys_Peers rand (env n) (request f1 f2) (host n) s.

(** *** Synchronisations and refreshes, interleaved

    Requests are handled concurrently and the boot node uses no transaction: the
    check of the address, the read of the peers, the insert and each of the dials
    of the node are steps of their own.  [seen]: the synchronisations whose insert
    came before this one's read. *)
Inductive Phase : Type :=
| Asking
| Reading
| Inserting (l : list BootPeerModel) (seen : list nat)
| Dialling (l : list BootPeerModel) (seen : list nat)
| Finished (seen : list nat)
| Broken.
Record Session : Type := mkSession { s_node : Node; s_url : string; s_phase : Phase }.
Definition at_phase (x : Session) (p : Phase) : Session := mkSession (s_node x) (s_url x) p.

(** [refreshes]: what the refreshes under way have still to check. *)
Record State : Type := mkState {
  net : W; table : Table; sessions : list Session; inserted : list nat; refreshes : list (list BootPeerModel)
}.

(** The next step of session [i]; [fault]: the statement fails. *)
Definition advance (fault : bool) (i : nat) (x : Session) (s : State) : option (State * Phase) :=
  match s_phase x with
  | Asking =>
      if bool_decide (s_url x = "")%string then Some (s, Broken) else
      let '(w, (isAlive, err)) := IsHostAlive NewMultiaddr AddrInfoFromP2pAddr Connect rand boot (s_url x) (net s) in
      Some (mkState w (table s) (sessions s) (inserted s) (refreshes s),
            match err with Some _ => Broken | None => if isAlive then Reading else Broken end)
  | Reading => Some (s, if fault then Broken else Inserting (peers (table s)) (inserted s))
  | Inserting l seen =>
      if fault then Some (s, Broken) else
      Some (mkState (net s) (InsertPeer (s_url x) (table s)) (sessions s) (i :: inserted s) (refreshes s), Dialling l seen)
  | Dialling (p :: l) seen =>
      Some (mkState (P2pUtils.connect_peer NewMultiaddr AddrInfoFromP2pAddr Connect Peers rand (name (s_node x)) (net s) p)
              (table s) (sessions s) (inserted s) (refreshes s), Dialling l seen)
  | Dialling [] seen => Some (s, Finished seen)
  | Finished _ | Broken => None
  end.

Inductive Event : Type :=
| Start (n : Node)
| Session_ (i : nat) (fault : bool)
| RefreshRead
| RefreshNext (i : nat) (fault : bool).
Definition step (s : State) (e : Event) : option State :=
  match e with
  | Start n =>
      match own_url (env n) (host n) with
      | Ok url => Some (mkState (net s) (table s) (sessions s ++ [mkSession n url Asking]) (inserted s) (refreshes s))
      | Err _ => None
      end
  | Session_ i fault =>
      x ← sessions s !! i; '(s, p) ← advance fault i x s;
      Some (mkState (net s) (table s) (<[i := at_phase x p]> (sessions s)) (inserted s) (refreshes s))
  | RefreshRead => Some (mkState (net s) (table s) (sessions s) (inserted s) (refreshes s ++ [peers (table s)]))
  | RefreshNext i fault =>
      l ← refreshes s !! i;
      match l with
      | [] => None
      | p :: l =>
          let '(w, t) := refresh_loop NewMultiaddr AddrInfoFromP2pAddr Connect rand boot (fun _ => fault) [p] 0 (net s, table s) in
          Some (mkState w t (sessions s) (inserted s) (<[i := l]> (refreshes s)))
      end
  end.
Fixpoint run (events : list Event) (s : State) : option State :=
  match events with [] => Some s | e :: events => s ← step s e; run events s end.
Definition start (w : W) (t : Table) : State := mkState w t [] [] [].

(** What libp2p promises: a dial without an error leaves the two connected, only a dial to itself fails as one, a dial
    closes no connection, and a connection has two ends. *)
Record Libp2p : Prop := {
  Connect_sound : forall x info w w', Connect x info w = (w', None) -> ai_ID info <> x -> ai_ID info ∈ Peers x w';
  Connect_self : forall x info w w' e, Connect x info w = (w', Some e) -> Error e = dial_to_self -> ai_ID info = x;
  Connect_keeps : forall x info w a, Peers a w ⊆ Peers a (Connect x info w).1;
  Peers_sym : forall a b w, b ∈ Peers a w -> a ∈ Peers b w }.
(** A node that is up: its address can be parsed and names it, and of the attempts to dial it that the boot node and the
    other nodes make, at least one succeeds. *)
Record up (n : Node) (url : string) (info : AddrInfo) : Prop := {
  up_url : own_url (env n) (host n) = Ok url;
  up_info : ConnectionUrl2AddrInfo url = Ok info;
  up_name : ai_ID info = name n;
  up_boot : forall w, (Retrier.Retry (Connect boot info) rand 3 (100 * Millisecond) (1 * Second) w).1.2 = None;
  up_dial : forall x w, x <> name n -> (Retrier.Retry (dial Connect x info) rand 5 (1 * Second) (5 * Second) w).1.2 = None }.

Context (HL : Libp2p).
Variable nodes : list Node.
Hypothesis nodes_up : forall n, n ∈ nodes -> exists url info, up n url info.

(** *** No connection is lost *)
Definition grows (w w' : W) : Prop := forall a, Peers a w ⊆ Peers a w'.
Lemma grows_refl w : grows w w.
Proof. by intros a. Qed.
Lemma grows_trans w1 w2 w3 : grows w1 w2 -> grows w2 w3 -> grows w1 w3.
Proof. intros H1 H2 a. etransitivity; [apply H1|apply H2]. Qed.
Lemma grows_dial x info w : grows w (dial Connect x info w).1.
Proof.
  intros a. unfold dial. pose proof (Connect_keeps HL x info w a) as Hk. destruct (Connect x info w) as [w' [e|]]; [case_bool_decide|]; done.
Qed.
Lemma grows_retry job n a b w : (forall w, grows w (job w).1) -> grows w (Retrier.Retry job rand n a b w).1.1.
Proof. intros Hj. apply (retry_inv rand job (grows w)); [|apply grows_refl]. intros s Hs. eapply grows_trans; [exact Hs|apply Hj]. Qed.
Lemma grows_alive x url w : grows w (IsHostAlive NewMultiaddr AddrInfoFromP2pAddr Connect rand x url w).1.
Proof.
  unfold IsHostAlive. destruct (ConnectionUrl2AddrInfo url) as [info|]; [|apply grows_refl].
  pose proof (grows_retry (Connect x info) 3 (100 * Millisecond) (1 * Second) w (fun w a => Connect_keeps HL x info w a)) as Hg.
  by destruct (Retrier.Retry _ _ _ _ _ w) as [[w' [e|]] sl].
Qed.
Lemma grows_refresh h fault l : forall k s,
  grows s.1 (refresh_loop NewMultiaddr AddrInfoFromP2pAddr Connect rand h fault l k s).1.
Proof.
  induction l as [|p l IH]; intros k [w t]; [apply grows_refl|]. cbn [refresh_loop]. pose proof (grows_alive h (Url p) w) as Hg.
  destruct (IsHostAlive _ _ _ _ h (Url p) w) as [w' [alive err]]. cbn in Hg.
  eapply grows_trans; [exact Hg|]. exact (IH (S k) (w', _)).
Qed.

(** *** Connecting to a peer of the list *)
Notation connect_peer := (P2pUtils.connect_peer NewMultiaddr AddrInfoFromP2pAddr Connect Peers rand).
Lemma connect_peer_spec x w p :
  grows w (connect_peer x w p) /\
  (forall n info, up n (Url p) info -> name n <> x -> name n ∈ Peers x (connect_peer x w p)).
Proof.
  unfold P2pUtils.connect_peer. destruct (ConnectionUrl2AddrInfo (Url p)) as [info|e] eqn:Hu.
  2:{ split; [apply grows_refl|]. intros n i Hn. rewrite (up_info _ _ _ Hn) in Hu. done. }
  case_bool_decide as Hin.
  { split; [apply grows_refl|]. intros n i Hn _. rewrite (up_info _ _ _ Hn) in Hu. injection Hu as ->.
    by rewrite <- (up_name _ _ _ Hn). }
  split; [apply grows_retry, grows_dial|].
  intros n i Hn Hx. rewrite (up_info _ _ _ Hn) in Hu. injection Hu as ->.
  destruct (retry_ok rand (dial Connect x info) 5 (1 * Second) (5 * Second) w) as [w1 Hw]; [lia|by apply (up_dial _ _ _ Hn)|].
  rewrite <- (up_name _ _ _ Hn) in *. revert Hw. unfold dial at 1. destruct (Connect x info w1) as [w2 [e|]] eqn:Hc.
  - case_bool_decide as He; [|done]. by apply (Connect_self HL _ _ _ _ _ Hc) in He.
  - intros [= Hw]. rewrite <- Hw. by apply (Connect_sound HL _ _ _ _ Hc).
Qed.
(** *** The invariant *)
Lemma up_alive n url info w : up n url info -> (IsHostAlive NewMultiaddr AddrInfoFromP2pAddr Connect rand boot url w).2 = (true, None).
Proof.
  intros Hn. unfold IsHostAlive. rewrite (up_info _ _ _ Hn). pose proof (up_boot _ _ _ Hn w) as Hb.
  destruct (Retrier.Retry _ _ _ _ _ w) as [[w' [e|]] sl]; [done|done].
Qed.
Lemma InsertPeer_urls url t : urls t ⊆ urls (InsertPeer url t) /\ url ∈ urls (InsertPeer url t).
Proof. unfold InsertPeer, urls. case_bool_decide; cbn; [done|]. rewrite fmap_app. set_solver. Qed.
Lemma InsertPeer_new url t p : p ∈ peers (InsertPeer url t) -> p ∈ peers t \/ bp_ID p = next t.
Proof. unfold InsertPeer. case_bool_decide; cbn; [by left|]. rewrite elem_of_app, list_elem_of_singleton. intros [?| ->]; auto. Qed.

Definition linked (w : W) (a b : string) : Prop := a = b \/ b ∈ Peers a w.
(** Session [k] has the address [u]. *)
Definition url_of (s : State) (k : nat) (u : string) : Prop := exists x, sessions s !! k = Some x /\ s_url x = u.

(** The sessions that [x] has seen are among those it still has to dial, or
    it is connected to their nodes. *)
Definition phase_ok (w : W) (ss : list Session) (x : Session) : Prop :=
  let me := name (s_node x) in
  match s_phase x with
  | Asking | Reading | Broken => True
  | Inserting l seen => forall k y, k ∈ seen -> ss !! k = Some y -> s_url y ∈ Url <$> l
  | Dialling l seen => forall k y, k ∈ seen -> ss !! k = Some y -> s_url y ∈ Url <$> l \/ linked w me (name (s_node y))
  | Finished seen => forall k y, k ∈ seen -> ss !! k = Some y -> linked w me (name (s_node y))
  end.

Record inv (s : State) : Prop := {
  inv_table : table_ok (table s);
  inv_node : forall x, x ∈ sessions s -> s_node x ∈ nodes /\ own_url (env (s_node x)) (host (s_node x)) = Ok (s_url x);
  inv_inserted : forall k, k ∈ inserted s -> exists x, sessions s !! k = Some x /\ s_url x ∈ urls (table s);
  inv_after : forall x l seen, x ∈ sessions s ->
    s_phase x = Inserting l seen \/ s_phase x = Dialling l seen \/ s_phase x = Finished seen -> seen ⊆ inserted s;
  inv_phase : forall x, x ∈ sessions s -> phase_ok (net s) (sessions s) x;
  inv_refresh : forall l q, l ∈ refreshes s -> q ∈ l ->
    bp_ID q < next (table s) /\ forall p, p ∈ peers (table s) -> bp_ID q = bp_ID p -> Url q = Url p
}.

(** Two lists of sessions with the same nodes and addresses. *)
Definition same_sessions (ss ss' : list Session) : Prop :=
  forall k y, ss' !! k = Some y -> exists y0, ss !! k = Some y0 /\ s_url y = s_url y0 /\ s_node y = s_node y0.

Lemma linked_grows w w' a b : grows w w' -> linked w a b -> linked w' a b.
Proof. intros Hg [->|Hin]; [by left|right]. by apply Hg. Qed.

Lemma phase_ok_mono w w' ss ss' x : grows w w' -> (forall k y, ss' !! k = Some y -> (exists y0, ss !! k = Some y0 /\ s_url y = s_url y0 /\ s_node y = s_node y0) \/
    forall l seen, s_phase x = Inserting l seen \/ s_phase x = Dialling l seen \/ s_phase x = Finished seen -> k ∉ seen) ->
  phase_ok w ss x -> phase_ok w' ss' x.
Proof.
  intros Hg Hss. unfold phase_ok. destruct (s_phase x) as [| |l seen|l seen|seen|] eqn:Hp; try done.
  - intros H k y Hk Hy. destruct (Hss k y Hy) as [(y0 & H0 & -> & _)|Hn]; [by eapply H|]. by destruct (Hn l seen ltac:(auto)).
  - intros H k y Hk Hy. destruct (Hss k y Hy) as [(y0 & H0 & -> & ->)|Hn]; [|by destruct (Hn l seen ltac:(auto))].
    destruct (H k y0 Hk H0); [by left|right]. by eapply linked_grows.
  - intros H k y Hk Hy. destruct (Hss k y Hy) as [(y0 & H0 & _ & ->)|Hn]; [|by destruct (Hn [] seen ltac:(auto))].
    eapply linked_grows; [done|]. by eapply H.
Qed.
Lemma same_insert (ss : list Session) i x p : ss !! i = Some x ->
  forall k y, <[i := at_phase x p]> ss !! k = Some y -> exists y0, ss !! k = Some y0 /\ s_url y = s_url y0 /\ s_node y = s_node y0.
Proof. intros Hi k y [(<- & <- & _)|[_ Hk]]%list_lookup_insert_Some; [by exists x|by exists y]. Qed.
Lemma elem_insert (ss : list Session) i x p y : ss !! i = Some x -> y ∈ <[i := at_phase x p]> ss -> y = at_phase x p \/ y ∈ ss.
Proof.
  intros Hi [k Hk]%list_elem_of_lookup. apply list_lookup_insert_Some in Hk as [(_ & <- & _)|[_ Hk]]; [by left|right].
  by eapply list_elem_of_lookup_2.
Qed.

(** Session [i] goes on to phase [p], with this network, table and inserts. *)
Lemma inv_session s i x p w t ins :
  inv s -> sessions s !! i = Some x -> grows (net s) w -> table_ok t -> urls (table s) ⊆ urls t ->
  (ins = inserted s \/ ins = i :: inserted s /\ s_url x ∈ urls t) ->
  (forall l q, l ∈ refreshes s -> q ∈ l -> bp_ID q < next t /\ forall p, p ∈ peers t -> bp_ID q = bp_ID p -> Url q = Url p) ->
  (forall l seen, p = Inserting l seen \/ p = Dialling l seen \/ p = Finished seen -> seen ⊆ ins) ->
  phase_ok w (sessions s) (at_phase x p) ->
  inv (mkState w t (<[i := at_phase x p]> (sessions s)) ins (refreshes s)).
Proof.
  intros [H1 H2 H3 H4 H5 H6] Hi Hg Ht Hu Hins Hre Hseen Hp.
  assert (Hsub : inserted s ⊆ ins) by (destruct Hins as [->|[-> _]]; [done|set_solver]).
  assert (Hlen : (i < length (sessions s))%nat) by by eapply lookup_lt_Some.
  assert (Hold : forall k, k ∈ inserted s -> exists y, <[i := at_phase x p]> (sessions s) !! k = Some y /\ s_url y ∈ urls t).
  { intros k Hk. destruct (H3 k Hk) as (y & Hy & Hyu). destruct (decide (k = i)) as [->|Hne].
    - exists (at_phase x p). rewrite list_lookup_insert_eq by done. split; [done|]. apply Hu. by simplify_eq.
    - exists y. rewrite list_lookup_insert_ne by done. split; [done|by apply Hu]. }
  assert (Hx : x ∈ sessions s) by by eapply list_elem_of_lookup_2.
  constructor; simpl; try done.
  - intros y [->|Hy]%(elem_insert _ _ _ _ _ Hi); [exact (H2 x Hx)|by apply H2].
  - intros k Hk. destruct Hins as [->|[-> Hui]]; [by apply Hold|]. apply elem_of_cons in Hk as [->|Hk]; [|by apply Hold].
    exists (at_phase x p). by rewrite list_lookup_insert_eq.
  - intros y l seen [->|Hy]%(elem_insert _ _ _ _ _ Hi) Hph; [by apply (Hseen l)|]. etransitivity; [by apply (H4 y l seen)|done].
  - intros y [->|Hy]%(elem_insert _ _ _ _ _ Hi).
    + eapply phase_ok_mono; [apply grows_refl| |exact Hp]. intros k z Hz. left. by eapply same_insert.
    + eapply phase_ok_mono; [exact Hg| |by apply H5]. intros k z Hz. left. by eapply same_insert.
Qed.

Lemma inv_advance s i x fault s' p :
  inv s -> sessions s !! i = Some x -> advance fault i x s = Some (s', p) ->
  inv (mkState (net s') (table s') (<[i := at_phase x p]> (sessions s')) (inserted s') (refreshes s')).
Proof.
  intros Hinv Hi Ha. assert (Hx : x ∈ sessions s) by by eapply list_elem_of_lookup_2.
  pose proof (inv_phase _ Hinv x Hx) as Hph. pose proof (inv_after _ Hinv x) as Haft.
  unfold advance in Ha. unfold phase_ok in Hph. destruct (s_phase x) as [| |l seen|[|q l] seen|seen|] eqn:Hpx; try done.
  - assert (forall w p', (p' = Broken \/ p' = Reading) -> grows (net s) w ->
      inv (mkState w (table s) (<[i := at_phase x p']> (sessions s)) (inserted s) (refreshes s))) as Hgo.
    { intros w p' Hp' Hg. apply inv_session; try done; [apply Hinv|by left|apply Hinv| |]; destruct Hp' as [->| ->]; naive_solver. }
    case_bool_decide; [injection Ha as <- <-; apply Hgo; [by left|apply grows_refl]|].
    pose proof (grows_alive boot (s_url x) (net s)) as Hg. destruct (IsHostAlive _ _ _ _ _ _ _) as [w [alive err]].
    injection Ha as <- <-. apply Hgo; [|done]. destruct err; [by left|]. destruct alive; auto.
  - injection Ha as <- <-. apply inv_session; try done; [apply grows_refl|apply Hinv|by left|apply Hinv| |]; destruct fault; try naive_solver.
    intros k y Hk Hy. destruct (inv_inserted _ Hinv k Hk) as (y0 & Hy0 & Hu). by simplify_eq.
  - assert (Hseen : seen ⊆ inserted s) by (apply (Haft l); auto). destruct fault; injection Ha as <- <-.
    + apply inv_session; try done; [apply grows_refl|apply Hinv|by left|apply Hinv|naive_solver].
    + destruct (InsertPeer_urls (s_url x) (table s)) as [Hu1 Hu2]. simpl.
      apply (inv_session s); try done; [apply grows_refl|by apply InsertPeer_ok, Hinv|by right| | |].
      * intros l0 q Hl0 Hq. destruct (inv_refresh _ Hinv l0 q Hl0 Hq) as [Hlt Hid].
        assert (next (InsertPeer (s_url x) (table s)) = next (table s) + 1) as -> by (unfold InsertPeer; by case_bool_decide).
        split; [lia|]. intros p [Hp|Hp]%InsertPeer_new Heq; [by apply Hid|lia].
      * intros l0 seen0 [?|[?|?]]; simplify_eq. set_solver.
      * intros k y Hk Hy. left. by eapply Hph.
  - injection Ha as <- <-. assert (Hseen : seen ⊆ inserted s) by (apply (Haft []); auto).
    apply inv_session; try done; [apply grows_refl|apply Hinv|by left|apply Hinv|naive_solver|].
    intros k y Hk Hy. destruct (Hph k y Hk Hy) as [Hin|?]; [by apply not_elem_of_nil in Hin|done].
  - injection Ha as <- <-. simpl. assert (Hseen : seen ⊆ inserted s) by (apply (Haft (q :: l)); auto).
    destruct (connect_peer_spec (name (s_node x)) (net s) q) as [Hg Hc].
    apply (inv_session s); try done; [apply Hinv|by left|apply Hinv|naive_solver|].
    intros k y Hk Hy. destruct (Hph k y Hk Hy) as [Hin|Hlk]; [|right; by eapply linked_grows].
    cbn in Hin. apply elem_of_cons in Hin as [Hq|Hin]; [right|by left].
    assert (Hys : y ∈ sessions s) by by eapply list_elem_of_lookup_2.
    destruct (inv_node _ Hinv y Hys) as [Hyn Hyu]. destruct (nodes_up _ Hyn) as (url & info & Hup).
    pose proof (up_url _ _ _ Hup) as Hurl. rewrite Hyu in Hurl. injection Hurl as <-. rewrite Hq in Hup.
    destruct (decide (name (s_node x) = name (s_node y))) as [?|Hne]; [by left|right]. apply (Hc _ info); [done|by apply not_eq_sym].
Qed.

Lemma inv_refresh_next s i q l fault w t :
  inv s -> refreshes s !! i = Some (q :: l) ->
  refresh_loop NewMultiaddr AddrInfoFromP2pAddr Connect rand boot (fun _ => fault) [q] 0 (net s, table s) = (w, t) ->
  inv (mkState w t (sessions s) (inserted s) (<[i := l]> (refreshes s))).
Proof.
  intros Hinv Hi Hr. pose proof Hinv as [H1 H2 H3 H4 H5 H6].
  assert (Hql : q :: l ∈ refreshes s) by by eapply list_elem_of_lookup_2.
  pose proof (grows_refresh boot (fun _ => fault) [q] 0%nat (net s, table s)) as Hg.
  pose proof (refresh_loop_ok NewMultiaddr AddrInfoFromP2pAddr Connect rand boot (fun _ => fault) [q] 0%nat (net s, table s) H1) as Ht.
  pose proof (refresh_loop_subset NewMultiaddr AddrInfoFromP2pAddr Connect rand boot (fun _ => fault) [q] 0%nat (net s, table s)) as Hsub.
  pose proof (refresh_loop_next NewMultiaddr AddrInfoFromP2pAddr Connect rand boot (fun _ => fault) [q] 0%nat (net s, table s)) as Hnext.
  assert (Hkeep : forall p n info, p ∈ peers (table s) -> up n (Url p) info -> p ∈ peers t).
  { intros p n info Hp Hup. replace t with (refresh_loop NewMultiaddr AddrInfoFromP2pAddr Connect rand boot (fun _ => fault) [q] 0 (net s, table s)).2
      by (by rewrite Hr). apply refresh_loop_spec; [done|done| | |].
    - intros q' ->%list_elem_of_singleton Heq. destruct (H6 (q :: l) q Hql ltac:(by left)) as [_ Hid]. by apply Hid.
    - intros w0. by rewrite (up_alive n _ info w0 Hup).
    - intros err He. by rewrite (up_info _ _ _ Hup) in He. }
  rewrite Hr in Hg, Ht, Hsub, Hnext. simpl in Hg, Ht, Hsub, Hnext. constructor; simpl; try done.
  - intros k Hk. destruct (H3 k Hk) as (x & Hx & Hu). exists x. split; [done|].
    assert (Hxs : x ∈ sessions s) by by eapply list_elem_of_lookup_2. destruct (H2 x Hxs) as [Hn Hurl].
    destruct (nodes_up _ Hn) as (url & info & Hup). pose proof (up_url _ _ _ Hup) as E. rewrite Hurl in E. injection E as <-.
    apply list_elem_of_fmap in Hu as (p & Hpu & Hp). rewrite Hpu in *. apply list_elem_of_fmap_2. by eapply Hkeep.
  - intros x Hx. eapply phase_ok_mono; [exact Hg| |by apply H5]. intros k y Hy. left. by exists y.
  - intros l0 q0 Hl0 Hq0. assert (exists l1, l1 ∈ refreshes s /\ q0 ∈ l1) as (l1 & Hl1 & Hq1).
    { apply list_elem_of_lookup in Hl0 as [k Hk]. apply list_lookup_insert_Some in Hk as [(_ & <- & _)|[_ Hk]].
      - exists (q :: l). split; [done|by right].
      - exists l0. split; [by eapply list_elem_of_lookup_2|done]. }
    destruct (H6 l1 q0 Hl1 Hq1) as [Hlt Hid]. rewrite Hnext. split; [done|]. intros p Hp. apply Hid. by apply Hsub.
Qed.

Definition by_nodes (e : Event) : Prop := match e with Start n => n ∈ nodes | _ => True end.

Lemma inv_step s e s' : inv s -> by_nodes e -> step s e = Some s' -> inv s'.
Proof.
  intros Hinv He Hs. destruct e as [n|i fault| |i fault]; cbn [step] in Hs.
  - destruct (own_url (env n) (host n)) as [url|] eqn:Hurl; [|done]. injection Hs as <-. destruct Hinv as [H1 H2 H3 H4 H5 H6].
    constructor; simpl; try done.
    + intros x [Hx|Hx]%elem_of_app; [by apply H2|]. apply list_elem_of_singleton in Hx as ->. done.
    + intros k Hk. destruct (H3 k Hk) as (x & Hx & Hu). exists x. split; [by apply lookup_app_l_Some|done].
    + intros x l seen [Hx|Hx]%elem_of_app; [by apply H4|]. apply list_elem_of_singleton in Hx as ->. simpl. naive_solver.
    + intros x [Hx|Hx]%elem_of_app; [|by apply list_elem_of_singleton in Hx as ->].
      eapply phase_ok_mono; [apply grows_refl| |by apply H5]. intros k y [Hy|[Hlen _]]%lookup_app_Some; [left; by exists y|right].
      intros l seen Hph Hk. pose proof (H4 x l seen Hx Hph k Hk) as Hk'. destruct (H3 k Hk') as (z & Hz & _).
      apply lookup_lt_Some in Hz. lia.
  - apply bind_Some in Hs as (x & Hx & Hs). apply bind_Some in Hs as ([s1 p] & Ha & Hs). injection Hs as <-. by eapply inv_advance.
  - injection Hs as <-. destruct Hinv as [H1 H2 H3 H4 H5 H6]. constructor; simpl; try done.
    intros l q [Hl|Hl]%elem_of_app Hq; [by eapply H6|]. apply list_elem_of_singleton in Hl as ->. destruct H1 as (Hd & _ & Hlt).
    rewrite Forall_forall in Hlt. split; [by apply Hlt|]. intros p Hp Heq. f_equal. by apply (NoDup_fmap_key bp_ID (peers (table s))).
  - apply bind_Some in Hs as ([|q l] & Hl & Hs); [done|].
    destruct (refresh_loop _ _ _ _ _ _ _ _ _) as [w t] eqn:Hr. injection Hs as <-. by eapply inv_refresh_next.
Qed.

Lemma inv_run events : forall s s', inv s -> Forall by_nodes events -> run events s = Some s' -> inv s'.
Proof.
  induction events as [|e events IH]; intros s s' Hinv Hev Hr; [by injection Hr as <-|].
  apply Forall_cons in Hev as [He Hev]. apply bind_Some in Hr as (s1 & H1 & Hr). eapply IH; [by eapply inv_step|done|done].
Qed.

(** *** A synchronisation by itself *)
Lemma advance_sessions fault i x s s1 p : advance fault i x s = Some (s1, p) -> sessions s1 = sessions s.
Proof.
  unfold advance. destruct (s_phase x) as [| |l seen|[|q l] seen|seen|]; try done.
  - case_bool_decide; [by intros [= <- <-]|]. destruct (IsHostAlive _ _ _ _ _ _ _) as [w [alive err]]. by intros [= <- <-].
  - by intros [= <- <-].
  - destruct fault; by intros [= <- <-].
  - by intros [= <- <-].
  - by intros [= <- <-].
Qed.
Lemma session_step fault i x s s1 p : sessions s !! i = Some x -> advance fault i x s = Some (s1, p) ->
  exists s', step s (Session_ i fault) = Some s' /\ net s' = net s1 /\ table s' = table s1 /\ sessions s' !! i = Some (at_phase x p).
Proof.
  intros Hx Ha. eexists. cbn [step]. rewrite Hx. cbn [mbind option_bind]. rewrite Ha. cbn [mbind option_bind]. split; [reflexivity|].
  simpl. split; [done|]. split; [done|]. rewrite (advance_sessions _ _ _ _ _ _ Ha). apply list_lookup_insert_eq. by eapply lookup_lt_Some.
Qed.

Lemma connect_peer_sys x w t p :
  P2pUtils.connect_peer NewMultiaddr AddrInfoFromP2pAddr sys_Connect sys_Peers rand x (w, t) p = (connect_peer x w p, t).
Proof.
  unfold P2pUtils.connect_peer. destruct (ConnectionUrl2AddrInfo (Url p)) as [info|e]; [|done].
  change (sys_Peers x (w, t)) with (Peers x w). case_bool_decide; [done|].
  rewrite (retry_part (dial Connect x info)); [done|]. intros w0 t0. unfold dial, sys_Connect. cbn.
  destruct (Connect x info w0) as [w' [e|]]; cbn; [case_bool_decide|]; done.
Qed.

(** The events of session [i] alone. *)
Definition own_events (i : nat) (events : list Event) : Prop := Forall (fun e => exists f, e = Session_ i f) events.

Lemma dial_all i n url l seen : forall s, sessions s !! i = Some (mkSession n url (Dialling l seen)) ->
  exists events s', own_events i events /\ run events s = Some s' /\ sessions s' !! i = Some (mkSession n url (Finished seen)) /\
    (net s', table s') = foldl (P2pUtils.connect_peer NewMultiaddr AddrInfoFromP2pAddr sys_Connect sys_Peers rand (name n)) (net s, table s) l.
Proof.
  induction l as [|p l IH]; intros s Hs.
  - destruct (session_step false i _ s _ _ Hs eq_refl) as (s' & Hst & Hn & Ht & Hx). exists [Session_ i false], s'.
    split; [repeat constructor; by eexists|]. cbn [run]. rewrite Hst. split; [done|]. split; [exact Hx|]. by rewrite Hn, Ht.
  - destruct (session_step false i _ s _ _ Hs eq_refl) as (s1 & Hst & Hn & Ht & Hx).
    destruct (IH s1 Hx) as (events & s' & He & Hr & Hf & Hnt). exists (Session_ i false :: events), s'.
    split; [constructor; [by eexists|done]|]. cbn [run]. rewrite Hst. split; [exact Hr|]. split; [exact Hf|].
    rewrite Hnt, Hn, Ht. cbn [foldl]. by rewrite connect_peer_sys.
Qed.

(** Without others in between, the steps of a synchronisation do what
    [ConnectThroughBootApi] does with the handler [sync] of the boot node. *)
Theorem session_alone n f1 f2 s i url :
  own_url (env n) (host n) = Ok url -> sessions s !! i = Some (mkSession n url Asking) ->
  exists events s' p, own_events i events /\ run events s = Some s' /\ sessions s' !! i = Some (mkSession n url p) /\
    (net s', table s') = (connect n f1 f2 (net s, table s)).1 /\
    (if (connect n f1 f2 (net s, table s)).2 then p = Broken else exists seen, p = Finished seen).
Proof.
  intros Hurl Hs. unfold connect, ConnectThroughBootApi. rewrite Hurl. unfold request, Boot.sync.
  pose proof (own_url_nonempty _ _ _ Hurl) as Hne. rewrite bool_decide_false by done.
  destruct (IsHostAlive NewMultiaddr AddrInfoFromP2pAddr Connect rand boot url (net s)) as [w [alive err]] eqn:Hal.
  assert (Ha1 : advance false i (mkSession n url Asking) s = Some (mkState w (table s) (sessions s) (inserted s) (refreshes s),
    match err with Some _ => Broken | None => if alive then Reading else Broken end))
    by (unfold advance; simpl; rewrite bool_decide_false by done; by rewrite Hal).
  destruct (session_step false i _ s _ _ Hs Ha1) as (s1 & H1 & Hn1 & Ht1 & Hx1).
  simpl in Hn1, Ht1, Hx1.
  assert (Hbroken : forall es s' body, own_events i es -> run es s1 = Some s' -> sessions s' !! i = Some (mkSession n url Broken) ->
    net s' = w -> table s' = table s -> exists events s0 p, own_events i events /\ run events s = Some s0 /\
      sessions s0 !! i = Some (mkSession n url p) /\ (net s0, table s0) = ((w, table s), Some body : option error).1 /\
      (if (Some body : option error) then p = Broken else exists seen, p = Finished seen)).
  { intros es s' body He Hr Hx Hn Ht. exists (Session_ i false :: es), s', Broken. split; [constructor; [by eexists|done]|].
    cbn [run]. rewrite H1. simpl. split_and!; try done. by rewrite Hn, Ht. }
  destruct err as [err|]; [apply (Hbroken [] s1); [constructor|done..]|].
  destruct alive; [|apply (Hbroken [] s1); [constructor|done..]]. cbn [negb].
  destruct (session_step f1 i _ s1 _ _ Hx1 eq_refl) as (s2 & H2 & Hn2 & Ht2 & Hx2). simpl in Hn2, Ht2, Hx2.
  destruct f1; [apply (Hbroken [Session_ i true] s2); [repeat constructor; by eexists|cbn [run]; by rewrite H2|done|congruence|congruence]|].
  destruct f2.
  { destruct (session_step true i _ s2 _ _ Hx2 eq_refl) as (s3 & H3 & Hn3 & Ht3 & Hx3). simpl in Hn3, Ht3, Hx3. apply (Hbroken [Session_ i false; Session_ i true] s3); [repeat constructor; by eexists| |done|congruence|congruence].
    cbn [run]. rewrite H2. cbn [mbind option_bind]. by rewrite H3. }
  destruct (session_step false i _ s2 _ _ Hx2 eq_refl) as (s3 & H3 & Hn3 & Ht3 & Hx3). simpl in Hn3, Ht3, Hx3.
  destruct (dial_all i n url _ _ s3 Hx3) as (es & s' & He & Hr & Hf & Hnt).
  exists (Session_ i false :: Session_ i false :: Session_ i false :: es), s', (Finished (inserted s1)).
  split; [do 3 (constructor; [by eexists|]); done|]. cbn [run]. rewrite H1. cbn [mbind option_bind]. rewrite H2. cbn [mbind option_bind].
  rewrite H3. split; [exact Hr|]. split; [exact Hf|]. simpl. split; [|by eexists].
  rewrite Hnt, Hn3, Hn2, Hn1, Ht3, Ht2, Ht1. done.
Qed.

(** C16: Nodes that are up find each other through the boot node.  In any
    interleaving of their synchronisations (the check, the read of the peers, the
    insert and each dial are steps of their own), of refreshes of the boot node and
    of failures of its database, any two nodes that each finished a synchronisation
    are connected, provided that one of the two read the list of peers after the
    other's address had been inserted. *)
Theorem all_connected events w t s i j a b seen_a seen_b :
  table_ok t -> Forall by_nodes events -> run events (start w t) = Some s ->
  sessions s !! i = Some (mkSession a.1 a.2 (Finished seen_a)) -> sessions s !! j = Some (mkSession b.1 b.2 (Finished seen_b)) ->
  (i ∈ seen_b \/ j ∈ seen_a) -> name a.1 <> name b.1 ->
  name b.1 ∈ Peers (name a.1) (net s).
Proof.
  intros Ht Hev Hr Ha Hb Hseen Hne.
  assert (Hinv : inv s).
  { eapply inv_run; [|exact Hev|exact Hr].
    constructor; simpl; try done; intros; match goal with H : _ ∈ [] |- _ => by apply not_elem_of_nil in H end. }
  pose proof (inv_phase _ Hinv) as Hp. destruct Hseen as [Hi|Hj].
  - apply (Peers_sym HL). destruct (Hp _ (list_elem_of_lookup_2 _ _ _ Hb) i _ Hi Ha) as [?|?]; [|done]. by destruct Hne.
  - destruct (Hp _ (list_elem_of_lookup_2 _ _ _ Ha) j _ Hj Hb) as [?|?]; [|done]. by destruct Hne.
Qed.
End mesh.

(** *** Witness: a network in which every dial to another host succeeds *)
Definition w_Connect (x : string) (info : AddrInfo) (w : list (string * string)) : list (string * string) * option error :=
  if bool_decide (ai_ID info = x) then (w, Some (External dial_to_self)) else ((x, ai_ID info) :: w, None).
Definition w_Peers (x : string) (w : list (string * string)) : list string := (snd <$> filter (fun e => e.1 = x) w) ++ (fst <$> filter (fun e => e.2 = x) w).
Definition w_info (url : string) : res AddrInfo :=
  match rev (Split url "/"%char) with
  | id :: "p2p"%string :: _ => Ok (mkAddrInfo id [url])
  | _ => Err (External "invalid p2p multiaddr")
  end.
Definition w_node (id ip : string) : Node :=
  mkNode (mkHost id ["/ip4/127.0.0.1/tcp/4001"; ("/ip4/" +:+ ip +:+ "/tcp/4001")%string]) (fun _ => ""%string).
Definition w_a : Node := w_node "A" "10.0.0.1".
Definition w_b : Node := w_node "B" "10.0.0.2".
Definition w_c : Node := w_node "C" "10.0.0.3".

Lemma w_Peers_spec x y w : y ∈ w_Peers x w <-> (x, y) ∈ w \/ (y, x) ∈ w.
Proof.
  unfold w_Peers. rewrite elem_of_app, !list_elem_of_fmap. setoid_rewrite list_elem_of_filter. split.
  - intros [([u v] & -> & [Hu Hin])|([u v] & -> & [Hu Hin])]; cbn in *; subst; auto.
  - intros [Hin|Hin]; [left; by exists (x, y)|right; by exists (y, x)].
Qed.
Lemma w_libp2p : Libp2p w_Connect w_Peers.
Proof.
  split.
  - intros x info w w'. unfold w_Connect. case_bool_decide; [done|]. intros [= <-] _. apply w_Peers_spec. left. by left.
  - intros x info w w' e. unfold w_Connect. by case_bool_decide.
  - intros x info w a y. unfold w_Connect. case_bool_decide; [done|]. cbn [fst]. rewrite !w_Peers_spec. set_solver.
  - intros a b w. rewrite !w_Peers_spec. tauto.
Qed.
Lemma w_up n : n ∈ [w_a; w_b; w_c] -> exists url info, up (@Ok string) w_info w_Connect (fun _ => None) "boot" n url info.
Proof.
  intros Hn. repeat (apply elem_of_cons in Hn as [->|Hn]); [| | |by apply not_elem_of_nil in Hn];
    (eexists _, _; split; [vm_compute; reflexivity|vm_compute; reflexivity|reflexivity|reflexivity|]);
    (intros x w Hx; unfold Retrier.Retry, dial, w_Connect; change (Z.to_nat 5) with 5%nat; cbn [Retrier.retry_loop ai_ID];
     rewrite bool_decide_false by (by apply not_eq_sym); reflexivity).
Qed.

(** A whole synchronisation with [k] peers to dial. *)
Definition w_session (i k : nat) : list Event := replicate (4 + k) (Session_ i false).
Notation w_exec events := (run (@Ok string) w_info w_Connect w_Peers (fun _ => None) "boot" events (start [] (mkTable [] 1))).

(** The condition is needed: of two nodes that each read the list before the
    other is in it, both finish and neither dials the other. *)
Theorem overlapping_syncs_miss :
  exists s la lb, w_exec ([Start w_a; Start w_b] ++ [Session_ 0 false; Session_ 1 false; Session_ 0 false; Session_ 1 false] ++
      replicate 2 (Session_ 0 false) ++ replicate 2 (Session_ 1 false)) = Some s /\
    sessions s = [mkSession w_a "/ip4/10.0.0.1/tcp/4001/p2p/A" (Finished la); mkSession w_b "/ip4/10.0.0.2/tcp/4001/p2p/B" (Finished lb)] /\
    ("B"%string ∉ w_Peers "A" (net s)).
Proof.
  destruct (w_exec _) as [s|] eqn:Hs; [|by vm_compute in Hs]. exists s, [], []. split; [done|]. vm_compute in Hs. injection Hs as <-.
  split; [by vm_compute|]. apply (bool_decide_eq_true_1 (_ ∉ _)). by vm_compute.
Qed.

(** Witness: [A] and [B] overlap, a refresh is under way meanwhile, and [C] comes last. *)
Definition w_events : list Event :=
  [Start w_a; Start w_b; Session_ 0 false; Session_ 1 false; Session_ 0 false; Session_ 1 false; Session_ 1 false; RefreshRead;
   Session_ 0 false; RefreshNext 0 false; Session_ 0 false; Session_ 1 false; Start w_c] ++ w_session 2 2.
Lemma all_connected_witness : exists s, w_exec w_events = Some s /\ "C"%string ∈ w_Peers "A" (net s).
Proof.
  assert (Ht : table_ok (mkTable [] 1)) by (split_and!; [constructor|constructor|done]).
  assert (Hev : Forall (by_nodes [w_a; w_b; w_c]) w_events) by (repeat constructor; set_solver).
  destruct (w_exec w_events) as [s|] eqn:Hs; [|by vm_compute in Hs]. exists s. split; [done|].
  apply (all_connected (@Ok string) w_info w_Connect w_Peers (fun _ => None) "boot" w_libp2p [w_a; w_b; w_c] w_up w_events [] (mkTable [] 1) s 0 2
    (w_a, "/ip4/10.0.0.1/tcp/4001/p2p/A"%string) (w_c, "/ip4/10.0.0.3/tcp/4001/p2p/C"%string) [] [0%nat; 1%nat] Ht Hev Hs).
  - vm_compute in Hs. injection Hs as <-. reflexivity.
  - vm_compute in Hs. injection Hs as <-. reflexivity.
  - left. by left.
  - done.
Defined.

Example ReplaceIp_ok :
  ReplaceIpFromUrl "/ip4/10.0.0.1/tcp/4001/p2p/A" "8.8.8.8" = Ok "/ip4/8.8.8.8/tcp/4001/p2p/A"%string.
Proof. vm_compute. reflexivity. Qed.

End Mesh.
