(* ===== verification/Api.v ===== *)
(** * The HTTP API

    [node/pkg/api]: the values that requests and answers carry
    ([api/utils/custom_types.go], the same as [delegator/utils/custom_types.go]), the
    encryption of the keys of reporters, the texts of the queries that are built from
    requests, and the handlers of chains, services, listeners, reporters, VRF keys,
    proxies, errors, pairs of aggregators and blocks.

    The database is the state: one table per table of [node/migrations/api], whose
    constraints (unique columns, references, lengths) the database enforces. *)

From S2P Require Import Prelude Errors Wire Text Strings Float Rounding GoTime Reducer Signing Signer Logs Monitors.
From Stdlib Require Import Ascii QArith Floats.SpecFloat.
Import Text Strings Signing.

Local Open Scope Z_scope.
Local Open Scope go_scope.

(** ** [api/utils/custom_types.go] *)
Module CustomTypes.
Import Float Reducer GoTime.

Definition unexpected (what : string) : error := External ("unexpected type for " +:+ what)%string.
Definition strconv_error : error := External "strconv: invalid syntax or value out of range".

(** [int32(x)] of a [float64]: out of range, the conversion instruction of amd64 gives the least integer. *)
Definition to_int32 (x : float64) : int32 :=
  let v := to_int64 x in if (- 2 ^ 31 <=? v) && (v <? 2 ^ 31) then v else - 2 ^ 31.

(** [UnmarshalJSON], after [json.Unmarshal] into an [interface{}], where every number is a [float64]; [MarshalJSON] is the
    value that is written. *)
Definition CustomFloat_UnmarshalJSON (value : res json) : res float64 :=
  let? value := value in
  match value with
  | JNum v => Ok v
  | JStr v => match ParseFloat v with Some converted => Ok converted | None => Err strconv_error end
  | _ => Err (unexpected "CustomFloat")
  end.
Definition CustomFloat_MarshalJSON (cf : float64) : json := JNum cf.
Definition CustomBool_UnmarshalJSON (value : res json) : res bool :=
  let? value := value in
  match value with
  | JBool v => Ok v
  | JStr v => match Consumer.ParseBool v with Some converted => Ok converted | None => Err strconv_error end
  | _ => Err (unexpected "CustomBoolean")
  end.
Definition CustomBool_MarshalJSON (cb : bool) : json := JBool cb.
Definition Atoi (v : string) : res Z := match ParseInt 64 v with Some n => Ok n | None => Err strconv_error end.
Definition CustomInt32_UnmarshalJSON (value : res json) : res int32 :=
  let? value := value in
  match value with
  | JNum v => Ok (to_int32 v)
  | JStr v => if bool_decide (v = "")%string then Ok 0 else let? converted := Atoi v in Ok (wrap32 converted)
  | _ => Err (unexpected "customInt32")
  end.
Definition CustomInt32_MarshalJSON (ci : int32) : json := JNum (of_int ci).
Definition CustomInt64_String (ci : int64) : string := Itoa ci.
Definition CustomInt64_UnmarshalJSON (value : res json) : res int64 :=
  let? value := value in
  match value with
  | JNum v => Ok (to_int64 v)
  | JStr v => if bool_decide (v = "")%string then Ok 0 else let? converted := Atoi v in Ok converted
  | _ => Err (unexpected "CustomInt64")
  end.
Definition CustomInt64_MarshalJSON (ci : int64) : json := JStr (CustomInt64_String ci).

(** *** Times *)
(** [strings.Replace(v, "GMT", "UTC", -1)] *)
Fixpoint gmt_utc (l : list ascii) : list ascii :=
  match l with
  | "G"%char :: "M"%char :: "T"%char :: l => chars "UTC" ++ gmt_utc l
  | c :: l => c :: gmt_utc l
  | [] => []
  end.
(** [time.Parse(RFC3339Milli, v)]: exactly three digits after the point. *)
Definition tryParsingRFC3339Milli (v : string) : option Time :=
  '(d, c, l) ← read_date_time (chars v);
  l ← (match l with c :: l => if bool_decide (c = "."%char \/ c = ","%char) then Some l else None | [] => None end);
  '(ms, l) ← number 3 0 l;
  '(o, l) ← read_zone l; _ ← ended () l; to_time d c (ms * 1000000) o.
(** [time.Parse(time.RFC3339, v)], which reads a fraction of a second as [time.RFC3339Nano] does. *)
Definition tryParsingRFC3339 (v : string) : option Time := ParseRFC3339Nano v.
Definition parse_text (v : string) : res Time :=
  let v := text (gmt_utc (chars v)) in
  match tryParsingRFC3339Milli v with
  | Some t => Ok t
  | None => match tryParsingRFC3339 v with Some t => Ok t | None => Err (External ("unexpected dateTime format: " +:+ v)%string) end
  end.
Definition CustomDateTime_UnmarshalJSON (value : res json) : res Time :=
  let? value := value in
  match value with JStr v => parse_text v | _ => Err (unexpected "CustomDateTime") end.
(** A column is read as a time or as text. *)
Definition CustomDateTime_Scan (src : Time + string) : res Time := match src with inl v => Ok v | inr v => parse_text v end.

(** The date of a day, by search from a year that is not later. *)
Fixpoint year_loop (fuel : nat) (d y : Z) : Z :=
  match fuel with
  | O => y
  | S fuel => if days_before_year (y + 1) <=? d then year_loop fuel d (y + 1) else y
  end.
Definition year_of (d : Z) : Z := year_loop 50 d (1970 + (if d <? 0 then d / 365 else d / 366)).
Fixpoint month_loop (fuel : nat) (y r : Z) (m : nat) : nat :=
  match fuel with
  | O => m
  | S fuel => if days_before_month y (S m) <=? r then month_loop fuel y r (S m) else m
  end.
Definition civil (d : Z) : date :=
  let y := year_of d in
  let r := d - days_before_year y in
  let m := month_loop 11 y r 1 in
  mkDate y (Z.of_nat m) (r - days_before_month y m + 1).

Definition pad (k : nat) (n : Z) : list ascii := (fun i => digit_char ((n / 10 ^ Z.of_nat i) `mod` 10)) <$> rev (seq 0 k).
(** [Format(RFC3339Milli)] of a time in UTC, for years of four digits. *)
Definition CustomDateTime_String (t : Time) : string :=
  let secs := t / 1000000000 in
  let d := civil (secs / 86400) in
  let r := secs `mod` 86400 in
  text (pad 4 (Year d) ++ "-"%char :: pad 2 (Month d) ++ "-"%char :: pad 2 (Day d) ++ "T"%char ::
        pad 2 (r / 3600) ++ ":"%char :: pad 2 ((r / 60) `mod` 60) ++ ":"%char :: pad 2 (r `mod` 60) ++ "."%char ::
        pad 3 (t `mod` 1000000000 / 1000000) ++ ["Z"%char]).
Definition CustomDateTime_MarshalJSON (t : Time) : json := JStr (CustomDateTime_String t).

Example datetime_ex : CustomDateTime_String 1709251199512345678 = "2024-02-29T23:59:59.512Z"%string.
Proof. vm_compute. reflexivity. Qed.
Example datetime_gmt : CustomDateTime_UnmarshalJSON (Ok (JStr "2024-02-29T23:59:59GMT")) = Err (External "unexpected dateTime format: 2024-02-29T23:59:59UTC").
Proof. vm_compute. reflexivity. Qed.
(** A number that a [float64] does not hold is changed, one that [int32] does not hold too. *)
Example int64_number : CustomInt64_UnmarshalJSON (Ok (JNum (of_int 9007199254740993))) = Ok 9007199254740992.
Proof. vm_compute. reflexivity. Qed.
Example int32_text : CustomInt32_UnmarshalJSON (Ok (JStr "4294967297")) = Ok 1.
Proof. vm_compute. reflexivity. Qed.

(** *** What is read back *)
Lemma shiftl_exact m e p : (0 < p)%Z ->
  (inject_Z (Zpos m) * Rounding.pow2 e == inject_Z p * Rounding.pow2 0)%Q -> Z.shiftl (Zpos m) e = p.
Proof.
  intros Hp Hq. destruct (Z.le_gt_cases 0 e) as [He|He].
  - rewrite Z.shiftl_mul_pow2 by done. rewrite !Rounding.pow2_Z in Hq by lia. rewrite <- !inject_Z_mult in Hq.
    apply (proj1 (inject_Z_injective _ _)) in Hq. lia.
  - assert (Hq' : (inject_Z (Zpos m) == inject_Z p * Rounding.pow2 (- e))%Q).
    { assert (Hc := Rounding.pow2_cancel e). assert (H0 : (Rounding.pow2 0 == 1)%Q) by reflexivity.
      setoid_rewrite H0 in Hq. rewrite Qmult_1_r in Hq. rewrite <- Hq. rewrite <- Qmult_assoc, (Qmult_comm (Rounding.pow2 e)), Hc. ring. }
    rewrite Rounding.pow2_Z, <- inject_Z_mult in Hq' by lia. apply (proj1 (inject_Z_injective _ _)) in Hq'.
    replace e with (- (- e))%Z by lia. rewrite Z.shiftl_opp_r, Z.shiftr_div_pow2 by lia. rewrite Hq'. apply Z.div_mul.
    apply Z.pow_nonzero; lia.
Qed.
Lemma to_int64_of_int n : - 2 ^ 53 < n < 2 ^ 53 -> to_int64 (of_int n) = n.
Proof.
  intros Hn. assert (Hpos : forall s p, Zpos p < 2 ^ 53 -> exists m e, binary_round prec emax s p 0 = S754_finite s m e /\ Z.shiftl (Zpos m) e = Zpos p).
  { intros s p Hp. destruct (Rounding.digits_le (Zpos p) 53) as [Hd1 Hd2]; [lia|].
    destruct (Rounding.binary_round_near prec emax ltac:(done) s p 0) as (m & e & -> & _ & Hex & _); [unfold prec, emax, emin in *; lia|unfold emax; lia|].
    exists m, e. split; [done|]. apply shiftl_exact; [lia|]. apply Hex. unfold prec. lia. }
  unfold of_int, binary_normalize. destruct n as [|p|p]; [done| |].
  - destruct (Hpos false p) as (m & e & -> & Hs); [lia|]. unfold to_int64. cbn [cond_Zopp]. rewrite Hs.
    rewrite decide_True; [done|]. unfold in_int64, min_int64, max_int64. lia.
  - destruct (Hpos true p) as (m & e & -> & Hs); [lia|]. unfold to_int64. cbn [cond_Zopp]. rewrite Hs.
    rewrite decide_True; [done|]. unfold in_int64, min_int64, max_int64. lia.
Qed.
Lemma Itoa_nonempty n : Itoa n <> ""%string.
Proof.
  intros H. assert (Hp : ParseInt (Z.log2 (Z.abs n) + 2) (Itoa n) = Some n); [|rewrite H in Hp; done].
  pose proof (Z.log2_nonneg (Z.abs n)). apply ParseInt_Itoa_lemma; [lia|]. replace (_ + 2 - 1) with (Z.succ (Z.log2 (Z.abs n))) by lia.
  destruct (decide (n = 0)) as [->|]; [done|]. pose proof (Z.log2_spec (Z.abs n)). lia.
Qed.

(** Integers are read back as they were written: 64 bits as text, 32 bits as a number. *)
Theorem integers_roundtrip n :
  (in_int64 n -> CustomInt64_UnmarshalJSON (Ok (CustomInt64_MarshalJSON n)) = Ok n) /\
  (- 2 ^ 31 <= n < 2 ^ 31 -> CustomInt32_UnmarshalJSON (Ok (CustomInt32_MarshalJSON n)) = Ok n).
Proof.
  split; intros Hn; cbn.
  - rewrite bool_decide_false by apply Itoa_nonempty. unfold Atoi, CustomInt64_String.
    rewrite ParseInt_Itoa_lemma; [done|lia|]. unfold in_int64, min_int64, max_int64 in Hn. lia.
  - unfold to_int32. rewrite to_int64_of_int by lia. f_equal.
    rewrite (proj2 (Z.leb_le _ _)), (proj2 (Z.ltb_lt _ _)) by lia. done.
Qed.

(** *** Times are read back, to the millisecond *)
Lemma digit_digit_char d : 0 <= d < 10 -> digit (digit_char d) = Some d /\ digit_char d <> "G"%char.
Proof.
  intros Hd. assert (d ∈ seqZ 0 10) as Hin by (apply elem_of_seqZ; lia). clear Hd. revert d Hin. apply Forall_forall.
  apply (bool_decide_eq_true_1 (Forall (fun d => digit (digit_char d) = Some d /\ digit_char d <> "G"%char) (seqZ 0 10))).
  vm_compute. reflexivity.
Qed.
Lemma pad_S k n : pad (S k) n = digit_char ((n / 10 ^ Z.of_nat k) `mod` 10) :: pad k n.
Proof. unfold pad. rewrite seq_S, rev_app_distr. reflexivity. Qed.
Lemma number_pad k : forall acc n l, number k acc (pad k n ++ l) = Some (acc * 10 ^ Z.of_nat k + n `mod` (10 ^ Z.of_nat k), l).
Proof.
  induction k as [|k IH]; intros acc n l.
  { change (10 ^ Z.of_nat 0) with 1. by rewrite Z.mod_1_r, Z.mul_1_r, Z.add_0_r. }
  rewrite pad_S. cbn [app number]. pose proof (Z.mod_pos_bound (n / 10 ^ Z.of_nat k) 10 ltac:(lia)) as Hb.
  rewrite (proj1 (digit_digit_char _ Hb)). cbn. rewrite IH. do 2 f_equal.
  rewrite Nat2Z.inj_succ, Z.pow_succ_r by lia. pose proof (Z.pow_pos_nonneg 10 (Z.of_nat k)).
  rewrite (Z.mul_comm 10 (10 ^ _)), (Z.rem_mul_r n) by lia. ring.
Qed.
Lemma number_pad0 k n l : 0 <= n < 10 ^ Z.of_nat k -> number k 0 (pad k n ++ l) = Some (n, l).
Proof. intros Hn. rewrite number_pad. do 2 f_equal. rewrite Z.mod_small by done. lia. Qed.

Lemma gmt_cons c l : c <> "G"%char -> gmt_utc (c :: l) = c :: gmt_utc l.
Proof. intros Hc. destruct c as [[] [] [] [] [] [] [] []]; try reflexivity. by destruct Hc. Qed.
Lemma gmt_id l : Forall (fun c => c <> "G"%char) l -> gmt_utc l = l.
Proof. induction 1 as [|c l Hc _ IH]; [done|]. by rewrite gmt_cons, IH. Qed.
Lemma pad_no_G k n : Forall (fun c => c <> "G"%char) (pad k n).
Proof. induction k as [|k IH]; [constructor|]. rewrite pad_S. constructor; [|done]. apply digit_digit_char, Z.mod_pos_bound. lia. Qed.

Lemma year_loop_spec fuel d : forall y, days_before_year y <= d < days_before_year (y + Z.of_nat fuel + 1) ->
  days_before_year (year_loop fuel d y) <= d < days_before_year (year_loop fuel d y + 1).
Proof.
  induction fuel as [|fuel IH]; intros y Hd; cbn [year_loop]; [by replace (y + 1) with (y + Z.of_nat 0 + 1) by (cbn; lia)|].
  destruct (Z.leb_spec (days_before_year (y + 1)) d); [|lia]. apply IH.
  replace (y + 1 + Z.of_nat fuel + 1) with (y + Z.of_nat (S fuel) + 1) by lia. lia.
Qed.
Lemma month_loop_spec y r fuel : forall m, (1 <= m)%nat -> days_before_month y m <= r < days_before_month y (m + fuel + 1) ->
  days_before_month y (month_loop fuel y r m) <= r < days_before_month y (S (month_loop fuel y r m)) /\
  (m <= month_loop fuel y r m <= m + fuel)%nat.
Proof.
  induction fuel as [|fuel IH]; intros m Hm Hr; cbn [month_loop].
  { replace (m + 0 + 1)%nat with (S m) in Hr by lia. split; [lia|lia]. }
  destruct (Z.leb_spec (days_before_month y (S m)) r); [|split; [lia|lia]].
  destruct (IH (S m)) as [H1 H2]; [lia|replace (S m + fuel + 1)%nat with (m + S fuel + 1)%nat by lia; lia|]. split; [done|lia].
Qed.
Lemma civil_spec d :
  days_before_year 0 <= d < days_before_year 10000 ->
  0 <= Year (civil d) <= 9999 /\ 1 <= Month (civil d) <= 12 /\ valid (civil d) = true /\ 0 <= Day (civil d) <= 31 /\
  days (Year (civil d)) (Month (civil d)) (Day (civil d)) = d.
Proof.
  intros Hd. assert (Hmono : forall a b, a <= b -> days_before_year a <= days_before_year b)
    by (unfold days_before_year; intros; Z.div_mod_to_equations; lia).
  assert (Hy : days_before_year (year_of d) <= d < days_before_year (year_of d + 1)).
  { unfold year_of. apply year_loop_spec. revert Hd. unfold days_before_year. cbn. destruct (Z.ltb_spec d 0); intros; Z.div_mod_to_equations; lia. }
  unfold civil. set (y := year_of d) in *. assert (0 <= y <= 9999) as Hyb.
  { split; [destruct (decide (0 <= y)); [done|]|destruct (decide (y <= 9999)); [done|]].
    - specialize (Hmono (y + 1) 0). lia.
    - specialize (Hmono 10000 y). lia. }
  rewrite year_length in Hy. set (r := d - days_before_year y).
  destruct (month_loop_spec y r 11 1) as [Hm1 Hm2]; [lia| |].
  { assert (days_before_month y 13 = if leap y then 366 else 365) as Hl
      by (cbv [days_before_month days_in]; destruct (leap y); vm_compute; reflexivity).
    change (1 + 11 + 1)%nat with 13%nat. rewrite Hl. cbn [days_before_month]. lia. }
  set (m := month_loop 11 y r 1) in *. cbn [Year Month Day]. assert (exists k, m = S k) as [k Hk] by (exists (pred m); lia).
  assert (days_before_month y (S m) = days_before_month y m + days_in y (Z.of_nat m)) as Hs by (rewrite Hk; reflexivity).
  assert (days_in y (Z.of_nat m) <= 31) by (unfold days_in; repeat case_match; lia).
  split_and!; try lia; [|unfold days; rewrite Nat2Z.id; lia].
  unfold valid. cbn [Year Month Day]. apply andb_true_iff. split; apply Z.leb_le; lia.
Qed.

Definition written (y m d h mi sec ms : Z) : string :=
  text (pad 4 y ++ "-"%char :: pad 2 m ++ "-"%char :: pad 2 d ++ "T"%char ::
        pad 2 h ++ ":"%char :: pad 2 mi ++ ":"%char :: pad 2 sec ++ "."%char :: pad 3 ms ++ ["Z"%char]).
Lemma expect_same c l : expect c (c :: l) = Some l.
Proof. unfold expect. by rewrite bool_decide_true. Qed.
Lemma upto_pad lo hi n l : lo <= n <= hi -> 0 <= n < 100 -> upto lo hi (number 2 0 (pad 2 n ++ l)) = Some (n, l).
Proof.
  intros Hn Hb. rewrite number_pad0 by done. unfold upto. cbn [mbind option_bind].
  by rewrite (proj2 (Z.leb_le lo n)), (proj2 (Z.leb_le n hi)) by lia.
Qed.
Lemma getnum_pad n l : 0 <= n < 100 -> getnum (pad 2 n ++ l) = number 2 0 (pad 2 n ++ l).
Proof. intros Hn. unfold getnum. by rewrite number_pad0. Qed.
Lemma parse_written y m d h mi sec ms :
  0 <= y <= 9999 -> 1 <= m <= 12 -> 0 <= d <= 31 -> 0 <= h < 24 -> 0 <= mi < 60 -> 0 <= sec < 60 -> 0 <= ms < 1000 ->
  valid (mkDate y m d) = true -> parse_text (written y m d h mi sec ms) = Ok (Date y m d h mi sec (ms * 1000000) 0).
Proof.
  intros Hy Hm Hd Hh Hmi Hs Hms Hv. unfold parse_text, written. rewrite chars_text, gmt_id.
  2:{ repeat (apply Forall_app; split; [apply pad_no_G|]; constructor; [done|]). constructor. }
  unfold tryParsingRFC3339Milli, read_date_time. rewrite chars_text, number_pad0 by (cbn; lia). cbn [mbind option_bind].
  rewrite expect_same. cbn [mbind option_bind]. unfold getnum2. rewrite upto_pad by lia. cbn [mbind option_bind].
  rewrite expect_same. cbn [mbind option_bind]. rewrite number_pad0 by (cbn; lia). cbn [mbind option_bind].
  rewrite expect_same. cbn [mbind option_bind]. rewrite getnum_pad, upto_pad by lia. cbn [mbind option_bind].
  rewrite expect_same. cbn [mbind option_bind]. rewrite upto_pad by lia. cbn [mbind option_bind].
  rewrite expect_same. cbn [mbind option_bind]. rewrite upto_pad by lia. cbn [mbind option_bind].
  rewrite bool_decide_true by (by left). cbn [mbind option_bind]. rewrite number_pad0 by (cbn; lia). cbn [mbind option_bind read_zone].
  rewrite bool_decide_true by done. cbn [mbind option_bind ended]. unfold to_time. by rewrite Hv.
Qed.

(** A time is read back to the millisecond, in the years the format can write. *)
Theorem datetime_roundtrip (t : Time) :
  days_before_year 0 * 86400 * 1000000000 <= t < days_before_year 10000 * 86400 * 1000000000 ->
  CustomDateTime_UnmarshalJSON (Ok (CustomDateTime_MarshalJSON t)) = Ok (t - t `mod` 1000000).
Proof.
  intros Ht. set (secs := t / 1000000000). destruct (civil_spec (secs / 86400)) as (Hy & Hm & Hv & Hd & Hdays).
  { unfold secs. Z.div_mod_to_equations; lia. }
  set (dt := civil (secs / 86400)) in *. set (r := secs `mod` 86400). set (ms := t `mod` 1000000000 / 1000000).
  assert (0 <= r < 86400) as Hr by (by apply Z.mod_pos_bound). assert (0 <= ms < 1000) as Hms by (unfold ms; Z.div_mod_to_equations; lia).
  assert (0 <= r / 3600 < 24 /\ 0 <= (r / 60) `mod` 60 < 60 /\ 0 <= r `mod` 60 < 60) as (Hh & Hmi & Hs) by (Z.div_mod_to_equations; lia).
  transitivity (parse_text (written (Year dt) (Month dt) (Day dt) (r / 3600) ((r / 60) `mod` 60) (r `mod` 60) ms)); [reflexivity|].
  rewrite parse_written by (done || by destruct dt). f_equal. unfold Date. rewrite Hdays. unfold ms, r, secs. Z.div_mod_to_equations; lia.
Qed.

Lemma datetime_roundtrip_witness :
  CustomDateTime_UnmarshalJSON (Ok (CustomDateTime_MarshalJSON 1709251199512345678)) = Ok 1709251199512000000.
Proof. exact (datetime_roundtrip 1709251199512345678 ltac:(vm_compute; split; [discriminate|reflexivity])). Defined.

End CustomTypes.

(** ** [api/utils/utils.go]: the environment, encryption and queries *)
Module ApiUtils.

Record EnvVars : Type := mkEnvVars {
  DATABASE_URL : string; REDIS_HOST : string; REDIS_PORT : string; APP_PORT : string; TEST_MODE : string; ENCRYPT_PASSWORD : string }.
Definition LoadEnvVars (GetSecret Getenv : string -> string) : res EnvVars :=
  let or_default s d := if bool_decide (s = "")%string then d else s in
  if bool_decide (GetSecret "DATABASE_URL" = "")%string then Err (External "DATABASE_URL is not set") else
  if bool_decide (GetSecret "ENCRYPT_PASSWORD" = "")%string then Err (External "ENCRYPT_PASSWORD is not set") else
  Ok (mkEnvVars (GetSecret "DATABASE_URL"%string) (or_default (Getenv "REDIS_HOST"%string) "localhost"%string)
        (or_default (Getenv "REDIS_PORT"%string) "6379"%string) (or_default (Getenv "APP_PORT"%string) "3000"%string)
        (Getenv "TEST_MODE"%string) (GetSecret "ENCRYPT_PASSWORD"%string)).
(** The name of the server and whether it is in test mode; [pool]: the error of [pgxpool.New]. *)
Definition Setup (GetSecret Getenv : string -> string) (pool : string -> option error) (options : list string) : res (string * bool) :=
  let version := default "test"%string (head options) in
  let? config := LoadEnvVars GetSecret Getenv in
  match pool (DATABASE_URL config) with
  | Some err => Err err
  | None => Ok (("Miko API " +:+ version)%string, default false (Consumer.ParseBool (TEST_MODE config)))
  end.
(** [c.Locals("testing")], which may be missing. *)
Definition IsTesting (local : option bool) : bool := default false local.

Section crypto.
(** [scrypt.Key] and the key stream of AES-256-CTR. *)
Context (scrypt_Key : string -> list Z -> res (list Z)) (keystream : list Z -> list Z -> nat -> list Z).
(** The password, or that the environment lacks one. *)
Variable password : res string.
Definition salt : list Z := string_bytes "salt".

(** [iv]: what [rand.Read] gives. *)
Definition EncryptText (iv : res (list Z)) (textToEncrypt : string) : res string :=
  let? password := password in
  let? iv := iv in
  let? key := scrypt_Key password salt in
  Ok (EncodeToString iv +:+ EncodeToString (Encryptor.XORKeyStream keystream key iv (string_bytes textToEncrypt)))%string.
(** [None]: the slices panic on a text shorter than 32 characters. *)
Definition DecryptText (encryptedText : string) : option (res string) :=
  match password with
  | Err err => Some (Err err)
  | Ok password =>
      let l := chars encryptedText in
      if (length l <? 32)%nat then None else
      Some match decode_hex (take 32 l), decode_hex (drop 32 l) with
           | Some iv, Some ciphertext =>
               let? key := scrypt_Key password salt in
               Ok (Encryptor.bytes_string (Encryptor.XORKeyStream keystream key iv ciphertext))
           | _, _ => Err (External "encoding/hex")
           end
  end.

Abbreviation is_byte := (fun b : Z => 0 <= b < 256).
Context (keystream_length : forall key iv n, length (keystream key iv n) = n)
  (keystream_bytes : forall key iv n, Forall is_byte (keystream key iv n)).

(** A key is read back as it was, and its text has 32 characters and two per byte: in the column of 164 characters
    there is room for a key of 66, such as a private key in hexadecimal with its prefix. *)
Lemma decrypt_encrypted iv s enc :
  length iv = 16%nat -> Forall is_byte iv -> EncryptText (Ok iv) s = Ok enc ->
  DecryptText enc = Some (Ok s) /\ length (chars enc) = (32 + 2 * length (chars s))%nat.
Proof.
  intros Hiv Hb. unfold EncryptText, DecryptText. generalize salt. intros sl. destruct password as [pw|]; [|done]. cbn [res_bind].
  destruct (scrypt_Key pw sl) as [key|] eqn:Hk; cbn [res_bind]; [|done]. intros [= <-].
  pose proof (Encryptor.string_bytes_is_byte s) as Hs.
  destruct (Encryptor.XORKeyStream_spec keystream keystream_length keystream_bytes key iv _ Hs) as (Hlen & Hby & Hinv).
  rewrite chars_app. unfold EncodeToString. rewrite !chars_text, length_app, !Encryptor.length_hex, Hlen, Hiv.
  assert (Hl : length (string_bytes s) = length (chars s)) by (unfold string_bytes; by rewrite length_fmap).
  split; [|rewrite Hl; lia]. rewrite (proj2 (Nat.ltb_ge _ _)) by lia.
  assert (H32 : length (iv ≫= hex_byte) = 32%nat) by (rewrite Encryptor.length_hex; lia).
  rewrite take_app_length', drop_app_length' by done.
  assert (Hdec : forall bs, Forall is_byte bs -> decode_hex (bs ≫= hex_byte) = Some bs).
  { intros bs Hbs. pose proof (DecodeString_EncodeToString bs Hbs) as Hd. unfold DecodeString, EncodeToString in Hd. by rewrite chars_text in Hd. }
  rewrite !Hdec by done. rewrite Hinv. do 2 f_equal. apply Encryptor.bytes_string_bytes.
Qed.
End crypto.

End ApiUtils.

(** ** The tables and the handlers *)
Module Handlers.
Import CustomTypes ApiUtils.

(** A table with a serial key. *)
Record Table (A : Type) : Type := mkTable { rows : gmap Z A; next : Z }.
Arguments mkTable {A} _ _.
Arguments rows {A} _.
Arguments next {A} _.
Definition add {A} (a : A) (t : Table A) : Table A := mkTable (<[next t := a]> (rows t)) (next t + 1).
(** What a failed insertion leaves: a number of the sequence is used. *)
Definition skip {A} (t : Table A) : Table A := mkTable (rows t) (next t + 1).
Definition set {A} (id : Z) (a : A) (t : Table A) : Table A := mkTable (<[id := a]> (rows t)) (next t).
Definition drop_row {A} (id : Z) (t : Table A) : Table A := mkTable (delete id (rows t)) (next t).

Record Listener : Type := mkListener { l_Address : string; EventName : string; l_chain : Z; l_service : Z }.
Record Reporter : Type := mkReporter { r_Address : string; PrivateKey : string; OracleAddress : string; r_chain : Z; r_service : Z }.
Record Vrf : Type := mkVrf { Sk : string; Pk : string; PkX : string; PkY : string; KeyHash : string; v_chain : Z }.
Record ErrorRow : Type := mkErrorRow { RequestId : string; Timestamp : Time; Code : string; e_Name : string; Stack : string }.
Record Proxy : Type := mkProxy { Protocol : string; Host : string; Port : int32; Location : option string }.
Record L2Pair : Type := mkL2Pair { L1Address : string; L2Address : string; Active : bool; p_chain : Z }.
Record Db : Type := mkDb {
  chains : Table string; services : Table string; listeners : Table Listener; reporters : Table Reporter; vrfs : Table Vrf;
  errors_ : Table ErrorRow; proxies : Table Proxy;
  observed : gmap string Z; unprocessed : gset (string * Z) }.

(** The answer to a request: a value, the error that the error handler gets, or a panic, which the framework answers with
    status 500.  No row is read as a row of zeros without an id ([None]). *)
Inductive Reply (A : Type) : Type := Answer (a : A) | Error_ (err : error) | Panic.
Arguments Answer {A} _.
Arguments Error_ {A} _.
Arguments Panic {A}.

Definition null_violation : error := External "null value violates not-null constraint".
Definition unique_violation : error := External "duplicate key value violates unique constraint".
Definition foreign_violation : error := External "update or delete violates foreign key constraint".
Definition too_long : error := External "value too long for type character varying".
Definition bad_id : error := External "invalid input syntax for type bigint".
Definition invalid : error := External "field validation failed on the required tag".

(** [validate:"required"] on texts. *)
Definition required (l : list string) : bool := forallb (fun s => negb (bool_decide (s = "")%string)) l.
(** A column [CHARACTER VARYING(n)] cuts off spaces only. *)
Definition varchar (n : nat) (s : string) : option string :=
  if (length (chars s) <=? n)%nat then Some s
  else if forallb (fun c => Ascii.eqb c " "%char) (drop n (chars s)) then Some (text (take n (chars s))) else None.

(** *** [api/chain] and [api/service]: tables of unique names *)
(** [fault]: the database fails, with this error, from the first statement of the request on. *)
Definition find_name (name : string) (t : Table string) : option Z :=
  fst <$> head (filter (fun kv => kv.2 = name) (map_to_list (rows t))).
Definition named_insert (body : res string) (fault : option error) (t : Table string) : Table string * Reply (Z * string) :=
  match body with
  | Err err => (t, Error_ err)
  | Ok name =>
      if negb (required [name]) then (t, Error_ invalid) else
      match fault, find_name name t with
      | Some err, _ => (t, Error_ err)
      | None, Some _ => (skip t, Error_ unique_violation)
      | None, None => (add name t, Answer (next t, name))
      end
  end.
Definition select_all {A} (fault : option error) (t : Table A) : Reply (list (Z * A)) :=
  match fault with Some err => Error_ err | None => Answer (map_to_list (rows t)) end.
(** The id of the path is given to the database as it is: [None] is not a number there. *)
Definition select_id {A} (id : option Z) (fault : option error) (t : Table A) : Reply (option (Z * A)) :=
  match fault, id with
  | Some err, _ => Error_ err
  | None, None => Error_ bad_id
  | None, Some id => Answer ((fun a => (id, a)) <$> rows t !! id)
  end.
(** No validation: an empty name is stored. *)
Definition named_update (id : option Z) (body : res string) (fault : option error) (t : Table string)
    : Table string * Reply (option (Z * string)) :=
  match body with
  | Err err => (t, Error_ err)
  | Ok name =>
      match fault, id with
      | Some err, _ => (t, Error_ err)
      | None, None => (t, Error_ bad_id)
      | None, Some id =>
          match rows t !! id with
          | None => (t, Answer None)
          | Some _ => if decide (find_name name t = None \/ find_name name t = Some id) then (set id name t, Answer (Some (id, name)))
                      else (t, Error_ unique_violation)
          end
      end
  end.
(** [referenced]: a row of another table refers to it. *)
Definition delete_id {A} (id : option Z) (referenced : Z -> bool) (fault : option error) (t : Table A)
    : Table A * Reply (option (Z * A)) :=
  match fault, id with
  | Some err, _ => (t, Error_ err)
  | None, None => (t, Error_ bad_id)
  | None, Some id =>
      match rows t !! id with
      | None => (t, Answer None)
      | Some a => if referenced id then (t, Error_ foreign_violation) else (drop_row id t, Answer (Some (id, a)))
      end
  end.
Definition refers {A} (f : A -> Z) (t : Table A) (id : Z) : bool := existsb (fun kv => f kv.2 =? id) (map_to_list (rows t)).
Definition chain_referenced (db : Db) (id : Z) : bool :=
  refers l_chain (listeners db) id || refers r_chain (reporters db) id || refers v_chain (vrfs db) id.
Definition service_referenced (db : Db) (id : Z) : bool := refers l_service (listeners db) id || refers r_service (reporters db) id.

Definition set_chains (t : Table string) (db : Db) : Db :=
  mkDb t (services db) (listeners db) (reporters db) (vrfs db) (errors_ db) (proxies db) (observed db) (unprocessed db).
Definition set_services (t : Table string) (db : Db) : Db :=
  mkDb (chains db) t (listeners db) (reporters db) (vrfs db) (errors_ db) (proxies db) (observed db) (unprocessed db).
Definition set_listeners (t : Table Listener) (db : Db) : Db :=
  mkDb (chains db) (services db) t (reporters db) (vrfs db) (errors_ db) (proxies db) (observed db) (unprocessed db).
Definition set_reporters (t : Table Reporter) (db : Db) : Db :=
  mkDb (chains db) (services db) (listeners db) t (vrfs db) (errors_ db) (proxies db) (observed db) (unprocessed db).
Definition set_vrfs (t : Table Vrf) (db : Db) : Db :=
  mkDb (chains db) (services db) (listeners db) (reporters db) t (errors_ db) (proxies db) (observed db) (unprocessed db).
Definition set_errors (t : Table ErrorRow) (db : Db) : Db :=
  mkDb (chains db) (services db) (listeners db) (reporters db) (vrfs db) t (proxies db) (observed db) (unprocessed db).
Definition set_proxies (t : Table Proxy) (db : Db) : Db :=
  mkDb (chains db) (services db) (listeners db) (reporters db) (vrfs db) (errors_ db) t (observed db) (unprocessed db).
Definition set_blocks (o : gmap string Z) (u : gset (string * Z)) (db : Db) : Db :=
  mkDb (chains db) (services db) (listeners db) (reporters db) (vrfs db) (errors_ db) (proxies db) o u.

(** The tables that a handler changes, back in the database. *)
Definition on {A R} (f : A -> Db -> Db) (r : A * R) (db : Db) : Db * R := (f r.1 db, r.2).
Definition chain_insert (body : res string) (fault : option error) (db : Db) := on set_chains (named_insert body fault (chains db)) db.
Definition chain_patchById (id : option Z) (body : res string) (fault : option error) (db : Db) :=
  on set_chains (named_update id body fault (chains db)) db.
Definition chain_deleteById (id : option Z) (fault : option error) (db : Db) :=
  on set_chains (delete_id id (chain_referenced db) fault (chains db)) db.
Definition chain_get (fault : option error) (db : Db) := select_all fault (chains db).
Definition chain_getById (id : option Z) (fault : option error) (db : Db) := select_id id fault (chains db).
Definition service_insert (body : res string) (fault : option error) (db : Db) := on set_services (named_insert body fault (services db)) db.
Definition service_updateById (id : option Z) (body : res string) (fault : option error) (db : Db) :=
  on set_services (named_update id body fault (services db)) db.
Definition service_deleteById (id : option Z) (fault : option error) (db : Db) :=
  on set_services (delete_id id (service_referenced db) fault (services db)) db.
Definition service_get (fault : option error) (db : Db) := select_all fault (services db).
Definition service_getById (id : option Z) (fault : option error) (db : Db) := select_id id fault (services db).

(** *** [api/listener] *)
(** The row with the names of its chain and service, as the joins give it; a row whose references are broken has none. *)
Definition joined {A} (chain service : A -> Z) (db : Db) (kv : Z * A) : option (Z * A * string * string) :=
  c ← rows (chains db) !! chain kv.2; s ← rows (services db) !! service kv.2; Some (kv, c, s).
Definition listener_row := joined l_chain l_service.
Definition listener_insert (body : res (string * string * string * string)) (fault : option error) (db : Db)
    : Db * Reply (option (Z * Listener * string * string)) :=
  match body with
  | Err err => (db, Error_ err)
  | Ok (address, event, service, chain) =>
      if negb (required [address; event; service; chain]) then (db, Error_ invalid) else
      match fault with Some err => (db, Error_ err) | None =>
      match varchar 42 address, varchar 255 event with
      | Some address, Some event =>
          match find_name chain (chains db), find_name service (services db) with
          | Some c, Some s =>
              let row := mkListener address event c s in
              let db' := set_listeners (add row (listeners db)) db in
              (db', Answer (listener_row db' (next (listeners db), row)))
          | _, _ => (set_listeners (skip (listeners db)) db, Error_ null_violation)
          end
      | _, _ => (db, Error_ too_long)
      end end
  end.
(** The condition of a search: an empty text is none; a name that is not there makes the id nil, whose text cannot be
    asked for. *)
Definition search (name : string) (t : Table string) : option (option Z) :=
  if bool_decide (name = "")%string then Some None else Some <$> find_name name t.
Definition matches (c : option Z) (x : Z) : bool := match c with None => true | Some c => x =? c end.
(** [body]: none, or the chain and the service to search for. *)
Definition listener_get (body : option (res (string * string))) (fault : option error) (db : Db)
    : Reply (list (Z * Listener * string * string)) :=
  let answer c s :=
    Answer (omap (listener_row db) (filter (fun kv => matches c (l_chain kv.2) && matches s (l_service kv.2) = true) (map_to_list (rows (listeners db))))) in
  match fault, body with
  | _, Some (Err err) => Error_ err
  | Some err, _ => Error_ err
  | None, None => answer None None
  | None, Some (Ok (chain, service)) =>
      match search chain (chains db), search service (services db) with
      | Some c, Some s => answer c s
      | _, _ => Panic
      end
  end.
Definition listener_getById (id : option Z) (fault : option error) (db : Db) : Reply (option (Z * Listener * string * string)) :=
  match select_id id fault (listeners db) with
  | Answer r => Answer (r ≫= listener_row db) | Error_ err => Error_ err | Panic => Panic
  end.
Definition listener_updateById (id : option Z) (body : res (string * string)) (fault : option error) (db : Db)
    : Db * Reply (option (Z * Listener * string * string)) :=
  match body with
  | Err err => (db, Error_ err)
  | Ok (address, event) =>
      if negb (required [address; event]) then (db, Error_ invalid) else
      match fault, id with
      | Some err, _ => (db, Error_ err)
      | None, None => (db, Error_ bad_id)
      | None, Some id =>
          match rows (listeners db) !! id, varchar 42 address, varchar 255 event with
          | None, _, _ => (db, Answer None)
          | Some l, Some address, Some event =>
              let row := mkListener address event (l_chain l) (l_service l) in
              (set_listeners (set id row (listeners db)) db, Answer (listener_row db (id, row)))
          | Some _, _, _ => (db, Error_ too_long)
          end
      end
  end.
Definition listener_deleteById (id : option Z) (fault : option error) (db : Db) : Db * Reply (option (Z * Listener * string * string)) :=
  match delete_id id (fun _ => false) fault (listeners db) with
  | (t, Answer r) => (set_listeners t db, Answer (r ≫= listener_row db))
  | (t, Error_ err) => (set_listeners t db, Error_ err)
  | (t, Panic) => (set_listeners t db, Panic)
  end.

(** *** [api/reporter] *)
Definition reporter_row := joined r_chain r_service.
Abbreviation ReporterReply := (option (Z * Reporter * string * string)).
Definition with_key (key : string) (r : Reporter) : Reporter := mkReporter (r_Address r) key (OracleAddress r) (r_chain r) (r_service r).

Section reporters.
(** The encryption of keys: [encrypt] with the random bytes that it draws, [decrypt] panics on a text that is too short. *)
Variables (encrypt : string -> res string) (decrypt : string -> option (res string)).

Definition reporter_insert (body : res (string * string * string * string * string)) (fault : option error) (db : Db)
    : Db * Reply ReporterReply :=
  match body with
  | Err err => (db, Error_ err)
  | Ok (address, key, oracle, service, chain) =>
      if negb (required [address; key; oracle; service; chain]) then (db, Error_ invalid) else
      match fault with Some err => (db, Error_ err) | None =>
      match encrypt key with Err err => (db, Error_ err) | Ok encrypted =>
      match varchar 42 address, varchar 164 encrypted, varchar 42 oracle with
      | Some address, Some encrypted, Some oracle =>
          match find_name chain (chains db), find_name service (services db) with
          | Some c, Some s =>
              let row := mkReporter address encrypted oracle c s in
              let db' := set_reporters (add row (reporters db)) db in
              (db', Answer (reporter_row db' (next (reporters db), with_key key row)))
          | _, _ => (set_reporters (skip (reporters db)) db, Error_ null_violation)
          end
      | _, _, _ => (db, Error_ too_long)
      end end end
  end.
(** The keys of the rows are decrypted one after the other. *)
Fixpoint decrypt_rows (l : list (Z * Reporter * string * string)) : Reply (list (Z * Reporter * string * string)) :=
  match l with
  | [] => Answer []
  | (id, r, c, s) :: l =>
      match decrypt (PrivateKey r) with
      | None => Panic
      | Some (Err err) => Error_ err
      | Some (Ok key) =>
          match decrypt_rows l with Answer l => Answer ((id, with_key key r, c, s) :: l) | Error_ err => Error_ err | Panic => Panic end
      end
  end.
(** The condition on the oracle address is pasted into the text of the query between quotes: with a quote in the
    address the query is another one, whose rows are [injected]. *)
Definition reporter_search (injected : list (Z * Reporter * string * string)) (oracle : string) (chain service : option Z) (db : Db)
    : list (Z * Reporter * string * string) :=
  if Contains oracle "'" then injected else
  omap (reporter_row db) (filter (fun kv => matches chain (r_chain kv.2) && matches service (r_service kv.2) &&
    (bool_decide (oracle = "")%string || bool_decide (OracleAddress kv.2 = oracle)) = true) (map_to_list (rows (reporters db)))).
Definition search_reporters (injected : list (Z * Reporter * string * string)) (oracle : string) (body : res (string * string))
    (fault : option error) (db : Db) : Reply (list (Z * Reporter * string * string)) :=
  match body with
  | Err err => Error_ err
  | Ok (chain, service) =>
      match fault with Some err => Error_ err | None =>
      match search chain (chains db), search service (services db) with
      | Some c, Some s => decrypt_rows (reporter_search injected oracle c s db)
      | _, _ => Panic
      end end
  end.
Definition reporter_get (body : option (res (string * string))) (fault : option error) (db : Db) :=
  search_reporters [] "" (default (Ok (""%string, ""%string)) body) fault db.
Definition getByOracleAddress (injected : list (Z * Reporter * string * string)) (oracle : string) (body : res (string * string))
    (fault : option error) (db : Db) := search_reporters injected oracle body fault db.
(** The key of a row that was read, or of the row of zeros. *)
Definition decrypt_row (r : ReporterReply) : Reply ReporterReply :=
  match decrypt (match r with Some (_, r, _, _) => PrivateKey r | None => ""%string end) with
  | None => Panic
  | Some (Err err) => Error_ err
  | Some (Ok key) => Answer ((fun '(id, r, c, s) => (id, with_key key r, c, s)) <$> r)
  end.
Definition reporter_getById (id : option Z) (fault : option error) (db : Db) : Reply ReporterReply :=
  match select_id id fault (reporters db) with
  | Answer r => decrypt_row (r ≫= reporter_row db)
  | Error_ err => Error_ err
  | Panic => Panic
  end.
Definition reporter_updateById (id : option Z) (body : res (string * string * string)) (fault : option error) (db : Db)
    : Db * Reply ReporterReply :=
  match body with
  | Err err => (db, Error_ err)
  | Ok (address, key, oracle) =>
      if negb (required [address; key; oracle]) then (db, Error_ invalid) else
      match encrypt key with Err err => (db, Error_ err) | Ok encrypted =>
      match fault, id with
      | Some err, _ => (db, Error_ err)
      | None, None => (db, Error_ bad_id)
      | None, Some id =>
          match rows (reporters db) !! id, varchar 42 address, varchar 164 encrypted, varchar 42 oracle with
          | None, _, _, _ => (db, Answer None)
          | Some r, Some address, Some encrypted, Some oracle =>
              let row := mkReporter address encrypted oracle (r_chain r) (r_service r) in
              (set_reporters (set id row (reporters db)) db, Answer (reporter_row db (id, with_key key row)))
          | Some _, _, _, _ => (db, Error_ too_long)
          end
      end end
  end.
(** The row is gone also when its key cannot be decrypted. *)
Definition reporter_deleteById (id : option Z) (fault : option error) (db : Db) : Db * Reply ReporterReply :=
  match delete_id id (fun _ => false) fault (reporters db) with
  | (t, Answer r) => (set_reporters t db, decrypt_row (r ≫= reporter_row db))
  | (t, Error_ err) => (set_reporters t db, Error_ err)
  | (t, Panic) => (set_reporters t db, Panic)
  end.
End reporters.

(** *** [api/vrf] *)
Definition vrf_row (db : Db) (kv : Z * Vrf) : option (Z * Vrf * string) := c ← rows (chains db) !! v_chain kv.2; Some (kv, c).
Definition vrf_columns (sk pk pkx pky hash : string) (chain : Z) : option Vrf :=
  sk ← varchar 64 sk; pk ← varchar 130 pk; pkx ← varchar 78 pkx; pky ← varchar 78 pky; hash ← varchar 66 hash;
  Some (mkVrf sk pk pkx pky hash chain).
Definition vrf_insert (body : res (string * string * string * string * string * string)) (fault : option error) (db : Db)
    : Db * Reply (option (Z * Vrf * string)) :=
  match body with
  | Err err => (db, Error_ err)
  | Ok (sk, pk, pkx, pky, hash, chain) =>
      if negb (required [sk; pk; pkx; pky; hash; chain]) then (db, Error_ invalid) else
      match fault with Some err => (db, Error_ err) | None =>
      let c := find_name chain (chains db) in
      match vrf_columns sk pk pkx pky hash (default 0 c), c with
      | None, _ => (db, Error_ too_long)
      | Some _, None => (set_vrfs (skip (vrfs db)) db, Error_ null_violation)
      | Some row, Some _ =>
          let db' := set_vrfs (add row (vrfs db)) db in (db', Answer (vrf_row db' (next (vrfs db), row)))
      end end
  end.
(** An unknown chain gives no rows here. *)
Definition vrf_get (body : option (res string)) (fault : option error) (db : Db) : Reply (list (Z * Vrf * string)) :=
  match fault, body with
  | _, Some (Err err) => Error_ err
  | Some err, _ => Error_ err
  | None, None => Answer (omap (vrf_row db) (map_to_list (rows (vrfs db))))
  | None, Some (Ok chain) =>
      Answer match find_name chain (chains db) with
             | None => []
             | Some c => omap (vrf_row db) (filter (fun kv => v_chain kv.2 = c) (map_to_list (rows (vrfs db))))
             end
  end.
Definition vrf_getById (id : option Z) (fault : option error) (db : Db) : Reply (option (Z * Vrf * string)) :=
  match select_id id fault (vrfs db) with Answer r => Answer (r ≫= vrf_row db) | Error_ err => Error_ err | Panic => Panic end.
Definition vrf_updateById (id : option Z) (body : res (string * string * string * string * string)) (fault : option error) (db : Db)
    : Db * Reply (option (Z * Vrf * string)) :=
  match body with
  | Err err => (db, Error_ err)
  | Ok (sk, pk, pkx, pky, hash) =>
      if negb (required [sk; pk; pkx; pky; hash]) then (db, Error_ invalid) else
      match fault, id with
      | Some err, _ => (db, Error_ err)
      | None, None => (db, Error_ bad_id)
      | None, Some id =>
          match rows (vrfs db) !! id with
          | None => (db, Answer None)
          | Some v => match vrf_columns sk pk pkx pky hash (v_chain v) with
                      | None => (db, Error_ too_long)
                      | Some row => (set_vrfs (set id row (vrfs db)) db, Answer (vrf_row db (id, row)))
                      end
          end
      end
  end.
Definition vrf_deleteById (id : option Z) (fault : option error) (db : Db) : Db * Reply (option (Z * Vrf * string)) :=
  match delete_id id (fun _ => false) fault (vrfs db) with
  | (t, Answer r) => (set_vrfs t db, Answer (r ≫= vrf_row db))
  | (t, Error_ err) => (set_vrfs t db, Error_ err)
  | (t, Panic) => (set_vrfs t db, Panic)
  end.

(** *** [api/apierr] *)
(** The time is written with [String] and read by the database. *)
Definition error_insert (body : res (string * option Time * string * string * string)) (fault : option error) (db : Db)
    : Db * Reply (Z * ErrorRow) :=
  match body with
  | Err err => (db, Error_ err)
  | Ok (request, time, code, name, stack) =>
      match time with
      | None => (db, Error_ invalid)
      | Some t =>
          if negb (required [request; code; name; stack]) then (db, Error_ invalid) else
          match fault with Some err => (db, Error_ err) | None =>
          match tryParsingRFC3339 (CustomDateTime_String t) with
          | None => (db, Error_ (External "invalid input syntax for type timestamp"))
          | Some t =>
              let row := mkErrorRow request t code name stack in
              (set_errors (add row (errors_ db)) db, Answer (next (errors_ db), row))
          end end
      end
  end.
Definition error_get (fault : option error) (db : Db) := select_all fault (errors_ db).
Definition error_getById (id : option Z) (fault : option error) (db : Db) := select_id id fault (errors_ db).
Definition error_deleteById (testing : option bool) (id : option Z) (fault : option error) (db : Db) : Db * Reply (option (Z * ErrorRow)) :=
  if negb (IsTesting testing) then (db, Panic) else on set_errors (delete_id id (fun _ => false) fault (errors_ db)) db.

(** *** [api/proxy] *)
Definition proxy_address (p : Proxy) : string * string * Z := (Protocol p, Host p, Port p).
Definition proxy_taken (p : Proxy) (but : option Z) (t : Table Proxy) : bool :=
  existsb (fun kv => bool_decide (proxy_address kv.2 = proxy_address p) && negb (bool_decide (Some kv.1 = but))) (map_to_list (rows t)).
(** A pointer to a port is required, the port 0 is not refused. *)
Definition proxy_payload (body : res (string * string * option int32 * option string)) : res Proxy :=
  let? body := body in
  let '(protocol, host, port, location) := body in
  match port with
  | Some port => if required [protocol; host] then Ok (mkProxy protocol host port location) else Err invalid
  | None => Err invalid
  end.
Definition proxy_insert (body : res (string * string * option int32 * option string)) (fault : option error) (db : Db)
    : Db * Reply (Z * Proxy) :=
  match proxy_payload body with
  | Err err => (db, Error_ err)
  | Ok row =>
      match fault with Some err => (db, Error_ err) | None =>
      if proxy_taken row None (proxies db) then (set_proxies (skip (proxies db)) db, Error_ unique_violation)
      else (set_proxies (add row (proxies db)) db, Answer (next (proxies db), row))
      end
  end.
Definition proxy_get (fault : option error) (db : Db) := select_all fault (proxies db).
Definition proxy_getById (id : option Z) (fault : option error) (db : Db) := select_id id fault (proxies db).
Definition proxy_updateById (id : option Z) (body : res (string * string * option int32 * option string)) (fault : option error) (db : Db)
    : Db * Reply (option (Z * Proxy)) :=
  match proxy_payload body with
  | Err err => (db, Error_ err)
  | Ok row =>
      match fault, id with
      | Some err, _ => (db, Error_ err)
      | None, None => (db, Error_ bad_id)
      | None, Some id =>
          match rows (proxies db) !! id with
          | None => (db, Answer None)
          | Some _ => if proxy_taken row (Some id) (proxies db) then (db, Error_ unique_violation)
                      else (set_proxies (set id row (proxies db)) db, Answer (Some (id, row)))
          end
      end
  end.
Definition proxy_deleteById (id : option Z) (fault : option error) (db : Db) :=
  on set_proxies (delete_id id (fun _ => false) fault (proxies db)) db.

(** *** [api/l2aggregator] *)
(** The pairs are of a table that no migration creates. *)
Definition l2_get (pairs : list L2Pair) (chain l1Address : string) (fault : option error) (db : Db) : Reply (option L2Pair) :=
  match fault with
  | Some err => Error_ err
  | None => Answer (c ← find_name chain (chains db); head (filter (fun p => L1Address p = l1Address /\ p_chain p = c) pairs))
  end.

(** *** [api/blocks] *)
Definition service_required : error := External "service is required".
Definition getObservedBlock (service : string) (fault : option error) (db : Db) : Reply (option (string * Z)) :=
  if bool_decide (service = "")%string then Error_ service_required else
  match fault with Some err => Error_ err | None => Answer ((fun n => (service, n)) <$> observed db !! service) end.
(** [GREATEST] of the stored and the new number. *)
Definition upsertObservedBlock (body : res (string * Z)) (fault : option error) (db : Db) : Db * Reply (string * Z) :=
  match body with
  | Err err => (db, Error_ err)
  | Ok (service, n) =>
      if negb (required [service]) || (n <? 0) then (db, Error_ invalid) else
      match fault with Some err => (db, Error_ err) | None =>
      let n := match observed db !! service with Some m => Z.max m n | None => n end in
      (set_blocks (<[service := n]> (observed db)) (unprocessed db) db, Answer (service, n))
      end
  end.
Definition getUnprocessedBlocks (service : string) (fault : option error) (db : Db) : Reply (list (string * Z)) :=
  if bool_decide (service = "")%string then Error_ service_required else
  match fault with Some err => Error_ err | None => Answer (filter (fun b => b.1 = service) (elements (unprocessed db))) end.
(** The service is pasted into the text of the statement between quotes: with a quote in it the statement is another one,
    and [injected] is the database after it.  Without blocks the text is no statement. *)
Definition insertUnprocessedBlocks (injected : Db * Reply (list (string * list Z))) (body : res (string * list Z)) (fault : option error) (db : Db)
    : Db * Reply (list (string * list Z)) :=
  match body with
  | Err err => (db, Error_ err)
  | Ok (service, blocks) =>
      if negb (required [service]) || existsb (fun n => n <? 0) blocks then (db, Error_ invalid) else
      match fault with Some err => (db, Error_ err) | None =>
      if Contains service "'" then injected else
      match blocks with
      | [] => (db, Error_ (External "syntax error"))
      | _ => (set_blocks (observed db) (list_to_set ((fun n => (service, n)) <$> blocks) ∪ unprocessed db) db, Answer [])
      end end
  end.
Definition deleteUnprocessedBlock (service : string) (n : option Z) (fault : option error) (db : Db) : Db * Reply (option (string * Z)) :=
  match fault, n with
  | Some err, _ => (db, Error_ err)
  | None, None => (db, Error_ bad_id)
  | None, Some n =>
      (set_blocks (observed db) (unprocessed db ∖ {[(service, n)]}) db,
       Answer (if bool_decide ((service, n) ∈ unprocessed db) then Some (service, n) else None))
  end.

(** *** The constraints of the tables *)
Definition ids_below {A} (t : Table A) : Prop := forall i a, rows t !! i = Some a -> i < next t.
Definition unique {A B} (f : A -> B) (t : Table A) : Prop :=
  forall i j a b, rows t !! i = Some a -> rows t !! j = Some b -> f a = f b -> i = j.
Definition refs {A} (f : A -> Z) (t : Table A) (target : Table string) : Prop :=
  forall i a, rows t !! i = Some a -> is_Some (rows target !! f a).
Record db_ok (db : Db) : Prop := mkDbOk {
  ok_chains : ids_below (chains db) /\ unique id (chains db);
  ok_services : ids_below (services db) /\ unique id (services db);
  ok_ids : ids_below (listeners db) /\ ids_below (reporters db) /\ ids_below (vrfs db) /\ ids_below (errors_ db) /\ ids_below (proxies db);
  ok_listeners : refs l_chain (listeners db) (chains db) /\ refs l_service (listeners db) (services db);
  ok_reporters : refs r_chain (reporters db) (chains db) /\ refs r_service (reporters db) (services db);
  ok_vrfs : refs v_chain (vrfs db) (chains db);
  ok_proxies : unique proxy_address (proxies db);
  ok_observed : forall s n, observed db !! s = Some n -> 0 <= n;
  ok_unprocessed : forall s n, (s, n) ∈ unprocessed db -> 0 <= n }.

Lemma find_name_Some name t i : find_name name t = Some i -> rows t !! i = Some name.
Proof.
  unfold find_name. destruct (filter _ _) as [|[k v] l] eqn:Hf; [done|]. cbn. intros [= <-].
  assert (Hin : (k, v) ∈ filter (fun kv => kv.2 = name) (map_to_list (rows t))) by (rewrite Hf; by left).
  apply list_elem_of_filter in Hin as [Hv Hin]. cbn in Hv. subst v. by apply elem_of_map_to_list.
Qed.
Lemma find_name_None name t i : find_name name t = None -> rows t !! i <> Some name.
Proof.
  unfold find_name. destruct (filter _ _) as [|[k v] l] eqn:Hf; [|done]. intros _ Hi.
  assert (Hin : (i, name) ∈ filter (fun kv => kv.2 = name) (map_to_list (rows t))); [|rewrite Hf in Hin; by apply not_elem_of_nil in Hin].
  apply list_elem_of_filter. split; [done|]. by apply elem_of_map_to_list.
Qed.
Lemma refers_false {A} (f : A -> Z) t id i a : refers f t id = false -> rows t !! i = Some a -> f a <> id.
Proof.
  unfold refers. rewrite <- not_true_iff_false, existsb_exists. intros Hn Hi Heq. apply Hn. exists (i, a).
  split; [by apply list_elem_of_In, elem_of_map_to_list|by apply Z.eqb_eq].
Qed.
Lemma ids_fresh {A} (t : Table A) : ids_below t -> rows t !! next t = None.
Proof. intros Ht. destruct (rows t !! next t) as [a|] eqn:He; [|done]. specialize (Ht _ _ He). lia. Qed.
Lemma ids_add {A} (a : A) t : ids_below t -> ids_below (add a t).
Proof. intros Ht i b. cbn. rewrite lookup_insert_Some. intros [[<- _]|[_ Hi]]; [lia|]. specialize (Ht i b Hi). lia. Qed.
Lemma ids_skip {A} (t : Table A) : ids_below t -> ids_below (skip t).
Proof. intros Ht i b Hi. specialize (Ht i b Hi). cbn. lia. Qed.
Lemma ids_set {A} i0 (a a0 : A) t : rows t !! i0 = Some a0 -> ids_below t -> ids_below (set i0 a t).
Proof. intros H0 Ht i b. cbn. rewrite lookup_insert_Some. intros [[<- _]|[_ Hi]]; eauto. Qed.
Lemma ids_drop {A} i0 (t : Table A) : ids_below t -> ids_below (drop_row i0 t).
Proof. intros Ht i b. cbn. rewrite lookup_delete_Some. intros [_ Hi]. eauto. Qed.
Lemma refs_add {A} (f : A -> Z) a t target : refs f t target -> is_Some (rows target !! f a) -> refs f (add a t) target.
Proof. intros Ht Ha i b. cbn. rewrite lookup_insert_Some. intros [[_ <-]|[_ Hi]]; eauto. Qed.
Lemma refs_set {A} (f : A -> Z) i0 a a0 t target : rows t !! i0 = Some a0 -> f a = f a0 -> refs f t target -> refs f (set i0 a t) target.
Proof. intros H0 Ha Ht i b. cbn. rewrite lookup_insert_Some. intros [[_ <-]|[_ Hi]]; [rewrite Ha|]; eauto. Qed.
Lemma refs_drop {A} (f : A -> Z) i0 t target : refs f t target -> refs f (drop_row i0 t) target.
Proof. intros Ht i b. cbn. rewrite lookup_delete_Some. intros [_ Hi]. eauto. Qed.
(** The table referred to keeps the rows that are referred to. *)
Lemma refs_target {A} (f : A -> Z) t target target' :
  refs f t target -> (forall i a, rows t !! i = Some a -> is_Some (rows target !! f a) -> is_Some (rows target' !! f a)) -> refs f t target'.
Proof. intros Ht H i a Hi. eauto. Qed.

(** What the handlers of chains and services do to the table of names: rows that are referred to stay. *)
Definition names_step (referenced : Z -> bool) (t t' : Table string) : Prop :=
  (ids_below t -> unique id t -> ids_below t' /\ unique id t') /\
  (forall i, is_Some (rows t !! i) -> is_Some (rows t' !! i) \/ referenced i = false).
Lemma names_refl referenced t : names_step referenced t t.
Proof. split; [done|]. by left. Qed.
Lemma names_skip referenced t : names_step referenced t (skip t).
Proof. split; [|by left]. intros Hi Hu. split; [by apply ids_skip|done]. Qed.
Lemma named_insert_step referenced body fault t : names_step referenced t (named_insert body fault t).1.
Proof.
  unfold named_insert. destruct body as [name|]; [|apply names_refl]. destruct (negb _); [apply names_refl|].
  destruct fault; [apply names_refl|]. destruct (find_name name t) eqn:Hf; [apply names_skip|]. split; cbn [fst].
  - intros Hi Hu. split; [by apply ids_add|]. intros i j a b. cbn. rewrite !lookup_insert_Some.
    intros [[<- <-]|[_ H1]] [[<- <-]|[_ H2]] Heq; cbn in *; subst; try done;
      [by apply (find_name_None _ _ j) in Hf|by apply (find_name_None _ _ i) in Hf|by apply (Hu i j _ _ H1 H2)].
  - intros i Hi. left. cbn. apply lookup_insert_is_Some'. by right.
Qed.
Lemma named_update_step referenced i0 body fault t : names_step referenced t (named_update i0 body fault t).1.
Proof.
  unfold named_update. destruct body as [name|]; [|apply names_refl]. destruct fault; [apply names_refl|].
  destruct i0 as [i0|]; [|apply names_refl]. destruct (rows t !! i0) as [old|] eqn:H0; [|apply names_refl].
  case_decide as Hd; [|apply names_refl]. split; cbn [fst].
  - intros Hi Hu. split; [by eapply ids_set|]. intros i j a b. cbn. rewrite !lookup_insert_Some.
    assert (Hno : forall k, rows t !! k = Some name -> k = i0).
    { intros k Hk. destruct Hd as [Hd|Hd]; [by apply (find_name_None _ _ k) in Hd|]. apply find_name_Some in Hd. by apply (Hu k i0 name name). }
    intros [[<- <-]|[Hne1 H1]] [[<- <-]|[Hne2 H2]] Heq; cbn in *; subst; try done; [symmetry; by apply Hno|by apply Hno|by apply (Hu i j _ _ H1 H2)].
  - intros i Hi. left. cbn. apply lookup_insert_is_Some'. by right.
Qed.
Lemma delete_id_step referenced i0 fault t : names_step referenced t (delete_id i0 referenced fault t).1.
Proof.
  unfold delete_id. destruct fault; [apply names_refl|]. destruct i0 as [i0|]; [|apply names_refl].
  destruct (rows t !! i0) as [old|] eqn:H0; [|apply names_refl]. destruct (referenced i0) eqn:Hr; [apply names_refl|]. split; cbn [fst].
  - intros Hi Hu. split; [by apply ids_drop|]. intros i j a b. cbn. rewrite !lookup_delete_Some. intros [_ H1] [_ H2]. eauto.
  - intros i Hi. destruct (decide (i = i0)) as [->|]; [by right|]. left. cbn. by rewrite lookup_delete_ne.
Qed.

Lemma set_chains_ok db t : db_ok db -> names_step (chain_referenced db) (chains db) t -> db_ok (set_chains t db).
Proof.
  intros [C S I L R V P O U] [H1 H2]. destruct C as [C1 C2].
  assert (Hkeep : forall A (f : A -> Z) (x : Table A), (forall i, chain_referenced db i = false -> refers f x i = false) ->
    refs f x (chains db) -> refs f x t).
  { intros A f x Hf Hx. eapply refs_target; [exact Hx|]. intros i a Hi Ha. destruct (H2 _ Ha) as [|Hr]; [done|].
    exfalso. by apply (refers_false f x (f a) i a (Hf _ Hr)). }
  split; try done; cbn; [by apply H1| | |]; [destruct L as [L1 L2]; split; [|done]|destruct R as [R1 R2]; split; [|done]|];
    (apply Hkeep; [|done]; intros i; unfold chain_referenced; rewrite !orb_false_iff; tauto).
Qed.
Lemma set_services_ok db t : db_ok db -> names_step (service_referenced db) (services db) t -> db_ok (set_services t db).
Proof.
  intros [C S I L R V P O U] [H1 H2]. destruct S as [S1 S2].
  assert (Hkeep : forall A (f : A -> Z) (x : Table A), (forall i, service_referenced db i = false -> refers f x i = false) ->
    refs f x (services db) -> refs f x t).
  { intros A f x Hf Hx. eapply refs_target; [exact Hx|]. intros i a Hi Ha. destruct (H2 _ Ha) as [|Hr]; [done|].
    exfalso. by apply (refers_false f x (f a) i a (Hf _ Hr)). }
  split; try done; cbn; [by apply H1| |]; [destruct L as [L1 L2]; split; [done|]|destruct R as [R1 R2]; split; [done|]];
    (apply Hkeep; [|done]; intros i; unfold service_referenced; rewrite !orb_false_iff; tauto).
Qed.
Lemma set_listeners_ok db t :
  db_ok db -> ids_below t -> refs l_chain t (chains db) -> refs l_service t (services db) -> db_ok (set_listeners t db).
Proof. intros [C S (I1 & I) L R V P O U] H1 H2 H3. by split. Qed.
Lemma set_reporters_ok db t :
  db_ok db -> ids_below t -> refs r_chain t (chains db) -> refs r_service t (services db) -> db_ok (set_reporters t db).
Proof. intros [C S (I1 & I2 & I) L R V P O U] H1 H2 H3. by split. Qed.
Lemma set_vrfs_ok db t : db_ok db -> ids_below t -> refs v_chain t (chains db) -> db_ok (set_vrfs t db).
Proof. intros [C S (I1 & I2 & I3 & I) L R V P O U] H1 H2. by split. Qed.
Lemma set_errors_ok db t : db_ok db -> ids_below t -> db_ok (set_errors t db).
Proof. intros [C S (I1 & I2 & I3 & I4 & I) L R V P O U] H1. by split. Qed.
Lemma set_proxies_ok db t : db_ok db -> ids_below t -> unique proxy_address t -> db_ok (set_proxies t db).
Proof. intros [C S (I1 & I2 & I3 & I4 & I) L R V P O U] H1 H2. by split. Qed.

Lemma find_name_ref name t i : find_name name t = Some i -> is_Some (rows t !! i).
Proof. intros H%find_name_Some. by eexists. Qed.
Lemma vrf_columns_chain sk pk pkx pky hash c row : vrf_columns sk pk pkx pky hash c = Some row -> v_chain row = c.
Proof.
  unfold vrf_columns. destruct (varchar 64 sk), (varchar 130 pk), (varchar 78 pkx), (varchar 78 pky), (varchar 66 hash); cbn; try done.
  by intros [= <-].
Qed.
Lemma delete_id_cases {A} i0 referenced fault (t : Table A) :
  (delete_id i0 referenced fault t).1 = t \/ exists i, (delete_id i0 referenced fault t).1 = drop_row i t.
Proof.
  unfold delete_id. destruct fault; [by left|]. destruct i0 as [i0|]; [|by left]. destruct (rows t !! i0); [|by left].
  destruct (referenced i0); [by left|]. right. by exists i0.
Qed.

Lemma listener_insert_ok body fault db : db_ok db -> db_ok (listener_insert body fault db).1.
Proof.
  intros Hok. unfold listener_insert. destruct body as [[[[address event] service] chain]|]; [|done]. destruct (negb _); [done|].
  destruct fault; [done|]. destruct (varchar 42 address), (varchar 255 event); try done.
  pose proof (ok_ids _ Hok) as (I1 & _). destruct (ok_listeners _ Hok) as [L1 L2].
  assert (Hskip : db_ok (set_listeners (skip (listeners db)) db)) by (apply set_listeners_ok; [done|by apply ids_skip|done|done]).
  destruct (find_name chain _) eqn:Hc; [|done]. destruct (find_name service _) eqn:Hs; [|done]. cbn [fst].
  apply set_listeners_ok; [done|by apply ids_add|apply refs_add; [done|]..]; by eapply find_name_ref.
Qed.
Lemma listener_updateById_ok i0 body fault db : db_ok db -> db_ok (listener_updateById i0 body fault db).1.
Proof.
  intros Hok. unfold listener_updateById. destruct body as [[address event]|]; [|done]. destruct (negb _); [done|].
  destruct fault; [done|]. destruct i0 as [i0|]; [|done]. destruct (rows (listeners db) !! i0) as [l|] eqn:Hl; [|done].
  destruct (varchar 42 address), (varchar 255 event); try done. pose proof (ok_ids _ Hok) as (I1 & _).
  destruct (ok_listeners _ Hok) as [L1 L2]. cbn [fst]. apply set_listeners_ok; [done|by eapply ids_set|by eapply refs_set..].
Qed.
Lemma listener_deleteById_ok i0 fault db : db_ok db -> db_ok (listener_deleteById i0 fault db).1.
Proof.
  intros Hok. unfold listener_deleteById. pose proof (ok_ids _ Hok) as (I1 & _). destruct (ok_listeners _ Hok) as [L1 L2].
  destruct (delete_id_cases i0 (fun _ => false) fault (listeners db)) as [Hd|[i Hd]]; destruct (delete_id _ _ _ _) as [t []]; cbn in Hd |- *;
    subst t; (apply set_listeners_ok; auto using ids_drop, refs_drop).
Qed.
Lemma reporter_insert_ok encrypt body fault db : db_ok db -> db_ok (reporter_insert encrypt body fault db).1.
Proof.
  intros Hok. unfold reporter_insert. destruct body as [[[[[address key] oracle] service] chain]|]; [|done]. destruct (negb _); [done|].
  destruct fault; [done|]. destruct (encrypt key) as [enc|]; [|done]. destruct (varchar 42 address), (varchar 164 enc), (varchar 42 oracle); try done.
  pose proof (ok_ids _ Hok) as (_ & I1 & _). destruct (ok_reporters _ Hok) as [L1 L2].
  assert (Hskip : db_ok (set_reporters (skip (reporters db)) db)) by (apply set_reporters_ok; [done|by apply ids_skip|done|done]).
  destruct (find_name chain _) eqn:Hc; [|done]. destruct (find_name service _) eqn:Hs; [|done]. cbn [fst].
  apply set_reporters_ok; [done|by apply ids_add|apply refs_add; [done|]..]; by eapply find_name_ref.
Qed.
Lemma reporter_updateById_ok encrypt i0 body fault db : db_ok db -> db_ok (reporter_updateById encrypt i0 body fault db).1.
Proof.
  intros Hok. unfold reporter_updateById. destruct body as [[[address key] oracle]|]; [|done]. destruct (negb _); [done|].
  destruct (encrypt key) as [enc|]; [|done]. destruct fault; [done|]. destruct i0 as [i0|]; [|done].
  destruct (rows (reporters db) !! i0) as [l|] eqn:Hl; [|done]. destruct (varchar 42 address), (varchar 164 enc), (varchar 42 oracle); try done.
  pose proof (ok_ids _ Hok) as (_ & I1 & _). destruct (ok_reporters _ Hok) as [L1 L2].
  cbn [fst]. apply set_reporters_ok; [done|by eapply ids_set|by eapply refs_set..].
Qed.
Lemma reporter_deleteById_ok decrypt i0 fault db : db_ok db -> db_ok (reporter_deleteById decrypt i0 fault db).1.
Proof.
  intros Hok. unfold reporter_deleteById. pose proof (ok_ids _ Hok) as (_ & I1 & _). destruct (ok_reporters _ Hok) as [L1 L2].
  destruct (delete_id_cases i0 (fun _ => false) fault (reporters db)) as [Hd|[i Hd]]; destruct (delete_id _ _ _ _) as [t []]; cbn in Hd |- *;
    subst t; (apply set_reporters_ok; auto using ids_drop, refs_drop).
Qed.

Lemma vrf_insert_ok body fault db : db_ok db -> db_ok (vrf_insert body fault db).1.
Proof.
  intros Hok. unfold vrf_insert. destruct body as [[[[[[sk pk] pkx] pky] hash] chain]|]; [|done]. destruct (negb _); [done|].
  destruct fault; [done|]. cbv zeta. pose proof (ok_ids _ Hok) as (_ & _ & I1 & _). pose proof (ok_vrfs _ Hok) as V1.
  destruct (vrf_columns _ _ _ _ _ _) as [row|] eqn:Hr; [|done]. destruct (find_name chain _) as [c|] eqn:Hc; cbn [fst].
  - apply set_vrfs_ok; [done|by apply ids_add|apply refs_add; [done|]]. apply vrf_columns_chain in Hr as ->. by eapply find_name_ref.
  - apply set_vrfs_ok; [done|by apply ids_skip|done].
Qed.
Lemma vrf_updateById_ok i0 body fault db : db_ok db -> db_ok (vrf_updateById i0 body fault db).1.
Proof.
  intros Hok. unfold vrf_updateById. destruct body as [[[[[sk pk] pkx] pky] hash]|]; [|done]. destruct (negb _); [done|].
  destruct fault; [done|]. destruct i0 as [i0|]; [|done]. destruct (rows (vrfs db) !! i0) as [v|] eqn:Hv; [|done].
  destruct (vrf_columns _ _ _ _ _ _) as [row|] eqn:Hr; [|done]. pose proof (ok_ids _ Hok) as (_ & _ & I1 & _). pose proof (ok_vrfs _ Hok) as V1.
  cbn [fst]. apply set_vrfs_ok; [done|by eapply ids_set|]. eapply refs_set; [done|by eapply vrf_columns_chain|done].
Qed.
Lemma vrf_deleteById_ok i0 fault db : db_ok db -> db_ok (vrf_deleteById i0 fault db).1.
Proof.
  intros Hok. unfold vrf_deleteById. pose proof (ok_ids _ Hok) as (_ & _ & I1 & _). pose proof (ok_vrfs _ Hok) as V1.
  destruct (delete_id_cases i0 (fun _ => false) fault (vrfs db)) as [Hd|[i Hd]]; destruct (delete_id _ _ _ _) as [t []]; cbn in Hd |- *;
    subst t; (apply set_vrfs_ok; auto using ids_drop, refs_drop).
Qed.
Lemma error_insert_ok body fault db : db_ok db -> db_ok (error_insert body fault db).1.
Proof.
  intros Hok. unfold error_insert. destruct body as [[[[[request [t|]] code] name] stack]|]; [|done|done]. destruct (negb _); [done|].
  destruct fault; [done|]. destruct (tryParsingRFC3339 _); [|done]. pose proof (ok_ids _ Hok) as (_ & _ & _ & I1 & _).
  apply set_errors_ok; [done|by apply ids_add].
Qed.
Lemma error_deleteById_ok testing i0 fault db : db_ok db -> db_ok (error_deleteById testing i0 fault db).1.
Proof.
  intros Hok. unfold error_deleteById. destruct (negb _); [done|]. pose proof (ok_ids _ Hok) as (_ & _ & _ & I1 & _). cbn [on fst].
  destruct (delete_id_cases i0 (fun _ => false) fault (errors_ db)) as [->|[i ->]]; (apply set_errors_ok; auto using ids_drop).
Qed.
Lemma proxy_taken_false p but t i q : proxy_taken p but t = false -> rows t !! i = Some q -> proxy_address q = proxy_address p -> Some i = but.
Proof.
  unfold proxy_taken. rewrite <- not_true_iff_false, existsb_exists. intros Hn Hi Heq. destruct (decide (Some i = but)) as [|Hne]; [done|].
  exfalso. apply Hn. exists (i, q). split; [by apply list_elem_of_In, elem_of_map_to_list|]. cbn. by rewrite bool_decide_true, bool_decide_false.
Qed.
Lemma api_proxy_insert_ok body fault db : db_ok db -> db_ok (proxy_insert body fault db).1.
Proof.
  intros Hok. unfold proxy_insert. destruct (proxy_payload body) as [p|]; [|done]. destruct fault; [done|].
  pose proof (ok_ids _ Hok) as (_ & _ & _ & _ & I1). pose proof (ok_proxies _ Hok) as P1. destruct (proxy_taken _ _ _) eqn:Hf; cbn [fst].
  - apply set_proxies_ok; [done|by apply ids_skip|done].
  - apply set_proxies_ok; [done|by apply ids_add|]. intros i j a b. cbn. rewrite !lookup_insert_Some.
    intros [[<- <-]|[_ H1]] [[<- <-]|[_ H2]] Heq; try done; [| |by apply (P1 i j a b)].
    + by apply (proxy_taken_false _ _ _ j b) in Hf.
    + by apply (proxy_taken_false _ _ _ i a) in Hf.
Qed.
Lemma api_proxy_updateById_ok i0 body fault db : db_ok db -> db_ok (proxy_updateById i0 body fault db).1.
Proof.
  intros Hok. unfold proxy_updateById. destruct (proxy_payload body) as [p|]; [|done]. destruct fault; [done|]. destruct i0 as [i0|]; [|done].
  destruct (rows (proxies db) !! i0) as [q|] eqn:Hq; [|done]. destruct (proxy_taken _ _ _) eqn:Hf; [done|].
  pose proof (ok_ids _ Hok) as (_ & _ & _ & _ & I1). pose proof (ok_proxies _ Hok) as P1. cbn [fst].
  apply set_proxies_ok; [done|by eapply ids_set|]. intros i j a b. cbn. rewrite !lookup_insert_Some.
  intros [[<- <-]|[_ H1]] [[<- <-]|[_ H2]] Heq; try done; [| |by apply (P1 i j a b)].
  - apply (proxy_taken_false _ _ _ j b) in Hf; [congruence|done|done].
  - apply (proxy_taken_false _ _ _ i a) in Hf; [congruence|done|done].
Qed.
Lemma api_proxy_deleteById_ok i0 fault db : db_ok db -> db_ok (proxy_deleteById i0 fault db).1.
Proof.
  intros Hok. unfold proxy_deleteById. pose proof (ok_ids _ Hok) as (_ & _ & _ & _ & I1). pose proof (ok_proxies _ Hok) as P1. cbn [on fst].
  destruct (delete_id_cases i0 (fun _ => false) fault (proxies db)) as [->|[i ->]]; (apply set_proxies_ok; auto using ids_drop).
  intros x y a b. cbn. rewrite !lookup_delete_Some. intros [_ H1] [_ H2]. by apply (P1 x y).
Qed.
Lemma upsertObservedBlock_ok body fault db : db_ok db -> db_ok (upsertObservedBlock body fault db).1.
Proof.
  intros Hok. unfold upsertObservedBlock. destruct body as [[service n]|]; [|done]. destruct (negb _ || _) eqn:Hn; [done|].
  destruct fault; [done|]. apply orb_false_iff in Hn as [_ Hn%Z.ltb_ge]. destruct Hok as [C S I L R V P O U]. split; try done. cbn [observed set_blocks fst].
  intros s m. rewrite lookup_insert_Some. intros [[<- <-]|[_ Hm]]; [|by eapply O].
  destruct (observed db !! service) as [k|] eqn:Hk; [|lia]. specialize (O _ _ Hk). lia.
Qed.
Lemma insertUnprocessedBlocks_ok injected body fault db :
  db_ok db -> db_ok injected.1 -> db_ok (insertUnprocessedBlocks injected body fault db).1.
Proof.
  intros Hok Hin. unfold insertUnprocessedBlocks. destruct body as [[service blocks]|]; [|done]. destruct (negb _ || _) eqn:Hn; [done|].
  destruct fault; [done|]. destruct (Contains service "'"); [done|]. apply orb_false_iff in Hn as [_ Hn].
  destruct blocks as [|b blocks]; [done|]. destruct Hok as [C S I L R V P O U]. split; try done. cbn [unprocessed set_blocks fst].
  intros s n [Hx|Hx]%elem_of_union; [|by eapply U]. apply elem_of_list_to_set, list_elem_of_fmap in Hx as (n' & [= -> ->] & Hx).
  destruct (Z.lt_ge_cases n' 0) as [Hlt|]; [|done]. exfalso. rewrite <- not_true_iff_false, existsb_exists in Hn. apply Hn. exists n'.
  split; [by apply list_elem_of_In|by apply Z.ltb_lt].
Qed.
Lemma deleteUnprocessedBlock_ok service n fault db : db_ok db -> db_ok (deleteUnprocessedBlock service n fault db).1.
Proof.
  intros Hok. unfold deleteUnprocessedBlock. destruct fault; [done|]. destruct n as [n|]; [|done].
  destruct Hok as [C S I L R V P O U]. split; try done. cbn [unprocessed set_blocks fst]. intros s m [Hm _]%elem_of_difference. by eapply U.
Qed.

(** *** The requests that change the database *)
Inductive Request : Type :=
| ChainInsert (body : res string) | ChainPatch (id : option Z) (body : res string) | ChainDelete (id : option Z)
| ServiceInsert (body : res string) | ServiceUpdate (id : option Z) (body : res string) | ServiceDelete (id : option Z)
| ListenerInsert (body : res (string * string * string * string)) | ListenerUpdate (id : option Z) (body : res (string * string))
| ListenerDelete (id : option Z)
| ReporterInsert (encrypt : string -> res string) (body : res (string * string * string * string * string))
| ReporterUpdate (encrypt : string -> res string) (id : option Z) (body : res (string * string * string))
| ReporterDelete (decrypt : string -> option (res string)) (id : option Z)
| VrfInsert (body : res (string * string * string * string * string * string))
| VrfUpdate (id : option Z) (body : res (string * string * string * string * string)) | VrfDelete (id : option Z)
| ErrorInsert (body : res (string * option Time * string * string * string)) | ErrorDelete (testing : option bool) (id : option Z)
| ProxyInsert (body : res (string * string * option int32 * option string))
| ProxyUpdate (id : option Z) (body : res (string * string * option int32 * option string)) | ProxyDelete (id : option Z)
| ObservedUpsert (body : res (string * Z)) | UnprocessedInsert (injected : Db -> Db) (body : res (string * list Z))
| UnprocessedDelete (service : string) (n : option Z).
Definition serve (db : Db) (r : Request * option error) : Db :=
  let fault := r.2 in
  match r.1 with
  | ChainInsert body => (chain_insert body fault db).1 | ChainPatch i body => (chain_patchById i body fault db).1
  | ChainDelete i => (chain_deleteById i fault db).1
  | ServiceInsert body => (service_insert body fault db).1 | ServiceUpdate i body => (service_updateById i body fault db).1
  | ServiceDelete i => (service_deleteById i fault db).1
  | ListenerInsert body => (listener_insert body fault db).1 | ListenerUpdate i body => (listener_updateById i body fault db).1
  | ListenerDelete i => (listener_deleteById i fault db).1
  | ReporterInsert enc body => (reporter_insert enc body fault db).1 | ReporterUpdate enc i body => (reporter_updateById enc i body fault db).1
  | ReporterDelete dec i => (reporter_deleteById dec i fault db).1
  | VrfInsert body => (vrf_insert body fault db).1 | VrfUpdate i body => (vrf_updateById i body fault db).1
  | VrfDelete i => (vrf_deleteById i fault db).1
  | ErrorInsert body => (error_insert body fault db).1 | ErrorDelete testing i => (error_deleteById testing i fault db).1
  | ProxyInsert body => (proxy_insert body fault db).1 | ProxyUpdate i body => (proxy_updateById i body fault db).1
  | ProxyDelete i => (proxy_deleteById i fault db).1
  | ObservedUpsert body => (upsertObservedBlock body fault db).1
  | UnprocessedInsert injected body => (insertUnprocessedBlocks (injected db, Answer []) body fault db).1
  | UnprocessedDelete service n => (deleteUnprocessedBlock service n fault db).1
  end.
(** Injected statements are bound by the constraints as well. *)
Definition obeys (r : Request * option error) : Prop :=
  match r.1 with UnprocessedInsert injected _ => forall db, db_ok db -> db_ok (injected db) | _ => True end.

(** The handlers keep the constraints that the migrations declare, wherever the
    database fails: ids and names are unique, every listener, reporter and key
    refers to a chain and a service that exist, and no block number is negative.
    The statement that a request can inject is assumed to do so too ([obeys]). *)
Theorem requests_keep_constraints (l : list (Request * option error)) (db : Db) :
  db_ok db -> Forall obeys l -> db_ok (foldl serve db l).
Proof.
  intros Hok Hl. revert db Hok. induction Hl as [|[r fault] l Hr _ IH]; intros db Hok; [done|]. cbn [foldl]. apply IH. unfold serve. cbn [fst snd].
  destruct r; auto using listener_insert_ok, listener_updateById_ok, listener_deleteById_ok, reporter_insert_ok, reporter_updateById_ok,
    reporter_deleteById_ok, vrf_insert_ok, vrf_updateById_ok, vrf_deleteById_ok, error_insert_ok, error_deleteById_ok, api_proxy_insert_ok,
    api_proxy_updateById_ok, api_proxy_deleteById_ok, upsertObservedBlock_ok, deleteUnprocessedBlock_ok.
  - apply set_chains_ok; [done|apply named_insert_step].
  - apply set_chains_ok; [done|apply named_update_step].
  - apply set_chains_ok; [done|apply delete_id_step].
  - apply set_services_ok; [done|apply named_insert_step].
  - apply set_services_ok; [done|apply named_update_step].
  - apply set_services_ok; [done|apply delete_id_step].
  - apply insertUnprocessedBlocks_ok; [done|]. cbn. by apply Hr.
Qed.

Definition w_db : Db :=
  mkDb (mkTable ∅ 1) (mkTable ∅ 1) (mkTable ∅ 1) (mkTable ∅ 1) (mkTable ∅ 1) (mkTable ∅ 1) (mkTable ∅ 1) ∅ ∅.
Definition w_requests : list (Request * option error) :=
  [(ChainInsert (Ok "baobab"%string), None); (ServiceInsert (Ok "VRF"%string), None); (ChainInsert (Ok "baobab"%string), None);
   (ListenerInsert (Ok ("0x1", "Requested", "VRF", "baobab")%string), None); (ChainDelete (Some 1), None);
   (ObservedUpsert (Ok ("vrf"%string, 12)), None); (ListenerDelete (Some 1), Some bad_id)].
Lemma requests_keep_constraints_witness : db_ok (foldl serve w_db w_requests).
Proof.
  apply requests_keep_constraints; [|repeat constructor].
  assert (He : forall A i (a : A), ~ rows (mkTable (∅ : gmap Z A) 1) !! i = Some a) by (intros A i a Hi; cbn in Hi; by rewrite lookup_empty in Hi).
  split; cbn; split_and?; try (intros i a Hi; by destruct (He _ i a)); try (intros i j a b Hi; by destruct (He _ i a)).
  - intros s n Hn. by rewrite lookup_empty in Hn.
  - intros s n Hn. by apply not_elem_of_empty in Hn.
Defined.
(** The chain that a listener refers to is not deleted. *)
Example referenced_chain_stays : rows (chains (foldl serve w_db w_requests)) !! 1 = Some "baobab"%string.
Proof. vm_compute. reflexivity. Qed.

(** *** Observed blocks *)
Definition posted (service : string) (r : Request * option error) : option Z :=
  match r with
  | (ObservedUpsert (Ok (s, n)), None) => if bool_decide (s = service) && required [s] && (0 <=? n) then Some n else None
  | _ => None
  end.
Definition max_block (m : option Z) (n : Z) : option Z := Some (match m with Some m => Z.max m n | None => n end).
Definition keeps_observed (r : Request * option error) : Prop :=
  match r.1 with UnprocessedInsert injected _ => forall db, observed (injected db) = observed db | _ => True end.
Lemma upsert_observed service s n fault db :
  observed (upsertObservedBlock (Ok (s, n)) fault db).1 !! service =
    match posted service (ObservedUpsert (Ok (s, n)), fault) with Some n => max_block (observed db !! service) n | None => observed db !! service end.
Proof.
  unfold upsertObservedBlock, posted. destruct (required [s]) eqn:Hs; cbn [negb orb].
  2:{ destruct fault; [done|]. by rewrite andb_false_r. }
  destruct (Z.ltb_spec n 0) as [Hn|Hn].
  { destruct fault; [done|]. rewrite (proj2 (Z.leb_gt 0 n)) by done. by rewrite andb_false_r. }
  destruct fault; [done|]. rewrite (proj2 (Z.leb_le 0 n)), !andb_true_r by done. cbn [fst observed set_blocks]. case_bool_decide as Heq.
  - subst s. rewrite lookup_insert_eq. by destruct (observed db !! service).
  - by rewrite lookup_insert_ne.
Qed.
Lemma serve_observed service r db :
  keeps_observed r -> observed (serve db r) !! service =
    match posted service r with Some n => max_block (observed db !! service) n | None => observed db !! service end.
Proof.
  intros Hr. destruct r as [r fault]. destruct r as [| | | | | | | | | | | | | | | | | | | |[[s n]|]|injected body|]; [..|by apply upsert_observed|done| |].
  all: cbn [serve fst snd posted]; unfold chain_insert, chain_patchById, chain_deleteById, service_insert, service_updateById, service_deleteById, listener_insert,
      listener_updateById, listener_deleteById, reporter_insert, reporter_updateById, reporter_deleteById, vrf_insert, vrf_updateById,
      vrf_deleteById, error_insert, error_deleteById, proxy_insert, proxy_updateById, proxy_deleteById, deleteUnprocessedBlock, insertUnprocessedBlocks.
  all: cbv zeta; repeat case_match; try done.
  all: cbn in *; simplify_eq; by rewrite ?Hr.
Qed.

(** The observed block of a service is the greatest one posted for it, in
    whatever order the posts come and with any other requests in between. *)
Theorem observed_is_greatest (service : string) (l : list (Request * option error)) (db : Db) :
  Forall keeps_observed l -> observed (foldl serve db l) !! service = foldl max_block (observed db !! service) (omap (posted service) l).
Proof.
  intros Hl. revert db. induction Hl as [|r l Hr _ IH]; intros db; [done|]. cbn [foldl]. rewrite IH, (serve_observed service r db Hr).
  cbn. by destruct (posted service r).
Qed.
Lemma max_block_all l : forall m, match foldl max_block (Some m) l with Some x => m <= x /\ Forall (fun n => n <= x) l | None => False end.
Proof.
  induction l as [|n l IH]; intros m; cbn; [split; [lia|constructor]|]. specialize (IH (Z.max m n)). destruct (foldl _ _ l) as [x|]; [|done].
  destruct IH as [H1 H2]. split; [lia|]. constructor; [lia|done].
Qed.

(** *** The keys of reporters *)
Lemma varchar_short n s : (length (chars s) <= n)%nat -> varchar n s = Some s.
Proof. intros Hl. unfold varchar. by rewrite (proj2 (Nat.leb_le _ _)). Qed.

(** A reporter that was inserted is found again with its key, and the table
    holds the key only encrypted. *)
Theorem reporter_key_roundtrip scrypt_Key keystream password iv address key oracle service chain db db' r :
  (forall k v n, length (keystream k v n) = n) -> (forall k v n, Forall (fun b : Z => 0 <= b < 256) (keystream k v n)) ->
  length iv = 16%nat -> Forall (fun b : Z => 0 <= b < 256) iv -> (length (chars key) <= 66)%nat ->
  reporter_insert (EncryptText scrypt_Key keystream password (Ok iv)) (Ok (address, key, oracle, service, chain)) None db = (db', Answer (Some r)) ->
  let '(id, row, _, _) := r in
  PrivateKey row = key /\ reporter_getById (DecryptText scrypt_Key keystream password) (Some id) None db' = Answer (Some r) /\
  exists stored, rows (reporters db') !! id = Some stored /\ EncryptText scrypt_Key keystream password (Ok iv) key = Ok (PrivateKey stored).
Proof.
  intros Hkl Hkb Hiv Hib Hkey. unfold reporter_insert. destruct (negb _); [done|].
  destruct (EncryptText _ _ _ _ key) as [enc|] eqn:Henc; [|done].
  destruct (decrypt_encrypted _ _ _ Hkl Hkb iv key enc Hiv Hib Henc) as [Hdec Hlen].
  rewrite (varchar_short 164 enc) by lia. destruct (varchar 42 address) as [a|]; [|done]. destruct (varchar 42 oracle) as [o|]; [|done].
  destruct (find_name chain _) as [c|] eqn:Hc; [|done]. destruct (find_name service _) as [s|] eqn:Hs; [|done].
  apply find_name_Some in Hc, Hs. intros Hi. injection Hi as <- Hr. unfold reporter_row, joined in Hr. cbn in Hr. rewrite Hc, Hs in Hr. cbn in Hr.
  injection Hr as <-. cbn [PrivateKey with_key]. split; [done|].
  assert (Hrow : rows (reporters (set_reporters (add (mkReporter a enc o c s) (reporters db)) db)) !! next (reporters db) = Some (mkReporter a enc o c s))
    by (cbn; by rewrite lookup_insert_eq).
  split; [|by eexists]. unfold reporter_getById, select_id. rewrite Hrow. cbn. unfold reporter_row, joined. cbn. rewrite Hc, Hs. cbn.
  cbv beta iota delta [decrypt_row PrivateKey]. by rewrite Hdec.
Qed.

(** A missing reporter makes the handlers panic: the row of zeros has an empty key, which is too short to decrypt. *)
Lemma missing_reporter_panics scrypt_Key keystream password id db :
  rows (reporters db) !! id = None -> reporter_getById (DecryptText scrypt_Key keystream (Ok password)) (Some id) None db = Panic /\
  (reporter_deleteById (DecryptText scrypt_Key keystream (Ok password)) (Some id) None db).2 = Panic.
Proof. intros Hn. unfold reporter_getById, reporter_deleteById, select_id, delete_id. by rewrite Hn. Qed.
(** A search for a chain or a service that does not exist panics. *)
Lemma unknown_name_panics chain service db :
  chain <> ""%string -> find_name chain (chains db) = None -> listener_get (Some (Ok (chain, service))) None db = Panic.
Proof. intros Hne Hf. unfold listener_get, search. rewrite bool_decide_false by done. by rewrite Hf. Qed.

End Handlers.

(** ** The texts of the queries that are built from requests *)
Module Queries.
Local Open Scope string_scope.

(** A double quote. *)
Definition dq : string := String (ascii_of_nat 34) EmptyString.
Definition tab : string := String (ascii_of_nat 9) EmptyString.
Definition nl : string := String (ascii_of_nat 10) EmptyString.
Definition where_ (baseQuery : string) (conditions : list string) : string :=
  match conditions with [] => baseQuery | _ => baseQuery +:+ " WHERE " +:+ Join " AND " conditions end.
Definition condition (column value : string) : list string := if bool_decide (value = "") then [] else [column +:+ value].

Definition lines (l : list string) : string := Join (nl +:+ tab) l.
Definition listener_base : string := lines ["";
  "SELECT listeners.listener_id, listeners.address, listeners.event_name, chains.name AS chain_name, services.name AS service_name";
  "FROM listeners"; "JOIN chains ON listeners.chain_id = chains.chain_id"; "JOIN services ON listeners.service_id = services.service_id"; ""].
Definition GenerateGetListenerQuery (ChainId ServiceId : string) : string :=
  where_ listener_base (condition "listeners.chain_id = " ChainId ++ condition "listeners.service_id = " ServiceId)%list.
Definition reporter_base : string := lines ["";
  "SELECT reporters.reporter_id, reporters.address, " +:+ dq +:+ "reporters" +:+ dq +:+ "." +:+ dq +:+ "privateKey" +:+ dq +:+ ", " +:+
    dq +:+ "reporters" +:+ dq +:+ "." +:+ dq +:+ "oracleAddress" +:+ dq +:+ ", chains.name AS chain_name, services.name AS service_name";
  "FROM reporters"; "JOIN chains ON reporters.chain_id = chains.chain_id"; "JOIN services ON reporters.service_id = services.service_id"; ""].
Definition oracle_condition (OracleAddress : string) : list string :=
  if bool_decide (OracleAddress = "") then []
  else [dq +:+ "reporters" +:+ dq +:+ "." +:+ dq +:+ "oracleAddress" +:+ dq +:+ " = '" +:+ OracleAddress +:+ "'"].
Definition GenerateGetReporterQuery (ChainId ServiceId OracleAddress : string) : string :=
  where_ reporter_base (condition "reporters.chain_id = " ChainId ++ condition "reporters.service_id = " ServiceId ++ oracle_condition OracleAddress)%list.
Definition GenerateInsertBlocksQuery (blocks : list Z) (service : string) : string :=
  (nl +:+ tab +:+ tab +:+ "INSERT INTO unprocessed_blocks (service, block_number)" +:+ nl +:+ tab +:+ tab +:+ "VALUES" +:+ nl +:+ tab) +:+
  Join "," ((fun block => "('" +:+ service +:+ "', " +:+ Itoa block +:+ ")") <$> blocks) +:+
  (nl +:+ tab +:+ tab +:+ "ON CONFLICT (service, block_number) DO NOTHING;" +:+ nl +:+ tab).

(** An address or a service with a quote ends the text it is pasted into and writes on in the statement. *)
Example oracle_injection :
  GenerateGetReporterQuery "" "" "' OR '1' = '1" =
  reporter_base +:+ " WHERE " +:+ dq +:+ "reporters" +:+ dq +:+ "." +:+ dq +:+ "oracleAddress" +:+ dq +:+ " = '' OR '1' = '1'".
Proof. vm_compute. reflexivity. Qed.
Example service_injection :
  GenerateInsertBlocksQuery [7] "a', 1), ('b" =
  (nl +:+ tab +:+ tab +:+ "INSERT INTO unprocessed_blocks (service, block_number)" +:+ nl +:+ tab +:+ tab +:+ "VALUES" +:+ nl +:+ tab) +:+
  "('a', 1), ('b', 7)" +:+ (nl +:+ tab +:+ tab +:+ "ON CONFLICT (service, block_number) DO NOTHING;" +:+ nl +:+ tab).
Proof. vm_compute. reflexivity. Qed.

End Queries.

(** ** Copies *)
(** [delegator/utils/custom_types.go] is a copy of the types above, [api/secrets] one of [node/pkg/secrets]. *)
Module Copies.
Definition delegator_CustomFloat := (CustomTypes.CustomFloat_MarshalJSON, CustomTypes.CustomFloat_UnmarshalJSON).
Definition delegator_CustomBool := (CustomTypes.CustomBool_MarshalJSON, CustomTypes.CustomBool_UnmarshalJSON).
Definition delegator_CustomInt32 := (CustomTypes.CustomInt32_MarshalJSON, CustomTypes.CustomInt32_UnmarshalJSON).
Definition delegator_CustomInt64 := (CustomTypes.CustomInt64_MarshalJSON, CustomTypes.CustomInt64_UnmarshalJSON).
Definition delegator_CustomDateTime := (CustomTypes.CustomDateTime_MarshalJSON, CustomTypes.CustomDateTime_UnmarshalJSON).
Definition delegator_Scan := CustomTypes.CustomDateTime_Scan.
Definition api_init := Secrets.init.
Definition api_GetSecret := Secrets.GetSecret.
End Copies.
