(* ===== verification/EthClient.v ===== *)
(** * The Ethereum client

    [node/pkg/chain/eth_client]: the calls that the chain helper and the chain reader
    make over JSON-RPC, the arguments they send, and the cache of senders of
    transactions.

    The RPC client, [hexutil], RLP and the types of blocks and transactions are
    third-party code: [CallContext] sends a method with its arguments and gives the
    raw result, and the class [Rpc] lists the codecs. *)

From S2P Require Import Prelude Errors Wire Text Float Reducer.
Import Text Float Reducer.

Local Open Scope Z_scope.
Local Open Scope go_scope.

Class Rpc := {
  (** Transactions, receipts and headers. *)
  Tx : Type; Receipt : Type; Header : Type; Log_ : Type; AccessList : Type;
  EncodeBig : Z -> string; EncodeBytes : list Z -> string;
  decode_Big : json -> res Z; decode_Uint64 : json -> res Z; decode_Bytes : json -> res (list Z); decode_bool : json -> res bool;
  decode_string : json -> res string;
  (** What JSON [null] leaves is a nil pointer. *)
  decode_Header : json -> res (option Header); decode_Tx : json -> res Tx; decode_Receipt : json -> res (option Receipt);
  decode_Logs : json -> res (list Log_); decode_AccessList : json -> res (AccessList * Z * string);
  tx_hash : Tx -> string; tx_unsigned : Tx -> bool; rlp_EncodeToBytes : Tx -> res (list Z);
  BytesToHash : list Z -> string; BytesToAddress : list Z -> string;
  SetString10 : string -> option Z
}.

(** [senderFromServer]: a signer that remembers the sender that the server named. *)
Record senderFromServer : Type := mkSender { addr : string; blockhash : string }.
Definition zero_hash : string := "0x0000000000000000000000000000000000000000000000000000000000000000".
Definition errNotCached : error := External "sender not cached".
Definition Equal (s other : senderFromServer) : bool := bool_decide (blockhash other = blockhash s).
Definition Sender (s : senderFromServer) : res string :=
  if bool_decide (blockhash s = zero_hash) then Err errNotCached else Ok (addr s).

Module EthClient.
Section client.
Context `{Rpc} {W : Type}.
(** A request is sent and its result read, in the state of the connection. *)
Variable CallContext : string -> list json -> W -> W * res json.
(** [types.Sender] with a signer of the kind above: it may keep the address in the transaction. *)
Variable types_Sender : senderFromServer -> Tx -> Tx * res string.

Definition NotFound : error := External "not found".
Definition call {A} (decode : json -> res A) (method : string) (args : list json) (w : W) : W * res A :=
  match CallContext method args w with (w, Err err) => (w, Err err) | (w, Ok raw) => (w, decode raw) end.
(** A nil pointer without an error is not found. *)
Definition found {A} (r : W * res (option A)) : W * res A :=
  match r with (w, Ok None) => (w, Err NotFound) | (w, Ok (Some a)) => (w, Ok a) | (w, Err err) => (w, Err err) end.
Definition str (s : string) : json := JStr s.

(** *** Arguments *)
Definition toBlockNumArg (number : option Z) : string := match number with None => "latest"%string | Some n => EncodeBig n end.
Record FilterQuery : Type := mkQuery { FromBlock : option Z; ToBlock : option Z; Addresses : json; Topics : json }.
Definition toFilterArg (q : FilterQuery) : json :=
  JObj [("fromBlock", str (match FromBlock q with None => "0x0" | Some _ => toBlockNumArg (FromBlock q) end));
        ("toBlock", str (toBlockNumArg (ToBlock q))); ("address", Addresses q); ("topics", Topics q)]%string.
Record CallMsg : Type := mkCallMsg { From : string; To : option string; Data : list Z; Value : option Z; Gas : Z; GasPrice : option Z }.
Definition nullable (s : option string) : json := match s with Some s => str s | None => JNull end.
Definition field (key : string) (present : bool) (v : json) : list (string * json) := if present then [(key, v)] else [].
Definition bytes_field (key : string) (d : list Z) : list (string * json) := field key (negb (bool_decide (d = []))) (str (EncodeBytes d)).
Definition big_field (key : string) (n : option Z) : list (string * json) :=
  match n with Some n => [(key, str (EncodeBig n))] | None => [] end.
Definition uint_field (key : string) (n : Z) : list (string * json) := field key (negb (n =? 0)) (str (EncodeBig n)).
Definition toCallArg (msg : CallMsg) : json :=
  JObj ([("from"%string, str (From msg)); ("to"%string, nullable (To msg))] ++ bytes_field "data" (Data msg) ++ big_field "value" (Value msg) ++
        uint_field "gas" (Gas msg) ++ big_field "gasPrice" (GasPrice msg))%list.
Record SendTxArgs : Type := mkSendTx {
  s_From : string; Recipient : option string; GasLimit : Z; Price : option Z; Amount : option Z; s_Data : list Z; Payload : list Z }.
Definition toSendTxArgs (msg : SendTxArgs) : json :=
  JObj ([("from"%string, str (s_From msg)); ("to"%string, nullable (Recipient msg))] ++ uint_field "gas" (GasLimit msg) ++ big_field "gasPrice" (Price msg) ++
        big_field "value" (Amount msg) ++ bytes_field "data" (s_Data msg) ++ bytes_field "input" (Payload msg))%list.

(** *** Blocks and transactions *)
Definition field_of (key : string) (raw : json) : option string :=
  match raw with JObj m => match obj_get m key with JStr s => Some s | _ => None end | _ => None end.
Record rpcTransaction : Type := mkRpcTx { tx : Tx; BlockNumber_ : option string; BlockHash : option string; From_ : option string }.
Definition UnmarshalJSON (msg : json) : res rpcTransaction :=
  let? t := decode_Tx msg in Ok (mkRpcTx t (field_of "blockNumber" msg) (field_of "blockHash" msg) (field_of "from" msg)).
Definition decode_rpcTx (raw : json) : res (option rpcTransaction) :=
  match raw with JNull => Ok None | _ => let? t := UnmarshalJSON raw in Ok (Some t) end.
(** For its side effect on the transaction. *)
Definition setSenderFromServer (t : Tx) (a block : string) : Tx := (types_Sender (mkSender a block) t).1.

Fixpoint transactions (hash : string) (l : list json) : res (list Tx) :=
  match l with
  | [] => Ok []
  | raw :: l =>
      let? t := UnmarshalJSON raw in
      let? l := transactions hash l in
      Ok (match From_ t with Some a => setSenderFromServer (tx t) a hash | None => tx t end :: l)
  end.
(** [None]: the block is made from a nil header, which panics.  A result of no bytes is not found; [null] has four. *)
Definition decode_block (raw : json) : option (res (Header * list Tx)) :=
  match decode_Header raw with
  | Err err => Some (Err err)
  | Ok head =>
      let hash := default zero_hash (field_of "hash" raw) in
      let txs := match raw with JObj m => match obj_get m "transactions" with JArr l => l | _ => [] end | _ => [] end in
      match transactions hash txs, head with
      | Err err, _ => Some (Err err)
      | Ok _, None => None
      | Ok txs, Some head => Some (Ok (head, txs))
      end
  end.
Definition getBlock (method : string) (args : list json) (w : W) : W * option (res (Header * list Tx)) :=
  match CallContext method args w with (w, Err err) => (w, Some (Err err)) | (w, Ok raw) => (w, decode_block raw) end.
Definition BlockByHash (hash : string) := getBlock "eth_getBlockByHash" [str hash; JBool true].
Definition BlockByNumber (number : option Z) := getBlock "eth_getBlockByNumber" [str (toBlockNumArg number); JBool true].
Definition HeaderByHash (hash : string) (w : W) := found (call decode_Header "eth_getBlockByHash" [str hash; JBool false] w).
Definition HeaderByNumber (number : option Z) (w : W) :=
  found (call decode_Header "eth_getBlockByNumber" [str (toBlockNumArg number); JBool false] w).

Definition unsigned : error := External "server returned transaction without signature".
(** A transaction that the server returned: with its signature, and with its sender remembered when the server names one. *)
Definition checked (t : rpcTransaction) : res Tx :=
  if tx_unsigned (tx t) then Err unsigned
  else Ok (match From_ t, BlockHash t with Some a, Some b => setSenderFromServer (tx t) a b | _, _ => tx t end).
Definition TransactionByHash (hash : string) (w : W) : W * res (Tx * bool) :=
  match found (call decode_rpcTx "eth_getTransactionByHash" [str hash] w) with
  | (w, Err err) => (w, Err err)
  | (w, Ok t) => (w, let? t' := checked t in Ok (t', match BlockNumber_ t with None => true | Some _ => false end))
  end.
Definition TransactionInBlock (blockHash : string) (index : Z) (w : W) : W * res Tx :=
  match found (call decode_rpcTx "eth_getTransactionByBlockHashAndIndex" [str blockHash; str (EncodeBig index)] w) with
  | (w, Err err) => (w, Err err)
  | (w, Ok t) => (w, checked t)
  end.
Definition TransactionSender (t : option Tx) (block : string) (index : Z) (w : W) : W * res string :=
  match t with
  | None => (w, Err (External "Transaction must not be nil"))
  | Some t =>
      match (types_Sender (mkSender zero_hash block) t).2 with
      | Ok sender => (w, Ok sender)
      | Err _ =>
          match call (fun raw => Ok (default zero_hash (field_of "hash" raw), default ""%string (field_of "from" raw)))
                  "eth_getTransactionByBlockHashAndIndex" [str block; str (EncodeBig index)] w with
          | (w, Err err) => (w, Err err)
          | (w, Ok (hash, from)) =>
              if bool_decide (hash = zero_hash) || negb (bool_decide (hash = tx_hash t)) then (w, Err (External "wrong inclusion block/index"))
              else (w, Ok from)
          end
      end
  end.
Definition TransactionCount (hash : string) := call decode_Uint64 "eth_getBlockTransactionCountByHash" [str hash].
Definition TransactionReceipt (hash : string) (w : W) := found (call decode_Receipt "eth_getTransactionReceipt" [str hash] w).
Definition TransactionReceiptRpcOutput (hash : string) (w : W) : W * res json :=
  found (call (fun raw => Ok (match raw with JNull => None | r => Some r end)) "eth_getTransactionReceipt" [str hash] w).

(** *** State of the chain *)
(** A boolean, or the five numbers of the progress; [null] is read as a boolean. *)
Definition SyncProgress (decode_progress : json -> res (list Z)) (w : W) : W * res (option (list Z)) :=
  call (fun raw => match raw with JBool _ | JNull => Ok None | _ => let? p := decode_progress raw in Ok (Some p) end) "eth_syncing" [] w.
Definition NetworkID (w : W) : W * res Z :=
  match call decode_string "net_version" [] w with
  | (w, Err err) => (w, Err err)
  | (w, Ok ver) => (w, match SetString10 ver with Some v => Ok v | None => Err (External ("invalid net_version result " +:+ ver)%string) end)
  end.
Definition BalanceAt (account : string) (n : option Z) := call decode_Big "eth_getBalance" [str account; str (toBlockNumArg n)].
Definition StorageAt (account key : string) (n : option Z) := call decode_Bytes "eth_getStorageAt" [str account; str key; str (toBlockNumArg n)].
Definition CodeAt (account : string) (n : option Z) := call decode_Bytes "eth_getCode" [str account; str (toBlockNumArg n)].
Definition NonceAt (account : string) (n : option Z) := call decode_Uint64 "eth_getTransactionCount" [str account; str (toBlockNumArg n)].
Definition FilterLogs (q : FilterQuery) := call decode_Logs "eth_getLogs" [toFilterArg q].
Definition PendingBalanceAt (account : string) := call decode_Big "eth_getBalance" [str account; str "pending"].
Definition PendingStorageAt (account key : string) := call decode_Bytes "eth_getStorageAt" [str account; str key; str "pending"].
Definition PendingCodeAt (account : string) := call decode_Bytes "eth_getCode" [str account; str "pending"].
Definition PendingNonceAt (account : string) := call decode_Uint64 "eth_getTransactionCount" [str account; str "pending"].
Definition PendingTransactionCount := call decode_Uint64 "eth_getBlockTransactionCountByNumber" [str "pending"].
Definition CallContract (msg : CallMsg) (n : option Z) := call decode_Bytes "eth_call" [toCallArg msg; str (toBlockNumArg n)].
Definition PendingCallContract (msg : CallMsg) := call decode_Bytes "eth_call" [toCallArg msg; str "pending"].
Definition SuggestGasPrice := call decode_Big "eth_gasPrice" [].
Definition EstimateGas (msg : CallMsg) := call decode_Uint64 "eth_estimateGas" [toCallArg msg].
Definition BlockNumber := call decode_Big "eth_blockNumber" [].

(** *** Sending *)
Definition SendRawTransaction (t : Tx) (w : W) : W * res string :=
  match rlp_EncodeToBytes t with
  | Err err => (w, Err err)
  | Ok data => call (fun raw => let? b := decode_Bytes raw in Ok (BytesToHash b)) "eth_sendRawTransaction" [str (EncodeBytes data)] w
  end.
Definition SendTransaction (t : Tx) (w : W) : W * option error :=
  match SendRawTransaction t w with (w, Err err) => (w, Some err) | (w, Ok _) => (w, None) end.
Definition SendUnsignedTransaction (from to : string) (gas gasPrice : Z) (value : option Z) (data input : list Z) :=
  call (fun raw => let? b := decode_Bytes raw in Ok (BytesToHash b)) "eth_sendTransaction"
    [toSendTxArgs (mkSendTx from (Some to) gas (Some gasPrice) value data input)].
Definition ImportRawKey (key password : string) :=
  call (fun raw => let? b := decode_Bytes raw in Ok (BytesToAddress b)) "personal_importRawKey" [str key; str password].
Definition UnlockAccount (address password : string) (time : Z) :=
  call decode_bool "personal_unlockAccount" [str address; str password; JNum (of_int time)].
Definition AddPeer (url : string) := call decode_bool "admin_addPeer" [str url].
Definition RemovePeer (url : string) := call decode_bool "admin_removePeer" [str url].
Definition CreateAccessList (msg : CallMsg) := call decode_AccessList "eth_createAccessList" [toCallArg msg].

(** *** The id of the chain *)
(** The client keeps the id: [None] before it is known. *)
Definition ChainID (s : option Z * W) : (option Z * W) * res Z :=
  match s with
  | (Some chainID, w) => ((Some chainID, w), Ok chainID)
  | (None, w) => match call decode_Big "eth_chainId" [] w with
                 | (w, Ok id) => ((Some id, w), Ok id)
                 | (w, Err err) => ((None, w), Err err)
                 end
  end.
Fixpoint asked (k : nat) (s : option Z * W) : (option Z * W) * list (res Z) :=
  match k with
  | O => (s, [])
  | S k => let '(s, r) := ChainID s in let '(s, rs) := asked k s in (s, r :: rs)
  end.

(** *** Theorems *)
(** Once the id is known, it is the same for ever and no more requests are sent for it. *)
Lemma asked_known k id w : asked k (Some id, w) = ((Some id, w), replicate k (Ok id)).
Proof. induction k as [|k IH]; [done|]. cbn. by rewrite IH. Qed.
Theorem chain_id_asked_once k s s' id :
  ChainID s = (s', Ok id) -> asked k s' = (s', replicate k (Ok id)).
Proof.
  unfold ChainID. destruct s as [[c|] w]; [by intros [= <- <-]; apply asked_known|].
  destruct (call decode_Big _ _ w) as [w' [v|e]]; [|done]. intros [= <- <-]. apply asked_known.
Qed.

(** What [types.Sender] promises: it keeps the address of a signer, for signers that are equal to it. *)
Hypothesis sender_kept : forall s s' t a,
  Sender s = Ok a -> (forall s0, Equal s s0 = true -> (types_Sender s0 t).2 = Sender s0) ->
  Equal s s' = true -> (types_Sender s' (types_Sender s t).1).2 = Ok a.

(** The sender of a transaction that came with its block is known without another request. *)
Lemma sender_from_server t a block index w :
  block <> zero_hash -> (forall s0, blockhash s0 = block -> (types_Sender s0 t).2 = Sender s0) ->
  TransactionSender (Some (setSenderFromServer t a block)) block index w = (w, Ok a).
Proof.
  intros Hb Hfresh. unfold TransactionSender, setSenderFromServer.
  rewrite (sender_kept (mkSender a block) (mkSender zero_hash block) t a); [done| | |].
  - unfold Sender. by rewrite bool_decide_false.
  - intros s0 He. apply Hfresh. unfold Equal in He. by apply bool_decide_eq_true in He.
  - unfold Equal. by rewrite bool_decide_true.
Qed.

(** A block that the server does not know is answered with [null], on which the client panics. *)
Lemma unknown_block_panics hash w w' :
  decode_Header JNull = Ok None -> CallContext "eth_getBlockByHash" [str hash; JBool true] w = (w', Ok JNull) -> BlockByHash hash w = (w', None).
Proof. intros Hn Hc. unfold BlockByHash, getBlock. rewrite Hc. unfold decode_block. by rewrite Hn. Qed.

(** A filter without a first block starts with the first one, not with the latest. *)
Lemma filter_from_start q : FromBlock q = None -> field_of "fromBlock" (toFilterArg q) = Some "0x0"%string.
Proof. intros Hq. unfold toFilterArg. by rewrite Hq. Qed.
End client.
End EthClient.
