(* ===== verification/Startup.v ===== *)
(** * How the services are put together

    [node/pkg/reporter/app.go]: the reporters of a reporter service; the rest of
    [dal/collector]: what a collector is made of and how it learns of new oracles;
    [logscribe/app.go] and [logscribe/utils.go]: the start of the log service. *)

From S2P Require Import Prelude Errors Wire Text Strings Float Signing Aggregator Abi Reporter Collector Db Network.
Import Text Strings.

Local Open Scope Z_scope.
Local Open Scope go_scope.

(** ** A contract call that returns a list of addresses *)
(** What the call gives: a slice whose first element is a list of addresses or something else, or no slice. *)
Inductive RawResult (A : Type) : Type := Slice (first : option (option (list A))) | NoSlice.
Arguments Slice {A} _.
Arguments NoSlice {A}.
(** [None]: an empty slice panics. *)
Definition addresses_of {A} (no_slice no_addresses : error) (r : res (RawResult A)) : option (res (list A)) :=
  match r with
  | Err err => Some (Err err)
  | Ok NoSlice => Some (Err no_slice)
  | Ok (Slice None) => None
  | Ok (Slice (Some None)) => Some (Err no_addresses)
  | Ok (Slice (Some (Some l))) => Some (Ok l)
  end.

(** ** [reporter/app.go] *)
Module ReporterApp.
Import Reporter.

Definition ReadOnchainWhitelist (read : res (RawResult string)) : option (res (list string)) :=
  addresses_of (Sentinel ErrReporterResultCastToInterfaceFail) (Sentinel ErrReporterResultCastToAddressFail) read.

Record ReporterConfig : Type := mkReporterConfig {
  Configs : list Config; Interval : Z; ContractAddress : string; CachedWhitelist : list string; JobType_ : JobType }.
Definition config0 : ReporterConfig := mkReporterConfig [] 0 "" [] ReportJob.
Definition WithConfigs (configs : list Config) (c : ReporterConfig) : ReporterConfig :=
  mkReporterConfig configs (Interval c) (ContractAddress c) (CachedWhitelist c) (JobType_ c).
Definition WithInterval (interval : Z) (c : ReporterConfig) : ReporterConfig :=
  mkReporterConfig (Configs c) interval (ContractAddress c) (CachedWhitelist c) (JobType_ c).
Definition WithContractAddress (address : string) (c : ReporterConfig) : ReporterConfig :=
  mkReporterConfig (Configs c) (Interval c) address (CachedWhitelist c) (JobType_ c).
Definition WithCachedWhitelist (whitelist : list string) (c : ReporterConfig) : ReporterConfig :=
  mkReporterConfig (Configs c) (Interval c) (ContractAddress c) whitelist (JobType_ c).
Definition WithJobType (jobType : JobType) (c : ReporterConfig) : ReporterConfig :=
  mkReporterConfig (Configs c) (Interval c) (ContractAddress c) (CachedWhitelist c) jobType.
(** A reporter with its contract and its list of oracles; the maps of data are shared and empty at the start. *)
Record Member : Type := mkMember { reporter : Reporter; contractAddress : string; whitelist : list string }.
Definition make (opts : list (ReporterConfig -> ReporterConfig)) : res Member :=
  let c := foldl (fun c opt => opt c) config0 opts in
  let? r := NewReporter (Configs c) (Interval c) (JobType_ c) ∅ ∅ in
  Ok (mkMember r (ContractAddress c) (CachedWhitelist c)).

(** The message that subscribes to the feeds. *)
Definition subscription (configs : list Config) : list string := (fun c => "submission@" +:+ rc_Name c)%string <$> configs.
Definition fetchConfigs (Getenv : string -> string) (request : string -> res (list Config)) : res (list Config) :=
  let chain := if bool_decide (Getenv "CHAIN" = "")%string then "baobab"%string else Getenv "CHAIN"%string in
  request ("https://config.orakl.network/" +:+ chain +:+ "_configs.json")%string.

Record World : Type := mkWorld {
  GetSecret : string -> string; Getenv : string -> string; NewChainHelper : option error; ReadContract : res (RawResult string);
  fetch : string -> res (list Config);
  (** [wss.NewWebsocketHelper] with the endpoint, the key and the feeds. *)
  NewWebsocketHelper : string -> string -> list string -> option error }.
Record App : Type := mkApp { Reporters : list Member; subscribed : option (string * list string) }.
Definition New : App := mkApp [] None.

Definition group_opts (contract : string) (wl : list string) (g : Z * list Config) : list (ReporterConfig -> ReporterConfig) :=
  [WithConfigs g.2; WithInterval g.1; WithContractAddress contract; WithCachedWhitelist wl].
Definition deviation_opts (contract : string) (wl : list string) (configs : list Config) : list (ReporterConfig -> ReporterConfig) :=
  [WithConfigs configs; WithInterval DEVIATION_INTERVAL; WithContractAddress contract; WithCachedWhitelist wl; WithJobType DeviationJob].
(** The groups in the order of an iteration over the map, up to the first error. *)
Fixpoint add_groups (contract : string) (wl : list string) (groups : list (Z * list Config)) (l : list Member)
    : list Member * option error :=
  match groups with
  | [] => (l, None)
  | g :: groups => match make (group_opts contract wl g) with
                   | Err err => (l, Some err)
                   | Ok r => add_groups contract wl groups (l ++ [r])
                   end
  end.
(** [None]: the reading of the list of oracles panics. *)
Definition setReporters (w : World) (a : App) : option (App * option error) :=
  let dalApiKey := GetSecret w "API_KEY"%string in
  if bool_decide (dalApiKey = "")%string then Some (a, Some (Sentinel ErrReporterDalApiKeyNotFound)) else
  let dalWsEndpoint := if bool_decide (Getenv w "DAL_WS_URL" = "")%string then "ws://orakl-dal.orakl.svc.cluster.local/ws"%string
                       else Getenv w "DAL_WS_URL"%string in
  let contract := Getenv w "SUBMISSION_PROXY_CONTRACT"%string in
  if bool_decide (contract = "")%string then Some (a, Some (Sentinel ErrReporterSubmissionProxyContractNotFound)) else
  match NewChainHelper w with Some err => Some (a, Some err) | None =>
  match ReadOnchainWhitelist (ReadContract w) with None => None | Some read =>
  let wl := match read with Ok l => l | Err _ => [] end in
  match fetchConfigs (Getenv w) (fetch w) with Err err => Some (a, Some err) | Ok configs =>
  match NewWebsocketHelper w dalWsEndpoint dalApiKey (subscription configs) with Some err => Some (a, Some err) | None =>
  let a := mkApp (Reporters a) (Some (dalWsEndpoint, subscription configs)) in
  match add_groups contract wl (map_to_list (groupConfigsBySubmitIntervals configs)) (Reporters a) with
  | (l, Some err) => Some (mkApp l (subscribed a), Some err)
  | (l, None) =>
      match l with
      | [] => Some (mkApp l (subscribed a), Some (Sentinel ErrReporterNotFound))
      | _ =>
          match make (deviation_opts contract wl configs) with
          | Err err => Some (mkApp l (subscribed a), Some err)
          | Ok r => Some (mkApp (l ++ [r]) (subscribed a), None)
          end
      end
  end end end end end.
(** What is started: the helper, if there is one, and every reporter. *)
Definition Run (w : World) (a : App) : option (App * option error * list Member) :=
  match setReporters w a with
  | None => None
  | Some (a, Some err) => Some (a, Some err, [])
  | Some (a, None) => Some (a, None, Reporters a)
  end.

(** *** What a service that starts reports *)
Lemma make_group contract wl i g :
  g <> [] -> make (group_opts contract wl (i, g)) =
    Ok (mkMember (mkReporter (rc_Name <$> g) (wrap64 (i * millisecond)) (GetDeviationThreshold (wrap64 (i * millisecond))) ReportJob ∅ ∅) contract wl).
Proof. intros Hg. unfold make. cbn. destruct g as [|c g]; [done|]. reflexivity. Qed.
Definition group_member (contract : string) (wl : list string) (g : Z * list Config) : Member :=
  mkMember (mkReporter (rc_Name <$> g.2) (wrap64 (g.1 * millisecond)) (GetDeviationThreshold (wrap64 (g.1 * millisecond))) ReportJob ∅ ∅) contract wl.
Lemma add_groups_ok contract wl groups : forall l,
  Forall (fun g => g.2 <> []) groups -> add_groups contract wl groups l = (l ++ (group_member contract wl <$> groups), None).
Proof.
  induction groups as [|[i g] groups IH]; intros l Hg; cbn [add_groups]; [by rewrite app_nil_r|].
  apply Forall_cons in Hg as [H1 Hg]. rewrite make_group by done. rewrite IH by done. by rewrite <- app_assoc.
Qed.

(** A service that starts has one regular reporter per submission interval,
    with exactly the feeds of that interval, a last reporter that watches the
    deviations of all feeds, and a subscription to all feeds; and it fails if there are no feeds. *)
Theorem reporters_exact (w : World) (configs : list Config) (read : res (list string)) :
  GetSecret w "API_KEY"%string <> ""%string -> Getenv w "SUBMISSION_PROXY_CONTRACT"%string <> ""%string ->
  NewChainHelper w = None -> ReadOnchainWhitelist (ReadContract w) = Some read -> fetchConfigs (Getenv w) (fetch w) = Ok configs ->
  (forall e k s, NewWebsocketHelper w e k s = None) ->
  if decide (configs = []) then exists a, setReporters w New = Some (a, Some (Sentinel ErrReporterNotFound)) else
  exists a regular deviation, setReporters w New = Some (a, None) /\ Reporters a = regular ++ [deviation] /\
    (exists endpoint, subscribed a = Some (endpoint, subscription configs)) /\
    Job (reporter deviation) = DeviationJob /\ Pairs (reporter deviation) = rc_Name <$> configs /\
    (forall m, m ∈ regular -> Job (reporter m) = ReportJob) /\
    (forall i, filter (fun sa => interval_of sa = i) configs <> [] ->
       exists m, m ∈ regular /\ SubmissionInterval (reporter m) = wrap64 (i * millisecond) /\
         Pairs (reporter m) = rc_Name <$> filter (fun sa => interval_of sa = i) configs) /\
    (forall m, m ∈ regular -> exists i, SubmissionInterval (reporter m) = wrap64 (i * millisecond) /\
         Pairs (reporter m) = rc_Name <$> filter (fun sa => interval_of sa = i) configs).
Proof.
  intros Hk Hc Hh Hr Hf Hw. unfold setReporters. rewrite bool_decide_false by done. cbv zeta. rewrite bool_decide_false by done.
  rewrite Hh, Hr, Hf, Hw. destruct (groups_partition configs) as [G1 G2]. set (groups := map_to_list _).
  assert (Hne : Forall (fun g => g.2 <> []) groups).
  { apply Forall_forall. intros [i g] Hg%elem_of_map_to_list. by apply (G2 i). }
  rewrite add_groups_ok by done. cbn [Reporters New app]. case_decide as Hempty.
  { subst configs. eexists. reflexivity. }
  assert (Hin : forall i g, (i, g) ∈ groups <-> g <> [] /\ g = filter (fun sa => interval_of sa = i) configs).
  { intros i g. unfold groups. rewrite elem_of_map_to_list, <- (G1 i). destruct (groupConfigsBySubmitIntervals configs !! i) as [g'|] eqn:Hg; cbn.
    - split; [intros [= ->]; split; [by apply (G2 i g Hg)|done]|by intros [_ ->]].
    - split; [done|]. by intros [Hn ->]. }
  destruct configs as [|c configs]; [done|]. set (cs := c :: configs) in *.
  assert (Hc0 : (interval_of c, filter (fun sa => interval_of sa = interval_of c) cs) ∈ groups).
  { apply Hin. split; [|done]. unfold cs. by rewrite filter_cons_True. }
  clearbody groups. destruct groups as [|g0 gs]; [by apply not_elem_of_nil in Hc0|].
  eexists _, (group_member _ _ <$> g0 :: gs), _. split; [reflexivity|]. split_and!; try done; [by eexists| | |].
  - intros m (g & -> & _)%list_elem_of_fmap. done.
  - intros i Hi. exists (group_member (Getenv w "SUBMISSION_PROXY_CONTRACT"%string) (match read with Ok l => l | Err _ => [] end) (i, filter (fun sa => interval_of sa = i) cs)).
    split; [|done]. apply list_elem_of_fmap_2. by apply Hin.
  - intros m ([i g] & -> & Hg)%list_elem_of_fmap. exists i. cbn. apply Hin in Hg as [_ ->]. done.
Qed.

End ReporterApp.

(** ** [dal/collector]: making a collector and following the oracles *)
Module CollectorSetup.
Import Signing Collector Rediscribe.

Section setup.
Context `{Crypto} `{AbiPackage}.

Definition OracleAdded : string := "OracleAdded(address oracle, uint256 expirationTime)".
Definition getAllOracles (read : res (RawResult Z)) : option (res (list Z)) :=
  addresses_of (External "failed to cast result to []interface{} in getAllOracles")
    (External "failed to cast first element to []klaytncommon.Address") read.

(** The router of the collector, by its identity. *)
Definition redisRouter : nat := 0.
Definition rediscribe_opts (host port : string) (redisTopics : list string) : list (RediscribeConfig -> RediscribeConfig) :=
  [WithRedisHost host; WithRedisPort port; WithRedisTopics redisTopics; WithRedisRouter redisRouter].
(** [reader]: the error of the chain reader; [None]: the reading of the oracles panics.  With a collector come its
    subscriptions to one or two Redis servers. *)
Definition NewCollector_env (Getenv : string -> string) (reader : string -> option error) (read : res (RawResult Z)) (symbols : list string)
    : option (res (Collector * Rediscribe * option Rediscribe)) :=
  let unset name := Some (Err (External (name +:+ " is not set")%string)) in
  let is_unset name := bool_decide (Getenv name = ""%string) in
  if is_unset "KAIA_WEBSOCKET_URL"%string then unset "KAIA_WEBSOCKET_URL"%string else
  if is_unset "SUBMISSION_PROXY_CONTRACT"%string then unset "SUBMISSION_PROXY_CONTRACT"%string else
  if is_unset "REDIS_HOST"%string then unset "REDIS_HOST"%string else
  if is_unset "REDIS_PORT"%string then unset "REDIS_PORT"%string else
  match reader (Getenv "KAIA_WEBSOCKET_URL"%string) with Some err => Some (Err err) | None =>
  match getAllOracles read with None => None | Some oracles =>
  let topics := (fun symbol => Aggregator.SubmissionDataStreamKey symbol) <$> symbols in
  Some (let? collector := NewCollector oracles symbols in
        let? base := NewRediscribe (rediscribe_opts (Getenv "REDIS_HOST"%string) (Getenv "REDIS_PORT"%string) topics) in
        if is_unset "SUB_REDIS_HOST"%string || is_unset "SUB_REDIS_PORT"%string then Ok (collector, base, None)
        else let? sub := NewRediscribe (rediscribe_opts (Getenv "SUB_REDIS_HOST"%string) (Getenv "SUB_REDIS_PORT"%string) topics) in
             Ok (collector, base, Some sub))
  end end.

(** [unpacked]: what the event's data unpack to, a list whose first element is an address or not.  A log that cannot be read
    is passed over; [None]: no elements, which panics. *)
Definition added_log (unpacked : res (list bool)) : option bool :=
  match unpacked with
  | Err _ => Some false
  | Ok [] => None
  | Ok (is_address :: _) => Some is_address
  end.
(** The setup of the subscription: the error of the chain reader, or of the ABI of the event. *)
Definition subscribeAddOracleEvent (subscribe : option error) : option error :=
  match subscribe with
  | Some err => Some err
  | None =>
      match Abi.ParseMethodSignature OracleAdded with
      | Err err => Some err
      | Ok (eventName, input, _) => match Abi.GenerateEventABI eventName input with Err err => Some err | Ok _ => None end
      end
  end.
(** The logs, with what [getAllOracles] answers after each. *)
Fixpoint trackOracleAdded (logs : list (res (list bool) * res (list Z))) (c : Collector) : option Collector :=
  match logs with
  | [] => Some c
  | (log, oracles) :: logs =>
      triggered ← added_log log;
      trackOracleAdded logs (if (triggered : bool) then oracleAddedEvent oracles c else c)
  end.

(** A collector listens to the stream of every symbol, has a channel and a hash for each, and the oracles of the contract. *)
Lemma NewCollector_complete Getenv reader read symbols c base sub :
  NewCollector_env Getenv reader read symbols = Some (Ok (c, base, sub)) ->
  topics base = Aggregator.SubmissionDataStreamKey <$> symbols /\
  (forall r, sub = Some r -> topics r = topics base) /\
  (forall s, s ∈ symbols -> is_Some (OutgoingStream c !! s) /\ FeedHashes c !! s = Some (Keccak256 (string_bytes s))) /\
  getAllOracles read = Some (Ok (CachedWhitelist c)).
Proof.
  unfold NewCollector_env. cbv zeta. do 4 (case_bool_decide; [done|]). destruct (reader _); [done|].
  destruct (getAllOracles read) as [[wl|]|] eqn:Ho; [|done|done].
  assert (Hs : forall s, s ∈ symbols -> is_Some (OutgoingStream (mkCollector (list_to_map ((fun s => (s, [])) <$> symbols))
    (list_to_map ((fun s => (s, Keccak256 (string_bytes s))) <$> symbols)) ∅ ∅ wl false false) !! s) /\
    FeedHashes (mkCollector (list_to_map ((fun s => (s, [])) <$> symbols)) (list_to_map ((fun s => (s, Keccak256 (string_bytes s))) <$> symbols)) ∅ ∅ wl false false) !! s
      = Some (Keccak256 (string_bytes s))).
  { intros s Hin. cbn. induction symbols as [|x l IH]; [by apply not_elem_of_nil in Hin|]. cbn. destruct (decide (x = s)) as [->|Hne].
    - rewrite !lookup_insert_eq. by split; [eexists|].
    - rewrite !lookup_insert_ne by done. apply IH. apply elem_of_cons in Hin as [->|]; done. }
  destruct (_ || _); cbn; intros Hr; injection Hr as <- <- <-; split_and!; try done. by intros r [= <-].
Qed.
(** A failed reading of the oracles after an event leaves the collector without oracles: from then on every proof is refused,
    until the next event or a refresh. *)
Lemma failed_read_empties log err c : added_log log = Some true ->
  trackOracleAdded [(log, Err err)] c = Some (set_CachedWhitelist [] c).
Proof. intros Hl. cbn. by rewrite Hl. Qed.
End setup.
End CollectorSetup.

(** ** [logscribe/app.go], [logscribe/utils.go] *)
Module LogscribeServer.

Definition logsChannelSize : Z := 10000.
Definition Setup (appVersion : string) (pool : option error) : res string :=
  match pool with Some _ => Err ErrLogscribeDbPoolNotFound | None => Ok ("Logscribe " +:+ appVersion)%string end.
Definition CustomErrorHandler := Fiber.CustomErrorHandler.
Definition CustomStackTraceHandler := Fiber.CustomStackTraceHandler.
(** What [Run] starts before it serves: the copying of logs, the cron job, and the server at its port. *)
Inductive Started : Type := CopyLogs | CronJob | Serve (name port : string).
(** [processor]: the error of [logprocessor.New], when none is given; [cron]: that of the cron job. *)
Definition Run (given : bool) (processor cron pool : option error) (Getenv : string -> string) : list Started * option error :=
  match (if given then None else processor) with Some err => ([], Some err) | None =>
  match cron with Some err => ([CopyLogs], Some err) | None =>
  match Setup "0.1.0" pool with
  | Err err => ([CopyLogs; CronJob], Some err)
  | Ok name =>
      let port := if bool_decide (Getenv "LOGSCRIBE_PORT" = "")%string then "3000"%string else Getenv "LOGSCRIBE_PORT"%string in
      ([CopyLogs; CronJob; Serve name port], None)
  end end end.

End LogscribeServer.
