(* ===== verification/Mains.v ===== *)
(** * The commands

    The mains of [node/cmd] as processes: what each starts, in which order, what
    an error does, and how the process ends.  Module [Process] has the programs
    (calls with what follows an error, deferred functions, goroutines, a wait
    group, [os.Exit]) and their interleaved runs; [Runs] what holds in all runs of
    any program; [Commands] the programs of the commands. *)

From S2P Require Import Prelude Errors Text Util Strings.

Local Open Scope Z_scope.

Module Process.

(** How a call ends.  A call that never returns takes no step. *)
Inductive outcome : Type :=
| Returned (err : option error)
| Panicked
| Exits (code : Z).

Inductive deferred : Type :=
| DDone              (** [wg.Done()] *)
| DRecover           (** a function that calls [recover()] *)
| DCall (c : string).

(** A goroutine's program, with what is left to do after each statement. *)
Inductive prog : Type :=
| End
| Panic
| OsExit (code : Z)
| Call (c : string) (onerr onok : prog)  (** [err := c(); if err != nil { onerr }; onok] *)
| Do (c : string) (k : prog)             (** a call that returns no error *)
| Defer (d : deferred) (k : prog)
| WgAdd (k : prog)
| WgWait (k : prog)
| Go (body k : prog)
| Receive (c : option string) (k : prog)  (** [None]: a channel on which nothing comes *)
| Ticker (jobs : list string) (stop : option string) (k : prog)
    (** a loop over the ticks of some tickers, errors being logged, until [stop] *)
| TickerErr (job : string) (onerr : prog). (** [for range ticker.C], which an error of the job leaves *)

(** A call whose error is logged and nothing else. *)
Definition Logged (c : string) (k : prog) : prog := Call c k k.
(** [log.Fatal()] ends with [os.Exit(1)]. *)
Definition Fatal : prog := OsExit 1.
(** [wg.Add(1); go func() { defer wg.Done(); body }()] *)
Definition GoWg (body k : prog) : prog := WgAdd (Go (Defer DDone body) k).

#[export] Instance deferred_eq_dec : EqDecision deferred.
Proof. solve_decision. Defined.
#[export] Instance prog_eq_dec : EqDecision prog.
Proof. solve_decision. Defined.
#[export] Instance outcome_eq_dec : EqDecision outcome.
Proof. solve_decision. Defined.

Inductive event : Type :=
| ECall (c : string) (o : outcome)
| EDefer (c : string)
| EReceived (c : string)
| EWaited.

Record goroutine : Type := mkG { code : prog; defers : list deferred; is_main : bool }.

#[export] Instance goroutine_eq_dec : EqDecision goroutine.
Proof. solve_decision. Defined.

(** [status]: the exit code, once there is one. *)
Record process : Type := mkP {
  routines : list goroutine; wg : Z; trace : list event; status : option Z
}.

Definition start (p : prog) : process := mkP [mkG p [] true] 0 [] None.

(** What the scheduler and the called functions choose. *)
Inductive choice : Type := Answer (o : outcome) | Tick (i : nat) (o : outcome) | Stopped.

Inductive next : Type :=
| Runs (g : goroutine) (spawned : list goroutine) (wg : Z)
| Finish (panicking : bool)
| Stop (code : Z).

Definition goto (g : goroutine) (k : prog) : goroutine := mkG k (defers g) (is_main g).

(** One statement; [None]: the goroutine is blocked, or the choice is not one
    of its own. *)
Definition exec (ch : choice) (w : Z) (g : goroutine) : option (list event * next) :=
  match code g with
  | End => Some ([], Finish false)
  | Panic => Some ([], Finish true)
  | OsExit n => Some ([], Stop n)
  | Call c onerr onok =>
      match ch with
      | Stopped | Tick _ _ => None
      | Answer o => Some ([ECall c o],
          match o with
          | Returned None => Runs (goto g onok) [] w
          | Returned (Some _) => Runs (goto g onerr) [] w
          | Panicked => Finish true
          | Exits n => Stop n
          end)
      end
  | Do c k =>
      match ch with
      | Stopped | Tick _ _ | Answer (Returned (Some _)) => None
      | Answer (Returned None) => Some ([ECall c (Returned None)], Runs (goto g k) [] w)
      | Answer Panicked => Some ([ECall c Panicked], Finish true)
      | Answer (Exits n) => Some ([ECall c (Exits n)], Stop n)
      end
  | Defer d k => Some ([], Runs (mkG k (d :: defers g) (is_main g)) [] w)
  | WgAdd k => Some ([], Runs (goto g k) [] (w + 1))
  | WgWait k => if w =? 0 then Some ([EWaited], Runs (goto g k) [] w) else None
  | Go body k => Some ([], Runs (goto g k) [mkG body [] false] w)
  | Receive c k => match c with Some c => Some ([EReceived c], Runs (goto g k) [] w) | None => None end
  | Ticker jobs stop k =>
      match ch with
      | Stopped => match stop with Some stop => Some ([EReceived stop], Runs (goto g k) [] w) | None => None end
      | Answer _ => None
      | Tick i o =>
          match jobs !! i with
          | None => None
          | Some job => Some ([ECall job o],
              match o with
              | Returned _ => Runs g [] w
              | Panicked => Finish true
              | Exits n => Stop n
              end)
          end
      end
  | TickerErr job onerr =>
      match ch with
      | Stopped | Tick _ _ => None
      | Answer o => Some ([ECall job o],
          match o with
          | Returned None => Runs g [] w
          | Returned (Some _) => Runs (goto g onerr) [] w
          | Panicked => Finish true
          | Exits n => Stop n
          end)
      end
  end.

(** Deferred functions run last in, first out; [wg.Done()] panics when the
    counter gets negative. *)
Fixpoint run_defers (panicking : bool) (ds : list deferred) (w : Z) : list event * bool * Z :=
  match ds with
  | [] => ([], panicking, w)
  | DDone :: ds => if w <=? 0 then run_defers true ds w else run_defers panicking ds (w - 1)
  | DRecover :: ds => run_defers false ds w
  | DCall c :: ds => let '(t, b, w) := run_defers panicking ds w in (EDefer c :: t, b, w)
  end.

(** The process ends with the main goroutine, on [os.Exit], and with code 2 when
    a panic is not recovered. *)
Definition run_step (i : nat) (ch : choice) (p : process) : option process :=
  match status p, routines p !! i with
  | None, Some g =>
      '(t, nx) ← exec ch (wg p) g;
      Some match nx with
      | Runs g' new w => mkP (<[i := g']> (routines p) ++ new) w (trace p ++ t) None
      | Stop n => mkP (routines p) (wg p) (trace p ++ t) (Some n)
      | Finish panicking =>
          let '(t', panicking, w) := run_defers panicking (defers g) (wg p) in
          if panicking then mkP (routines p) w (trace p ++ t ++ t') (Some 2)
          else if is_main g then mkP (routines p) w (trace p ++ t ++ t') (Some 0)
          else mkP (take i (routines p) ++ drop (S i) (routines p)) w (trace p ++ t ++ t') None
      end
  | _, _ => None
  end.

Fixpoint run_steps (l : list (nat * choice)) (p : process) : option process :=
  match l with [] => Some p | (i, ch) :: l => run_step i ch p ≫= run_steps l end.

(** The runs of a program. *)
Definition steps_to (p q : process) : Prop := exists i ch, run_step i ch p = Some q.
Definition reachable (p : prog) (s : process) : Prop := rtc steps_to (start p) s.

Lemma run_steps_reachable p l s : run_steps l (start p) = Some s -> reachable p s.
Proof.
  unfold reachable. generalize (start p). induction l as [|[i ch] l IH]; simpl; intros q Hq.
  - simplify_eq. apply rtc_refl.
  - apply bind_Some in Hq as (q' & H1 & H2). eapply rtc_l; [by exists i, ch|]. by apply IH.
Qed.
End Process.

(** ** What holds in all runs *)
Module Runs.
Import Process.

(** What is known at a point of a program: calls that succeeded or failed before
    it, and goroutines that were waited for. *)
Inductive fact : Type := Succeeded (c : string) | Failed (c : string) | Joined (body : prog).

#[export] Instance fact_eq_dec : EqDecision fact.
Proof. solve_decision. Defined.

(** The body of a goroutine that is counted in the wait group. *)
Definition joins (b : prog) : list prog := match b with Defer DDone b => [b] | _ => [] end.

(** What is known whenever the program returns; [js]: the goroutines that a wait
    would wait for. *)
Fixpoint ends (fs : list fact) (js : list prog) (p : prog) : list (list fact) :=
  match p with
  | End => [fs]
  | Panic | OsExit _ => []
  | Call c e k => ends (fs ++ [Failed c]) js e ++ ends (fs ++ [Succeeded c]) js k
  | Do c k => ends (fs ++ [Succeeded c]) js k
  | Defer _ k | WgAdd k | Receive (Some _) k | Ticker _ (Some _) k => ends fs js k
  | Receive None _ | Ticker _ None _ => []
  | TickerErr c e => ends (fs ++ [Failed c]) js e
  | WgWait k => ends (fs ++ (Joined <$> js)) [] k
  | Go b k => ends fs (js ++ joins b) k
  end.

(** What is known at every call. *)
Fixpoint calls (fs : list fact) (js : list prog) (p : prog) : list (string * list fact) :=
  match p with
  | End | Panic | OsExit _ => []
  | Call c e k => (c, fs) :: calls (fs ++ [Failed c]) js e ++ calls (fs ++ [Succeeded c]) js k
  | Do c k => (c, fs) :: calls (fs ++ [Succeeded c]) js k
  | Defer _ k | WgAdd k | Receive _ k => calls fs js k
  | Ticker jobs _ k => ((fun job => (job, fs)) <$> jobs) ++ calls fs js k
  | TickerErr c e => (c, fs) :: calls (fs ++ [Failed c]) js e
  | WgWait k => calls (fs ++ (Joined <$> js)) [] k
  | Go b k => calls fs [] b ++ calls fs (js ++ joins b) k
  end.

(** The use of goroutines and the wait group that the commands keep to. *)
Fixpoint leaf (dfr : bool) (p : prog) : bool :=
  match p with
  | End | Panic => true
  | OsExit n => negb (n =? 0)
  | Call _ e k => leaf dfr e && leaf dfr k
  | Do _ k => leaf dfr k
  | Defer d k => dfr && negb (bool_decide (d = DDone)) && leaf dfr k
  | Receive _ k | Ticker _ _ k | TickerErr _ k => leaf dfr k
  | Go b k => leaf true b && leaf dfr k
  | WgAdd _ | WgWait _ => false
  end.
Fixpoint disciplined (p : prog) : bool :=
  match p with
  | End | Panic => true
  | OsExit n => negb (n =? 0)
  | Call _ e k => disciplined e && disciplined k
  | Do _ k => disciplined k
  | Defer (DCall _) k => disciplined k
  | Defer _ _ => false
  | Receive _ k | Ticker _ _ k | TickerErr _ k | WgWait k => disciplined k
  | WgAdd k => match k with Go (Defer DDone b) k => leaf false b && disciplined k | _ => false end
  | Go b k => leaf true b && disciplined k
  end.

(** What a trace shows. *)
Definition seen (t : list event) (f : fact) : Prop :=
  match f with
  | Succeeded c => ECall c (Returned None) ∈ t
  | Failed c => exists e, ECall c (Returned (Some e)) ∈ t
  | Joined _ => False
  end.
Definition happened (t : list event) (f : fact) : Prop :=
  match f with
  | Joined b => exists path, path ∈ ends [] [] b /\ Forall (seen t) path
  | _ => seen t f
  end.

Lemma seen_app t t' f : seen t f -> seen (t ++ t') f.
Proof.
  destruct f; simpl; [| |done].
  - intros H. by apply elem_of_app; left.
  - intros [e H]. exists e. by apply elem_of_app; left.
Qed.
Lemma seen_all_app t t' fs : Forall (seen t) fs -> Forall (seen (t ++ t')) fs.
Proof. intros H. eapply Forall_impl; [exact H|]. intros. by apply seen_app. Qed.
Lemma happened_app t t' f : happened t f -> happened (t ++ t') f.
Proof.
  destruct f; [apply (seen_app t t' (Succeeded c))|apply (seen_app t t' (Failed c))|].
  intros (path & Hp & Hs). exists path. split; [done|]. by apply seen_all_app.
Qed.
Lemma happened_all_app t t' fs : Forall (happened t) fs -> Forall (happened (t ++ t')) fs.
Proof. intros H. eapply Forall_impl; [exact H|]. intros. by apply happened_app. Qed.

Lemma seen_happened t fs : Forall (seen t) fs -> Forall (happened t) fs.
Proof. intros H. eapply Forall_impl; [exact H|]. by intros []. Qed.
Lemma seen_app_r t t' fs : Forall (seen t') fs -> Forall (seen (t ++ t')) fs.
Proof.
  intros H. eapply Forall_impl; [exact H|]. intros [c|c|b]; simpl; [| |done].
  - intros ?. apply elem_of_app. by right.
  - intros [e ?]. exists e. apply elem_of_app. by right.
Qed.

#[local] Hint Resolve seen_all_app happened_all_app : core.

Lemma forallb_elem {A} (f : A -> bool) l x : forallb f l = true -> x ∈ l -> f x = true.
Proof. rewrite forallb_forall. intros Hf Hx. by apply Hf, list_elem_of_In. Qed.


(** *** Calls that are made once

    The sites of a call that a program can still come to; a call in a ticker
    counts as two, since it is made again and again. *)
Fixpoint sites (c : string) (q : prog) : nat :=
  match q with
  | End | Panic | OsExit _ => 0
  | Call d a b => (if bool_decide (d = c) then 1 else 0) + Nat.max (sites c a) (sites c b)
  | Do d k => (if bool_decide (d = c) then 1 else 0) + sites c k
  | Defer _ k | WgAdd k | WgWait k | Receive _ k => sites c k
  | Go b k => sites c b + sites c k
  | Ticker jobs _ k => (if bool_decide (c ∈ jobs) then 2 else 0) + sites c k
  | TickerErr job k => (if bool_decide (job = c) then 2 else 0) + sites c k
  end.
Definition is_call (c : string) (e : event) : bool := match e with ECall d _ => bool_decide (d = c) | _ => false end.
Definition made (c : string) (t : list event) : nat := length (filter (fun e => is_call c e = true) t).
Definition to_come (c : string) (gs : list goroutine) : nat := sum_list_with (fun g => sites c (code g)) gs.

Lemma made_app c t t' : made c (t ++ t') = (made c t + made c t')%nat.
Proof. unfold made. by rewrite filter_app, length_app. Qed.
Lemma made_one c d o : made c [ECall d o] = if bool_decide (d = c) then 1%nat else 0%nat.
Proof. unfold made. rewrite filter_cons, filter_nil. simpl. by destruct (bool_decide (d = c)). Qed.
Lemma made_defers c b ds w : made c (run_defers b ds w).1.1 = 0%nat.
Proof.
  revert b w. induction ds as [|d ds IH]; intros b w; simpl; [done|]. destruct d; [by destruct (w <=? 0)|done|].
  specialize (IH b w). by destruct (run_defers b ds w) as [[? ?] ?].
Qed.

Lemma exec_sites c ch w g t nx : exec ch w g = Some (t, nx) -> (sites c (code g) <= 1)%nat ->
  match nx with
  | Runs g' new _ => (made c t + sites c (code g') + to_come c new <= sites c (code g))%nat
  | _ => (made c t <= sites c (code g))%nat
  end.
Proof.
  unfold exec, to_come. destruct (code g) as [|?|d ? ?|d ?| | | |? ?|? ?|jobs ? ?|job ?| ] eqn:Hc; intros He Hle; simpl in *;
    repeat case_match; simplify_eq; simpl; rewrite ?Hc; simpl;
    rewrite ?made_one; repeat case_bool_decide; simplify_eq; unfold made; simpl; try lia.
  all: try (exfalso; match goal with H : ?j ∉ ?l, H' : ?l !! _ = Some ?j |- _ => by apply H, (list_elem_of_lookup_2 _ _ _ H') end).
Qed.

Lemma to_come_insert c gs i g g' : gs !! i = Some g ->
  (to_come c (<[i := g']> gs) + sites c (code g) = to_come c gs + sites c (code g'))%nat.
Proof.
  unfold to_come. revert i. induction gs as [|h gs IH]; intros [|i] Hi; simplify_eq/=; [lia|]. specialize (IH _ Hi). lia.
Qed.
Lemma to_come_remove c gs i g : gs !! i = Some g ->
  (to_come c (take i gs ++ drop (S i) gs) + sites c (code g) = to_come c gs)%nat.
Proof.
  intros Hi. unfold to_come. rewrite <- (take_drop_middle _ _ _ Hi) at 3. rewrite !sum_list_with_app. simpl. lia.
Qed.
Lemma to_come_app c gs gs' : to_come c (gs ++ gs') = (to_come c gs + to_come c gs')%nat.
Proof. apply sum_list_with_app. Qed.
Lemma to_come_elem c gs i g : gs !! i = Some g -> (sites c (code g) <= to_come c gs)%nat.
Proof. intros H. pose proof (to_come_remove c _ _ _ H). lia. Qed.

Lemma made_once p c s : (sites c p <= 1)%nat -> reachable p s -> (made c (trace s) <= 1)%nat.
Proof.
  intros Hp Hs. enough ((made c (trace s) <= 1)%nat /\ (status s = None -> made c (trace s) + to_come c (routines s) <= 1)%nat) by tauto.
  revert Hs. unfold reachable. pattern s. revert s. refine (rtc_ind_r _ _ _ _).
  - unfold start, to_come, made. simpl. lia.
  - intros s s' _ (i & ch & Hr) [IH1 IH2]. unfold run_step in Hr. destruct (status s) eqn:Hs0; [done|]. specialize (IH2 eq_refl).
    destruct (routines s !! i) as [g|] eqn:Hg; [|done]. apply bind_Some in Hr as ([t nx] & He & Hr).
    pose proof (to_come_elem c _ _ _ Hg) as Hin. pose proof (exec_sites c _ _ _ _ _ He ltac:(lia)) as Hx.
    destruct nx as [g' new w'|b|m].
    + injection Hr as <-. simpl. rewrite made_app, to_come_app. pose proof (to_come_insert c _ _ g g' Hg). lia.
    + pose proof (made_defers c b (defers g) (wg s)) as Hd. destruct (run_defers b (defers g) (wg s)) as [[t' b'] w'].
      injection Hr as <-. simpl in Hd. pose proof (to_come_remove c _ _ _ Hg).
      destruct b'; [|destruct (is_main g)]; simpl; rewrite !made_app, Hd; split; try done; try lia.
    + injection Hr as <-. simpl. rewrite made_app. split; [lia|done].
Qed.

(** A call that is made once has one outcome. *)
Lemma one_outcome p c s o o' : (sites c p <= 1)%nat -> reachable p s ->
  ECall c o ∈ trace s -> ECall c o' ∈ trace s -> o = o'.
Proof.
  intros Hp Hs H1 H2. pose proof (made_once p c s Hp Hs) as Hm. apply list_elem_of_split in H1 as (l1 & l2 & Ht).
  rewrite Ht in Hm, H2. change (ECall c o :: l2) with ([ECall c o] ++ l2) in Hm, H2.
  rewrite !made_app, made_one, bool_decide_true in Hm by done.
  assert (forall l, made c l = 0%nat -> ECall c o' ∉ l) as Hz.
  { intros l Hl Hin. unfold made in Hl. apply length_zero_iff_nil in Hl.
    assert (ECall c o' ∈ filter (fun e => is_call c e = true) l) as Hf.
    { apply list_elem_of_filter. split; [|done]. simpl. by rewrite bool_decide_true. }
    rewrite Hl in Hf. by apply not_elem_of_nil in Hf. }
  rewrite !elem_of_app, elem_of_cons in H2. destruct H2 as [H2|[[H2|H2]|H2]].
  - destruct (Hz l1); [lia|done].
  - by injection H2 as ->.
  - by apply not_elem_of_nil in H2.
  - destruct (Hz l2); [lia|done].
Qed.

Section program.
Context (p : prog).
Hypothesis Hp : disciplined p = true.

(** Every call of the trace is one of the program, and what the program knows
    there had happened. *)
Definition traced (t : list event) : Prop :=
  forall t1 c o t2, t = t1 ++ ECall c o :: t2 -> exists fs, (c, fs) ∈ calls [] [] p /\ Forall (happened t1) fs.

Lemma app_cons_split {A} (t t1 t2 : list A) (x e : A) :
  t ++ [x] = t1 ++ e :: t2 -> (t1 = t /\ e = x /\ t2 = []) \/ exists t3, t2 = t3 ++ [x] /\ t = t1 ++ e :: t3.
Proof.
  destruct t2 as [|y t2 _] using rev_ind; intros H.
  - apply app_inj_tail in H as [-> ->]. by left.
  - right. exists t2. rewrite app_comm_cons, app_assoc in H. apply app_inj_tail in H as [-> ->]. done.
Qed.

Lemma traced_other t e : (forall c o, e <> ECall c o) -> traced t -> traced (t ++ [e]).
Proof.
  intros He Ht t1 c o t2 H. apply app_cons_split in H as [(_ & H & _)|(t3 & _ & H)]; [by destruct (He c o)|by eapply Ht].
Qed.
Lemma traced_call t c o fs :
  (c, fs) ∈ calls [] [] p -> Forall (happened t) fs -> traced t -> traced (t ++ [ECall c o]).
Proof.
  intros Hc Hf Ht t1 c' o' t2 H. apply app_cons_split in H as [(-> & H & _)|(t3 & _ & H)]; [|by eapply Ht].
  injection H as -> ->. by exists fs.
Qed.
Lemma traced_defers t ds b w : traced t -> traced (t ++ (run_defers b ds w).1.1).
Proof.
  revert t b w. induction ds as [|[| |c] ds IH]; intros t b w Ht; simpl; [by rewrite app_nil_r|..].
  - destruct (w <=? 0); by apply IH.
  - by apply IH.
  - specialize (IH (t ++ [EDefer c]) b w). destruct (run_defers b ds w) as [[t' b'] w']. simpl in *.
    rewrite cons_middle, app_assoc. by apply IH, traced_other.
Qed.
(** Inclusion in a list that is made of parts. *)
Ltac sub := let x := fresh in intros x ?; rewrite ?elem_of_cons, ?elem_of_app; tauto.

(** *** One statement *)
Lemma exec_event ch w g t nx : exec ch w g = Some (t, nx) ->
  t = [] \/ (exists e, t = [e] /\ forall c o, e <> ECall c o) \/
  (exists c o, t = [ECall c o] /\ forall fs js, (c, fs) ∈ calls fs js (code g)).
Proof.
  unfold exec. destruct (code g) as [| |n|c e k|c k|d k|k|k|b k|c k|jobs stop k|c e]; intros H; simplify_eq/=; go_cases; auto.
  all: repeat case_match; simplify_eq/=; auto.
  all: try (right; left; eexists; split; [reflexivity|done]).
  all: right; right; eexists _, _; split; [reflexivity|]; intros; simpl; try apply list_elem_of_here.
  all: apply elem_of_app; left; apply list_elem_of_fmap; eexists; split; [reflexivity|by eapply list_elem_of_lookup_2].
Qed.

Lemma traced_exec ch w g t t' nx fs js :
  exec ch w g = Some (t', nx) -> Forall (happened t) fs -> calls fs js (code g) ⊆ calls [] [] p ->
  traced t -> traced (t ++ t').
Proof.
  intros [->|[(e & -> & He)|(c & o & -> & Hc)]]%exec_event Hf Hin Ht; [by rewrite app_nil_r|by apply traced_other|].
  apply (traced_call t c o fs); [by apply Hin, Hc|done|done].
Qed.

(** What is known goes on being known. *)
Lemma exec_known ch w g t g' new w' js :
  exec ch w g = Some (t, Runs g' new w') ->
  exists extra js', (forall fs, ends (fs ++ extra) js' (code g') ⊆ ends fs js (code g) /\
                           calls (fs ++ extra) js' (code g') ⊆ calls fs js (code g)) /\
    ((w = 0 /\ (exists k, code g = WgWait k) /\ extra = Joined <$> js /\ js' = []) \/
     (Forall (seen t) extra /\ js' = js ++ match code g with Go b _ => joins b | _ => [] end)).
Proof.
  unfold exec. destruct (code g) as [| |n|c e k|c k|d k|k|k|b k|c k|jobs stop k|c e] eqn:Hc; intros H; try done.
  - destruct ch as [[[err|]| |n]| |]; simplify_eq/=.
    + exists [Failed c], js. split; [|right; split; [|by rewrite app_nil_r]]; [intros fs; split; sub|].
      apply Forall_singleton. exists err. apply list_elem_of_here.
    + exists [Succeeded c], js. split; [|right; split; [|by rewrite app_nil_r]]; [intros fs; split; sub|].
      apply Forall_singleton. apply list_elem_of_here.
  - destruct ch as [[[err|]| |n]| |]; simplify_eq/=.
    exists [Succeeded c], js. split; [|right; split; [|by rewrite app_nil_r]]; [intros fs; split; [done|sub]|].
    apply Forall_singleton. apply list_elem_of_here.
  - simplify_eq/=. exists [], js. split; [intros fs; by rewrite app_nil_r|right; by rewrite app_nil_r].
  - simplify_eq/=. exists [], js. split; [intros fs; by rewrite app_nil_r|right; by rewrite app_nil_r].
  - destruct (w =? 0) eqn:Hw; simplify_eq/=. exists (Joined <$> js), []. split; [done|left]. breflect. eauto.
  - simplify_eq/=. exists [], (js ++ joins b). split; [|by right]. intros fs. rewrite app_nil_r. split; [done|sub].
  - destruct c; simplify_eq/=. exists [], js. split; [intros fs; by rewrite app_nil_r|right; by rewrite app_nil_r].
  - destruct ch as [o|i o|]; [done| |destruct stop; [|done]; simplify_eq/=].
    + destruct (jobs !! i); [|done]. destruct o; simplify_eq/=. exists [], js. rewrite Hc.
      split; [intros fs; by rewrite app_nil_r|right; by rewrite app_nil_r].
    + exists [], js. split; [intros fs; rewrite app_nil_r; split; [done|sub]|right; by rewrite app_nil_r].
  - destruct ch as [[[err|]| |n]| |]; simplify_eq/=.
    + exists [Failed c], js. split; [|right; split; [|by rewrite app_nil_r]]; [intros fs; split; [done|sub]|].
      apply Forall_singleton. exists err. apply list_elem_of_here.
    + exists [], js. rewrite Hc. split; [intros fs; by rewrite app_nil_r|right; by rewrite app_nil_r].
Qed.

Lemma exec_finish ch w g t b : exec ch w g = Some (t, Finish b) -> (b = false /\ code g = End /\ t = []) \/ b = true.
Proof. unfold exec. intros H. repeat case_match; simplify_eq/=; auto. Qed.

Lemma exec_stop ch w g t n : exec ch w g = Some (t, Stop n) ->
  code g = OsExit n \/ exists c, t = [ECall c (Exits n)].
Proof. unfold exec. intros H. repeat case_match; simplify_eq/=; eauto. Qed.

(** *** The invariant *)
Inductive worker : goroutine -> Prop :=
| worker_fresh b : leaf false b = true -> worker (mkG (Defer DDone b) [] false)
| worker_counted k : leaf false k = true -> worker (mkG k [DDone] false)
| worker_free k ds : leaf true k = true -> DDone ∉ ds -> worker (mkG k ds false).

(** Whether the goroutine has yet to call [wg.Done()]. *)
Definition counted (g : goroutine) : bool := bool_decide (DDone ∈ defers g) || bool_decide (joins (code g) <> []).
Definition owed (ws : list goroutine) : Z := Z.of_nat (length (filter (fun g => counted g = true) ws)).
(** Whether the main goroutine is between [wg.Add(1)] and [go]. *)
Definition pending (m : prog) : Z := match m with Go b _ => Z.of_nat (length (joins b)) | _ => 0 end.

Definition knows (t : list event) (g : goroutine) : Prop :=
  exists fs, Forall (happened t) fs /\ calls fs [] (code g) ⊆ calls [] [] p.
(** Body [b] was started: it has returned, or it runs and is counted. *)
Definition awaits (t : list event) (ws : list goroutine) (b : prog) : Prop :=
  happened t (Joined b) \/
  exists g fs, g ∈ ws /\ counted g = true /\ Forall (seen t) fs /\ ends fs [] (code g) ⊆ ends [] [] b.

Record inv (t : list event) (w : Z) (m : goroutine) (ws : list goroutine) : Prop := {
  inv_main : is_main m = true;
  inv_defers : Forall (fun d => exists c, d = DCall c) (defers m);
  inv_shape : disciplined (code m) = true \/
    exists b k, code m = Go (Defer DDone b) k /\ leaf false b = true /\ disciplined k = true;
  inv_known : exists fs js, Forall (happened t) fs /\ Forall (awaits t ws) js /\
    ends fs js (code m) ⊆ ends [] [] p /\ calls fs js (code m) ⊆ calls [] [] p;
  inv_workers : Forall worker ws;
  inv_knows : Forall (knows t) ws;
  inv_wg : w = pending (code m) + owed ws
}.

Definition good (s : process) : Prop :=
  traced (trace s) /\
  (status s = None -> exists m ws, routines s = m :: ws /\ inv (trace s) (wg s) m ws) /\
  (status s = Some 0 -> (exists c, ECall c (Exits 0) ∈ trace s) \/
    exists path, path ∈ ends [] [] p /\ Forall (happened (trace s)) path).

Lemma leaf_not_done dfr b : leaf dfr b = true -> joins b = [].
Proof. destruct b as [| | | | |d k| | | | | |]; try done. destruct d; simpl; [|done..]. by rewrite andb_false_r. Qed.
Lemma disciplined_pending k : disciplined k = true -> pending k = 0.
Proof. destruct k as [| | | | | | | |b k| | |]; try done. simpl. intros [Hb _]%andb_true_iff. by rewrite (leaf_not_done _ _ Hb). Qed.

Lemma pending_nonneg k : 0 <= pending k.
Proof. destruct k; simpl; lia. Qed.

Lemma owed_app ws ws' : owed (ws ++ ws') = owed ws + owed ws'.
Proof. unfold owed. rewrite filter_app, length_app. lia. Qed.
Lemma owed_cons g ws : owed (g :: ws) = (if counted g then 1 else 0) + owed ws.
Proof. unfold owed. rewrite filter_cons. destruct (counted g) eqn:Hg; case_decide; simpl; lia || done. Qed.
Lemma owed_nonneg ws : 0 <= owed ws.
Proof. unfold owed. lia. Qed.

Lemma knows_app t t' g : knows t g -> knows (t ++ t') g.
Proof. intros (fs & Hf & Hc). exists fs. eauto. Qed.
Lemma awaits_app t t' ws b : awaits t ws b -> awaits (t ++ t') ws b.
Proof.
  intros [H|(g & fs & H1 & H2 & H3 & H4)]; [left; by apply happened_app|]. right. exists g, fs. eauto.
Qed.
Lemma awaits_mono t ws ws' b : (forall g, g ∈ ws -> counted g = true -> g ∈ ws') -> awaits t ws b -> awaits t ws' b.
Proof. intros Hin [H|(g & fs & H1 & H2 & H3 & H4)]; [by left|]. right. exists g, fs. eauto. Qed.
Lemma counted_free k ds : leaf true k = true -> DDone ∉ ds -> counted (mkG k ds false) = false.
Proof.
  intros Hk Hd. unfold counted. cbn [code defers]. rewrite (leaf_not_done _ _ Hk), (bool_decide_false (DDone ∈ ds)) by done. done.
Qed.
Lemma counted_leaf k : counted (mkG k [DDone] false) = true.
Proof. done. Qed.

Lemma free_spawned b k c : leaf true b = true -> c = Go b k ->
  exists b' k', c = Go b' k' /\ joins b' = [] /\ [mkG b [] false] = [mkG b' [] false] /\ worker (mkG b' [] false) /\
    owed [mkG b [] false] = 0.
Proof.
  intros Hb ->. exists b, k. split_and!; [done|by eapply leaf_not_done|done|by apply worker_free; [|apply not_elem_of_nil]|].
  rewrite owed_cons, counted_free; [done|done|apply not_elem_of_nil].
Qed.

Lemma leaf_exec dfr ch w k ds t g' new w' :
  leaf dfr k = true -> exec ch w (mkG k ds false) = Some (t, Runs g' new w') ->
  w' = w /\ (exists k' ds', g' = mkG k' ds' false /\ leaf dfr k' = true /\
    (ds' = ds \/ exists d, dfr = true /\ d <> DDone /\ ds' = d :: ds)) /\
  (new = [] /\ (forall b k0, k <> Go b k0) \/ exists b k0, k = Go b k0 /\ leaf true b = true /\ new = [mkG b [] false]).
Proof.
  unfold exec, goto. intros Hk. destruct k as [| |n|c e k|c k|d k|k|k|b k|c k|jobs stop k|c e]; simpl in Hk; try done; intros H.
  all: repeat case_match; simplify_eq/=; breflect.
  all: split; [done|split; [eexists _, _; split; [reflexivity|split; [done|]]|]].
  all: try (by left); try (right; eexists; by split_and!).
  right. by eexists _, _.
Qed.

(** A goroutine may start others, which are not counted. *)
Lemma worker_exec ch w g t g' new w' : worker g -> exec ch w g = Some (t, Runs g' new w') ->
  worker g' /\ w' = w /\ counted g' = counted g /\
  (new = [] /\ (forall b k, code g <> Go b k) \/
   exists b k, code g = Go b k /\ joins b = [] /\ new = [mkG b [] false] /\ worker (mkG b [] false) /\ owed new = 0).
Proof.
  intros [b Hb|k Hk|k ds Hk Hd] He.
  - injection He as _ <- <- <-. split_and!; [by constructor|done|by rewrite counted_leaf|by left].
  - destruct (leaf_exec _ _ _ _ _ _ _ _ _ Hk He) as (-> & (k' & ds' & -> & Hk' & Hds) & Hnew).
    destruct Hds as [->|(d & ? & _)]; [|done]. split_and!; [by constructor|done|by rewrite !counted_leaf|].
    destruct Hnew as [?|(b & k0 & -> & Hb & ->)]; [by left|right]. by eapply free_spawned.
  - destruct (leaf_exec _ _ _ _ _ _ _ _ _ Hk He) as (-> & (k' & ds' & -> & Hk' & Hds) & Hnew).
    assert (DDone ∉ ds') as Hd'.
    { destruct Hds as [->|(d & _ & ? & ->)]; [done|]. apply not_elem_of_cons. split; congruence. }
    split_and!; [by apply worker_free|done|by rewrite !counted_free|].
    destruct Hnew as [?|(b & k0 & -> & Hb & ->)]; [by left|right]. by eapply free_spawned.
Qed.

Lemma worker_no_wait ch w g t nx : worker g -> exec ch w g = Some (t, nx) -> forall k, code g <> WgWait k /\ code g <> OsExit 0.
Proof. destruct 1 as [b Hb|k Hk|k ds Hk Hd]; simpl; intros _ k'; split; try done; by intros ->. Qed.

(** A counted goroutine that finishes has taken one of the ways to its end. *)
Lemma awaits_finish t ws1 ws2 g b :
  code g = End -> awaits t (ws1 ++ g :: ws2) b -> awaits t (ws1 ++ ws2) b.
Proof.
  intros Hg [H|(g' & fs & H1 & H2 & H3 & H4)]; [by left|].
  assert (g' ∈ ws1 ++ ws2 \/ g' = g) as [Hin| ->] by (rewrite elem_of_app, elem_of_cons in H1; rewrite elem_of_app; tauto).
  - right. by exists g', fs.
  - left. exists fs. split; [|done]. apply H4. rewrite Hg. simpl. apply list_elem_of_here.
Qed.

Lemma awaits_step t t' ws1 ws2 g g' b extra :
  counted g' = counted g -> Forall (seen t') extra ->
  (forall fs, ends (fs ++ extra) [] (code g') ⊆ ends fs [] (code g)) ->
  awaits t (ws1 ++ g :: ws2) b -> awaits (t ++ t') (ws1 ++ g' :: ws2) b.
Proof.
  intros Hc Hx He [H|(g0 & fs & H1 & H2 & H3 & H4)]; [left; by apply happened_app|right].
  assert (g0 ∈ ws1 ++ ws2 \/ g0 = g) as [Hin| ->] by (rewrite elem_of_app, elem_of_cons in H1; rewrite elem_of_app; tauto).
  - exists g0, fs. split_and!; [|done|by apply seen_all_app|done]. rewrite elem_of_app in Hin. rewrite elem_of_app, elem_of_cons. tauto.
  - exists g', (fs ++ extra). split_and!; [|by rewrite Hc| |by rewrite He].
    + apply elem_of_app. right. apply list_elem_of_here.
    + apply Forall_app. split; [by apply seen_all_app|by apply seen_app_r].
Qed.

Lemma main_exec ch w m t m' new w' ws u : inv u w m ws -> exec ch w m = Some (t, Runs m' new w') ->
  is_main m' = true /\ Forall (fun d => exists c, d = DCall c) (defers m') /\
  (disciplined (code m') = true \/
    exists b k, code m' = Go (Defer DDone b) k /\ leaf false b = true /\ disciplined k = true) /\
  w' - w = pending (code m') + owed new - pending (code m) /\
  ((exists b k, code m = Go b k /\ new = [mkG b [] false] /\ worker (mkG b [] false)) \/
   new = [] /\ forall b k, code m <> Go b k).
Proof.
  intros [Hm Hd Hs _ _ _ _]. unfold exec. destruct m as [p0 ds im]. simpl in *. subst im.
  destruct Hs as [Hs|(b & k & -> & Hb & Hk)].
  2:{ intros [= _ <- <- <-]. simpl. rewrite (disciplined_pending _ Hk). split_and!; [done|done|by left| |].
      - rewrite owed_cons. change (owed []) with 0. simpl. lia.
      - left. exists (Defer DDone b), k. split_and!; [done|done|by constructor]. }
  destruct p0 as [| |n|c e k|c k|d k|k|k|b k|c k|jobs stop k|c e]; simpl in Hs; try done; intros H.
  all: repeat case_match; simplify_eq/=; breflect; change (owed []) with 0; rewrite ?disciplined_pending by done.
  all: try (split_and!; [done|done|by left|lia|by right]).
  - split_and!; [done|by constructor; eauto|by left|lia|by right].
  - split_and!; [done|done| |simpl; lia|by right]. right. eauto.
  - rewrite (leaf_not_done _ _ H), owed_cons, counted_free by (done || set_solver). change (owed []) with 0. simpl.
    split_and!; [done|done|by left|lia|]. left. exists b, k. split_and!; [done|done|]. apply worker_free; [done|set_solver].
Qed.

Lemma owed_zero ws g : owed ws = 0 -> g ∈ ws -> counted g = false.
Proof.
  intros Ho Hin. unfold owed in Ho. destruct (counted g) eqn:Hc; [exfalso|done].
  assert (g ∈ filter (fun g => counted g = true) ws) as Hf by by apply list_elem_of_filter.
  destruct (filter _ ws); [by apply not_elem_of_nil in Hf|]. simpl in Ho. lia.
Qed.

Lemma main_step ch w m ws u t m' new w' :
  inv u w m ws -> exec ch w m = Some (t, Runs m' new w') -> inv (u ++ t) w' m' (ws ++ new).
Proof.
  intros Hi He. destruct (main_exec _ _ _ _ _ _ _ _ _ Hi He) as (H1 & H2 & H3 & H4 & H5).
  destruct Hi as [Hm Hd Hs (fs & js & Hf & Hj & Hends & Hcalls) Hw Hk Hwg].
  destruct (exec_known _ _ _ _ _ _ _ js He) as (extra & js' & Hin & Hex).
  split; [done|done|done| | | |rewrite owed_app; lia].
  - exists (fs ++ extra), js'. destruct (Hin fs) as [He1 Hc1]. split_and!.
    3: { by rewrite He1. }
    3: { by rewrite Hc1. }
    + apply Forall_app. split; [by apply happened_all_app|].
      destruct Hex as [(-> & [k Hc] & -> & _)|[Hx _]]; [|by apply seen_happened, seen_app_r].
      apply Forall_fmap, Forall_forall. intros b Hb. apply happened_app.
      rewrite Forall_forall in Hj. destruct (Hj b Hb) as [?|(g & _ & Hg & Hc' & _)]; [done|].
      rewrite (owed_zero ws g) in Hc'; [done| |done]. rewrite Hc in Hwg. simpl in Hwg. lia.
    + destruct Hex as [(_ & _ & _ & ->)|[_ ->]]; [constructor|]. apply Forall_app. split.
      * eapply Forall_impl; [exact Hj|]. intros b Hb. apply awaits_app. eapply awaits_mono; [|exact Hb]. intros. apply elem_of_app. by left.
      * destruct H5 as [(b & k & -> & -> & _)|[_ Hno]]; [|destruct (code m) as [| | | | | | | |b k| | |]; try apply Forall_nil_2; by destruct (Hno b k)].
        destruct b as [| | | | |d b| | | | | |]; try apply Forall_nil_2. destruct d; try apply Forall_nil_2.
        apply Forall_singleton. right.
        exists (mkG (Defer DDone b) [] false), []. split_and!; [|done|constructor|done].
        apply elem_of_app. right. apply list_elem_of_here.
  - apply Forall_app. split; [done|]. destruct H5 as [(b & k & _ & -> & ?)|[-> _]]; [by apply Forall_singleton|apply Forall_nil_2].
  - apply Forall_app. split; [eapply Forall_impl; [exact Hk|]; intros; by apply knows_app|].
    destruct H5 as [(b & k & Hc & -> & _)|[-> _]]; [apply Forall_singleton|apply Forall_nil_2]. exists fs. split; [by apply happened_all_app|].
    simpl. rewrite <- Hcalls, Hc. simpl. sub.
Qed.

Lemma worker_step ch w m ws1 g ws2 u t g' new w' :
  inv u w m (ws1 ++ g :: ws2) -> exec ch w g = Some (t, Runs g' new w') ->
  w' = w /\ inv (u ++ t) w m ((ws1 ++ g' :: ws2) ++ new).
Proof.
  intros [Hm Hd Hs (fs & js & Hf & Hj & Hends & Hcalls) Hw Hk Hwg] He.
  pose proof (proj1 (Forall_app _ _ _) Hw) as [Hw1 [Hg Hw2]%Forall_cons].
  pose proof (proj1 (Forall_app _ _ _) Hk) as [Hk1 [Hkg Hk2]%Forall_cons].
  destruct (worker_exec _ _ _ _ _ _ _ Hg He) as (Hg' & -> & Hc & Hnew). split; [done|].
  destruct (exec_known _ _ _ _ _ _ _ [] He) as (extra & js' & Hin & Hex).
  assert (Forall (seen t) extra /\ js' = []) as [Hx ->].
  { destruct Hex as [(_ & [k Hc'] & _)|[? ->]]; [by destruct (worker_no_wait _ _ _ _ _ Hg He k)|]. split; [done|].
    destruct Hnew as [[_ Hno]|(b & k & -> & -> & _)]; [|done]. destruct (code g) as [| | | | | | | |b k| | |]; try done. by destruct (Hno b k). }
  destruct Hkg as (fs0 & Hf0 & Hc0).
  split; try done.
  - exists fs, js. split_and!; [by apply happened_all_app| |done|done].
    eapply Forall_impl; [exact Hj|]. intros b Hb. eapply awaits_mono; [|by eapply (awaits_step _ _ _ _ _ g' _ extra); [| |intros; apply Hin|]].
    intros. apply elem_of_app. by left.
  - apply Forall_app. split; [apply Forall_app; split; [done|by constructor]|].
    destruct Hnew as [[-> _]|(b & k & _ & _ & -> & ? & _)]; [constructor|by apply Forall_singleton].
  - apply Forall_app. split.
    + apply Forall_app. split; [eapply Forall_impl; [exact Hk1|]; intros; by apply knows_app|].
      constructor; [|eapply Forall_impl; [exact Hk2|]; intros; by apply knows_app].
      exists (fs0 ++ extra). split.
      * apply Forall_app. split; [by apply happened_all_app|]. by apply seen_happened, seen_app_r.
      * destruct (Hin fs0) as [_ Hin0]. by rewrite Hin0.
    + destruct Hnew as [[-> _]|(b & k & Hcg & _ & -> & _ & _)]; [constructor|]. apply Forall_singleton.
      exists fs0. split; [by apply happened_all_app|]. rewrite <- Hc0, Hcg. simpl. sub.
  - assert (owed new = 0) as Hnew0 by (by destruct Hnew as [[-> _]|(? & ? & _ & _ & _ & _ & ->)]).
    rewrite Hwg, !owed_app, !owed_cons, Hc, Hnew0. lia.
Qed.

Lemma run_defers_calls b ds w : Forall (fun d => exists c, d = DCall c) ds -> (run_defers b ds w).1.2 = b.
Proof.
  induction 1 as [|d ds [c ->] _ IH]; [done|]. simpl. by destruct (run_defers b ds w) as [[t' b'] w'].
Qed.
Lemma run_defers_no_call b ds w c o : ECall c o ∉ (run_defers b ds w).1.1.
Proof.
  revert b w. induction ds as [|[| |c0] ds IH]; intros b w; simpl; [apply not_elem_of_nil|destruct (w <=? 0); apply IH|apply IH|].
  specialize (IH b w). destruct (run_defers b ds w) as [[t' b'] w']. simpl in *. intros [?|?]%elem_of_cons; done.
Qed.
Lemma run_defers_free b ds w : DDone ∉ ds -> (run_defers b ds w).2 = w.
Proof.
  revert b. induction ds as [|[| |c] ds IH]; intros b Hd; [done|set_solver|apply IH; set_solver|]. simpl.
  specialize (IH b). destruct (run_defers b ds w) as [[t' b'] w']. apply IH. set_solver.
Qed.

Lemma worker_finish ch w m ws1 g ws2 u t b t' w' :
  inv u w m (ws1 ++ g :: ws2) -> exec ch w g = Some (t, Finish b) -> run_defers b (defers g) w = (t', false, w') ->
  inv (u ++ t ++ t') w' m (ws1 ++ ws2).
Proof.
  intros [Hm Hd Hs (fs & js & Hf & Hj & Hends & Hcalls) Hw Hk Hwg] He Hr.
  pose proof (proj1 (Forall_app _ _ _) Hw) as [Hw1 [Hg Hw2]%Forall_cons].
  pose proof (proj1 (Forall_app _ _ _) Hk) as [Hk1 [_ Hk2]%Forall_cons].
  assert ((counted g = true -> code g = End) /\ w' = w - (if counted g then 1 else 0)) as [Hend Hw'].
  { destruct Hg as [k Hk'|k Hk'|k ds Hk' Hds]; [done| |].
    - rewrite counted_leaf. simpl in Hr. rewrite owed_app, owed_cons, counted_leaf in Hwg.
      pose proof (owed_nonneg ws1). pose proof (owed_nonneg ws2).
      pose proof (pending_nonneg (code m)).
      rewrite (proj2 (Z.leb_gt _ _)) in Hr by lia. injection Hr as <- -> <-.
      destruct (exec_finish _ _ _ _ _ He) as [(_ & ? & _)|?]; done.
    - rewrite counted_free by done. split; [done|]. pose proof (run_defers_free b ds w Hds) as Hf'.
      simpl in Hr. rewrite Hr in Hf'. simpl in Hf'. lia. }
  split; try done.
  - exists fs, js. split_and!; [by apply happened_all_app| |done|done].
    eapply Forall_impl; [exact Hj|]. intros b' Hb'. apply awaits_app. destruct (counted g) eqn:Hc.
    + eapply awaits_finish; [by apply Hend|done].
    + eapply awaits_mono; [|exact Hb']. intros g0 [?|[->|?]%elem_of_cons]%elem_of_app Hc0; [| congruence|]; apply elem_of_app; tauto.
  - by apply Forall_app.
  - apply Forall_app. split; [eapply Forall_impl; [exact Hk1|]|eapply Forall_impl; [exact Hk2|]]; intros; by apply knows_app.
  - rewrite Hw', Hwg, !owed_app, owed_cons. lia.
Qed.

Lemma knows_worker u w m ws g : inv u w m ws -> g ∈ ws -> exists fs, Forall (happened u) fs /\ calls fs [] (code g) ⊆ calls [] [] p.
Proof. intros Hi Hg. pose proof (inv_knows _ _ _ _ Hi) as Hk. rewrite Forall_forall in Hk. by apply Hk. Qed.

(** The trace after a statement, and after the deferred functions. *)
Lemma traced_step ch w m ws u t nx g i :
  inv u w m ws -> traced u -> (m :: ws) !! i = Some g -> exec ch w g = Some (t, nx) -> traced (u ++ t).
Proof.
  intros Hi Ht Hg He. destruct i as [|i]; simpl in Hg.
  - injection Hg as ->. destruct (inv_known _ _ _ _ Hi) as (fs & js & Hf & _ & _ & Hc). by eapply traced_exec.
  - apply list_elem_of_lookup_2 in Hg. destruct (knows_worker _ _ _ _ _ Hi Hg) as (fs & Hf & Hc). by eapply traced_exec.
Qed.

Lemma good_stopped s n : traced (trace s) -> status s = Some n ->
  (n = 0 -> (exists c, ECall c (Exits 0) ∈ trace s) \/ exists path, path ∈ ends [] [] p /\ Forall (happened (trace s)) path) ->
  good s.
Proof. intros Ht Hs H0. split_and!; [done|congruence|]. intros H. apply H0. congruence. Qed.

Lemma not_exit_zero u w m ws g i : inv u w m ws -> (m :: ws) !! i = Some g -> code g <> OsExit 0.
Proof.
  intros Hi Hg. destruct i as [|i]; simpl in Hg.
  - injection Hg as ->. intros Hc. destruct (inv_shape _ _ _ _ Hi) as [H|(b & k & H & _)]; rewrite Hc in H; done.
  - pose proof (inv_workers _ _ _ _ Hi) as Hw. rewrite Forall_lookup in Hw. apply Hw in Hg. destruct Hg; simpl; try done; by intros ->.
Qed.

Lemma good_finish ch s m ws g i t b t' b' w' :
  routines s = m :: ws -> inv (trace s) (wg s) m ws -> traced (trace s ++ t ++ t') ->
  (m :: ws) !! i = Some g -> exec ch (wg s) g = Some (t, Finish b) -> run_defers b (defers g) (wg s) = (t', b', w') ->
  good (if b' then mkP (routines s) w' (trace s ++ t ++ t') (Some 2)
        else if is_main g then mkP (routines s) w' (trace s ++ t ++ t') (Some 0)
        else mkP (take i (routines s) ++ drop (S i) (routines s)) w' (trace s ++ t ++ t') None).
Proof.
  intros Hr Hi Ht Hg He Hd. destruct b'; [by eapply good_stopped|].
  destruct i as [|i]; simpl in Hg.
  - injection Hg as ->. rewrite (inv_main _ _ _ _ Hi). eapply good_stopped; [done|done|]. intros _. right. simpl.
    pose proof (run_defers_calls b (defers g) (wg s) (inv_defers _ _ _ _ Hi)) as Hb. rewrite Hd in Hb. simpl in Hb. subst b.
    destruct (exec_finish _ _ _ _ _ He) as [(_ & Hc & _)|?]; [|done].
    destruct (inv_known _ _ _ _ Hi) as (fs & js & Hf & _ & Hin & _). exists fs. split; [|by apply happened_all_app].
    apply Hin. rewrite Hc. apply list_elem_of_here.
  - apply list_elem_of_split_length in Hg as (ws1 & ws2 & -> & ->). rewrite Hr.
    assert (is_main g = false) as ->.
    { pose proof (inv_workers _ _ _ _ Hi) as [_ [Hw _]%Forall_cons]%Forall_app. by destruct Hw. }
    split_and!; [done| |done]. intros _. simpl. exists m, (ws1 ++ ws2). split; [|by eapply worker_finish].
    rewrite take_app_length. replace (S (length ws1)) with (length ws1 + 1)%nat by lia. by rewrite drop_app_add.
Qed.

Lemma good_step s s' : good s -> steps_to s s' -> good s'.
Proof.
  intros (Ht & Hi & _) (i & ch & Hr). unfold run_step in Hr. destruct (status s) eqn:Hst; [done|].
  destruct (Hi eq_refl) as (m & ws & Hro & Hinv).
  destruct (routines s !! i) as [g|] eqn:Hg; [|done]. rewrite Hro in Hg. apply bind_Some in Hr as ([t nx] & He & Hr).
  pose proof (traced_step _ _ _ _ _ _ _ _ _ Hinv Ht Hg He) as Ht'.
  destruct nx as [g' new w'|b|n].
  - injection Hr as <-. split_and!; [done| |done]. intros _. simpl. rewrite Hro. destruct i as [|i]; simpl in Hg |- *.
    + injection Hg as ->. exists g', (ws ++ new). split; [done|]. by eapply main_step.
    + apply list_elem_of_split_length in Hg as (ws1 & ws2 & -> & ->). rewrite insert_app_r_alt, Nat.sub_diag by lia. simpl.
      destruct (worker_step _ _ _ _ _ _ _ _ _ _ _ Hinv He) as (-> & Hinv'). by exists m, ((ws1 ++ g' :: ws2) ++ new).
  - destruct (run_defers b (defers g) (wg s)) as [[t' b'] w'] eqn:Hd. injection Hr as <-.
    eapply good_finish; try done. rewrite app_assoc. pose proof (traced_defers _ (defers g) b (wg s) Ht') as H. by rewrite Hd in H.
  - injection Hr as <-. eapply good_stopped; [done|done|]. intros ->. left. simpl.
    destruct (exec_stop _ _ _ _ _ He) as [Hc|[c ->]]; [by destruct (not_exit_zero _ _ _ _ _ _ Hinv Hg)|].
    exists c. apply elem_of_app. right. apply list_elem_of_here.
Qed.

Lemma good_start : good (start p).
Proof.
  split_and!; [|intros _; eexists _, []; split; [reflexivity|]|done].
  - intros t1 c o t2 H. by destruct t1.
  - split; simpl; [done|constructor|by left| |constructor|constructor|by rewrite disciplined_pending].
    exists [], []. split_and!; [constructor|constructor|done|done].
Qed.

Lemma reachable_good s : reachable p s -> good s.
Proof.
  unfold reachable. revert s. apply rtc_ind_r; [apply good_start|]. intros y z _ Hyz IH. by eapply good_step.
Qed.
(** A call is made only after what the program requires before it. *)
Theorem call_after s t1 c o t2 : reachable p s -> trace s = t1 ++ ECall c o :: t2 ->
  exists fs, (c, fs) ∈ calls [] [] p /\ Forall (happened t1) fs.
Proof. intros Hs Ht. by eapply (proj1 (reachable_good s Hs)). Qed.

(** The process ends with code 0 only when its main goroutine returns, or when a
    called function ends it so. *)
Theorem exit_zero s : reachable p s -> status s = Some 0 ->
  (exists c, ECall c (Exits 0) ∈ trace s) \/ exists path, path ∈ ends [] [] p /\ Forall (happened (trace s)) path.
Proof. intros Hs. by apply (reachable_good s Hs). Qed.

(** *** As checks *)
Definition requires (c : string) (f : fact) : bool :=
  forallb (fun cf => negb (bool_decide (cf.1 = c)) || bool_decide (f ∈ cf.2)) (calls [] [] p).

Lemma requires_sound c f s t1 o t2 :
  requires c f = true -> reachable p s -> trace s = t1 ++ ECall c o :: t2 -> happened t1 f.
Proof.
  intros Hr Hs Ht. destruct (call_after s t1 c o t2 Hs Ht) as (fs & Hin & Hf).
  unfold requires in Hr. rewrite forallb_forall in Hr. specialize (Hr (c, fs) (proj1 (list_elem_of_In _ _) Hin)).
  simpl in Hr. rewrite (bool_decide_true (c = c)) in Hr by done. simpl in Hr. breflect.
  rewrite Forall_forall in Hf. by apply Hf.
Qed.

(** Every error of [c] is followed by [os.Exit(n)]. *)
Fixpoint fatal (n : Z) (c : string) (q : prog) : bool :=
  match q with
  | End | Panic | OsExit _ => true
  | Call c' e k => (negb (bool_decide (c' = c)) || bool_decide (e = OsExit n)) && fatal n c e && fatal n c k
  | Do c' k => negb (bool_decide (c' = c)) && fatal n c k
  | Defer _ k | WgAdd k | WgWait k | Receive _ k => fatal n c k
  | Ticker jobs _ k => negb (bool_decide (c ∈ jobs)) && fatal n c k
  | TickerErr c' e => (negb (bool_decide (c' = c)) || bool_decide (e = OsExit n)) && fatal n c e
  | Go b k => fatal n c b && fatal n c k
  end.

Lemma exec_fatal n c ch w g t nx : fatal n c (code g) = true -> exec ch w g = Some (t, nx) ->
  (forall g' new w', nx = Runs g' new w' ->
    fatal n c (code g') = true /\ Forall (fun g => fatal n c (code g) = true) new /\
    (forall e, ECall c (Returned (Some e)) ∈ t -> code g' = OsExit n)) /\
  ((forall g' new w', nx <> Runs g' new w') -> forall e, ECall c (Returned (Some e)) ∉ t).
Proof.
  intros Hf. unfold exec. destruct (code g) as [| |m|c0 e k|c0 k|d k|k|k|b k|c0 k|jobs stop k|c0 e] eqn:Hc; simpl in Hf; intros H.
  all: repeat case_match; simplify_eq/=; breflect.
  all: split; [intros ? ? ? Hnx; simplify_eq|intros Hno].
  all: try (exfalso; by eapply Hno).
  all: try (intros e0 Hin; exfalso; first [by apply not_elem_of_nil in Hin|by apply list_elem_of_singleton in Hin]).
  all: simpl; rewrite ?Hc; simpl; split; [|split].
  all: try done; try (by constructor); try (by apply Forall_singleton).
  all: try (intros e0 Hin; exfalso; first [by apply not_elem_of_nil in Hin|by apply list_elem_of_singleton in Hin]).
  - intros e1 Hin. apply list_elem_of_singleton in Hin. injection Hin as -> ->. destruct H as [?|?]; breflect; done.
  - apply andb_true_iff. split; [by apply negb_true_iff, bool_decide_eq_false_2|done].
  - intros e1 Hin. apply list_elem_of_singleton in Hin. injection Hin as -> _. exfalso.
    by match goal with H : _ ∉ jobs |- _ => apply H; eapply list_elem_of_lookup_2 end.
  - intros e1 Hin. apply list_elem_of_singleton in Hin. injection Hin as -> ->. destruct H as [?|?]; breflect; done.
  - apply andb_true_iff. split; [by apply orb_true_iff|done].
Qed.

(** After such an error the process has ended, or a goroutine is about to end
    it with that code. *)
Theorem fatal_exits n c s e : fatal n c p = true -> reachable p s -> ECall c (Returned (Some e)) ∈ trace s ->
  status s = None -> exists g, g ∈ routines s /\ code g = OsExit n.
Proof.
  intros Hf Hs. revert e.
  enough (status s = None -> Forall (fun g => fatal n c (code g) = true) (routines s) /\
    forall e, ECall c (Returned (Some e)) ∈ trace s -> exists g, g ∈ routines s /\ code g = OsExit n) as H by naive_solver.
  revert Hs. unfold reachable. pattern s. revert s. refine (rtc_ind_r _ _ _ _).
  - intros _. split; [by apply Forall_singleton|]. intros e Hin. by apply not_elem_of_nil in Hin.
  - intros s s' _ (i & ch & Hr) IH Hst. unfold run_step in Hr. destruct (status s) eqn:Hs0; [done|].
    destruct (routines s !! i) as [g|] eqn:Hg; [|done]. apply bind_Some in Hr as ([t nx] & He & Hr).
    destruct (IH eq_refl) as [Hall Hex]. assert (fatal n c (code g) = true) as Hfg by (rewrite Forall_lookup in Hall; by eapply Hall).
    destruct (exec_fatal _ _ _ _ _ _ _ Hfg He) as [Hrun Hno].
    destruct nx as [g' new w'|b|m].
    + injection Hr as <-. destruct (Hrun _ _ _ eq_refl) as (H1 & H2 & H3). simpl. split.
      * apply Forall_app. split; [|done]. by apply Forall_insert.
      * intros e [Hin|Hin]%elem_of_app.
        -- destruct (Hex e Hin) as (g0 & Hg0 & Hc0). destruct (decide (g0 = g)) as [->|Hne].
           { unfold exec in He. by rewrite Hc0 in He. }
           exists g0. split; [|exact Hc0]. apply elem_of_app. left. apply list_elem_of_lookup in Hg0 as [j Hj].
           apply list_elem_of_lookup. exists j. rewrite list_lookup_insert_ne; [done|congruence].
        -- exists g'. split; [|by eapply H3]. apply elem_of_app. left.
           apply list_elem_of_lookup. exists i. apply list_lookup_insert_eq. by eapply lookup_lt_Some.
    + destruct (run_defers b (defers g) (wg s)) as [[t' b'] w'] eqn:Hd. injection Hr as <-.
      destruct b'; [done|]. destruct (is_main g); [done|]. simpl. split.
      * apply Forall_app. split; [by apply Forall_take|by apply Forall_drop].
      * intros e Hin. assert (ECall c (Returned (Some e)) ∈ trace s) as Hin'.
        { apply elem_of_app in Hin as [?|[Ht|Ht]%elem_of_app]; [done|by destruct (Hno ltac:(done) e)|].
          pose proof (run_defers_no_call b (defers g) (wg s) c (Returned (Some e))) as Hn. by rewrite Hd in Hn. }
        destruct (Hex e Hin') as (g0 & Hg0 & Hc0). exists g0. split; [|done].
        rewrite <- (take_drop_middle _ _ _ Hg) in Hg0. apply elem_of_app in Hg0 as [?|[->|?]%elem_of_cons].
        1,3: apply elem_of_app; tauto.
        unfold exec in He. by rewrite Hc0 in He.
    + by injection Hr as <-.
Qed.
(** *** A check of commands that start services

    [startup]: calls that come before the services; [services]: calls whose
    errors end the process. *)
Definition joined_ok (c : string) (f : fact) : bool :=
  match f with
  | Joined b => forallb (fun path => bool_decide (Succeeded c ∈ path)) (ends [] [] b)
  | _ => false
  end.
Definition supervises (startup services : list string) : bool :=
  disciplined p &&
  forallb (fun c => forallb (fun d => requires c (Succeeded d)) startup && fatal 1 c p) services &&
  forallb (fun c => (sites c p <=? 1)%nat) (startup ++ services) &&
  forallb (fun path => existsb (fun d => bool_decide (Failed d ∈ path)) startup ||
             forallb (fun c => existsb (joined_ok c) path) services) (ends [] [] p).
End program.

Lemma joined_ok_sound t c f : joined_ok c f = true -> happened t f -> ECall c (Returned None) ∈ t.
Proof.
  destruct f as [| |b]; try done. simpl. intros Hj (path & Hin & Hs). rewrite forallb_forall in Hj.
  specialize (Hj path (proj1 (list_elem_of_In _ _) Hin)). breflect. rewrite Forall_forall in Hs. by apply (Hs (Succeeded c)).
Qed.

Lemma supervises_sound p startup services s :
  supervises p startup services = true -> reachable p s ->
  (forall c t1 o t2 d, c ∈ services -> d ∈ startup -> trace s = t1 ++ ECall c o :: t2 -> ECall d (Returned None) ∈ t1) /\
  (forall c e, c ∈ services -> ECall c (Returned (Some e)) ∈ trace s ->
    (status s = None -> exists i, forall ch, exists s', run_step i ch s = Some s' /\ status s' = Some 1) /\
    (status s = Some 0 -> exists c', ECall c' (Exits 0) ∈ trace s)) /\
  (status s = Some 0 -> (exists c, ECall c (Exits 0) ∈ trace s) \/
    (exists d e, d ∈ startup /\ ECall d (Returned (Some e)) ∈ trace s) \/
    Forall (fun c => ECall c (Returned None) ∈ trace s) services).
Proof.
  unfold supervises. intros [[[Hp Hc]%andb_true_iff Ho]%andb_true_iff He]%andb_true_iff Hs. rewrite forallb_forall in Hc.
  assert (forall c o o', c ∈ startup ++ services -> ECall c o ∈ trace s -> ECall c o' ∈ trace s -> o = o') as Hone.
  { intros c o o' Hin. eapply one_outcome; [|exact Hs]. rewrite forallb_forall in Ho.
    apply Nat.leb_le, Ho. by apply list_elem_of_In. }
  assert (forall c, c ∈ services -> (forall d, d ∈ startup -> requires p c (Succeeded d) = true) /\ fatal 1 c p = true) as Hc'.
  { intros c Hin. apply list_elem_of_In in Hin. specialize (Hc c Hin). apply andb_true_iff in Hc as [H1 H2]. split; [|done].
    intros d Hd. rewrite forallb_forall in H1. apply H1. by apply list_elem_of_In. }
  assert (forall c t1 o t2 d, c ∈ services -> d ∈ startup -> trace s = t1 ++ ECall c o :: t2 -> ECall d (Returned None) ∈ t1) as H1.
  { intros c t1 o t2 d Hin Hd Ht. destruct (Hc' c Hin) as [Hr _].
    exact (requires_sound p Hp c (Succeeded d) s t1 o t2 (Hr d Hd) Hs Ht). }
  assert (status s = Some 0 -> (exists c, ECall c (Exits 0) ∈ trace s) \/
    (exists d e, d ∈ startup /\ ECall d (Returned (Some e)) ∈ trace s) \/
    Forall (fun c => ECall c (Returned None) ∈ trace s) services) as H3.
  { intros Hst. destruct (exit_zero p Hp s Hs Hst) as [?|(path & Hin & Hh)]; [by left|right].
    rewrite forallb_forall in He. specialize (He path (proj1 (list_elem_of_In _ _) Hin)). rewrite Forall_forall in Hh.
    apply orb_true_iff in He as [He|He].
    + left. apply existsb_exists in He as (d & Hd & Hf). breflect. destruct (Hh _ Hf) as [e Ht].
      exists d, e. by rewrite list_elem_of_In.
    + right. apply Forall_forall. intros c Hcs. rewrite forallb_forall in He.
      specialize (He c (proj1 (list_elem_of_In _ _) Hcs)). apply existsb_exists in He as (f & Hf & Hj).
      eapply joined_ok_sound; [exact Hj|]. apply Hh. by apply list_elem_of_In. }
  split_and!; [exact H1| |exact H3]. intros c e Hin Ht. destruct (Hc' c Hin) as [_ Hf]. split.
  - intros Hst. destruct (fatal_exits p 1 c s e Hf Hs Ht Hst) as (g & Hg & Hcode). apply list_elem_of_lookup in Hg as [i Hi].
    exists i. intros ch. eexists. unfold run_step, exec. rewrite Hst, Hi, Hcode. simpl. by split.
  - intros Hst. destruct (H3 Hst) as [?|[(d & e' & Hd & Hde)|Hall]]; [done| |].
    + apply list_elem_of_split in Ht as (t1 & t2 & Ht). pose proof (H1 c t1 _ t2 d Hin Hd Ht) as Hok.
      assert (Returned None = Returned (Some e')); [|done]. apply (Hone d); [by apply elem_of_app; left| |done].
      rewrite Ht. apply elem_of_app. by left.
    + rewrite Forall_forall in Hall. assert (Returned None = Returned (Some e)); [|done].
      apply (Hone c); [apply elem_of_app; by right|by apply Hall|done].
Qed.
End Runs.

(** ** The commands *)
Module Commands.
Import Process Runs.

(** Calls one after the other. *)
Definition each (cs : list string) (k : prog) : prog := foldr Do k cs.

(** [os.Getenv] with a default. *)
Definition env_or (Getenv : string -> string) (name dflt : string) : string :=
  if bool_decide (Getenv name = "") then dflt else Getenv name.

(** [admin.Run]: what follows an error of the set-up, and a return. *)
Definition admin_Run (onerr onok : prog) : prog :=
  Call "admin/utils.Setup" onerr
    (each ["feed.Routes"; "proxy.Routes"; "fetcher.Routes"; "aggregator.Routes"; "providerUrl.Routes"; "config.Routes";
           "host.Routes"]
      (Call "app.Listen" Fatal onok)).
Definition admin_port (Getenv : string -> string) : string := env_or Getenv "APP_PORT" "8088".

(** [boot.Run]. *)
Definition boot_Run (onerr onok : prog) : prog :=
  Call "libp2pSetup.NewHost" onerr
    (Call "boot/utils.Setup" onerr
      (Do "peer.Routes"
        (Go (Ticker ["RefreshJob"] (Some "ctx.Done") (Do "refreshTicker.Stop" End))
          (Call "app.Listen" Fatal (Call "app.Shutdown" onerr onok))))).
Definition boot_port (Getenv : string -> string) : string := env_or Getenv "BOOT_API_PORT" "8089".

(** A goroutine that ends the process on an error of its service. *)
Definition service (new : list string) (run : string) : prog := each new (Call run Fatal End).

Definition node_main : prog :=
  Call "logscribeconsumer.Start" End
    (Do "bus.New"
      (Logged "libp2pSetup.NewHost"
        (Logged "libp2pSetup.MakePubsub"
          (Call "libp2pSetup.ConnectThroughBootApi" End
            (Go (Defer DRecover (each ["time.Sleep"; "ping.Run"] (OsExit 1)))
              (GoWg (admin_Run Fatal End)
                (Call "admin.SyncMikoConfig" End
                  (GoWg (service ["fetcher.New"] "fetcher.Run")
                    (GoWg (service ["aggregator.New"] "aggregator.Run")
                      (GoWg (service ["helper.New"] "helper.Run") (WgWait End))))))))))).

(** The connection is tried five times, with pauses of up to 30 s. *)
Definition connect {St} (job : St -> St * option error) (rand : nat -> option Z) (s : St) : St * option error * list Z :=
  Retrier.Retry job rand 5 (10 * Second) (30 * Second) s.

(** The port that serves the answer of a command that has no API. *)
Definition http_server : prog := Do "http.HandleFunc" (Call "http.ListenAndServe" Fatal End).
Definition sentinel_port (Getenv : string -> string) : string := env_or Getenv "POR_PORT" "3000".

Definition sentinel_services : list string :=
  ["balance.Start"; "health.Start"; "event.Start"; "signer.Start"; "peers.Start"; "dal.Start"; "dalstats.Start";
   "dbcronjob.Start"; "offset.Start"; "inspect.Start"].
Definition sentinel_main : prog :=
  Call "logscribeconsumer.Start" End
    (GoWg http_server (foldr (fun c => GoWg (service [] c)) (WgWait End) sentinel_services)).

Definition fetcher_main : prog :=
  Defer (DCall "cancel")
    (Do "bus.New"
      (GoWg (admin_Run End End)
        (Call "admin.SyncMikoConfig" End (GoWg (Do "fetcher.New" (Call "fetcher.Run" End End)) (WgWait End))))).

Definition admin_main : prog := Do "bus.New" (admin_Run End End).

Definition api_SetRouter : list string :=
  ["apierr.Routes"; "chain.Routes"; "listener.Routes"; "proxy.Routes"; "reporter.Routes"; "service.Routes"; "vrf.Routes";
   "blocks.Routes"].
Definition api_main : prog :=
  Defer (DCall "cancel")
    (Logged "godotenv.Load"
      (Call "logscribeconsumer.Start" End
        (Call "utils.LoadEnvVars" Panic
          (Call "utils.Setup" Panic
            (Defer (DCall "postgres.Close") (each api_SetRouter (Call "app.Listen" Panic End))))))).

Definition delegator_SetRouter : list string :=
  ["contract.Routes"; "sign.Routes"; "function.Routes"; "organization.Routes"; "reporter.Routes"].
Definition delegator_main : prog :=
  Defer (DCall "cancel")
    (Logged "godotenv.Load"
      (Call "logscribeconsumer.Start" End
        (Call "utils.Setup" Panic
          (Defer (DCall "postgres.Close") (each delegator_SetRouter (Call "app.Listen" Panic End)))))).
Definition delegator_port (Getenv : string -> string) : string := env_or Getenv "APP_PORT" "3000".

Definition reporter_main : prog :=
  Defer (DCall "cancel")
    (Call "logscribeconsumer.Start" End
      (each ["signal.Notify"; "reporter.New"]
        (Call "reporter.Run" (Do "cancel" End) (Go http_server (Receive (Some "sigChan") (Do "cancel" End)))))).
Definition reporter_port (Getenv : string -> string) : string := env_or Getenv "REPORTER_PORT" "3000".

(** [envFile]: the value of the flag. *)
Definition LoadEnvFromFile (envFile : string) (k : prog) : prog :=
  Do "flag.Parse" (if bool_decide (envFile = "") then k else Call "godotenv.Load" Panic k).
Definition dal_main (envFile : string) : prog :=
  Defer (DCall "cancel") (LoadEnvFromFile envFile (Call "logscribeconsumer.Start" End (Call "dal.Run" Fatal End))).

Definition boot_api_main : prog :=
  Defer (DCall "cancel") (Call "logscribeconsumer.Start" End (boot_Run Fatal End)).

Definition por_main : prog :=
  Call "logscribeconsumer.Start" End (Call "por.New" Panic (Call "app.Run" Panic End)).

Definition logscribe_main : prog :=
  Do "zerolog.SetGlobalLevel" (Defer (DCall "cancel") (Call "logscribe.Run" (Do "cancel" End) End)).

Inductive Level : Type := DebugLevel | InfoLevel | WarnLevel | ErrorLevel | FatalLevel | PanicLevel.
Definition getLogLevel (input : string) : Level :=
  let s := Text.ToLower input in
  if bool_decide (s = "debug") then DebugLevel
  else if bool_decide (s = "info") then InfoLevel
  else if bool_decide (s = "warn") then WarnLevel
  else if bool_decide (s = "error") then ErrorLevel
  else if bool_decide (s = "fatal") then FatalLevel
  else if bool_decide (s = "panic") then PanicLevel
  else InfoLevel.
Definition logLevel (Getenv : string -> string) : Level := getLogLevel (env_or Getenv "LOG_LEVEL" "info").
(** ** What the commands do *)

(** Commands that start services: what has to succeed first, and the services. *)
Definition supervised : list (prog * list string * list string) :=
  [(node_main, ["logscribeconsumer.Start"; "libp2pSetup.ConnectThroughBootApi"; "admin.SyncMikoConfig"],
    ["fetcher.Run"; "aggregator.Run"; "helper.Run"]);
   (sentinel_main, ["logscribeconsumer.Start"], "http.ListenAndServe" :: sentinel_services)].

Lemma supervised_checks : forallb (fun '(p, startup, services) => supervises p startup services) supervised = true.
Proof. vm_compute. reflexivity. Qed.

(** C17: in every interleaving and whatever the called functions return, the node
    calls [fetcher.Run], [aggregator.Run] and [helper.Run] only after the log
    consumer, the connection through the boot API and the configuration sync
    returned without error, and the sentinel its services only after the log
    consumer did; a failed [NewHost] or [MakePubsub] is only logged and does not
    count here, nor does the admin service, which is started before the sync.
    Each of these services that returns an error leaves a goroutine whose next
    step ends the process with code 1, and the process does not end with code 0
    after it, unless a called function itself exits with 0.  Code 0 is reached
    only when a called function exited with it, when one of the named start-up
    calls failed, or when all these services returned without error. *)
Theorem services_supervised p startup services s :
  (p, startup, services) ∈ supervised -> reachable p s ->
  (forall c t1 o t2 d, c ∈ services -> d ∈ startup -> trace s = t1 ++ ECall c o :: t2 -> ECall d (Returned None) ∈ t1) /\
  (forall c e, c ∈ services -> ECall c (Returned (Some e)) ∈ trace s ->
    (status s = None -> exists i, forall ch, exists s', run_step i ch s = Some s' /\ status s' = Some 1) /\
    (status s = Some 0 -> exists c', ECall c' (Exits 0) ∈ trace s)) /\
  (status s = Some 0 -> (exists c, ECall c (Exits 0) ∈ trace s) \/
    (exists d e, d ∈ startup /\ ECall d (Returned (Some e)) ∈ trace s) \/
    Forall (fun c => ECall c (Returned None) ∈ trace s) services).
Proof.
  intros Hin. apply supervises_sound. pose proof supervised_checks as H. rewrite forallb_forall in H.
  exact (H _ (proj1 (list_elem_of_In _ _) Hin)).
Qed.

(** A run of the node in which the fetcher fails while the other services run. *)
Definition ok : choice := Answer (Returned None).
Definition err (e : string) : choice := Answer (Returned (Some (External e))).
Definition w_run : list (nat * choice) :=
  replicate 6 (0%nat, ok) ++       (* main: up to the goroutine of the pings *)
  replicate 2 (0%nat, ok) ++       (* the admin service *)
  replicate 3 (0%nat, ok) ++       (* the synchronisation and the fetcher *)
  [(3%nat, ok); (3%nat, ok); (3%nat, err "fetcher")].

Lemma services_supervised_witness : exists s i,
  run_steps w_run (start node_main) = Some s /\ ECall "fetcher.Run" (Returned (Some (External "fetcher"))) ∈ trace s /\
  ECall "admin.SyncMikoConfig" (Returned None) ∈ trace s /\
  exists s', run_step i ok s = Some s' /\ status s' = Some 1.
Proof.
  destruct (run_steps w_run (start node_main)) as [s|] eqn:Hs; [|by vm_compute in Hs].
  pose proof (run_steps_reachable _ _ _ Hs) as Hr.
  destruct (services_supervised node_main ["logscribeconsumer.Start"; "libp2pSetup.ConnectThroughBootApi"; "admin.SyncMikoConfig"]
    ["fetcher.Run"; "aggregator.Run"; "helper.Run"] s) as (_ & Hf & _); [by left|exact Hr|].
  assert (ECall "fetcher.Run" (Returned (Some (External "fetcher"))) ∈ trace s /\
    ECall "admin.SyncMikoConfig" (Returned None) ∈ trace s /\ status s = None) as (H1 & H2 & H3).
  { vm_compute in Hs. injection Hs as <-. simpl. split; [|split; [|done]]; repeat (apply elem_of_cons; (by left) || right). }
  destruct (Hf "fetcher.Run" (External "fetcher")) as [Hx _]; [by left|exact H1|].
  destruct (Hx H3) as (i & Hi). exists s, i. split_and!; [done|exact H1|exact H2|apply (Hi ok)].
Defined.

(** An error of the admin service ends the node as well. *)
Lemma node_admin_fatal s c e :
  c = "admin/utils.Setup" \/ c = "app.Listen" -> reachable node_main s ->
  ECall c (Returned (Some e)) ∈ trace s -> status s = None -> exists g, g ∈ routines s /\ code g = OsExit 1.
Proof. intros [-> | ->]; apply fatal_exits; by vm_compute. Qed.

(** The calls whose errors end a command with code 0. *)
Definition failed (f : fact) : option string := match f with Failed c => Some c | _ => None end.
Definition silent (p : prog) : list string := remove_dups (ends [] [] p ≫= omap failed).

(** A log consumer that cannot be started ends a command as if nothing had been
    wrong; so does a failed synchronisation, or the start of the reporter and of
    the log service.  The DAL, the boot node, proof of reserve and the two APIs
    end with another code on other errors. *)
Lemma silent_failures :
  "logscribeconsumer.Start" ∈ silent node_main /\ "admin.SyncMikoConfig" ∈ silent node_main /\
  silent sentinel_main = ["logscribeconsumer.Start"] /\ "reporter.Run" ∈ silent reporter_main /\
  silent (dal_main "") = ["logscribeconsumer.Start"] /\
  silent por_main = ["logscribeconsumer.Start"] /\ "logscribe.Run" ∈ silent logscribe_main /\
  "app.Listen" ∉ silent api_main /\ "app.Listen" ∉ silent delegator_main /\ "app.Listen" ∉ silent boot_api_main.
Proof. repeat (split; [apply (bool_decide_eq_true_1 _); vm_compute; reflexivity|]). by apply (bool_decide_eq_true_1 _). Qed.

(** A node that could not make its host goes on and connects without one. *)
Lemma node_goes_on_without_host : exists s e,
  reachable node_main s /\ ECall "libp2pSetup.NewHost" (Returned (Some e)) ∈ trace s /\
  ECall "libp2pSetup.ConnectThroughBootApi" Panicked ∈ trace s /\ status s = Some 2.
Proof.
  destruct (run_steps [(0%nat, ok); (0%nat, ok); (0%nat, err "host"); (0%nat, ok); (0%nat, Answer Panicked)] (start node_main))
    as [s|] eqn:Hs; [|by vm_compute in Hs].
  exists s, (External "host"). split; [by eapply run_steps_reachable|]. vm_compute in Hs. injection Hs as <-. simpl.
  split_and!; [..|done]; repeat (apply elem_of_cons; (by left) || right).
Qed.

(** A panic of the network checks is recovered, and with it the end of the
    process that is to follow them is left out: the node runs on unchecked. *)
Lemma node_ping_panic_ignored : exists s,
  reachable node_main s /\ ECall "ping.Run" Panicked ∈ trace s /\ status s = None /\
  Forall (fun g => code g <> OsExit 1) (routines s).
Proof.
  destruct (run_steps (replicate 6 (0%nat, ok) ++ [(1%nat, ok); (1%nat, ok); (1%nat, Answer Panicked)]) (start node_main))
    as [s|] eqn:Hs; [|by vm_compute in Hs].
  exists s. split; [by eapply run_steps_reachable|]. vm_compute in Hs. injection Hs as <-. simpl.
  split_and!; [repeat (apply elem_of_cons; (by left) || right)|done|by repeat constructor].
Qed.

(** The fetcher command goes on without its admin service, or without its
    fetcher: their errors are only logged. *)
Lemma fetcher_errors_ignored s : reachable fetcher_main s -> status s = Some 0 ->
  (exists c, ECall c (Exits 0) ∈ trace s) \/
  (exists e, ECall "admin.SyncMikoConfig" (Returned (Some e)) ∈ trace s) \/
  ((exists r, ECall "fetcher.Run" (Returned r) ∈ trace s) /\
   ((exists e, ECall "admin/utils.Setup" (Returned (Some e)) ∈ trace s) \/ ECall "app.Listen" (Returned None) ∈ trace s)).
Proof.
  intros Hr Hs. destruct (exit_zero fetcher_main ltac:(by vm_compute) s Hr Hs) as [?|(path & Hin & Hh)]; [by left|right].
  set (admin := admin_Run End End). set (body := Do "fetcher.New" (Call "fetcher.Run" End End)).
  assert (Failed "admin.SyncMikoConfig" ∈ path \/ (Joined admin ∈ path /\ Joined body ∈ path)) as [Hf|[Ha Hb]].
  { pose proof (forallb_elem (fun q => bool_decide (Failed "admin.SyncMikoConfig" ∈ q) ||
      bool_decide (Joined admin ∈ q) && bool_decide (Joined body ∈ q)) (ends [] [] fetcher_main) path ltac:(by vm_compute) Hin) as Hb. simpl in Hb.
    apply orb_true_iff in Hb as [?|?]; breflect; auto. }
  - left. rewrite Forall_forall in Hh. by apply (Hh _ Hf).
  - right. rewrite Forall_forall in Hh. destruct (Hh _ Ha) as (pa & Hpa & Hsa). destruct (Hh _ Hb) as (pb & Hpb & Hsb).
    rewrite Forall_forall in Hsa, Hsb. split.
    + assert (Failed "fetcher.Run" ∈ pb \/ Succeeded "fetcher.Run" ∈ pb) as [Hx|Hx].
      { pose proof (forallb_elem (fun q => bool_decide (Failed "fetcher.Run" ∈ q) || bool_decide (Succeeded "fetcher.Run" ∈ q))
          (ends [] [] body) pb ltac:(by vm_compute) Hpb) as Hx. simpl in Hx.
        apply orb_true_iff in Hx as [?|?]; breflect; auto. }
      * destruct (Hsb _ Hx) as [e He]. by exists (Some e).
      * exists None. by apply (Hsb _ Hx).
    + pose proof (forallb_elem (fun q => bool_decide (Failed "admin/utils.Setup" ∈ q) || bool_decide (Succeeded "app.Listen" ∈ q))
        (ends [] [] admin) pa ltac:(by vm_compute) Hpa) as Hall. simpl in Hall.
      apply orb_true_iff in Hall as [Hx|Hx]; breflect; [left|right]; by apply (Hsa _ Hx).
Qed.

(** The connection is tried at most five times; it fails with the last error. *)
Lemma connect_bounded {St} (job : St -> St * option error) rand s s' e sleeps :
  connect job rand s = (s', e, sleeps) ->
  (length sleeps <= 5)%nat /\ Forall (fun d => d <= 30 * Second) sleeps /\ (e <> None -> length sleeps = 5%nat).
Proof.
  intros [Hall Hd]%Retrier.retry_loop_spec. split_and!; [|done|].
  - destruct Hd as [(_ & ? & _)|[-> _]]; lia.
  - intros He. destruct Hd as [(-> & _)|[-> _]]; done.
Qed.

(** Levels are read whatever their case; anything else is the level "info". *)
Lemma getLogLevel_lower input : getLogLevel (Text.ToLower input) = getLogLevel input.
Proof.
  unfold getLogLevel. replace (Text.ToLower (Text.ToLower input)) with (Text.ToLower input); [done|].
  unfold Text.ToLower. rewrite Text.chars_text, <- list_fmap_compose. f_equal. apply list_fmap_ext. intros _ c _. simpl.
  destruct c as [[] [] [] [] [] [] [] []]; reflexivity.
Qed.
End Commands.
