(* ===== verification/Sentinel.v ===== *)
(** * The sentinel with its checkers

    The [Start] functions of [node/pkg/checker] as programs of [Mains.Process],
    put into the command that runs them.  What a check does is in [Checkers.v] and
    [Monitors.v]; here is how the checkers start, go on and fail together.  The
    deferred stopping of tickers and closing of pools, which only release
    resources of a checker that returns, are left out. *)

From S2P Require Import Prelude Errors Mains.
Import Process Runs Commands.

Local Open Scope Z_scope.

Module Sentinel.

(** [ctx]: what comes when the context is done; [None] for a context that never
    is, such as [context.Background()].  [onerr], [onok]: what follows a return with
    an error and without.  A missing secret or variable is the error of a call of
    its name. *)
Section starts.
Context (ctx : option string) (onerr onok : prog).

Definition offset_Start : prog :=
  Call "offset SERVICE_DB_URL" onerr
    (Call "offset db.GetTransientPool" onerr (Ticker ["checkOffsets"] ctx onerr)).

(** A cron job runs in a goroutine of the scheduler. *)
Definition inspect_Start : prog :=
  Call "inspect.Setup" onerr
    (Call "inspect AddFunc" onerr (Go (Ticker ["inspector.Inspect"] None End) (Receive ctx onok))).

Definition dalstats_Start : prog :=
  Call "dalstats DAL_DB_CONNECTION_URL" onerr
    (Call "dalstats db.GetTransientPool" onerr
      (Call "dalstats AddFunc" onerr (Go (Ticker ["dalDBStats"] None End) (Receive ctx onok)))).

Definition dbcronjob_Start : prog :=
  Call "dbcronjob CRON_DB_CONNECTION_URL" onerr
    (Call "dbcronjob db.GetTransientPool" onerr (Ticker ["cronDBResult"] ctx onerr)).

(** The only checker that an error of a check ends. *)
Definition signer_Start : prog :=
  Call "signer.setUp" onerr (Call "signer.check" onerr (TickerErr "signer.check" onerr)).

Definition balance_Start : prog :=
  Call "balance.setUp" onerr (Ticker ["updateBalances"; "balance.alarm"] None onok).

Definition event_Start : prog :=
  Call "event.setUp" onerr (Do "checkGroupedFeeds" (Ticker ["checkPorAndVrf"] None onok)).

Definition health_Start : prog := Call "health.setUp" onerr (Ticker ["health checks"] None onok).

Definition peers_Start : prog := Call "peers.setUp" onerr (Ticker ["checkPeerCounts"] None onok).

Definition dal_Start : prog :=
  Call "dal CHAIN" onerr
    (Call "dal DAL_API_KEY" onerr
      (Call "dal fetchConfigs" onerr
        (Call "dal wss.NewWebsocketHelper" onerr
          (Go (Do "wsHelper.Run" End)
            (Call "dal DAL_DB_CONNECTION_URL" onerr
              (Call "dal db.GetTransientPool" onerr
                (Ticker ["checkDal; checkDalWs; checkDalTraffic"] None onok))))))).
End starts.

(** The goroutines of the sentinel, whose context is [context.Background()]. *)
Definition checkers : list prog :=
  [balance_Start Fatal End; health_Start Fatal End; event_Start Fatal End; signer_Start Fatal; peers_Start Fatal End;
   dal_Start Fatal End; dalstats_Start None Fatal End; dbcronjob_Start None Fatal; offset_Start None Fatal;
   inspect_Start None Fatal End].
Definition sentinel : prog :=
  Call "logscribeconsumer.Start" End (GoWg http_server (foldr GoWg (WgWait End) checkers)).

(** The calls whose errors end the sentinel: all of the set-ups, and the check of
    the signers. *)
Definition fatal_calls : list string :=
  ["http.ListenAndServe"; "balance.setUp"; "health.setUp"; "event.setUp"; "signer.setUp"; "signer.check"; "peers.setUp";
   "dal CHAIN"; "dal DAL_API_KEY"; "dal fetchConfigs"; "dal wss.NewWebsocketHelper"; "dal DAL_DB_CONNECTION_URL";
   "dal db.GetTransientPool"; "dalstats DAL_DB_CONNECTION_URL"; "dalstats db.GetTransientPool"; "dalstats AddFunc";
   "dbcronjob CRON_DB_CONNECTION_URL"; "dbcronjob db.GetTransientPool"; "offset SERVICE_DB_URL";
   "offset db.GetTransientPool"; "inspect.Setup"; "inspect AddFunc"].
(** The checks. *)
Definition ticks : list string :=
  ["updateBalances"; "balance.alarm"; "health checks"; "checkPorAndVrf"; "checkPeerCounts";
   "checkDal; checkDalWs; checkDalTraffic"; "dalDBStats"; "cronDBResult"; "checkOffsets"; "inspector.Inspect"].

Lemma sentinel_disciplined : disciplined sentinel = true.
Proof. by vm_compute. Qed.
Lemma sentinel_fatal : forallb (fun c => fatal 1 c sentinel) fatal_calls = true.
Proof. by vm_compute. Qed.

(** Every way to the end of the main goroutine but a failed start of the log
    consumer leads over a goroutine that has no end. *)
Lemma sentinel_ends : forallb (fun path => bool_decide (path = [Failed "logscribeconsumer.Start"]) ||
  existsb (fun f => match f with Joined b => bool_decide (ends [] [] b = []) | _ => false end) path) (ends [] [] sentinel) = true.
Proof. by vm_compute. Qed.

(** A sentinel that has started goes on for ever or ends with an error: it
    ends with code 0 only when its log consumer could not be started; an error of
    any set-up, and of a check of the signers, ends it with all its checkers. *)
Theorem sentinel_runs_on s :
  reachable sentinel s ->
  (status s = Some 0 -> (exists c, ECall c (Exits 0) ∈ trace s) \/
    exists e, ECall "logscribeconsumer.Start" (Returned (Some e)) ∈ trace s) /\
  (forall c e, c ∈ fatal_calls -> ECall c (Returned (Some e)) ∈ trace s -> status s = None ->
    exists g, g ∈ routines s /\ code g = OsExit 1) /\
  (forall c t1 o t2, trace s = t1 ++ ECall c o :: t2 -> c ∈ fatal_calls \/ c ∈ ticks ->
    ECall "logscribeconsumer.Start" (Returned None) ∈ t1).
Proof.
  intros Hs. split_and!.
  - intros H0. destruct (exit_zero sentinel sentinel_disciplined s Hs H0) as [?|(path & Hin & Hh)]; [by left|right].
    pose proof (forallb_elem _ _ path sentinel_ends Hin) as Hp. simpl in Hp. apply orb_true_iff in Hp as [Hp|Hp].
    + breflect. subst path. apply Forall_cons in Hh as [Hh _]. exact Hh.
    + apply existsb_exists in Hp as (f & Hf & Hj). apply list_elem_of_In in Hf. rewrite Forall_forall in Hh.
      destruct f as [| |b]; try done. breflect. destruct (Hh _ Hf) as (q & Hq & _). rewrite Hj in Hq. by apply not_elem_of_nil in Hq.
  - intros c e Hc. apply (fatal_exits sentinel 1 c s e); [|done]. exact (forallb_elem _ _ c sentinel_fatal Hc).
  - intros c t1 o t2 Ht Hc.
    apply (requires_sound sentinel sentinel_disciplined c (Succeeded "logscribeconsumer.Start") s t1 o t2); [|done|done].
    apply (forallb_elem (fun c => requires sentinel c (Succeeded "logscribeconsumer.Start")) (fatal_calls ++ ticks)); [by vm_compute|].
    by apply elem_of_app.
Qed.

(** The errors of all other checks are logged, and nothing changes. *)
Lemma tick_errors_harmless i j e g jobs stop k (s s' : process) :
  routines s !! i = Some g -> code g = Ticker jobs stop k ->
  run_step i (Tick j (Returned (Some e))) s = Some s' -> routines s' = routines s /\ status s' = None.
Proof.
  intros Hg Hc. unfold run_step. destruct (status s); [done|]. rewrite Hg. unfold exec. rewrite Hc.
  destruct (jobs !! j); [|done]. simpl. intros [= <-]. simpl. rewrite app_nil_r. split; [|done]. by apply list_insert_id.
Qed.

(** ** Witness: a check of the signers fails while the other checkers start *)
Definition w_run : list (nat * choice) :=
  (0%nat, ok) :: replicate 10 (0%nat, ok) ++        (* the log consumer and five goroutines *)
  [(5%nat, ok); (5%nat, ok); (5%nat, ok); (5%nat, ok); (5%nat, err "rpc")].

Lemma sentinel_runs_on_witness : exists s g,
  run_steps w_run (start sentinel) = Some s /\ ECall "signer.check" (Returned (Some (External "rpc"))) ∈ trace s /\
  g ∈ routines s /\ code g = OsExit 1.
Proof.
  destruct (run_steps w_run (start sentinel)) as [s|] eqn:Hs; [|by vm_compute in Hs].
  destruct (sentinel_runs_on s) as (_ & Hf & _); [by eapply run_steps_reachable|].
  assert (ECall "signer.check" (Returned (Some (External "rpc"))) ∈ trace s /\ status s = None) as (H1 & H3).
  { vm_compute in Hs. injection Hs as <-. simpl. split; [|done]. repeat (apply elem_of_cons; (by left) || right). }
  destruct (Hf "signer.check" (External "rpc")) as (g & Hg & Hc); [|exact H1|exact H3|].
  { apply (bool_decide_eq_true_1 (_ ∈ fatal_calls)). by vm_compute. }
  exists s, g. split_and!; done.
Defined.
End Sentinel.
