(* ===== verification/Scripts.v ===== *)
(** * The script that collects health check URLs

    [node/script/collect-healthcheck-urls/main.go]: from the services and pods of
    a cluster to the list that the health checker reads ([Monitors.Health]).  The
    Kubernetes client is third-party code: the lists it returns are arguments, with
    the fields the script reads. *)

From S2P Require Import Prelude Errors Text Strings Monitors.
Import Text.

Local Open Scope Z_scope.
Local Open Scope go_scope.

Module HealthUrls.
Import Health.

Record ServicePort : Type := mkPort { sp_Name : string; sp_Port : Z }.
Record Service : Type := mkService { s_Name : string; s_Namespace : string; s_Ports : list ServicePort }.
(** [HTTPGet]: its path, when the probe is an HTTP request. *)
Record Probe : Type := mkProbe { HTTPGet : option string }.
Record Container : Type := mkContainer { ReadinessProbe : option Probe }.
Record Pod : Type := mkPod { p_Name : string; p_Containers : list Container }.

Definition getHealthPort (service : Service) : Z :=
  match find (fun port => bool_decide (sp_Name port = "healthcheck")) (s_Ports service) with
  | Some port => sp_Port port
  | None => match s_Ports service with port :: _ => sp_Port port | [] => 0 end
  end.

Definition getRelatedPods (pods : list Pod) (service : Service) : list Pod :=
  filter (fun pod => HasPrefix (p_Name pod) (s_Name service) = true) pods.

Definition host (service : Service) : string :=
  (s_Name service +:+ "." +:+ s_Namespace service +:+ ".svc.cluster.local:" +:+ Itoa (getHealthPort service))%string.

(** The path of a container's HTTP probe. *)
Definition httpPath (c : Container) : option string := ReadinessProbe c ≫= HTTPGet.

(** An error of listing ends the process with code 1 ([handleError]). *)
Definition getHealthCheckHttp (services : res (list Service)) (pods : res (list Pod)) : res (list HealthCheckUrl) :=
  let? services := services in
  let? pods := pods in
  Ok (services ≫= fun service =>
        getRelatedPods pods service ≫= fun pod =>
          omap (fun c => (fun path => mkUrl (s_Name service) ("http://" +:+ host service +:+ path)%string) <$> httpPath c)
            (p_Containers pod)).

(** [container.ReadinessProbe == nil && container.ReadinessProbe.HTTPGet == nil]
    reads a field of a nil pointer when there is no probe ([None]), and is false
    otherwise. *)
Definition redis_container (service : Service) (c : Container) : option (list HealthCheckUrl) :=
  match ReadinessProbe c with
  | None => None
  | Some _ => Some [mkUrl (s_Name service) ("redis://" +:+ host service)%string]
  end.
Fixpoint collect {A B} (f : A -> option (list B)) (l : list A) : option (list B) :=
  match l with
  | [] => Some []
  | x :: l => match f x with None => None | Some y => match collect f l with None => None | Some ys => Some (y ++ ys) end end
  end.
Definition getHealthCheckRedis (services : res (list Service)) (pods : res (list Pod)) : res (option (list HealthCheckUrl)) :=
  let? services := services in
  let? pods := pods in
  Ok (collect (fun service =>
        collect (fun pod => collect (redis_container service) (p_Containers pod)) (getRelatedPods pods service)) services).

(** [Join] is [filepath.Join]. *)
Definition getSavePath (Join : list string -> string) (Getwd : res string) (chain : string) : res string :=
  let? wd := Getwd in
  Ok (Join [wd; "pkg/checker/health"; (chain +:+ "_healthcheck.json")%string]).

(** How the script ends: what it writes to which file, or the code of the
    process.  [Create] and [Encode]: the errors of the file. *)
Inductive Ends : Type := Written (path : string) (urls : list HealthCheckUrl) | Exited (code : Z).
Definition main (Join : list string -> string) (clientConfig newForConfig : option error)
    (services : string -> res (list Service)) (podsOf : string -> res (list Pod))
    (Getwd : res string) (chain : string) (Create : string -> option error) (Encode : option error) : Ends :=
  match clientConfig, newForConfig with
  | Some _, _ | _, Some _ => Exited 2
  | None, None =>
      match getHealthCheckHttp (services "orakl"%string) (podsOf "orakl"%string) with
      | Err _ => Exited 1
      | Ok http =>
          match getHealthCheckRedis (services "redis"%string) (podsOf "redis"%string) with
          | Err _ => Exited 1
          | Ok None => Exited 2
          | Ok (Some redis) =>
              match getSavePath Join Getwd chain with
              | Err _ => Exited 2
              | Ok path =>
                  match Create path, Encode with
                  | None, None => Written path (http ++ redis)
                  | _, _ => Exited 2
                  end
              end
          end
      end
  end.

(** ** What is collected *)

(** The port called "healthcheck" is preferred, whatever its place. *)
Theorem getHealthPort_spec service :
  (exists port, port ∈ s_Ports service /\ sp_Name port = "healthcheck" /\ getHealthPort service = sp_Port port) \/
  ((forall port, port ∈ s_Ports service -> sp_Name port <> "healthcheck") /\
   getHealthPort service = default 0 (sp_Port <$> head (s_Ports service))).
Proof.
  unfold getHealthPort. destruct (find _ _) as [port|] eqn:Hf.
  - apply find_some in Hf as [Hin Hn]. breflect. left. exists port. by rewrite list_elem_of_In.
  - right. split; [|by destruct (s_Ports service)]. intros port Hin Hn. apply list_elem_of_In in Hin.
    pose proof (find_none _ _ Hf port Hin) as H. simpl in H. by rewrite bool_decide_true in H.
Qed.

(** One URL for every container with an HTTP probe, of every pod whose name
    begins with the name of the service. *)
Theorem http_exact services pods u :
  (exists l, getHealthCheckHttp (Ok services) (Ok pods) = Ok l /\ u ∈ l) <->
  exists service pod c path, service ∈ services /\ pod ∈ pods /\ HasPrefix (p_Name pod) (s_Name service) = true /\
    c ∈ p_Containers pod /\ httpPath c = Some path /\
    u = mkUrl (s_Name service) ("http://" +:+ host service +:+ path)%string.
Proof.
  unfold getHealthCheckHttp, getRelatedPods. simpl. split.
  - intros (l & [= <-] & Hin). apply list_elem_of_bind in Hin as (service & Hin & Hs).
    apply list_elem_of_bind in Hin as (pod & Hin & Hp). apply list_elem_of_filter in Hp as [Hpre Hp].
    apply list_elem_of_omap in Hin as (c & Hc & Hu). apply fmap_Some in Hu as (path & Hpath & ->).
    by exists service, pod, c, path.
  - intros (service & pod & c & path & Hs & Hp & Hpre & Hc & Hpath & ->). eexists. split; [done|].
    apply list_elem_of_bind. exists service. split; [|done]. apply list_elem_of_bind. exists pod.
    split; [|by apply list_elem_of_filter]. apply list_elem_of_omap. exists c. split; [done|]. by rewrite Hpath.
Qed.

Lemma collect_None {A B} (f : A -> option (list B)) l : collect f l = None <-> exists x, x ∈ l /\ f x = None.
Proof.
  induction l as [|x l IH]; simpl.
  - split; [done|]. intros (x & Hx & _). by apply not_elem_of_nil in Hx.
  - destruct (f x) as [y|] eqn:Hx.
    + destruct (collect f l) as [ys|].
      * split; [done|]. intros (z & [->|Hz]%elem_of_cons & Hn); [congruence|]. discriminate (proj2 IH (ex_intro _ z (conj Hz Hn))).
      * split; [intros _|done]. destruct (proj1 IH eq_refl) as (z & Hz & Hn). exists z. split; [by right|done].
    + split; [intros _|done]. exists x. split; [by left|done].
Qed.
Lemma collect_elem {A B} (f : A -> option (list B)) l ys y : collect f l = Some ys -> y ∈ ys ->
  exists x zs, x ∈ l /\ f x = Some zs /\ y ∈ zs.
Proof.
  revert ys. induction l as [|x l IH]; intros ys; simpl; [intros [= <-] H; by apply not_elem_of_nil in H|].
  destruct (f x) as [zs|] eqn:Hx; [|done]. destruct (collect f l) as [ws|]; [|done]. intros [= <-] [Hy|Hy]%elem_of_app.
  - exists x, zs. split; [by left|done].
  - destruct (IH ws eq_refl Hy) as (x' & zs' & H1 & H2 & H3). exists x', zs'. split; [by right|done].
Qed.

(** The script panics exactly when a container of a redis pod has no readiness
    probe: the very case its condition is there for. *)
Theorem redis_panics_iff services pods :
  getHealthCheckRedis (Ok services) (Ok pods) = Ok None <->
  exists service pod c, service ∈ services /\ pod ∈ pods /\ HasPrefix (p_Name pod) (s_Name service) = true /\
    c ∈ p_Containers pod /\ ReadinessProbe c = None.
Proof.
  unfold getHealthCheckRedis, getRelatedPods. simpl. split.
  - intros [= H]. apply collect_None in H as (service & Hs & H). apply collect_None in H as (pod & Hp & H).
    apply list_elem_of_filter in Hp as [Hpre Hp]. apply collect_None in H as (c & Hc & H).
    exists service, pod, c. split_and!; try done. unfold redis_container in H. by destruct (ReadinessProbe c).
  - intros (service & pod & c & Hs & Hp & Hpre & Hc & Hn). f_equal. apply collect_None. exists service. split; [done|].
    apply collect_None. exists pod. split; [by apply list_elem_of_filter|]. apply collect_None. exists c. split; [done|].
    unfold redis_container. by rewrite Hn.
Qed.


(** The health checker treats what is collected as it is meant: HTTP URLs with a
    request, redis URLs with a ping of the host and port. *)
Theorem collected_urls_checked services pods (P : Health.Probe) u :
  (forall l, getHealthCheckHttp (Ok services) (Ok pods) = Ok l -> u ∈ l -> checkUrl P u = checkHttp P (h_Url u)) /\
  (forall l, getHealthCheckRedis (Ok services) (Ok pods) = Ok (Some l) -> u ∈ l ->
    exists service, service ∈ services /\ checkUrl P u = match redis_Ping P (host service) with Some _ => false | None => true end).
Proof.
  split.
  - intros l Hl Hin. destruct (proj1 (http_exact services pods u)) as (service & pod & c & path & _ & _ & _ & _ & _ & ->); [by exists l|].
    pose proof (HasPrefix_app "http" ("://" +:+ host service +:+ path)%string) as Hpre.
    change ("http" +:+ "://" +:+ host service +:+ path)%string with ("http://" +:+ host service +:+ path)%string in Hpre.
    unfold checkUrl. cbn [h_Url]. by rewrite Hpre.
  - intros l Hl Hin. unfold getHealthCheckRedis in Hl. simpl in Hl. injection Hl as Hl.
    apply (collect_elem _ _ _ _ Hl) in Hin as (service & zs & Hs & Hz & Hin). exists service. split; [done|].
    apply (collect_elem _ _ _ _ Hz) in Hin as (pod & zs' & _ & Hz' & Hin).
    apply (collect_elem _ _ _ _ Hz') in Hin as (c & zs'' & _ & Hz'' & Hin).
    unfold redis_container in Hz''. destruct (ReadinessProbe c); [|done]. injection Hz'' as <-.
    apply list_elem_of_singleton in Hin as ->. unfold checkUrl, checkRedis. cbn [h_Url].
    rewrite (TrimPrefix_app "redis://" (host service)). reflexivity.
Qed.

(** The pods of one service can count as those of another. *)
Example prefix_is_shared :
  getRelatedPods [mkPod "redis-0" []; mkPod "redis-sentinel-0" []] (mkService "redis" "redis" []) =
    [mkPod "redis-0" []; mkPod "redis-sentinel-0" []].
Proof. vm_compute. reflexivity. Qed.
Example no_port_is_zero : host (mkService "api" "orakl" []) = "api.orakl.svc.cluster.local:0".
Proof. vm_compute. reflexivity. Qed.
End HealthUrls.
