(* ===== verification/Web.v ===== *)
(** * What the HTTP services share

    The helpers that [api/utils/utils.go], [delegator/utils/utils.go] and
    [boot/utils/utils.go] repeat around the web framework: the answers to errors
    and panics, and the queries of handlers; the set-up of the delegator.  The
    framework and the database driver are third-party code: what they answer is an
    argument. *)

From S2P Require Import Prelude Errors Text Delegator Network.
Import Delegator.Handler Delegator.Sign.

Local Open Scope Z_scope.
Local Open Scope go_scope.

(** ** Errors *)
Module ErrorHandlers.
Import Fiber.

Record Response : Type := mkResponse { status : Z; content_type : string; body : string; logged : bool }.

(** [code]: the code of the error, when the framework made it.  A log event is
    written by its [Msg] only: that of the two APIs has none. *)
Definition respond (logs : bool) (code : option Z) (err : error) : Response :=
  mkResponse (default 500 code) "text/plain; charset=utf-8" (Error err) logs.
Definition api_CustomErrorHandler : option Z -> error -> Response := respond false.
Definition delegator_CustomErrorHandler : option Z -> error -> Response := respond false.
Definition boot_CustomErrorHandler : option Z -> error -> Response := respond true.

(** Where a panic happened, as it is logged; [None]: the handler panics. *)
Definition api_CustomStackTraceHandler (stack : string) : option string := CustomStackTraceHandler stack.
Definition delegator_CustomStackTraceHandler (stack : string) : option string := CustomStackTraceHandler stack.
Definition boot_CustomStackTraceHandler (stack : string) : option string := CustomStackTraceHandler stack.

(** All of them answer alike; the errors of the API and of the delegator are not
    in their logs. *)
Lemma errors_answered_alike code err :
  let a := api_CustomErrorHandler code err in
  let d := delegator_CustomErrorHandler code err in
  let b := boot_CustomErrorHandler code err in
  (status a, body a) = CustomErrorHandler code err /\ a = d /\ (status b, body b) = (status a, body a) /\
  logged a = false /\ logged b = true.
Proof. by destruct code. Qed.
End ErrorHandlers.

(** ** Queries of handlers *)
Module Queries.
Section queries.
Context {Pool Rows T : Type}.
(** The zero value of the type; the driver: sending a query, and reading one row
    or all rows into structs ([None]: a nil slice); [errors.Is(err, pgx.ErrNoRows)]. *)
Context (zero : T) (Query : Pool -> res Rows)
  (CollectOneRow : Rows -> T * option error) (CollectRows : Rows -> option (list T) * option error)
  (Is_ErrNoRows : error -> bool).

(** [c.Locals("pgxConn")] as a pool. *)
Definition api_GetPgx (local : option Pool) : res Pool :=
  match local with Some con => Ok con | None => Err (External "failed to get pgxConn") end.
Definition delegator_GetPgx (local : option Pool) : res Pool :=
  match local with Some con => Ok con | None => Err (External "failed to get pgxConn") end.

Definition ignore_no_rows (err : option error) : option error :=
  match err with Some e => if Is_ErrNoRows e then None else Some e | None => None end.

Definition QueryRowWithoutFiberCtx (postgres : Pool) : T * option error :=
  match Query postgres with
  | Err e => (zero, Some e)
  | Ok rows => let '(result, err) := CollectOneRow rows in (result, ignore_no_rows err)
  end.
Definition QueryRowsWithoutFiberCtx (postgres : Pool) : option (list T) * option error :=
  match Query postgres with
  | Err e => (Some [], Some e)
  | Ok rows => let '(results, err) := CollectRows rows in (results, ignore_no_rows err)
  end.

Definition api_QueryRow (local : option Pool) : T * option error :=
  match api_GetPgx local with
  | Err e => (zero, Some e)
  | Ok pgxPool =>
      match Query pgxPool with
      | Err e => (zero, Some e)
      | Ok rows => let '(result, err) := CollectOneRow rows in (result, ignore_no_rows err)
      end
  end.
Definition api_QueryRows (local : option Pool) : option (list T) * option error :=
  match api_GetPgx local with
  | Err e => (Some [], Some e)
  | Ok pgxPool =>
      match Query pgxPool with
      | Err e => (Some [], Some e)
      | Ok rows =>
          let '(results, err) := CollectRows rows in
          match err with
          | Some e => if Is_ErrNoRows e then (Some [], None) else (results, err)
          | None => match results with None => (Some [], None) | Some _ => (results, None) end
          end
      end
  end.
(** The error of the execution is in [rows.Err()], which is not looked at. *)
Definition api_RawQueryWithoutReturn (local : option Pool) : option error :=
  match api_GetPgx local with
  | Err e => Some e
  | Ok pgxPool => match Query pgxPool with Err e => Some e | Ok _ => None end
  end.

(** Without an error the API has a list, so that its answer is never [null]. *)
Theorem api_rows_never_nil local results : api_QueryRows local = (results, None) -> is_Some results.
Proof. unfold api_QueryRows. intros H. repeat case_match; simplify_eq; eauto. Qed.

(** A missing row is no error: the answer is the zero value, which a caller
    cannot tell from a row. *)
Theorem missing_row_is_zero pool rows e :
  Query pool = Ok rows -> CollectOneRow rows = (zero, Some e) -> Is_ErrNoRows e = true ->
  api_QueryRow (Some pool) = (zero, None) /\ QueryRowWithoutFiberCtx pool = (zero, None).
Proof.
  intros Hq Hc He. unfold api_QueryRow, QueryRowWithoutFiberCtx, ignore_no_rows. simpl. by rewrite Hq, Hc, He.
Qed.
End queries.
End Queries.

(** ** The set-up of the delegator *)
Module DelegatorSetup.

(** [pool]: the error of [pgxpool.New].  An error of the fee payer's key is
    printed only. *)
Definition Setup (pool : option error) (E : PkEnv) (options : list string) : M string := fun w =>
  let version := default "test"%string (head options) in
  match pool with
  | Some e => (Fail e, w)
  | None =>
      match InitFeePayerPK E w with
      | (Panic, w) => (Panic, w)
      | (_, w) => (Done ("delegator " +:+ version)%string, w)
      end
  end.

(** With a database the service starts, also without a key of the fee payer; it
    panics exactly when the secret manager refuses the access it is asked for. *)
Theorem setup_starts E options w :
  match fst (Setup None E options w) with
  | Fail _ => False
  | Panic => envPk E = "" /\ useVault E = false /\ useGoogleSecretManager E = true /\ fromGSM E = None
  | Done name => name = ("delegator " +:+ default "test" (head options))%string /\
      ~ (envPk E = "" /\ useVault E = false /\ useGoogleSecretManager E = true /\ fromGSM E = None)
  end.
Proof.
  unfold Setup, InitFeePayerPK, LoadFeePayerFromVault, LoadFeePayerFromGSM, bind, UpdateFeePayer_.
  case_bool_decide as Hpk; simpl; [|naive_solver].
  destruct (useVault E) eqn:Hv; simpl; [destruct (fromVault E); simpl; naive_solver|].
  destruct (useGoogleSecretManager E) eqn:Hg; simpl; [|naive_solver].
  destruct (fromGSM E) as [[s|e]|] eqn:Hgsm; simpl; [case_bool_decide; simpl; naive_solver|naive_solver|done].
Qed.

(** The key is the one that was loaded, without its prefix if it came from a
    store, and none when loading failed. *)
Theorem setup_fee_payer E options w name w' :
  Setup None E options w = (Done name, w') ->
  w_feePayer w' =
    (if bool_decide (envPk E = "") then
       if useVault E then match fromVault E with Ok s => Text.TrimPrefix s "0x" | Err _ => "" end
       else if useGoogleSecretManager E then
         match fromGSM E with Some (Ok s) => Text.TrimPrefix s "0x" | _ => "" end
       else ""
     else envPk E)%string.
Proof.
  unfold Setup, InitFeePayerPK, LoadFeePayerFromVault, LoadFeePayerFromGSM, bind, UpdateFeePayer_, res_map.
  case_bool_decide as Hpk; simpl; [rewrite Hpk|by intros [= _ <-]].
  destruct (useVault E); simpl; [destruct (fromVault E); simpl; by intros [= _ <-]|].
  destruct (useGoogleSecretManager E); simpl; [|by intros [= _ <-]].
  destruct (fromGSM E) as [[s|e]|]; simpl; [|by intros [= _ <-]|done].
  case_bool_decide as Hs; simpl; intros [= _ <-]; [by subst s|done].
Qed.
End DelegatorSetup.
